(* ===== verification/_CoqProject ===== *)
-Q . S2P
Prelude.v
COutcome.v
ChipError.v
Endian.v
TlvTypes.v
Utf8Spec.v
TlvWriter.v
TlvReader.v
TlvTotal.v
TlvChain.v
TlvHead.v
TlvElement.v
TlvRead.v
TlvCopy.v
TlvSafety.v
TlvRoundtrip.v
PeerCounter.v
NvTypes.v
NvOps.v
NvCompact.v
NvItems.v
NvApi.v
NvFlash.v
NvLog.v
NvFind.v
NvPages.v
NvWrite.v
NvStore.v
NvDevice.v
NvKv.v
NvErase.v
NvScan.v
NvBoot.v
NvFormat.v
PacketBuffer.v
PacketBufferSpec.v
PacketBufferThm.v
BufferReader.v
MessageHeader.v
MessageHeaderSpec.v
MessageThm.v
Verhoeff.v
SetupPayload.v
ManualCode.v
ManualCodeThm.v
Base38.v
QrCode.v
QrBits.v
QrTlv.v
QrCodeThm.v
QrTotal.v
RamStorage.v
Peer.v
PeerSpec.v
Btp.v
BtpWindow.v
BtpSend.v
BtpReceive.v
BtpSafe.v
BtpLink.v
AccessTypes.v
AccessControl.v
AccessSpec.v
AclStorage.v
AclInv.v
AclShow.v
AclOps.v
AclDelete.v
AclThm.v
AclReach.v
PersistCounter.v
PersistThm.v
GroupPeers.v
GroupPeersThm.v
Mrp.v
ExchTypes.v
ExchOps.v
ExchInv.v
ExchSend.v
ExchThm.v
