(* ===== verification/Prelude.v ===== *)
(** * Verification of the Matter SDK, NXP edition

    The repository is the Matter (connectedhomeip) SDK with the platform layers of
    its vendors. This library models parts of it as Rocq functions, translated from
    the C and C++ sources, and proves what makes them correct. Paths below are
    under src/.

    ** The program

    The SDK core (src/lib, src/transport, src/messaging, src/app, src/ble,
    src/setup_payload, src/access) is written in C++; the platform layers
    (src/platform/<vendor>) adapt storage, Bluetooth, threads and timers and
    are partly C. A device keeps its configuration and fabrics in a key-value store
    of its platform, exchanges messages whose counters protect against replay, and
    finds its peers over Bluetooth. Data is encoded as TLV; a message is built in a
    packet buffer, with headers in front of it. A device is commissioned with the
    payload of its QR code or its manual pairing code.

    ** The files

    - Prelude: machine integers as [Z] with their wrap-around, the tactics and the
      lemmas that all components share.
    - COutcome: how a C call ends: it returns, fails an assertion or leaves an object;
      reading and writing of the bytes of an object.
    - ChipError: the error codes of src/lib/core/CHIPError.h that are used.

    TLV encoding, src/lib/core:
    - Endian: integers as bytes (CHIPEncoding.h).
    - TlvTypes: types, tags, fields (TLVTypes.h, TLVTags.h, TLVCommon.h) and the UTF-8
      check (src/lib/support/utf8.cpp); Utf8Spec: it accepts exactly the encodings of
      sequences of scalar values.
    - TlvWriter (TLVWriter.cpp) and TlvReader (TLVReader.cpp): all operations, the reader
      also over chains of buffers.
    - TlvTotal: the reader returns on arbitrary bytes and stays in its buffer.
    - TlvChain: a reader over a chain of buffers acts as one over their concatenation, for
      clients that copy bytes out of it.
    - TlvHead, TlvElement: heads, values and containers as bytes; the writer writes them.
    - TlvRead, TlvRoundtrip: a reader finds, skips and gives the elements written.
    - TlvCopy: the writer copies an element that the reader is on.
    - TlvSafety: the writer stays in its buffer, also with copies and container writers;
      without reservations, the errors of a put and room for the end of every container.

    Messages, src/system, src/lib/support and src/transport/raw:
    - PacketBuffer: SystemPacketBuffer.cpp. PacketBufferSpec, PacketBufferThm: the
      operations keep a chain well-formed and act on its bytes as documented; the two
      checks that may fail.
    - BufferReader: BufferReader.cpp.
    - MessageHeader: MessageHeader.cpp. MessageHeaderSpec, MessageThm: what headers the
      setters build, and the round trip of a message with both headers.

    Onboarding, src/setup_payload and src/lib/support:
    - Verhoeff: the check digit and the errors it finds (verhoeff/).
    - SetupPayload: the payload and its validation (SetupPayload.cpp,
      SetupDiscriminator.h).
    - ManualCode: generator and parser of the manual code; ManualCodeThm: the round trip,
      and refusal of codes with one wrong digit or two exchanged ones.
    - Base38: encoder and decoder, inverse to each other.
    - QrCode: optional data, generator and parser of the QR code. QrBits: packing of
      fields into bits; QrTlv: optional data as TLV, on top of the TLV library;
      QrCodeThm: the invariant of optional data and the round trip; QrTotal: the parser
      returns on every string.

    Message counters:
    - PeerCounter: src/transport/PeerMessageCounter.h. State of the counter of a
      peer (status, maximum, window bitmap), all operations, and the theorems that no
      message is accepted twice, that exactly the right messages are accepted, and
      that the state stays well-formed.
    - GroupPeers: the table of the senders of group messages
      (src/transport/GroupPeerMessageCounter.cpp); GroupPeersThm: it implements a map from
      fabric, kind and node to a counter, whatever it moves in its arrays.
    - PersistCounter: counters whose next start is kept in a key-value store
      (src/lib/support/PersistedCounter.h, the outgoing counters of
      GroupPeerMessageCounter.cpp), over an interface of the store ([KvStore], [KvLaws]);
      PersistThm: the values increase over restarts, receivers accept the messages of a
      sender that restarts, and what one failed write does.

    Exchanges and reliable messages, src/messaging:
    - Mrp: intervals (ReliableMessageProtocolConfig.cpp) and back-off
      ([ReliableMessageMgr::GetBackoff]) in their integer widths, against the formula of the
      specification, and the time until a sender gives up.
    - ExchTypes: flags, sessions, exchanges, table of retransmissions, timers and a trace of
      what the layer does, and a monad over them in which a call can die.
    - ExchOps: the operations of ReliableMessageMgr.cpp, ReliableMessageContext.cpp,
      ExchangeMessageDispatch.cpp, ExchangeContext.cpp and ExchangeMgr.cpp; transport,
      buffers, system timers and the delegates of the application are an environment
      ([Env]).
    - ExchInv: preconditions of monadic code, and the invariant that relates flags, table,
      reference counts, timers and the trace; the primitive operations. ExchSend: sending
      and closing.
    - ExchThm: receiving and timeouts; the layer as a state machine ([exec], [reachable]).
      Every call returns in every reachable state; reference counts are exact; the timer
      covers every deadline; acknowledgements are for received messages only; exactly the
      messages that are due are repeated, a bounded number of times; the handlers of unsolicited messages are a map.
      Runs show a timer that spins after the loss of a session, and requests and
      acknowledgements that are lost when sending fails.

    Bluetooth transport, src/ble:
    - Btp: BtpEngine.cpp, fragments and reassembly in packet buffers, sequence numbers,
      acknowledgements and windows.
    - BtpWindow: the queue of unacknowledged sequence numbers.
    - BtpSend, BtpReceive: the fragments of a message, and their reassembly.
    - BtpSafe: a receiver on arbitrary bytes.
    - BtpLink: two engines over a link that keeps the order: every message arrives, once,
      in order and unchanged, whatever the interleaving.

    Access control, src/access:
    - AccessTypes: node identifiers, CASE tags, privileges, requests (src/lib/core/NodeId.h,
      CASEAuthTag.h, DataModelTypes.h and src/access).
    - AccessControl: AccessControl.cpp and .h, against the interface of its delegate
      ([AclDelegate]). AccessSpec: what entries grant, what a delegate promises
      ([AclLaws]), and that the check decides as the entries say.
    - AclStorage: the delegate that keeps the list in memory
      (examples/ExampleAccessControlDelegate.cpp), with its pools and pointers, and targets
      in two words. AclInv: the invariant of objects and pools; AclShow: what objects and
      iterators show, and the promises; AclOps, AclDelete: what the operations do to the
      list.
    - AclThm: the operations of access control refine operations on the lists of entries of
      the fabrics. AclReach: all runs are safe, the check is exact in every state reached
      that has a free delegate and iterator, and the wrong pointers that deleting corrects.

    The NV item store, src/platform/cc13xx_26xx/nvocmp.c:
    - NvTypes: constants, page table, handle and driver state; the state and error
      monad [M]; the interfaces [NvCodes] (status codes), [Nvs] (the flash driver, a
      library) and the CRC.
    - NvOps: flash access, page headers, erase, item headers, CRC, end-of-data search,
      reading an item, parameter check.
    - NvCompact: compaction and page clean-up.
    - NvItems: search, destination page, writing and retiring an item, adding an item.
    - NvApi: page scan, initialisation and recovery, and the API functions.
    - NvFlash: the laws of a flash device ([NvsLaws], [NvsReliable]) and of the CRC
      ([CrcLaws]), and the behaviour of the access functions under them.
    - NvLog: items as bytes, the header round trip, pages as logs of items.
    - NvFind: the ring of pages ([ring], the invariant of the driver) and the search.
    - NvPages, NvWrite: a change confined to one page, retiring an item, choosing the
      destination page, appending an item.
    - NvStore: the abstract state, a finite map from identifiers to values
      ([represents], [store]), and reading.
    - NvDevice: a concrete NOR flash of three pages with a CRC-8 that satisfies the
      laws; the witnesses run on it.
    - NvKv: the item functions refine operations on the map.
    - NvErase, NvFormat: erasing and first start give the empty map, and runs at the edges
      of the parameters.
    - NvScan, NvBoot: a restart gives the same map, also after a power loss between
      writing a new copy and retiring the old one.

    Settings in RAM, src/platform/nxp/common/ram_storage.c:
    - RamStorage: blocks of bytes in a buffer; the functions refine operations on a list
      of entries; where 16-bit lengths wrap around, the buffer is overrun.

    Bluetooth peers, src/platform/ESP32/nimble/peer.c:
    - Peer: the lists of services, characteristics and descriptors, the discovery
      callbacks, and the calls by which it starts procedures in the stack.
    - PeerSpec: uniqueness and order in all reachable states, what reports do to
      the lists, blocks given back, and discovery that does not end.

    ** Modelling

    Pure functions are functions; code that changes state takes and returns it, or runs
    in a state and error monad. Loops are [Fixpoint]s over fuel that the theorems show to
    be enough: [findItem_fuel] (40000) exceeds 12 pages of at most 290 items each,
    the other loops have the number of pages, of bytes or of nodes as fuel: the loops of
    the TLV reader that skip, search or count have the bytes left and one more, since
    each turn consumes a byte; base 38 and the packet buffer loops the length of their
    input; bits of a field are written in at most 64 turns; the check of a request has
    one more than the entries of the list. The loops of the exchange layer run over its
    pools, as they are when the loop starts. A C integer of
    [w] bits is a [Z], truncated where the code stores it. What the repository does
    not contain (flash driver, CRC, battery monitor, BLE stack, memory pools, file
    system) is a parameter, with its documented behaviour as the laws of a class, and
    each theorem about it has a witness on a concrete instance.

    nvocmp.c is modelled in the configuration the SDK builds: twelve pages at most, no
    migration of the older format, no RAM optimisation, no statistics, same-item check
    on. Interrupts and the lock around the API are not modelled: a call is atomic, and
    a power loss is the end of a call at a write.

    The TLV library is parametrised by its two build arguments for the check of strings
    ([TlvConfig]). The writer writes into one buffer. Packet buffers are modelled in the
    configuration with a heap and without LwIP, as one handle sees them: a chain that is
    shared has reference counts above one. A vector of [n] elements has the capacity
    [n].

    ** Not modelled

    Compaction ([NVOCMP_compactPage]) is modelled but not yet covered by theorems. Of TLV,
    the backing stores of the writer, the updater and the formatted output through
    callbacks are left out. Of access control, the overloads that take an index in the
    whole list and the copy through the interface of an entry are left out; objects of the
    classes [Entry] and [EntryIterator] live at addresses that the caller chooses. Of the
    Bluetooth transport, the connections (BLEEndPoint.cpp) with their timers are left out.
    Of the exchange layer, [AbortAllOtherCommunicationOnFabric], the dispatch of check-in
    messages and the options for sleepy devices, TCP and refreshing a peer's address are left
    out; the session manager below it is part of its environment, and a session is there as
    long as an exchange uses it. A delegate acts on the exchange it was called for. Sessions, certificates and cryptography run on libraries that
    are not in the repository; the interaction model and the clusters are largely driven
    by generated tables; the other platforms adapt vendor libraries. *)

From Stdlib Require Export ZArith Lia.
From stdpp Require Export base gmap numbers functions.
From stdpp Require Export list.

#[global] Open Scope Z_scope.

(** ** Machine integers

    A [w]-bit unsigned value of the source is a [Z] in [[0, 2^w)]; an
    assignment to a variable of that type truncates with the functions below. *)

Definition u8  (z : Z) : Z := z mod 2 ^ 8.
Definition u16 (z : Z) : Z := z mod 2 ^ 16.
Definition u32 (z : Z) : Z := z mod 2 ^ 32.
Definition u64 (z : Z) : Z := z mod 2 ^ 64.

(** Reinterpretation of the low 16 bits as a signed [int16_t]. *)
Definition s16 (z : Z) : Z := (z + 2 ^ 15) mod 2 ^ 16 - 2 ^ 15.

Definition in_u8  (z : Z) : Prop := 0 <= z < 2 ^ 8.
Definition in_u16 (z : Z) : Prop := 0 <= z < 2 ^ 16.
Definition in_u32 (z : Z) : Prop := 0 <= z < 2 ^ 32.
Definition in_u64 (z : Z) : Prop := 0 <= z < 2 ^ 64.

(** C truth value: everything but zero is true. *)
Definition ctrue (z : Z) : bool := negb (z =? 0).

Create HintDb width.

Lemma u8_range z : in_u8 (u8 z).
Proof. apply Z.mod_pos_bound. lia. Qed.

Lemma u16_range z : in_u16 (u16 z).
Proof. apply Z.mod_pos_bound. lia. Qed.

Lemma u32_range z : in_u32 (u32 z).
Proof. apply Z.mod_pos_bound. lia. Qed.

Lemma u64_range z : in_u64 (u64 z).
Proof. apply Z.mod_pos_bound. lia. Qed.

Lemma u8_id z : in_u8 z → u8 z = z.
Proof. apply Z.mod_small. Qed.

Lemma u16_id z : in_u16 z → u16 z = z.
Proof. apply Z.mod_small. Qed.

Lemma u32_id z : in_u32 z → u32 z = z.
Proof. apply Z.mod_small. Qed.

Lemma u64_id z : in_u64 z → u64 z = z.
Proof. apply Z.mod_small. Qed.

#[export] Hint Resolve u8_range u16_range u32_range u64_range : width.

(** [solve_width] closes linear goals about values whose width predicates are folded. *)
Ltac solve_width := unfold in_u8, in_u16, in_u32, in_u64 in *; lia.

(** [wrap_lia] also unfolds the truncations, for goals that [lia] decides after
    turning [mod] into linear constraints. *)
Ltac wrap_lia :=
  unfold u8, u16, u32, u64, s16, in_u8, in_u16, in_u32, in_u64 in *;
  change (2 ^ 8) with 256 in *; change (2 ^ 16) with 65536 in *;
  change (2 ^ 15) with 32768 in *;
  change (2 ^ 32) with 4294967296 in *;
  change (2 ^ 64) with 18446744073709551616 in *;
  Z.div_mod_to_equations; lia.

(** ** Boolean comparisons to propositions *)

(** Case on every boolean [Z] test that blocks the goal, and keep the
    propositional fact in the context. *)
Ltac zcase :=
  match goal with
  | |- context [Z.ltb ?a ?b] => destruct (Z.ltb_spec a b)
  | |- context [Z.leb ?a ?b] => destruct (Z.leb_spec a b)
  | |- context [Z.eqb ?a ?b] => destruct (Z.eqb_spec a b)
  end.

Ltac zcase_in H :=
  match type of H with
  | context [Z.ltb ?a ?b] => destruct (Z.ltb_spec a b)
  | context [Z.leb ?a ?b] => destruct (Z.leb_spec a b)
  | context [Z.eqb ?a ?b] => destruct (Z.eqb_spec a b)
  end.

Ltac zbool :=
  repeat match goal with
  | H : (_ && _)%bool = true |- _ => apply andb_prop in H; destruct H
  | H : (_ <? _) = true |- _ => apply Z.ltb_lt in H
  | H : (_ <? _) = false |- _ => apply Z.ltb_ge in H
  | H : (_ <=? _) = true |- _ => apply Z.leb_le in H
  | H : (_ <=? _) = false |- _ => apply Z.leb_gt in H
  | H : (_ =? _) = true |- _ => apply Z.eqb_eq in H
  | H : (_ =? _) = false |- _ => apply Z.eqb_neq in H
  | H : negb _ = true |- _ => apply negb_true_iff in H
  | H : negb _ = false |- _ => apply negb_false_iff in H
  end.

(** ** Bytes *)

Definition is_bytes (l : list Z) : Prop := Forall in_u8 l.

Lemma is_bytes_app l1 l2 : is_bytes (l1 ++ l2) ↔ is_bytes l1 ∧ is_bytes l2.
Proof. apply Forall_app. Qed.

(** ** Bit fields as arithmetic *)

Lemma land_mod n x : 0 <= n → Z.land x (2 ^ n - 1) = x mod 2 ^ n.
Proof. intros. rewrite <- Z.land_ones by done. by rewrite Z.ones_equiv, Z.sub_1_r. Qed.

Lemma lor_shiftl_add a b n :
  0 <= n → 0 <= b < 2 ^ n → Z.lor (Z.shiftl a n) b = a * 2 ^ n + b.
Proof.
  intros Hn Hb. rewrite <- Z.shiftl_mul_pow2 by done.
  rewrite <- Z.add_lor_land.
  assert (Z.land (Z.shiftl a n) b = 0) as ->; [|lia].
  destruct (decide (b = 0)) as [->|]; [apply Z.land_0_r|].
  apply Z.bits_inj'. intros i Hi. rewrite Z.land_spec, Z.bits_0, Z.shiftl_spec by done.
  destruct (Z.ltb_spec i n).
  - by rewrite Z.testbit_neg_r by lia.
  - rewrite (Z.bits_above_log2 b i), andb_false_r; try lia.
    apply Z.log2_lt_pow2; [lia|]. apply Z.lt_le_trans with (2 ^ n); [lia|].
    apply Z.pow_le_mono_r; lia.
Qed.
