(* ===== verification/COutcome.v ===== *)
(** * Outcomes of C calls

    A call returns a value, or ends in a failed assertion, an access outside an
    object, or a loop without end. *)

From S2P Require Import Prelude.

(** How a call may end other than by returning. *)
Inductive crash := AssertFailed | OutOfBounds | NoReturn.

Inductive outcome (A : Type) := Returns (a : A) | Crashes (c : crash).
Arguments Returns {A} a.
Arguments Crashes {A} c.

Definition obind {A B} (o : outcome A) (k : A → outcome B) : outcome B :=
  match o with Returns a => k a | Crashes c => Crashes c end.
Notation "'let+' x ':=' o 'in' k" := (obind o (λ x, k)) (at level 10, x pattern, o at level 100, k at level 200).

(** [assert(cond)] in front of [k]; [NDEBUG] tells whether it is compiled out. *)
Definition c_assert {A} (NDEBUG cond : bool) (k : outcome A) : outcome A :=
  if cond || NDEBUG then k else Crashes AssertFailed.

(** ** Memory *)

Definition slice (l : list Z) (i n : Z) : list Z := take (Z.to_nat n) (drop (Z.to_nat i) l).

(** The [n] bytes from [i], when they are inside the object. *)
Definition mem_read (l : list Z) (i n : Z) : outcome (list Z) :=
  if (0 <=? i) && (i + n <=? Z.of_nat (length l)) then Returns (slice l i n) else Crashes OutOfBounds.

Definition mem_write (l : list Z) (i : Z) (bs : list Z) : outcome (list Z) :=
  if (0 <=? i) && (i + Z.of_nat (length bs) <=? Z.of_nat (length l))
  then Returns (take (Z.to_nat i) l ++ bs ++ drop (Z.to_nat i + length bs) l)
  else Crashes OutOfBounds.

Lemma mem_read_mid A B C :
  mem_read (A ++ B ++ C) (Z.of_nat (length A)) (Z.of_nat (length B)) = Returns B.
Proof.
  unfold mem_read, slice. rewrite !length_app, !Nat2Z.id.
  destruct (Z.leb_spec 0 (Z.of_nat (length A))) as [_|]; [|lia].
  destruct (Z.leb_spec (Z.of_nat (length A) + Z.of_nat (length B))
    (Z.of_nat (length A + (length B + length C)))) as [_|]; [|lia]. simpl.
  by rewrite drop_app_length, take_app_length.
Qed.

Lemma mem_write_mid A B B' C :
  length B' = length B → mem_write (A ++ B ++ C) (Z.of_nat (length A)) B' = Returns (A ++ B' ++ C).
Proof.
  intros Hl. unfold mem_write. rewrite !length_app, Nat2Z.id.
  destruct (Z.leb_spec 0 (Z.of_nat (length A))) as [_|]; [|lia].
  destruct (Z.leb_spec (Z.of_nat (length A) + Z.of_nat (length B'))
    (Z.of_nat (length A + (length B + length C)))) as [_|]; [|lia]. simpl.
  rewrite take_app_length. do 2 f_equal. rewrite Hl, <- drop_drop, drop_app_length. by rewrite drop_app_length.
Qed.

Lemma mem_write_at A X B :
  (length B <= length X)%nat → mem_write (A ++ X) (Z.of_nat (length A)) B = Returns (A ++ B ++ drop (length B) X).
Proof.
  intros Hl. rewrite <- (take_drop (length B) X) at 1. apply mem_write_mid. rewrite length_take. lia.
Qed.
