(* ===== verification/ChipError.v ===== *)
(** * Error codes

    The [CHIP_ERROR] codes (src/src/lib/core/CHIPError.h and src/src/ble/BleError.h) that
    the modelled components return or test; [CHIP_ERROR_POSIX(code)] of sockets is
    one constructor per [code]. *)

From S2P Require Import Prelude.

Inductive chip_error :=
| CHIP_NO_ERROR
| CHIP_ERROR_INCORRECT_STATE
| CHIP_ERROR_TOO_MANY_PEER_NODES
| CHIP_ERROR_NO_MEMORY
| CHIP_ERROR_INVALID_TLV_CHAR_STRING
| CHIP_ERROR_BUFFER_TOO_SMALL
| CHIP_ERROR_END_OF_TLV
| CHIP_ERROR_TLV_UNDERRUN
| CHIP_ERROR_INVALID_TLV_ELEMENT
| CHIP_ERROR_INVALID_TLV_TAG
| CHIP_ERROR_UNKNOWN_IMPLICIT_TLV_TAG
| CHIP_ERROR_WRONG_TLV_TYPE
| CHIP_ERROR_TLV_CONTAINER_OPEN
| CHIP_ERROR_UNEXPECTED_TLV_ELEMENT
| CHIP_ERROR_INVALID_ARGUMENT
| CHIP_ERROR_TLV_TAG_NOT_FOUND
| CHIP_ERROR_MESSAGE_COUNTER_EXHAUSTED
| CHIP_ERROR_INVALID_INTEGER_VALUE
| CHIP_ERROR_PERSISTED_STORAGE_VALUE_NOT_FOUND
| CHIP_ERROR_INTERNAL
| CHIP_ERROR_DUPLICATE_MESSAGE_RECEIVED
| CHIP_ERROR_NOT_FOUND
| CHIP_ERROR_NOT_IMPLEMENTED
| CHIP_ERROR_INVALID_UTF8
| CHIP_ERROR_MESSAGE_TOO_LONG
| CHIP_ERROR_VERSION_MISMATCH
| CHIP_ERROR_INVALID_STRING_LENGTH
| CHIP_ERROR_INTEGRITY_CHECK_FAILED
| CHIP_ERROR_KEY_NOT_FOUND
| CHIP_ERROR_WRONG_ENCRYPTION_TYPE
| CHIP_ERROR_WRONG_ENCRYPTION_TYPE_FROM_PEER
| CHIP_ERROR_INBOUND_MESSAGE_TOO_BIG
| CHIP_ERROR_ACCESS_DENIED
| CHIP_ERROR_ACCESS_RESTRICTED_BY_ARL
| CHIP_ERROR_RETRANS_TABLE_FULL
| CHIP_ERROR_CONNECTION_ABORTED
| CHIP_ERROR_MISSING_SECURE_SESSION
| CHIP_ERROR_OUTBOUND_MESSAGE_TOO_BIG
| CHIP_ERROR_TOO_MANY_UNSOLICITED_MESSAGE_HANDLERS
| CHIP_ERROR_NO_UNSOLICITED_MESSAGE_HANDLER
| CHIP_ERROR_POSIX_ENOBUFS
| CHIP_ERROR_POSIX_EHOSTUNREACH
| CHIP_ERROR_POSIX_ENETUNREACH
| CHIP_ERROR_POSIX_EADDRNOTAVAIL
| CHIP_ERROR_POSIX_EPIPE
| CHIP_ERROR_SENTINEL
| BLE_ERROR_INVALID_ACK
| BLE_ERROR_INVALID_BTP_SEQUENCE_NUMBER
| BLE_ERROR_INVALID_BTP_HEADER_FLAGS
| BLE_ERROR_REASSEMBLER_INCORRECT_STATE
| BLE_ERROR_REASSEMBLER_MISSING_DATA.

#[export] Instance chip_error_eq_dec : EqDecision chip_error.
Proof. solve_decision. Defined.
