(* ===== verification/Endian.v ===== *)
(** * Integers as bytes

    Reading and writing integers of 8 to 64 bits in little-endian order
    (src/src/lib/core/CHIPEncoding.h). A pointer that is read from and moved on is
    the list of the bytes from it to the end of its object. *)

From S2P Require Import Prelude.

(** The [n] low bytes of [z], least significant first. *)
Fixpoint le_encode (n : nat) (z : Z) : list Z :=
  match n with
  | O => []
  | S n => u8 z :: le_encode n (z / 2 ^ 8)
  end.

Fixpoint le_decode (l : list Z) : Z :=
  match l with
  | [] => 0
  | b :: l => b + 2 ^ 8 * le_decode l
  end.

Definition Write8 (v : Z) : list Z := le_encode 1 v.
Definition Write16 (v : Z) : list Z := le_encode 2 v.
Definition Write32 (v : Z) : list Z := le_encode 4 v.
Definition Write64 (v : Z) : list Z := le_encode 8 v.

Definition read_le (n : nat) (p : list Z) : Z * list Z := (le_decode (take n p), drop n p).
Definition Read8 (p : list Z) : Z * list Z := read_le 1 p.
Definition Read16 (p : list Z) : Z * list Z := read_le 2 p.
Definition Read32 (p : list Z) : Z * list Z := read_le 4 p.
Definition Read64 (p : list Z) : Z * list Z := read_le 8 p.

(** ** Laws *)

Lemma le_encode_length n z : length (le_encode n z) = n.
Proof. revert z. induction n as [|n IH]; intros z; cbn; [done|by rewrite IH]. Qed.

Lemma le_encode_bytes n z : is_bytes (le_encode n z).
Proof.
  revert z. induction n as [|n IH]; intros z; cbn; constructor; [apply u8_range|apply IH].
Qed.

Lemma le_decode_encode n z : le_decode (le_encode n z) = z mod 2 ^ (8 * Z.of_nat n).
Proof.
  revert z. induction n as [|n IH]; intros z; cbn [le_encode le_decode].
  { by rewrite Z.mod_1_r. }
  rewrite IH. replace (8 * Z.of_nat (S n)) with (8 + 8 * Z.of_nat n) by lia.
  rewrite Z.pow_add_r by lia. rewrite Z.rem_mul_r by lia. unfold u8. lia.
Qed.

Lemma le_decode_range l : is_bytes l → 0 <= le_decode l < 2 ^ (8 * Z.of_nat (length l)).
Proof.
  induction 1 as [|b l Hb Hl IH]; cbn [le_decode length]; [lia|].
  replace (8 * Z.of_nat (S (length l))) with (8 + 8 * Z.of_nat (length l)) by lia.
  rewrite Z.pow_add_r by lia. unfold in_u8 in Hb. nia.
Qed.

Lemma read_le_encode n z rest :
  read_le n (le_encode n z ++ rest) = (z mod 2 ^ (8 * Z.of_nat n), rest).
Proof.
  unfold read_le. rewrite take_app_length' by (by rewrite le_encode_length).
  rewrite drop_app_length' by (by rewrite le_encode_length). by rewrite le_decode_encode.
Qed.

Lemma le_encode_mod n z : le_encode n (z mod 2 ^ (8 * Z.of_nat n)) = le_encode n z.
Proof.
  revert z. induction n as [|n IH]; intros z; cbn [le_encode]; [done|].
  replace (8 * Z.of_nat (S n)) with (8 + 8 * Z.of_nat n) by lia.
  rewrite Z.pow_add_r by lia. rewrite Z.rem_mul_r by lia.
  assert (0 < 2 ^ (8 * Z.of_nat n)) by lia.
  f_equal.
  - unfold u8. rewrite Z.mul_comm, Z.mod_add by lia. by rewrite Z.mod_mod.
  - rewrite <- (IH (z / 2 ^ 8)). f_equal.
    rewrite Z.mul_comm, Z.div_add by lia. rewrite (Z.div_small (z mod 2 ^ 8)); [lia|].
    apply Z.mod_pos_bound. lia.
Qed.

Lemma le_encode_decode l : is_bytes l → le_encode (length l) (le_decode l) = l.
Proof.
  induction 1 as [|b l Hb Hl IH]; [done|]. cbn [length le_decode le_encode]. f_equal.
  - unfold u8. rewrite Z.mul_comm, Z.mod_add by lia. apply Z.mod_small. solve_width.
  - rewrite Z.mul_comm, Z.div_add, Z.div_small by solve_width. exact IH.
Qed.

Lemma Read8_Write8 z rest : Read8 (Write8 z ++ rest) = (u8 z, rest).
Proof. apply (read_le_encode 1). Qed.
Lemma Read16_Write16 z rest : Read16 (Write16 z ++ rest) = (u16 z, rest).
Proof. apply (read_le_encode 2). Qed.
Lemma Read32_Write32 z rest : Read32 (Write32 z ++ rest) = (u32 z, rest).
Proof. apply (read_le_encode 4). Qed.
Lemma Read64_Write64 z rest : Read64 (Write64 z ++ rest) = (u64 z, rest).
Proof. apply (read_le_encode 8). Qed.

Create Rewrite HintDb endian.
#[export] Hint Rewrite Read8_Write8 Read16_Write16 Read32_Write32 Read64_Write64 : endian.
