(* ===== verification/TlvTypes.v ===== *)
(** * TLV: tags, element types and fields

    The constants and predicates of src/src/lib/core/TLVTypes.h, TLVTags.h and
    TLVCommon.h, and the UTF-8 check of src/src/lib/support/utf8.cpp. An enumeration
    whose values the code masks, shifts and compares is its underlying integer. *)

From S2P Require Import Prelude.
From S2P Require Import Endian.

(** The build arguments [chip_tlv_validate_char_string_on_write] and [..._on_read]. *)
Class TlvConfig := {
  TLV_VALIDATE_CHAR_STRING_ON_WRITE : bool;
  TLV_VALIDATE_CHAR_STRING_ON_READ : bool
}.

(** The configuration of the default build. *)
Definition default_config : TlvConfig :=
  {| TLV_VALIDATE_CHAR_STRING_ON_WRITE := true; TLV_VALIDATE_CHAR_STRING_ON_READ := false |}.

Definition UINT8_MAX : Z := 0xFF.
Definition UINT16_MAX : Z := 0xFFFF.
Definition UINT32_MAX : Z := 0xFFFFFFFF.

(** ** Types *)

Definition kTLVType_NotSpecified : Z := -1.
Definition kTLVType_UnknownContainer : Z := -2.
Definition kTLVType_SignedInteger : Z := 0x00.
Definition kTLVType_UnsignedInteger : Z := 0x04.
Definition kTLVType_Boolean : Z := 0x08.
Definition kTLVType_FloatingPointNumber : Z := 0x0A.
Definition kTLVType_UTF8String : Z := 0x0C.
Definition kTLVType_ByteString : Z := 0x10.
Definition kTLVType_Null : Z := 0x14.
Definition kTLVType_Structure : Z := 0x15.
Definition kTLVType_Array : Z := 0x16.
Definition kTLVType_List : Z := 0x17.

Module TLVElementType.
Definition NotSpecified : Z := -1.
Definition Int8 : Z := 0x00.
Definition Int16 : Z := 0x01.
Definition Int32 : Z := 0x02.
Definition Int64 : Z := 0x03.
Definition UInt8 : Z := 0x04.
Definition UInt16 : Z := 0x05.
Definition UInt32 : Z := 0x06.
Definition UInt64 : Z := 0x07.
Definition BooleanFalse : Z := 0x08.
Definition BooleanTrue : Z := 0x09.
Definition FloatingPointNumber32 : Z := 0x0A.
Definition FloatingPointNumber64 : Z := 0x0B.
Definition UTF8String_1ByteLength : Z := 0x0C.
Definition UTF8String_8ByteLength : Z := 0x0F.
Definition ByteString_1ByteLength : Z := 0x10.
Definition ByteString_8ByteLength : Z := 0x13.
Definition Null : Z := 0x14.
Definition Structure : Z := 0x15.
Definition Array : Z := 0x16.
Definition List : Z := 0x17.
Definition EndOfContainer : Z := 0x18.
End TLVElementType.

Definition kTLVTypeMask : Z := 0x1F.
Definition kTLVTypeSizeMask : Z := 0x03.
Definition kTLVControlByte_NotSpecified : Z := 0xFFFF.

Definition IsValidTLVType (type : Z) : bool := type <=? TLVElementType.EndOfContainer.

Definition TLVTypeHasValue (type : Z) : bool :=
  (type <=? TLVElementType.UInt64)
  || (TLVElementType.FloatingPointNumber32 <=? type) && (type <=? TLVElementType.ByteString_8ByteLength).

Definition TLVTypeHasLength (type : Z) : bool :=
  (TLVElementType.UTF8String_1ByteLength <=? type) && (type <=? TLVElementType.ByteString_8ByteLength).

Definition TLVTypeIsContainer (type : Z) : bool :=
  (TLVElementType.Structure <=? type) && (type <=? TLVElementType.List).

Definition TLVTypeIsString (type : Z) : bool :=
  (TLVElementType.UTF8String_1ByteLength <=? type) && (type <=? TLVElementType.ByteString_8ByteLength).

Definition TLVTypeIsUTF8String (type : Z) : bool :=
  (TLVElementType.UTF8String_1ByteLength <=? type) && (type <=? TLVElementType.UTF8String_8ByteLength).

Definition TLVTypeIsByteString (type : Z) : bool :=
  (TLVElementType.ByteString_1ByteLength <=? type) && (type <=? TLVElementType.ByteString_8ByteLength).

Definition kTLVFieldSize_0Byte : Z := -1.
Definition kTLVFieldSize_1Byte : Z := 0.
Definition kTLVFieldSize_2Byte : Z := 1.
Definition kTLVFieldSize_4Byte : Z := 2.
Definition kTLVFieldSize_8Byte : Z := 3.

Definition GetTLVFieldSize (type : Z) : Z :=
  if TLVTypeHasValue type then Z.land (u8 type) kTLVTypeSizeMask else kTLVFieldSize_0Byte.

Definition TLVFieldSizeToBytes (fieldSize : Z) : Z :=
  u8 (if negb (fieldSize =? kTLVFieldSize_0Byte) then Z.shiftl 1 fieldSize else 0).

(** ** Tags

    A tag is its 64-bit representation: the negated profile above the number. *)

Definition kContextTagMaxNum : Z := 255.
Definition kAnonymousTagNum : Z := 256.
Definition kUnknownImplicitTagNum : Z := 257.
Definition kSpecialTagProfileId : Z := 0xFFFFFFFF.
Definition kProfileIdNotSpecified : Z := 0xFFFFFFFF.
Definition kCommonProfileId : Z := 0.

Module TLVTagControl.
Definition Anonymous : Z := 0x00.
Definition ContextSpecific : Z := 0x20.
Definition CommonProfile_2Bytes : Z := 0x40.
Definition CommonProfile_4Bytes : Z := 0x60.
Definition ImplicitProfile_2Bytes : Z := 0x80.
Definition ImplicitProfile_4Bytes : Z := 0xA0.
Definition FullyQualified_6Bytes : Z := 0xC0.
Definition FullyQualified_8Bytes : Z := 0xE0.
End TLVTagControl.

Definition kTLVTagControlMask : Z := 0xE0.
Definition kTLVTagControlShift : Z := 5.

Definition ProfileTag (profileId tagNum : Z) : Z :=
  Z.lor (u64 (Z.shiftl (u32 (Z.lnot profileId)) 32)) tagNum.

Definition ProfileTag3 (vendorId profileNum tagNum : Z) : Z :=
  ProfileTag (Z.lor (u32 (Z.shiftl vendorId 16)) profileNum) tagNum.

Definition ContextTag (tagNum : Z) : Z := ProfileTag kSpecialTagProfileId tagNum.
Definition CommonTag (tagNum : Z) : Z := ProfileTag kCommonProfileId tagNum.
Definition AnonymousTag : Z := ProfileTag kSpecialTagProfileId kAnonymousTagNum.
Definition UnknownImplicitTag : Z := ProfileTag kSpecialTagProfileId kUnknownImplicitTagNum.

Definition ProfileIdFromTag (tag : Z) : Z := u32 (Z.lnot (u32 (Z.shiftr tag 32))).
Definition VendorIdFromTag (tag : Z) : Z := u16 (Z.shiftr (ProfileIdFromTag tag) 16).
Definition ProfileNumFromTag (tag : Z) : Z := u16 (ProfileIdFromTag tag).
Definition TagNumFromTag (tag : Z) : Z := u32 tag.

Definition IsProfileTag (tag : Z) : bool := negb (ProfileIdFromTag tag =? kSpecialTagProfileId).
Definition IsContextTag (tag : Z) : bool :=
  (ProfileIdFromTag tag =? kSpecialTagProfileId) && (TagNumFromTag tag <=? kContextTagMaxNum).
Definition IsSpecialTag (tag : Z) : bool := ProfileIdFromTag tag =? kSpecialTagProfileId.

(** ** UTF-8 *)

Module Utf8.

Inductive ParserState :=
| kFirstByte | kSecondByte_A | kSecondByte_B | kSecondByte_C | kSecondByte_D
| kExtraOneByte | kExtraTwoBytes | kExtraThreeBytes | kInvalid.

#[export] Instance ParserState_eq_dec : EqDecision ParserState.
Proof. solve_decision. Defined.

Definition within (lo hi value : Z) : bool := (lo <=? value) && (value <=? hi).

Definition NextState (state : ParserState) (value : Z) : ParserState :=
  match state with
  | kFirstByte =>
      if value <=? 0x7F then kFirstByte
      else if within 0xC2 0xDF value then kExtraOneByte
      else if value =? 0xE0 then kSecondByte_A
      else if within 0xE1 0xEC value then kExtraTwoBytes
      else if value =? 0xED then kSecondByte_B
      else if within 0xEE 0xEF value then kExtraTwoBytes
      else if value =? 0xF0 then kSecondByte_C
      else if within 0xF1 0xF3 value then kExtraThreeBytes
      else if value =? 0xF4 then kSecondByte_D
      else kInvalid
  | kSecondByte_A => if within 0xA0 0xBF value then kExtraOneByte else kInvalid
  | kSecondByte_B => if within 0x80 0x9F value then kExtraOneByte else kInvalid
  | kSecondByte_C => if within 0x90 0xBF value then kExtraTwoBytes else kInvalid
  | kSecondByte_D => if within 0x80 0x8F value then kExtraTwoBytes else kInvalid
  | kExtraOneByte => if within 0x80 0xBF value then kFirstByte else kInvalid
  | kExtraTwoBytes => if within 0x80 0xBF value then kExtraOneByte else kInvalid
  | kExtraThreeBytes => if within 0x80 0xBF value then kExtraTwoBytes else kInvalid
  | kInvalid => kInvalid
  end.

(** The loop of [IsValid] from [state] on. *)
Fixpoint valid_from (state : ParserState) (data : list Z) : bool :=
  match data with
  | [] => bool_decide (state = kFirstByte)
  | b :: data =>
      let state := NextState state (u8 b) in
      if bool_decide (state = kInvalid) then false else valid_from state data
  end.

Definition IsValid (data : list Z) : bool := valid_from kFirstByte data.

End Utf8.
