(* ===== verification/Utf8Spec.v ===== *)
(** * UTF-8: the check and the encoding

    [Utf8::IsValid] accepts a byte string exactly when it is the encoding of a sequence of
    Unicode scalar values. *)

From S2P Require Import Prelude.
From S2P Require Import TlvTypes.

Import Utf8.

(** ** The encoding of code points *)

(** Scalar values: the code points that are not surrogates. *)
Definition is_scalar (cp : Z) : Prop := 0 <= cp <= 0x10FFFF ∧ (0xD800 <= cp <= 0xDFFF → False).

Definition utf8_encode (cp : Z) : list Z :=
  if cp <? 0x80 then [cp]
  else if cp <? 0x800 then [0xC0 + cp / 64; 0x80 + cp mod 64]
  else if cp <? 0x10000 then [0xE0 + cp / 4096; 0x80 + cp / 64 mod 64; 0x80 + cp mod 64]
  else [0xF0 + cp / 262144; 0x80 + cp / 4096 mod 64; 0x80 + cp / 64 mod 64; 0x80 + cp mod 64].

Definition utf8_text (cps : list Z) : list Z := concat (map utf8_encode cps).

(** ** The state machine *)

Lemma valid_from_step st b l :
  0 <= b < 256 → valid_from st (b :: l) = true ↔ NextState st b ≠ kInvalid ∧ valid_from (NextState st b) l = true.
Proof.
  intros Hb. cbn [valid_from]. rewrite u8_id by done. case_bool_decide as E; [|tauto].
  split; [done|]. by intros [? _].
Qed.

Lemma within_spec lo hi v : within lo hi v = true ↔ lo <= v <= hi.
Proof. unfold within. rewrite andb_true_iff, !Z.leb_le. done. Qed.

(** A state that waits for one range of bytes. *)
Lemma valid_from_range st lo hi st' b l :
  (∀ v, NextState st v = if within lo hi v then st' else kInvalid) → st' ≠ kInvalid →
  0 <= lo → hi < 256 → lo <= b <= hi → valid_from st (b :: l) = valid_from st' l.
Proof.
  intros Hst Hne Hlo Hhi Hb. cbn [valid_from]. rewrite u8_id by solve_width.
  rewrite Hst, (proj2 (within_spec lo hi b)) by done. by rewrite bool_decide_false.
Qed.

Lemma valid_from_range_inv st lo hi st' l :
  (∀ v, NextState st v = if within lo hi v then st' else kInvalid) → st ≠ kFirstByte → is_bytes l →
  valid_from st l = true → ∃ b l', l = b :: l' ∧ lo <= b <= hi ∧ is_bytes l' ∧ valid_from st' l' = true.
Proof.
  intros Hst Hne Hl Hv. destruct l as [|b l]; cbn [valid_from] in Hv.
  { by rewrite bool_decide_false in Hv. }
  apply Forall_cons in Hl as [Hb Hl]. rewrite u8_id, Hst in Hv by done. destruct (within lo hi b) eqn:Hw; [|done].
  apply within_spec in Hw. exists b, l. split_and!; try done; try lia. by case_bool_decide.
Qed.

Definition step_extra1 := valid_from_range kExtraOneByte 0x80 0xBF kFirstByte.
Definition step_extra2 := valid_from_range kExtraTwoBytes 0x80 0xBF kExtraOneByte.
Definition step_extra3 := valid_from_range kExtraThreeBytes 0x80 0xBF kExtraTwoBytes.
Definition step_A := valid_from_range kSecondByte_A 0xA0 0xBF kExtraOneByte.
Definition step_B := valid_from_range kSecondByte_B 0x80 0x9F kExtraOneByte.
Definition step_C := valid_from_range kSecondByte_C 0x90 0xBF kExtraTwoBytes.
Definition step_D := valid_from_range kSecondByte_D 0x80 0x8F kExtraTwoBytes.

Lemma valid_from_first b l st :
  0 <= b < 256 → NextState kFirstByte b = st → st ≠ kInvalid → valid_from kFirstByte (b :: l) = valid_from st l.
Proof. intros Hb Hst Hne. cbn [valid_from]. rewrite u8_id, Hst by done. by rewrite bool_decide_false. Qed.

(** The first byte decides the row of the table. *)
Inductive first_row (b : Z) : ParserState → Prop :=
| row_ascii : 0 <= b <= 0x7F → first_row b kFirstByte
| row_two : 0xC2 <= b <= 0xDF → first_row b kExtraOneByte
| row_A : b = 0xE0 → first_row b kSecondByte_A
| row_three : 0xE1 <= b <= 0xEC ∨ 0xEE <= b <= 0xEF → first_row b kExtraTwoBytes
| row_B : b = 0xED → first_row b kSecondByte_B
| row_C : b = 0xF0 → first_row b kSecondByte_C
| row_four : 0xF1 <= b <= 0xF3 → first_row b kExtraThreeBytes
| row_D : b = 0xF4 → first_row b kSecondByte_D.

Lemma NextState_first b st : 0 <= b < 256 → st ≠ kInvalid → NextState kFirstByte b = st ↔ first_row b st.
Proof.
  intros Hb Hne. unfold NextState.
  destruct (Z.leb_spec b 0x7F); [split; [intros <-; constructor; lia|inversion 1; lia || done]|].
  destruct (within 0xC2 0xDF b) eqn:E1.
  { apply within_spec in E1. split; [intros <-; constructor; lia|inversion 1; lia || done]. }
  destruct (Z.eqb_spec b 0xE0); [split; [intros <-; by constructor|inversion 1; lia || done]|].
  destruct (within 0xE1 0xEC b) eqn:E2.
  { apply within_spec in E2. split; [intros <-; constructor; lia|inversion 1; lia || done]. }
  destruct (Z.eqb_spec b 0xED); [split; [intros <-; by constructor|inversion 1; lia || done]|].
  destruct (within 0xEE 0xEF b) eqn:E3.
  { apply within_spec in E3. split; [intros <-; constructor; lia|inversion 1; lia || done]. }
  destruct (Z.eqb_spec b 0xF0); [split; [intros <-; by constructor|inversion 1; lia || done]|].
  destruct (within 0xF1 0xF3 b) eqn:E4.
  { apply within_spec in E4. split; [intros <-; constructor; lia|inversion 1; lia || done]. }
  destruct (Z.eqb_spec b 0xF4); [split; [intros <-; by constructor|inversion 1; lia || done]|].
  assert (Hno : ∀ lo hi, within lo hi b = false → ¬ (lo <= b <= hi)) by (intros lo hi Hw Hr; apply within_spec in Hr; congruence).
  apply Hno in E1, E2, E3, E4. split; [by intros <-|]. inversion 1; subst; lia || done.
Qed.

(** ** Encodings are accepted *)

Ltac utf8_arith := Z.div_mod_to_equations; lia.

(** The first byte of an encoding leads to [st], a byte behind it on by the law [step]. *)
Ltac first_byte st :=
  rewrite (valid_from_first _ _ st);
    [|utf8_arith|apply NextState_first; [utf8_arith|done|constructor; utf8_arith]|done].
Ltac follow step := rewrite step by (done || lia || utf8_arith).

Lemma valid_encoded cp l : is_scalar cp → valid_from kFirstByte (utf8_encode cp ++ l) = valid_from kFirstByte l.
Proof.
  intros [Hcp Hns]. unfold utf8_encode.
  destruct (Z.ltb_spec cp 0x80); [|destruct (Z.ltb_spec cp 0x800); [|destruct (Z.ltb_spec cp 0x10000)]]; cbn [app].
  - apply valid_from_first; [lia| |done]. apply NextState_first; [lia|done|]. constructor. lia.
  - first_byte kExtraOneByte.
    follow step_extra1. done.
  - destruct (Z.ltb_spec cp 0x1000); [|destruct (Z.leb_spec 0xD000 cp); [destruct (Z.ltb_spec cp 0xD800)|]].
    + first_byte kSecondByte_A.
      follow step_A. follow step_extra1. done.
    + first_byte kSecondByte_B.
      follow step_B. follow step_extra1. done.
    + assert (0xE000 <= cp) by (destruct (Z.leb_spec cp 0xDFFF); [exfalso; apply Hns; lia|lia]).
      first_byte kExtraTwoBytes.
      follow step_extra2. follow step_extra1. done.
    + first_byte kExtraTwoBytes.
      follow step_extra2. follow step_extra1. done.
  - destruct (Z.ltb_spec cp 0x40000); [|destruct (Z.ltb_spec cp 0x100000)].
    + first_byte kSecondByte_C.
      follow step_C. follow step_extra2.
      follow step_extra1. done.
    + first_byte kExtraThreeBytes.
      follow step_extra3. follow step_extra2.
      follow step_extra1. done.
    + first_byte kSecondByte_D.
      follow step_D. follow step_extra2.
      follow step_extra1. done.
Qed.

(** ** Accepted strings are encodings *)

Definition starts_scalar (l : list Z) : Prop :=
  ∃ cp l', is_scalar cp ∧ l = utf8_encode cp ++ l' ∧ is_bytes l' ∧ valid_from kFirstByte l' = true.

Lemma starts_two b1 b2 l :
  0xC2 <= b1 <= 0xDF → 0x80 <= b2 <= 0xBF → is_bytes l → valid_from kFirstByte l = true → starts_scalar (b1 :: b2 :: l).
Proof.
  intros H1 H2 Hl Hv. exists ((b1 - 0xC0) * 64 + (b2 - 0x80)), l. split_and!; try done.
  - unfold is_scalar. lia.
  - unfold utf8_encode. rewrite (proj2 (Z.ltb_ge _ _)), (proj2 (Z.ltb_lt _ _)) by lia. cbn.
    f_equal; [utf8_arith|]. f_equal. utf8_arith.
Qed.

Lemma starts_three b1 b2 b3 l :
  0xE0 <= b1 <= 0xEF → 0x80 <= b2 <= 0xBF → 0x80 <= b3 <= 0xBF → (b1 = 0xE0 → 0xA0 <= b2) → (b1 = 0xED → b2 <= 0x9F) →
  is_bytes l → valid_from kFirstByte l = true → starts_scalar (b1 :: b2 :: b3 :: l).
Proof.
  intros H1 H2 H3 HA HB Hl Hv. exists ((b1 - 0xE0) * 4096 + (b2 - 0x80) * 64 + (b3 - 0x80)), l. split_and!; try done.
  - unfold is_scalar. lia.
  - unfold utf8_encode. rewrite (proj2 (Z.ltb_ge _ _)), (proj2 (Z.ltb_ge _ _)), (proj2 (Z.ltb_lt _ _)) by lia. cbn.
    f_equal; [utf8_arith|]. f_equal; [utf8_arith|]. f_equal. utf8_arith.
Qed.

Lemma starts_four b1 b2 b3 b4 l :
  0xF0 <= b1 <= 0xF4 → 0x80 <= b2 <= 0xBF → 0x80 <= b3 <= 0xBF → 0x80 <= b4 <= 0xBF →
  (b1 = 0xF0 → 0x90 <= b2) → (b1 = 0xF4 → b2 <= 0x8F) →
  is_bytes l → valid_from kFirstByte l = true → starts_scalar (b1 :: b2 :: b3 :: b4 :: l).
Proof.
  intros H1 H2 H3 H4 HC HD Hl Hv.
  exists ((b1 - 0xF0) * 262144 + (b2 - 0x80) * 4096 + (b3 - 0x80) * 64 + (b4 - 0x80)), l. split_and!; try done.
  - unfold is_scalar. lia.
  - unfold utf8_encode. rewrite !(proj2 (Z.ltb_ge _ _)) by lia. cbn.
    f_equal; [utf8_arith|]. f_equal; [utf8_arith|]. f_equal; [utf8_arith|]. f_equal. utf8_arith.
Qed.

(** Take the next byte off a string that a waiting state accepts. *)
Ltac next_byte b Hb :=
  match goal with
  | Hv : valid_from ?st ?l = true, Hl : is_bytes ?l |- _ =>
      eapply (valid_from_range_inv st _ _ _ l) in Hv as (b&?&->&Hb&?&?); [|intros v; reflexivity|done|exact Hl]; clear Hl
  end.

Lemma valid_starts l : is_bytes l → valid_from kFirstByte l = true → l ≠ [] → starts_scalar l.
Proof.
  intros Hl Hv Hne. destruct l as [|b1 l]; [done|]. apply Forall_cons in Hl as [Hb1 Hl].
  change (Forall in_u8 l) with (is_bytes l) in Hl.
  apply valid_from_step in Hv as [Hst Hv]; [|done].
  pose proof (proj1 (NextState_first b1 _ Hb1 Hst) eq_refl) as Hrow. clear Hst Hne.
  destruct Hrow.
  - exists b1, l. split_and!; [unfold is_scalar; lia| |done|done].
    unfold utf8_encode. by rewrite (proj2 (Z.ltb_lt _ _)) by lia.
  - next_byte b2 H2. by apply starts_two.
  - next_byte b2 H2. next_byte b3 H3. apply starts_three; (done || lia).
  - next_byte b2 H2. next_byte b3 H3. apply starts_three; (done || lia).
  - next_byte b2 H2. next_byte b3 H3. apply starts_three; (done || lia).
  - next_byte b2 H2. next_byte b3 H3. next_byte b4 H4. apply starts_four; (done || lia).
  - next_byte b2 H2. next_byte b3 H3. next_byte b4 H4. apply starts_four; (done || lia).
  - next_byte b2 H2. next_byte b3 H3. next_byte b4 H4. apply starts_four; (done || lia).
Qed.

Lemma utf8_encode_length cp : (0 < length (utf8_encode cp))%nat.
Proof. unfold utf8_encode. repeat case_match; cbn; lia. Qed.

(** C15: [IsValid] accepts exactly the UTF-8 encodings of sequences of Unicode scalar values:
    no overlong form, no surrogate, nothing above U+10FFFF, no character cut off. *)
Theorem IsValid_utf8 l : is_bytes l → IsValid l = true ↔ ∃ cps, Forall is_scalar cps ∧ l = utf8_text cps.
Proof.
  unfold IsValid. intros Hl. split.
  - remember (length l) as n eqn:Hn. revert l Hl Hn. induction (lt_wf n) as [n _ IH]. intros l Hl -> Hv.
    destruct (decide (l = [])) as [->|Hne]; [by exists []|].
    destruct (valid_starts l Hl Hv Hne) as (cp&l'&Hcp&->&Hl'&Hv').
    destruct (IH (length l')) with (l := l') as (cps&Hcps&->); try done.
    { rewrite length_app. pose proof (utf8_encode_length cp). lia. }
    exists (cp :: cps). split; [by constructor|done].
  - intros (cps&Hcps&->). clear Hl. induction Hcps as [|cp cps Hcp _ IH]; [done|].
    unfold utf8_text. cbn [map concat]. by rewrite valid_encoded.
Qed.

Lemma IsValid_utf8_witness : ∃ cps, Forall is_scalar cps ∧ [0x41; 0xE2; 0x82; 0xAC; 0xF0; 0x9F; 0x98; 0x80] = utf8_text cps.
Proof.
  apply (IsValid_utf8 [0x41; 0xE2; 0x82; 0xAC; 0xF0; 0x9F; 0x98; 0x80]).
  - repeat constructor; solve_width.
  - vm_compute. reflexivity.
Defined.
