(* ===== verification/TlvWriter.v ===== *)
(** * TLV: the writer

    [chip::TLV::TLVWriter] (src/src/lib/core/TLVWriter.cpp) over a contiguous buffer,
    that is with [mBackingStore] null. The pointers [mBufStart] and [mWritePoint] are
    represented by the bytes between them, [wOut]. *)

From S2P Require Import Prelude.
From S2P Require Import ChipError.
From S2P Require Import Endian.
From S2P Require Import TlvTypes.

Record TLVWriter := mkWriter {
  wImplicitProfileId : Z;
  wOut : list Z;
  wRemainingLen : Z;
  wLenWritten : Z;
  wMaxLen : Z;
  wReservedSize : Z;
  wContainerType : Z;
  wInitializationCookie : Z;
  wContainerOpen : bool;
  wCloseContainerReserved : bool
}.

#[export] Instance TLVWriter_eq_dec : EqDecision TLVWriter.
Proof. solve_decision. Defined.

(** One field replaced. *)
Definition wset_profile v w := mkWriter v (wOut w) (wRemainingLen w) (wLenWritten w) (wMaxLen w) (wReservedSize w) (wContainerType w) (wInitializationCookie w) (wContainerOpen w) (wCloseContainerReserved w).
Definition wset_maxLen v w := mkWriter (wImplicitProfileId w) (wOut w) (wRemainingLen w) (wLenWritten w) v (wReservedSize w) (wContainerType w) (wInitializationCookie w) (wContainerOpen w) (wCloseContainerReserved w).
Definition wset_containerType v w := mkWriter (wImplicitProfileId w) (wOut w) (wRemainingLen w) (wLenWritten w) (wMaxLen w) (wReservedSize w) v (wInitializationCookie w) (wContainerOpen w) (wCloseContainerReserved w).
Definition wset_containerOpen v w := mkWriter (wImplicitProfileId w) (wOut w) (wRemainingLen w) (wLenWritten w) (wMaxLen w) (wReservedSize w) (wContainerType w) (wInitializationCookie w) v (wCloseContainerReserved w).
Definition wset_closeReserved v w := mkWriter (wImplicitProfileId w) (wOut w) (wRemainingLen w) (wLenWritten w) (wMaxLen w) (wReservedSize w) (wContainerType w) (wInitializationCookie w) (wContainerOpen w) v.
Definition wset_reserve rs rl w := mkWriter (wImplicitProfileId w) (wOut w) rl (wLenWritten w) (wMaxLen w) rs (wContainerType w) (wInitializationCookie w) (wContainerOpen w) (wCloseContainerReserved w).

(** ** Operations and their sequence

    An operation gives an error code and the writer after it; [ReturnErrorOnFailure]
    stops a sequence at the first code that is not [CHIP_NO_ERROR]. *)

Definition wop := TLVWriter → chip_error * TLVWriter.

Definition wret (e : chip_error) : wop := λ w, (e, w).

Definition wseq (o : wop) (k : wop) : wop := λ w,
  match o w with
  | (CHIP_NO_ERROR, w) => k w
  | r => r
  end.
Declare Scope tlv_scope.
Delimit Scope tlv_scope with tlv.
Notation "o ;;; k" := (wseq o k) (at level 100, right associativity) : tlv_scope.
#[local] Open Scope tlv_scope.

Definition kExpectedInitializationCookie : Z := 0x52B1.
Definition kEndOfContainerMarkerSize : Z := 1.

Definition IsInitialized (w : TLVWriter) : bool :=
  wInitializationCookie w =? kExpectedInitializationCookie.

(** [VerifyOrReturnError(cond, e)] in front of [k]. *)
Definition wverify (cond : TLVWriter → bool) (e : chip_error) (k : wop) : wop := λ w,
  if cond w then k w else (e, w).

(** [TLVWriter::TLVWriter]. *)
Definition TLVWriter_new : TLVWriter :=
  mkWriter kProfileIdNotSpecified [] 0 0 0 0 kTLVType_NotSpecified 0 false true.

(** [Init(buf, maxLen)]; the buffer has room for [maxLen] bytes. *)
Definition TLVWriter_Init (maxLen : Z) : TLVWriter :=
  let actualMaxLen := if UINT32_MAX <? maxLen then UINT32_MAX else u32 maxLen in
  mkWriter kProfileIdNotSpecified [] actualMaxLen 0 actualMaxLen 0 kTLVType_NotSpecified
    kExpectedInitializationCookie false true.

Definition TLVWriter_Finalize : wop :=
  wverify IsInitialized CHIP_ERROR_INCORRECT_STATE (λ w,
  if wContainerOpen w then (CHIP_ERROR_TLV_CONTAINER_OPEN, w) else (CHIP_NO_ERROR, w)).

Definition TLVWriter_ReserveBuffer (aBufferSize : Z) : wop :=
  wverify IsInitialized CHIP_ERROR_INCORRECT_STATE
  (wverify (λ w, aBufferSize <=? wRemainingLen w) CHIP_ERROR_NO_MEMORY (λ w,
   (CHIP_NO_ERROR,
    wset_reserve (u32 (wReservedSize w + aBufferSize)) (u32 (wRemainingLen w - aBufferSize)) w))).

Definition TLVWriter_UnreserveBuffer (aBufferSize : Z) : wop :=
  wverify IsInitialized CHIP_ERROR_INCORRECT_STATE
  (wverify (λ w, aBufferSize <=? wReservedSize w) CHIP_ERROR_NO_MEMORY (λ w,
   (CHIP_NO_ERROR,
    wset_reserve (u32 (wReservedSize w - aBufferSize)) (u32 (wRemainingLen w + aBufferSize)) w))).

(** ** Writing bytes *)

(** [memmove] of [data] to the write point and the updates after it. *)
Definition wappend (data : list Z) (w : TLVWriter) : TLVWriter :=
  let n := Z.of_nat (length data) in
  mkWriter (wImplicitProfileId w) (wOut w ++ data) (u32 (wRemainingLen w - n)) (u32 (wLenWritten w + n))
    (wMaxLen w) (wReservedSize w) (wContainerType w) (wInitializationCookie w) (wContainerOpen w)
    (wCloseContainerReserved w).

(** The loop of [WriteData]: without a backing store it ends after one round when the
    data fits, and after two otherwise. *)
Fixpoint write_loop (fuel : nat) (p : list Z) (w : TLVWriter) : chip_error * TLVWriter :=
  match fuel, p with
  | _, [] => (CHIP_NO_ERROR, w)
  | O, _ => (CHIP_ERROR_INTERNAL, w)
  | S fuel, _ =>
      if wRemainingLen w =? 0 then (CHIP_ERROR_NO_MEMORY, w)
      else
        let len := Z.of_nat (length p) in
        let writeLen := if wRemainingLen w <? len then wRemainingLen w else len in
        write_loop fuel (drop (Z.to_nat writeLen) p) (wappend (take (Z.to_nat writeLen) p) w)
  end.

(** [WriteData(p, len)] for [len] bytes [p]; the sum in the check is one of 32 bits. *)
Definition TLVWriter_WriteData (p : list Z) : wop :=
  wverify IsInitialized CHIP_ERROR_INCORRECT_STATE
  (wverify (λ w, u32 (wLenWritten w + Z.of_nat (length p)) <=? wMaxLen w) CHIP_ERROR_BUFFER_TOO_SMALL
   (write_loop 2 p)).

(** ** Element heads *)

Definition is_type (t : Z) (ts : list Z) : bool := existsb (Z.eqb t) ts.

(** The control byte and the tag that [WriteElementHead] stages, or none when the tag
    is not allowed in the container. *)
Definition stage_tag (containerType implicitProfile elemType tag : Z) : option (list Z) :=
  let tagNum := TagNumFromTag tag in
  let control c := Write8 (Z.lor c (u8 elemType)) in
  if IsSpecialTag tag then
    if tagNum <=? kContextTagMaxNum then
      if is_type containerType [kTLVType_Structure; kTLVType_List]
      then Some (control TLVTagControl.ContextSpecific ++ Write8 (u8 tagNum))
      else None
    else
      if (elemType =? TLVElementType.EndOfContainer)
         || is_type containerType [kTLVType_NotSpecified; kTLVType_Array; kTLVType_List]
      then Some (control TLVTagControl.Anonymous)
      else None
  else
    let profileId := ProfileIdFromTag tag in
    if negb (is_type containerType [kTLVType_NotSpecified; kTLVType_Structure; kTLVType_List]) then None
    else if profileId =? kCommonProfileId then
      if tagNum <? 65536
      then Some (control TLVTagControl.CommonProfile_2Bytes ++ Write16 (u16 tagNum))
      else Some (control TLVTagControl.CommonProfile_4Bytes ++ Write32 tagNum)
    else if profileId =? implicitProfile then
      if tagNum <? 65536
      then Some (control TLVTagControl.ImplicitProfile_2Bytes ++ Write16 (u16 tagNum))
      else Some (control TLVTagControl.ImplicitProfile_4Bytes ++ Write32 tagNum)
    else
      let vendorId := u16 (Z.shiftr profileId 16) in
      let profileNum := u16 profileId in
      if tagNum <? 65536
      then Some (control TLVTagControl.FullyQualified_6Bytes
                 ++ Write16 vendorId ++ Write16 profileNum ++ Write16 (u16 tagNum))
      else Some (control TLVTagControl.FullyQualified_8Bytes
                 ++ Write16 vendorId ++ Write16 profileNum ++ Write32 tagNum).

(** The length or value field. *)
Definition stage_value (elemType lenOrVal : Z) : list Z :=
  let size := GetTLVFieldSize elemType in
  if size =? kTLVFieldSize_0Byte then []
  else if size =? kTLVFieldSize_1Byte then Write8 (u8 lenOrVal)
  else if size =? kTLVFieldSize_2Byte then Write16 (u16 lenOrVal)
  else if size =? kTLVFieldSize_4Byte then Write32 (u32 lenOrVal)
  else if size =? kTLVFieldSize_8Byte then Write64 lenOrVal
  else [].

Definition TLVWriter_WriteElementHead (elemType tag lenOrVal : Z) : wop :=
  wverify IsInitialized CHIP_ERROR_INCORRECT_STATE
  (wverify (λ w, negb (wContainerOpen w)) CHIP_ERROR_TLV_CONTAINER_OPEN (λ w,
   match stage_tag (wContainerType w) (wImplicitProfileId w) elemType tag with
   | None => (CHIP_ERROR_INVALID_TLV_TAG, w)
   | Some head => TLVWriter_WriteData (head ++ stage_value elemType lenOrVal) w
   end)).

(** The width of the length field of [dataLen] bytes. *)
Definition length_field (dataLen : Z) : Z :=
  if dataLen <=? UINT8_MAX then kTLVFieldSize_1Byte
  else if dataLen <=? UINT16_MAX then kTLVFieldSize_2Byte
  else kTLVFieldSize_4Byte.

Definition TLVWriter_WriteElementWithData (type tag : Z) (data : list Z) : wop :=
  wverify IsInitialized CHIP_ERROR_INCORRECT_STATE (
  if ctrue (Z.land (u64 type) kTLVTypeSizeMask) then wret CHIP_ERROR_INVALID_ARGUMENT
  else
    let dataLen := Z.of_nat (length data) in
    TLVWriter_WriteElementHead (Z.lor (u8 type) (length_field dataLen)) tag dataLen ;;;
    TLVWriter_WriteData data).

(** ** Values *)

Definition TLVWriter_PutBoolean (tag : Z) (v : bool) : wop :=
  TLVWriter_WriteElementHead (if v then TLVElementType.BooleanTrue else TLVElementType.BooleanFalse) tag 0.

(** The element type that [Put(tag, uint64_t)] chooses. *)
Definition uint_elem_type (v : Z) : Z :=
  if v <=? UINT8_MAX then TLVElementType.UInt8
  else if v <=? UINT16_MAX then TLVElementType.UInt16
  else if v <=? UINT32_MAX then TLVElementType.UInt32
  else TLVElementType.UInt64.

(** [Put(tag, uint64_t)]; the overloads for narrower unsigned types widen and call it. *)
Definition TLVWriter_Put_u64 (tag v : Z) : wop := TLVWriter_WriteElementHead (uint_elem_type v) tag v.
Definition TLVWriter_Put_u8 (tag v : Z) : wop := TLVWriter_Put_u64 tag v.
Definition TLVWriter_Put_u16 (tag v : Z) : wop := TLVWriter_Put_u64 tag v.
Definition TLVWriter_Put_u32 (tag v : Z) : wop := TLVWriter_Put_u64 tag v.

(** [Put(tag, v, preserveSize)]. *)
Definition TLVWriter_Put_u8_sized (tag v : Z) (preserveSize : bool) : wop :=
  if preserveSize then TLVWriter_WriteElementHead TLVElementType.UInt8 tag v else TLVWriter_Put_u8 tag v.
Definition TLVWriter_Put_u16_sized (tag v : Z) (preserveSize : bool) : wop :=
  if preserveSize then TLVWriter_WriteElementHead TLVElementType.UInt16 tag v else TLVWriter_Put_u16 tag v.
Definition TLVWriter_Put_u32_sized (tag v : Z) (preserveSize : bool) : wop :=
  if preserveSize then TLVWriter_WriteElementHead TLVElementType.UInt32 tag v else TLVWriter_Put_u32 tag v.
Definition TLVWriter_Put_u64_sized (tag v : Z) (preserveSize : bool) : wop :=
  if preserveSize then TLVWriter_WriteElementHead TLVElementType.UInt64 tag v else TLVWriter_Put_u64 tag v.

(** The element type that [Put(tag, int64_t)] chooses. *)
Definition int_elem_type (v : Z) : Z :=
  if (- 2 ^ 7 <=? v) && (v <=? 2 ^ 7 - 1) then TLVElementType.Int8
  else if (- 2 ^ 15 <=? v) && (v <=? 2 ^ 15 - 1) then TLVElementType.Int16
  else if (- 2 ^ 31 <=? v) && (v <=? 2 ^ 31 - 1) then TLVElementType.Int32
  else TLVElementType.Int64.

(** [Put(tag, int64_t)]; the value is written in two's complement. *)
Definition TLVWriter_Put_i64 (tag v : Z) : wop := TLVWriter_WriteElementHead (int_elem_type v) tag (u64 v).
Definition TLVWriter_Put_i8 (tag v : Z) : wop := TLVWriter_Put_i64 tag v.
Definition TLVWriter_Put_i16 (tag v : Z) : wop := TLVWriter_Put_i64 tag v.
Definition TLVWriter_Put_i32 (tag v : Z) : wop := TLVWriter_Put_i64 tag v.

Definition TLVWriter_Put_i8_sized (tag v : Z) (preserveSize : bool) : wop :=
  if preserveSize then TLVWriter_WriteElementHead TLVElementType.Int8 tag (u8 v) else TLVWriter_Put_i8 tag v.
Definition TLVWriter_Put_i16_sized (tag v : Z) (preserveSize : bool) : wop :=
  if preserveSize then TLVWriter_WriteElementHead TLVElementType.Int16 tag (u16 v) else TLVWriter_Put_i16 tag v.
Definition TLVWriter_Put_i32_sized (tag v : Z) (preserveSize : bool) : wop :=
  if preserveSize then TLVWriter_WriteElementHead TLVElementType.Int32 tag (u32 v) else TLVWriter_Put_i32 tag v.
Definition TLVWriter_Put_i64_sized (tag v : Z) (preserveSize : bool) : wop :=
  if preserveSize then TLVWriter_WriteElementHead TLVElementType.Int64 tag (u64 v) else TLVWriter_Put_i64 tag v.

(** [Put(tag, float)] and [Put(tag, double)] on the bits of the number. *)
Definition TLVWriter_Put_float (tag u32bits : Z) : wop :=
  TLVWriter_WriteElementHead TLVElementType.FloatingPointNumber32 tag u32bits.
Definition TLVWriter_Put_double (tag u64bits : Z) : wop :=
  TLVWriter_WriteElementHead TLVElementType.FloatingPointNumber64 tag u64bits.

Definition TLVWriter_PutBytes (tag : Z) (buf : list Z) : wop :=
  TLVWriter_WriteElementWithData kTLVType_ByteString tag buf.

Definition TLVWriter_Put_ByteSpan (tag : Z) (data : list Z) : wop :=
  if Z.of_nat (length data) <=? UINT32_MAX then TLVWriter_PutBytes tag data
  else wret CHIP_ERROR_MESSAGE_TOO_LONG.

Definition TLVWriter_PutNull (tag : Z) : wop := TLVWriter_WriteElementHead TLVElementType.Null tag 0.

Section Strings.
Context `{TlvConfig}.

(** [PutString(tag, buf, len)]. *)
Definition TLVWriter_PutString_len (tag : Z) (buf : list Z) : wop :=
  if TLV_VALIDATE_CHAR_STRING_ON_WRITE && negb (Utf8.IsValid buf) then wret CHIP_ERROR_INVALID_UTF8
  else if TLV_VALIDATE_CHAR_STRING_ON_WRITE && bool_decide (last buf = Some 0)
  then wret CHIP_ERROR_INVALID_TLV_CHAR_STRING
  else TLVWriter_WriteElementWithData kTLVType_UTF8String tag buf.

(** [PutString(tag, CharSpan)]. *)
Definition TLVWriter_PutString (tag : Z) (str : list Z) : wop :=
  if Z.of_nat (length str) <=? UINT32_MAX then TLVWriter_PutString_len tag str
  else wret CHIP_ERROR_INVALID_ARGUMENT.

End Strings.

(** [VPutStringF]: [text] is what [vsnprintf] formats, [alloc] whether the temporary
    buffer is allocated; built without [CONFIG_HAVE_VCBPRINTF]. The sum is a [size_t]. *)
Definition TLVWriter_VPutStringF (alloc : bool) (tag : Z) (text : list Z) : wop :=
  let dataLen := Z.of_nat (length text) in
  if dataLen <=? UINT32_MAX then
    TLVWriter_WriteElementHead (Z.lor (u8 kTLVType_UTF8String) (length_field dataLen)) tag dataLen ;;;
    wverify (λ w, wLenWritten w + dataLen <=? wMaxLen w) CHIP_ERROR_BUFFER_TOO_SMALL (
    if alloc then TLVWriter_WriteData text else wret CHIP_ERROR_NO_MEMORY)
  else wret CHIP_ERROR_INVALID_ARGUMENT.

(** ** Containers *)

(** The part that [OpenContainer] and [StartContainer] share: the room of the end marker
    is taken from [mMaxLen], and given back when the head cannot be written. *)
Definition write_container_head (tag containerType : Z) : wop := λ w,
  let reserved := wCloseContainerReserved w in
  if reserved && negb (kEndOfContainerMarkerSize <=? wMaxLen w) then (CHIP_ERROR_BUFFER_TOO_SMALL, w)
  else
    let w := if reserved then wset_maxLen (u32 (wMaxLen w - kEndOfContainerMarkerSize)) w else w in
    match TLVWriter_WriteElementHead containerType tag 0 w with
    | (CHIP_NO_ERROR, w) => (CHIP_NO_ERROR, w)
    | (err, w) =>
        (err, if wCloseContainerReserved w then wset_maxLen (u32 (wMaxLen w + kEndOfContainerMarkerSize)) w else w)
    end.

(** [StartContainer(tag, containerType, outerContainerType)]; the result has the outer
    type, which is assigned on success only. *)
Definition TLVWriter_StartContainer (tag containerType outerContainerType : Z) (w : TLVWriter) :
    chip_error * Z * TLVWriter :=
  if negb (IsInitialized w) then (CHIP_ERROR_INCORRECT_STATE, outerContainerType, w)
  else if negb (TLVTypeIsContainer containerType) then (CHIP_ERROR_WRONG_TLV_TYPE, outerContainerType, w)
  else
    match write_container_head tag containerType w with
    | (CHIP_NO_ERROR, w) =>
        (CHIP_NO_ERROR, wContainerType w, wset_containerOpen false (wset_containerType containerType w))
    | (err, w) => (err, outerContainerType, w)
    end.

Definition TLVWriter_EndContainer (outerContainerType : Z) : wop :=
  wverify IsInitialized CHIP_ERROR_INCORRECT_STATE
  (wverify (λ w, TLVTypeIsContainer (wContainerType w)) CHIP_ERROR_INCORRECT_STATE (λ w,
   let w := wset_containerType outerContainerType w in
   let w := if wCloseContainerReserved w then wset_maxLen (u32 (wMaxLen w + kEndOfContainerMarkerSize)) w else w in
   TLVWriter_WriteElementHead TLVElementType.EndOfContainer AnonymousTag 0 w)).

(** [OpenContainer(tag, containerType, containerWriter)]: the writer and the container
    writer after it. [mReservedSize] of the container writer stays as it was. *)
Definition TLVWriter_OpenContainer (tag containerType : Z) (containerWriter w : TLVWriter) :
    chip_error * TLVWriter * TLVWriter :=
  if negb (IsInitialized w) then (CHIP_ERROR_INCORRECT_STATE, containerWriter, w)
  else if negb (TLVTypeIsContainer containerType) then (CHIP_ERROR_WRONG_TLV_TYPE, containerWriter, w)
  else
    match write_container_head tag containerType w with
    | (CHIP_NO_ERROR, w) =>
        (CHIP_NO_ERROR,
         mkWriter (wImplicitProfileId w) (wOut w) (wRemainingLen w) 0 (u32 (wMaxLen w - wLenWritten w))
           (wReservedSize containerWriter) containerType kExpectedInitializationCookie false
           (wCloseContainerReserved w),
         wset_containerOpen true w)
    | (err, w) => (err, containerWriter, w)
    end.

Definition TLVWriter_CloseContainer (containerWriter w : TLVWriter) : chip_error * TLVWriter * TLVWriter :=
  if negb (IsInitialized w) then (CHIP_ERROR_INCORRECT_STATE, containerWriter, w)
  else if negb (TLVTypeIsContainer (wContainerType containerWriter))
  then (CHIP_ERROR_INCORRECT_STATE, containerWriter, w)
  else if wContainerOpen containerWriter then (CHIP_ERROR_TLV_CONTAINER_OPEN, containerWriter, w)
  else
    let w := mkWriter (wImplicitProfileId w) (wOut containerWriter) (wRemainingLen containerWriter)
               (u32 (wLenWritten w + wLenWritten containerWriter))
               (if wCloseContainerReserved w then u32 (wMaxLen w + kEndOfContainerMarkerSize) else wMaxLen w)
               (wReservedSize w) (wContainerType w) (wInitializationCookie w) false
               (wCloseContainerReserved w) in
    let '(err, w) := TLVWriter_WriteElementHead TLVElementType.EndOfContainer AnonymousTag 0 w in
    (err, TLVWriter_Init 0, w).

Definition TLVWriter_PutPreEncodedContainer (tag containerType : Z) (data : list Z) : wop :=
  if negb (TLVTypeIsContainer containerType) then wret CHIP_ERROR_INVALID_ARGUMENT
  else
    TLVWriter_WriteElementHead containerType tag 0 ;;;
    TLVWriter_WriteData data.
