(* ===== verification/TlvReader.v ===== *)
(** * TLV: the reader

    [chip::TLV::TLVReader] (src/src/lib/core/TLVReader.cpp) over one buffer or over a
    chain of packet buffers ([TLVPacketBufferBackingStore]). The pointers [mReadPoint]
    and [mBufEnd] are represented by the bytes between them. *)

From S2P Require Import Prelude.
From S2P Require Import ChipError.
From S2P Require Import Endian.
From S2P Require Import TlvTypes.

Definition CHIP_END_OF_TLV : chip_error := CHIP_ERROR_END_OF_TLV.

(** Where [mReadPoint] points: to bytes up to [mBufEnd], or, after the backing store gave
    no data, to null or to an empty buffer while [mBufEnd] is still the end of the last one. *)
Inductive read_point := PBytes (l : list Z) | PNull | PStray.

#[export] Instance read_point_eq_dec : EqDecision read_point.
Proof. solve_decision. Defined.

Record TLVReader := mkReader {
  rImplicitProfileId : Z;
  rElemTag : Z;
  rElemLenOrVal : Z;
  (** The buffers of the chain after the current one; [None] without a backing store. *)
  rBackingStore : option (list (list Z));
  rReadPoint : read_point;
  rLenRead : Z;
  rMaxLen : Z;
  rContainerType : Z;
  rControlByte : Z;
  rContainerOpen : bool
}.

Definition rset_elem tag val ctl r := mkReader (rImplicitProfileId r) tag val (rBackingStore r) (rReadPoint r) (rLenRead r) (rMaxLen r) (rContainerType r) ctl (rContainerOpen r).
Definition rset_tag v r := rset_elem v (rElemLenOrVal r) (rControlByte r) r.
Definition rset_lenOrVal v r := rset_elem (rElemTag r) v (rControlByte r) r.
Definition rset_controlByte v r := rset_elem (rElemTag r) (rElemLenOrVal r) v r.
Definition rset_containerType v r := mkReader (rImplicitProfileId r) (rElemTag r) (rElemLenOrVal r) (rBackingStore r) (rReadPoint r) (rLenRead r) (rMaxLen r) v (rControlByte r) (rContainerOpen r).
Definition rset_containerOpen v r := mkReader (rImplicitProfileId r) (rElemTag r) (rElemLenOrVal r) (rBackingStore r) (rReadPoint r) (rLenRead r) (rMaxLen r) (rContainerType r) (rControlByte r) v.
Definition rset_input bs p n r := mkReader (rImplicitProfileId r) (rElemTag r) (rElemLenOrVal r) bs p n (rMaxLen r) (rContainerType r) (rControlByte r) (rContainerOpen r).
Definition rset_profile v r := mkReader v (rElemTag r) (rElemLenOrVal r) (rBackingStore r) (rReadPoint r) (rLenRead r) (rMaxLen r) (rContainerType r) (rControlByte r) (rContainerOpen r).

(** ** Results

    A call succeeds with a value, fails with an error code, or moves the read point
    without a buffer under it; a loop that has not ended runs out of fuel. *)

Inductive rres (A : Type) :=
| ROk (a : A) (r : TLVReader)
| RErr (e : chip_error) (r : TLVReader)
| RUndefined
| RFuel.
Arguments ROk {A} a r.
Arguments RErr {A} e r.
Arguments RUndefined {A}.
Arguments RFuel {A}.

Definition rop (A : Type) := TLVReader → rres A.

Definition rret {A} (a : A) : rop A := ROk a.
Definition rfail {A} (e : chip_error) : rop A := RErr e.
Definition rbind {A B} (o : rop A) (k : A → rop B) : rop B := λ r,
  match o r with
  | ROk a r => k a r
  | RErr e r => RErr e r
  | RUndefined => RUndefined
  | RFuel => RFuel
  end.
Definition rget : rop TLVReader := λ r, ROk r r.
Definition rmod (f : TLVReader → TLVReader) : rop unit := λ r, ROk tt (f r).
Definition rverify (cond : bool) (e : chip_error) : rop unit := if cond then rret tt else rfail e.

Declare Scope reader_scope.
Delimit Scope reader_scope with rd.
Notation "x <-- o ;; k" := (rbind o (λ x, k)) (at level 100, o at next level, right associativity) : reader_scope.
Notation "o ;; k" := (rbind o (λ _, k)) (at level 100, right associativity) : reader_scope.
#[local] Open Scope reader_scope.

(** ** Initialisation and inspection *)

Definition TLVReader_ClearElementState (r : TLVReader) : TLVReader :=
  rset_elem AnonymousTag 0 kTLVControlByte_NotSpecified r.

(** [Init(data, dataLen)]. *)
Definition TLVReader_Init (data : list Z) : TLVReader :=
  let dataLen := Z.of_nat (length data) in
  let actualDataLen := if UINT32_MAX <? dataLen then UINT32_MAX else u32 dataLen in
  mkReader kProfileIdNotSpecified AnonymousTag 0 None (PBytes (take (Z.to_nat actualDataLen) data)) 0 actualDataLen
    kTLVType_NotSpecified kTLVControlByte_NotSpecified false.

(** [Init(backingStore, maxLen)] on a chain of packet buffers whose first is [head]. *)
Definition TLVReader_Init_chain (head : list Z) (chain : list (list Z)) (maxLen : Z) : TLVReader :=
  mkReader kProfileIdNotSpecified AnonymousTag 0 (Some chain) (PBytes head) 0 maxLen
    kTLVType_NotSpecified kTLVControlByte_NotSpecified false.

Definition ElementType (r : TLVReader) : Z :=
  if rControlByte r =? u16 kTLVControlByte_NotSpecified then TLVElementType.NotSpecified
  else Z.land (rControlByte r) kTLVTypeMask.

Definition TLVReader_GetType (r : TLVReader) : Z :=
  let elemType := ElementType r in
  if elemType =? TLVElementType.EndOfContainer then kTLVType_NotSpecified
  else if (elemType =? TLVElementType.FloatingPointNumber32) || (elemType =? TLVElementType.FloatingPointNumber64)
  then kTLVType_FloatingPointNumber
  else if (elemType =? TLVElementType.NotSpecified) || (TLVElementType.Null <=? elemType) then elemType
  else Z.land (u8 elemType) (Z.lnot kTLVTypeSizeMask).

Definition TLVReader_GetLength (r : TLVReader) : Z :=
  if TLVTypeHasLength (ElementType r) then u32 (rElemLenOrVal r) else 0.

Definition TLVReader_GetTag (r : TLVReader) : Z := rElemTag r.
Definition TLVReader_GetRemainingLength (r : TLVReader) : Z := u32 (rMaxLen r - rLenRead r).

(** ** Input *)

(** [TLVPacketBufferBackingStore::GetNextBuffer]: the next buffer of the chain, null
    and empty at its end. *)
Definition GetNextBuffer (chain : list (list Z)) : option (list Z) * list (list Z) :=
  match chain with
  | [] => (None, [])
  | b :: chain => (Some b, chain)
  end.

Definition TLVReader_EnsureData (noDataErr : chip_error) : rop unit := λ r,
  if bool_decide (rReadPoint r = PBytes []) then
    if rLenRead r =? rMaxLen r then RErr noDataErr r
    else
      match rBackingStore r with
      | None => RErr noDataErr r
      | Some chain =>
          match GetNextBuffer chain with
          | (None, chain) => RErr noDataErr (rset_input (Some chain) PNull (rLenRead r) r)
          | (Some [], chain) => RErr noDataErr (rset_input (Some chain) PStray (rLenRead r) r)
          | (Some buf, chain) =>
              let bufLen := Z.of_nat (length buf) in
              let overallLenRemaining := u32 (rMaxLen r - rLenRead r) in
              let bufLen := if overallLenRemaining <? bufLen then overallLenRemaining else bufLen in
              ROk tt (rset_input (Some chain) (PBytes (take (Z.to_nat bufLen) buf)) (rLenRead r) r)
          end
      end
  else ROk tt r.

(** The bytes consumed in one round of [ReadData]. *)
Definition advance (n : nat) (p : list Z) (r : TLVReader) : TLVReader :=
  rset_input (rBackingStore r) (PBytes (drop n p)) (u32 (rLenRead r + Z.of_nat n)) r.

(** The loop of [ReadData]; it gives the bytes copied, and goes at most once through
    each buffer of the chain. *)
Fixpoint read_loop (fuel : nat) (len : Z) (acc : list Z) : rop (list Z) :=
  if 0 <? len then
    match fuel with
    | O => λ _, RFuel
    | S fuel =>
        TLVReader_EnsureData CHIP_ERROR_TLV_UNDERRUN ;;
        λ r,
        match rReadPoint r with
        | PNull | PStray => RUndefined
        | PBytes p =>
            let remainingLen := Z.of_nat (length p) in
            let readLen := if remainingLen <? len then remainingLen else len in
            let n := Z.to_nat readLen in
            read_loop fuel (len - readLen) (acc ++ take n p) (advance n p r)
        end
    end
  else rret acc.

Definition chain_length (r : TLVReader) : nat := from_option length O (rBackingStore r).

Definition TLVReader_ReadData (len : Z) : rop (list Z) := λ r,
  read_loop (S (S (chain_length r))) len [] r.

(** ** Elements *)

Definition sTagSizes : list Z := [0; 1; 2; 4; 2; 4; 6; 8].

(** [ReadTag]: the tag and the pointer after it. Without an implicit profile the bytes of
    an implicit tag are not consumed. *)
Definition ReadTag (implicitProfile tagControl : Z) (p : list Z) : Z * list Z :=
  if tagControl =? TLVTagControl.ContextSpecific then
    let '(n, p) := Read8 p in (ContextTag n, p)
  else if tagControl =? TLVTagControl.CommonProfile_2Bytes then
    let '(n, p) := Read16 p in (CommonTag n, p)
  else if tagControl =? TLVTagControl.CommonProfile_4Bytes then
    let '(n, p) := Read32 p in (CommonTag n, p)
  else if tagControl =? TLVTagControl.ImplicitProfile_2Bytes then
    if implicitProfile =? kProfileIdNotSpecified then (UnknownImplicitTag, p)
    else let '(n, p) := Read16 p in (ProfileTag implicitProfile n, p)
  else if tagControl =? TLVTagControl.ImplicitProfile_4Bytes then
    if implicitProfile =? kProfileIdNotSpecified then (UnknownImplicitTag, p)
    else let '(n, p) := Read32 p in (ProfileTag implicitProfile n, p)
  else if tagControl =? TLVTagControl.FullyQualified_6Bytes then
    let '(vendorId, p) := Read16 p in
    let '(profileNum, p) := Read16 p in
    let '(n, p) := Read16 p in (ProfileTag3 vendorId profileNum n, p)
  else if tagControl =? TLVTagControl.FullyQualified_8Bytes then
    let '(vendorId, p) := Read16 p in
    let '(profileNum, p) := Read16 p in
    let '(n, p) := Read32 p in (ProfileTag3 vendorId profileNum n, p)
  else (AnonymousTag, p).

(** The length or value field at [p]. *)
Definition read_value (fieldSize : Z) (p : list Z) : Z :=
  if fieldSize =? kTLVFieldSize_1Byte then fst (Read8 p)
  else if fieldSize =? kTLVFieldSize_2Byte then fst (Read16 p)
  else if fieldSize =? kTLVFieldSize_4Byte then fst (Read32 p)
  else if fieldSize =? kTLVFieldSize_8Byte then fst (Read64 p)
  else 0.

(** The error of [VerifyElement] for the tag in the container, if any. *)
Definition verify_tag (containerType elemType tag : Z) : option chip_error :=
  if elemType =? TLVElementType.EndOfContainer then
    if containerType =? kTLVType_NotSpecified then Some CHIP_ERROR_INVALID_TLV_ELEMENT
    else if negb (tag =? AnonymousTag) then Some CHIP_ERROR_INVALID_TLV_TAG
    else None
  else if tag =? UnknownImplicitTag then Some CHIP_ERROR_UNKNOWN_IMPLICIT_TLV_TAG
  else if containerType =? kTLVType_NotSpecified then
    if IsContextTag tag then Some CHIP_ERROR_INVALID_TLV_TAG else None
  else if containerType =? kTLVType_Structure then
    if tag =? AnonymousTag then Some CHIP_ERROR_INVALID_TLV_TAG else None
  else if containerType =? kTLVType_Array then
    if negb (tag =? AnonymousTag) then Some CHIP_ERROR_INVALID_TLV_TAG else None
  else if (containerType =? kTLVType_UnknownContainer) || (containerType =? kTLVType_List) then None
  else Some CHIP_ERROR_INCORRECT_STATE.

Definition TLVReader_VerifyElement : rop unit := λ r,
  match verify_tag (rContainerType r) (ElementType r) (rElemTag r) with
  | Some e => RErr e r
  | None =>
      if TLVTypeHasLength (ElementType r)
         && (TLVReader_GetRemainingLength r <? u32 (rElemLenOrVal r))
      then RErr CHIP_ERROR_TLV_UNDERRUN r
      else ROk tt r
  end.

(** The number of bytes of the head that starts with [controlByte]. *)
Definition head_bytes (controlByte elemType : Z) : Z :=
  let tagControl := Z.land controlByte kTLVTagControlMask in
  let tagBytes := nth (Z.to_nat (Z.shiftr tagControl kTLVTagControlShift)) sTagSizes 0 in
  let valOrLenBytes := TLVFieldSizeToBytes (GetTLVFieldSize elemType) in
  u8 (1 + tagBytes + valOrLenBytes).

(** The head as bytes, taken from the buffer, or through the staging buffer when it goes
    over the end of the buffer. *)
Definition fetch_head (elemHeadBytes : Z) : rop (list Z) := λ r,
  match rReadPoint r with
  | PBytes p =>
      if Z.of_nat (length p) <? elemHeadBytes then TLVReader_ReadData elemHeadBytes r
      else ROk (take (Z.to_nat elemHeadBytes) p) (advance (Z.to_nat elemHeadBytes) p r)
  | _ => RUndefined
  end.

(** [ReadElement] after the head has been fetched. *)
Definition parse_head (head : list Z) : rop unit := λ r,
  let elemType := ElementType r in
  let tagControl := Z.land (rControlByte r) kTLVTagControlMask in
  let '(tag, p) := ReadTag (rImplicitProfileId r) tagControl (drop 1 head) in
  let fieldSize := GetTLVFieldSize elemType in
  let r := rset_lenOrVal (read_value fieldSize p) (rset_tag tag r) in
  if (fieldSize =? kTLVFieldSize_8Byte)
     && negb (negb (TLVTypeHasLength elemType) || (rElemLenOrVal r <=? UINT32_MAX))
  then RErr CHIP_ERROR_NOT_IMPLEMENTED r
  else TLVReader_VerifyElement r.

Definition TLVReader_ReadElement : rop unit :=
  TLVReader_EnsureData CHIP_END_OF_TLV ;;
  λ r,
  match rReadPoint r with
  | PNull => RErr CHIP_ERROR_INVALID_TLV_ELEMENT r
  | PStray | PBytes [] => RUndefined
  | PBytes (b :: _) =>
      let r := rset_controlByte b r in
      let elemType := ElementType r in
      if negb (IsValidTLVType elemType) then RErr CHIP_ERROR_INVALID_TLV_ELEMENT r
      else (head <-- fetch_head (head_bytes (rControlByte r) elemType) ;; parse_head head) r
  end.

(** ** Moving *)

Definition TLVReader_SkipData : rop unit := λ r,
  if TLVTypeHasLength (ElementType r)
  then (TLVReader_ReadData (u32 (rElemLenOrVal r)) ;; rret tt) r
  else ROk tt r.

(** The loop of [SkipToEndOfContainer]. *)
Fixpoint skip_loop (fuel : nat) (outerContainerType nestLevel : Z) : rop unit := λ r,
  match fuel with
  | O => RFuel
  | S fuel =>
      let next nestLevel r :=
        (TLVReader_SkipData ;; TLVReader_ReadElement ;; skip_loop fuel outerContainerType nestLevel) r in
      let elemType := ElementType r in
      if elemType =? TLVElementType.EndOfContainer then
        if nestLevel =? 0 then ROk tt r
        else
          let nestLevel := u32 (nestLevel - 1) in
          next nestLevel
            (rset_containerType (if nestLevel =? 0 then outerContainerType else kTLVType_UnknownContainer) r)
      else if TLVTypeIsContainer elemType
      then next (u32 (nestLevel + 1)) (rset_containerType elemType r)
      else next nestLevel r
  end.

(** The bytes in front of the reader. *)
Definition point_bytes (p : read_point) : list Z := match p with PBytes l => l | _ => [] end.
Definition input (r : TLVReader) : list Z :=
  point_bytes (rReadPoint r) ++ concat (from_option id [] (rBackingStore r)).

Definition TLVReader_SkipToEndOfContainer : rop unit := λ r,
  skip_loop (S (S (length (input r)))) (rContainerType r) 0 (rset_containerOpen false r).

(** [EnterContainer] gives the outer container type. *)
Definition TLVReader_EnterContainer : rop Z := λ r,
  let elemType := ElementType r in
  if negb (TLVTypeIsContainer elemType) then RErr CHIP_ERROR_INCORRECT_STATE r
  else
    ROk (rContainerType r)
      (rset_containerOpen false (TLVReader_ClearElementState (rset_containerType elemType r))).

Definition TLVReader_ExitContainer (outerContainerType : Z) : rop unit :=
  TLVReader_SkipToEndOfContainer ;;
  rmod (λ r, TLVReader_ClearElementState (rset_containerType outerContainerType r)).

Definition TLVReader_Skip : rop unit := λ r,
  let elemType := ElementType r in
  if elemType =? TLVElementType.EndOfContainer then RErr CHIP_END_OF_TLV r
  else if TLVTypeIsContainer elemType
  then (outer <-- TLVReader_EnterContainer ;; TLVReader_ExitContainer outer) r
  else (TLVReader_SkipData ;; rmod TLVReader_ClearElementState) r.

Definition TLVReader_Next : rop unit :=
  TLVReader_Skip ;;
  TLVReader_ReadElement ;;
  λ r,
  let elemType := ElementType r in
  if elemType =? TLVElementType.EndOfContainer then RErr CHIP_END_OF_TLV r
  else if TLVTypeIsString elemType && negb (TLVReader_GetLength r =? 0)
  then TLVReader_EnsureData CHIP_ERROR_TLV_UNDERRUN r
  else ROk tt r.

Definition TLVReader_VerifyEndOfContainer : rop unit := λ r,
  match TLVReader_Next r with
  | RErr CHIP_ERROR_END_OF_TLV r => ROk tt r
  | ROk _ r => RErr CHIP_ERROR_UNEXPECTED_TLV_ELEMENT r
  | res => res
  end.

(** [Expect] and [Next] with an expected tag, or an expected type and tag. *)
Definition TLVReader_Expect_tag (expectedTag : Z) : rop unit := λ r,
  if TLVReader_GetType r =? kTLVType_NotSpecified then RErr CHIP_ERROR_WRONG_TLV_TYPE r
  else if negb (TLVReader_GetTag r =? expectedTag) then RErr CHIP_ERROR_UNEXPECTED_TLV_ELEMENT r
  else ROk tt r.

Definition TLVReader_Next_tag (expectedTag : Z) : rop unit :=
  TLVReader_Next ;; TLVReader_Expect_tag expectedTag.

Definition TLVReader_Expect (expectedType expectedTag : Z) : rop unit := λ r,
  if negb (TLVReader_GetType r =? expectedType) then RErr CHIP_ERROR_WRONG_TLV_TYPE r
  else if negb (TLVReader_GetTag r =? expectedTag) then RErr CHIP_ERROR_UNEXPECTED_TLV_ELEMENT r
  else ROk tt r.

Definition TLVReader_Next_type (expectedType expectedTag : Z) : rop unit :=
  TLVReader_Next ;; TLVReader_Expect expectedType expectedTag.

(** ** Container readers

    A container reader takes over the input, the backing store included. *)

Definition TLVReader_OpenContainer (r : TLVReader) : chip_error * option TLVReader * TLVReader :=
  let elemType := ElementType r in
  if negb (TLVTypeIsContainer elemType) then (CHIP_ERROR_INCORRECT_STATE, None, r)
  else
    (CHIP_NO_ERROR,
     Some (mkReader (rImplicitProfileId r) AnonymousTag 0 (rBackingStore r) (rReadPoint r) (rLenRead r)
             (rMaxLen r) elemType kTLVControlByte_NotSpecified false),
     rset_containerOpen true r).

(** [CloseContainer] of [r] with its container reader [c]; the latter is left as
    [SkipToEndOfContainer] leaves it. *)
Definition TLVReader_CloseContainer (c r : TLVReader) : rres unit :=
  if negb (rContainerOpen r) then RErr CHIP_ERROR_INCORRECT_STATE r
  else if negb (rContainerType c =? ElementType r) then RErr CHIP_ERROR_INCORRECT_STATE r
  else
    match TLVReader_SkipToEndOfContainer c with
    | ROk _ c =>
        ROk tt (TLVReader_ClearElementState
          (mkReader (rImplicitProfileId r) (rElemTag r) (rElemLenOrVal r) (rBackingStore c) (rReadPoint c)
             (rLenRead c) (rMaxLen c) (rContainerType r) (rControlByte r) (rContainerOpen r)))
    | RErr e _ => RErr e r
    | RUndefined => RUndefined
    | RFuel => RFuel
    end.

(** ** Values

    A call takes the old contents of its output and gives the error and the new. *)

Definition CastToSigned (w v : Z) : Z :=
  if v <=? 2 ^ (w - 1) - 1 then v else - (2 ^ w - 1 - v) - 1.

Definition TLVReader_Get_bool (r : TLVReader) (v : bool) : chip_error * bool :=
  let elemType := ElementType r in
  if elemType =? TLVElementType.BooleanFalse then (CHIP_NO_ERROR, false)
  else if elemType =? TLVElementType.BooleanTrue then (CHIP_NO_ERROR, true)
  else (CHIP_ERROR_WRONG_TLV_TYPE, v).

Definition TLVReader_Get_i64 (r : TLVReader) (v : Z) : chip_error * Z :=
  let elemType := ElementType r in
  if elemType =? TLVElementType.Int8 then (CHIP_NO_ERROR, CastToSigned 8 (u8 (rElemLenOrVal r)))
  else if elemType =? TLVElementType.Int16 then (CHIP_NO_ERROR, CastToSigned 16 (u16 (rElemLenOrVal r)))
  else if elemType =? TLVElementType.Int32 then (CHIP_NO_ERROR, CastToSigned 32 (u32 (rElemLenOrVal r)))
  else if elemType =? TLVElementType.Int64 then (CHIP_NO_ERROR, CastToSigned 64 (rElemLenOrVal r))
  else (CHIP_ERROR_WRONG_TLV_TYPE, v).

Definition TLVReader_Get_u64 (r : TLVReader) (v : Z) : chip_error * Z :=
  let elemType := ElementType r in
  if (TLVElementType.UInt8 <=? elemType) && (elemType <=? TLVElementType.UInt64)
  then (CHIP_NO_ERROR, rElemLenOrVal r)
  else (CHIP_ERROR_WRONG_TLV_TYPE, v).

(** The narrower overloads of [Get]: a value that does not fit is refused, and the error
    of the wide one is looked at last. *)
Definition narrow (lo hi : Z) (res : chip_error * Z) (v : Z) : chip_error * Z :=
  let '(err, v64) := res in
  if negb ((lo <=? v64) && (v64 <=? hi)) then (CHIP_ERROR_INVALID_INTEGER_VALUE, v) else (err, v64).

Definition TLVReader_Get_i8 r v := narrow (- 2 ^ 7) (2 ^ 7 - 1) (TLVReader_Get_i64 r 0) v.
Definition TLVReader_Get_i16 r v := narrow (- 2 ^ 15) (2 ^ 15 - 1) (TLVReader_Get_i64 r 0) v.
Definition TLVReader_Get_i32 r v := narrow (- 2 ^ 31) (2 ^ 31 - 1) (TLVReader_Get_i64 r 0) v.
Definition TLVReader_Get_u8 r v := narrow 0 (2 ^ 8 - 1) (TLVReader_Get_u64 r 0) v.
Definition TLVReader_Get_u16 r v := narrow 0 (2 ^ 16 - 1) (TLVReader_Get_u64 r 0) v.
Definition TLVReader_Get_u32 r v := narrow 0 (2 ^ 32 - 1) (TLVReader_Get_u64 r 0) v.

(** [Get(float)], as the bits of the number. *)
Definition TLVReader_Get_float (r : TLVReader) (v : Z) : chip_error * Z :=
  if ElementType r =? TLVElementType.FloatingPointNumber32 then (CHIP_NO_ERROR, u32 (rElemLenOrVal r))
  else (CHIP_ERROR_WRONG_TLV_TYPE, v).

(** [Get(double)]: the bits of a [double], or of the [float] that is converted to it. *)
Definition TLVReader_Get_double (r : TLVReader) (v : Z + Z) : chip_error * (Z + Z) :=
  if ElementType r =? TLVElementType.FloatingPointNumber32 then (CHIP_NO_ERROR, inl (u32 (rElemLenOrVal r)))
  else if ElementType r =? TLVElementType.FloatingPointNumber64 then (CHIP_NO_ERROR, inr (rElemLenOrVal r))
  else (CHIP_ERROR_WRONG_TLV_TYPE, v).

(** [GetDataPtr]: null, or the bytes from the read point on. *)
Definition TLVReader_GetDataPtr : rop (option (list Z)) := λ r,
  if negb (TLVTypeIsString (ElementType r)) then RErr CHIP_ERROR_WRONG_TLV_TYPE r
  else if TLVReader_GetLength r =? 0 then ROk None r
  else
    match rReadPoint r with
    | PBytes p =>
        if u32 (Z.of_nat (length p)) <? u32 (rElemLenOrVal r) then RErr CHIP_ERROR_TLV_UNDERRUN r
        else ROk (Some p) r
    | _ => RUndefined
    end.

Definition TLVReader_Get_ByteSpan : rop (list Z) :=
  val <-- TLVReader_GetDataPtr ;;
  λ r, ROk (take (Z.to_nat (TLVReader_GetLength r)) (default [] val)) r.

Definition kUnicodeInformationSeparator1 : Z := 0x1F.

(** The bytes in front of the first [c], as found with [memchr]. *)
Fixpoint until (c : Z) (l : list Z) : list Z :=
  match l with
  | [] => []
  | b :: l => if b =? c then [] else b :: until c l
  end.

Section CharSpan.
Context `{TlvConfig}.

(** [Get(CharSpan & v)]: the new contents of [v], which an empty string leaves alone. *)
Definition TLVReader_Get_CharSpan (v : list Z) : rop (list Z) := λ r,
  if negb (TLVTypeIsUTF8String (ElementType r)) then RErr CHIP_ERROR_WRONG_TLV_TYPE r
  else
    (bytes <-- TLVReader_GetDataPtr ;;
     match bytes with
     | None => rret v
     | Some bytes =>
         let v := until kUnicodeInformationSeparator1 (take (Z.to_nat (TLVReader_GetLength r)) bytes) in
         if TLV_VALIDATE_CHAR_STRING_ON_READ && negb (Utf8.IsValid v) then rfail CHIP_ERROR_INVALID_UTF8
         else if TLV_VALIDATE_CHAR_STRING_ON_READ && bool_decide (last v = Some 0)
         then rfail CHIP_ERROR_INVALID_TLV_CHAR_STRING
         else rret v
     end) r.

End CharSpan.

(** [GetBytes(buf, bufSize)]: the bytes copied to [buf]. *)
Definition TLVReader_GetBytes (bufSize : Z) : rop (list Z) := λ r,
  if negb (TLVTypeIsString (ElementType r)) then RErr CHIP_ERROR_WRONG_TLV_TYPE r
  else if bufSize <? rElemLenOrVal r then RErr CHIP_ERROR_BUFFER_TOO_SMALL r
  else (data <-- TLVReader_ReadData (u32 (rElemLenOrVal r)) ;; rmod (rset_lenOrVal 0) ;; rret data) r.

(** [GetString(buf, bufSize)]: the characters copied, followed by a zero. *)
Definition TLVReader_GetString (bufSize : Z) : rop (list Z) := λ r,
  if negb (TLVTypeIsString (ElementType r)) then RErr CHIP_ERROR_WRONG_TLV_TYPE r
  else if bufSize <? u64 (rElemLenOrVal r + 1) then RErr CHIP_ERROR_BUFFER_TOO_SMALL r
  else (data <-- TLVReader_GetBytes (bufSize - 1) ;; rret (data ++ [0])) r.

(** [DupBytes(buf, dataLen)] and [DupString(buf)] copy to a block that they allocate; [alloc] says
    whether there is memory. *)
Definition TLVReader_DupBytes (alloc : bool) : rop (list Z) := λ r,
  if negb (TLVTypeIsString (ElementType r)) then RErr CHIP_ERROR_WRONG_TLV_TYPE r
  else if negb alloc then RErr CHIP_ERROR_NO_MEMORY r
  else (data <-- TLVReader_ReadData (u32 (rElemLenOrVal r)) ;; rmod (rset_lenOrVal 0) ;; rret data) r.

Definition TLVReader_DupString (alloc : bool) : rop (list Z) := λ r,
  if negb (TLVTypeIsString (ElementType r)) then RErr CHIP_ERROR_WRONG_TLV_TYPE r
  else if 2 ^ 32 - 2 <? rElemLenOrVal r then RErr CHIP_ERROR_NO_MEMORY r
  else if negb alloc then RErr CHIP_ERROR_NO_MEMORY r
  else (data <-- TLVReader_ReadData (u32 (rElemLenOrVal r)) ;; rmod (rset_lenOrVal 0) ;; rret (data ++ [0])) r.

(** ** Searching

    The code works on a copy of the reader that shares the backing store; here [r] is
    without one, so the copy is independent. *)

(** The loop of [FindElementWithTag]; [RErr] carries the copy. *)
Fixpoint find_loop (fuel : nat) (tag : Z) : rop unit :=
  match fuel with
  | O => λ _, RFuel
  | S fuel =>
      TLVReader_Next ;;
      λ r,
      if TLVReader_GetType r =? kTLVType_NotSpecified then RErr CHIP_ERROR_INVALID_TLV_ELEMENT r
      else if tag =? TLVReader_GetTag r then ROk tt r
      else find_loop fuel tag r
  end.

Definition TLVReader_FindElementWithTag (tag : Z) (r : TLVReader) : rres unit :=
  find_loop (S (length (input r))) tag r.

(** The loop of [CountRemainingInContainer]. *)
Fixpoint count_loop (fuel : nat) (count : Z) : TLVReader → rres Z := λ r,
  match fuel with
  | O => RFuel
  | S fuel =>
      match TLVReader_Next r with
      | ROk _ r => count_loop fuel (count + 1) r
      | RErr CHIP_ERROR_END_OF_TLV r => ROk count r
      | RErr e r => RErr e r
      | RUndefined => RUndefined
      | RFuel => RFuel
      end
  end.

Definition TLVReader_CountRemainingInContainer (r : TLVReader) : rres Z :=
  if rContainerType r =? kTLVType_NotSpecified then RErr CHIP_ERROR_INCORRECT_STATE r
  else count_loop (S (length (input r))) 0 r.
