(* ===== verification/TlvTotal.v ===== *)
(** * TLV: the reader on arbitrary bytes

    A reader over one buffer returns from every call, whatever the bytes are, and never
    leaves the buffer. *)

From S2P Require Import Prelude.
From S2P Require Import ChipError.
From S2P Require Import Endian.
From S2P Require Import TlvTypes.
From S2P Require Import TlvReader.

#[local] Open Scope reader_scope.

(** ** The state of a reader over [data] *)

(** The reader is at position [mLenRead] of [data]. *)
Definition reads_from (data : list Z) (r : TLVReader) : Prop :=
  rBackingStore r = None ∧ rMaxLen r = Z.of_nat (length data) ∧ in_u32 (rMaxLen r) ∧
  0 <= rLenRead r <= rMaxLen r ∧ rReadPoint r = PBytes (drop (Z.to_nat (rLenRead r)) data).

(** [op] returns, with the reader at or behind the position [k] bytes after the old one. *)
Definition returns_from {A} (data : list Z) (k : Z) (r : TLVReader) (res : rres A) : Prop :=
  match res with
  | ROk _ r' => reads_from data r' ∧ rLenRead r + k <= rLenRead r'
  | RErr _ r' => reads_from data r' ∧ rLenRead r <= rLenRead r'
  | RUndefined | RFuel => False
  end.

Definition total {A} (data : list Z) (op : rop A) : Prop := ∀ r, reads_from data r → returns_from data 0 r (op r).

Section Total.
Context (data : list Z).

Lemma total_ret {A} (a : A) : total data (rret a).
Proof. intros r Hr. split; [done|lia]. Qed.

Lemma total_fail {A} e : total data (rfail e : rop A).
Proof. intros r Hr. split; [done|lia]. Qed.

Lemma total_bind {A B} (o : rop A) (k : A → rop B) : total data o → (∀ a, total data (k a)) → total data (rbind o k).
Proof.
  intros Ho Hk r Hr. unfold rbind. specialize (Ho r Hr). destruct (o r) as [a r'|e r'| |]; try done.
  destruct Ho as [Hr' Hl]. specialize (Hk a r' Hr'). destruct (k a r'); cbn in *; try done; (split; [apply Hk|lia]).
Qed.

Lemma total_mod f :
  (∀ r, rBackingStore (f r) = rBackingStore r ∧ rMaxLen (f r) = rMaxLen r ∧ rLenRead (f r) = rLenRead r ∧
        rReadPoint (f r) = rReadPoint r) → total data (rmod f).
Proof. intros Hf r Hr. destruct (Hf r) as (E1&E2&E3&E4). cbn. unfold reads_from. rewrite E1, E2, E3, E4. split; [done|lia]. Qed.

(** A change that keeps the input. *)
Lemma returns_frame {A} k r r' (res : rres A) :
  rLenRead r' = rLenRead r → returns_from data k r' res → returns_from data k r res.
Proof. unfold returns_from. intros ->. done. Qed.

Lemma EnsureData_total e r :
  reads_from data r →
  (TLVReader_EnsureData e r = RErr e r ∧ rLenRead r = rMaxLen r) ∨
  (TLVReader_EnsureData e r = ROk tt r ∧ rLenRead r < rMaxLen r).
Proof.
  intros (Hbs&Hmax&Hu&Hl&Hrp). unfold TLVReader_EnsureData. rewrite Hrp, Hbs.
  destruct (drop (Z.to_nat (rLenRead r)) data) as [|b p] eqn:Hd.
  - left. rewrite bool_decide_true by done. split; [by destruct (_ =? _)|].
    apply (f_equal length) in Hd. rewrite length_drop in Hd. cbn in Hd. lia.
  - right. rewrite bool_decide_false by done. split; [done|].
    apply (f_equal length) in Hd. rewrite length_drop in Hd. cbn in Hd. lia.
Qed.

Lemma reads_advance r p n :
  reads_from data r → rReadPoint r = PBytes p → (n <= length p)%nat →
  reads_from data (advance n p r) ∧ rLenRead (advance n p r) = rLenRead r + Z.of_nat n.
Proof.
  intros (Hbs&Hmax&Hu&Hl&Hrp) Hp Hn. rewrite Hrp in Hp. injection Hp as <-. rewrite length_drop in Hn.
  unfold reads_from, advance. cbn. rewrite u32_id by solve_width. split_and!; try done; try lia.
  f_equal. rewrite drop_drop. f_equal. lia.
Qed.

Lemma read_loop_total fuel len acc r :
  (2 <= fuel)%nat → reads_from data r → returns_from data (Z.max 0 len) r (read_loop fuel len acc r).
Proof.
  intros Hf Hr. destruct fuel as [|[|fuel]]; [lia|lia|]. cbn [read_loop].
  destruct (Z.ltb_spec 0 len); [|split; [done|lia]].
  unfold rbind. destruct (EnsureData_total CHIP_ERROR_TLV_UNDERRUN r Hr) as [[-> _]|[-> Hlt]]; [split; [done|lia]|].
  pose proof Hr as (_&Hmax&_&Hl&Hrp). rewrite Hrp. cbv iota.
  set (p := drop (Z.to_nat (rLenRead r)) data) in *.
  assert (length p = Z.to_nat (rMaxLen r - rLenRead r)) as Hp by (subst p; rewrite length_drop; lia).
  destruct (Z.ltb_spec (Z.of_nat (length p)) len) as [Hs|Hs].
  - destruct (reads_advance r p (length p) Hr Hrp) as [Ha Hla]; [done|].
    rewrite Nat2Z.id. rewrite (proj2 (Z.ltb_lt 0 (len - Z.of_nat (length p)))) by lia.
    destruct (EnsureData_total CHIP_ERROR_TLV_UNDERRUN _ Ha) as [[-> _]|[_ Hlt']]; [split; [done|lia]|].
    destruct Ha as (_&Hm'&_). lia.
  - destruct (reads_advance r p (Z.to_nat len) Hr Hrp) as [Ha Hla]; [lia|].
    rewrite Z.sub_diag. change (returns_from data (Z.max 0 len) r (ROk (acc ++ take (Z.to_nat len) p) (advance (Z.to_nat len) p r))).
    split; [done|]. rewrite Hla. lia.
Qed.

Lemma ReadData_total len r : reads_from data r → returns_from data (Z.max 0 len) r (TLVReader_ReadData len r).
Proof. intros Hr. apply read_loop_total; [lia|done]. Qed.

Lemma total_ReadData len : total data (TLVReader_ReadData len).
Proof.
  intros r Hr. pose proof (ReadData_total len r Hr) as H. destruct (TLVReader_ReadData len r); cbn in *; try done.
  split; [apply H|]. lia.
Qed.

Lemma total_SkipData : total data TLVReader_SkipData.
Proof.
  intros r Hr. unfold TLVReader_SkipData. case_match; [|split; [done|lia]].
  apply (total_bind _ (λ _, rret tt)); [apply total_ReadData|intros; apply total_ret|done].
Qed.

Lemma head_bytes_pos c et : 1 <= head_bytes c et <= 17.
Proof.
  unfold head_bytes.
  assert (0 <= nth (Z.to_nat (Z.shiftr (Z.land c kTLVTagControlMask) kTLVTagControlShift)) sTagSizes 0 <= 8) as Ht.
  { generalize (Z.to_nat (Z.shiftr (Z.land c kTLVTagControlMask) kTLVTagControlShift)) as i. intros i.
    do 8 (destruct i as [|i]; [cbn; lia|]). destruct i; cbn; lia. }
  assert (0 <= TLVFieldSizeToBytes (GetTLVFieldSize et) <= 8) as Hv.
  { unfold GetTLVFieldSize. destruct (TLVTypeHasValue et); [|done]. unfold kTLVTypeSizeMask.
    change 3 with (2 ^ 2 - 1). rewrite land_mod by lia. pose proof (Z.mod_pos_bound (u8 et) (2 ^ 2) ltac:(lia)) as Hb.
    assert (u8 et mod 2 ^ 2 = 0 ∨ u8 et mod 2 ^ 2 = 1 ∨ u8 et mod 2 ^ 2 = 2 ∨ u8 et mod 2 ^ 2 = 3)
      as [->|[->|[->| ->]]] by lia; vm_compute; split; congruence. }
  rewrite u8_id by solve_width. lia.
Qed.

Lemma fetch_head_total n r :
  1 <= n → reads_from data r → returns_from data 1 r (fetch_head n r).
Proof.
  intros Hn Hr. pose proof Hr as (_&_&_&_&Hrp). unfold fetch_head. rewrite Hrp. cbv iota.
  destruct (Z.ltb_spec (Z.of_nat (length (drop (Z.to_nat (rLenRead r)) data))) n).
  - pose proof (ReadData_total n r Hr) as Hd. destruct (TLVReader_ReadData n r); cbn in *; try done.
    split; [apply Hd|lia].
  - destruct (reads_advance r _ (Z.to_nat n) Hr Hrp) as [Ha Hla]; [lia|]. split; [done|]. lia.
Qed.

Lemma parse_head_total head : total data (parse_head head).
Proof.
  intros r Hr. unfold parse_head. destruct (ReadTag _ _ _) as [tag p].
  set (r' := rset_lenOrVal _ _). assert (reads_from data r') as Hr' by done.
  assert (rLenRead r' = rLenRead r) as Hl by done. clearbody r'.
  destruct (_ && _); [split; [done|lia]|]. unfold TLVReader_VerifyElement.
  destruct (verify_tag _ _ _); [split; [done|lia]|]. destruct (_ && _); (split; [done|lia]).
Qed.

(** Each element read takes a byte at least. *)
Lemma ReadElement_total r : reads_from data r → returns_from data 1 r (TLVReader_ReadElement r).
Proof.
  intros Hr. unfold TLVReader_ReadElement, rbind at 1.
  destruct (EnsureData_total CHIP_END_OF_TLV r Hr) as [[-> _]|[-> Hlt]]; [split; [done|lia]|].
  pose proof Hr as (_&Hm&_&Hl0&Hrp). rewrite Hrp. cbv iota.
  destruct (drop (Z.to_nat (rLenRead r)) data) as [|b p] eqn:Hd.
  { apply (f_equal length) in Hd. rewrite length_drop in Hd. cbn in Hd. lia. }
  set (r1 := rset_controlByte b r). assert (reads_from data r1) as Hr1 by done.
  assert (rLenRead r1 = rLenRead r) as Hl by done. clearbody r1.
  destruct (negb _); [split; [done|lia]|].
  pose proof (fetch_head_total (head_bytes (rControlByte r1) (ElementType r1)) r1
    (proj1 (head_bytes_pos _ _)) Hr1) as Hf.
  unfold rbind. destruct (fetch_head _ r1) as [head r2|e r2| |]; cbn in Hf; try done; [|split; [apply Hf|lia]].
  destruct Hf as [Hr2 Hl2]. pose proof (parse_head_total head r2 Hr2) as Hp.
  destruct (parse_head head r2); cbn in *; try done; (split; [apply Hp|lia]).
Qed.

Lemma total_ReadElement : total data TLVReader_ReadElement.
Proof.
  intros r Hr. pose proof (ReadElement_total r Hr) as H. destruct (TLVReader_ReadElement r); cbn in *; try done.
  split; [apply H|lia].
Qed.

(** The loop of [SkipToEndOfContainer] ends before the bytes do. *)
Lemma skip_loop_total fuel outer k r :
  reads_from data r → (Z.to_nat (rMaxLen r - rLenRead r) < fuel)%nat →
  returns_from data 0 r (skip_loop fuel outer k r).
Proof.
  revert k r. induction fuel as [|fuel IH]; intros k r Hr Hf; [lia|].
  assert (Hnext : ∀ k' r', reads_from data r' → rLenRead r' = rLenRead r →
    returns_from data 0 r ((TLVReader_SkipData ;; TLVReader_ReadElement ;; skip_loop fuel outer k') r')).
  { intros k' r' Hr' Hl'. unfold rbind. pose proof (total_SkipData r' Hr') as H1.
    destruct (TLVReader_SkipData r') as [? r1|? r1| |]; cbn in H1; try done; [|split; [apply H1|lia]].
    destruct H1 as [Hr1 Hl1]. pose proof (ReadElement_total r1 Hr1) as H2.
    destruct (TLVReader_ReadElement r1) as [? r2|? r2| |]; cbn in H2; try done; [|split; [apply H2|lia]].
    destruct H2 as [Hr2 Hl2]. assert (rMaxLen r2 = rMaxLen r) as Hm2.
    { destruct Hr2 as (_&->&_), Hr as (_&->&_). done. }
    pose proof Hr2 as (_&_&_&Hb2&_).
    pose proof (IH k' r2 Hr2 ltac:(lia)) as H3.
    destruct (skip_loop fuel outer k' r2); cbn in *; try done; (split; [apply H3|lia]). }
  cbn [skip_loop]. cbn zeta. destruct (_ =? _); [destruct (_ =? _); [split; [done|lia]|]|destruct (TLVTypeIsContainer _)];
    apply Hnext; done.
Qed.

Lemma input_length r : reads_from data r → length (input r) = Z.to_nat (rMaxLen r - rLenRead r).
Proof.
  intros (Hbs&Hm&_&Hl&Hrp). unfold input. rewrite Hbs, Hrp. cbn. rewrite app_nil_r, length_drop. lia.
Qed.

Lemma total_SkipToEnd : total data TLVReader_SkipToEndOfContainer.
Proof.
  intros r Hr. unfold TLVReader_SkipToEndOfContainer. rewrite (input_length r Hr).
  apply (returns_frame 0 r (rset_containerOpen false r)); [done|]. apply skip_loop_total; [done|]. cbn. lia.
Qed.

Lemma total_Enter : total data TLVReader_EnterContainer.
Proof. intros r Hr. unfold TLVReader_EnterContainer. destruct (negb _); (split; [done|cbn; lia]). Qed.

Lemma total_Exit outer : total data (TLVReader_ExitContainer outer).
Proof. apply total_bind; [apply total_SkipToEnd|]. intros _. by apply total_mod. Qed.

Lemma total_Skip : total data TLVReader_Skip.
Proof.
  intros r Hr. unfold TLVReader_Skip. destruct (_ =? _); [split; [done|lia]|]. destruct (TLVTypeIsContainer _).
  - revert r Hr. apply total_bind; [apply total_Enter|]. intros outer. apply total_Exit.
  - revert r Hr. apply total_bind; [apply total_SkipData|]. intros _. by apply total_mod.
Qed.

(** [Next] reads one element at least. *)
Lemma Next_total r : reads_from data r → returns_from data 1 r (TLVReader_Next r).
Proof.
  intros Hr. unfold TLVReader_Next, rbind. pose proof (total_Skip r Hr) as H1.
  destruct (TLVReader_Skip r) as [? r1|? r1| |]; cbn in H1; try done.
  destruct H1 as [Hr1 Hl1]. pose proof (ReadElement_total r1 Hr1) as H2.
  destruct (TLVReader_ReadElement r1) as [? r2|? r2| |]; cbn in H2; try done; [|split; [apply H2|lia]].
  destruct H2 as [Hr2 Hl2]. destruct (_ =? _); [split; [done|lia]|]. destruct (_ && _); [|split; [done|lia]].
  destruct (EnsureData_total CHIP_ERROR_TLV_UNDERRUN r2 Hr2) as [[-> _]|[-> _]]; (split; [done|lia]).
Qed.

End Total.

(** ** The other calls *)

Section Calls.
Context `{TlvConfig} (data : list Z).

Lemma total_if {A} (c : bool) (o k : rop A) : total data o → total data k → total data (λ r, if c then o r else k r).
Proof. by destruct c. Qed.

Lemma total_Next : total data TLVReader_Next.
Proof.
  intros r Hr. pose proof (Next_total data r Hr) as Hn. destruct (TLVReader_Next r); cbn in *; try done.
  split; [apply Hn|lia].
Qed.

Lemma total_VerifyEnd : total data TLVReader_VerifyEndOfContainer.
Proof.
  intros r Hr. unfold TLVReader_VerifyEndOfContainer. pose proof (total_Next r Hr) as Hn.
  destruct (TLVReader_Next r) as [? r1|e r1| |]; cbn in Hn; try done.
  - split; [apply Hn|lia].
  - destruct e; cbn; (split; [apply Hn|lia]).
Qed.

Lemma total_Expect_tag tag : total data (TLVReader_Expect_tag tag).
Proof. intros r Hr. unfold TLVReader_Expect_tag. repeat case_match; (split; [done|lia]). Qed.

Lemma total_Expect t tag : total data (TLVReader_Expect t tag).
Proof. intros r Hr. unfold TLVReader_Expect. repeat case_match; (split; [done|lia]). Qed.

Lemma total_GetDataPtr : total data TLVReader_GetDataPtr.
Proof.
  intros r Hr. pose proof Hr as (_&_&_&_&Hrp). unfold TLVReader_GetDataPtr. rewrite Hrp.
  repeat case_match; simplify_eq; (split; [done|lia]).
Qed.

Lemma total_ByteSpan : total data TLVReader_Get_ByteSpan.
Proof. apply total_bind; [apply total_GetDataPtr|]. intros val r Hr. split; [done|lia]. Qed.

Lemma total_CharSpan v : total data (TLVReader_Get_CharSpan v).
Proof.
  intros r Hr. unfold TLVReader_Get_CharSpan. destruct (negb _); [split; [done|lia]|].
  revert Hr. generalize (Z.to_nat (TLVReader_GetLength r)) as n. intros n. revert r. apply total_bind; [apply total_GetDataPtr|].
  intros [p|]; [|apply total_ret]. repeat case_match; (apply total_ret || apply total_fail).
Qed.

(** What [GetBytes] and the copying calls do once the element is checked. *)
Lemma total_take_bytes {A} len (f : list Z → A) :
  total data (d <-- TLVReader_ReadData len ;; rmod (rset_lenOrVal 0) ;; rret (f d)).
Proof.
  apply total_bind; [apply total_ReadData|]. intros d. apply total_bind; [by apply total_mod|]. intros _. apply total_ret.
Qed.

Lemma total_GetBytes n : total data (TLVReader_GetBytes n).
Proof.
  intros r Hr. unfold TLVReader_GetBytes. destruct (negb _); [split; [done|lia]|].
  destruct (_ <? _); [split; [done|lia]|]. by apply (total_take_bytes (u32 (rElemLenOrVal r)) (λ d, d)).
Qed.

Lemma total_GetString n : total data (TLVReader_GetString n).
Proof.
  intros r Hr. unfold TLVReader_GetString. destruct (negb _); [split; [done|lia]|].
  destruct (_ <? _); [split; [done|lia]|]. revert r Hr.
  apply total_bind; [apply total_GetBytes|]. intros d. apply total_ret.
Qed.

Lemma total_DupBytes alloc : total data (TLVReader_DupBytes alloc).
Proof.
  intros r Hr. unfold TLVReader_DupBytes. destruct (negb _); [split; [done|lia]|]. destruct (negb _); [split; [done|lia]|].
  by apply (total_take_bytes (u32 (rElemLenOrVal r)) (λ d, d)).
Qed.

Lemma total_DupString alloc : total data (TLVReader_DupString alloc).
Proof.
  intros r Hr. unfold TLVReader_DupString. destruct (negb _); [split; [done|lia]|]. destruct (_ <? _); [split; [done|lia]|].
  destruct (negb _); [split; [done|lia]|]. by apply (total_take_bytes (u32 (rElemLenOrVal r)) (λ d, d ++ [0])).
Qed.

Lemma find_loop_total fuel tag r :
  reads_from data r → (Z.to_nat (rMaxLen r - rLenRead r) < fuel)%nat → returns_from data 0 r (find_loop fuel tag r).
Proof.
  revert r. induction fuel as [|fuel IH]; intros r Hr Hf; [lia|]. cbn [find_loop]. unfold rbind.
  pose proof (Next_total data r Hr) as Hn. destruct (TLVReader_Next r) as [? r1|e r1| |]; cbn in Hn; try done.
  destruct Hn as [Hr1 Hl1]. destruct (_ =? _); [split; [done|lia]|]. destruct (_ =? _); [split; [done|lia]|].
  assert (rMaxLen r1 = rMaxLen r) as Hm by (destruct Hr1 as (_&->&_), Hr as (_&->&_); done).
  pose proof Hr1 as (_&_&_&Hb1&_). pose proof (IH r1 Hr1 ltac:(lia)) as H1.
  destruct (find_loop fuel tag r1); cbn in *; try done; (split; [apply H1|lia]).
Qed.

Lemma total_Find tag : total data (TLVReader_FindElementWithTag tag).
Proof.
  intros r Hr. apply find_loop_total; [done|]. rewrite (input_length data r Hr). lia.
Qed.

Lemma count_loop_total fuel n r :
  reads_from data r → (Z.to_nat (rMaxLen r - rLenRead r) < fuel)%nat → returns_from data 0 r (count_loop fuel n r).
Proof.
  revert n r. induction fuel as [|fuel IH]; intros n r Hr Hf; [lia|]. cbn [count_loop].
  pose proof (Next_total data r Hr) as Hn. destruct (TLVReader_Next r) as [? r1|e r1| |]; cbn in Hn; try done.
  2: { destruct e; cbn; (split; [apply Hn|lia]). }
  destruct Hn as [Hr1 Hl1].
  assert (rMaxLen r1 = rMaxLen r) as Hm by (destruct Hr1 as (_&->&_), Hr as (_&->&_); done).
  pose proof Hr1 as (_&_&_&Hb1&_). pose proof (IH (n + 1) r1 Hr1 ltac:(lia)) as H1.
  destruct (count_loop fuel (n + 1) r1); cbn in *; try done; (split; [apply H1|lia]).
Qed.

Lemma total_Count : total data TLVReader_CountRemainingInContainer.
Proof.
  intros r Hr. unfold TLVReader_CountRemainingInContainer. destruct (_ =? _); [split; [done|lia]|].
  apply count_loop_total; [done|]. rewrite (input_length data r Hr). lia.
Qed.

(** ** All calls *)

Definition rvoid {A} (o : rop A) : rop unit := o ;; rret tt.

(** A [Get] of a number: it looks at the element and leaves the reader. *)
Definition get_op {A} (g : TLVReader → chip_error * A) : rop A := λ r,
  match g r with (CHIP_NO_ERROR, v) => ROk v r | (e, _) => RErr e r end.

(** [OpenContainer] for the reader it is called on; the container reader is its second result. *)
Definition open_op : rop unit := λ r,
  match TLVReader_OpenContainer r with (CHIP_NO_ERROR, _, r') => ROk tt r' | (e, _, r') => RErr e r' end.

(** All calls on one reader; [CloseContainer] takes two. *)
Inductive reader_op : rop unit → Prop :=
| op_Next : reader_op TLVReader_Next
| op_Next_tag tag : reader_op (TLVReader_Next_tag tag)
| op_Next_type t tag : reader_op (TLVReader_Next_type t tag)
| op_Expect_tag tag : reader_op (TLVReader_Expect_tag tag)
| op_Expect t tag : reader_op (TLVReader_Expect t tag)
| op_Skip : reader_op TLVReader_Skip
| op_Enter : reader_op (rvoid TLVReader_EnterContainer)
| op_Exit t : reader_op (TLVReader_ExitContainer t)
| op_Open : reader_op open_op
| op_VerifyEnd : reader_op TLVReader_VerifyEndOfContainer
| op_bool v : reader_op (rvoid (get_op (λ r, TLVReader_Get_bool r v)))
| op_i8 v : reader_op (rvoid (get_op (λ r, TLVReader_Get_i8 r v)))
| op_i16 v : reader_op (rvoid (get_op (λ r, TLVReader_Get_i16 r v)))
| op_i32 v : reader_op (rvoid (get_op (λ r, TLVReader_Get_i32 r v)))
| op_i64 v : reader_op (rvoid (get_op (λ r, TLVReader_Get_i64 r v)))
| op_u8 v : reader_op (rvoid (get_op (λ r, TLVReader_Get_u8 r v)))
| op_u16 v : reader_op (rvoid (get_op (λ r, TLVReader_Get_u16 r v)))
| op_u32 v : reader_op (rvoid (get_op (λ r, TLVReader_Get_u32 r v)))
| op_u64 v : reader_op (rvoid (get_op (λ r, TLVReader_Get_u64 r v)))
| op_float v : reader_op (rvoid (get_op (λ r, TLVReader_Get_float r v)))
| op_double v : reader_op (rvoid (get_op (λ r, TLVReader_Get_double r v)))
| op_GetDataPtr : reader_op (rvoid TLVReader_GetDataPtr)
| op_ByteSpan : reader_op (rvoid TLVReader_Get_ByteSpan)
| op_CharSpan v : reader_op (rvoid (TLVReader_Get_CharSpan v))
| op_GetBytes n : reader_op (rvoid (TLVReader_GetBytes n))
| op_GetString n : reader_op (rvoid (TLVReader_GetString n))
| op_DupBytes alloc : reader_op (rvoid (TLVReader_DupBytes alloc))
| op_DupString alloc : reader_op (rvoid (TLVReader_DupString alloc))
| op_Find tag : reader_op (TLVReader_FindElementWithTag tag)
| op_Count : reader_op (rvoid TLVReader_CountRemainingInContainer).

Lemma total_get_op {A} (g : TLVReader → chip_error * A) : total data (get_op g).
Proof. intros r Hr. unfold get_op. destruct (g r) as [e v]. destruct e; (split; [done|lia]). Qed.

Lemma total_open : total data open_op.
Proof. intros r Hr. unfold open_op, TLVReader_OpenContainer. destruct (negb _); (split; [done|cbn; lia]). Qed.

Create HintDb total.
#[local] Hint Resolve total_ret total_Next total_Expect_tag total_Expect total_Skip total_Enter total_Exit total_open total_VerifyEnd
  total_get_op total_GetDataPtr total_ByteSpan total_CharSpan total_GetBytes total_GetString total_DupBytes total_DupString
  total_Find total_Count total_bind : total.

Lemma reader_op_total op : reader_op op → total data op.
Proof. destruct 1; unfold rvoid, TLVReader_Next_tag, TLVReader_Next_type; auto with total. Qed.

(** [CloseContainer] takes the position of the container reader. *)
Lemma CloseContainer_total c r : reads_from data c → reads_from data r →
  match TLVReader_CloseContainer c r with
  | ROk _ r' => reads_from data r' ∧ rLenRead c <= rLenRead r'
  | RErr _ r' => r' = r
  | RUndefined | RFuel => False
  end.
Proof.
  intros Hc Hr. unfold TLVReader_CloseContainer. destruct (negb _); [done|]. destruct (negb _); [done|].
  pose proof (total_SkipToEnd data c Hc) as Hs. destruct (TLVReader_SkipToEndOfContainer c); cbn in Hs; try done.
  destruct Hs as [Hs Hl]. split; [apply Hs|cbn; lia].
Qed.

(** The readers a client can have over [data], container readers included; calls may fail. *)
Inductive reader_reach : TLVReader → Prop :=
| reach_init : reader_reach (TLVReader_Init data)
| reach_ok op r r' : reader_reach r → reader_op op → op r = ROk tt r' → reader_reach r'
| reach_err op r e r' : reader_reach r → reader_op op → op r = RErr e r' → reader_reach r'
| reach_open r e c r' : reader_reach r → TLVReader_OpenContainer r = (e, Some c, r') → reader_reach c
| reach_opened r e c r' : reader_reach r → TLVReader_OpenContainer r = (e, c, r') → reader_reach r'
| reach_close c r r' : reader_reach c → reader_reach r → TLVReader_CloseContainer c r = ROk tt r' → reader_reach r'
| reach_profile p r : reader_reach r → reader_reach (rset_profile p r).

Lemma reach_reads_from r : Z.of_nat (length data) <= UINT32_MAX → reader_reach r → reads_from data r.
Proof.
  intros Hlen. induction 1 as [|op r r' _ Hr Hop E|op r e r' _ Hr Hop E|r e c r' _ Hr E|r e c r' _ Hr E
    |c r r' _ Hc _ Hr E|p r _ Hr].
  - unfold TLVReader_Init, reads_from. rewrite (proj2 (Z.ltb_ge _ _)) by done.
    rewrite u32_id by (unfold UINT32_MAX in *; solve_width). cbn. rewrite Nat2Z.id, take_ge by done.
    unfold UINT32_MAX in *. split_and!; try done; solve_width.
  - pose proof (reader_op_total op Hop r Hr) as Ht. rewrite E in Ht. apply Ht.
  - pose proof (reader_op_total op Hop r Hr) as Ht. rewrite E in Ht. apply Ht.
  - unfold TLVReader_OpenContainer in E. case_match; by simplify_eq.
  - unfold TLVReader_OpenContainer in E. case_match; by simplify_eq.
  - pose proof (CloseContainer_total c r Hc Hr) as Ht. rewrite E in Ht. apply Ht.
  - done.
Qed.

(** C3: Over one buffer of arbitrary bytes every call on a reader, container readers included,
    returns, with a result or an error: none of its loops runs on, and the read point never
    leaves the buffer. No call moves it back but [CloseContainer], which puts it behind the
    container as the container reader sees it: it goes on at or behind that reader, so not back
    if that one is not behind. *)
Theorem reader_returns r :
  Z.of_nat (length data) <= UINT32_MAX → reader_reach r →
  (∀ op, reader_op op →
     ∃ r', (op r = ROk tt r' ∨ ∃ e, op r = RErr e r') ∧ rLenRead r <= rLenRead r' <= Z.of_nat (length data) ∧
       rReadPoint r' = PBytes (drop (Z.to_nat (rLenRead r')) data)) ∧
  (∀ c, reader_reach c →
     ∃ r', (TLVReader_CloseContainer c r = ROk tt r' ∧ rLenRead c <= rLenRead r' ∨ ∃ e, TLVReader_CloseContainer c r = RErr e r' ∧ r' = r) ∧
       0 <= rLenRead r' <= Z.of_nat (length data) ∧ rReadPoint r' = PBytes (drop (Z.to_nat (rLenRead r')) data)).
Proof.
  intros Hlen Hreach. pose proof (reach_reads_from r Hlen Hreach) as Hr. split.
  - intros op Hop. pose proof (reader_op_total op Hop r Hr) as Ht.
    destruct (op r) as [[] r'|e r'| |]; cbn in Ht; try done; exists r'; destruct Ht as [(_&Hm&_&Hb&Hrp) Hl];
      (split; [eauto|split; [lia|done]]).
  - intros c Hc. pose proof (CloseContainer_total c r (reach_reads_from c Hlen Hc) Hr) as Ht.
    destruct (TLVReader_CloseContainer c r) as [[] r'|e r'| |]; try done; exists r'.
    + destruct Ht as [(_&Hm&_&Hb&Hrp) Hl]. split; [by left|split; [lia|done]].
    + subst r'. destruct Hr as (_&Hm&_&Hb&Hrp). split; [eauto|split; [lia|done]].
Qed.

End Calls.

(** A structure whose end marker is missing. *)
Lemma reader_returns_witness :
  ∃ r', (TLVReader_Next (TLVReader_Init [0x15; 0x30; 1; 2; 65; 66]) = ROk tt r' ∨
         ∃ e, TLVReader_Next (TLVReader_Init [0x15; 0x30; 1; 2; 65; 66]) = RErr e r') ∧
    0 <= rLenRead r' <= 6 ∧
    rReadPoint r' = PBytes (drop (Z.to_nat (rLenRead r')) [0x15; 0x30; 1; 2; 65; 66]).
Proof.
  apply (@reader_returns default_config [0x15; 0x30; 1; 2; 65; 66] (TLVReader_Init [0x15; 0x30; 1; 2; 65; 66])).
  - vm_compute. congruence.
  - constructor.
  - constructor.
Defined.
