(* ===== verification/TlvChain.v ===== *)
(** * TLV: chains of buffers

    A reader over a chain of packet buffers behaves like a reader over one buffer with the
    same bytes, wherever the boundaries are, for clients that copy bytes out of it. *)

From S2P Require Import Prelude.
From S2P Require Import ChipError.
From S2P Require Import Endian.
From S2P Require Import TlvTypes.
From S2P Require Import TlvReader.
From S2P Require Import TlvTotal.

#[local] Open Scope reader_scope.

(** ** What a client can see *)

(** Everything but the buffers. *)
Record rview := mkView {
  vImplicitProfileId : Z; vElemTag : Z; vElemLenOrVal : Z; vLenRead : Z; vMaxLen : Z;
  vContainerType : Z; vControlByte : Z; vContainerOpen : bool
}.

Definition view (r : TLVReader) : rview :=
  mkView (rImplicitProfileId r) (rElemTag r) (rElemLenOrVal r) (rLenRead r) (rMaxLen r) (rContainerType r)
    (rControlByte r) (rContainerOpen r).

(** The view after [n] bytes. *)
Definition vadvance (n : Z) (v : rview) : rview :=
  mkView (vImplicitProfileId v) (vElemTag v) (vElemLenOrVal v) (vLenRead v + n) (vMaxLen v) (vContainerType v)
    (vControlByte v) (vContainerOpen v).

(** ** Readers with all their bytes in front of them *)

(** What is left of the input ends at [mMaxLen], and no buffer to come is empty. *)
Definition linear (r : TLVReader) : Prop :=
  in_u32 (rMaxLen r) ∧ 0 <= rLenRead r ∧ rLenRead r + Z.of_nat (length (input r)) = rMaxLen r ∧
  (∃ p, rReadPoint r = PBytes p) ∧ Forall (λ b, b ≠ []) (from_option id [] (rBackingStore r)).

Definition same (a b : TLVReader) : Prop := view a = view b ∧ input a = input b ∧ linear a ∧ linear b.

Definition same_res {A} (x y : rres A) : Prop :=
  match x, y with
  | ROk u a, ROk v b => u = v ∧ same a b
  | RErr e a, RErr e' b => e = e' ∧ same a b
  | _, _ => False
  end.

Definition respects {A} (op : rop A) : Prop := ∀ a b, same a b → same_res (op a) (op b).

Lemma respects_bind {A B} (o : rop A) (k : A → rop B) : respects o → (∀ x, respects (k x)) → respects (rbind o k).
Proof.
  intros Ho Hk a b Hab. unfold rbind. specialize (Ho a b Hab).
  destruct (o a) as [x a'|e a'| |], (o b) as [y b'|e' b'| |]; cbn in Ho; try done.
  destruct Ho as [-> Hab']. by apply Hk.
Qed.

Lemma respects_ret {A} (x : A) : respects (rret x).
Proof. done. Qed.

Lemma respects_fail {A} e : respects (rfail e : rop A).
Proof. done. Qed.

(** A change of fields other than the input and its counters. *)
Definition keeps_input (f : TLVReader → TLVReader) : Prop :=
  ∀ r, rBackingStore (f r) = rBackingStore r ∧ rReadPoint (f r) = rReadPoint r ∧ rLenRead (f r) = rLenRead r ∧
       rMaxLen (f r) = rMaxLen r.

Lemma same_update f a b :
  keeps_input f → (view a = view b → view (f a) = view (f b)) → same a b → same (f a) (f b).
Proof.
  intros Hf Hv (Hvw&Hi&Ha&Hb). destruct (Hf a) as (E1&E2&E3&E4), (Hf b) as (F1&F2&F3&F4).
  unfold same, linear, input in *. rewrite E1, E2, E3, E4, F1, F2, F3, F4. auto.
Qed.

Lemma respects_mod f : keeps_input f → (∀ a b, view a = view b → view (f a) = view (f b)) → respects (rmod f).
Proof. intros Hf Hv a b Hab. split; [done|]. apply same_update; auto. Qed.

(** ** Consuming bytes *)

(** [r'] is [r] after the first [n] bytes of its input. *)
Definition moved (n : nat) (r r' : TLVReader) : Prop :=
  linear r' ∧ input r' = drop n (input r) ∧ view r' = vadvance (Z.of_nat n) (view r).

Lemma moved_refl r : linear r → moved 0 r r.
Proof. intros Hr. split_and!; [done|done|]. unfold view, vadvance. cbn. by rewrite Z.add_0_r. Qed.

Lemma moved_trans n m r1 r2 r3 : moved n r1 r2 → moved m r2 r3 → moved (n + m) r1 r3.
Proof.
  intros (_&Hi&Hv) (Hl&Hi'&Hv'). split_and!; [done|by rewrite Hi', Hi, drop_drop|].
  rewrite Hv', Hv. unfold vadvance. cbn. f_equal. lia.
Qed.

Lemma moved_same n a b a' b' : same a b → moved n a a' → moved n b b' → same a' b'.
Proof. intros (Hv&Hi&_) (?&Hia&Hva) (?&Hib&Hvb). unfold same. rewrite Hia, Hib, Hva, Hvb, Hv, Hi. done. Qed.

(** [EnsureData] finds the next byte whatever buffer it is in. *)
Lemma EnsureData_linear e r :
  linear r →
  (input r = [] ∧ TLVReader_EnsureData e r = RErr e r) ∨
  (∃ r' x p, moved 0 r r' ∧ rReadPoint r' = PBytes (x :: p) ∧ TLVReader_EnsureData e r = ROk tt r' ∧
     (chain_length r' <= chain_length r)%nat ∧
     (rReadPoint r = PBytes [] → (chain_length r' < chain_length r)%nat)).
Proof.
  intros Hlin. pose proof Hlin as (Hu&Hl&Hlen&[p Hp]&Hne). unfold TLVReader_EnsureData. rewrite Hp.
  destruct p as [|x p].
  2: { right. exists r, x, p. rewrite bool_decide_false by done. split_and!; try done. by apply moved_refl. }
  rewrite bool_decide_true by done. unfold input in Hlen. rewrite Hp in Hlen. cbn in Hlen.
  destruct (rBackingStore r) as [[|b chain]|] eqn:Hbs; cbn in Hne, Hlen.
  - left. split; [unfold input; by rewrite Hp, Hbs|]. by rewrite (proj2 (Z.eqb_eq _ _)) by lia.
  - right. apply Forall_cons in Hne as [Hb Hne]. destruct b as [|x b]; [done|].
    rewrite length_app in Hlen. cbn [length] in Hlen. rewrite (proj2 (Z.eqb_neq _ _)) by lia. cbn [GetNextBuffer].
    rewrite u32_id by solve_width. rewrite (proj2 (Z.ltb_ge _ _)) by (cbn [length]; lia).
    rewrite Nat2Z.id, take_ge by done.
    exists (rset_input (Some chain) (PBytes (x :: b)) (rLenRead r) r), x, b. split; [|split; [done|split; [done|unfold chain_length; rewrite Hbs; cbn; split; intros; lia]]].
    assert (input (rset_input (Some chain) (PBytes (x :: b)) (rLenRead r) r) = input r) as Hi
      by (unfold input; cbn; by rewrite Hp, Hbs).
    split_and!; [|by rewrite Hi|unfold view, vadvance; cbn; by rewrite Z.add_0_r].
    unfold linear. rewrite Hi. cbn. split_and!; eauto. unfold input. rewrite Hp, Hbs. cbn. rewrite length_app. cbn. lia.
  - left. split; [unfold input; by rewrite Hp, Hbs|]. by rewrite (proj2 (Z.eqb_eq _ _)) by lia.
Qed.

Lemma advance_moved n p r :
  linear r → rReadPoint r = PBytes p → (n <= length p)%nat → moved n r (advance n p r).
Proof.
  intros (Hu&Hl&Hlen&_&Hne) Hp Hn. unfold input in Hlen. rewrite Hp in Hlen. cbn in Hlen. rewrite length_app in Hlen.
  assert (input (advance n p r) = drop n (input r)) as Hi.
  { unfold input. rewrite Hp. cbn. by rewrite drop_app_le. }
  split_and!; [|done|unfold view, vadvance, advance; cbn; by rewrite u32_id by solve_width].
  unfold linear. rewrite Hi. unfold input. rewrite Hp. cbn. rewrite length_drop, length_app, u32_id by solve_width.
  split_and!; eauto; lia.
Qed.

(** ** Reading data across buffers *)

(** [ReadData] takes the next bytes of the input or, when there are too few, all of them. *)
Definition read_result (len : Z) (acc : list Z) (r : TLVReader) (res : rres (list Z)) : Prop :=
  if len <=? Z.of_nat (length (input r))
  then ∃ r', res = ROk (acc ++ take (Z.to_nat len) (input r)) r' ∧ moved (Z.to_nat len) r r'
  else ∃ r', res = RErr CHIP_ERROR_TLV_UNDERRUN r' ∧ moved (length (input r)) r r'.

Definition rounds (r : TLVReader) : nat :=
  (chain_length r + (if bool_decide (rReadPoint r = PBytes []) then 0 else 1))%nat.

Lemma read_result_step n len acc r r' res :
  (n <= length (input r))%nat → Z.of_nat n <= len → moved n r r' →
  read_result (len - Z.of_nat n) (acc ++ take n (input r)) r' res → read_result len acc r res.
Proof.
  intros Hn Hle Hm. pose proof Hm as (_&Hi&_). unfold read_result. rewrite Hi, length_drop.
  destruct (Z.leb_spec (len - Z.of_nat n) (Z.of_nat (length (input r) - n)));
    destruct (Z.leb_spec len (Z.of_nat (length (input r)))); try lia; intros (r2&->&Hm2).
  - exists r2. split; [|replace (Z.to_nat len) with (n + Z.to_nat (len - Z.of_nat n))%nat by lia;
      by eapply moved_trans].
    f_equal. rewrite <- app_assoc. f_equal. replace (Z.to_nat len) with (n + Z.to_nat (len - Z.of_nat n))%nat by lia.
    by rewrite take_take_drop.
  - exists r2. split; [done|]. replace (length (input r)) with (n + (length (input r) - n))%nat by lia.
    by eapply moved_trans.
Qed.

Lemma read_loop_linear fuel len acc r :
  linear r → 0 <= len → (rounds r < fuel)%nat → read_result len acc r (read_loop fuel len acc r).
Proof.
  revert len acc r. induction fuel as [|fuel IH]; intros len acc r Hr Hlen Hf; [lia|]. cbn [read_loop].
  destruct (Z.ltb_spec 0 len) as [Hpos|Hz].
  2: { assert (len = 0) as -> by lia. unfold read_result. rewrite (proj2 (Z.leb_le _ _)) by lia. exists r.
    split; [cbn; by rewrite app_nil_r|by apply moved_refl]. }
  unfold rbind.
  destruct (EnsureData_linear CHIP_ERROR_TLV_UNDERRUN r Hr) as [[Hi ->]|(r1&x&p&Hm&Hp&->&Hc&Hc')].
  { unfold read_result. rewrite Hi. cbn [length]. rewrite (proj2 (Z.leb_gt _ _)) by lia.
    exists r. split; [done|by apply moved_refl]. }
  rewrite Hp. cbv iota. pose proof Hm as (Hr1&Hi1&_). rewrite drop_0 in Hi1.
  assert (input r1 = (x :: p) ++ concat (from_option id [] (rBackingStore r1))) as Hin
    by (unfold input; by rewrite Hp).
  set (n := Z.to_nat (if Z.of_nat (length (x :: p)) <? len then Z.of_nat (length (x :: p)) else len)).
  assert (Hn : Z.of_nat n = (if Z.of_nat (length (x :: p)) <? len then Z.of_nat (length (x :: p)) else len))
    by (unfold n; case_match; lia).
  assert (n <= length (x :: p))%nat as Hnp by (case_match; zbool; lia).
  assert (Z.of_nat n <= len) as Hnl by (case_match; zbool; lia).
  rewrite <- Hn. pose proof (advance_moved n (x :: p) r1 Hr1 Hp Hnp) as Hm1.
  pose proof (moved_trans 0 n _ _ _ Hm Hm1) as Hm2. cbn [Nat.add] in Hm2.
  apply (read_result_step n _ _ _ (advance n (x :: p) r1)); [|done|done|].
  { rewrite <- Hi1, Hin, length_app. lia. }
  replace (take n (x :: p)) with (take n (input r)) by (by rewrite <- Hi1, Hin, take_app_le).
  destruct (decide (len = Z.of_nat n)) as [Heq|Hne].
  - rewrite Heq, Z.sub_diag. unfold read_result. rewrite (proj2 (Z.leb_le _ _)) by lia.
    exists (advance n (x :: p) r1). split; [cbn; rewrite app_nil_r; by destruct fuel|apply moved_refl, Hm1].
  - apply IH; [apply Hm1|lia|]. assert (n = length (x :: p)) as Hall by (case_match; zbool; lia).
    unfold rounds in *. change (chain_length (advance n (x :: p) r1)) with (chain_length r1).
    rewrite (bool_decide_true (rReadPoint (advance n (x :: p) r1) = PBytes []))
      by (cbn; by rewrite Hall, drop_all).
    case_bool_decide as Hb; [specialize (Hc' Hb)|]; lia.
Qed.

Lemma ReadData_linear len r : linear r → 0 <= len → read_result len [] r (TLVReader_ReadData len r).
Proof. intros Hr Hl. apply read_loop_linear; [done|done|]. unfold rounds. case_bool_decide; lia. Qed.

Lemma respects_ReadData len : 0 <= len → respects (TLVReader_ReadData len).
Proof.
  intros Hl a b Hab. pose proof Hab as (_&Hi&Ha&Hb).
  pose proof (ReadData_linear len a Ha Hl) as H1. pose proof (ReadData_linear len b Hb Hl) as H2.
  unfold read_result in H1, H2. rewrite <- Hi in H2. destruct (_ <=? _);
    destruct H1 as (a'&->&Hma), H2 as (b'&->&Hmb); (split; [done|by eapply moved_same]).
Qed.

(** ** The other operations *)

Lemma same_fields a b :
  same a b →
  rImplicitProfileId a = rImplicitProfileId b ∧ rElemTag a = rElemTag b ∧ rElemLenOrVal a = rElemLenOrVal b ∧
  rLenRead a = rLenRead b ∧ rMaxLen a = rMaxLen b ∧ rContainerType a = rContainerType b ∧
  rControlByte a = rControlByte b ∧ rContainerOpen a = rContainerOpen b.
Proof. intros (Hv&_). by injection Hv. Qed.

Lemma same_ElementType a b : same a b → ElementType a = ElementType b.
Proof. intros Hab. apply same_fields in Hab as (_&_&_&_&_&_&E&_). unfold ElementType. by rewrite E. Qed.

(** Rewrite what [a] shows into what [b] shows. *)
Ltac same_rewrite Hab :=
  let E1 := fresh in let E2 := fresh in let E3 := fresh in let E4 := fresh in let E5 := fresh in
  let E6 := fresh in let E7 := fresh in let E8 := fresh in
  pose proof (same_fields _ _ Hab) as (E1&E2&E3&E4&E5&E6&E7&E8);
  rewrite ?(same_ElementType _ _ Hab), ?E1, ?E2, ?E3, ?E4, ?E5, ?E6, ?E7, ?E8;
  clear E1 E2 E3 E4 E5 E6 E7 E8.

Lemma EnsureData_same e a b :
  same a b →
  (TLVReader_EnsureData e a = RErr e a ∧ TLVReader_EnsureData e b = RErr e b) ∨
  (∃ a' b' x p q, TLVReader_EnsureData e a = ROk tt a' ∧ TLVReader_EnsureData e b = ROk tt b' ∧ same a' b' ∧
     rReadPoint a' = PBytes (x :: p) ∧ rReadPoint b' = PBytes (x :: q)).
Proof.
  intros Hab. pose proof Hab as (_&Hi&Ha&Hb).
  destruct (EnsureData_linear e a Ha) as [[Hia Ea]|(a'&x&p&Hma&Hpa&Ea&_)];
    destruct (EnsureData_linear e b Hb) as [[Hib Eb]|(b'&y&q&Hmb&Hpb&Eb&_)].
  - auto.
  - destruct Hmb as (_&Hmb&_). rewrite <- Hi, Hia in Hmb. unfold input in Hmb. by rewrite Hpb in Hmb.
  - destruct Hma as (_&Hma&_). rewrite Hi, Hib in Hma. unfold input in Hma. by rewrite Hpa in Hma.
  - right. exists a', b', x, p, q. pose proof (moved_same _ _ _ _ _ Hab Hma Hmb) as Hab'.
    split_and!; try done. destruct Hab' as (_&Hi'&_). unfold input in Hi'. rewrite Hpa, Hpb in Hi'. cbn in Hi'.
    by injection Hi' as -> _.
Qed.

Lemma respects_EnsureData e : respects (TLVReader_EnsureData e).
Proof.
  intros a b Hab. destruct (EnsureData_same e a b Hab) as [[-> ->]|(a'&b'&x&p&q&->&->&?&_)]; done.
Qed.

Lemma fetch_head_linear n r p :
  linear r → 0 <= n → rReadPoint r = PBytes p → read_result n [] r (fetch_head n r).
Proof.
  intros Hr Hn Hp. unfold fetch_head. rewrite Hp. cbv iota. destruct (Z.ltb_spec (Z.of_nat (length p)) n).
  { by apply ReadData_linear. }
  unfold read_result, input. rewrite Hp. cbn [point_bytes]. rewrite (proj2 (Z.leb_le _ _)) by (rewrite length_app; lia).
  rewrite take_app_le by lia. eexists. split; [done|]. apply advance_moved; [done|done|lia].
Qed.

Lemma respects_fetch_head n : 0 <= n → respects (fetch_head n).
Proof.
  intros Hn a b Hab. pose proof Hab as (_&Hi&Ha&Hb). pose proof Ha as (_&_&_&[p Hp]&_). pose proof Hb as (_&_&_&[q Hq]&_).
  pose proof (fetch_head_linear n a p Ha Hn Hp) as H1. pose proof (fetch_head_linear n b q Hb Hn Hq) as H2.
  unfold read_result in H1, H2. rewrite <- Hi in H2. destruct (_ <=? _);
    destruct H1 as (a'&->&Hma), H2 as (b'&->&Hmb); (split; [done|by eapply moved_same]).
Qed.

Lemma respects_Verify : respects TLVReader_VerifyElement.
Proof.
  intros a b Hab. unfold TLVReader_VerifyElement, TLVReader_GetRemainingLength. same_rewrite Hab.
  destruct (verify_tag _ _ _); [done|]. by destruct (_ && _).
Qed.

Lemma same_rset_elem tag val ctl a b : same a b → same (rset_elem tag val ctl a) (rset_elem tag val ctl b).
Proof. apply same_update; [done|]. unfold view. cbn. intros [=]. congruence. Qed.

Lemma same_rset_ct ct a b : same a b → same (rset_containerType ct a) (rset_containerType ct b).
Proof. apply same_update; [done|]. unfold view. cbn. intros [=]. congruence. Qed.

Lemma same_rset_open o a b : same a b → same (rset_containerOpen o a) (rset_containerOpen o b).
Proof. apply same_update; [done|]. unfold view. cbn. intros [=]. congruence. Qed.

Lemma parse_head_eq head r :
  parse_head head r =
    let tp := ReadTag (rImplicitProfileId r) (Z.land (rControlByte r) kTLVTagControlMask) (drop 1 head) in
    let et := ElementType r in
    let val := read_value (GetTLVFieldSize et) tp.2 in
    let r' := rset_elem tp.1 val (rControlByte r) r in
    if (GetTLVFieldSize et =? kTLVFieldSize_8Byte) && negb (negb (TLVTypeHasLength et) || (val <=? UINT32_MAX))
    then RErr CHIP_ERROR_NOT_IMPLEMENTED r' else TLVReader_VerifyElement r'.
Proof. unfold parse_head. by destruct (ReadTag _ _ _). Qed.

Lemma respects_parse_head head : respects (parse_head head).
Proof.
  intros a b Hab. rewrite !parse_head_eq. same_rewrite Hab. cbn zeta.
  match goal with |- same_res (if ?c then _ else _) _ => destruct c end.
  - split; [done|]. by apply same_rset_elem.
  - by apply respects_Verify, same_rset_elem.
Qed.

Lemma respects_ReadElement : respects TLVReader_ReadElement.
Proof.
  intros a b Hab. unfold TLVReader_ReadElement, rbind at 1 3.
  destruct (EnsureData_same CHIP_END_OF_TLV a b Hab) as [[-> ->]|(a'&b'&x&p&q&->&->&Hab'&->&->)]; [done|].
  assert (same (rset_controlByte x a') (rset_controlByte x b')) as Hc.
  { unfold rset_controlByte. same_rewrite Hab'. by apply same_rset_elem. }
  same_rewrite Hc. destruct (negb _); [done|].
  apply respects_bind; [|intros; apply respects_parse_head|done].
  apply respects_fetch_head. pose proof (head_bytes_pos (rControlByte (rset_controlByte x b')) (ElementType (rset_controlByte x b'))).
  lia.
Qed.

Lemma respects_SkipData : respects TLVReader_SkipData.
Proof.
  intros a b Hab. unfold TLVReader_SkipData. same_rewrite Hab. destruct (TLVTypeHasLength _); [|done].
  apply respects_bind; [|done|done]. apply respects_ReadData. apply u32_range.
Qed.

(** [ReadElement] takes a byte at least, and [SkipData] gives none back. *)
Lemma parse_head_input head r r' : parse_head head r = ROk tt r' → input r' = input r.
Proof.
  rewrite parse_head_eq. cbn zeta. destruct (_ && _); [done|]. unfold TLVReader_VerifyElement.
  destruct (verify_tag _ _ _); [done|]. destruct (_ && _); [done|]. by intros [= <-].
Qed.

Lemma read_result_ok n acc r res bs r' :
  read_result n acc r res → res = ROk bs r' → moved (Z.to_nat n) r r' ∧ n <= Z.of_nat (length (input r)).
Proof.
  unfold read_result. destruct (Z.leb_spec n (Z.of_nat (length (input r)))); intros (r1&->&Hm); [|done].
  by intros [= _ <-].
Qed.

Lemma ReadElement_shrinks r r' :
  linear r → TLVReader_ReadElement r = ROk tt r' → (length (input r') < length (input r))%nat.
Proof.
  intros Hr. unfold TLVReader_ReadElement, rbind at 1.
  destruct (EnsureData_linear CHIP_END_OF_TLV r Hr) as [[_ ->]|(r1&x&p&Hm&Hp&->&_)]; [done|]. rewrite Hp. cbv iota.
  set (r2 := rset_controlByte x r1). destruct (negb _); [done|]. unfold rbind.
  pose proof (head_bytes_pos (rControlByte r2) (ElementType r2)) as Hpos.
  pose proof (fetch_head_linear (head_bytes (rControlByte r2) (ElementType r2)) r2 (x :: p) (proj1 Hm) ltac:(lia) Hp) as Hf.
  destruct (fetch_head _ r2) as [head r3| | |] eqn:Hfe; try done. intros Hparse.
  destruct (read_result_ok _ _ _ _ _ _ Hf eq_refl) as [(_&Hi3&_) Hle].
  rewrite (parse_head_input _ _ _ Hparse), Hi3, length_drop.
  destruct Hm as (_&Hi1&_). rewrite drop_0 in Hi1. change (input r2) with (input r1) in *. rewrite Hi1 in *. lia.
Qed.

Lemma SkipData_shrinks r r' :
  linear r → TLVReader_SkipData r = ROk tt r' → (length (input r') <= length (input r))%nat.
Proof.
  intros Hr. unfold TLVReader_SkipData. destruct (TLVTypeHasLength _); [|by intros [= <-]].
  unfold rbind. pose proof (ReadData_linear (u32 (rElemLenOrVal r)) r Hr (proj1 (u32_range _))) as Hd.
  destruct (TLVReader_ReadData _ r) as [d r1| | |]; try done. intros [= <-].
  destruct (read_result_ok _ _ _ _ _ _ Hd eq_refl) as [(_&Hi&_) _]. rewrite Hi, length_drop. lia.
Qed.

Lemma skip_loop_same fuel outer k a b :
  same a b → (length (input a) < fuel)%nat → same_res (skip_loop fuel outer k a) (skip_loop fuel outer k b).
Proof.
  revert k a b. induction fuel as [|fuel IH]; intros k a b Hab Hf; [lia|].
  assert (Hnext : ∀ k' a' b', same a' b' → input a' = input a →
    same_res ((TLVReader_SkipData ;; TLVReader_ReadElement ;; skip_loop fuel outer k') a')
             ((TLVReader_SkipData ;; TLVReader_ReadElement ;; skip_loop fuel outer k') b')).
  { intros k' a1 b1 Hab1 Hi1. unfold rbind. pose proof (respects_SkipData a1 b1 Hab1) as H2.
    pose proof (SkipData_shrinks a1) as Hs2.
    destruct (TLVReader_SkipData a1) as [[] a2|? a2| |], (TLVReader_SkipData b1) as [[] b2|? b2| |]; cbn in H2; try done.
    destruct H2 as [_ Hab2]. specialize (Hs2 a2 ltac:(apply Hab1) eq_refl).
    pose proof (respects_ReadElement a2 b2 Hab2) as H3. pose proof (ReadElement_shrinks a2) as Hs3.
    destruct (TLVReader_ReadElement a2) as [[] a3|? a3| |], (TLVReader_ReadElement b2) as [[] b3|? b3| |]; cbn in H3; try done.
    destruct H3 as [_ Hab3]. specialize (Hs3 a3 ltac:(apply Hab2) eq_refl). apply IH; [done|]. rewrite Hi1 in *. lia. }
  cbn [skip_loop]. cbn zeta. rewrite (same_ElementType _ _ Hab). destruct (_ =? _).
  - destruct (_ =? _); [done|]. apply Hnext; [by apply same_rset_ct|done].
  - destruct (TLVTypeIsContainer _); apply Hnext; try done. by apply same_rset_ct.
Qed.

Lemma respects_SkipToEnd : respects TLVReader_SkipToEndOfContainer.
Proof.
  intros a b Hab. unfold TLVReader_SkipToEndOfContainer. pose proof Hab as (_&Hi&_). rewrite <- Hi.
  same_rewrite Hab. apply skip_loop_same; [by apply same_rset_open|]. change (input (rset_containerOpen false a)) with (input a). lia.
Qed.

Lemma respects_Enter : respects TLVReader_EnterContainer.
Proof.
  intros a b Hab. unfold TLVReader_EnterContainer. same_rewrite Hab. destruct (negb _); [done|].
  split; [done|]. by apply same_rset_open, same_rset_elem, same_rset_ct.
Qed.

Lemma respects_Exit outer : respects (TLVReader_ExitContainer outer).
Proof.
  apply respects_bind; [apply respects_SkipToEnd|]. intros _ a b Hab.
  split; [done|]. by apply same_rset_elem, same_rset_ct.
Qed.

Lemma respects_Skip : respects TLVReader_Skip.
Proof.
  intros a b Hab. unfold TLVReader_Skip. same_rewrite Hab. destruct (_ =? _); [done|].
  destruct (TLVTypeIsContainer _); revert a b Hab.
  - apply respects_bind; [apply respects_Enter|]. intros outer. apply respects_Exit.
  - apply respects_bind; [apply respects_SkipData|]. intros _ a b Hab. split; [done|]. by apply same_rset_elem.
Qed.

Lemma respects_Next : respects TLVReader_Next.
Proof.
  apply respects_bind; [apply respects_Skip|]. intros _. apply respects_bind; [apply respects_ReadElement|].
  intros _ a b Hab. unfold TLVReader_GetLength. same_rewrite Hab. destruct (_ =? _); [done|].
  destruct (_ && _); [|done]. by apply respects_EnsureData.
Qed.

Lemma respects_VerifyEnd : respects TLVReader_VerifyEndOfContainer.
Proof.
  intros a b Hab. unfold TLVReader_VerifyEndOfContainer. pose proof (respects_Next a b Hab) as Hn.
  destruct (TLVReader_Next a) as [? a'|e a'| |], (TLVReader_Next b) as [? b'|e' b'| |]; cbn in Hn; try done.
  - by destruct Hn.
  - destruct Hn as [<- Hab']. by destruct e.
Qed.

Lemma respects_take_bytes {A} len (f : list Z → A) :
  in_u32 len → respects (d <-- TLVReader_ReadData len ;; rmod (rset_lenOrVal 0) ;; rret (f d)).
Proof.
  intros [Hl _]. apply respects_bind; [by apply respects_ReadData|]. intros d. apply respects_bind; [|intros; apply respects_ret].
  intros a' b' Hab'. split; [done|]. unfold rset_lenOrVal. same_rewrite Hab'. by apply same_rset_elem.
Qed.

Lemma respects_GetBytes n : respects (TLVReader_GetBytes n).
Proof.
  intros a b Hab. unfold TLVReader_GetBytes. same_rewrite Hab. destruct (negb _); [done|]. destruct (_ <? _); [done|].
  apply (respects_take_bytes (u32 (rElemLenOrVal b)) (λ d, d)); [apply u32_range|done].
Qed.

Lemma respects_DupBytes alloc : respects (TLVReader_DupBytes alloc).
Proof.
  intros a b Hab. unfold TLVReader_DupBytes. same_rewrite Hab. destruct (negb _); [done|]. destruct (negb _); [done|].
  apply (respects_take_bytes (u32 (rElemLenOrVal b)) (λ d, d)); [apply u32_range|done].
Qed.

Lemma respects_DupString alloc : respects (TLVReader_DupString alloc).
Proof.
  intros a b Hab. unfold TLVReader_DupString. same_rewrite Hab. destruct (negb _); [done|]. destruct (_ <? _); [done|].
  destruct (negb _); [done|]. apply (respects_take_bytes (u32 (rElemLenOrVal b)) (λ d, d ++ [0])); [apply u32_range|done].
Qed.

Lemma respects_GetString n : respects (TLVReader_GetString n).
Proof.
  intros a b Hab. unfold TLVReader_GetString. same_rewrite Hab. destruct (negb _); [done|]. destruct (_ <? _); [done|].
  apply respects_bind; [apply respects_GetBytes|intros; apply respects_ret|done].
Qed.

(** ** Clients *)

(** Programs over the reader that look at the current element (tag, type, length, number)
    through the view, copy data with [GetBytes] or [GetString], move, and handle errors. *)
Inductive client : ∀ {A : Type}, rop A → Prop :=
| cl_ret {A} (x : A) : client (rret x)
| cl_fail {A} e : client (rfail e : rop A)
| cl_bind {A B} (o : rop A) (k : A → rop B) : client o → (∀ x, client (k x)) → client (rbind o k)
| cl_catch {A} (o : rop A) (h : chip_error → rop A) :
    client o → (∀ e, client (h e)) → client (λ r, match o r with RErr e r' => h e r' | res => res end)
| cl_view {A} (k : rview → rop A) : (∀ v, client (k v)) → client (λ r, k (view r) r)
| cl_Next : client TLVReader_Next
| cl_Skip : client TLVReader_Skip
| cl_Enter : client TLVReader_EnterContainer
| cl_Exit t : client (TLVReader_ExitContainer t)
| cl_VerifyEnd : client TLVReader_VerifyEndOfContainer
| cl_GetBytes n : client (TLVReader_GetBytes n)
| cl_GetString n : client (TLVReader_GetString n)
| cl_DupBytes alloc : client (TLVReader_DupBytes alloc)
| cl_DupString alloc : client (TLVReader_DupString alloc).

Lemma client_respects {A} (op : rop A) : client op → respects op.
Proof.
  induction 1 as [|A e|A B o k _ Ho _ Hk|A o h _ Ho _ Hh|A k _ Hk| | | | | | | | |].
  - apply respects_ret.
  - apply respects_fail.
  - by apply respects_bind.
  - intros a b Hab. specialize (Ho a b Hab).
    destruct (o a) as [x a'|e a'| |], (o b) as [y b'|e' b'| |]; cbn in Ho; try done.
    destruct Ho as [<- Hab']. by apply Hh.
  - intros a b Hab. pose proof Hab as (Hv&_). rewrite Hv. by apply Hk.
  - apply respects_Next.
  - apply respects_Skip.
  - apply respects_Enter.
  - apply respects_Exit.
  - apply respects_VerifyEnd.
  - apply respects_GetBytes.
  - apply respects_GetString.
  - apply respects_DupBytes.
  - apply respects_DupString.
Qed.

Lemma Init_same head chain :
  let data := head ++ concat chain in
  Forall (λ b, b ≠ []) chain → Z.of_nat (length data) <= UINT32_MAX →
  same (TLVReader_Init_chain head chain (Z.of_nat (length data))) (TLVReader_Init data).
Proof.
  intros data Hne Hlen. unfold TLVReader_Init. fold data. rewrite (proj2 (Z.ltb_ge _ _)) by done.
  rewrite u32_id by (unfold UINT32_MAX in *; solve_width). rewrite Nat2Z.id, take_ge by done.
  unfold same, linear, view, input. cbn. rewrite app_nil_r. fold data. unfold UINT32_MAX in *.
  split_and!; try done; try solve_width; try (by eexists).
Qed.


(** A client that takes the bytes of the first element. *)
Definition first_bytes : rop (list Z) := TLVReader_Next ;; TLVReader_GetBytes 16.


(** ** The length limit of a chain

    [Init(backingStore, maxLen)] does not apply [maxLen] to the first buffer: here two bytes
    are allowed and four are read. *)
Lemma first_buffer_over_limit :
  ∃ r, (TLVReader_Next ;; TLVReader_Next) (TLVReader_Init_chain [0x04; 1; 0x04; 2] [] 2) = ROk tt r ∧
    rLenRead r = 4 ∧ rMaxLen r = 2.
Proof. eexists. split; [vm_compute; reflexivity|done]. Qed.
