(* ===== verification/TlvHead.v ===== *)
(** * TLV: element heads

    The head of an element (control byte, tag, length or value) that
    [WriteElementHead] writes is the head that [ReadElement] reads. *)

From S2P Require Import Prelude.
From S2P Require Import ChipError.
From S2P Require Import Endian.
From S2P Require Import TlvTypes.
From S2P Require Import TlvWriter.
From S2P Require Import TlvReader.

(** ** Tags as numbers *)

Lemma lnot_u32 z : in_u32 z → u32 (Z.lnot z) = 2 ^ 32 - 1 - z.
Proof. intros. unfold u32. rewrite <- (Z.mod_add _ 1) by lia. rewrite Z.mod_small; unfold Z.lnot; solve_width. Qed.

Lemma ProfileTag_eq p n :
  in_u32 p → in_u32 n → ProfileTag p n = (2 ^ 32 - 1 - p) * 2 ^ 32 + n.
Proof.
  intros Hp Hn. unfold ProfileTag. rewrite lnot_u32 by assumption.
  rewrite u64_id.
  - by apply lor_shiftl_add.
  - rewrite Z.shiftl_mul_pow2 by lia. solve_width.
Qed.

Lemma TagNumFromTag_range t : in_u32 (TagNumFromTag t).
Proof. apply u32_range. Qed.
Lemma ProfileIdFromTag_range t : in_u32 (ProfileIdFromTag t).
Proof. apply u32_range. Qed.
#[export] Hint Resolve TagNumFromTag_range ProfileIdFromTag_range : width.

Lemma ProfileIdFromTag_eq t : in_u64 t → ProfileIdFromTag t = 2 ^ 32 - 1 - t / 2 ^ 32.
Proof.
  intros Ht. unfold ProfileIdFromTag. rewrite Z.shiftr_div_pow2 by lia.
  assert (in_u32 (t / 2 ^ 32)) by wrap_lia.
  rewrite (u32_id (t / 2 ^ 32)) by done. by apply lnot_u32.
Qed.

Lemma ProfileTag_parts t : in_u64 t → ProfileTag (ProfileIdFromTag t) (TagNumFromTag t) = t.
Proof.
  intros Ht. rewrite ProfileTag_eq by auto with width. rewrite ProfileIdFromTag_eq by done.
  unfold TagNumFromTag. wrap_lia.
Qed.

Lemma ProfileIdFromTag_ProfileTag p n : in_u32 p → in_u32 n → ProfileIdFromTag (ProfileTag p n) = p.
Proof.
  intros Hp Hn. rewrite ProfileIdFromTag_eq; rewrite ProfileTag_eq by done; wrap_lia.
Qed.

Lemma TagNumFromTag_ProfileTag p n : in_u32 p → in_u32 n → TagNumFromTag (ProfileTag p n) = n.
Proof. intros Hp Hn. unfold TagNumFromTag. rewrite ProfileTag_eq by done. wrap_lia. Qed.

Lemma ProfileTag3_parts p n :
  in_u32 p → ProfileTag3 (u16 (Z.shiftr p 16)) (u16 p) n = ProfileTag p n.
Proof.
  intros Hp. unfold ProfileTag3. f_equal. rewrite Z.shiftr_div_pow2 by lia.
  rewrite u32_id.
  - rewrite lor_shiftl_add by (pose proof (u16_range p); solve_width || lia). wrap_lia.
  - rewrite Z.shiftl_mul_pow2 by lia. wrap_lia.
Qed.

(** The tag that is read back: the special numbers above the context tags are all
    written as no tag. *)
Definition norm_tag (t : Z) : Z :=
  if IsSpecialTag t && negb (TagNumFromTag t <=? kContextTagMaxNum) then AnonymousTag else t.

(** ** Control bytes *)

Definition tag_controls : list Z := [0x00; 0x20; 0x40; 0x60; 0x80; 0xA0; 0xC0; 0xE0].

Definition is_element (et : Z) : Prop := 0 <= et <= TLVElementType.EndOfContainer.

Lemma control_byte_parts c et :
  c ∈ tag_controls → is_element et →
  Z.lor c (u8 et) = c + et ∧ Z.land (c + et) kTLVTypeMask = et ∧ Z.land (c + et) kTLVTagControlMask = c
  ∧ 0 <= c + et < 256.
Proof.
  intros Hc Het. unfold is_element, TLVElementType.EndOfContainer in Het.
  assert (et ∈ seqZ 0 25) as Hin by (apply elem_of_seqZ; lia).
  assert (forallb (λ c, forallb (λ et, (Z.lor c (u8 et) =? c + et) && ((Z.land (c + et) kTLVTypeMask =? et)
     && ((Z.land (c + et) kTLVTagControlMask =? c) && ((0 <=? c + et) && (c + et <? 256)))))
     (seqZ 0 25)) tag_controls = true) as HF by (vm_compute; reflexivity).
  rewrite forallb_forall in HF. specialize (HF c (proj1 (list_elem_of_In _ _) Hc)).
  rewrite forallb_forall in HF. specialize (HF et (proj1 (list_elem_of_In _ _) Hin)).
  zbool. done.
Qed.

(** ** Tags on the wire *)

Definition tag_size (c : Z) : nat := Z.to_nat (nth (Z.to_nat (Z.shiftr c kTLVTagControlShift)) sTagSizes 0).

(** A tag field: its control bits, its bytes, and the tag that they are read as. *)
Definition tag_field (prof tag c : Z) (tl : list Z) : Prop :=
  c ∈ tag_controls ∧ length tl = tag_size c ∧ is_bytes tl ∧
  ∀ rest, ReadTag prof c (tl ++ rest) = (norm_tag tag, rest).

Lemma norm_tag_profile t : IsSpecialTag t = false → norm_tag t = t.
Proof. intros H. unfold norm_tag. by rewrite H. Qed.

(** [ReadTag] on what [stage_tag] writes behind the control byte. *)
Section ReadTagWritten.
Context (prof : Z) (rest : list Z).

Lemma ReadTag_context n : ReadTag prof 0x20 (Write8 n ++ rest) = (ContextTag (u8 n), rest).
Proof. unfold ReadTag. cbn -[Read8 Write8 ContextTag]. by rewrite Read8_Write8. Qed.
Lemma ReadTag_common2 n : ReadTag prof 0x40 (Write16 n ++ rest) = (CommonTag (u16 n), rest).
Proof. unfold ReadTag. cbn -[Read16 Write16 CommonTag]. by rewrite Read16_Write16. Qed.
Lemma ReadTag_common4 n : ReadTag prof 0x60 (Write32 n ++ rest) = (CommonTag (u32 n), rest).
Proof. unfold ReadTag. cbn -[Read32 Write32 CommonTag]. by rewrite Read32_Write32. Qed.
Lemma ReadTag_implicit2 n :
  prof ≠ kProfileIdNotSpecified → ReadTag prof 0x80 (Write16 n ++ rest) = (ProfileTag prof (u16 n), rest).
Proof.
  intros Hp%Z.eqb_neq. unfold ReadTag. cbn -[Read16 Write16 ProfileTag Z.eqb]. rewrite Hp.
  by rewrite Read16_Write16.
Qed.
Lemma ReadTag_implicit4 n :
  prof ≠ kProfileIdNotSpecified → ReadTag prof 0xA0 (Write32 n ++ rest) = (ProfileTag prof (u32 n), rest).
Proof.
  intros Hp%Z.eqb_neq. unfold ReadTag. cbn -[Read32 Write32 ProfileTag Z.eqb]. rewrite Hp.
  by rewrite Read32_Write32.
Qed.
Lemma ReadTag_qualified6 v p n :
  ReadTag prof 0xC0 ((Write16 v ++ Write16 p ++ Write16 n) ++ rest) = (ProfileTag3 (u16 v) (u16 p) (u16 n), rest).
Proof. unfold ReadTag. cbn -[Read16 Write16 ProfileTag3]. rewrite <- !app_assoc. by rewrite !Read16_Write16. Qed.
Lemma ReadTag_qualified8 v p n :
  ReadTag prof 0xE0 ((Write16 v ++ Write16 p ++ Write32 n) ++ rest) = (ProfileTag3 (u16 v) (u16 p) (u32 n), rest).
Proof.
  unfold ReadTag. cbn -[Read16 Read32 Write16 Write32 ProfileTag3]. rewrite <- !app_assoc.
  by rewrite !Read16_Write16, Read32_Write32.
Qed.

End ReadTagWritten.

Lemma stage_control c et : c ∈ tag_controls → is_element et → Write8 (Z.lor c (u8 et)) = [c + et].
Proof.
  intros Hc Het. destruct (control_byte_parts c et Hc Het) as (->&_&_&?).
  unfold Write8. cbn. by rewrite u8_id.
Qed.

Ltac tag_controls_unfold :=
  unfold TLVTagControl.Anonymous, TLVTagControl.ContextSpecific, TLVTagControl.CommonProfile_2Bytes,
    TLVTagControl.CommonProfile_4Bytes, TLVTagControl.ImplicitProfile_2Bytes,
    TLVTagControl.ImplicitProfile_4Bytes, TLVTagControl.FullyQualified_6Bytes,
    TLVTagControl.FullyQualified_8Bytes.

(** Choose the control bits and the bytes behind them. *)
Ltac tag_case c :=
  rewrite (stage_control c _) by (done || (unfold tag_controls; set_solver));
  eexists c, _; split; [reflexivity|];
  split_and!; [unfold tag_controls; set_solver|done|
    repeat (apply is_bytes_app; split); apply le_encode_bytes || constructor|intros rest].

Lemma stage_tag_special ct prof et tag hd :
  in_u64 tag → is_element et → IsSpecialTag tag = true → stage_tag ct prof et tag = Some hd →
  ∃ c tl, hd = (c + et) :: tl ∧ tag_field prof tag c tl.
Proof.
  intros Htag Het Hsp. pose proof (TagNumFromTag_range tag) as Hn.
  unfold stage_tag; tag_controls_unfold. rewrite Hsp. apply Z.eqb_eq in Hsp as Hsp'.
  destruct (Z.leb_spec (TagNumFromTag tag) kContextTagMaxNum) as [Hle|Hgt];
    case_match; intros Hh; try done; apply (inj Some) in Hh as <-.
  - tag_case 0x20. rewrite ReadTag_context, !u8_id by (rewrite ?u8_id; unfold kContextTagMaxNum in *; solve_width).
    unfold ContextTag, norm_tag. rewrite <- Hsp', ProfileTag_parts, Hsp by done.
    by rewrite (proj2 (Z.leb_le _ _) Hle).
  - tag_case 0x00. unfold norm_tag. rewrite Hsp. by rewrite (proj2 (Z.leb_gt _ _) Hgt).
Qed.

Lemma stage_tag_profile ct prof et tag hd :
  in_u64 tag → is_element et → IsSpecialTag tag = false → stage_tag ct prof et tag = Some hd →
  ∃ c tl, hd = (c + et) :: tl ∧ tag_field prof tag c tl.
Proof.
  intros Htag Het Hsp. pose proof (TagNumFromTag_range tag) as Hn. pose proof (ProfileIdFromTag_range tag) as Hp.
  pose proof (ProfileTag_parts tag Htag) as Hparts.
  unfold stage_tag; tag_controls_unfold. rewrite Hsp. pose proof (norm_tag_profile _ Hsp) as Hnorm. apply Z.eqb_neq in Hsp.
  destruct (negb _); [done|].
  assert (u16 (u16 (TagNumFromTag tag)) = u16 (TagNumFromTag tag)) as H16 by (apply u16_id, u16_range).
  destruct (Z.eqb_spec (ProfileIdFromTag tag) kCommonProfileId) as [Hc|Hc];
    [|destruct (Z.eqb_spec (ProfileIdFromTag tag) prof) as [Hi|Hi]];
    destruct (Z.ltb_spec (TagNumFromTag tag) 65536) as [Hlt|Hge]; intros Hh; apply (inj Some) in Hh as <-.
  - tag_case 0x40. rewrite ReadTag_common2, H16, u16_id, Hnorm by solve_width.
    unfold CommonTag. by rewrite <- Hc, Hparts.
  - tag_case 0x60. rewrite ReadTag_common4, u32_id, Hnorm by solve_width.
    unfold CommonTag. by rewrite <- Hc, Hparts.
  - tag_case 0x80. rewrite ReadTag_implicit2, H16, u16_id, Hnorm by (solve_width || (rewrite <- Hi; exact Hsp)).
    by rewrite <- Hi, Hparts.
  - tag_case 0xA0. rewrite ReadTag_implicit4, u32_id, Hnorm by (solve_width || (rewrite <- Hi; exact Hsp)).
    by rewrite <- Hi, Hparts.
  - tag_case 0xC0. rewrite ReadTag_qualified6, Hnorm, H16, !(u16_id (u16 _)), (u16_id (TagNumFromTag tag))
      by (apply u16_range || solve_width).
    by rewrite ProfileTag3_parts, Hparts.
  - tag_case 0xE0. rewrite ReadTag_qualified8, Hnorm, !(u16_id (u16 _)), u32_id by (apply u16_range || solve_width).
    by rewrite ProfileTag3_parts, Hparts.
Qed.

Lemma stage_tag_field ct prof et tag hd :
  in_u64 tag → is_element et → stage_tag ct prof et tag = Some hd →
  ∃ c tl, hd = (c + et) :: tl ∧ tag_field prof tag c tl.
Proof.
  intros. destruct (IsSpecialTag tag) eqn:?; [by eapply stage_tag_special|by eapply stage_tag_profile].
Qed.

(** ** Values on the wire *)

Definition value_size (et : Z) : nat := Z.to_nat (TLVFieldSizeToBytes (GetTLVFieldSize et)).

(** What the field of an element of type [et] keeps of a length or value. *)
Definition field_val (et v : Z) : Z := v mod 2 ^ (8 * Z.of_nat (value_size et)).

(** Decide a property of all element types by computation. *)
Lemma element_cases (P : Z → bool) :
  forallb P (seqZ 0 25) = true → ∀ et, is_element et → P et = true.
Proof.
  intros HF et Het. rewrite forallb_forall in HF. apply HF, list_elem_of_In, elem_of_seqZ.
  unfold is_element, TLVElementType.EndOfContainer in Het. lia.
Qed.

Lemma field_size_cases et :
  is_element et →
  (GetTLVFieldSize et = -1 ∧ value_size et = 0%nat) ∨ (GetTLVFieldSize et = 0 ∧ value_size et = 1%nat) ∨
  (GetTLVFieldSize et = 1 ∧ value_size et = 2%nat) ∨ (GetTLVFieldSize et = 2 ∧ value_size et = 4%nat) ∨
  (GetTLVFieldSize et = 3 ∧ value_size et = 8%nat).
Proof.
  intros Het.
  assert ((GetTLVFieldSize et =? -1) || (GetTLVFieldSize et =? 0) || (GetTLVFieldSize et =? 1)
    || (GetTLVFieldSize et =? 2) || (GetTLVFieldSize et =? 3) = true) as H.
  { by apply (element_cases (λ et, (GetTLVFieldSize et =? -1) || (GetTLVFieldSize et =? 0)
      || (GetTLVFieldSize et =? 1) || (GetTLVFieldSize et =? 2) || (GetTLVFieldSize et =? 3))). }
  rewrite !orb_true_iff, !Z.eqb_eq in H. unfold value_size.
  destruct H as [[[[->| ->]| ->]| ->]| ->]; naive_solver.
Qed.

Lemma stage_value_eq et v : is_element et → stage_value et v = le_encode (value_size et) v.
Proof.
  intros Het. unfold stage_value.
  destruct (field_size_cases et Het) as [[-> ->]|[[-> ->]|[[-> ->]|[[-> ->]|[-> ->]]]]]; cbn [Z.eqb]; try done.
  all: apply (le_encode_mod _ v) || apply (le_encode_mod 1) || apply (le_encode_mod 2) || apply (le_encode_mod 4).
Qed.

Lemma read_value_staged et v rest :
  is_element et → read_value (GetTLVFieldSize et) (stage_value et v ++ rest) = field_val et v.
Proof.
  intros Het. rewrite stage_value_eq by done. unfold read_value, field_val.
  destruct (field_size_cases et Het) as [[-> ->]|[[-> ->]|[[-> ->]|[[-> ->]|[-> ->]]]]].
  { by rewrite Z.mod_1_r. }
  - by apply (f_equal fst (read_le_encode 1 v rest)).
  - by apply (f_equal fst (read_le_encode 2 v rest)).
  - by apply (f_equal fst (read_le_encode 4 v rest)).
  - by apply (f_equal fst (read_le_encode 8 v rest)).
Qed.

Lemma stage_value_length et v : is_element et → length (stage_value et v) = value_size et.
Proof. intros. rewrite stage_value_eq by done. apply le_encode_length. Qed.

Lemma stage_value_bytes et v : is_element et → is_bytes (stage_value et v).
Proof. intros. rewrite stage_value_eq by done. apply le_encode_bytes. Qed.

Lemma head_bytes_sizes c et :
  c ∈ tag_controls → is_element et →
  head_bytes (c + et) et = 1 + Z.of_nat (tag_size c) + Z.of_nat (value_size et).
Proof.
  intros Hc Het.
  assert (forallb (λ c, forallb (λ et, head_bytes (c + et) et =? 1 + Z.of_nat (tag_size c) + Z.of_nat (value_size et))
    (seqZ 0 25)) tag_controls = true) as HF by (vm_compute; reflexivity).
  rewrite forallb_forall in HF. specialize (HF c (proj1 (list_elem_of_In _ _) Hc)).
  apply Z.eqb_eq. by apply (element_cases _ HF).
Qed.

(** ** Tags in containers *)

(** The types a reader may have recorded for a container that was written as [ct]. *)
Definition reads_as (ct rct : Z) : Prop := rct = ct ∨ rct = kTLVType_UnknownContainer.

Lemma ProfileTag_neq p n t :
  in_u32 p → in_u32 n → ProfileIdFromTag t ≠ p ∨ TagNumFromTag t ≠ n → t ≠ ProfileTag p n.
Proof.
  intros Hp Hn [H|H] ->; apply H; [by rewrite ProfileIdFromTag_ProfileTag|by rewrite TagNumFromTag_ProfileTag].
Qed.

(** A tag that may be written in a container may be read in it. *)
Lemma stage_tag_verified ct rct prof et tag hd :
  reads_as ct rct → et ≠ TLVElementType.EndOfContainer → stage_tag ct prof et tag = Some hd →
  verify_tag rct et (norm_tag tag) = None.
Proof.
  intros Hct Het%Z.eqb_neq Hst.
  assert (in_u32 kSpecialTagProfileId ∧ in_u32 kAnonymousTagNum ∧ in_u32 kUnknownImplicitTagNum) as (?&?&?)
    by (unfold kSpecialTagProfileId, kAnonymousTagNum, kUnknownImplicitTagNum; solve_width).
  unfold verify_tag. rewrite Het.
  unfold stage_tag in Hst. unfold norm_tag. destruct (IsSpecialTag tag) eqn:Hsp.
  - destruct (Z.leb_spec (TagNumFromTag tag) kContextTagMaxNum) as [Hle|Hgt]; cbn [negb andb].
    + assert (tag ≠ AnonymousTag ∧ tag ≠ UnknownImplicitTag) as [Ha%Z.eqb_neq Hu%Z.eqb_neq].
      { split; apply ProfileTag_neq; try done; right;
          unfold kContextTagMaxNum, kAnonymousTagNum, kUnknownImplicitTagNum in *; lia. }
      rewrite Ha, Hu. destruct (is_type ct _) eqn:Ht; [|done]. cbn in Ht.
      destruct Hct as [->| ->]; [|done].
      rewrite orb_false_r, orb_true_iff, !Z.eqb_eq in Ht. by destruct Ht as [-> | ->].
    + rewrite Het in Hst. destruct (is_type ct _) eqn:Ht; [|done]. cbn in Ht.
      destruct Hct as [->| ->]; [|done].
      rewrite orb_false_r, !orb_true_iff, !Z.eqb_eq in Ht. by destruct Ht as [->|[->| ->]].
  - cbn [andb]. apply Z.eqb_neq in Hsp.
    assert (tag ≠ AnonymousTag ∧ tag ≠ UnknownImplicitTag) as [Ha%Z.eqb_neq Hu%Z.eqb_neq]
      by (split; apply ProfileTag_neq; auto).
    rewrite Ha, Hu. destruct (is_type ct _) eqn:Ht; [|done]. cbn in Ht.
    destruct Hct as [->| ->]; [|done].
    rewrite orb_false_r, !orb_true_iff, !Z.eqb_eq in Ht. destruct Ht as [->|[->| ->]]; try done.
    cbn. unfold IsContextTag. by rewrite (proj2 (Z.eqb_neq _ _) Hsp).
Qed.

(** ** Reading a head *)

(** [r] on an element of type [et] with control bits [c], tag [tag] and field [v], in
    front of [rest] after [n] more bytes. *)
Definition on_elem (r : TLVReader) (c et tag v : Z) (rest : list Z) (n : Z) : TLVReader :=
  mkReader (rImplicitProfileId r) tag v (rBackingStore r) (PBytes rest) (rLenRead r + n) (rMaxLen r)
    (rContainerType r) (c + et) (rContainerOpen r).

Lemma ElementType_control r c et :
  c ∈ tag_controls → is_element et → rControlByte r = c + et → ElementType r = et.
Proof.
  intros Hc Het Hr. destruct (control_byte_parts c et Hc Het) as (_&?&_&?).
  unfold ElementType. rewrite Hr. destruct (Z.eqb_spec (c + et) (u16 kTLVControlByte_NotSpecified)) as [Heq|]; [|done].
  change (u16 kTLVControlByte_NotSpecified) with 65535 in Heq. lia.
Qed.

Lemma ElementType_on_elem r c et tag v rest n :
  c ∈ tag_controls → is_element et → ElementType (on_elem r c et tag v rest n) = et.
Proof. intros. by apply (ElementType_control _ c). Qed.

Lemma EnsureData_bytes e r b p : rReadPoint r = PBytes (b :: p) → TLVReader_EnsureData e r = ROk tt r.
Proof. intros H. unfold TLVReader_EnsureData. by rewrite H, bool_decide_false. Qed.

(** The bytes of a head. *)
Definition head_of (ct prof et tag v : Z) : option (list Z) :=
  (λ hd, hd ++ stage_value et v) <$> stage_tag ct prof et tag.

(** What the reader must have for a head of [n] bytes and the length [v]: room up to
    [mMaxLen] and a length that does not go over it. *)
Definition room_for (r : TLVReader) (et v n : Z) : Prop :=
  0 <= rLenRead r ∧ rLenRead r + n <= rMaxLen r ∧ in_u32 (rMaxLen r) ∧
  (TLVTypeHasLength et = true → 0 <= v ∧ rLenRead r + n + v <= rMaxLen r).

Lemma fetch_head_bytes hd rest r :
  rReadPoint r = PBytes (hd ++ rest) →
  fetch_head (Z.of_nat (length hd)) r =
    ROk hd (rset_input (rBackingStore r) (PBytes rest) (u32 (rLenRead r + Z.of_nat (length hd))) r).
Proof.
  intros Hrp. unfold fetch_head. rewrite Hrp.
  destruct (Z.ltb_spec (Z.of_nat (length (hd ++ rest))) (Z.of_nat (length hd))) as [Hlt|_].
  { rewrite length_app in Hlt. lia. }
  unfold advance. by rewrite Nat2Z.id, take_app_length, drop_app_length.
Qed.

(** Parsing what was staged, once the reader is behind it. *)
Lemma parse_head_staged r c et tag tl v :
  is_element et → tag_field (rImplicitProfileId r) tag c tl → rControlByte r = c + et →
  verify_tag (rContainerType r) et (norm_tag tag) = None →
  room_for r et (field_val et v) 0 →
  parse_head ((c + et) :: tl ++ stage_value et v) r =
    ROk tt (rset_elem (norm_tag tag) (field_val et v) (c + et) r).
Proof.
  intros Het (Hc&_&_&Hread) Hctl Hver (Hl0&Hl&Hm&Hlen).
  destruct (control_byte_parts c et Hc Het) as (_&_&Hmask&_).
  assert (HET : ElementType (rset_lenOrVal (field_val et v) (rset_tag (norm_tag tag) r)) = et)
    by by apply (ElementType_control _ c).
  unfold parse_head. rewrite (ElementType_control r c et), Hctl, Hmask by done.
  rewrite skipn_cons, drop_0, Hread, <- (app_nil_r (stage_value et v)), read_value_staged by done.
  assert (negb (TLVTypeHasLength et) || (field_val et v <=? UINT32_MAX) = true) as Hb.
  { destruct (TLVTypeHasLength et) eqn:Hh; [|done]. specialize (Hlen eq_refl). apply Z.leb_le.
    unfold UINT32_MAX. solve_width. }
  cbn [rElemLenOrVal rset_lenOrVal rset_tag rset_elem]. rewrite Hb, andb_false_r.
  unfold TLVReader_VerifyElement. rewrite HET.
  cbn [rContainerType rElemTag rElemLenOrVal rset_lenOrVal rset_tag rset_elem]. rewrite Hver.
  unfold TLVReader_GetRemainingLength. cbn [rMaxLen rLenRead rset_lenOrVal rset_tag rset_elem].
  replace (TLVTypeHasLength et && _) with false.
  { unfold rset_lenOrVal, rset_tag, rset_elem. cbn. by rewrite Hctl. }
  symmetry. destruct (TLVTypeHasLength et) eqn:Hh; [|done]. specialize (Hlen eq_refl).
  apply Z.ltb_ge. rewrite !u32_id; solve_width.
Qed.

Lemma ReadElement_head r ct et tag v hd rest :
  in_u64 tag → is_element et → head_of ct (rImplicitProfileId r) et tag v = Some hd →
  rReadPoint r = PBytes (hd ++ rest) →
  verify_tag (rContainerType r) et (norm_tag tag) = None →
  room_for r et (field_val et v) (Z.of_nat (length hd)) →
  ∃ c, c ∈ tag_controls ∧
    TLVReader_ReadElement r =
      ROk tt (on_elem r c et (norm_tag tag) (field_val et v) rest (Z.of_nat (length hd))).
Proof.
  intros Htag Het Hhd Hrp Hver Hroom.
  unfold head_of in Hhd. destruct (stage_tag _ _ _ _) as [hd'|] eqn:Hst; [|done].
  apply (inj Some) in Hhd.
  destruct (stage_tag_field _ _ _ _ _ Htag Het Hst) as (c&tl&->&Hf).
  pose proof Hf as (Hc&Htl&_). cbn [app] in Hhd. exists c. split; [done|].
  assert (Hsz : head_bytes (c + et) et = Z.of_nat (length hd)).
  { rewrite head_bytes_sizes, <- Hhd by done. cbn [length]. rewrite length_app, stage_value_length by done. lia. }
  unfold TLVReader_ReadElement, rbind. rewrite (EnsureData_bytes _ _ (c + et) (tl ++ stage_value et v ++ rest)).
  2: { rewrite Hrp, <- Hhd. cbn. by rewrite <- app_assoc. }
  assert (rReadPoint r = PBytes ((c + et) :: (tl ++ stage_value et v) ++ rest)) as -> by (by rewrite Hrp, <- Hhd).
  rewrite (ElementType_control (rset_controlByte (c + et) r) c et) by done.
  replace (IsValidTLVType et) with true by (symmetry; apply Z.leb_le, Het). cbn [negb].
  cbn [rControlByte rset_controlByte rset_elem]. rewrite Hsz, (fetch_head_bytes hd rest) by done.
  destruct Hroom as (Hl0&Hl&Hm&Hlen). rewrite <- Hhd at 1.
  rewrite (parse_head_staged _ c et tag tl v); try done.
  - unfold on_elem. cbn. by rewrite u32_id by solve_width.
  - unfold room_for. cbn. rewrite u32_id by solve_width. split_and!; [lia|lia|done|].
    intros Hh. specialize (Hlen Hh). lia.
Qed.
