(* ===== verification/TlvElement.v ===== *)
(** * TLV: elements and their encoding

    The abstract content of an encoding, a tree of tagged values, its bytes, and the
    theorem that the writer writes them. *)

From S2P Require Import Prelude.
From S2P Require Import ChipError.
From S2P Require Import Endian.
From S2P Require Import TlvTypes.
From S2P Require Import TlvWriter.
From S2P Require Import TlvReader.
From S2P Require Import TlvHead.

#[local] Open Scope tlv_scope.

(** ** Values *)

#[warnings="-register-all"]
Inductive tlv_value :=
| VInt (z : Z)
| VUInt (z : Z)
| VBool (b : bool)
| VFloat (bits : Z)
| VDouble (bits : Z)
| VString (s : list Z)
| VBytes (s : list Z)
| VNull
| VContainer (type : Z) (children : list (Z * tlv_value)).

Section Induction.
Context (P : tlv_value → Prop).
Context (HInt : ∀ z, P (VInt z)) (HUInt : ∀ z, P (VUInt z)) (HBool : ∀ b, P (VBool b))
  (HFloat : ∀ z, P (VFloat z)) (HDouble : ∀ z, P (VDouble z)) (HString : ∀ s, P (VString s))
  (HBytes : ∀ s, P (VBytes s)) (HNull : P VNull)
  (HContainer : ∀ t cs, Forall (λ c, P c.2) cs → P (VContainer t cs)).

Fixpoint tlv_value_nested_ind (v : tlv_value) : P v :=
  match v with
  | VInt z => HInt z | VUInt z => HUInt z | VBool b => HBool b | VFloat z => HFloat z
  | VDouble z => HDouble z | VString s => HString s | VBytes s => HBytes s | VNull => HNull
  | VContainer t cs =>
      HContainer t cs
        ((fix go cs : Forall (λ c, P c.2) cs :=
            match cs with
            | [] => Forall_nil_2 _
            | c :: cs => Forall_cons_2 _ _ _ (tlv_value_nested_ind c.2) (go cs)
            end) cs)
  end.
End Induction.

(** Element type, length or value field, and data. *)
Definition value_type (v : tlv_value) : Z :=
  match v with
  | VInt z => int_elem_type z
  | VUInt z => uint_elem_type z
  | VBool b => if b then TLVElementType.BooleanTrue else TLVElementType.BooleanFalse
  | VFloat _ => TLVElementType.FloatingPointNumber32
  | VDouble _ => TLVElementType.FloatingPointNumber64
  | VString s => Z.lor (u8 kTLVType_UTF8String) (length_field (Z.of_nat (length s)))
  | VBytes s => Z.lor (u8 kTLVType_ByteString) (length_field (Z.of_nat (length s)))
  | VNull => TLVElementType.Null
  | VContainer t _ => t
  end.

Definition value_field (v : tlv_value) : Z :=
  match v with
  | VInt z => u64 z
  | VUInt z | VFloat z | VDouble z => z
  | VString s | VBytes s => Z.of_nat (length s)
  | VBool _ | VNull | VContainer _ _ => 0
  end.

Definition value_data (v : tlv_value) : list Z :=
  match v with VString s | VBytes s => s | _ => [] end.

Definition container_types : list Z := [kTLVType_Structure; kTLVType_Array; kTLVType_List].

Definition end_marker : list Z := [TLVElementType.EndOfContainer].

(** ** Bytes

    [encode_value prof v ct tag]: the bytes of [v] tagged [tag] in a container of type
    [ct]; none when the tag is not allowed there. *)
Section Encode.
Context (prof : Z).

Fixpoint encode_value (v : tlv_value) (ct tag : Z) : option (list Z) :=
  match v with
  | VContainer t cs =>
      hd ← head_of ct prof t tag 0;
      body ← (fix go cs :=
                match cs with
                | [] => Some []
                | (tag, v) :: cs => b ← encode_value v t tag; bs ← go cs; Some (b ++ bs)
                end) cs;
      Some (hd ++ body ++ end_marker)
  | _ => hd ← head_of ct prof (value_type v) tag (value_field v); Some (hd ++ value_data v)
  end.

Fixpoint encode_list (ct : Z) (cs : list (Z * tlv_value)) : option (list Z) :=
  match cs with
  | [] => Some []
  | (tag, v) :: cs => b ← encode_value v ct tag; bs ← encode_list ct cs; Some (b ++ bs)
  end.

Lemma encode_container t cs ct tag :
  encode_value (VContainer t cs) ct tag =
    (hd ← head_of ct prof t tag 0; body ← encode_list t cs; Some (hd ++ body ++ end_marker)).
Proof.
  cbn. destruct (head_of ct prof t tag 0); [|done]. cbn. f_equal.
  induction cs as [|[tag' v'] cs IH]; [done|]. cbn. destruct (encode_value v' t tag'); [|done]. cbn.
  by rewrite IH.
Qed.

End Encode.

Section Valid.
Context `{TlvConfig}.

(** Values that the C types can hold and the writer does not refuse. *)
Fixpoint valid_value (v : tlv_value) : Prop :=
  match v with
  | VInt z => - 2 ^ 63 <= z < 2 ^ 63
  | VUInt z | VDouble z => in_u64 z
  | VFloat z => in_u32 z
  | VBool _ | VNull => True
  | VString s =>
      Z.of_nat (length s) <= UINT32_MAX ∧
      (TLV_VALIDATE_CHAR_STRING_ON_WRITE = true → Utf8.IsValid s = true ∧ last s ≠ Some 0)
  | VBytes s => Z.of_nat (length s) <= UINT32_MAX
  | VContainer t cs =>
      t ∈ container_types ∧
      (fix go cs := match cs with [] => True | (tag, v) :: cs => in_u64 tag ∧ valid_value v ∧ go cs end) cs
  end.

Definition valid_list (cs : list (Z * tlv_value)) : Prop := Forall (λ c, in_u64 c.1 ∧ valid_value c.2) cs.

Lemma valid_container t cs : valid_value (VContainer t cs) ↔ t ∈ container_types ∧ valid_list cs.
Proof.
  cbn. apply and_iff_compat_l. induction cs as [|[tag v] cs IH]; [by split; intros; constructor|].
  unfold valid_list in *. rewrite Forall_cons, IH. cbn. tauto.
Qed.

End Valid.

(** ** The writer writes the bytes *)

(** A writer that accepts elements, with its counters in range. *)
Definition writer_ready (w : TLVWriter) : Prop :=
  IsInitialized w = true ∧ wContainerOpen w = false ∧
  in_u32 (wRemainingLen w) ∧ in_u32 (wLenWritten w) ∧ in_u32 (wMaxLen w).

(** [n] more bytes are within [mMaxLen] and the buffer. *)
Definition writer_room (w : TLVWriter) (n : Z) : Prop :=
  wLenWritten w + n <= wMaxLen w ∧ n <= wRemainingLen w.

Lemma wappend_nil w : writer_ready w → wappend [] w = w.
Proof.
  intros (_&_&?&?&_). unfold wappend. cbn. rewrite app_nil_r, Z.sub_0_r, Z.add_0_r, !u32_id by done.
  by destruct w.
Qed.

Lemma wappend_app p q w : wappend q (wappend p w) = wappend (p ++ q) w.
Proof.
  unfold wappend. cbn. rewrite <- app_assoc, length_app. f_equal.
  - unfold u32. rewrite Zminus_mod_idemp_l. f_equal. lia.
  - unfold u32. rewrite Zplus_mod_idemp_l. f_equal. lia.
Qed.

Lemma wMaxLen_wappend p w : wMaxLen (wappend p w) = wMaxLen w.
Proof. done. Qed.

Lemma wappend_ready p w :
  writer_ready w → writer_room w (Z.of_nat (length p)) →
  writer_ready (wappend p w) ∧
  wRemainingLen (wappend p w) = wRemainingLen w - Z.of_nat (length p) ∧
  wLenWritten (wappend p w) = wLenWritten w + Z.of_nat (length p).
Proof.
  intros (Hi&Ho&Hr&Hl&Hm) (H1&H2). unfold writer_ready, wappend. cbn. rewrite !u32_id by solve_width.
  split; [|done]. split_and!; try done; solve_width.
Qed.

Lemma write_loop_fits n p w :
  writer_ready w → Z.of_nat (length p) <= wRemainingLen w → write_loop (S n) p w = (CHIP_NO_ERROR, wappend p w).
Proof.
  intros Hw Hp. destruct p as [|b p]; [cbn; by rewrite wappend_nil|].
  cbn [write_loop]. rewrite (proj2 (Z.eqb_neq _ _)) by (cbn [length] in Hp; lia).
  destruct (Z.ltb_spec (wRemainingLen w) (Z.of_nat (length (b :: p)))); [lia|].
  rewrite Nat2Z.id, drop_all, take_ge by done. by destruct n.
Qed.

Lemma WriteData_fits p w :
  writer_ready w → writer_room w (Z.of_nat (length p)) → TLVWriter_WriteData p w = (CHIP_NO_ERROR, wappend p w).
Proof.
  intros Hw (H1&H2). pose proof Hw as (Hi&_&Hr&Hl&Hm). unfold TLVWriter_WriteData, wverify. rewrite Hi.
  rewrite u32_id by solve_width. rewrite (proj2 (Z.leb_le _ _)) by done. by apply write_loop_fits.
Qed.

Lemma WriteElementHead_fits et tag v hd w :
  writer_ready w → head_of (wContainerType w) (wImplicitProfileId w) et tag v = Some hd →
  writer_room w (Z.of_nat (length hd)) →
  TLVWriter_WriteElementHead et tag v w = (CHIP_NO_ERROR, wappend hd w).
Proof.
  intros Hw Hhd Hroom. pose proof Hw as (Hi&Ho&_). unfold TLVWriter_WriteElementHead, wverify. rewrite Hi, Ho.
  cbn [negb]. unfold head_of in Hhd. destruct (stage_tag _ _ _ _) as [h|]; [|done].
  apply (inj Some) in Hhd as ->. by apply WriteData_fits.
Qed.

(** Evaluate the widths of the fields of known element types. *)
Ltac compute_size :=
  repeat match goal with
  | |- context [value_size ?t] => let n := eval vm_compute in (value_size t) in change (value_size t) with n
  end;
  repeat match goal with |- context [2 ^ (8 * Z.of_nat ?n)] =>
    let z := eval vm_compute in (2 ^ (8 * Z.of_nat n)) in change (2 ^ (8 * Z.of_nat n)) with z end.

Lemma length_field_type type n :
  type = kTLVType_UTF8String ∨ type = kTLVType_ByteString → 0 <= n <= UINT32_MAX →
  is_element (Z.lor (u8 type) (length_field n)) ∧
  TLVTypeHasLength (Z.lor (u8 type) (length_field n)) = true ∧
  field_val (Z.lor (u8 type) (length_field n)) n = n.
Proof.
  intros Ht Hn. unfold length_field.
  repeat case_match; zbool; destruct Ht as [-> | ->]; split_and!; try done;
    unfold field_val; apply Z.mod_small; unfold UINT8_MAX, UINT16_MAX, UINT32_MAX in *; compute_size; lia.
Qed.

Lemma WriteElementWithData_fits type tag data hd w :
  type = kTLVType_UTF8String ∨ type = kTLVType_ByteString → writer_ready w →
  let n := Z.of_nat (length data) in
  head_of (wContainerType w) (wImplicitProfileId w) (Z.lor (u8 type) (length_field n)) tag n = Some hd →
  writer_room w (Z.of_nat (length (hd ++ data))) →
  TLVWriter_WriteElementWithData type tag data w = (CHIP_NO_ERROR, wappend (hd ++ data) w).
Proof.
  intros Ht Hw n Hhd Hroom. rewrite length_app, Nat2Z.inj_add in Hroom. unfold writer_room in Hroom.
  assert (writer_room w (Z.of_nat (length hd))) as Hr by (unfold writer_room; lia).
  destruct (wappend_ready hd w Hw Hr) as (Hw'&Hrem&Hlen).
  unfold TLVWriter_WriteElementWithData, wverify. rewrite (proj1 Hw).
  replace (ctrue _) with false by (destruct Ht as [-> | ->]; done).
  unfold wseq. rewrite (WriteElementHead_fits _ _ _ hd) by done.
  rewrite WriteData_fits, wappend_app; [done|done|]. unfold writer_room. rewrite wMaxLen_wappend. lia.
Qed.

Section Put.
Context `{TlvConfig}.

(** The calls of a client that writes [v] with tag [tag]. *)
Fixpoint put_value (v : tlv_value) (tag : Z) : wop :=
  match v with
  | VInt z => TLVWriter_Put_i64 tag z
  | VUInt z => TLVWriter_Put_u64 tag z
  | VBool b => TLVWriter_PutBoolean tag b
  | VFloat z => TLVWriter_Put_float tag z
  | VDouble z => TLVWriter_Put_double tag z
  | VString s => TLVWriter_PutString tag s
  | VBytes s => TLVWriter_Put_ByteSpan tag s
  | VNull => TLVWriter_PutNull tag
  | VContainer t cs => λ w,
      match TLVWriter_StartContainer tag t kTLVType_NotSpecified w with
      | (CHIP_NO_ERROR, outer, w) =>
          ((fix go cs :=
              match cs with
              | [] => wret CHIP_NO_ERROR
              | (tag, v) :: cs => put_value v tag ;;; go cs
              end) cs ;;;
           TLVWriter_EndContainer outer) w
      | (e, _, w) => (e, w)
      end
  end.

Fixpoint put_list (cs : list (Z * tlv_value)) : wop :=
  match cs with
  | [] => wret CHIP_NO_ERROR
  | (tag, v) :: cs => put_value v tag ;;; put_list cs
  end.

Lemma put_container t cs tag w :
  put_value (VContainer t cs) tag w =
    match TLVWriter_StartContainer tag t kTLVType_NotSpecified w with
    | (CHIP_NO_ERROR, outer, w) => (put_list cs ;;; TLVWriter_EndContainer outer) w
    | (e, _, w) => (e, w)
    end.
Proof.
  reflexivity.
Qed.

(** The claim for one value, used as induction hypothesis. *)
Definition writes (v : tlv_value) : Prop :=
  ∀ tag w bs, valid_value v → in_u64 tag → writer_ready w →
    encode_value (wImplicitProfileId w) v (wContainerType w) tag = Some bs →
    writer_room w (Z.of_nat (length bs)) →
    put_value v tag w = (CHIP_NO_ERROR, wappend bs w).

Lemma put_list_writes cs :
  Forall (λ c, writes c.2) cs → valid_list cs → ∀ w bs, writer_ready w →
  encode_list (wImplicitProfileId w) (wContainerType w) cs = Some bs →
  writer_room w (Z.of_nat (length bs)) → put_list cs w = (CHIP_NO_ERROR, wappend bs w).
Proof.
  intros Hw. induction Hw as [|[tag v] cs Hv Hcs IH]; intros Hval w bs Hr Henc Hroom; cbn in Henc |- *.
  { simplify_eq. by rewrite wappend_nil. }
  apply Forall_cons in Hval as [[Htag Hvv] Hval]. cbn in Hv, Htag, Hvv.
  destruct (encode_value _ v _ tag) as [b|] eqn:Hb; [|done]. cbn in Henc.
  destruct (encode_list _ _ cs) as [l|] eqn:Hl; [|done]. cbn in Henc. apply (inj Some) in Henc as <-.
  rewrite length_app, Nat2Z.inj_add in Hroom. destruct Hroom as [H1 H2].
  destruct (wappend_ready b w Hr) as (Hr'&Hrem&Hlen); [unfold writer_room; lia|].
  unfold wseq. rewrite (Hv tag w b) by (done || (unfold writer_room; lia)).
  rewrite (IH Hval (wappend b w) l); [by rewrite wappend_app|done|done|].
  unfold writer_room. rewrite wMaxLen_wappend. lia.
Qed.

Lemma encode_prim prof v ct tag bs :
  (∀ t cs, v ≠ VContainer t cs) → encode_value prof v ct tag = Some bs →
  ∃ hd, head_of ct prof (value_type v) tag (value_field v) = Some hd ∧ bs = hd ++ value_data v.
Proof.
  intros Hv Henc. destruct v; try (by destruct (Hv type children)); cbn [encode_value] in Henc;
    destruct (head_of _ _ _ _ _) as [hd|]; try done; cbn in Henc; exists hd; by simplify_eq.
Qed.

Lemma put_prim_writes v : (∀ t cs, v ≠ VContainer t cs) → writes v.
Proof.
  intros Hnc tag w bs Hval Htag Hw Henc Hroom.
  destruct (encode_prim _ _ _ _ _ Hnc Henc) as (hd&Hhd&->).
  destruct v; try (by destruct (Hnc type children)); cbn [value_type value_field value_data] in Hhd, Hroom |- *.
  6: { destruct Hval as (Hlen&Hok). cbn. unfold TLVWriter_PutString. rewrite (proj2 (Z.leb_le _ _)) by done.
    unfold TLVWriter_PutString_len. destruct TLV_VALIDATE_CHAR_STRING_ON_WRITE.
    - destruct (Hok eq_refl) as [-> ?]. rewrite bool_decide_false by done. cbn.
      apply WriteElementWithData_fits; auto.
    - cbn. apply WriteElementWithData_fits; auto. }
  6: { cbn. unfold TLVWriter_Put_ByteSpan. rewrite (proj2 (Z.leb_le _ _)) by done.
    apply WriteElementWithData_fits; auto. }
  all: rewrite ?app_nil_r in *; cbn [put_value];
    unfold TLVWriter_Put_i64, TLVWriter_Put_u64, TLVWriter_PutBoolean, TLVWriter_Put_float,
      TLVWriter_Put_double, TLVWriter_PutNull.
  all: apply WriteElementHead_fits; assumption.
Qed.

Lemma end_marker_head ct prof : head_of ct prof TLVElementType.EndOfContainer AnonymousTag 0 = Some end_marker.
Proof. done. Qed.

(** [StartContainer] takes the room of the end marker off [mMaxLen]. *)
Definition in_container (t : Z) (w : TLVWriter) : TLVWriter :=
  wset_containerType t (if wCloseContainerReserved w then wset_maxLen (wMaxLen w - 1) w else w).

Lemma StartContainer_fits tag t hd outer w :
  t ∈ container_types → writer_ready w →
  head_of (wContainerType w) (wImplicitProfileId w) t tag 0 = Some hd →
  writer_room w (Z.of_nat (length hd) + 1) →
  TLVWriter_StartContainer tag t outer w = (CHIP_NO_ERROR, wContainerType w, wappend hd (in_container t w)).
Proof.
  intros Ht Hw Hhd Hroom. pose proof Hw as (Hi&Ho&Hr&Hl&Hm). destruct Hroom as [Hr1 Hr2].
  unfold TLVWriter_StartContainer. rewrite Hi. cbn [negb].
  replace (TLVTypeIsContainer t) with true by
    (unfold container_types in Ht; rewrite !elem_of_cons in Ht; by destruct Ht as [->|[->|[->|?%elem_of_nil]]]).
  cbn [negb]. unfold write_container_head, in_container, kEndOfContainerMarkerSize.
  destruct (wCloseContainerReserved w) eqn:Hres; cbn [andb].
  - rewrite (proj2 (Z.leb_le _ _)) by solve_width. cbn [negb]. rewrite u32_id by solve_width.
    rewrite (WriteElementHead_fits t tag 0 hd).
    + unfold wappend, wset_containerOpen, wset_containerType. cbn. by rewrite Ho, Hres.
    + unfold writer_ready. cbn. split_and!; try done; solve_width.
    + done.
    + unfold writer_room. cbn. lia.
  - rewrite (WriteElementHead_fits t tag 0 hd); [|done|done|unfold writer_room; lia].
    unfold wappend, wset_containerOpen, wset_containerType. cbn. by rewrite Ho, Hres.
Qed.

Lemma in_container_ready t w n :
  writer_ready w → writer_room w (n + 1) → 0 <= n → writer_ready (in_container t w) ∧ writer_room (in_container t w) n.
Proof.
  intros (Hi&Ho&Hr&Hl&Hm) [Hr1 Hr2] Hn. unfold in_container, writer_ready, writer_room.
  destruct (wCloseContainerReserved w); cbn; split_and!; try done; solve_width.
Qed.

Lemma EndContainer_fits t w body :
  t ∈ container_types → writer_ready w → writer_room w (Z.of_nat (length body) + 1) →
  TLVWriter_EndContainer (wContainerType w) (wappend body (in_container t w)) =
    (CHIP_NO_ERROR, wappend (body ++ end_marker) w).
Proof.
  intros Ht Hw Hroom. pose proof Hw as (Hi&Ho&Hr&Hl&Hm).
  assert (Hrm : writer_room w (Z.of_nat (length body))) by (destruct Hroom; split; lia).
  destruct (wappend_ready body w Hw Hrm) as (Hw'&Hrem&Hlen).
  unfold TLVWriter_EndContainer, wverify, kEndOfContainerMarkerSize.
  change (IsInitialized (wappend body (in_container t w))) with (IsInitialized (in_container t w)).
  assert (IsInitialized (in_container t w) = true) as ->
    by (unfold in_container; by destruct (wCloseContainerReserved w)).
  assert (TLVTypeIsContainer (wContainerType (wappend body (in_container t w))) = true) as ->.
  { cbn. unfold container_types in Ht. rewrite !elem_of_cons in Ht.
    by destruct Ht as [->|[->|[->|?%elem_of_nil]]]. }
  set (w1 := if wCloseContainerReserved _ then _ else _).
  assert (w1 = wappend body w) as ->.
  { subst w1. unfold in_container. destruct w as [? ? ? ? m ? ? ? ? []]; cbn in *; [|done].
    unfold wset_maxLen, wappend. cbn. by rewrite Z.sub_add, (u32_id m). }
  rewrite (WriteElementHead_fits _ _ _ end_marker), wappend_app; [done|done|apply end_marker_head|].
  destruct Hroom as [Hr1 Hr2]. unfold writer_room. rewrite wMaxLen_wappend. change (length end_marker) with 1%nat. lia.
Qed.

Lemma put_value_writes v : writes v.
Proof.
  induction v as [| | | | | | | |t cs IH] using tlv_value_nested_ind; try (apply put_prim_writes; congruence).
  intros tag w bs Hval Htag Hw Henc Hroom. rewrite encode_container in Henc.
  destruct (head_of _ _ t tag 0) as [hd|] eqn:Hhd; [|done]. cbn in Henc.
  destruct (encode_list _ t cs) as [body|] eqn:Hbody; [|done]. cbn in Henc. apply (inj Some) in Henc as <-.
  apply valid_container in Hval as [Ht Hcs].
  rewrite !length_app, !Nat2Z.inj_add in Hroom. change (Z.of_nat (length end_marker)) with 1 in Hroom.
  assert (Hroom' : writer_room w (Z.of_nat (length (hd ++ body)) + 1))
    by (rewrite length_app; destruct Hroom; split; lia).
  rewrite put_container, (StartContainer_fits tag t hd) by (done || (destruct Hroom; split; lia)).
  destruct (in_container_ready t w (Z.of_nat (length (hd ++ body))) Hw Hroom') as [Hwi [Hri1 Hri2]]; [lia|].
  rewrite length_app, Nat2Z.inj_add in Hri1, Hri2.
  destruct (wappend_ready hd (in_container t w) Hwi) as (Hw'&Hrem&Hlen); [split; lia|].
  assert (wImplicitProfileId (in_container t w) = wImplicitProfileId w) as Hprof
    by (unfold in_container; by destruct (wCloseContainerReserved w)).
  unfold wseq. rewrite (put_list_writes cs IH Hcs (wappend hd (in_container t w)) body Hw').
  - rewrite wappend_app, (EndContainer_fits t w (hd ++ body)) by done. by rewrite <- app_assoc.
  - cbn [wImplicitProfileId wappend]. rewrite Hprof. done.
  - split; rewrite ?wMaxLen_wappend; lia.
Qed.

End Put.
