(* ===== verification/TlvRead.v ===== *)
(** * TLV: reading back

    A reader over the bytes of a sequence of elements finds them, skips over them, and
    gives their values. *)

From S2P Require Import Prelude.
From S2P Require Import ChipError.
From S2P Require Import Endian.
From S2P Require Import TlvTypes.
From S2P Require Import TlvWriter.
From S2P Require Import TlvReader.
From S2P Require Import TlvHead.
From S2P Require Import TlvElement.

#[local] Open Scope reader_scope.

(** ** Input *)

Lemma read_loop_bytes fuel d rest acc r :
  rReadPoint r = PBytes (d ++ rest) → in_u32 (rLenRead r) →
  read_loop (S fuel) (Z.of_nat (length d)) acc r =
    ROk (acc ++ d) (rset_input (rBackingStore r) (PBytes rest) (u32 (rLenRead r + Z.of_nat (length d))) r).
Proof.
  intros Hrp Hl. cbn [read_loop]. destruct d as [|b d].
  { cbn in *. rewrite app_nil_r, Z.add_0_r, u32_id, <- Hrp by done. unfold rret. by destruct r. }
  rewrite (proj2 (Z.ltb_lt _ _)) by (cbn [length]; lia).
  unfold rbind. rewrite (EnsureData_bytes _ _ b (d ++ rest)) by done. rewrite Hrp.
  destruct (Z.ltb_spec (Z.of_nat (length ((b :: d) ++ rest))) (Z.of_nat (length (b :: d)))) as [Hlt|_].
  { rewrite length_app in Hlt. lia. }
  rewrite Nat2Z.id, Z.sub_diag, take_app_length. unfold advance. rewrite drop_app_length.
  by destruct fuel.
Qed.

Lemma ReadData_bytes d rest r :
  rReadPoint r = PBytes (d ++ rest) → in_u32 (rLenRead r) →
  TLVReader_ReadData (Z.of_nat (length d)) r =
    ROk d (rset_input (rBackingStore r) (PBytes rest) (u32 (rLenRead r + Z.of_nat (length d))) r).
Proof. intros. unfold TLVReader_ReadData. by rewrite (read_loop_bytes _ d rest). Qed.

(** ** Positions

    [core_at b ct rest n]: the input of the reader [b] after [n] more bytes, in front of
    [rest], in a container of type [ct], without an element. *)
Definition core_at (b : TLVReader) (ct : Z) (rest : list Z) (n : Z) : TLVReader :=
  mkReader (rImplicitProfileId b) AnonymousTag 0 (rBackingStore b) (PBytes rest) (rLenRead b + n) (rMaxLen b)
    ct kTLVControlByte_NotSpecified (rContainerOpen b).

Abbreviation clear := TLVReader_ClearElementState.

(** Reading the [n] bytes after position [k] stays within [mMaxLen]. *)
Definition within_max (b : TLVReader) (k n : Z) : Prop :=
  0 <= rLenRead b ∧ 0 <= k ∧ rLenRead b + k + n <= rMaxLen b ∧ in_u32 (rMaxLen b).

(** ** Types of values *)

Definition is_container (v : tlv_value) : bool := match v with VContainer _ _ => true | _ => false end.

Section ReadBack.
Context `{TlvConfig}.

Lemma container_type_cases t :
  t ∈ container_types → t = kTLVType_Structure ∨ t = kTLVType_Array ∨ t = kTLVType_List.
Proof. unfold container_types. rewrite !elem_of_cons, elem_of_nil. tauto. Qed.

(** The field as it is read back. *)
Definition value_read (v : tlv_value) : Z := field_val (value_type v) (value_field v).

Lemma int_elem_type_cases z :
  (int_elem_type z = 0 ∧ - 2 ^ 7 <= z <= 2 ^ 7 - 1) ∨ (int_elem_type z = 1 ∧ - 2 ^ 15 <= z <= 2 ^ 15 - 1) ∨
  (int_elem_type z = 2 ∧ - 2 ^ 31 <= z <= 2 ^ 31 - 1) ∨ int_elem_type z = 3.
Proof. unfold int_elem_type. repeat case_match; zbool; unfold TLVElementType.Int8 in *; auto with lia. Qed.

Lemma uint_elem_type_cases z :
  (uint_elem_type z = 4 ∧ z <= UINT8_MAX) ∨ (uint_elem_type z = 5 ∧ z <= UINT16_MAX) ∨
  (uint_elem_type z = 6 ∧ z <= UINT32_MAX) ∨ uint_elem_type z = 7.
Proof. unfold uint_elem_type. repeat case_match; zbool; auto with lia. Qed.

Lemma value_type_ok v :
  valid_value v →
  is_element (value_type v) ∧ value_type v ≠ TLVElementType.EndOfContainer ∧
  TLVTypeIsContainer (value_type v) = is_container v ∧
  TLVTypeHasLength (value_type v) = (match v with VString _ | VBytes _ => true | _ => false end).
Proof.
  destruct v as [z|z|b| | |s|s| |t cs]; cbn [value_type is_container].
  - intros _. by destruct (int_elem_type_cases z) as [[-> _]|[[-> _]|[[-> _]| ->]]].
  - intros _. by destruct (uint_elem_type_cases z) as [[-> _]|[[-> _]|[[-> _]| ->]]].
  - by destruct b.
  - done.
  - done.
  - intros _. unfold length_field. by repeat case_match.
  - intros _. unfold length_field. by repeat case_match.
  - done.
  - intros [Ht _]%valid_container. by apply container_type_cases in Ht as [->|[->| ->]].
Qed.

Lemma value_read_unsigned v :
  valid_value v → (∀ z, v ≠ VInt z) → value_read v = value_field v.
Proof.
  intros Hv Hni. unfold value_read, field_val. apply Z.mod_small.
  destruct v as [z|z|b| | |s|s| |t cs]; cbn [value_type value_field]; cbn in Hv.
  - by destruct (Hni z).
  - destruct (uint_elem_type_cases z) as [[-> ?]|[[-> ?]|[[-> ?]| ->]]]; compute_size;
      unfold UINT8_MAX, UINT16_MAX, UINT32_MAX in *; solve_width.
  - by destruct b.
  - done.
  - done.
  - unfold length_field. repeat case_match; zbool; compute_size; unfold UINT8_MAX, UINT16_MAX, UINT32_MAX in *; lia.
  - unfold length_field. repeat case_match; zbool; compute_size; unfold UINT8_MAX, UINT16_MAX, UINT32_MAX in *; lia.
  - done.
  - destruct Hv as [Ht _]. by apply container_type_cases in Ht as [->|[->| ->]].
Qed.

(** ** Reading the head of a value *)

(** [b] after [n] more bytes in a container of type [ct], on an element. *)
Definition elem_at (b : TLVReader) (ct c et tag val : Z) (rest : list Z) (n : Z) : TLVReader :=
  rset_elem tag val (c + et) (core_at b ct rest n).

Definition on_value (b : TLVReader) (ct c tag : Z) (v : tlv_value) (rest : list Z) (n : Z) : TLVReader :=
  elem_at b ct c (value_type v) tag (value_read v) rest n.

(** The bytes behind the head. *)
Definition value_body (prof : Z) (v : tlv_value) : option (list Z) :=
  match v with
  | VContainer t cs => body ← encode_list prof t cs; Some (body ++ end_marker)
  | _ => Some (value_data v)
  end.

Lemma encode_split prof v ct tag bs :
  encode_value prof v ct tag = Some bs →
  ∃ hd body, head_of ct prof (value_type v) tag (value_field v) = Some hd ∧
    value_body prof v = Some body ∧ bs = hd ++ body.
Proof.
  destruct (is_container v) eqn:Hc.
  - destruct v as [| | | | | | | |t cs]; try done. rewrite encode_container. cbn [value_type value_field value_body].
    destruct (head_of _ _ _ _ _) as [hd|]; [|done]. cbn. destruct (encode_list _ _ _) as [body|]; [|done]. cbn.
    intros [= <-]. by exists hd, (body ++ end_marker).
  - intros Henc. destruct (encode_prim prof v ct tag bs) as (hd&Hhd&->); [by intros t cs ->|done|].
    exists hd, (value_data v). split_and!; try done. by destruct v.
Qed.

Lemma data_length v prof body :
  value_body prof v = Some body → valid_value v → TLVTypeHasLength (value_type v) = true →
  value_read v = Z.of_nat (length body).
Proof.
  intros Hb Hv Hh. destruct (value_type_ok v Hv) as (_&_&_&Hlen). rewrite Hh in Hlen.
  destruct v; try done; rewrite value_read_unsigned by done; cbn in Hb |- *; by simplify_eq.
Qed.

Lemma on_elem_core r b ct bytes k c et tag val rest n :
  clear r = core_at b ct bytes k → on_elem r c et tag val rest n = elem_at b ct c et tag val rest (k + n).
Proof.
  intros Hr. change (on_elem r) with (on_elem (clear r)). rewrite Hr.
  unfold on_elem, elem_at, core_at, rset_elem. cbn. by rewrite Z.add_assoc.
Qed.

Lemma ReadElement_value r b v ct rct tag hd body rest n :
  valid_value v → in_u64 tag → reads_as ct rct →
  head_of ct (rImplicitProfileId b) (value_type v) tag (value_field v) = Some hd →
  value_body (rImplicitProfileId b) v = Some body →
  clear r = core_at b rct (hd ++ body ++ rest) n →
  within_max b n (Z.of_nat (length (hd ++ body))) →
  ∃ c, c ∈ tag_controls ∧
    TLVReader_ReadElement r =
      ROk tt (on_value b rct c (norm_tag tag) v (body ++ rest) (n + Z.of_nat (length hd))).
Proof.
  intros Hv Htag Hct Hhd Hbody Hr (Hl0&Hn&Hl&Hm). destruct (value_type_ok v Hv) as (Het&Hne&_&_).
  rewrite length_app, Nat2Z.inj_add in Hl. pose proof Hr as Hr'.
  unfold TLVReader_ClearElementState, rset_elem, core_at in Hr'. injection Hr' as Hp Hbs Hrp Hlr Hmx Hrc Ho.
  destruct (ReadElement_head r ct (value_type v) tag (value_field v) hd (body ++ rest)) as (c&Hc&He); try done.
  - by rewrite Hp.
  - rewrite Hrc. unfold head_of in Hhd. destruct (stage_tag _ _ _ _) eqn:Hst; [|done].
    by eapply stage_tag_verified.
  - unfold room_for. rewrite Hlr, Hmx. split_and!; [lia|lia|done|]. intros Hh.
    rewrite (data_length v _ _ Hbody Hv Hh : field_val _ _ = _). lia.
  - exists c. split; [done|]. by rewrite He, (on_elem_core _ _ _ _ _ _ _ _ _ _ _ Hr).
Qed.

Lemma ReadElement_end r b rct rest n :
  rct ≠ kTLVType_NotSpecified → clear r = core_at b rct (end_marker ++ rest) n → within_max b n 1 →
  ∃ c, c ∈ tag_controls ∧
    TLVReader_ReadElement r =
      ROk tt (elem_at b rct c TLVElementType.EndOfContainer AnonymousTag 0 rest (n + 1)).
Proof.
  intros Hne Hr (Hl0&Hn&Hl&Hm). pose proof Hr as Hr'.
  unfold TLVReader_ClearElementState, rset_elem, core_at in Hr'. injection Hr' as Hp Hbs Hrp Hlr Hmx Hrc Ho.
  destruct (ReadElement_head r rct TLVElementType.EndOfContainer AnonymousTag 0 end_marker rest) as (c&Hc&He);
    try done.
  - rewrite Hrc. unfold verify_tag. cbn [Z.eqb]. by rewrite (proj2 (Z.eqb_neq _ _) Hne).
  - unfold room_for. rewrite Hlr, Hmx. split_and!; [lia|cbn; lia|done|done].
  - exists c. split; [done|]. by rewrite He, (on_elem_core _ _ _ _ _ _ _ _ _ _ _ Hr).
Qed.

(** ** Skipping *)

Lemma ElementType_at b ct c et tag val rest n :
  c ∈ tag_controls → is_element et → ElementType (elem_at b ct c et tag val rest n) = et.
Proof. intros. by apply (ElementType_control _ c). Qed.

Lemma ElementType_value b ct c tag v rest n :
  valid_value v → c ∈ tag_controls → ElementType (on_value b ct c tag v rest n) = value_type v.
Proof. intros Hv Hc. apply ElementType_at; [done|]. by apply value_type_ok. Qed.

(** [SkipData] brings the reader to [target]; what it has recorded of the element does
    not matter. *)
Definition skips_to (r target : TLVReader) : Prop := ∃ r', TLVReader_SkipData r = ROk tt r' ∧ clear r' = target.

Lemma SkipData_value b ct c tag v body rest n prof :
  valid_value v → c ∈ tag_controls → value_body prof v = Some body → is_container v = false →
  within_max b n (Z.of_nat (length body)) →
  skips_to (on_value b ct c tag v (body ++ rest) n) (core_at b ct rest (n + Z.of_nat (length body))).
Proof.
  intros Hv Hc Hb Hnc (Hl0&Hn&Hl&Hm). unfold skips_to, TLVReader_SkipData. rewrite ElementType_value by done.
  destruct (value_type_ok v Hv) as (_&_&_&Hlen). destruct (TLVTypeHasLength (value_type v)) eqn:Hh.
  - assert (Hd : value_read v = Z.of_nat (length body)) by (by eapply data_length).
    change (rElemLenOrVal (on_value b ct c tag v (body ++ rest) n)) with (value_read v).
    rewrite Hd, u32_id by solve_width.
    unfold rbind. rewrite (ReadData_bytes body rest) by (done || (cbn; solve_width)).
    eexists. split; [done|]. cbn. unfold core_at, TLVReader_ClearElementState, rset_elem. cbn.
    by rewrite u32_id, Z.add_assoc by solve_width.
  - assert (body = []) as -> by (destruct v; try done; by simplify_eq/=).
    eexists. split; [done|]. cbn. unfold core_at. by rewrite Z.add_0_r.
Qed.

Lemma SkipData_nothing b ct c et tag val rest n :
  c ∈ tag_controls → is_element et → TLVTypeHasLength et = false →
  skips_to (elem_at b ct c et tag val rest n) (core_at b ct rest n).
Proof.
  intros Hc Het Hh. exists (elem_at b ct c et tag val rest n). split; [|done].
  unfold TLVReader_SkipData. by rewrite ElementType_at, Hh.
Qed.

(** One round of the loop of [SkipToEndOfContainer] behind its switch. *)
Definition skip_round (fuel : nat) (outer k : Z) : rop unit :=
  TLVReader_SkipData ;; TLVReader_ReadElement ;; skip_loop fuel outer k.

Lemma skip_loop_S fuel outer k r :
  skip_loop (S fuel) outer k r =
    let et := ElementType r in
    if et =? TLVElementType.EndOfContainer then
      if k =? 0 then ROk tt r
      else
        skip_round fuel outer (u32 (k - 1))
          (rset_containerType (if u32 (k - 1) =? 0 then outer else kTLVType_UnknownContainer) r)
    else if TLVTypeIsContainer et then skip_round fuel outer (u32 (k + 1)) (rset_containerType et r)
    else skip_round fuel outer k r.
Proof. reflexivity. Qed.

(** The container type in the loop at level [k]. *)
Definition level_type (outer k ct rct : Z) : Prop := reads_as ct rct ∧ (k = 0 → rct = outer).

Fixpoint heads (v : tlv_value) : nat :=
  match v with
  | VContainer _ cs => 2 + (fix go cs := match cs with [] => O | (_, v) :: cs => heads v + go cs end)%nat cs
  | _ => 1
  end.
Fixpoint heads_list (cs : list (Z * tlv_value)) : nat :=
  match cs with [] => O | (_, v) :: cs => (heads v + heads_list cs)%nat end.
Lemma heads_container t cs : heads (VContainer t cs) = S (S (heads_list cs)).
Proof. reflexivity. Qed.

(** The loop passes over [v] and goes on behind it. *)
Definition passes (v : tlv_value) : Prop :=
  ∀ b tag ct rct bs rest n k outer fuel r,
    valid_value v → in_u64 tag → encode_value (rImplicitProfileId b) v ct tag = Some bs →
    level_type outer k ct rct → 0 <= k → k + Z.of_nat (length bs) < 2 ^ 32 →
    within_max b n (Z.of_nat (length bs)) → skips_to r (core_at b rct (bs ++ rest) n) →
    ∃ r' rct', level_type outer k ct rct' ∧ skips_to r' (core_at b rct' rest (n + Z.of_nat (length bs))) ∧
      skip_round (heads v + fuel) outer k r = skip_round fuel outer k r'.

Lemma pass_prim v : is_container v = false → passes v.
Proof.
  intros Hnc b tag ct rct bs rest n k outer fuel r Hv Htag Henc Hlv Hk Hkb Hmax (r1&Hs&Hr1).
  destruct (encode_split _ _ _ _ _ Henc) as (hd&body&Hhd&Hbody&->).
  destruct (ReadElement_value r1 b v ct rct tag hd body rest n) as (c&Hc&He); try done.
  { apply Hlv. } { by rewrite Hr1, <- app_assoc. }
  destruct (value_type_ok v Hv) as (_&Hne&Hcont&_). rewrite Hnc in Hcont.
  exists (on_value b rct c (norm_tag tag) v (body ++ rest) (n + Z.of_nat (length hd))), rct.
  split; [done|]. split.
  - rewrite length_app, Nat2Z.inj_add, Z.add_assoc.
    eapply SkipData_value; try done. destruct Hmax as (?&?&Hl&?). rewrite length_app in Hl. split_and!; lia || done.
  - replace (heads v) with 1%nat by (by destruct v). unfold skip_round at 1, rbind. rewrite Hs, He.
    cbn [Nat.add]. rewrite skip_loop_S, ElementType_value by done. cbn zeta.
    by rewrite (proj2 (Z.eqb_neq _ _) Hne), Hcont.
Qed.

Lemma pass_list cs :
  Forall (λ c, passes c.2) cs → valid_list cs →
  ∀ b ct rct bs rest n k outer fuel r,
    encode_list (rImplicitProfileId b) ct cs = Some bs →
    level_type outer k ct rct → 0 <= k → k + Z.of_nat (length bs) < 2 ^ 32 →
    within_max b n (Z.of_nat (length bs)) → skips_to r (core_at b rct (bs ++ rest) n) →
    ∃ r' rct', level_type outer k ct rct' ∧ skips_to r' (core_at b rct' rest (n + Z.of_nat (length bs))) ∧
      skip_round (heads_list cs + fuel) outer k r = skip_round fuel outer k r'.
Proof.
  intros HF. induction HF as [|[tag v] cs Hp _ IH]; intros Hval b ct rct bs rest n k outer fuel r Henc Hlv Hk Hkb Hmax Hs.
  { apply (inj Some) in Henc as <-. exists r, rct. rewrite Z.add_0_r. done. }
  apply Forall_cons in Hval as [[Htag Hv] Hval]. cbn in Hp, Htag, Hv, Henc.
  destruct (encode_value _ v ct tag) as [b1|] eqn:Hb1; [|done]. cbn in Henc.
  destruct (encode_list _ ct cs) as [b2|] eqn:Hb2; [|done]. cbn in Henc. apply (inj Some) in Henc as <-.
  rewrite <- app_assoc in Hs. rewrite length_app, Nat2Z.inj_add in Hkb, Hmax |- *. destruct Hmax as (Hm1&Hm2&Hm3&Hm4).
  destruct (Hp b tag ct rct b1 (b2 ++ rest) n k outer (heads_list cs + fuel)%nat r) as (r1&rct1&Hlv1&Hs1&E1);
    try done; [lia|split_and!; lia || done|].
  destruct (IH Hval b ct rct1 b2 rest (n + Z.of_nat (length b1)) k outer fuel r1) as (r2&rct2&Hlv2&Hs2&E2);
    try done; [lia|split_and!; lia || done|].
  exists r2, rct2. split; [done|]. split; [by rewrite Z.add_assoc|].
  cbn [heads_list]. by rewrite <- Nat.add_assoc, E1.
Qed.

Lemma reads_as_container t rct : t ∈ container_types → reads_as t rct → rct ≠ kTLVType_NotSpecified.
Proof. intros Ht [->| ->]; [|done]. by apply container_type_cases in Ht as [->|[->| ->]]. Qed.

Lemma pass_value v : passes v.
Proof.
  induction v as [| | | | | | | |t cs IH] using tlv_value_nested_ind; try (by apply pass_prim).
  intros b tag ct rct bs rest n k outer fuel r Hv Htag Henc Hlv Hk Hkb Hmax (r1&Hs&Hr1).
  destruct (encode_split _ _ _ _ _ Henc) as (hd&body&Hhd&Hbody&->).
  pose proof Hmax as (Hm1&Hm2&Hm3&Hm4). rewrite length_app, Nat2Z.inj_add in Hm3, Hkb.
  destruct (ReadElement_value r1 b (VContainer t cs) ct rct tag hd body rest n) as (c&Hc&He); try done.
  { apply Hlv. } { by rewrite Hr1, <- app_assoc. }
  destruct (value_type_ok _ Hv) as (Het&Hne&Hcont&Hlen). apply valid_container in Hv as [Ht Hcs].
  cbn in Hbody. destruct (encode_list _ t cs) as [lb|] eqn:Hlb; [|done]. apply (inj Some) in Hbody as <-.
  rewrite length_app, Nat2Z.inj_add in Hkb, Hm3. change (Z.of_nat (length end_marker)) with 1 in Hkb, Hm3.
  remember (n + Z.of_nat (length hd)) as n1 eqn:Hn1.
  set (r2 := elem_at b t c t (norm_tag tag) (value_read (VContainer t cs)) (lb ++ end_marker ++ rest) n1).
  assert (hd ≠ []).
  { intros ->. unfold head_of in Hhd. destruct (stage_tag _ _ _ _) as [h|] eqn:Hst; [|done].
    destruct (stage_tag_field _ _ _ _ _ Htag Het Hst) as (?&?&->&_). done. }
  assert (0 < length hd)%nat by (destruct hd; [done|cbn; lia]).
  destruct (pass_list cs IH Hcs b t t lb (end_marker ++ rest) n1 (k + 1) outer (S fuel) r2)
    as (r3&rct3&[Hra3 _]&(r3'&Hs3&Hr3)&E3); try done.
  { split; [by left|lia]. } { lia. } { lia. } { split_and!; lia || done. }
  { by apply SkipData_nothing. }
  destruct (ReadElement_end r3' b rct3 rest (n1 + Z.of_nat (length lb))) as (c4&Hc4&He4); try done.
  { by eapply reads_as_container. } { split_and!; lia || done. }
  set (rct4 := if k =? 0 then outer else kTLVType_UnknownContainer).
  set (r4 := elem_at b rct4 c4 TLVElementType.EndOfContainer AnonymousTag 0 rest (n1 + Z.of_nat (length lb) + 1)).
  exists r4, rct4. split; [|split].
  - subst rct4. destruct Hlv as [Hra Hout]. destruct (Z.eqb_spec k 0) as [->|?].
    + split; [|done]. rewrite <- (Hout eq_refl). done.
    + split; [by right|lia].
  - replace (n + _) with (n1 + Z.of_nat (length lb) + 1)
      by (rewrite !length_app; change (length end_marker) with 1%nat; lia).
    by apply SkipData_nothing.
  - rewrite heads_container. unfold skip_round at 1, rbind at 1. rewrite Hs. unfold rbind at 1. rewrite He.
    cbn [Nat.add]. rewrite skip_loop_S, ElementType_value by (done || by apply valid_container). cbn zeta.
    rewrite (proj2 (Z.eqb_neq _ _) Hne), Hcont. cbn [is_container]. rewrite u32_id by solve_width.
    rewrite <- app_assoc, <- Nat.add_succ_r.
    change (rset_containerType _ _) with r2. rewrite E3. unfold skip_round at 1, rbind. rewrite Hs3, He4.
    rewrite skip_loop_S, ElementType_at by done. cbn zeta. rewrite Z.eqb_refl, (proj2 (Z.eqb_neq (k + 1) 0)) by lia.
    rewrite Z.add_simpl_r, u32_id by solve_width. done.
Qed.

Lemma head_of_pos ct prof et tag v hd :
  in_u64 tag → is_element et → head_of ct prof et tag v = Some hd → (0 < length hd)%nat.
Proof.
  intros Htag Het Hhd. unfold head_of in Hhd. destruct (stage_tag _ _ _ _) as [h|] eqn:Hst; [|done].
  destruct (stage_tag_field _ _ _ _ _ Htag Het Hst) as (?&?&->&_). apply (inj Some) in Hhd as <-. rewrite length_app. cbn [length]. lia.
Qed.

(** Each head takes a byte at least. *)
Definition heads_bounded (v : tlv_value) : Prop := ∀ prof ct tag bs,
  valid_value v → in_u64 tag → encode_value prof v ct tag = Some bs → (heads v <= length bs)%nat.

Lemma heads_list_bounded prof t cs lb :
  Forall (λ c, heads_bounded c.2) cs → valid_list cs → encode_list prof t cs = Some lb →
  (heads_list cs <= length lb)%nat.
Proof.
  intros HF. revert lb. induction HF as [|[tg v] cs Hv _ IH]; intros lb Hcs Hlb; [cbn; lia|].
  apply Forall_cons in Hcs as [[Htg Hvv] Hcs]. cbn in Hv, Hlb, Htg, Hvv |- *.
  destruct (encode_value prof v t tg) as [b1|] eqn:Hb1; [|done]. cbn in Hlb.
  destruct (encode_list prof t cs) as [b2|] eqn:Hb2; [|done]. apply (inj Some) in Hlb as <-.
  specialize (IH b2 Hcs eq_refl). specialize (Hv prof t tg b1 Hvv Htg Hb1). rewrite length_app. lia.
Qed.

Lemma heads_le v : heads_bounded v.
Proof.
  induction v as [| | | | | | | |t cs IH] using tlv_value_nested_ind; intros prof ct tag bs Hv Htag Henc;
    destruct (encode_split _ _ _ _ _ Henc) as (hd&body&Hhd&Hbody&->); destruct (value_type_ok _ Hv) as (Het&_);
    pose proof (head_of_pos _ _ _ _ _ _ Htag Het Hhd); rewrite length_app; try (cbn [heads]; lia).
  apply valid_container in Hv as [_ Hcs]. rewrite heads_container. cbn in Hbody.
  destruct (encode_list prof t cs) as [lb|] eqn:Hlb; [|done]. apply (inj Some) in Hbody as <-.
  pose proof (heads_list_bounded _ _ _ _ IH Hcs Hlb).
  rewrite length_app. change (length end_marker) with 1%nat. lia.
Qed.

Lemma heads_list_le prof t cs lb :
  valid_list cs → encode_list prof t cs = Some lb → (heads_list cs <= length lb)%nat.
Proof. apply heads_list_bounded, Forall_forall. intros c _. apply heads_le. Qed.

(** From the start of a container to behind its end marker. *)
Lemma SkipToEnd_container b t cs lb rest n :
  t ∈ container_types → valid_list cs → encode_list (rImplicitProfileId b) t cs = Some lb →
  rContainerOpen b = false → within_max b n (Z.of_nat (length lb) + 1) →
  ∃ c, c ∈ tag_controls ∧
    TLVReader_SkipToEndOfContainer (core_at b t (lb ++ end_marker ++ rest) n) =
      ROk tt (elem_at b t c TLVElementType.EndOfContainer AnonymousTag 0 rest (n + Z.of_nat (length lb) + 1)).
Proof.
  intros Ht Hcs Hlb Hop (Hm1&Hm2&Hm3&Hm4). pose proof (heads_list_le _ _ _ _ Hcs Hlb).
  set (r := core_at b t (lb ++ end_marker ++ rest) n).
  assert (∃ f, length (input r) = (heads_list cs + f)%nat) as [f Hf].
  { exists (length (input r) - heads_list cs)%nat. unfold input, r, core_at. cbn. rewrite !length_app. lia. }
  unfold TLVReader_SkipToEndOfContainer. rewrite Hf.
  assert (rset_containerOpen false r = r) as -> by (unfold r, core_at, rset_containerOpen; cbn; by rewrite Hop).
  rewrite skip_loop_S. change (ElementType r) with (-1). cbn zeta. cbn [Z.eqb].
  change (TLVTypeIsContainer (-1)) with false. change (rContainerType r) with t. rewrite <- Nat.add_succ_r.
  destruct (pass_list cs (proj2 (Forall_forall _ _) (λ c _, pass_value c.2)) Hcs b t t lb (end_marker ++ rest) n 0 t (S f) r)
    as (r1&rct1&[Hra1 Hout]&(r1'&Hs1&Hr1)&E1); try done.
  { split; [by left|done]. } { solve_width. } { split_and!; lia || done. } { by exists r. }
  rewrite E1, (Hout eq_refl) in *.
  destruct (ReadElement_end r1' b t rest (n + Z.of_nat (length lb))) as (c&Hc&He); try done.
  { by eapply reads_as_container; [|left]. } { split_and!; lia || done. }
  exists c. split; [done|]. unfold skip_round, rbind. rewrite Hs1, He, skip_loop_S, ElementType_at by done. done.
Qed.

(** [Skip] from an element to behind it. *)
Lemma Skip_value b ct c tag v body rest n :
  valid_value v → c ∈ tag_controls → value_body (rImplicitProfileId b) v = Some body →
  rContainerOpen b = false → within_max b n (Z.of_nat (length body)) →
  TLVReader_Skip (on_value b ct c tag v (body ++ rest) n) =
    ROk tt (core_at b ct rest (n + Z.of_nat (length body))).
Proof.
  intros Hv Hc Hbody Hop Hmax. destruct (value_type_ok v Hv) as (Het&Hne&Hcont&_).
  unfold TLVReader_Skip. rewrite ElementType_value by done. rewrite (proj2 (Z.eqb_neq _ _) Hne), Hcont.
  destruct (is_container v) eqn:Hc'.
  - destruct v as [| | | | | | | |t cs]; try done. cbn in Hbody.
    destruct (encode_list _ t cs) as [lb|] eqn:Hlb; [|done]. apply (inj Some) in Hbody as <-.
    rewrite length_app, Nat2Z.inj_add in *. change (Z.of_nat (length end_marker)) with 1 in *.
    pose proof Hv as [Ht Hcs]%valid_container.
    destruct (SkipToEnd_container b t cs lb rest n) as (c'&_&He); try done.
    unfold rbind at 1, TLVReader_EnterContainer. rewrite ElementType_value, Hcont by done. cbn [is_container negb].
    unfold TLVReader_ExitContainer, rbind. rewrite <- app_assoc.
    replace (rset_containerOpen false _) with (core_at b t (lb ++ end_marker ++ rest) n)
      by (unfold core_at, rset_containerOpen; cbn; by rewrite Hop).
    rewrite He. unfold rmod. by rewrite Z.add_assoc.
  - destruct (SkipData_value b ct c tag v body rest n _ Hv Hc Hbody Hc' Hmax) as (r'&Hs&Hr').
    unfold rbind, rmod. by rewrite Hs, Hr'.
Qed.

(** ** The next element *)

(** [Skip] brings the reader between two elements. *)
Definition between (r b : TLVReader) (ct : Z) (rest : list Z) (n : Z) : Prop :=
  TLVReader_Skip r = ROk tt (core_at b ct rest n).

Lemma between_core b ct rest n : between (core_at b ct rest n) b ct rest n.
Proof. done. Qed.

Lemma EnsureData_value e b ct c tag v body rest n prof :
  valid_value v → c ∈ tag_controls → value_body prof v = Some body →
  TLVTypeIsString (value_type v) = true → TLVReader_GetLength (on_value b ct c tag v (body ++ rest) n) ≠ 0 →
  TLVReader_EnsureData e (on_value b ct c tag v (body ++ rest) n) = ROk tt (on_value b ct c tag v (body ++ rest) n).
Proof.
  intros Hv Hc Hbody Hstr Hlen. destruct body as [|x body]; [|by apply (EnsureData_bytes _ _ x (body ++ rest))].
  destruct Hlen. unfold TLVReader_GetLength. rewrite ElementType_value by done.
  change (TLVTypeHasLength (value_type v)) with (TLVTypeIsString (value_type v)). rewrite Hstr.
  change (rElemLenOrVal _) with (value_read v). by rewrite (data_length v prof []).
Qed.

Lemma Next_value r b ct tag v bs rest n :
  valid_value v → in_u64 tag → encode_value (rImplicitProfileId b) v ct tag = Some bs →
  between r b ct (bs ++ rest) n → within_max b n (Z.of_nat (length bs)) →
  ∃ c body k, c ∈ tag_controls ∧ value_body (rImplicitProfileId b) v = Some body ∧
    0 < k ∧ Z.of_nat (length bs) = k + Z.of_nat (length body) ∧
    TLVReader_Next r = ROk tt (on_value b ct c (norm_tag tag) v (body ++ rest) (n + k)).
Proof.
  intros Hv Htag Henc Hbt Hmax. destruct (encode_split _ _ _ _ _ Henc) as (hd&body&Hhd&Hbody&->).
  destruct (value_type_ok v Hv) as (Het&Hne&_&_). pose proof (head_of_pos _ _ _ _ _ _ Htag Het Hhd).
  destruct (ReadElement_value (core_at b ct ((hd ++ body) ++ rest) n) b v ct ct tag hd body rest n)
    as (c&Hc&He); try done.
  { by left. } { by rewrite <- app_assoc. }
  exists c, body, (Z.of_nat (length hd)). rewrite length_app. split_and!; try done; [lia|lia|].
  unfold TLVReader_Next, rbind. rewrite Hbt, He, ElementType_value by done. rewrite (proj2 (Z.eqb_neq _ _) Hne).
  destruct (TLVTypeIsString (value_type v)) eqn:Hstr; [|done]. cbn [andb].
  destruct (Z.eqb_spec (TLVReader_GetLength (on_value b ct c (norm_tag tag) v (body ++ rest)
    (n + Z.of_nat (length hd)))) 0) as [|Hnz]; [done|]. cbn [negb]. by eapply EnsureData_value.
Qed.

Lemma Next_end r b ct rest n :
  ct ∈ container_types → between r b ct (end_marker ++ rest) n → within_max b n 1 →
  ∃ c, c ∈ tag_controls ∧
    TLVReader_Next r =
      RErr CHIP_END_OF_TLV (elem_at b ct c TLVElementType.EndOfContainer AnonymousTag 0 rest (n + 1)).
Proof.
  intros Ht Hbt Hmax.
  destruct (ReadElement_end (core_at b ct (end_marker ++ rest) n) b ct rest n) as (c&Hc&He); try done.
  { by eapply reads_as_container; [|left]. }
  exists c. split; [done|]. unfold TLVReader_Next, rbind. by rewrite Hbt, He, ElementType_at.
Qed.

Lemma Next_end_input r b ct n :
  rBackingStore b = None → between r b ct [] n →
  TLVReader_Next r = RErr CHIP_END_OF_TLV (core_at b ct [] n).
Proof.
  intros Hbs Hbt. unfold TLVReader_Next, rbind. rewrite Hbt. unfold TLVReader_ReadElement, rbind, TLVReader_EnsureData.
  cbn [rReadPoint core_at]. rewrite bool_decide_true by done. cbn [rBackingStore core_at]. rewrite Hbs.
  by destruct (_ =? _).
Qed.

End ReadBack.
