(* ===== verification/TlvCopy.v ===== *)
(** * TLV: copying elements

    [TLVWriter::CopyElement] and [CopyContainer] take an element from a reader over one
    buffer, as their documentation requires, and write it again under a tag. *)

From S2P Require Import Prelude.
From S2P Require Import ChipError.
From S2P Require Import Endian.
From S2P Require Import TlvTypes.
From S2P Require Import TlvWriter.
From S2P Require Import TlvReader.
From S2P Require Import TlvHead.
From S2P Require Import TlvElement.
From S2P Require Import TlvRead.

(** ** Results

    The reader and the writer after the call. *)
Inductive copy_res :=
| CDone (e : chip_error) (r : TLVReader) (w : TLVWriter)
| CUndefined
| CFuel.

(** A reading step in front of [k]. *)
Definition cread {A} (res : rres A) (w : TLVWriter) (k : A → TLVReader → copy_res) : copy_res :=
  match res with
  | ROk a r => k a r
  | RErr e r => CDone e r w
  | RUndefined => CUndefined
  | RFuel => CFuel
  end.

Definition kTLVCopyChunkSize : Z := 16.

(** The loop of [CopyElement]: [h] is the helper that reads the data, [r] the reader that
    has skipped it. *)
Fixpoint copy_loop (fuel : nat) (copyDataLen : Z) (h r : TLVReader) (w : TLVWriter) : copy_res :=
  if 0 <? copyDataLen then
    match fuel with
    | O => CFuel
    | S fuel =>
        let chunkSize := if kTLVCopyChunkSize <? copyDataLen then kTLVCopyChunkSize else copyDataLen in
        match TLVReader_ReadData chunkSize h with
        | ROk chunk h =>
            match TLVWriter_WriteData chunk w with
            | (CHIP_NO_ERROR, w) => copy_loop fuel (u32 (copyDataLen - chunkSize)) h r w
            | (e, w) => CDone e r w
            end
        | RErr e _ => CDone e r w
        | RUndefined => CUndefined
        | RFuel => CFuel
        end
    end
  else CDone CHIP_NO_ERROR r w.

(** [CopyElement(tag, reader)]. *)
Definition TLVWriter_CopyElement_tag (tag : Z) (r : TLVReader) (w : TLVWriter) : copy_res :=
  let elemType := ElementType r in
  let elemLenOrVal := rElemLenOrVal r in
  if (elemType =? TLVElementType.NotSpecified) || (elemType =? TLVElementType.EndOfContainer)
  then CDone CHIP_ERROR_INCORRECT_STATE r w
  else
    cread (TLVReader_Skip r) w (λ _ r',
      let copyDataLen := u32 (rLenRead r' - rLenRead r) in
      match TLVWriter_WriteElementHead elemType tag elemLenOrVal w with
      | (CHIP_NO_ERROR, w) => copy_loop (Z.to_nat copyDataLen) copyDataLen r r' w
      | (e, w) => CDone e r' w
      end).

(** [CopyElement(reader)]. *)
Definition TLVWriter_CopyElement (r : TLVReader) (w : TLVWriter) : copy_res :=
  TLVWriter_CopyElement_tag (TLVReader_GetTag r) r w.

(** [CopyContainer(tag, container)]: the bytes between the read points. *)
Definition TLVWriter_CopyContainer_tag (tag : Z) (r : TLVReader) (w : TLVWriter) : copy_res :=
  if negb (IsInitialized w) then CDone CHIP_ERROR_INCORRECT_STATE r w
  else
    match rBackingStore r with
    | Some _ => CDone CHIP_ERROR_INVALID_ARGUMENT r w
    | None =>
        let containerType := TLVReader_GetType r in
        cread (TLVReader_EnterContainer r) w (λ outer r1,
        cread (TLVReader_ExitContainer outer r1) w (λ _ r2,
          match rReadPoint r1, rReadPoint r2 with
          | PBytes start, PBytes rest =>
              let '(e, w) := TLVWriter_PutPreEncodedContainer tag containerType
                               (take (length start - length rest) start) w in
              CDone e r2 w
          | _, _ => CUndefined
          end))
    end.

Definition TLVWriter_CopyContainer (r : TLVReader) (w : TLVWriter) : copy_res :=
  TLVWriter_CopyContainer_tag (TLVReader_GetTag r) r w.

(** [CopyContainer(tag, encodedContainer, encodedContainerLen)]. *)
Definition TLVWriter_CopyContainer_encoded (tag : Z) (encodedContainer : list Z) (w : TLVWriter) : copy_res :=
  if negb (IsInitialized w) then CDone CHIP_ERROR_INCORRECT_STATE (TLVReader_Init []) w
  else
    cread (TLVReader_Next (TLVReader_Init encodedContainer)) w (λ _ r,
      match rReadPoint r with
      | PBytes p =>
          let '(e, w) := TLVWriter_PutPreEncodedContainer tag (TLVReader_GetType r)
                           (take (Z.to_nat (TLVReader_GetRemainingLength r)) p) w in
          CDone e r w
      | _ => CUndefined
      end).

(** ** Copying data *)

Lemma copy_loop_copies fuel d rest h r w :
  (length d <= fuel)%nat → rReadPoint h = PBytes (d ++ rest) → rBackingStore h = None →
  0 <= rLenRead h → rLenRead h + Z.of_nat (length d) < 2 ^ 32 →
  writer_ready w → writer_room w (Z.of_nat (length d)) →
  copy_loop fuel (Z.of_nat (length d)) h r w = CDone CHIP_NO_ERROR r (wappend d w).
Proof.
  revert d h w. induction fuel as [|fuel IH]; intros d h w Hf Hrp Hbs Hl0 Hl Hw Hroom.
  { destruct d; [|cbn in Hf; lia]. cbn. by rewrite wappend_nil. }
  cbn [copy_loop]. destruct (Z.ltb_spec 0 (Z.of_nat (length d))) as [Hpos|Hz].
  2: { destruct d; [|cbn in Hz; lia]. by rewrite wappend_nil. }
  set (c := if kTLVCopyChunkSize <? Z.of_nat (length d) then kTLVCopyChunkSize else Z.of_nat (length d)).
  assert (0 < c <= Z.of_nat (length d)) as Hc by (unfold c, kTLVCopyChunkSize in *; case_match; zbool; lia).
  set (d1 := take (Z.to_nat c) d). set (d2 := drop (Z.to_nat c) d).
  assert (d = d1 ++ d2) as Hd by (symmetry; apply take_drop).
  assert (Z.of_nat (length d1) = c) as Hl1 by (unfold d1; rewrite length_take; lia).
  assert (length d = (length d1 + length d2)%nat) as Hld by (by rewrite Hd, length_app at 1).
  assert (TLVReader_ReadData c h = ROk d1 (rset_input (rBackingStore h) (PBytes (d2 ++ rest)) (u32 (rLenRead h + c)) h)) as ->.
  { rewrite <- Hl1. apply ReadData_bytes; [by rewrite Hrp, Hd at 1; rewrite app_assoc|solve_width]. }
  destruct Hroom as [Hr1 Hr2].
  assert (writer_room w (Z.of_nat (length d1))) as Hrm1 by (split; lia).
  rewrite WriteData_fits by done. destruct (wappend_ready d1 w Hw Hrm1) as (Hw1&Hrem&Hlen).
  pose proof Hw as (_&_&_&_&Hmx).
  replace (u32 (Z.of_nat (length d) - c)) with (Z.of_nat (length d2))
    by (rewrite u32_id; [lia|destruct Hw as (_&_&?&_); solve_width]).
  rewrite IH; cbn; rewrite ?u32_id by (pose proof Hw as (_&_&?&?&_); solve_width); try done; try lia.
  - by rewrite wappend_app, <- Hd.
  - split; rewrite ?wMaxLen_wappend; lia.
Qed.

(** ** Copying elements *)

Section Copy.
Context `{TlvConfig}.

Lemma head_of_read ct prof v tag :
  valid_value v → head_of ct prof (value_type v) tag (value_read v) = head_of ct prof (value_type v) tag (value_field v).
Proof.
  intros Hv. destruct (value_type_ok v Hv) as (Het&_). unfold head_of. destruct (stage_tag _ _ _ _); [|done].
  cbn [fmap option_fmap option_map]. rewrite !stage_value_eq by done. unfold value_read, field_val. by rewrite le_encode_mod.
Qed.

(** C12: A reader over one buffer stands on an element whose type and length field are those that the
    writer would choose, the shortest ones, with everything inside it. [CopyElement] to a writer
    with the same implicit profile and room for the result writes it under the given tag: the
    bytes are those that putting the value itself would have written, and the reader is left
    behind the element. (An element with a longer field than needed is copied with that field.) *)
Theorem CopyElement_copies b ct c tag tag' v body rest n w bs :
  valid_value v → c ∈ tag_controls → in_u64 tag' →
  value_body (rImplicitProfileId b) v = Some body → rBackingStore b = None → rContainerOpen b = false →
  within_max b n (Z.of_nat (length body)) →
  writer_ready w → wImplicitProfileId w = rImplicitProfileId b →
  encode_value (wImplicitProfileId w) v (wContainerType w) tag' = Some bs →
  writer_room w (Z.of_nat (length bs)) →
  let r := on_value b ct c tag v (body ++ rest) n in
  TLVWriter_CopyElement_tag tag' r w =
    CDone CHIP_NO_ERROR (core_at b ct rest (n + Z.of_nat (length body))) (wappend bs w) ∧
  put_value v tag' w = (CHIP_NO_ERROR, wappend bs w).
Proof.
  intros Hv Hc Htag Hbody Hbs Hop Hmax Hw Hprof Henc Hroom r.
  split; [|by apply put_value_writes].
  destruct (encode_split _ _ _ _ _ Henc) as (hd&body'&Hhd&Hbody'&->).
  rewrite Hprof in Hbody'. rewrite Hbody in Hbody'. injection Hbody' as <-.
  destruct (value_type_ok v Hv) as (Het&Hne&_). unfold TLVWriter_CopyElement_tag, r.
  rewrite ElementType_value by done. rewrite (proj2 (Z.eqb_neq _ TLVElementType.NotSpecified))
    by (unfold is_element, TLVElementType.NotSpecified in *; lia).
  rewrite (proj2 (Z.eqb_neq _ _) Hne). cbn [orb]. rewrite Skip_value by done. cbn [cread].
  pose proof Hmax as (Hm1&Hm2&Hm3&Hm4).
  assert (u32 (rLenRead (core_at b ct rest (n + Z.of_nat (length body))) - rLenRead (on_value b ct c tag v (body ++ rest) n))
    = Z.of_nat (length body)) as -> by (cbn; rewrite u32_id; [lia|solve_width]).
  rewrite length_app, Nat2Z.inj_add in Hroom. destruct Hroom as [Hr1 Hr2].
  change (rElemLenOrVal _) with (value_read v).
  assert (writer_room w (Z.of_nat (length hd))) as Hrm by (split; lia).
  rewrite (WriteElementHead_fits _ _ _ hd) by (done || by rewrite head_of_read).
  destruct (wappend_ready hd w Hw Hrm) as (Hw'&Hrem&Hlen). rewrite Nat2Z.id.
  rewrite (copy_loop_copies _ body rest); try done.
  - by rewrite wappend_app.
  - cbn. lia.
  - cbn. solve_width.
  - split; rewrite ?wMaxLen_wappend; lia.
Qed.

End Copy.

(** An array of two numbers, copied from under an anonymous tag to a context tag. *)
Definition copy_value : tlv_value := VContainer kTLVType_Array [(AnonymousTag, VUInt 5); (AnonymousTag, VUInt 300)].
Definition copy_reader : TLVReader := TLVReader_Init [0x16; 0x04; 5; 0x05; 0x2C; 0x01; 0x18; 0x14].
Definition copy_writer : TLVWriter := (TLVWriter_StartContainer AnonymousTag kTLVType_Structure 0 (TLVWriter_Init 20)).2.

Lemma CopyElement_copies_witness :
  TLVWriter_CopyElement_tag (ContextTag 9)
    (on_value copy_reader kTLVType_NotSpecified 0 AnonymousTag copy_value [0x04; 5; 0x05; 0x2C; 0x01; 0x18; 0x14] 1)
    copy_writer =
  CDone CHIP_NO_ERROR (core_at copy_reader kTLVType_NotSpecified [0x14] 7)
    (wappend [0x36; 9; 0x04; 5; 0x05; 0x2C; 0x01; 0x18] copy_writer).
Proof.
  apply (@CopyElement_copies default_config copy_reader kTLVType_NotSpecified 0 AnonymousTag (ContextTag 9) copy_value
    [0x04; 5; 0x05; 0x2C; 0x01; 0x18] [0x14] 1 copy_writer [0x36; 9; 0x04; 5; 0x05; 0x2C; 0x01; 0x18]).
  - apply valid_container. split; [unfold container_types; set_solver|].
    repeat constructor; vm_compute; congruence.
  - unfold tag_controls. set_solver.
  - vm_compute. split; congruence.
  - vm_compute. reflexivity.
  - reflexivity.
  - reflexivity.
  - vm_compute. repeat split; congruence.
  - vm_compute. repeat split; congruence.
  - reflexivity.
  - vm_compute. reflexivity.
  - vm_compute. repeat split; congruence.
Defined.
