(* ===== verification/TlvSafety.v ===== *)
(** * TLV: the writer and its buffer

    Whatever a client calls, the writers stay in their buffer. Without reservations and
    container writers, a container that was started can be ended and a failed put of a
    scalar leaves no trace. *)

From S2P Require Import Prelude.
From S2P Require Import ChipError.
From S2P Require Import Endian.
From S2P Require Import TlvTypes.
From S2P Require Import TlvWriter.
From S2P Require Import TlvReader.
From S2P Require Import TlvHead.
From S2P Require Import TlvElement.
From S2P Require Import TlvCopy.

#[local] Open Scope tlv_scope.

(** ** Sizes of heads *)

Lemma stage_tag_length ct prof et tag hd : stage_tag ct prof et tag = Some hd → (length hd <= 9)%nat.
Proof.
  unfold stage_tag. cbn zeta. intros Hst. repeat case_match; simplify_eq;
    rewrite ?length_app; unfold Write8, Write16, Write32; rewrite ?le_encode_length; lia.
Qed.

Lemma stage_value_max et v : (length (stage_value et v) <= 8)%nat.
Proof.
  unfold stage_value. cbn zeta. repeat case_match; unfold Write8, Write16, Write32, Write64;
    rewrite ?le_encode_length; cbn; lia.
Qed.

(** ** Calls *)

Section Calls.
Context `{TlvConfig}.

(** The longest data that is passed to a call. *)
Context (L : Z).

(** The calls that add elements to the current container. *)
Inductive put_call : wop → Prop :=
| put_bool tag v : put_call (TLVWriter_PutBoolean tag v)
| put_u8 tag v s : put_call (TLVWriter_Put_u8_sized tag v s)
| put_u16 tag v s : put_call (TLVWriter_Put_u16_sized tag v s)
| put_u32 tag v s : put_call (TLVWriter_Put_u32_sized tag v s)
| put_u64 tag v s : put_call (TLVWriter_Put_u64_sized tag v s)
| put_i8 tag v s : put_call (TLVWriter_Put_i8_sized tag v s)
| put_i16 tag v s : put_call (TLVWriter_Put_i16_sized tag v s)
| put_i32 tag v s : put_call (TLVWriter_Put_i32_sized tag v s)
| put_i64 tag v s : put_call (TLVWriter_Put_i64_sized tag v s)
| put_float tag v : put_call (TLVWriter_Put_float tag v)
| put_double tag v : put_call (TLVWriter_Put_double tag v)
| put_bytes tag data : Z.of_nat (length data) <= L → put_call (TLVWriter_Put_ByteSpan tag data)
| put_string tag data : Z.of_nat (length data) <= L → put_call (TLVWriter_PutString tag data)
| put_format alloc tag text : Z.of_nat (length text) <= L → put_call (TLVWriter_VPutStringF alloc tag text)
| put_null tag : put_call (TLVWriter_PutNull tag)
| put_preencoded tag t data : Z.of_nat (length data) <= L → put_call (TLVWriter_PutPreEncodedContainer tag t data).

(** All calls on one writer, in any order, whether they succeed or not; a copy takes its
    element from any reader. *)
Inductive writer_call : TLVWriter → TLVWriter → Prop :=
| call_put op w : put_call op → writer_call w (op w).2
| call_start tag t outer w : writer_call w (TLVWriter_StartContainer tag t outer w).2
| call_end outer w : writer_call w (TLVWriter_EndContainer outer w).2
| call_reserve n w : 0 <= n → writer_call w (TLVWriter_ReserveBuffer n w).2
| call_unreserve n w : 0 <= n → writer_call w (TLVWriter_UnreserveBuffer n w).2
| call_finalize w : writer_call w (TLVWriter_Finalize w).2
| call_profile p w : writer_call w (wset_profile p w)
| call_copy tag r w e r' w' : TLVWriter_CopyElement_tag tag r w = CDone e r' w' → writer_call w w'
| call_copy_container tag r w e r' w' : TLVWriter_CopyContainer_tag tag r w = CDone e r' w' → writer_call w w'
| call_copy_encoded tag data w e r' w' : TLVWriter_CopyContainer_encoded tag data w = CDone e r' w' → writer_call w w'.

(** ** What every operation preserves

    [closed P]: the property [P] of writers is kept by writing data; the operations
    that only write then keep it as well. *)

Section Kept.
Context (P : TLVWriter → Prop).
Context (LD : Z) (Pdata : ∀ data w, Z.of_nat (length data) <= LD → P w → P (TLVWriter_WriteData data w).2).

Definition keeps (op : wop) : Prop := ∀ w, P w → P (op w).2.

Lemma keeps_ret e : keeps (wret e).
Proof. by intros w Hw. Qed.

Lemma keeps_verify c e op : keeps op → keeps (wverify c e op).
Proof. intros Hop w Hw. unfold wverify. destruct (c w); [by apply Hop|done]. Qed.

Lemma keeps_seq o k : keeps o → keeps k → keeps (o ;;; k).
Proof.
  intros Ho Hk w Hw. unfold wseq. specialize (Ho w Hw). destruct (o w) as [[] w']; try done. by apply Hk.
Qed.

Lemma keeps_if (c : bool) o k : keeps o → keeps k → keeps (if c then o else k).
Proof. by destruct c. Qed.

Lemma keeps_data data : Z.of_nat (length data) <= LD → keeps (TLVWriter_WriteData data).
Proof. intros Hd w Hw. by apply Pdata. Qed.

Context (Hhead : 17 <= LD) (Hdata : L <= LD).

Lemma keeps_head et tag v : keeps (TLVWriter_WriteElementHead et tag v).
Proof.
  apply keeps_verify, keeps_verify. intros w Hw. destruct (stage_tag _ _ _ _) as [hd|] eqn:Hst; [|done].
  apply Pdata; [|done]. rewrite length_app. pose proof (stage_tag_length _ _ _ _ _ Hst).
  pose proof (stage_value_max et v). lia.
Qed.

Lemma keeps_with_data type tag data : Z.of_nat (length data) <= L → keeps (TLVWriter_WriteElementWithData type tag data).
Proof.
  intros Hd. apply keeps_verify. destruct (ctrue _); [apply keeps_ret|].
  apply keeps_seq; [apply keeps_head|apply keeps_data; lia].
Qed.

Lemma keeps_put op : put_call op → keeps op.
Proof.
  destruct 1 as [tag v|tag v s|tag v s|tag v s|tag v s|tag v s|tag v s|tag v s|tag v s|tag v|tag v|tag data Hd
    |tag data Hd|alloc tag text Hd|tag|tag t data Hd].
  1, 10, 11, 15: unfold TLVWriter_PutBoolean, TLVWriter_Put_float, TLVWriter_Put_double, TLVWriter_PutNull;
    apply keeps_head.
  1-8: destruct s;
    unfold TLVWriter_Put_u8_sized, TLVWriter_Put_u16_sized, TLVWriter_Put_u32_sized, TLVWriter_Put_u64_sized,
      TLVWriter_Put_i8_sized, TLVWriter_Put_i16_sized, TLVWriter_Put_i32_sized, TLVWriter_Put_i64_sized,
      TLVWriter_Put_u8, TLVWriter_Put_u16, TLVWriter_Put_u32, TLVWriter_Put_u64,
      TLVWriter_Put_i8, TLVWriter_Put_i16, TLVWriter_Put_i32, TLVWriter_Put_i64; apply keeps_head.
  - unfold TLVWriter_Put_ByteSpan, TLVWriter_PutBytes. destruct (_ <=? _); [by apply keeps_with_data|apply keeps_ret].
  - unfold TLVWriter_PutString, TLVWriter_PutString_len. destruct (_ <=? _); [|apply keeps_ret].
    destruct (_ && _); [apply keeps_ret|]. destruct (_ && _); [apply keeps_ret|by apply keeps_with_data].
  - unfold TLVWriter_VPutStringF. cbn zeta. destruct (_ <=? _); [|apply keeps_ret].
    apply keeps_seq; [apply keeps_head|]. apply keeps_verify. destruct alloc; [apply keeps_data; lia|apply keeps_ret].
  - unfold TLVWriter_PutPreEncodedContainer. destruct (negb _); [apply keeps_ret|].
    apply keeps_seq; [apply keeps_head|apply keeps_data; lia].
Qed.

End Kept.
End Calls.

(** ** The buffer *)

(** The writer accounts for a buffer of [cap] bytes, of which [base] were written before it was
    opened. *)
Definition accounts (base cap : Z) (w : TLVWriter) : Prop :=
  0 <= base ∧ base + wLenWritten w = Z.of_nat (length (wOut w)) ∧ 0 <= wLenWritten w ∧ 0 <= wRemainingLen w ∧
  0 <= wReservedSize w ∧ base + wLenWritten w + wRemainingLen w + wReservedSize w = cap ∧ cap <= UINT32_MAX.

Section Accounts.
Context (base cap : Z).
Abbreviation accounts := (accounts base cap).

Lemma accounts_append data w :
  accounts w → Z.of_nat (length data) <= wRemainingLen w → accounts (wappend data w).
Proof.
  unfold TlvSafety.accounts, UINT32_MAX. intros (Hb&Hl&Hw&Hr&Hs&Hc&Hm) Hd. cbn. rewrite length_app, Nat2Z.inj_add.
  rewrite !u32_id by solve_width. lia.
Qed.

Lemma accounts_loop fuel data w : accounts w → accounts (write_loop fuel data w).2.
Proof.
  revert data w. induction fuel as [|fuel IH]; intros data w Hw; destruct data as [|b data]; try done.
  cbn [write_loop]. destruct (Z.eqb_spec (wRemainingLen w) 0); [done|]. apply IH.
  assert (0 <= wRemainingLen w) by apply Hw.
  apply accounts_append; [done|]. rewrite length_take. case_match; zbool; lia.
Qed.

Lemma accounts_data data w : accounts w → accounts (TLVWriter_WriteData data w).2.
Proof. apply (keeps_verify accounts), keeps_verify. intros w'. apply accounts_loop. Qed.

Lemma accounts_data_le LD data w : Z.of_nat (length data) <= LD → accounts w → accounts (TLVWriter_WriteData data w).2.
Proof. intros _. apply accounts_data. Qed.

Lemma accounts_frame w w' :
  wOut w' = wOut w → wLenWritten w' = wLenWritten w → wRemainingLen w' = wRemainingLen w →
  wReservedSize w' = wReservedSize w → accounts w → accounts w'.
Proof. unfold TlvSafety.accounts. by intros -> -> -> ->. Qed.

Lemma accounts_maxLen m w : accounts w → accounts (wset_maxLen m w).
Proof. by apply accounts_frame. Qed.

Lemma accounts_head et tag v w : accounts w → accounts (TLVWriter_WriteElementHead et tag v w).2.
Proof. by apply (keeps_head accounts 17 (accounts_data_le 17)). Qed.

Lemma accounts_container_head tag t w : accounts w → accounts (write_container_head tag t w).2.
Proof.
  intros Hw. unfold write_container_head. destruct (_ && _); [done|].
  set (w1 := if wCloseContainerReserved w then _ else _).
  assert (accounts w1) as Hw1 by (subst w1; destruct (wCloseContainerReserved w); [by apply accounts_maxLen|done]).
  pose proof (accounts_head t tag 0 w1 Hw1) as Hw2.
  destruct (TLVWriter_WriteElementHead t tag 0 w1) as [[] w2]; cbn in *; try done;
    destruct (wCloseContainerReserved w2); try done; by apply accounts_maxLen.
Qed.

Lemma accounts_preencoded tag t data w : accounts w → accounts (TLVWriter_PutPreEncodedContainer tag t data w).2.
Proof.
  unfold TLVWriter_PutPreEncodedContainer. destruct (negb _); [done|].
  apply (keeps_seq accounts); [intros w'; apply accounts_head|intros w'; apply accounts_data].
Qed.

Lemma accounts_copy_loop fuel n h r w e r' w' : copy_loop fuel n h r w = CDone e r' w' → accounts w → accounts w'.
Proof.
  revert n h w. induction fuel as [|fuel IH]; intros n h w E Hw; cbn [copy_loop] in E; (destruct (0 <? n); [|by simplify_eq]); [done|].
  set (c := if _ <? n then _ else _) in E. destruct (TLVReader_ReadData c h) as [chunk h'| | |]; simplify_eq/=; [|done].
  pose proof (accounts_data chunk w Hw) as Hd. destruct (TLVWriter_WriteData chunk w) as [[] w1]; simplify_eq/=; try done. by eapply IH.
Qed.

Lemma accounts_copy tag r w e r' w' : TLVWriter_CopyElement_tag tag r w = CDone e r' w' → accounts w → accounts w'.
Proof.
  unfold TLVWriter_CopyElement_tag, cread. intros E Hw. destruct (_ || _); [by simplify_eq|].
  destruct (TLVReader_Skip r) as [[] r1| | |]; simplify_eq/=; [|done].
  pose proof (accounts_head (ElementType r) tag (rElemLenOrVal r) w Hw) as Hh.
  destruct (TLVWriter_WriteElementHead _ _ _ w) as [[] w1]; simplify_eq/=; try done. by eapply accounts_copy_loop.
Qed.

Lemma accounts_copy_container tag r w e r' w' : TLVWriter_CopyContainer_tag tag r w = CDone e r' w' → accounts w → accounts w'.
Proof.
  unfold TLVWriter_CopyContainer_tag, cread. intros E Hw. destruct (negb _); [by simplify_eq|].
  destruct (rBackingStore r); [by simplify_eq|]. destruct (TLVReader_EnterContainer r) as [outer r1| | |]; simplify_eq/=; [|done].
  destruct (TLVReader_ExitContainer outer r1) as [[] r2| | |]; simplify_eq/=; [|done].
  destruct (rReadPoint r1) as [start| |]; [|done..]. destruct (rReadPoint r2) as [rest| |]; [|done..].
  pose proof (accounts_preencoded tag (TLVReader_GetType r) (take (length start - length rest) start) w Hw) as Hp.
  destruct (TLVWriter_PutPreEncodedContainer _ _ _ w). by simplify_eq/=.
Qed.

Lemma accounts_copy_encoded tag data w e r' w' : TLVWriter_CopyContainer_encoded tag data w = CDone e r' w' → accounts w → accounts w'.
Proof.
  unfold TLVWriter_CopyContainer_encoded, cread. intros E Hw. destruct (negb _); [by simplify_eq|].
  destruct (TLVReader_Next _) as [[] r1| | |]; simplify_eq/=; [|done]. destruct (rReadPoint r1) as [p| |]; [|done..].
  pose proof (accounts_preencoded tag (TLVReader_GetType r1) (take (Z.to_nat (TLVReader_GetRemainingLength r1)) p) w Hw) as Hp.
  destruct (TLVWriter_PutPreEncodedContainer _ _ _ w). by simplify_eq/=.
Qed.

Lemma accounts_call `{TlvConfig} L w w' : writer_call L w w' → accounts w → accounts w'.
Proof.
  destruct 1 as [op w Hop|tag t outer w|outer w|n w Hn|n w Hn|w|p w|tag r w e r' w' E|tag r w e r' w' E|tag data w e r' w' E]; intros Hw.
  - apply (keeps_put L _ (Z.max L 17) (accounts_data_le _)); [lia|lia|done|done].
  - unfold TLVWriter_StartContainer. destruct (negb _); [done|]. destruct (negb _); [done|].
    pose proof (accounts_container_head tag t w Hw) as Hh.
    destruct (write_container_head tag t w) as [[] w1]; done.
  - revert w Hw. apply (keeps_verify accounts), keeps_verify. intros w Hw.
    apply accounts_head. destruct (wCloseContainerReserved _); done.
  - unfold TLVWriter_ReserveBuffer, wverify. repeat (case_match; try done). zbool.
    unfold TlvSafety.accounts, UINT32_MAX in *. cbn. rewrite !u32_id by solve_width. lia.
  - unfold TLVWriter_UnreserveBuffer, wverify. repeat (case_match; try done). zbool.
    unfold TlvSafety.accounts, UINT32_MAX in *. cbn. rewrite !u32_id by solve_width. lia.
  - unfold TLVWriter_Finalize, wverify. repeat (case_match; try done).
  - done.
  - by eapply accounts_copy.
  - by eapply accounts_copy_container.
  - by eapply accounts_copy_encoded.
Qed.

End Accounts.

(** ** Container writers

    [OpenContainer] gives the rest of the buffer to a container writer, and the parent is not
    used until [CloseContainer]: the writers form a stack, the innermost first. *)

Section Writers.
Context `{TlvConfig} (L : Z).

(** [CloseContainer] accepts the writer: the checks in front of it hold. *)
Definition closes (cw w : TLVWriter) : bool :=
  IsInitialized w && TLVTypeIsContainer (wContainerType cw) && negb (wContainerOpen cw).

(** A call on the innermost writer, or a container writer opened or closed. The object that becomes
    the container writer is new or was closed before, so nothing is reserved in it. *)
Inductive writers_call : list TLVWriter → list TLVWriter → Prop :=
| call_inner w w' ws : writer_call L w w' → writers_call (w :: ws) (w' :: ws)
| call_open tag t cw cw' w w' ws :
    wReservedSize cw = 0 → TLVWriter_OpenContainer tag t cw w = (CHIP_NO_ERROR, cw', w') → writers_call (w :: ws) (cw' :: w' :: ws)
| call_open_failed tag t cw cw' w e w' ws :
    TLVWriter_OpenContainer tag t cw w = (e, cw', w') → e ≠ CHIP_NO_ERROR → writers_call (w :: ws) (w' :: ws)
| call_close cw w e cw' w' ws :
    closes cw w = true → TLVWriter_CloseContainer cw w = (e, cw', w') → writers_call (cw :: w :: ws) (w' :: ws).

(** What the writers of the stack have written and reserved. *)
Fixpoint total_written (ws : list TLVWriter) : Z := match ws with [] => 0 | w :: ws => wLenWritten w + total_written ws end.
Fixpoint total_reserved (ws : list TLVWriter) : Z := match ws with [] => 0 | w :: ws => wReservedSize w + total_reserved ws end.

(** The stack accounts for a buffer of [cap] bytes. *)
Definition stack_accounts (cap : Z) (ws : list TLVWriter) : Prop :=
  match ws with
  | [] => False
  | w :: ws =>
      Forall (λ w, 0 <= wLenWritten w ∧ 0 <= wReservedSize w) ws ∧ cap <= UINT32_MAX ∧
      ∃ c, accounts (total_written ws) c w ∧ c + total_reserved ws <= cap
  end.

Lemma totals_nonneg ws : Forall (λ w, 0 <= wLenWritten w ∧ 0 <= wReservedSize w) ws → 0 <= total_written ws ∧ 0 <= total_reserved ws.
Proof. induction 1 as [|w ws [? ?] _ [? ?]]; cbn; lia. Qed.

Lemma stack_open cap tag t cw cw' w w' ws :
  wReservedSize cw = 0 → TLVWriter_OpenContainer tag t cw w = (CHIP_NO_ERROR, cw', w') →
  stack_accounts cap (w :: ws) → stack_accounts cap (cw' :: w' :: ws).
Proof.
  unfold TLVWriter_OpenContainer. intros Hcw E (Hws&Hcap&c&Ha&Hc). repeat (case_match; simplify_eq/=).
  match goal with Hh : write_container_head tag t w = (_, ?w2) |- _ =>
    pose proof (accounts_container_head _ _ tag t w Ha) as Hh'; rewrite Hh in Hh'; cbn in Hh'; rename w2 into w1 end.
  destruct Hh' as (Hb&Hl&Hw&Hr&Hs&Hsum&Hm). split; [by constructor|]. split; [done|].
  exists (c - wReservedSize w1). unfold accounts. cbn. rewrite Hcw. split_and!; lia.
Qed.

Lemma stack_close cap cw w e cw' w' ws :
  closes cw w = true → TLVWriter_CloseContainer cw w = (e, cw', w') →
  stack_accounts cap (cw :: w :: ws) → stack_accounts cap (w' :: ws).
Proof.
  unfold closes, TLVWriter_CloseContainer. intros Hcl E (Hws&Hcap&c&Ha&Hc). zbool.
  repeat match goal with HH : _ = true |- _ => rewrite HH in E | HH : _ = false |- _ => rewrite HH in E end. cbn [negb] in E.
  apply Forall_cons in Hws as [[Hw1 Hw2] Hws]. pose proof (totals_nonneg ws Hws) as [Hn1 Hn2].
  destruct Ha as (Hb&Hl&Hw&Hr&Hs&Hsum&Hm). cbn in *.
  set (w1 := mkWriter _ _ _ _ _ _ _ _ _ _) in E.
  assert (accounts (total_written ws) (c - wReservedSize cw + wReservedSize w) w1) as Ha1.
  { unfold accounts, UINT32_MAX in *. cbn. rewrite u32_id by solve_width. lia. }
  pose proof (accounts_head _ _ TLVElementType.EndOfContainer AnonymousTag 0 w1 Ha1) as Ha2.
  destruct (TLVWriter_WriteElementHead _ _ _ w1) as [e2 w2]. simplify_eq. cbn in Ha2.
  split; [done|]. split; [done|]. eexists. split; [exact Ha2|]. lia.
Qed.

Lemma stack_call cap ws ws' : writers_call ws ws' → stack_accounts cap ws → stack_accounts cap ws'.
Proof.
  destruct 1 as [w w' ws Hc|tag t cw cw' w w' ws Hcw E|tag t cw cw' w e w' ws E He|cw w e cw' w' ws Hcl E]; intros Hs.
  - destruct Hs as (Hws&Hcap&c&Ha&Hle). split; [done|]. split; [done|]. exists c. split; [by eapply accounts_call|done].
  - by eapply stack_open.
  - destruct Hs as (Hws&Hcap&c&Ha&Hle). split; [done|]. split; [done|]. exists c. split; [|done].
    unfold TLVWriter_OpenContainer in E. pose proof (accounts_container_head _ _ tag t w Ha) as Hh.
    repeat (case_match; simplify_eq/=; try done).
  - by eapply stack_close.
Qed.

End Writers.

Section Bounds.
Context `{TlvConfig}.

Lemma accounts_init n : 0 <= n → accounts 0 (Z.min n UINT32_MAX) (TLVWriter_Init n).
Proof.
  intros Hn. unfold accounts, TLVWriter_Init. cbn. destruct (Z.ltb_spec UINT32_MAX n).
  - unfold UINT32_MAX in *. lia.
  - rewrite u32_id by (unfold UINT32_MAX in *; solve_width). lia.
Qed.


End Bounds.

(** ** Nested containers *)

(** The buffer has all the room that [mMaxLen] allows for. *)
Definition roomy (w : TLVWriter) : Prop :=
  writer_ready w ∧ wMaxLen w <= wLenWritten w + wRemainingLen w.

(** Such a writer takes data as a whole or not at all. *)
Lemma WriteData_whole data w :
  roomy w → wLenWritten w + Z.of_nat (length data) <= UINT32_MAX →
  TLVWriter_WriteData data w =
    if wLenWritten w + Z.of_nat (length data) <=? wMaxLen w then (CHIP_NO_ERROR, wappend data w)
    else (CHIP_ERROR_BUFFER_TOO_SMALL, w).
Proof.
  intros [Hw Hroom] Hd. pose proof Hw as (Hi&_&_&?&_).
  destruct (Z.leb_spec (wLenWritten w + Z.of_nat (length data)) (wMaxLen w)).
  - apply WriteData_fits; [done|]. split; lia.
  - unfold TLVWriter_WriteData, wverify. rewrite Hi.
    rewrite u32_id by (unfold UINT32_MAX in *; solve_width). by rewrite (proj2 (Z.leb_gt _ _)) by lia.
Qed.

Lemma WriteElementHead_whole et tag v w :
  roomy w → wLenWritten w + 17 <= UINT32_MAX →
  TLVWriter_WriteElementHead et tag v w =
    match head_of (wContainerType w) (wImplicitProfileId w) et tag v with
    | None => (CHIP_ERROR_INVALID_TLV_TAG, w)
    | Some hd =>
        if wLenWritten w + Z.of_nat (length hd) <=? wMaxLen w then (CHIP_NO_ERROR, wappend hd w)
        else (CHIP_ERROR_BUFFER_TOO_SMALL, w)
    end.
Proof.
  intros Hb Hcap. pose proof Hb as [(Hi&Ho&_) _].
  unfold TLVWriter_WriteElementHead, wverify, head_of. rewrite Hi, Ho. cbn [negb].
  destruct (stage_tag _ _ _ _) as [hd|] eqn:Hst; [|done]. cbn [fmap option_fmap option_map].
  rewrite WriteData_whole; [done|done|]. rewrite length_app.
  pose proof (stage_tag_length _ _ _ _ _ Hst). pose proof (stage_value_max et v). lia.
Qed.

(** A writer without reservations: the end markers of the open containers are kept free
    by [mMaxLen], and nothing else is. *)
Definition balanced (cap depth : Z) (w : TLVWriter) : Prop :=
  IsInitialized w = true ∧ wContainerOpen w = false ∧ wCloseContainerReserved w = true ∧
  0 <= wLenWritten w <= wMaxLen w ∧ 0 <= depth ∧ wMaxLen w + depth = cap ∧
  wLenWritten w + wRemainingLen w = cap ∧ cap <= UINT32_MAX.

Lemma balanced_roomy cap d w : balanced cap d w → roomy w.
Proof.
  unfold balanced, roomy, writer_ready, UINT32_MAX. intros (?&?&?&?&?&?&?&?). split_and!; try done; solve_width.
Qed.

Lemma balanced_append cap d data w :
  balanced cap d w → wLenWritten w + Z.of_nat (length data) <= wMaxLen w → balanced cap d (wappend data w).
Proof.
  unfold balanced, UINT32_MAX. intros (?&?&?&?&?&?&?&?) Hd. cbn. rewrite !u32_id by solve_width.
  split_and!; try done; lia.
Qed.

Lemma balanced_data cap d L data w :
  cap + L <= UINT32_MAX → Z.of_nat (length data) <= L → balanced cap d w →
  balanced cap d (TLVWriter_WriteData data w).2.
Proof.
  intros HL Hd Hb. pose proof (balanced_roomy _ _ _ Hb).
  rewrite WriteData_whole by (done || (destruct Hb as (_&_&_&?&?&?&_); lia)).
  case_match; zbool; [by apply balanced_append|done].
Qed.

(** [StartContainer] succeeds and keeps the end marker free, or leaves the writer alone. *)
Lemma balanced_start cap d tag t outer w :
  balanced cap d w → cap + 17 <= UINT32_MAX →
  let '(e, outer', w') := TLVWriter_StartContainer tag t outer w in
  if bool_decide (e = CHIP_NO_ERROR)
  then balanced cap (d + 1) w' ∧ outer' = wContainerType w ∧ wContainerType w' = t ∧ TLVTypeIsContainer t = true
  else w' = w.
Proof.
  intros Hb Hcap. pose proof (balanced_roomy _ _ _ Hb) as [(_&_&Hr1&Hr2&Hr3) Hrm].
  pose proof Hb as (Hi&Ho&Hr&?&?&?&?&?). unfold TLVWriter_StartContainer. rewrite Hi. cbn [negb].
  destruct (TLVTypeIsContainer t) eqn:Ht; [|done]. cbn [negb].
  unfold write_container_head, kEndOfContainerMarkerSize. rewrite Hr. cbn [andb].
  destruct (Z.leb_spec 1 (wMaxLen w)); [|done]. cbn [negb]. rewrite (u32_id (wMaxLen w - 1)) by solve_width.
  set (w1 := wset_maxLen (wMaxLen w - 1) w).
  assert (Hback : wset_maxLen (u32 (wMaxLen w1 + 1)) w1 = w).
  { cbn. rewrite Z.sub_add, u32_id by solve_width. by destruct w. }
  assert (roomy w1) as Hroom by (unfold roomy, writer_ready; cbn; split_and!; done || solve_width).
  rewrite WriteElementHead_whole by (done || (cbn; lia)).
  destruct (head_of _ _ t tag 0) as [hd|].
  2: { cbn -[wset_maxLen]. change (wCloseContainerReserved w1) with (wCloseContainerReserved w). by rewrite Hr. }
  destruct (Z.leb_spec (wLenWritten w1 + Z.of_nat (length hd)) (wMaxLen w1)) as [Hle|Hgt].
  - rewrite bool_decide_true by done. split_and!; try done.
    assert (balanced cap (d + 1) w1) as Hb1 by (cbn in Hle; unfold balanced; cbn; split_and!; done || lia).
    apply (balanced_append _ _ hd) in Hb1 as (?&_&?); [|done]. by unfold balanced.
  - cbn -[wset_maxLen]. change (wCloseContainerReserved w1) with (wCloseContainerReserved w). by rewrite Hr.
Qed.

Lemma balanced_end cap d outer w :
  balanced cap (d + 1) w → 0 <= d → cap + 17 <= UINT32_MAX → TLVTypeIsContainer (wContainerType w) = true →
  ∃ w', TLVWriter_EndContainer outer w = (CHIP_NO_ERROR, w') ∧ balanced cap d w' ∧ wContainerType w' = outer ∧
    wOut w' = wOut w ++ end_marker.
Proof.
  intros Hb Hd Hcap Ht. pose proof Hb as (Hi&Ho&Hr&?&?&?&?&?).
  unfold TLVWriter_EndContainer, wverify, kEndOfContainerMarkerSize. rewrite Hi, Ht.
  change (wCloseContainerReserved (wset_containerType outer w)) with (wCloseContainerReserved w). rewrite Hr.
  change (wMaxLen (wset_containerType outer w)) with (wMaxLen w).
  rewrite u32_id by (unfold UINT32_MAX in *; solve_width).
  set (w1 := wset_maxLen (wMaxLen w + 1) (wset_containerType outer w)).
  assert (balanced cap d w1) as Hb1 by (unfold balanced; cbn; split_and!; done || lia).
  rewrite WriteElementHead_whole by ((by eapply balanced_roomy) || (cbn; lia)). rewrite end_marker_head.
  rewrite (proj2 (Z.leb_le _ _)) by (cbn; lia).
  eexists. split; [done|]. split; [|done]. apply balanced_append; [done|]. cbn. lia.
Qed.

Section Nesting.
Context `{TlvConfig} (n L : Z).

(** A client that ends the containers it has started, the last one first, and neither reserves
    buffer space nor opens container writers; [ts] are the outer types it holds. Calls may
    fail. *)
Inductive nested : list Z → TLVWriter → Prop :=
| nested_init : nested [] (TLVWriter_Init n)
| nested_put ts w op : nested ts w → put_call L op → nested ts (op w).2
| nested_start ts w tag t outer outer' w' :
    nested ts w → TLVWriter_StartContainer tag t outer w = (CHIP_NO_ERROR, outer', w') → nested (outer' :: ts) w'
| nested_start_failed ts w tag t outer e outer' w' :
    nested ts w → TLVWriter_StartContainer tag t outer w = (e, outer', w') → e ≠ CHIP_NO_ERROR → nested ts w'
| nested_end t ts w : nested (t :: ts) w → nested ts (TLVWriter_EndContainer t w).2.

(** The types of the open containers: the current one and those in [ts] except the last. *)
Fixpoint open_types (cur : Z) (ts : list Z) : Prop :=
  match ts with
  | [] => True
  | t :: ts => TLVTypeIsContainer cur = true ∧ open_types t ts
  end.

Lemma put_container_type op w : put_call L op → wContainerType (op w).2 = wContainerType w.
Proof.
  intros Hop. apply (keeps_put L (λ w', wContainerType w' = wContainerType w) (Z.max L 17)); [|lia|lia|done|done].
  intros data w' _ Hw'. rewrite <- Hw'. unfold TLVWriter_WriteData, wverify.
  destruct (IsInitialized w'); [|done]. destruct (_ <=? _); [|done].
  generalize 2%nat as fuel. intros fuel. clear Hw'. revert data w'.
  induction fuel as [|fuel IH]; intros data w'; destruct data; try done.
  cbn [write_loop]. destruct (_ =? 0); [done|]. by rewrite IH.
Qed.

Lemma nested_balanced ts w :
  0 <= n → n + Z.max L 17 <= UINT32_MAX → nested ts w →
  balanced n (Z.of_nat (length ts)) w ∧ open_types (wContainerType w) ts.
Proof.
  intros Hn Hcap Hnest.
  induction Hnest as [|ts w op _ [Hb Ho] Hop|ts w tag t outer outer' w' _ [Hb Ho] Hs
    |ts w tag t outer e outer' w' _ [Hb Ho] Hs He|t ts w _ [Hb Ho]].
  - destruct (proj2 (Z.ltb_ge UINT32_MAX n)); [lia|]. unfold TLVWriter_Init, balanced.
    destruct (Z.ltb_spec UINT32_MAX n); [lia|]. cbn. rewrite u32_id by (unfold UINT32_MAX in *; solve_width).
    split_and!; done || lia.
  - rewrite put_container_type by done. split; [|done].
    apply (keeps_put L (balanced n (Z.of_nat (length ts))) (Z.max L 17)); [|lia|lia|done|done].
    intros data w' Hd Hb'. by eapply balanced_data.
  - pose proof (balanced_start n (Z.of_nat (length ts)) tag t outer w Hb ltac:(lia)) as Hst.
    rewrite Hs, bool_decide_true in Hst by done. destruct Hst as (Hb'&->&Ht&Hc).
    split; [|by rewrite Ht]. cbn [length]. by replace (Z.of_nat (S (length ts))) with (Z.of_nat (length ts) + 1) by lia.
  - pose proof (balanced_start n (Z.of_nat (length ts)) tag t outer w Hb ltac:(lia)) as Hst.
    rewrite Hs, bool_decide_false in Hst by done. by subst w'.
  - cbn [length] in Hb. destruct Ho as [Hc Ho].
    destruct (balanced_end n (Z.of_nat (length ts)) t w) as (w'&->&Hb'&Ht&_); try lia; try done.
    { by replace (Z.of_nat (length ts) + 1) with (Z.of_nat (S (length ts))) by lia. }
    cbn. by rewrite Ht.
Qed.

(** C6: A client that reserves no buffer space and uses [StartContainer] and [EndContainer], the
    containers ended innermost first, over a buffer that with the longest data (17 bytes at
    least) stays below 4 GB, can end each container that it started: whatever was put into it,
    whichever calls failed, and however full the buffer is, the end marker is written without
    error. *)
Theorem started_container_ends t ts w :
  0 <= n → n + Z.max L 17 <= UINT32_MAX → nested (t :: ts) w →
  ∃ w', TLVWriter_EndContainer t w = (CHIP_NO_ERROR, w') ∧ wOut w' = wOut w ++ [0x18] ∧ wContainerType w' = t.
Proof.
  intros Hn Hcap Hnest. destruct (nested_balanced _ _ Hn Hcap Hnest) as [Hb [Hc _]]. cbn [length] in Hb.
  destruct (balanced_end n (Z.of_nat (length ts)) t w) as (w'&He&_&Ht&Hout); try lia; try done.
  { by replace (Z.of_nat (length ts) + 1) with (Z.of_nat (S (length ts))) by lia. }
  by exists w'.
Qed.

(** C9: For a client that reserves no buffer space and uses [StartContainer] and [EndContainer], the
    containers ended innermost first, over a buffer that with the longest data (17 bytes at
    least) stays below 4 GB, putting a number, a truth value or null fails in exactly two ways,
    for a tag that the container does not allow and for want of room, and then leaves the writer
    as it was; otherwise the bytes of the element are written. *)
Theorem put_scalar_errors ts w v tag :
  0 <= n → n + Z.max L 17 <= UINT32_MAX → nested ts w →
  (match v with VString _ | VBytes _ | VContainer _ _ => False | _ => True end) →
  put_value v tag w =
    match encode_value (wImplicitProfileId w) v (wContainerType w) tag with
    | None => (CHIP_ERROR_INVALID_TLV_TAG, w)
    | Some bs =>
        if wLenWritten w + Z.of_nat (length bs) <=? wMaxLen w then (CHIP_NO_ERROR, wappend bs w)
        else (CHIP_ERROR_BUFFER_TOO_SMALL, w)
    end.
Proof.
  intros Hn Hcap Hnest Hv. destruct (nested_balanced _ _ Hn Hcap Hnest) as [Hb _].
  pose proof (balanced_roomy _ _ _ Hb) as Hroom.
  assert (wLenWritten w + 17 <= UINT32_MAX) as Hl by (destruct Hb as (_&_&_&?&?&?&_); lia).
  assert (Hhead : ∀ et f, TLVWriter_WriteElementHead et tag f w =
    match (hd ← head_of (wContainerType w) (wImplicitProfileId w) et tag f; Some (hd ++ [])) with
    | None => (CHIP_ERROR_INVALID_TLV_TAG, w)
    | Some bs => if wLenWritten w + Z.of_nat (length bs) <=? wMaxLen w then (CHIP_NO_ERROR, wappend bs w)
        else (CHIP_ERROR_BUFFER_TOO_SMALL, w)
    end).
  { intros et f. rewrite WriteElementHead_whole by done. destruct (head_of _ _ et tag f) as [hd|]; [|done].
    cbn [mbind option_bind]. by rewrite app_nil_r. }
  destruct v; try done; apply Hhead.
Qed.

End Nesting.

(** ** Examples *)

(** Ten bytes: a structure with a string that does not fit. *)
Definition full_example : TLVWriter :=
  (@TLVWriter_Put_ByteSpan (ContextTag 1) [1; 2; 3; 4; 5; 6; 7]
     (TLVWriter_StartContainer AnonymousTag kTLVType_Structure 0 (TLVWriter_Init 10)).2).2.

Lemma full_example_nested : @nested default_config 10 100 [kTLVType_NotSpecified] full_example.
Proof.
  unfold full_example. eapply nested_put; [|constructor; cbn; lia].
  eapply (nested_start _ _ _ (TLVWriter_Init 10) AnonymousTag kTLVType_Structure 0); [constructor|]. vm_compute. reflexivity.
Qed.

(** A container writer in it, with five bytes reserved and lost. *)
Definition open_example : chip_error * TLVWriter * TLVWriter :=
  TLVWriter_OpenContainer AnonymousTag kTLVType_Structure TLVWriter_new (TLVWriter_Init 10).
Definition reserved_example : TLVWriter := (TLVWriter_ReserveBuffer 5 open_example.1.2).2.
Definition closed_example : TLVWriter := (TLVWriter_CloseContainer reserved_example open_example.2).2.


Lemma started_container_ends_witness :
  ∃ w', TLVWriter_EndContainer kTLVType_NotSpecified full_example = (CHIP_NO_ERROR, w') ∧
    wOut w' = wOut full_example ++ [0x18] ∧ wContainerType w' = kTLVType_NotSpecified.
Proof.
  apply (@started_container_ends default_config 10 100 kTLVType_NotSpecified []).
  - lia.
  - vm_compute. congruence.
  - apply full_example_nested.
Defined.

Lemma put_scalar_errors_witness :
  @put_value default_config (VUInt 70000) (ContextTag 2) full_example = (CHIP_ERROR_BUFFER_TOO_SMALL, full_example) ∧
  @put_value default_config (VUInt 7) AnonymousTag full_example = (CHIP_ERROR_INVALID_TLV_TAG, full_example).
Proof.
  split.
  - rewrite (@put_scalar_errors default_config 10 100 [kTLVType_NotSpecified]);
      [vm_compute; reflexivity|lia|vm_compute; congruence|apply full_example_nested|done].
  - rewrite (@put_scalar_errors default_config 10 100 [kTLVType_NotSpecified]);
      [vm_compute; reflexivity|lia|vm_compute; congruence|apply full_example_nested|done].
Defined.
