(* ===== verification/TlvRoundtrip.v ===== *)
(** * TLV: what is written is read back

    A client that reads a sequence of elements with [Next], the [Get] functions,
    [EnterContainer] and [ExitContainer] gets the values that were put. *)

From S2P Require Import Prelude.
From S2P Require Import ChipError.
From S2P Require Import Endian.
From S2P Require Import TlvTypes.
From S2P Require Import TlvWriter.
From S2P Require Import TlvReader.
From S2P Require Import TlvHead.
From S2P Require Import TlvElement.
From S2P Require Import TlvRead.

#[local] Open Scope reader_scope.

(** ** A reading client *)

(** The result of a [Get] call as a step of the client. *)
Definition rlift {A B} (f : TLVReader → chip_error * A) (k : A → B) : rop B := λ r,
  match f r with
  | (CHIP_NO_ERROR, a) => ROk (k a) r
  | (e, _) => RErr e r
  end.

(** The value of the current element, given how the elements of a container are read. *)
Definition read_one (children : rop (list (Z * tlv_value))) : rop (Z * tlv_value) := λ r,
  let tag := TLVReader_GetTag r in
  let t := TLVReader_GetType r in
  if t =? kTLVType_SignedInteger then rlift (λ r, TLVReader_Get_i64 r 0) (λ z, (tag, VInt z)) r
  else if t =? kTLVType_UnsignedInteger then rlift (λ r, TLVReader_Get_u64 r 0) (λ z, (tag, VUInt z)) r
  else if t =? kTLVType_Boolean then rlift (λ r, TLVReader_Get_bool r false) (λ b, (tag, VBool b)) r
  else if t =? kTLVType_FloatingPointNumber then
    rlift (λ r, TLVReader_Get_double r (inl 0))
      (λ d, (tag, match d with inl bits => VFloat bits | inr bits => VDouble bits end)) r
  else if t =? kTLVType_UTF8String then (s <-- TLVReader_Get_ByteSpan ;; rret (tag, VString s)) r
  else if t =? kTLVType_ByteString then (s <-- TLVReader_Get_ByteSpan ;; rret (tag, VBytes s)) r
  else if t =? kTLVType_Null then ROk (tag, VNull) r
  else
    (outer <-- TLVReader_EnterContainer ;;
     cs <-- children ;;
     TLVReader_ExitContainer outer ;;
     rret (tag, VContainer t cs)) r.

(** The elements up to the end of the container or of the input. *)
Fixpoint read_list (fuel : nat) : rop (list (Z * tlv_value)) := λ r,
  match fuel with
  | O => RFuel
  | S fuel =>
      match TLVReader_Next r with
      | RErr CHIP_ERROR_END_OF_TLV r => ROk [] r
      | ROk _ r => (c <-- read_one (read_list fuel) ;; cs <-- read_list fuel ;; rret (c :: cs)) r
      | RErr e r => RErr e r
      | RUndefined => RUndefined
      | RFuel => RFuel
      end
  end.

(** Tags as they are read back. *)
Fixpoint norm_value (v : tlv_value) : tlv_value :=
  match v with
  | VContainer t cs => VContainer t (map (λ '(tag, v), (norm_tag tag, norm_value v)) cs)
  | _ => v
  end.
Definition norm_list (cs : list (Z * tlv_value)) : list (Z * tlv_value) :=
  map (λ '(tag, v), (norm_tag tag, norm_value v)) cs.

(** ** Getting values *)

Lemma cast_to_signed w z :
  0 < w → - 2 ^ (w - 1) <= z <= 2 ^ (w - 1) - 1 → CastToSigned w (z mod 2 ^ w) = z.
Proof.
  intros Hw Hz. assert (2 ^ w = 2 * 2 ^ (w - 1)) as Hp.
  { rewrite <- (Z.pow_succ_r 2 (w - 1)) by lia. f_equal. lia. }
  unfold CastToSigned. destruct (Z.leb_spec 0 z).
  - rewrite Z.mod_small by lia. rewrite (proj2 (Z.leb_le _ _)) by lia. done.
  - rewrite <- (Z.mod_add z 1), Z.mod_small by lia. rewrite (proj2 (Z.leb_gt _ _)) by lia. lia.
Qed.

Section RoundTrip.
Context `{TlvConfig}.

Section OnValue.
Context (b : TLVReader) (ct c tag : Z) (v : tlv_value) (body rest : list Z) (n : Z).
Context (Hv : valid_value v) (Hc : c ∈ tag_controls) (Hbody : value_body (rImplicitProfileId b) v = Some body)
  (Hsmall : in_u32 (Z.of_nat (length (body ++ rest)))).

Let r := on_value b ct c tag v (body ++ rest) n.

Lemma GetType_value :
  TLVReader_GetType r =
    match v with
    | VInt _ => kTLVType_SignedInteger | VUInt _ => kTLVType_UnsignedInteger | VBool _ => kTLVType_Boolean
    | VFloat _ | VDouble _ => kTLVType_FloatingPointNumber | VString _ => kTLVType_UTF8String
    | VBytes _ => kTLVType_ByteString | VNull => kTLVType_Null | VContainer t _ => t
    end.
Proof.
  unfold TLVReader_GetType, r. rewrite ElementType_value by done.
  destruct v as [z|z|x| | |s|s| |t cs]; cbn [value_type].
  - by destruct (int_elem_type_cases z) as [[-> _]|[[-> _]|[[-> _]| ->]]].
  - by destruct (uint_elem_type_cases z) as [[-> _]|[[-> _]|[[-> _]| ->]]].
  - by destruct x.
  - done.
  - done.
  - unfold length_field. by repeat case_match.
  - unfold length_field. by repeat case_match.
  - done.
  - apply valid_container in Hv as [Ht _]. by apply container_type_cases in Ht as [->|[->| ->]].
Qed.

Lemma Get_i64_value z x : v = VInt z → TLVReader_Get_i64 r x = (CHIP_NO_ERROR, z).
Proof.
  intros ->. cbn in Hv. unfold TLVReader_Get_i64, r. rewrite ElementType_value by done.
  change (rElemLenOrVal _) with (value_read (VInt z)). unfold value_read, field_val. cbn [value_type value_field].
  assert (Hmod : ∀ k, 0 <= k <= 64 → u64 z mod 2 ^ k = z mod 2 ^ k).
  { intros k Hk. unfold u64. replace 64 with (k + (64 - k)) by lia.
    rewrite Z.pow_add_r, Z.rem_mul_r by lia. rewrite (Z.mul_comm (2 ^ k)), Z.mod_add by lia.
    by rewrite Z.mod_mod by lia. }
  destruct (int_elem_type_cases z) as [[-> Hz]|[[-> Hz]|[[-> Hz]| ->]]]; cbn [Z.eqb];
    unfold TLVElementType.Int8, TLVElementType.Int16, TLVElementType.Int32, TLVElementType.Int64;
    cbn [Z.eqb Pos.eqb]; f_equal.
  - unfold u8. change (8 * Z.of_nat (value_size 0)) with 8. rewrite Z.mod_mod, Hmod by lia. apply cast_to_signed; lia.
  - unfold u16. change (8 * Z.of_nat (value_size 1)) with 16. rewrite Z.mod_mod, Hmod by lia. apply cast_to_signed; lia.
  - unfold u32. change (8 * Z.of_nat (value_size 2)) with 32. rewrite Z.mod_mod, Hmod by lia. apply cast_to_signed; lia.
  - change (8 * Z.of_nat (value_size 3)) with 64. rewrite Hmod by lia. apply cast_to_signed; lia.
Qed.

Lemma Get_ByteSpan_value s : v = VString s ∨ v = VBytes s → TLVReader_Get_ByteSpan r = ROk s r.
Proof.
  intros Hs. destruct (value_type_ok v Hv) as (_&_&_&Hlen).
  assert (TLVTypeHasLength (value_type v) = true) as Hh by (by destruct Hs as [-> | ->]).
  assert (body = s) as -> by (destruct Hs as [-> | ->]; cbn in Hbody; congruence).
  pose proof (data_length v _ _ Hbody Hv Hh) as Hd.
  assert (Z.of_nat (length s) <= UINT32_MAX) as Hmx by (destruct Hs as [-> | ->]; apply Hv).
  assert (HET : ElementType r = value_type v) by (by apply ElementType_value).
  assert (TLVReader_GetLength r = Z.of_nat (length s)) as HL.
  { unfold TLVReader_GetLength. rewrite HET, Hh. change (rElemLenOrVal r) with (value_read v). rewrite Hd.
    apply u32_id. unfold UINT32_MAX in *. solve_width. }
  unfold TLVReader_Get_ByteSpan, rbind, TLVReader_GetDataPtr. rewrite HET.
  change (TLVTypeIsString (value_type v)) with (TLVTypeHasLength (value_type v)). rewrite Hh, HL. cbn [negb].
  destruct (Z.eqb_spec (Z.of_nat (length s)) 0) as [Hz|Hz].
  { destruct s; [|done]. by rewrite HL. }
  change (rReadPoint r) with (PBytes (s ++ rest)). change (rElemLenOrVal r) with (value_read v). cbv iota.
  rewrite Hd, u32_id, u32_id by (unfold UINT32_MAX in *; solve_width || done).
  rewrite (proj2 (Z.ltb_ge _ _)) by (rewrite length_app; lia). rewrite HL.
  cbn. by rewrite Nat2Z.id, take_app_length.
Qed.

End OnValue.

Lemma read_one_prim b ct c tag v body rest n children :
  valid_value v → c ∈ tag_controls → value_body (rImplicitProfileId b) v = Some body →
  in_u32 (Z.of_nat (length (body ++ rest))) → is_container v = false →
  let r := on_value b ct c tag v (body ++ rest) n in
  read_one children r = ROk (tag, v) r.
Proof.
  intros Hv Hc Hbody Hsmall Hnc r. unfold read_one, r. rewrite GetType_value by done. fold r.
  change (TLVReader_GetTag r) with tag.
  assert (HET : ElementType r = value_type v) by (by apply ElementType_value).
  assert (HV : rElemLenOrVal r = value_read v) by done.
  destruct v as [z|z|x|z|z|s|s| |t cs]; try done.
  - cbn [Z.eqb]. unfold rlift. by rewrite (Get_i64_value b ct c tag _ body rest n Hv Hc Hbody z).
  - rewrite value_read_unsigned in HV by done. cbn [value_type value_field] in HET, HV. cbn -[TLVReader_Get_u64]. unfold rlift, TLVReader_Get_u64.
    rewrite HET, HV. by destruct (uint_elem_type_cases z) as [[-> _]|[[-> _]|[[-> _]| ->]]].
  - cbn -[TLVReader_Get_bool]. unfold rlift, TLVReader_Get_bool. rewrite HET. by destruct x.
  - rewrite value_read_unsigned in HV by done. cbn -[TLVReader_Get_double]. unfold rlift, TLVReader_Get_double.
    rewrite HET, HV. cbn. by rewrite u32_id.
  - rewrite value_read_unsigned in HV by done. cbn -[TLVReader_Get_double]. unfold rlift, TLVReader_Get_double.
    by rewrite HET, HV.
  - cbn [Z.eqb Pos.eqb]. unfold rbind. unfold r.
    by rewrite (Get_ByteSpan_value b ct c tag _ body rest n Hv Hc Hbody Hsmall s) by auto.
  - cbn [Z.eqb Pos.eqb]. unfold rbind. unfold r.
    by rewrite (Get_ByteSpan_value b ct c tag _ body rest n Hv Hc Hbody Hsmall s) by auto.
Qed.

Lemma ExitContainer_at_end b t ct c rest m :
  c ∈ tag_controls → rContainerOpen b = false →
  TLVReader_ExitContainer ct (elem_at b t c TLVElementType.EndOfContainer AnonymousTag 0 rest m) =
    ROk tt (core_at b ct rest m).
Proof.
  intros Hc Hop. unfold TLVReader_ExitContainer, rbind, TLVReader_SkipToEndOfContainer.
  replace (rset_containerOpen false _) with (elem_at b t c TLVElementType.EndOfContainer AnonymousTag 0 rest m)
    by (unfold rset_containerOpen, elem_at, core_at; cbn; by rewrite Hop).
  rewrite skip_loop_S, ElementType_at by done. done.
Qed.

Lemma read_one_container b ct c c' tag t cs body rest n m children cs' :
  valid_value (VContainer t cs) → c ∈ tag_controls → c' ∈ tag_controls → rContainerOpen b = false →
  children (core_at b t (body ++ rest) n) =
    ROk cs' (elem_at b t c' TLVElementType.EndOfContainer AnonymousTag 0 rest m) →
  read_one children (on_value b ct c tag (VContainer t cs) (body ++ rest) n) =
    ROk (tag, VContainer t cs') (core_at b ct rest m).
Proof.
  intros Hv Hc Hc' Hop Hch. destruct (value_type_ok _ Hv) as (_&_&Hcont&_).
  assert (Henter : TLVReader_EnterContainer (on_value b ct c tag (VContainer t cs) (body ++ rest) n) =
    ROk ct (core_at b t (body ++ rest) n)).
  { unfold TLVReader_EnterContainer. rewrite ElementType_value, Hcont by done. cbn [is_container negb].
    f_equal. unfold rset_containerOpen, core_at. cbn. by rewrite Hop. }
  unfold read_one, rbind. change (TLVReader_GetTag _) with tag.
  assert (TLVReader_GetType (on_value b ct c tag (VContainer t cs) (body ++ rest) n) = t) as ->.
  { unfold TLVReader_GetType. rewrite ElementType_value by done. cbn [value_type].
    apply valid_container in Hv as [Ht _]. by apply container_type_cases in Ht as [->|[->| ->]]. }
  rewrite Henter, Hch, ExitContainer_at_end by done.
  apply valid_container in Hv as [Ht _]. by apply container_type_cases in Ht as [->|[->| ->]].
Qed.

(** ** Reading sequences *)

(** Reading a container gives the elements and leaves the reader behind it. *)
Definition reads_container (v : tlv_value) : Prop :=
  ∀ b ct c tag body rest n fuel,
    valid_value v → c ∈ tag_controls → value_body (rImplicitProfileId b) v = Some body →
    rContainerOpen b = false → within_max b n (Z.of_nat (length (body ++ rest))) → (heads v <= S fuel)%nat →
    ∃ r', read_one (read_list fuel) (on_value b ct c tag v (body ++ rest) n) = ROk (tag, norm_value v) r' ∧
      between r' b ct rest (n + Z.of_nat (length body)).

Lemma within_split b n (l1 l2 : list Z) :
  within_max b n (Z.of_nat (length (l1 ++ l2))) →
  within_max b n (Z.of_nat (length l1)) ∧ within_max b (n + Z.of_nat (length l1)) (Z.of_nat (length l2)) ∧
  in_u32 (Z.of_nat (length (l1 ++ l2))).
Proof.
  rewrite length_app, Nat2Z.inj_add. intros (?&?&?&?). unfold within_max.
  split_and!; (lia || done || solve_width).
Qed.

(** The elements [cs] in front of [tail]: the client reads them and goes on there. *)
Lemma read_list_values cs :
  Forall (λ c, reads_container c.2) cs → valid_list cs →
  ∀ r b ct bs tail n fuel,
    encode_list (rImplicitProfileId b) ct cs = Some bs → rContainerOpen b = false →
    between r b ct (bs ++ tail) n → within_max b n (Z.of_nat (length (bs ++ tail))) → (heads_list cs < fuel)%nat →
    ∃ r' fuel', between r' b ct tail (n + Z.of_nat (length bs)) ∧ (fuel <= heads_list cs + fuel')%nat ∧
      ∀ l e, read_list fuel' r' = ROk l e → read_list fuel r = ROk (norm_list cs ++ l) e.
Proof.
  intros HF. induction HF as [|[tag v] cs Hrc _ IH]; intros Hval r b ct bs tail n fuel Henc Hop Hbt Hmax Hfuel.
  { apply (inj Some) in Henc as <-. exists r, fuel. rewrite Z.add_0_r. split_and!; [done|cbn; lia|done]. }
  apply Forall_cons in Hval as [[Htag Hv] Hval]. cbn in Hrc, Htag, Hv, Henc, Hfuel.
  destruct (encode_value _ v ct tag) as [b1|] eqn:Hb1; [|done]. cbn in Henc.
  destruct (encode_list _ ct cs) as [b2|] eqn:Hb2; [|done]. cbn in Henc. apply (inj Some) in Henc as <-.
  rewrite <- app_assoc in Hbt, Hmax. destruct (within_split _ _ _ _ Hmax) as (Hm1&Hm2&_).
  destruct (Next_value r b ct tag v b1 (b2 ++ tail) n) as (c&body&k&Hc&Hbody&Hk&Hlen&Hnext); try done.
  assert (Hmb : within_max b (n + k) (Z.of_nat (length (body ++ b2 ++ tail)))).
  { destruct Hm1 as (?&?&?&?), Hm2 as (?&?&Hl&?). rewrite !length_app in *. split_and!; (lia || done). }
  assert (1 <= heads v)%nat by (destruct v; cbn; lia).
  destruct fuel as [|fuel]; [lia|].
  destruct (Hrc b ct c (norm_tag tag) body (b2 ++ tail) (n + k) fuel) as (r1&Hr1&Hbt1); try done; [lia|].
  replace (n + k + Z.of_nat (length body)) with (n + Z.of_nat (length b1)) in Hbt1 by lia.
  destruct (IH Hval r1 b ct b2 tail (n + Z.of_nat (length b1)) fuel) as (r'&fuel'&Hbt'&Hf'&Hrd); try done; [lia|].
  exists r', fuel'. rewrite length_app, Nat2Z.inj_add, Z.add_assoc. split_and!; [done|cbn; lia|].
  intros l e Hl. cbn [read_list]. rewrite Hnext. unfold rbind. by rewrite Hr1, (Hrd l e Hl).
Qed.

Lemma read_container_elements t cs : Forall (λ c, reads_container c.2) cs → reads_container (VContainer t cs).
Proof.
  intros IH b ct c tag body rest n fuel Hv Hc Hbody Hop Hmax Hfuel.
  pose proof Hv as [Ht Hcs]%valid_container. rewrite heads_container in Hfuel.
  cbn in Hbody. destruct (encode_list _ t cs) as [lb|] eqn:Hlb; [|done]. apply (inj Some) in Hbody as <-.
  rewrite <- app_assoc in Hmax. destruct (within_split _ _ _ _ Hmax) as (_&Hm2&_).
  destruct (within_split _ _ _ _ Hm2) as (Hm1&_).
  destruct (read_list_values cs IH Hcs (core_at b t (lb ++ end_marker ++ rest) n) b t lb (end_marker ++ rest) n fuel)
    as (r1&fuel'&Hbt1&Hf'&Hrd); try done; [lia|].
  destruct (Next_end r1 b t rest (n + Z.of_nat (length lb))) as (c'&Hc'&Hnext); try done.
  destruct fuel' as [|fuel']; [lia|].
  exists (core_at b ct rest (n + Z.of_nat (length (lb ++ end_marker)))). split; [|done].
  eapply read_one_container; try done. rewrite <- app_assoc.
  rewrite (Hrd [] (elem_at b t c' TLVElementType.EndOfContainer AnonymousTag 0 rest (n + Z.of_nat (length lb) + 1))).
  - by rewrite app_nil_r, length_app, Nat2Z.inj_add, Z.add_assoc.
  - cbn [read_list]. by rewrite Hnext.
Qed.

Lemma read_container v : reads_container v.
Proof.
  induction v as [z|z|x|z|z|s|s| |t cs IH] using tlv_value_nested_ind; [..|by apply read_container_elements].
  all: intros b ct c tag body rest n fuel Hv Hc Hbody Hop Hmax Hfuel;
    destruct (within_split _ _ _ _ Hmax) as (Hm1&Hm2&Hsm); eexists;
    (split; [by apply read_one_prim|by apply Skip_value]).
Qed.

(** A reader over the bytes of [cs] gives [cs]. *)
Lemma read_encoded cs bs :
  valid_list cs → encode_list kProfileIdNotSpecified kTLVType_NotSpecified cs = Some bs →
  Z.of_nat (length bs) <= UINT32_MAX →
  ∃ e, read_list (S (length bs)) (TLVReader_Init bs) = ROk (norm_list cs) e.
Proof.
  intros Hcs Henc Hlen. pose proof (heads_list_le _ _ _ _ Hcs Henc) as Hh.
  set (b := TLVReader_Init bs).
  assert (Hb : b = core_at b kTLVType_NotSpecified (bs ++ []) 0).
  { unfold b, TLVReader_Init, core_at. cbn. rewrite (proj2 (Z.ltb_ge _ _)) by done.
    rewrite u32_id by (unfold UINT32_MAX in *; solve_width). rewrite Nat2Z.id, take_ge, app_nil_r by done. done. }
  destruct (read_list_values cs (proj2 (Forall_forall _ _) (λ c _, read_container c.2)) Hcs b b
    kTLVType_NotSpecified bs [] 0 (S (length bs))) as (r'&fuel'&Hbt&Hf&Hrd); try done.
  { by rewrite Hb at 1. }
  { unfold b, TLVReader_Init, within_max. cbn. rewrite app_nil_r, (proj2 (Z.ltb_ge _ _)) by done.
    rewrite u32_id by (unfold UINT32_MAX in *; solve_width). unfold UINT32_MAX in *. split_and!; solve_width. }
  { lia. }
  destruct fuel' as [|fuel']; [lia|].
  exists (core_at b kTLVType_NotSpecified [] (0 + Z.of_nat (length bs))).
  rewrite (Hrd [] (core_at b kTLVType_NotSpecified [] (0 + Z.of_nat (length bs)))); [by rewrite app_nil_r|].
  cbn [read_list]. by rewrite (Next_end_input r' b kTLVType_NotSpecified (0 + Z.of_nat (length bs))).
Qed.

End RoundTrip.

(** ** The round trip *)

Lemma Init_ready n : 0 <= n <= UINT32_MAX → writer_ready (TLVWriter_Init n) ∧ writer_room (TLVWriter_Init n) n.
Proof.
  intros Hn. unfold TLVWriter_Init, writer_ready, writer_room. rewrite (proj2 (Z.ltb_ge _ _)) by lia.
  rewrite u32_id by (unfold UINT32_MAX in *; solve_width). cbn. unfold UINT32_MAX in *. split_and!; solve_width || done.
Qed.

Section Theorems.
Context `{TlvConfig}.

(** C1: Elements whose encoding fits in the buffer are written without error, the bytes
    written are their encoding, and a reader over those bytes gives the same elements,
    containers and their contents included. *)
Theorem tlv_roundtrip cs bs n :
  valid_list cs → encode_list kProfileIdNotSpecified kTLVType_NotSpecified cs = Some bs →
  Z.of_nat (length bs) <= n <= UINT32_MAX →
  ∃ w e, put_list cs (TLVWriter_Init n) = (CHIP_NO_ERROR, w) ∧ wOut w = bs ∧
    wLenWritten w = Z.of_nat (length bs) ∧
    read_list (S (length (wOut w))) (TLVReader_Init (wOut w)) = ROk (norm_list cs) e.
Proof.
  intros Hcs Henc Hn. destruct (Init_ready n) as [Hr [Hr1 Hr2]]; [lia|].
  destruct (read_encoded cs bs Hcs Henc) as [e He]; [lia|].
  assert (writer_room (TLVWriter_Init n) (Z.of_nat (length bs))) as Hroom by (split; lia).
  exists (wappend bs (TLVWriter_Init n)), e. split_and!; try done.
  - apply put_list_writes; try done. apply Forall_forall. intros c _. apply put_value_writes.
  - by destruct (wappend_ready bs _ Hr Hroom) as (_&_&->).
Qed.

End Theorems.

Definition example_elements : list (Z * tlv_value) :=
  [(AnonymousTag, VContainer kTLVType_Structure
      [(ContextTag 1, VInt (-5)); (ProfileTag 7 70000, VString [104; 105]);
       (CommonTag 3, VContainer kTLVType_Array [(AnonymousTag, VUInt 1000); (AnonymousTag, VNull)])])].
Definition example_bytes : list Z :=
  [0x15; 0x20; 1; 251; 0xEC; 0; 0; 7; 0; 112; 17; 1; 0; 2; 104; 105; 0x56; 3; 0; 5; 232; 3; 0x14; 0x18; 0x18].

Lemma example_valid : @valid_list default_config example_elements.
Proof.
  repeat constructor; cbn; try (by vm_compute; intros; congruence);
    unfold container_types, in_u64; try set_solver; vm_compute; repeat split; congruence.
Qed.

Lemma tlv_roundtrip_witness :
  ∃ w e,
    @put_list default_config example_elements (TLVWriter_Init 64) = (CHIP_NO_ERROR, w) ∧
    wOut w = example_bytes ∧ wLenWritten w = 25 ∧
    read_list (S (length (wOut w))) (TLVReader_Init (wOut w)) = ROk example_elements e.
Proof.
  apply (@tlv_roundtrip default_config example_elements example_bytes 64).
  - apply example_valid.
  - vm_compute. reflexivity.
  - unfold UINT32_MAX. cbn. lia.
Defined.
