(* ===== verification/PeerCounter.v ===== *)
(** * Message reception state of a peer

    Model of [class PeerMessageCounter] (src/src/transport/PeerMessageCounter.h):
    the counter synchronisation state machine and the sliding window that
    rejects replayed messages. *)

From S2P Require Import Prelude.
From S2P Require Import ChipError.

Module PeerMessageCounter.

Definition CHIP_CONFIG_MESSAGE_COUNTER_WINDOW_SIZE : Z := 32.
Definition kChallengeSize : Z := 8.

(** [struct Synced]: the most recent counter and the window bitmap, a
    [std::bitset<CHIP_CONFIG_MESSAGE_COUNTER_WINDOW_SIZE>] kept as the [Z] whose
    bit [i] is the bit [i] of the set. *)
Record Synced := mkSynced { mMaxCounter : Z; mWindow : Z }.

(** [mStatus] together with the member of the union it selects. *)
Inductive state :=
| NotSynced
| SyncInProcess (mChallenge : list Z)
| IsSynced (mSynced : Synced).

Inductive Position := BeforeWindow | InWindow | MaxCounter | FutureCounter.

#[export] Instance Position_eq_dec : EqDecision Position.
Proof. solve_decision. Defined.

(** [std::bitset] operations on the window. *)
Definition bitset_test (w pos : Z) : bool := Z.testbit w pos.
Definition bitset_set (w pos : Z) : Z := Z.setbit w pos.
Definition bitset_shl (w n : Z) : Z :=
  (Z.shiftl w n) mod 2 ^ CHIP_CONFIG_MESSAGE_COUNTER_WINDOW_SIZE.

Definition Reset (s : state) : state :=
  match s with
  | NotSynced => NotSynced
  | SyncInProcess _ => NotSynced
  | IsSynced _ => NotSynced
  end.

Definition IsSynchronizing (s : state) : bool :=
  match s with SyncInProcess _ => true | _ => false end.

Definition IsSynchronized (s : state) : bool :=
  match s with IsSynced _ => true | _ => false end.

(** [None] is the abort of [VerifyOrDie]. *)
Definition SyncStarting (challenge : list Z) (s : state) : option state :=
  match s with
  | NotSynced => Some (SyncInProcess challenge)
  | _ => None
  end.

Definition SyncFailed (s : state) : state := Reset s.

Definition VerifyChallenge (counter : Z) (challenge : list Z) (s : state)
  : chip_error * state :=
  match s with
  | SyncInProcess mChallenge =>
      if decide (mChallenge = challenge)
      then (CHIP_NO_ERROR, IsSynced (mkSynced counter 0))
      else (CHIP_ERROR_INVALID_ARGUMENT, s)
  | _ => (CHIP_ERROR_INCORRECT_STATE, s)
  end.

Definition ClassifyNonFutureCounter (m : Synced) (counter : Z) : Position :=
  if counter =? mMaxCounter m then MaxCounter
  else
    let offset := u32 (mMaxCounter m - counter) in
    if offset <=? CHIP_CONFIG_MESSAGE_COUNTER_WINDOW_SIZE then InWindow
    else BeforeWindow.

Definition ClassifyWithoutRollover (m : Synced) (counter : Z) : Position :=
  if mMaxCounter m <? counter then FutureCounter
  else ClassifyNonFutureCounter m counter.

Definition futureCounterWindow : Z := Z.shiftl 1 31 - 1.

Definition ClassifyWithRollover (m : Synced) (counter : Z) : Position :=
  let counterIncrease := u32 (counter - mMaxCounter m) in
  if (1 <=? counterIncrease) && (counterIncrease <=? futureCounterWindow)
  then FutureCounter
  else ClassifyNonFutureCounter m counter.

Definition VerifyPositionEncrypted (m : Synced) (position : Position) (counter : Z)
  : chip_error :=
  match position with
  | FutureCounter => CHIP_NO_ERROR
  | InWindow =>
      let offset := u32 (mMaxCounter m - counter) in
      if bitset_test (mWindow m) (offset - 1)
      then CHIP_ERROR_DUPLICATE_MESSAGE_RECEIVED
      else CHIP_NO_ERROR
  | _ => CHIP_ERROR_DUPLICATE_MESSAGE_RECEIVED
  end.

Definition VerifyPositionUnencrypted (m : Synced) (position : Position) (counter : Z)
  : chip_error :=
  match position with
  | MaxCounter => CHIP_ERROR_DUPLICATE_MESSAGE_RECEIVED
  | InWindow =>
      let offset := u32 (mMaxCounter m - counter) in
      if bitset_test (mWindow m) (offset - 1)
      then CHIP_ERROR_DUPLICATE_MESSAGE_RECEIVED
      else CHIP_NO_ERROR
  | _ => CHIP_NO_ERROR
  end.

Definition CommitWithPosition (m : Synced) (position : Position) (counter : Z)
  : Synced :=
  match position with
  | InWindow =>
      let offset := u32 (mMaxCounter m - counter) in
      mkSynced (mMaxCounter m) (bitset_set (mWindow m) (offset - 1))
  | MaxCounter => m
  | _ =>
      let shift := u32 (counter - mMaxCounter m) in
      if CHIP_CONFIG_MESSAGE_COUNTER_WINDOW_SIZE <? shift
      then mkSynced counter 0
      else mkSynced counter (bitset_set (bitset_shl (mWindow m) shift) (shift - 1))
  end.

Definition CommitWithRollover (m : Synced) (counter : Z) : Synced :=
  CommitWithPosition m (ClassifyWithRollover m counter) counter.

Definition CommitWithoutRollover (m : Synced) (counter : Z) : Synced :=
  CommitWithPosition m (ClassifyWithoutRollover m counter) counter.

Definition SetCounter (value : Z) (s : state) : state :=
  IsSynced (mkSynced value 0).

Definition GetCounter (s : state) : option Z :=
  match s with IsSynced m => Some (mMaxCounter m) | _ => None end.

Definition VerifyGroup (counter : Z) (s : state) : chip_error :=
  match s with
  | IsSynced m => VerifyPositionEncrypted m (ClassifyWithRollover m counter) counter
  | _ => CHIP_ERROR_INCORRECT_STATE
  end.

Definition VerifyOrTrustFirstGroup (counter : Z) (s : state)
  : option (chip_error * state) :=
  match s with
  | NotSynced => Some (CHIP_NO_ERROR, SetCounter counter s)
  | IsSynced _ => Some (VerifyGroup counter s, s)
  | SyncInProcess _ => None
  end.

(** The commit operations are defined on the [Synced] member only. *)
Definition CommitGroup (counter : Z) (s : state) : option state :=
  match s with
  | IsSynced m => Some (IsSynced (CommitWithRollover m counter))
  | _ => None
  end.

Definition VerifyEncryptedUnicast (counter : Z) (s : state) : chip_error :=
  match s with
  | IsSynced m =>
      VerifyPositionEncrypted m (ClassifyWithoutRollover m counter) counter
  | _ => CHIP_ERROR_INCORRECT_STATE
  end.

Definition CommitEncryptedUnicast (counter : Z) (s : state) : option state :=
  match s with
  | IsSynced m => Some (IsSynced (CommitWithoutRollover m counter))
  | _ => None
  end.

Definition VerifyUnencrypted (counter : Z) (s : state) : option (chip_error * state) :=
  match s with
  | NotSynced => Some (CHIP_NO_ERROR, SetCounter counter s)
  | IsSynced m =>
      Some (VerifyPositionUnencrypted m (ClassifyWithRollover m counter) counter, s)
  | SyncInProcess _ => None
  end.

Definition CommitUnencrypted (counter : Z) (s : state) : option state :=
  CommitGroup counter s.

(** ** Reception of a message

    What a session does with the counter of an arriving message: verify it, and
    once the message is authenticated commit it. *)

Definition receive_unicast (m : Synced) (counter : Z) : bool * Synced :=
  match VerifyEncryptedUnicast counter (IsSynced m) with
  | CHIP_NO_ERROR => (true, CommitWithoutRollover m counter)
  | _ => (false, m)
  end.

Definition receive_group (m : Synced) (counter : Z) : bool * Synced :=
  match VerifyGroup counter (IsSynced m) with
  | CHIP_NO_ERROR => (true, CommitWithRollover m counter)
  | _ => (false, m)
  end.

(** Run a reception function over arriving counters; the accepted ones in order
    of arrival, and the final state. *)
Fixpoint run (recv : Synced → Z → bool * Synced) (m : Synced) (cs : list Z)
  : list Z * Synced :=
  match cs with
  | [] => ([], m)
  | c :: cs' =>
      let '(ok, m') := recv m c in
      let '(acc, m'') := run recv m' cs' in
      (if ok then c :: acc else acc, m'')
  end.

(** ** Invariant and window lemmas *)

Record synced_wf (m : Synced) : Prop := {
  wf_max : in_u32 (mMaxCounter m);
  wf_win : 0 <= mWindow m < 2 ^ CHIP_CONFIG_MESSAGE_COUNTER_WINDOW_SIZE
}.

Lemma window_high_bit m i :
  synced_wf m → CHIP_CONFIG_MESSAGE_COUNTER_WINDOW_SIZE <= i →
  Z.testbit (mWindow m) i = false.
Proof.
  intros [_ Hw] Hi.
  rewrite <- (Z.mod_small _ _ Hw). apply Z.mod_pow2_bits_high.
  unfold CHIP_CONFIG_MESSAGE_COUNTER_WINDOW_SIZE in *. lia.
Qed.

Lemma setbit_range w n i : 0 <= i < n → 0 <= w < 2 ^ n → 0 <= Z.setbit w i < 2 ^ n.
Proof.
  intros Hi Hw. split; [rewrite Z.setbit_spec', Z.lor_nonneg; split; [lia | apply Z.pow_nonneg; lia] |].
  rewrite <- (Z.mod_small w (2 ^ n)), Z.setbit_spec' by lia.
  rewrite <- (Z.mod_small (2 ^ i) (2 ^ n)) by
    (split; [apply Z.pow_nonneg; lia | apply Z.pow_lt_mono_r; lia]).
  rewrite <- !Z.land_ones, <- Z.land_lor_distr_l, Z.land_ones by lia.
  apply Z.mod_pos_bound. apply Z.pow_pos_nonneg; lia.
Qed.

Lemma bitset_shl_spec w n i :
  0 <= n → 0 <= i →
  bitset_test (bitset_shl w n) i
  = (i <? CHIP_CONFIG_MESSAGE_COUNTER_WINDOW_SIZE) && (n <=? i) && Z.testbit w (i - n).
Proof.
  intros Hn Hi. unfold bitset_test, bitset_shl.
  rewrite Z.testbit_mod_pow2 by (unfold CHIP_CONFIG_MESSAGE_COUNTER_WINDOW_SIZE; lia).
  rewrite <- andb_assoc. f_equal. rewrite Z.shiftl_spec by lia.
  destruct (Z.leb_spec n i); [done |]. by apply Z.testbit_neg_r; lia.
Qed.

Lemma bitset_set_spec w pos i :
  0 <= pos → 0 <= i → bitset_test (bitset_set w pos) i = (pos =? i) || bitset_test w i.
Proof. intros. apply Z.setbit_eqb. lia. Qed.

(** The two shapes of a commit. *)
Lemma commit_in_window m c :
  CommitWithPosition m InWindow c
  = mkSynced (mMaxCounter m) (bitset_set (mWindow m) (u32 (mMaxCounter m - c) - 1)).
Proof. done. Qed.

(** Bits of the window after the counter moved to [c]: the old maximum is now
    [shift] behind, and every older message is [shift] bits further. *)
Lemma commit_future_bit m c i :
  synced_wf m → 1 <= u32 (c - mMaxCounter m) →
  0 <= i < CHIP_CONFIG_MESSAGE_COUNTER_WINDOW_SIZE →
  let shift := u32 (c - mMaxCounter m) in
  bitset_test (mWindow (CommitWithPosition m FutureCounter c)) i
  = (i =? shift - 1) || ((shift <=? i) && bitset_test (mWindow m) (i - shift)).
Proof.
  intros Hwf Hs Hi shift. unfold CommitWithPosition. fold shift. fold shift in Hs.
  destruct (Z.ltb_spec CHIP_CONFIG_MESSAGE_COUNTER_WINDOW_SIZE shift); cbn [mWindow].
  - unfold bitset_test at 1. rewrite Z.bits_0.
    rewrite (proj2 (Z.eqb_neq _ _)), (proj2 (Z.leb_gt _ _)) by lia. done.
  - rewrite bitset_set_spec, bitset_shl_spec by lia.
    rewrite (proj2 (Z.ltb_lt _ _)) by lia. rewrite Z.eqb_sym. done.
Qed.

Lemma commit_wf m p c :
  synced_wf m → in_u32 c →
  (p = InWindow → 1 <= u32 (mMaxCounter m - c) <= CHIP_CONFIG_MESSAGE_COUNTER_WINDOW_SIZE) →
  (p = FutureCounter ∨ p = BeforeWindow → 1 <= u32 (c - mMaxCounter m)) →
  synced_wf (CommitWithPosition m p c).
Proof.
  intros [Hm Hw] Hc Hin Hout.
  assert (Hz : in_u32 c ∧ 0 <= 0 < 2 ^ CHIP_CONFIG_MESSAGE_COUNTER_WINDOW_SIZE) by (split; [done | lia]).
  unfold CommitWithPosition, bitset_set, bitset_shl, CHIP_CONFIG_MESSAGE_COUNTER_WINDOW_SIZE in *.
  destruct p; cbn [mMaxCounter mWindow]; try done;
    repeat zcase; split; cbn [mMaxCounter mWindow]; try tauto;
    apply setbit_range; unfold CHIP_CONFIG_MESSAGE_COUNTER_WINDOW_SIZE in *;
    first [ apply Z.mod_pos_bound; lia | lia
          | specialize (Hin eq_refl); lia
          | specialize (Hout (or_introl eq_refl)); lia
          | specialize (Hout (or_intror eq_refl)); lia ].
Qed.

(** Positions in terms of the distance to the maximum. *)
Lemma classify_nonfuture_cases m c :
  match ClassifyNonFutureCounter m c with
  | MaxCounter => c = mMaxCounter m
  | InWindow => c ≠ mMaxCounter m ∧ u32 (mMaxCounter m - c) <= 32
  | BeforeWindow => c ≠ mMaxCounter m ∧ 32 < u32 (mMaxCounter m - c)
  | FutureCounter => False
  end.
Proof.
  unfold ClassifyNonFutureCounter, CHIP_CONFIG_MESSAGE_COUNTER_WINDOW_SIZE.
  repeat zcase; done.
Qed.

(** ** The window against the set of seen messages

    Counters wrap, so messages are identified by an absolute position, an
    integer congruent to the counter; [A] is the position of the maximum. *)

(** [tracks m A seen]: the state knows exactly which positions of its window
    have been seen, and nothing beyond its maximum has been. *)
Record tracks (m : Synced) (A : Z) (seen : list Z) : Prop := {
  tr_wf : synced_wf m;
  tr_pos : mMaxCounter m = u32 A;
  tr_max : A ∈ seen;
  tr_past : ∀ a, a ∈ seen → a <= A;
  tr_window : ∀ a, A - CHIP_CONFIG_MESSAGE_COUNTER_WINDOW_SIZE <= a < A →
    bitset_test (mWindow m) (A - a - 1) = bool_decide (a ∈ seen)
}.

(** The specification of the check: a position is new when it is beyond the
    maximum, or within the window and not seen yet. *)
Definition is_new (A : Z) (seen : list Z) (a : Z) : Prop :=
  A < a ∨ A - CHIP_CONFIG_MESSAGE_COUNTER_WINDOW_SIZE <= a < A ∧ a ∉ seen.

Lemma tracks_init v : in_u32 v → tracks (mkSynced v 0) v [v].
Proof.
  intros Hv. split; cbn [mMaxCounter mWindow].
  - split; [done | cbn [mWindow]; unfold CHIP_CONFIG_MESSAGE_COUNTER_WINDOW_SIZE; lia].
  - by rewrite u32_id.
  - set_solver.
  - intros c Hc. apply list_elem_of_singleton in Hc. lia.
  - intros c Hc. unfold bitset_test. rewrite Z.bits_0.
    symmetry. apply bool_decide_eq_false. rewrite list_elem_of_singleton. lia.
Qed.

Lemma tracks_commit_future m A seen a :
  tracks m A seen → 1 <= a - A < 2 ^ 32 →
  tracks (CommitWithPosition m FutureCounter (u32 a)) a (a :: seen).
Proof.
  intros [Hwf Hpos Hmax Hpast Hwin] Hlt.
  assert (Hsh : u32 (u32 a - mMaxCounter m) = a - A) by (rewrite Hpos; wrap_lia).
  assert (Hm' : mMaxCounter (CommitWithPosition m FutureCounter (u32 a)) = u32 a)
    by (unfold CommitWithPosition; by zcase).
  split.
  - apply commit_wf; [done | apply u32_range | done | lia].
  - done.
  - set_solver.
  - intros d [-> | Hd]%elem_of_cons; [lia |]. specialize (Hpast d Hd). lia.
  - intros d Hd. rewrite commit_future_bit, Hsh by (done || lia).
    destruct (Z.eqb_spec (a - d - 1) (a - A - 1)) as [Heq |].
    { cbn. symmetry. apply bool_decide_eq_true. replace d with A by lia. set_solver. }
    destruct (Z.leb_spec (a - A) (a - d - 1)); cbn.
    + replace (a - d - 1 - (a - A)) with (A - d - 1) by lia.
      rewrite Hwin by lia. apply bool_decide_ext. rewrite elem_of_cons.
      split; [auto | intros [-> | ?]; [lia | done]].
    + symmetry. apply bool_decide_eq_false. rewrite elem_of_cons.
      intros [-> | Hin]; [lia |]. specialize (Hpast d Hin). lia.
Qed.

Lemma tracks_commit_window m A seen a :
  tracks m A seen → A - CHIP_CONFIG_MESSAGE_COUNTER_WINDOW_SIZE <= a < A →
  tracks (CommitWithPosition m InWindow (u32 a)) A (a :: seen).
Proof.
  intros [Hwf Hpos Hmax Hpast Hwin] Hr.
  assert (Hof : u32 (mMaxCounter m - u32 a) = A - a)
    by (rewrite Hpos; unfold CHIP_CONFIG_MESSAGE_COUNTER_WINDOW_SIZE in *; wrap_lia).
  rewrite commit_in_window, Hof. split; cbn [mMaxCounter mWindow].
  - pose proof (commit_wf m InWindow (u32 a) Hwf (u32_range a)) as Hcw.
    rewrite commit_in_window, Hof in Hcw. apply Hcw; [lia | by intros []].
  - done.
  - set_solver.
  - intros d [-> | Hd]%elem_of_cons; [lia |]. by apply Hpast.
  - intros d Hd. rewrite bitset_set_spec, Hwin by lia.
    destruct (Z.eqb_spec (A - a - 1) (A - d - 1)) as [Heq |].
    { cbn. symmetry. apply bool_decide_eq_true. replace d with a by lia. set_solver. }
    cbn. apply bool_decide_ext. rewrite elem_of_cons.
    split; [auto | intros [-> | ?]; [lia | done]].
Qed.

(** The position check on a message at absolute position [a], for either way
    of classifying its counter. *)
Lemma verify_position_iff m A seen a :
  tracks m A seen → A - 2 ^ 31 <= a <= A →
  let c := u32 a in
  VerifyPositionEncrypted m (ClassifyNonFutureCounter m c) c = CHIP_NO_ERROR ↔
  is_new A seen a.
Proof.
  intros [Hwf Hpos Hmax Hpast Hwin] Ha c. subst c.
  assert (Hof : u32 (mMaxCounter m - u32 a) = A - a) by (rewrite Hpos; wrap_lia).
  unfold ClassifyNonFutureCounter, is_new.
  destruct (Z.eqb_spec (u32 a) (mMaxCounter m)) as [Heq |].
  { assert (a = A) as -> by (rewrite Hpos in Heq; wrap_lia).
    cbn. split; [done | intros [? | [? ?]]; lia]. }
  rewrite Hof. cbn zeta.
  destruct (Z.leb_spec (A - a) CHIP_CONFIG_MESSAGE_COUNTER_WINDOW_SIZE); cbn.
  2: { split; [done | intros [? | [? ?]]; lia]. }
  assert (a ≠ A) by congruence.
  rewrite Hof, Hwin by lia.
  case_bool_decide; split; try done;
    [intros [? | [? ?]]; [lia | done] | intros _; right; split; [lia | done]].
Qed.

(** In-window positions are classified as such. *)
Lemma classify_window m A seen a :
  tracks m A seen → A - CHIP_CONFIG_MESSAGE_COUNTER_WINDOW_SIZE <= a < A →
  ClassifyNonFutureCounter m (u32 a) = InWindow.
Proof.
  intros [_ Hpos _ _ _] Ha. unfold ClassifyNonFutureCounter, CHIP_CONFIG_MESSAGE_COUNTER_WINDOW_SIZE in *.
  rewrite (proj2 (Z.eqb_neq _ _)) by (rewrite Hpos; wrap_lia). cbn zeta.
  by rewrite (proj2 (Z.leb_le _ _)) by (rewrite Hpos; wrap_lia).
Qed.

(** ** One reception *)

(** What a reception does to the abstract state: position [a] is accepted
    exactly when it is new. *)
Definition received (A : Z) (seen : list Z) (a : Z) (ok : bool) (m' : Synced) : Prop :=
  if ok then is_new A seen a ∧ tracks m' (Z.max A a) (a :: seen)
  else ¬ is_new A seen a ∧ tracks m' A seen.

Lemma receive_past m A seen a (verdict : chip_error) :
  tracks m A seen → A - 2 ^ 31 <= a <= A →
  verdict = VerifyPositionEncrypted m (ClassifyNonFutureCounter m (u32 a)) (u32 a) →
  let r := match verdict with
           | CHIP_NO_ERROR => (true, CommitWithPosition m (ClassifyNonFutureCounter m (u32 a)) (u32 a))
           | _ => (false, m)
           end in
  received A seen a r.1 r.2.
Proof.
  intros Ht Ha ->. pose proof (verify_position_iff m A seen a Ht Ha) as Hv. cbn zeta in *.
  destruct (decide (VerifyPositionEncrypted m (ClassifyNonFutureCounter m (u32 a)) (u32 a)
                    = CHIP_NO_ERROR)) as [E | E].
  - rewrite E in *. cbn. assert (Hn : is_new A seen a) by tauto.
    split; [done |]. destruct Hn as [? | [Hr _]]; [lia |].
    rewrite (classify_window m A seen a Ht Hr), Z.max_l by lia. by apply tracks_commit_window.
  - assert (¬ is_new A seen a) by tauto.
    by destruct (VerifyPositionEncrypted m (ClassifyNonFutureCounter m (u32 a)) (u32 a)).
Qed.

Lemma receive_future m A seen a :
  tracks m A seen → 1 <= a - A < 2 ^ 32 →
  received A seen a true (CommitWithPosition m FutureCounter (u32 a)).
Proof.
  intros Ht Ha. split; [left; lia |]. rewrite Z.max_r by lia. by apply (tracks_commit_future m A).
Qed.

Lemma receive_unicast_spec m seen c :
  tracks m (mMaxCounter m) seen → in_u32 c →
  let r := receive_unicast m c in
  received (mMaxCounter m) seen c r.1 r.2.
Proof.
  intros Ht Hc r. subst r. pose proof (wf_max _ (tr_wf _ _ _ Ht)) as Hm.
  unfold receive_unicast, CommitWithoutRollover, VerifyEncryptedUnicast, ClassifyWithoutRollover.
  destruct (Z.ltb_spec (mMaxCounter m) c).
  { pose proof (receive_future m _ _ c Ht ltac:(solve_width)) as Hr.
    by rewrite u32_id in Hr by done. }
  destruct (decide (mMaxCounter m - 2 ^ 31 <= c)) as [Hn | Hfar].
  { pose proof (receive_past m _ _ c _ Ht ltac:(lia) eq_refl) as Hr.
    rewrite u32_id in Hr by done. apply Hr. }
  assert (ClassifyNonFutureCounter m c = BeforeWindow) as ->.
  { unfold ClassifyNonFutureCounter, CHIP_CONFIG_MESSAGE_COUNTER_WINDOW_SIZE.
    rewrite (proj2 (Z.eqb_neq _ _)) by lia. cbn zeta.
    by rewrite (proj2 (Z.leb_gt _ _)) by wrap_lia. }
  cbn. split; [| done].
  unfold is_new, CHIP_CONFIG_MESSAGE_COUNTER_WINDOW_SIZE. intros [? | [? _]]; lia.
Qed.

(** Under rollover the counter [c] stands for the position nearest to the
    maximum. *)
Definition position_of (A c : Z) : Z :=
  let d := u32 (c - u32 A) in if d <=? futureCounterWindow then A + d else A + d - 2 ^ 32.

Lemma position_of_spec A c :
  in_u32 c → A - 2 ^ 31 <= position_of A c <= A + 2 ^ 31 - 1 ∧ u32 (position_of A c) = c.
Proof.
  intros Hc. unfold position_of, futureCounterWindow. change (Z.shiftl 1 31) with 2147483648.
  zcase; split; wrap_lia.
Qed.

Lemma receive_group_spec m A seen c :
  tracks m A seen → in_u32 c →
  let r := receive_group m c in
  received A seen (position_of A c) r.1 r.2.
Proof.
  intros Ht Hc r. subst r. destruct (position_of_spec A c Hc) as [Hr Hu].
  assert (Hd : position_of A c = A + u32 (c - u32 A) ∧ u32 (c - u32 A) <= futureCounterWindow ∨
               position_of A c = A + u32 (c - u32 A) - 2 ^ 32 ∧ futureCounterWindow < u32 (c - u32 A))
    by (unfold position_of; zcase; auto).
  unfold receive_group, CommitWithRollover, VerifyGroup, ClassifyWithRollover.
  rewrite (tr_pos _ _ _ Ht).
  destruct ((1 <=? u32 (c - u32 A)) && (u32 (c - u32 A) <=? futureCounterWindow)) eqn:E.
  - zbool. pose proof (receive_future m A seen (position_of A c) Ht) as Hf.
    rewrite Hu in Hf. apply Hf.
    unfold futureCounterWindow in *. change (Z.shiftl 1 31) with 2147483648 in *. lia.
  - assert (Hp : position_of A c <= A).
    { apply andb_false_iff in E. pose proof (u32_range (c - u32 A)).
      destruct E; zbool; solve_width. }
    pose proof (receive_past m A seen (position_of A c) _ Ht ltac:(lia) eq_refl) as Hq.
    by rewrite Hu in Hq.
Qed.

(** ** Sequences of receptions *)

#[local] Arguments reverse : simpl never.

(** The abstract counterpart of [run]: positions accepted from [A] and [seen]
    on, most recent first, and the position of the maximum at the end. *)
Lemma run_unicast_tracks cs : ∀ m seen,
  tracks m (mMaxCounter m) seen → Forall in_u32 cs → NoDup seen →
  let r := run receive_unicast m cs in
  tracks r.2 (mMaxCounter r.2) (reverse r.1 ++ seen) ∧ NoDup (reverse r.1 ++ seen) ∧
  mMaxCounter r.2 = foldr Z.max (mMaxCounter m) r.1.
Proof.
  induction cs as [| c cs IH]; intros m seen Ht Hcs Hnd; [done |].
  apply Forall_cons_1 in Hcs as [Hc Hcs]. cbn.
  pose proof (receive_unicast_spec m seen c Ht Hc) as Hr.
  destruct (receive_unicast m c) as [ok m'] eqn:E. cbn in Hr.
  assert (Hm' : mMaxCounter m' = if ok then Z.max (mMaxCounter m) c else mMaxCounter m).
  { pose proof (wf_max _ (tr_wf _ _ _ Ht)).
    destruct ok; destruct Hr as [Hn Ht']; rewrite (tr_pos _ _ _ Ht'); apply u32_id; solve_width. }
  destruct ok; destruct Hr as [Hn Ht'].
  - rewrite <- Hm' in Ht'.
    assert (Hnd' : NoDup (c :: seen)).
    { constructor; [| done]. destruct Hn as [Hlt | [_ Hns]]; [| done].
      intros Hin. apply (tr_past _ _ _ Ht) in Hin. lia. }
    specialize (IH m' (c :: seen) Ht' Hcs Hnd').
    destruct (run receive_unicast m' cs) as [acc m''] eqn:Er. cbn in *.
    rewrite reverse_cons, <- app_assoc. destruct IH as (IH1 & IH2 & IH3).
    split; [done |]. split; [done |]. rewrite IH3, Hm'. clear.
    induction acc; cbn; lia.
  - assert (Ht2 : tracks m' (mMaxCounter m') seen) by congruence.
    specialize (IH m' seen Ht2 Hcs Hnd).
    destruct (run receive_unicast m' cs) as [acc m''] eqn:Er. cbn in *.
    by rewrite <- Hm'.
Qed.

(** How far the maximum of a group session moved over a run, in total. *)
Fixpoint advance (m : Synced) (cs : list Z) : Z :=
  match cs with
  | [] => 0
  | c :: cs' =>
      let m' := (receive_group m c).2 in
      u32 (mMaxCounter m' - mMaxCounter m) + advance m' cs'
  end.

Lemma advance_nonneg cs : ∀ m, 0 <= advance m cs.
Proof.
  induction cs as [| c cs IH]; intros m; [done |]. cbn.
  specialize (IH (receive_group m c).2).
  pose proof (u32_range (mMaxCounter (receive_group m c).2 - mMaxCounter m)). solve_width.
Qed.

(** One step of [advance] is the move of the absolute position. *)
Lemma advance_step m A seen c :
  tracks m A seen → in_u32 c →
  u32 (mMaxCounter (receive_group m c).2 - mMaxCounter m)
  = if (receive_group m c).1 then Z.max A (position_of A c) - A else 0.
Proof.
  intros Ht Hc. pose proof (receive_group_spec m A seen c Ht Hc) as Hr. cbn zeta in Hr.
  pose proof (position_of_spec A c Hc) as [Hp _].
  destruct (receive_group m c) as [[] m']; destruct Hr as [_ Ht']; cbn in *;
    rewrite (tr_pos _ _ _ Ht), (tr_pos _ _ _ Ht'); wrap_lia.
Qed.

(** Same for group messages, whose positions are given by [position_of]. *)
Lemma run_group_tracks cs : ∀ m A seen,
  tracks m A seen → Forall in_u32 cs → NoDup seen →
  ∃ acc A', tracks (run receive_group m cs).2 A' (reverse acc ++ seen) ∧
    NoDup (reverse acc ++ seen) ∧ A' = A + advance m cs ∧
    (run receive_group m cs).1 = u32 <$> acc ∧
    Forall (λ a, A - CHIP_CONFIG_MESSAGE_COUNTER_WINDOW_SIZE <= a <= A') acc.
Proof.
  induction cs as [| c cs IH]; intros m A seen Ht Hcs Hnd.
  { exists [], A. cbn. split_and!; [done | done | lia | done | constructor]. }
  apply Forall_cons_1 in Hcs as [Hc Hcs]. cbn.
  pose proof (receive_group_spec m A seen c Ht Hc) as Hr.
  pose proof (advance_step m A seen c Ht Hc) as Hadv.
  pose proof (advance_nonneg cs (receive_group m c).2) as Hpos.
  destruct (receive_group m c) as [ok m'] eqn:E. cbn in Hr, Hadv, Hpos |- *.
  rewrite Hadv. destruct ok; destruct Hr as [Hn Ht'].
  - assert (Hnd' : NoDup (position_of A c :: seen)).
    { constructor; [| done]. destruct Hn as [Hlt | [_ Hns]]; [| done].
      intros Hin. apply (tr_past _ _ _ Ht) in Hin. lia. }
    destruct (IH m' _ _ Ht' Hcs Hnd') as (acc & A' & H1 & H2 & H3 & H4 & H5).
    destruct (run receive_group m' cs) as [acc0 m''] eqn:Er. cbn in *.
    exists (position_of A c :: acc), A'. rewrite reverse_cons, <- app_assoc.
    split; [done |]. split; [done |]. split; [lia |].
    split; [cbn; by rewrite H4, (proj2 (position_of_spec A c Hc)) |].
    constructor.
    + unfold is_new, CHIP_CONFIG_MESSAGE_COUNTER_WINDOW_SIZE in *.
      destruct Hn as [? | [? ?]]; lia.
    + rewrite Forall_forall in H5 |- *. intros a Ha. specialize (H5 a Ha). lia.
  - destruct (IH m' A seen Ht' Hcs Hnd) as (acc & A' & H1 & H2 & H3 & H4 & H5).
    destruct (run receive_group m' cs) as [acc0 m''] eqn:Er. cbn in *.
    exists acc, A'. split_and!; auto.
Qed.

(** ** Theorems *)

(** C39: on a secure unicast session the window check is exact. After any
    sequence of receptions from a freshly set counter [v], the maximum is the
    largest of [v] and the accepted counters, and a counter passes
    [VerifyEncryptedUnicast] if and only if it is beyond that maximum, or at
    most 32 behind it and neither [v] nor one of the accepted ones. *)
Theorem unicast_window_exact (v : Z) (cs : list Z) (s : state) (m : Synced) (c : Z) :
  in_u32 v → Forall in_u32 cs → in_u32 c → SetCounter v s = IsSynced m →
  let '(acc, m') := run receive_unicast m cs in
  mMaxCounter m' = foldr Z.max v acc ∧
  (VerifyEncryptedUnicast c (IsSynced m') = CHIP_NO_ERROR ↔
   mMaxCounter m' < c ∨
   mMaxCounter m' - CHIP_CONFIG_MESSAGE_COUNTER_WINDOW_SIZE <= c < mMaxCounter m' ∧
   c ∉ v :: acc).
Proof.
  intros Hv Hcs Hc Hs. cbv [SetCounter] in Hs. simplify_eq.
  pose proof (run_unicast_tracks cs (mkSynced v 0) [v] (tracks_init v Hv) Hcs (NoDup_singleton v)) as Hr.
  destruct (run receive_unicast (mkSynced v 0) cs) as [acc m']. cbn in Hr |- *.
  destruct Hr as (Ht & _ & Hm). split; [done |].
  pose proof (receive_unicast_spec m' _ c Ht Hc) as Hx. cbn zeta in Hx.
  unfold receive_unicast in Hx. cbn [VerifyEncryptedUnicast] in Hx |- *.
  assert (Hsee : ∀ P : Prop, (P ∧ c ∉ reverse acc ++ [v]) ↔ (P ∧ c ∉ v :: acc))
    by (intros P; rewrite elem_of_app, elem_of_reverse; set_solver).
  destruct (VerifyPositionEncrypted m' (ClassifyWithoutRollover m' c) c);
    cbn in Hx; destruct Hx as [Hx _]; unfold is_new in Hx; rewrite Hsee in Hx;
    (split; [intros _; first [done | exact Hx] | done]) || (split; [done | intros Hy; by destruct (Hx Hy)]).
Qed.

Lemma unicast_window_exact_witness :
  let '(acc, m') := run receive_unicast (mkSynced 100 0) [101; 100; 99; 99; 140; 107; 110; 110] in
  mMaxCounter m' = foldr Z.max 100 acc ∧
  (VerifyEncryptedUnicast 109 (IsSynced m') = CHIP_NO_ERROR ↔
   mMaxCounter m' < 109 ∨
   mMaxCounter m' - CHIP_CONFIG_MESSAGE_COUNTER_WINDOW_SIZE <= 109 < mMaxCounter m' ∧
   109 ∉ 100 :: acc).
Proof.
  apply (unicast_window_exact 100 [101; 100; 99; 99; 140; 107; 110; 110] NotSynced (mkSynced 100 0) 109).
  - solve_width.
  - repeat constructor; solve_width.
  - solve_width.
  - reflexivity.
Defined.

(** replay protection on a secure unicast session. Whatever counters arrive,
    in any order, no counter value is accepted twice, and the counter the session
    was synchronised to is never accepted. *)
Theorem unicast_no_replay (v : Z) (cs : list Z) :
  in_u32 v → Forall in_u32 cs →
  NoDup (v :: (run receive_unicast (mkSynced v 0) cs).1).
Proof.
  intros Hv Hcs.
  pose proof (run_unicast_tracks cs (mkSynced v 0) [v] (tracks_init v Hv) Hcs (NoDup_singleton v)) as Hr.
  destruct Hr as (_ & Hnd & _). apply NoDup_app in Hnd as (H1 & H2 & _). constructor.
  - intros Hin. apply (H2 v); [by apply elem_of_reverse | set_solver].
  - by rewrite (reverse_Permutation (run receive_unicast (mkSynced v 0) cs).1) in H1.
Qed.

Lemma unicast_no_replay_witness :
  NoDup (7 :: (run receive_unicast (mkSynced 7 0) [8; 8; 7; 50; 49; 49; 8; 4294967295]).1).
Proof. apply (unicast_no_replay 7); [solve_width | repeat constructor; solve_width]. Defined.

(** C40: replay protection for group messages, whose counters roll over. As long
    as the maximum has advanced by less than 2^32 - 32 over the whole sequence, no
    counter value is accepted twice and the trusted first one is never accepted. *)
Theorem group_no_replay (v : Z) (cs : list Z) :
  in_u32 v → Forall in_u32 cs →
  advance (mkSynced v 0) cs < 2 ^ 32 - CHIP_CONFIG_MESSAGE_COUNTER_WINDOW_SIZE →
  NoDup (v :: (run receive_group (mkSynced v 0) cs).1).
Proof.
  intros Hv Hcs Hadv.
  destruct (run_group_tracks cs (mkSynced v 0) v [v] (tracks_init v Hv) Hcs (NoDup_singleton v))
    as (acc & A' & _ & Hnd & HA & -> & Hrange).
  assert (Hnd' : NoDup (v :: acc)).
  { apply NoDup_app in Hnd as (H1 & H2 & _). constructor.
    - intros Hin. apply (H2 v); [by apply elem_of_reverse | set_solver].
    - by rewrite (reverse_Permutation acc) in H1. }
  assert (Hr' : Forall (λ a, v - CHIP_CONFIG_MESSAGE_COUNTER_WINDOW_SIZE <= a <= A') (v :: acc)).
  { constructor; [| done]. pose proof (advance_nonneg cs (mkSynced v 0)).
    unfold CHIP_CONFIG_MESSAGE_COUNTER_WINDOW_SIZE in *. lia. }
  rewrite <- (u32_id v) at 1 by done. change (NoDup (u32 <$> (v :: acc))).
  apply NoDup_fmap_2_strong; [| done]. intros a b Ha Hb Hab.
  rewrite Forall_forall in Hr'. apply Hr' in Ha, Hb.
  unfold CHIP_CONFIG_MESSAGE_COUNTER_WINDOW_SIZE in *. wrap_lia.
Qed.

Lemma group_no_replay_witness :
  NoDup (4294967290 :: (run receive_group (mkSynced 4294967290 0) [3; 4294967293; 3; 4294967293; 20]).1).
Proof.
  apply (group_no_replay 4294967290); [solve_width | repeat constructor; solve_width |].
  vm_compute. reflexivity.
Defined.

(** the classification of group counters is the documented partition of the
    counter space around the maximum, modulo 2^32: future is [max+1 .. max+2^31-1],
    the window is [max-32 .. max-1], and everything from [max-2^31] up to [max-33]
    is before the window. *)
Theorem group_classification (m : Synced) (d : Z) :
  in_u32 (mMaxCounter m) → - 2 ^ 31 <= d < 2 ^ 31 →
  ClassifyWithRollover m (u32 (mMaxCounter m + d))
  = if 0 <? d then FutureCounter
    else if d =? 0 then MaxCounter
    else if - CHIP_CONFIG_MESSAGE_COUNTER_WINDOW_SIZE <=? d then InWindow
    else BeforeWindow.
Proof.
  intros Hm Hd.
  unfold ClassifyWithRollover, ClassifyNonFutureCounter, futureCounterWindow,
    CHIP_CONFIG_MESSAGE_COUNTER_WINDOW_SIZE. change (Z.shiftl 1 31) with 2147483648.
  change (2 ^ 31) with 2147483648 in Hd.
  destruct (Z.ltb_spec 0 d).
  { rewrite (proj2 (Z.leb_le _ _)), (proj2 (Z.leb_le _ _)) by wrap_lia. done. }
  assert ((1 <=? u32 (u32 (mMaxCounter m + d) - mMaxCounter m)) &&
          (u32 (u32 (mMaxCounter m + d) - mMaxCounter m) <=? 2147483648 - 1) = false) as ->.
  { apply andb_false_iff. rewrite !Z.leb_gt. wrap_lia. }
  destruct (Z.eqb_spec d 0) as [-> |].
  { rewrite (proj2 (Z.eqb_eq _ _)) by wrap_lia. done. }
  rewrite (proj2 (Z.eqb_neq _ _)) by wrap_lia. cbn zeta.
  replace (u32 (mMaxCounter m - u32 (mMaxCounter m + d))) with (- d) by wrap_lia.
  repeat zcase; done || lia.
Qed.

Lemma group_classification_witness :
  ClassifyWithRollover (mkSynced 5 0) (u32 (mMaxCounter (mkSynced 5 0) + -20)) = InWindow.
Proof.
  rewrite (group_classification (mkSynced 5 0) (-20)); [reflexivity | cbn; solve_width | lia].
Defined.

(** ** The class as a state machine *)

(** One call of a public operation on a counter object. *)
Inductive step : state → state → Prop :=
| step_Reset s : step s (Reset s)
| step_SyncStarting ch s s' : SyncStarting ch s = Some s' → step s s'
| step_SyncFailed s : step s (SyncFailed s)
| step_VerifyChallenge c ch s : in_u32 c → step s (VerifyChallenge c ch s).2
| step_SetCounter c s : in_u32 c → step s (SetCounter c s)
| step_VerifyOrTrustFirstGroup c s e s' :
    in_u32 c → VerifyOrTrustFirstGroup c s = Some (e, s') → step s s'
| step_VerifyUnencrypted c s e s' :
    in_u32 c → VerifyUnencrypted c s = Some (e, s') → step s s'
| step_CommitGroup c s s' : in_u32 c → CommitGroup c s = Some s' → step s s'
| step_CommitEncryptedUnicast c s s' :
    in_u32 c → CommitEncryptedUnicast c s = Some s' → step s s'
| step_CommitUnencrypted c s s' :
    in_u32 c → CommitUnencrypted c s = Some s' → step s s'.

Definition state_wf (s : state) : Prop :=
  match s with IsSynced m => synced_wf m | _ => True end.

Lemma fresh_wf v : in_u32 v → synced_wf (mkSynced v 0).
Proof. intros Hv. apply (tr_wf _ _ _ (tracks_init v Hv)). Qed.

Lemma commit_nonfuture_wf m c :
  synced_wf m → in_u32 c → synced_wf (CommitWithPosition m (ClassifyNonFutureCounter m c) c).
Proof.
  intros Hwf Hc. pose proof (classify_nonfuture_cases m c) as Hp.
  pose proof (wf_max m Hwf). apply commit_wf; [done | done | |];
    destruct (ClassifyNonFutureCounter m c); try done; intros Hq.
  - unfold CHIP_CONFIG_MESSAGE_COUNTER_WINDOW_SIZE. wrap_lia.
  - wrap_lia.
  - by destruct Hq.
  - by destruct Hq.
Qed.

Lemma commit_group_wf m c : synced_wf m → in_u32 c → synced_wf (CommitWithRollover m c).
Proof.
  intros Hwf Hc. unfold CommitWithRollover, ClassifyWithRollover.
  destruct ((1 <=? _) && _) eqn:E; [| by apply commit_nonfuture_wf].
  zbool. by apply commit_wf.
Qed.

Lemma commit_unicast_wf m c : synced_wf m → in_u32 c → synced_wf (CommitWithoutRollover m c).
Proof.
  intros Hwf Hc. unfold CommitWithoutRollover, ClassifyWithoutRollover. pose proof (wf_max m Hwf).
  zcase; [| by apply commit_nonfuture_wf]. apply commit_wf; [done | done | done |].
  intros _. wrap_lia.
Qed.

#[local] Hint Resolve fresh_wf commit_group_wf commit_unicast_wf : width.

Lemma step_wf s s' : step s s' → state_wf s → state_wf s'.
Proof.
  destruct 1 as [s | ch s s' H | s | c ch s Hc | c s Hc | c s e s' Hc H | c s e s' Hc H
                | c s s' Hc H | c s s' Hc H | c s s' Hc H];
    destruct s as [| mch | m]; cbn in *; intros Hwf; simplify_eq; cbn; auto with width.
  case_decide; cbn; auto with width.
Qed.

(** every state a counter object can reach from its construction, by any
    sequence of calls on any counters, is well formed: the maximum is a 32-bit
    value and the window has no bit outside its 32 positions, so the bit tests
    and shifts of the code are always in range. *)
Theorem reachable_well_formed (s : state) : rtc step NotSynced s → state_wf s.
Proof.
  intros Hr. assert (H0 : state_wf NotSynced) by done. revert H0.
  induction Hr as [| s1 s2 s3 Hs _ IH]; [done |]. eauto using step_wf.
Qed.

Lemma reachable_well_formed_witness :
  state_wf (IsSynced (CommitWithRollover (mkSynced 9 0) 11)).
Proof.
  apply reachable_well_formed.
  eapply rtc_l; [apply (step_SyncStarting [1; 2; 3; 4; 5; 6; 7; 8]); reflexivity |].
  eapply rtc_l; [apply (step_VerifyChallenge 9 [1; 2; 3; 4; 5; 6; 7; 8]); solve_width |].
  eapply rtc_l; [apply (step_CommitGroup 11); [solve_width | reflexivity] | apply rtc_refl].
Defined.

End PeerMessageCounter.
