(* ===== verification/NvTypes.v ===== *)
(** * NV driver: constants, data and the services it is given

    Model of the declarations of src/src/platform/cc13xx_26xx/nvocmp.c, in the
    configuration of third_party/ti_simplelink_sdk/ti_simplelink_sdk.gni:
    [NVOCMP_NVPAGES=12] (the multi-page code), [NVOCMP_NWSAMEITEM=1], CC13X4 page
    size, no migration, no statistics, no GPRAM and no RAM optimisation;
    [NVOCMP_ALERT] and [NVOCMP_ASSERT] expand to nothing. *)

From S2P Require Import Prelude.

(** ** What the driver is given

    [nvintf.h], [nvocmp.h], [crc.h] and the NVS flash driver belong to the SDK and
    are not part of the repository: they are parameters, a class for what they
    provide and a class for what the driver relies on. *)

(** Status codes and request flags of [nvintf.h]. *)
Class NvCodes := {
  NVINTF_SUCCESS : Z;
  NVINTF_FAILURE : Z;
  NVINTF_CORRUPT : Z;
  NVINTF_NOTREADY : Z;
  NVINTF_BADPARAM : Z;
  NVINTF_BADLENGTH : Z;
  NVINTF_BADOFFSET : Z;
  NVINTF_BADITEMID : Z;
  NVINTF_BADSUBID : Z;
  NVINTF_BADSYSID : Z;
  NVINTF_NOTFOUND : Z;
  NVINTF_LOWPOWER : Z;
  NVINTF_BADVERSION : Z;
  NVINTF_EXIST : Z;
  NVINTF_DOSTART : Z;
  NVINTF_DOFIND : Z;
  NVINTF_DOREAD : Z;
  NVINTF_DODELETE : Z;
  NVINTF_DOSYSID : Z;
  NVINTF_DOITMID : Z;
  NVINTF_DOANYID : Z;
  NVINTF_SYSID_NVDRVR : Z
}.

(** The failure codes, in no particular order. *)
Definition nv_failures `{NvCodes} : list Z :=
  [NVINTF_FAILURE; NVINTF_CORRUPT; NVINTF_NOTREADY; NVINTF_BADPARAM; NVINTF_BADLENGTH;
   NVINTF_BADOFFSET; NVINTF_BADITEMID; NVINTF_BADSUBID; NVINTF_BADSYSID; NVINTF_NOTFOUND;
   NVINTF_LOWPOWER; NVINTF_BADVERSION; NVINTF_EXIST].

(** Success is zero (the driver tests [if (err)]), failures are distinct
    non-zero values that fit the [int8_t] some functions return. *)
Class NvCodesOk `{NvCodes} : Prop := {
  success_is_zero : NVINTF_SUCCESS = 0;
  failures_range : Forall (λ c, 0 < c < 128) nv_failures;
  failures_distinct : NoDup nv_failures
}.

(** The flash region, the optional voltage check and the CRC. A negative status
    is a failure; the voltage check may be absent and may change its mind. *)
Class Nvs := {
  dev : Type;
  NVS_read : dev → Z → Z → list Z;
  NVS_write : dev → Z → list Z → Z * dev;
  NVS_erase : dev → Z → Z → Z * dev;
  NVOCMP_voltCheckFptr : dev → option (bool * dev);
  NVS_sectorSize : Z;
  NVS_regionSize : Z;
  crc_update : Z → list Z → Z
}.

(** ** Constants *)

Definition NVINTF_DONOWRAP : Z := 0x80.
Definition NVOCMP_NVPAGES : Z := 12.
Definition NVOCMP_MAXSYSID : Z := 0x003F.
Definition NVOCMP_MAXITEMID : Z := 0x03FF.
Definition NVOCMP_MAXSUBID : Z := 0x03FF.
Definition NVOCMP_MAXLEN : Z := 0x0FFF.
Definition NVOCMP_INVALIDSUBID : Z := 0xFFFF.
Definition NVOCMP_ERASEDBYTE : Z := 0xFF.
Definition NVOCMP_ERASEDWORD : Z := 0xFFFFFFFF.
Definition NVOCMP_CMPSPACE : Z := 12.
Definition NVOCMP_NULLPAGE : Z := 0xFF.
Definition NVOCMP_XFERBLKMAX : Z := 32.
Definition NVOCMP_SMALLITEM : Z := 12.
Definition NVOCMP_COMPARE_SIZE : Z := 32.

Definition NVOCMP_FINDANY : Z := 0x00.
Definition NVOCMP_FINDSYSID : Z := 0x01.
Definition NVOCMP_FINDITMID : Z := 0x02.
Definition NVOCMP_FINDSTRICT : Z := 0x03.
Definition NVOCMP_FINDCONTENT : Z := 0x10.
Definition NVOCMP_FINDLMASK : Z := 0x0F.
Definition NVOCMP_FINDHMASK : Z := 0xF0.

Definition PAGE_SIZE_LSHIFT : Z := 11.
Definition FLASH_PAGE_SIZE : Z := Z.shiftl 1 PAGE_SIZE_LSHIFT.
Definition NVOCMP_FLASHOFFSET (pg ofs : Z) : Z := Z.shiftl pg PAGE_SIZE_LSHIFT + ofs.

Definition NVOCMP_VERSION : Z := 0x03.
Definition NVOCMP_SIGNATURE : Z := 0x96.

Definition NVOCMP_PGHDRLEN : Z := 4.
Definition NVOCMP_COMPACTHDRLEN : Z := 4.
Definition NVOCMP_PGHDROFS : Z := 0.
Definition NVOCMP_PGHDRVER : Z := 2.
Definition NVOCMP_COMPMODEOFS : Z := 6.
Definition NVOCMP_NOCOMPHDR : Z := 3.
Definition NVOCMP_PGDATAOFS : Z := NVOCMP_PGHDRLEN + NVOCMP_NOCOMPHDR * NVOCMP_COMPACTHDRLEN.

Definition NVOCMP_PGNORMAL : Z := 0xFF.
Definition NVOCMP_PGCDST : Z := 0xFE.
Definition NVOCMP_PGCDONE : Z := 0xFC.
Definition NVOCMP_PGCSRC : Z := 0xF8.

(** [NVOCMP_pageState_t] *)
Definition NVOCMP_PGNACT : Z := 0xFF.
Definition NVOCMP_PGXDST : Z := 0xFE.
Definition NVOCMP_PGRDY : Z := 0x7E.
Definition NVOCMP_PGACT : Z := 0x7C.
Definition NVOCMP_PGFULL : Z := 0x78.
Definition NVOCMP_PGXSRC : Z := 0x70.

Inductive NVOCMP_compactStatus :=
| NVOCMP_COMPACT_DONE (srcDone dstDone : bool)
| NVOCMP_COMPACT_FAILURE.

Definition NVOCMP_MINCYCLE : Z := 0x01.
Definition NVOCMP_MAXCYCLE : Z := 0xFE.
Definition NVOCMP_ALLACTIVE : Z := 0x3.
Definition NVOCMP_SOMEINACTIVE : Z := 0x0.

Definition NVOCMP_ITEMHDRLEN : Z := 7.
Definition NVOCMP_HDRVLDOFS : Z := 5.
Definition NVOCMP_HDRCRCINC : Z := 5.
Definition NVOCMP_ACTIVEIDBIT : Z := 0x2.
Definition NVOCMP_VALIDIDBIT : Z := 0x1.
Definition NVOCMP_FOLLOWBIT : Z := 0x4.

Definition NVOCMP_NULLOFFSET : Z := 0xFFFF.
Definition THISPAGEHDR : Z := 0.
Definition XSRCSTARTHDR : Z := 1.
Definition XSRCENDHDR : Z := 2.

(** Compressed identifier of an item. *)
Definition NVOCMP_CMPRID (s i b : Z) : Z :=
  u32 (Z.lor (Z.shiftl (Z.lor (Z.shiftl (Z.land s NVOCMP_MAXSYSID) NVOCMP_CMPSPACE)
                              (Z.land i NVOCMP_MAXITEMID)) NVOCMP_CMPSPACE)
             (Z.land b NVOCMP_MAXSUBID)).

(** ** Data *)

Record NVOCMP_pageHdr_t := mkPageHdr {
  ph_state : Z; ph_cycle : Z; ph_allActive : Z; ph_version : Z; ph_signature : Z }.

Record NVOCMP_compactHdr_t := mkCompactHdr {
  ch_pageOffset : Z; ch_page : Z; ch_signature : Z }.

Record NVINTF_itemID_t := mkItemID { systemID : Z; itemID : Z; subID : Z }.

Record NVOCMP_itemHdr_t := mkItemHdr {
  ih_cmpid : Z; ih_subid : Z; ih_itemid : Z; ih_sysid : Z; ih_crc8 : Z; ih_sig : Z;
  ih_stats : Z; ih_hofs : Z; ih_len : Z; ih_hpage : Z }.

(** Content search: what to compare, and the caller's buffer it is read into. *)
Record NVOCMP_itemInfo_t := mkItemInfo {
  ii_cBuf : list Z; ii_clength : Z; ii_coff : Z; ii_rBuf : list Z; ii_rlength : Z }.

Inductive NVOCMP_initAction :=
| NVOCMP_NORMAL_INIT | NVOCMP_NORMAL_RESUME | NVOCMP_RECOVER_COMPACT
| NVOCMP_RECOVER_ERASE | NVOCMP_FORCE_CLEAN | NVOCMP_ERROR_UNKNOWN.

Inductive NVOCMP_writeMode := NVOCMP_WRITE | NVOCMP_CREATE | NVOCMP_UPDATE.

Record NVOCMP_pageInfo_t := mkPageInfo {
  pi_state : Z; pi_cycle : Z; pi_mode : Z; pi_allActive : Z; pi_sPage : Z; pi_ePage : Z;
  pi_offset : Z; pi_sOffset : Z; pi_eOffset : Z }.

Record NVOCMP_compactInfo_t := mkCompactInfo {
  ci_xDstPage : Z; ci_xSrcSPage : Z; ci_xSrcEPage : Z; ci_xSrcPages : Z;
  ci_xDstOffset : Z; ci_xSrcSOffset : Z; ci_xSrcEOffset : Z }.

(** The members [xsrcPage], [xsrcOffset] and [xdstOffset] are only used by the one
    and two page variants of the driver. *)
Record NVOCMP_nvHandle_t := mkHandle {
  nvSize : Z; headPage : Z; tailPage : Z; actPage : Z; forceCompact : Z; actOffset : Z;
  compactInfo : NVOCMP_compactInfo_t;
  pageInfo : list NVOCMP_pageInfo_t }.

(** The static variables of [NVOCMP_doNextApi]. *)
Inductive doNextOp := doFind | doRead | doDelete.

Record doNext_statics := mkDoNext {
  dn_op : doNextOp; dn_search : Z; dn_sPage : Z; dn_fOfs : Z; dn_bufLen : Z;
  dn_initialFindiofs : Z; dn_initialsPage : Z }.

(** All the state of the driver: its globals and the flash device. *)
Record drv `{Nvs} := mkDrv {
  nvHandle : NVOCMP_nvHandle_t;
  NVOCMP_failF : Z;
  NVOCMP_failW : Z;
  NVOCMP_size : Z;
  gAction : NVOCMP_initAction;
  doNextSt : doNext_statics;
  flash : dev }.

(** ** Effects

    A driver function transforms the state and returns a value, or does not
    return normally: the endless loop of [NVOCMP_ASSERT1], an access outside an
    array (undefined in C), or more loop iterations than the model grants. *)

Inductive fault := AssertLoop | BadIndex | OutOfFuel.

Inductive outcome {S A : Type} := Ret (a : A) (s : S) | Fault (f : fault).
Arguments outcome : clear implicits.

Definition M `{Nvs} (A : Type) : Type := drv → outcome drv A.

Section Monad.
Context `{Nvs}.

Definition mpure {A} (a : A) : M A := λ s, Ret a s.
Definition mthen {A B} (m : M A) (k : A → M B) : M B :=
  λ s, match m s with Ret a s' => k a s' | Fault f => Fault f end.
Definition mfail {A} (f : fault) : M A := λ _, Fault f.
Definition mget : M drv := λ s, Ret s s.
Definition mput (s : drv) : M unit := λ _, Ret tt s.
Definition gets {A} (f : drv → A) : M A := λ s, Ret (f s) s.
Definition modify (f : drv → drv) : M unit := λ s, Ret tt (f s).
Definition when (b : bool) (m : M unit) : M unit := if b then m else mpure tt.
End Monad.

Declare Scope nv_scope.
Delimit Scope nv_scope with nv.
Notation "x <- m ; k" := (mthen m (λ x, k))
  (at level 100, m at next level, right associativity) : nv_scope.
Notation "m ;; k" := (mthen m (λ _, k))
  (at level 100, right associativity) : nv_scope.

(** ** Field updates *)

Section Updates.
Context `{Nvs}.
Implicit Types (s : drv) (h : NVOCMP_nvHandle_t).

Definition set_handle h s := mkDrv _ h (NVOCMP_failF s) (NVOCMP_failW s) (NVOCMP_size s) (gAction s) (doNextSt s) (flash s).
Definition set_failF v s := mkDrv _ (nvHandle s) v (NVOCMP_failW s) (NVOCMP_size s) (gAction s) (doNextSt s) (flash s).
Definition set_failW v s := mkDrv _ (nvHandle s) (NVOCMP_failF s) v (NVOCMP_size s) (gAction s) (doNextSt s) (flash s).
Definition set_size v s := mkDrv _ (nvHandle s) (NVOCMP_failF s) (NVOCMP_failW s) v (gAction s) (doNextSt s) (flash s).
Definition set_gAction v s := mkDrv _ (nvHandle s) (NVOCMP_failF s) (NVOCMP_failW s) (NVOCMP_size s) v (doNextSt s) (flash s).
Definition set_doNext v s := mkDrv _ (nvHandle s) (NVOCMP_failF s) (NVOCMP_failW s) (NVOCMP_size s) (gAction s) v (flash s).
Definition set_flash v s := mkDrv _ (nvHandle s) (NVOCMP_failF s) (NVOCMP_failW s) (NVOCMP_size s) (gAction s) (doNextSt s) v.

Definition hset_nvSize v h := mkHandle v (headPage h) (tailPage h) (actPage h) (forceCompact h) (actOffset h) (compactInfo h) (pageInfo h).
Definition hset_headPage v h := mkHandle (nvSize h) v (tailPage h) (actPage h) (forceCompact h) (actOffset h) (compactInfo h) (pageInfo h).
Definition hset_tailPage v h := mkHandle (nvSize h) (headPage h) v (actPage h) (forceCompact h) (actOffset h) (compactInfo h) (pageInfo h).
Definition hset_actPage v h := mkHandle (nvSize h) (headPage h) (tailPage h) v (forceCompact h) (actOffset h) (compactInfo h) (pageInfo h).
Definition hset_forceCompact v h := mkHandle (nvSize h) (headPage h) (tailPage h) (actPage h) v (actOffset h) (compactInfo h) (pageInfo h).
Definition hset_actOffset v h := mkHandle (nvSize h) (headPage h) (tailPage h) (actPage h) (forceCompact h) v (compactInfo h) (pageInfo h).
Definition hset_compactInfo v h := mkHandle (nvSize h) (headPage h) (tailPage h) (actPage h) (forceCompact h) (actOffset h) v (pageInfo h).
Definition hset_pageInfo v h := mkHandle (nvSize h) (headPage h) (tailPage h) (actPage h) (forceCompact h) (actOffset h) (compactInfo h) v.

Definition modh (f : NVOCMP_nvHandle_t → NVOCMP_nvHandle_t) : M unit :=
  modify (λ s, set_handle (f (nvHandle s)) s).
Definition geth {A} (f : NVOCMP_nvHandle_t → A) : M A := gets (λ s, f (nvHandle s)).
Definition modc (f : NVOCMP_compactInfo_t → NVOCMP_compactInfo_t) : M unit :=
  modh (λ h, hset_compactInfo (f (compactInfo h)) h).
Definition getc {A} (f : NVOCMP_compactInfo_t → A) : M A := geth (λ h, f (compactInfo h)).

Definition cset_xDstPage v c := mkCompactInfo v (ci_xSrcSPage c) (ci_xSrcEPage c) (ci_xSrcPages c) (ci_xDstOffset c) (ci_xSrcSOffset c) (ci_xSrcEOffset c).
Definition cset_xSrcSPage v c := mkCompactInfo (ci_xDstPage c) v (ci_xSrcEPage c) (ci_xSrcPages c) (ci_xDstOffset c) (ci_xSrcSOffset c) (ci_xSrcEOffset c).
Definition cset_xSrcEPage v c := mkCompactInfo (ci_xDstPage c) (ci_xSrcSPage c) v (ci_xSrcPages c) (ci_xDstOffset c) (ci_xSrcSOffset c) (ci_xSrcEOffset c).
Definition cset_xSrcPages v c := mkCompactInfo (ci_xDstPage c) (ci_xSrcSPage c) (ci_xSrcEPage c) v (ci_xDstOffset c) (ci_xSrcSOffset c) (ci_xSrcEOffset c).
Definition cset_xDstOffset v c := mkCompactInfo (ci_xDstPage c) (ci_xSrcSPage c) (ci_xSrcEPage c) (ci_xSrcPages c) v (ci_xSrcSOffset c) (ci_xSrcEOffset c).
Definition cset_xSrcSOffset v c := mkCompactInfo (ci_xDstPage c) (ci_xSrcSPage c) (ci_xSrcEPage c) (ci_xSrcPages c) (ci_xDstOffset c) v (ci_xSrcEOffset c).
Definition cset_xSrcEOffset v c := mkCompactInfo (ci_xDstPage c) (ci_xSrcSPage c) (ci_xSrcEPage c) (ci_xSrcPages c) (ci_xDstOffset c) (ci_xSrcSOffset c) v.

Definition pset_state v p := mkPageInfo v (pi_cycle p) (pi_mode p) (pi_allActive p) (pi_sPage p) (pi_ePage p) (pi_offset p) (pi_sOffset p) (pi_eOffset p).
Definition pset_cycle v p := mkPageInfo (pi_state p) v (pi_mode p) (pi_allActive p) (pi_sPage p) (pi_ePage p) (pi_offset p) (pi_sOffset p) (pi_eOffset p).
Definition pset_mode v p := mkPageInfo (pi_state p) (pi_cycle p) v (pi_allActive p) (pi_sPage p) (pi_ePage p) (pi_offset p) (pi_sOffset p) (pi_eOffset p).
Definition pset_allActive v p := mkPageInfo (pi_state p) (pi_cycle p) (pi_mode p) v (pi_sPage p) (pi_ePage p) (pi_offset p) (pi_sOffset p) (pi_eOffset p).
Definition pset_offset v p := mkPageInfo (pi_state p) (pi_cycle p) (pi_mode p) (pi_allActive p) (pi_sPage p) (pi_ePage p) v (pi_sOffset p) (pi_eOffset p).

(** [pNvHandle->pageInfo[pg]], an array of [NVOCMP_NVPAGES] entries. *)
Definition getPage (pg : Z) : M NVOCMP_pageInfo_t :=
  λ s, if pg <? 0 then Fault BadIndex
       else match pageInfo (nvHandle s) !! Z.to_nat pg with
            | Some p => Ret p s
            | None => Fault BadIndex
            end.
Definition modPage (pg : Z) (f : NVOCMP_pageInfo_t → NVOCMP_pageInfo_t) : M unit :=
  mthen (getPage pg) (λ p,
    modh (λ h, hset_pageInfo (<[Z.to_nat pg := f p]> (pageInfo h)) h)).
End Updates.
