(* ===== verification/NvOps.v ===== *)
(** * NV driver: flash primitives, headers and page state

    The leaf functions of src/src/platform/cc13xx_26xx/nvocmp.c: flash access,
    the packed item header, CRC, page headers and the free-space search. *)

From S2P Require Import Prelude.
From S2P Require Import NvTypes.

#[global] Open Scope nv_scope.

Section NvOps.
Context `{NvCodes} `{Nvs}.

(** ** Page arithmetic *)

Definition NVOCMP_ADDPAGE (size p n : Z) : Z := (p + n) mod size.
Definition NVOCMP_INCPAGE (size p : Z) : Z := NVOCMP_ADDPAGE size p 1.
Definition NVOCMP_DECPAGE (size p : Z) : Z := NVOCMP_ADDPAGE size p (size - 1).

(** ** Flash access *)

(** [NVOCMP_FLASHACCESS(err)], with [err] initially [NVINTF_SUCCESS]. *)
Definition NVOCMP_FLASHACCESS : M Z :=
  λ s, match NVOCMP_voltCheckFptr (flash s) with
       | None => Ret NVINTF_SUCCESS s
       | Some (ok, d) => Ret (if ok then NVINTF_SUCCESS else NVINTF_LOWPOWER) (set_flash d s)
       end.

Definition NVOCMP_read (pg off len : Z) : M (list Z) :=
  gets (λ s, NVS_read (flash s) (NVOCMP_FLASHOFFSET pg off) len).

Definition NVS_write_s (ofs : Z) (pBuf : list Z) : M Z :=
  λ s, let '(st, d) := NVS_write (flash s) ofs pBuf in Ret st (set_flash d s).

Definition NVS_erase_s (ofs size : Z) : M Z :=
  λ s, let '(st, d) := NVS_erase (flash s) ofs size in Ret st (set_flash d s).

Definition NVOCMP_write (dstPg off : Z) (pBuf : list Z) : M Z :=
  err <- NVOCMP_FLASHACCESS ;
  if err =? NVINTF_SUCCESS then
    nvsRes <- NVS_write_s (NVOCMP_FLASHOFFSET dstPg off) pBuf ;
    mpure (if nvsRes <? 0 then NVINTF_FAILURE else err)
  else mpure NVINTF_LOWPOWER.

Definition NVOCMP_readByte (pg ofs : Z) : M Z :=
  b <- NVOCMP_read pg ofs 1 ; mpure (hd 0 b).

Definition NVOCMP_writeByte (pg ofs bwv : Z) : M unit :=
  e <- NVOCMP_write pg ofs [bwv] ; modify (set_failW e).

(** ** CRC *)

Definition NVOCMP_doRAMCRC (input : list Z) (crc : Z) : Z := u8 (crc_update crc input).

(** The flash is read in blocks of [NVOCMP_XFERBLKMAX] bytes; a block count of
    [len] is always enough. *)
Fixpoint NVOCMP_doNVCRC_loop (fuel : nat) (pg ofs len crc : Z) : M Z :=
  if len <=? 0 then mpure crc else
  match fuel with
  | O => mfail OutOfFuel
  | S fuel' =>
      let rdLen := if len <? NVOCMP_XFERBLKMAX then len else NVOCMP_XFERBLKMAX in
      tmp <- NVOCMP_read pg ofs rdLen ;
      NVOCMP_doNVCRC_loop fuel' pg (u16 (ofs + rdLen)) (len - rdLen) (crc_update crc tmp)
  end.

Definition NVOCMP_doNVCRC (pg ofs len crc : Z) : M Z :=
  newCRC <- NVOCMP_doNVCRC_loop (Z.to_nat len) pg ofs len crc ; mpure (u8 newCRC).

Definition NVOCMP_verifyCRC (iOfs len crc pg : Z) : M Z :=
  let crcLen := u16 (len + NVOCMP_HDRCRCINC - 1) in
  let finalByte := u8 (Z.shiftl (Z.land len 0x3F) 2) in
  c <- NVOCMP_doNVCRC pg iOfs crcLen 0 ;
  let newCRC := NVOCMP_doRAMCRC [finalByte] c in
  mpure (if newCRC =? crc then NVINTF_SUCCESS else NVINTF_CORRUPT).

(** ** Page and compact headers *)

(** The bit-fields of [NVOCMP_pageHdr_t] in a little-endian 32-bit word. *)
Definition encode_pageHdr (h : NVOCMP_pageHdr_t) : list Z :=
  [u8 (ph_state h); u8 (ph_cycle h);
   Z.lor (Z.land (ph_allActive h) 3) (Z.shiftl (Z.land (ph_version h) 0x3F) 2);
   u8 (ph_signature h)].

Definition decode_pageHdr (b : list Z) : NVOCMP_pageHdr_t :=
  mkPageHdr (nth 0 b 0) (nth 1 b 0) (Z.land (nth 2 b 0) 3)
            (Z.land (Z.shiftr (nth 2 b 0) 2) 0x3F) (nth 3 b 0).

Definition readPageHdr (pg : Z) : M NVOCMP_pageHdr_t :=
  b <- NVOCMP_read pg NVOCMP_PGHDROFS NVOCMP_PGHDRLEN ; mpure (decode_pageHdr b).

Definition NVOCMP_setPageState (pg state : Z) : M unit :=
  pi <- getPage pg ;
  e <- NVOCMP_write pg 0 (encode_pageHdr
         (mkPageHdr state (pi_cycle pi) NVOCMP_ALLACTIVE NVOCMP_VERSION NVOCMP_SIGNATURE)) ;
  modify (set_failW e) ;;
  when (e =? NVINTF_SUCCESS)
    (when (state =? NVOCMP_PGACT) (modh (hset_actPage pg)) ;;
     modPage pg (pset_state state) ;;
     modPage pg (pset_allActive NVOCMP_ALLACTIVE)).

Definition NVOCMP_changePageState (pg state : Z) : M unit :=
  NVOCMP_writeByte pg NVOCMP_PGHDROFS (u8 state) ;;
  failW <- gets NVOCMP_failW ;
  when (failW =? NVINTF_SUCCESS)
    (when (state =? NVOCMP_PGACT) (modh (hset_actPage pg)) ;;
     modPage pg (pset_state state)).

Definition encode_compactHdr (h : NVOCMP_compactHdr_t) : list Z :=
  [u8 (ch_pageOffset h); u8 (Z.shiftr (ch_pageOffset h) 8); u8 (ch_page h); ch_signature h].

Definition decode_compactHdr (b : list Z) : NVOCMP_compactHdr_t :=
  mkCompactHdr (nth 0 b 0 + 256 * nth 1 b 0) (nth 2 b 0) (nth 3 b 0).

Definition NVOCMP_setCompactHdr (dstPg pg offset location : Z) : M unit :=
  e <- NVOCMP_write dstPg ((location + 1) * NVOCMP_COMPACTHDRLEN)
         (encode_compactHdr (mkCompactHdr (u16 offset) pg NVOCMP_SIGNATURE)) ;
  modify (set_failW e).

Definition NVOCMP_getCompactHdr (dstPg location : Z) : M NVOCMP_compactHdr_t :=
  b <- NVOCMP_read dstPg ((location + 1) * NVOCMP_COMPACTHDRLEN) NVOCMP_COMPACTHDRLEN ;
  mpure (decode_compactHdr b).

Definition NVOCMP_erase (dstPg : Z) : M Z :=
  err <- NVOCMP_FLASHACCESS ;
  if err =? NVINTF_SUCCESS then
    nvsRes <- NVS_erase_s (NVOCMP_FLASHOFFSET dstPg 0) NVS_sectorSize ;
    if nvsRes <? 0 then mpure NVINTF_FAILURE
    else
      modPage dstPg (λ p, pset_cycle
        (if pi_cycle p <? NVOCMP_MAXCYCLE then pi_cycle p + 1 else NVOCMP_MINCYCLE) p) ;;
      NVOCMP_setPageState dstPg NVOCMP_PGNACT ;;
      NVOCMP_setCompactHdr dstPg NVOCMP_NULLPAGE NVOCMP_NULLOFFSET THISPAGEHDR ;;
      NVOCMP_setCompactHdr dstPg NVOCMP_NULLPAGE NVOCMP_NULLOFFSET XSRCSTARTHDR ;;
      NVOCMP_setCompactHdr dstPg NVOCMP_NULLPAGE NVOCMP_NULLOFFSET XSRCENDHDR ;;
      modPage dstPg (pset_offset NVOCMP_PGDATAOFS) ;;
      modPage dstPg (pset_mode NVOCMP_PGNORMAL) ;;
      mpure err
  else mpure NVINTF_LOWPOWER.

(** ** Item headers *)

(** The first five bytes of the packed header, before the CRC is inserted. *)
Definition pack_ids (sysid itemid subid len : Z) : list Z :=
  [u8 (Z.lor (Z.shiftl sysid 2) (Z.land (Z.shiftr itemid 8) 0x3));
   u8 (Z.land itemid 0xFF);
   u8 (Z.land (Z.shiftr subid 2) 0xFF);
   u8 (Z.lor (Z.shiftl (Z.land subid 0x3) 6) (Z.land (Z.shiftr len 6) 0x3F));
   u8 (Z.shiftl (Z.land len 0x3F) 2)].

(** The complete packed header of an active, valid item. *)
Definition pack_header (sysid itemid subid len newCRC : Z) : list Z :=
  take 4 (pack_ids sysid itemid subid len) ++
  [u8 (Z.lor (nth 4 (pack_ids sysid itemid subid len) 0) (Z.land (Z.shiftr newCRC 6) 0x3));
   u8 (Z.lor (Z.shiftl (Z.land newCRC 0x3F) 2) NVOCMP_ACTIVEIDBIT);
   NVOCMP_SIGNATURE].

(** Expansion of a packed header read at [ofs] of page [pg]. *)
Definition unpack_header (pg ofs : Z) (c : list Z) : NVOCMP_itemHdr_t :=
  let b i := nth i c 0 in
  let sysid := Z.land (Z.shiftr (b 0%nat) 2) 0x3F in
  let itemid := Z.lor (Z.shiftl (Z.land (b 0%nat) 0x3) 8) (b 1%nat) in
  let subid := Z.lor (Z.shiftl (b 2%nat) 2) (Z.land (Z.shiftr (b 3%nat) 6) 0x3) in
  let len := Z.lor (Z.shiftl (Z.land (b 3%nat) 0x3F) 6) (Z.land (Z.shiftr (b 4%nat) 2) 0x3F) in
  let crc8 := Z.lor (Z.shiftl (Z.land (b 4%nat) 0x3) 6) (Z.land (Z.shiftr (b 5%nat) 2) 0x3F) in
  let stats := Z.land (b 5%nat) (Z.lor NVOCMP_VALIDIDBIT NVOCMP_ACTIVEIDBIT) in
  let sig := b 6%nat in
  let stats' := if sig =? NVOCMP_SIGNATURE then Z.lor stats NVOCMP_FOLLOWBIT
                else Z.lor stats NVOCMP_VALIDIDBIT in
  mkItemHdr (NVOCMP_CMPRID sysid itemid subid) subid itemid sysid crc8 sig stats' ofs len pg.

Definition NVOCMP_readHeader (pg ofs : Z) : M NVOCMP_itemHdr_t :=
  cHdr <- NVOCMP_read pg ofs NVOCMP_ITEMHDRLEN ; mpure (unpack_header pg ofs cHdr).

(** Mark an item inactive, and its page as holding inactive items. *)
Definition NVOCMP_setItemInactive (pg iOfs : Z) : M unit :=
  tmp <- NVOCMP_readByte pg (iOfs + NVOCMP_HDRVLDOFS) ;
  NVOCMP_writeByte pg (iOfs + NVOCMP_HDRVLDOFS) (Z.land tmp (u8 (Z.lnot NVOCMP_ACTIVEIDBIT))) ;;
  pi <- getPage pg ;
  when (ctrue (pi_allActive pi))
    (v <- NVOCMP_readByte pg NVOCMP_PGHDRVER ;
     NVOCMP_writeByte pg NVOCMP_PGHDRVER (Z.land v (u8 (Z.lnot NVOCMP_ALLACTIVE))) ;;
     modPage pg (pset_allActive NVOCMP_SOMEINACTIVE)).

(** ** Free-space search *)

Definition word_at (buf : list Z) (ofs : Z) : list Z := take 4 (drop (Z.to_nat ofs) buf).

(** Backwards over 4-byte words to the first that is not erased; returns [ofs]
    and the offset [tmp] points to. *)
Fixpoint findOffset_words (fuel : nat) (buf : list Z) (ofs tmp : Z) : Z * Z :=
  match fuel with
  | O => (ofs, tmp)
  | S fuel' =>
      if 4 <=? ofs then
        let ofs' := ofs - 4 in
        if little_endian_to_Z 8 (word_at buf ofs') =? NVOCMP_ERASEDWORD
        then findOffset_words fuel' buf ofs' ofs'
        else (ofs', ofs')
      else (ofs, tmp)
  end.

(** [for (i = j = 1; i <= 4; i++)]: the last byte of the word not erased. *)
Definition findOffset_bytes (w : list Z) : Z :=
  let test i j := if Z.land (nth (i - 1) w 0) NVOCMP_ERASEDBYTE =? NVOCMP_ERASEDBYTE
                  then j else Z.of_nat i in
  test 4%nat (test 3%nat (test 2%nat (test 1%nat 1))).

Definition findOffset_in (buf : list Z) (ofs : Z) : Z :=
  let '(ofs', tmp) := findOffset_words (Z.to_nat ofs) buf ofs 0 in
  u16 (ofs' + findOffset_bytes (word_at buf tmp)).

Definition NVOCMP_findOffset (pg ofs : Z) : M Z :=
  pTBuffer <- NVOCMP_read pg 0 FLASH_PAGE_SIZE ; mpure (findOffset_in pTBuffer ofs).

(** ** Reading an item *)

(** Returns the status and the bytes copied to the caller's buffer. *)
Definition NVOCMP_readItem (iHdr : NVOCMP_itemHdr_t) (ofs len : Z) : M (Z * list Z) :=
  let iOfs := u16 (ih_hofs iHdr - ih_len iHdr) in
  err <- NVOCMP_verifyCRC iOfs (ih_len iHdr) (ih_crc8 iHdr) (ih_hpage iHdr) ;
  if err =? NVINTF_SUCCESS then
    let dOfs := u16 (iOfs + ofs) in
    if dOfs + len <=? ih_hofs iHdr then
      d <- NVOCMP_read (ih_hpage iHdr) dOfs len ; mpure (err, d)
    else mpure (if ih_len iHdr <? len then NVINTF_BADLENGTH else NVINTF_BADOFFSET, [])
  else mpure (err, []).

(** ** Parameter check *)

Definition NVOCMP_checkItem (id : NVINTF_itemID_t) (len : Z) : M (Z * NVOCMP_itemHdr_t) :=
  failF <- gets NVOCMP_failF ;
  let hdr := mkItemHdr (NVOCMP_CMPRID (systemID id) (itemID id) (subID id))
               (subID id) (itemID id) (systemID id) 0 NVOCMP_SIGNATURE 0 0 len 0 in
  mpure (if NVOCMP_MAXLEN <? len then (NVINTF_BADLENGTH, hdr)
         else if NVOCMP_MAXSYSID <? systemID id then (NVINTF_BADSYSID, hdr)
         else if NVOCMP_MAXITEMID <? itemID id then (NVINTF_BADITEMID, hdr)
         else if NVOCMP_MAXSUBID <? subID id then (NVINTF_BADSUBID, hdr)
         else if failF =? NVINTF_NOTREADY then (NVINTF_NOTREADY, hdr)
         else (NVINTF_SUCCESS, hdr)).
End NvOps.
