(* ===== verification/NvCompact.v ===== *)
(** * NV driver: compaction

    [NVOCMP_findSignature], [NVOCMP_compact], [NVOCMP_cleanPage] and
    [NVOCMP_compactPage] of src/src/platform/cc13xx_26xx/nvocmp.c, in the variant
    for more than two pages. *)

From S2P Require Import Prelude.
From S2P Require Import NvTypes.
From S2P Require Import NvOps.

Section NvCompact.
Context `{NvCodes} `{Nvs}.

(** First page whose header has the given state. *)
Fixpoint NVOCMP_findPage_from (n : nat) (pg state : Z) : M Z :=
  match n with
  | O => mpure NVOCMP_NULLPAGE
  | S n' =>
      pageHdr <- readPageHdr pg ;
      if ph_state pageHdr =? state then mpure pg
      else NVOCMP_findPage_from n' (pg + 1) state
  end.

Definition NVOCMP_findPage (state : Z) : M Z :=
  size <- gets NVOCMP_size ; NVOCMP_findPage_from (Z.to_nat size) 0 state.

(** ** Signature scan *)

Definition compact_endOff : Z := NVOCMP_PGDATAOFS + NVOCMP_ITEMHDRLEN - 1.

(** Highest index [i] with [readBuffer[i - 1]] a signature, 0 for none. *)
Fixpoint last_signature (buf : list Z) : nat :=
  match buf with
  | [] => 0%nat
  | b :: buf' =>
      match last_signature buf' with
      | S i => S (S i)
      | O => if b =? NVOCMP_SIGNATURE then 1%nat else 0%nat
      end
  end.

Fixpoint NVOCMP_findSignature_loop (fuel : nat) (pg srcOff : Z) : M (option Z) :=
  if srcOff <=? compact_endOff then mpure None else
  match fuel with
  | O => mfail OutOfFuel
  | S fuel' =>
      let rdLen := if compact_endOff <? srcOff - NVOCMP_XFERBLKMAX
                   then NVOCMP_XFERBLKMAX else srcOff - compact_endOff in
      let srcOff' := srcOff - rdLen in
      readBuffer <- NVOCMP_read pg srcOff' rdLen ;
      match last_signature readBuffer with
      | O => NVOCMP_findSignature_loop fuel' pg srcOff'
      | S i => mpure (Some (srcOff' + Z.of_nat (S i)))
      end
  end.

(** [Some srcOff] one past the signature found, or [None]. *)
Definition NVOCMP_findSignature (pg srcOff : Z) : M (option Z) :=
  NVOCMP_findSignature_loop (Z.to_nat srcOff) pg srcOff.

(** ** Collecting the live items of the source pages *)

(** Local variables of [NVOCMP_compact] that its loop changes. *)
Record compact_vars := mkCV {
  cv_srcPg : Z; cv_srcOff : Z; cv_dstOff : Z; cv_aItem : Z; cv_dstFull : bool;
  cv_buf : list Z }.

(** Copy [bytes] into the temporary page buffer at [pos]. *)
Definition splice (buf : list Z) (pos : Z) (bytes : list Z) : list Z :=
  take (Z.to_nat pos) buf ++ bytes ++ drop (Z.to_nat pos + length bytes) buf.

(** What the checks on one item of the source page conclude. *)
Inductive item_verdict := Scan | Keep | Skip.

Definition compact_check (srcPg srcOff : Z) (srcHdr : NVOCMP_itemHdr_t) : M item_verdict :=
  let dataLen := ih_len srcHdr in
  let crcOff := u16 (srcOff - NVOCMP_ITEMHDRLEN - dataLen) in
  if srcOff <? dataLen + NVOCMP_PGDATAOFS then mpure Scan
  else if negb (NVOCMP_SIGNATURE =? ih_sig srcHdr) then mpure Scan
  else
    err <- NVOCMP_verifyCRC crcOff dataLen (ih_crc8 srcHdr) srcPg ;
    if ctrue err then mpure Scan
    else if negb (ctrue (Z.land (ih_stats srcHdr) NVOCMP_VALIDIDBIT)) &&
            ctrue (Z.land (ih_stats srcHdr) NVOCMP_ACTIVEIDBIT)
    then mpure Keep
    else mpure Skip.

(** How an iteration of the loop ends. *)
Inductive compact_next := Continue (v : compact_vars) | Break (v : compact_vars) | Failed.

Definition compact_step (srcEndPg dstPg : Z) (v : compact_vars) : M compact_next :=
  size <- gets NVOCMP_size ;
  failW <- gets NVOCMP_failW ;
  let '(mkCV srcPg srcOff dstOff aItem dstFull buf) := v in
  if dstFull then
    when (ctrue aItem) (modPage srcPg (pset_offset srcOff)) ;; mpure (Break v)
  else if srcOff <=? compact_endOff then
    when (ctrue aItem) (modPage srcPg (pset_offset srcOff)) ;;
    if srcPg =? srcEndPg then mpure (Break v)
    else
      let srcPg' := NVOCMP_INCPAGE size srcPg in
      pi <- getPage srcPg' ;
      mpure (Continue (mkCV srcPg' (pi_offset pi) dstOff 0 dstFull buf))
  else if negb (failW =? NVINTF_SUCCESS) then mpure Failed
  else
    srcHdr <- NVOCMP_readHeader srcPg (srcOff - NVOCMP_ITEMHDRLEN) ;
    let dataLen := ih_len srcHdr in
    let itemSize := NVOCMP_ITEMHDRLEN + dataLen in
    let crcOff := u16 (srcOff - NVOCMP_ITEMHDRLEN - dataLen) in
    verdict <- compact_check srcPg srcOff srcHdr ;
    match verdict with
    | Scan =>
        r <- NVOCMP_findSignature srcPg (srcOff - 1) ;
        match r with
        | Some srcOff' => mpure (Continue (mkCV srcPg srcOff' dstOff aItem dstFull buf))
        | None => mpure (Break (mkCV srcPg (srcOff - 1) dstOff aItem dstFull buf))
        end
    | Skip => mpure (Continue (mkCV srcPg (srcOff - NVOCMP_ITEMHDRLEN - dataLen) dstOff aItem dstFull buf))
    | Keep =>
        if FLASH_PAGE_SIZE <? dstOff + itemSize
        then mpure (Continue (mkCV srcPg srcOff dstOff aItem true buf))
        else
          bytes <- NVOCMP_read srcPg crcOff itemSize ;
          let dstOff' := dstOff + itemSize in
          mpure (Continue (mkCV srcPg (srcOff - NVOCMP_ITEMHDRLEN - dataLen) dstOff'
                           (aItem + 1) (dstOff' =? FLASH_PAGE_SIZE)
                           (splice buf (FLASH_PAGE_SIZE - dstOff - itemSize) bytes)))
    end.

(** [while (srcPg != dstPg)]; [None] when an iteration gives up. *)
Fixpoint compact_loop (fuel : nat) (srcEndPg dstPg : Z) (v : compact_vars)
  : M (option compact_vars) :=
  if cv_srcPg v =? dstPg then mpure (Some v) else
  match fuel with
  | O => mfail OutOfFuel
  | S fuel' =>
      r <- compact_step srcEndPg dstPg v ;
      match r with
      | Continue v' => compact_loop fuel' srcEndPg dstPg v'
      | Break v' => mpure (Some v')
      | Failed => mpure None
      end
  end.

(** Every iteration but the change of page lowers [srcOff] or sets [dstFull]. *)
Definition compact_fuel : nat := Z.to_nat (NVOCMP_NVPAGES * (FLASH_PAGE_SIZE + 2)).

(** After the loop: write the collected items, and record in the headers of
    the destination page which pages they came from. *)
Definition compact_finish (dstPg : Z) (v : compact_vars) : M NVOCMP_compactStatus :=
  size <- gets NVOCMP_size ;
  let dstOff := cv_dstOff v in
  let doff := FLASH_PAGE_SIZE - dstOff in
  let len := dstOff - NVOCMP_PGDATAOFS in
  e <- NVOCMP_write dstPg NVOCMP_PGDATAOFS (take (Z.to_nat len) (drop (Z.to_nat doff) (cv_buf v))) ;
  modify (λ s, set_failW (Z.lor (NVOCMP_failW s) e) s) ;;
  src <- (if cv_srcPg v =? dstPg then
            let srcPg := NVOCMP_DECPAGE size (cv_srcPg v) in
            pi <- getPage srcPg ; mpure (srcPg, pi_offset pi)
          else mpure (cv_srcPg v, cv_srcOff v)) ;
  let '(srcPg, srcOff) := src in
  modc (cset_xDstOffset dstOff) ;;
  modc (cset_xSrcEOffset srcOff) ;;
  modc (cset_xSrcEPage srcPg) ;;
  modPage dstPg (pset_offset dstOff) ;;
  ci <- geth compactInfo ;
  NVOCMP_setCompactHdr dstPg (ci_xSrcSPage ci) (ci_xSrcSOffset ci) XSRCSTARTHDR ;;
  NVOCMP_setCompactHdr dstPg (ci_xSrcEPage ci) (ci_xSrcEOffset ci) XSRCENDHDR ;;
  mpure (NVOCMP_COMPACT_DONE (srcOff <=? compact_endOff) (FLASH_PAGE_SIZE <=? dstOff)).

Definition NVOCMP_compact : M NVOCMP_compactStatus :=
  modify (set_failW NVINTF_SUCCESS) ;;
  size <- gets NVOCMP_size ;
  ci <- geth compactInfo ;
  let srcStartPg := ci_xSrcSPage ci in
  let srcEndPg := NVOCMP_ADDPAGE size srcStartPg (ci_xSrcPages ci - 1) in
  srcInfo <- getPage srcStartPg ;
  let dstPg := ci_xDstPage ci in
  dstInfo <- getPage dstPg ;
  r <- compact_loop compact_fuel srcEndPg dstPg
         (mkCV srcStartPg (pi_offset srcInfo) (pi_offset dstInfo) 0 false
               (replicate (Z.to_nat FLASH_PAGE_SIZE) 0)) ;
  failW <- gets NVOCMP_failW ;
  match r with
  | None => mpure NVOCMP_COMPACT_FAILURE
  | Some v =>
      if negb (failW =? NVINTF_SUCCESS) then mpure NVOCMP_COMPACT_FAILURE
      else compact_finish dstPg v
  end.

(** ** Cleaning the source pages *)

(** Run [f] on the pages from [pg] up to, not including, [stop]. *)
Fixpoint for_pages (fuel : nat) (pg stop : Z) (f : Z → M unit) : M unit :=
  if pg =? stop then mpure tt else
  match fuel with
  | O => mfail OutOfFuel
  | S fuel' =>
      f pg ;;
      size <- gets NVOCMP_size ;
      for_pages fuel' (NVOCMP_INCPAGE size pg) stop f
  end.

(** As above, counting what [f] returns. *)
Fixpoint count_pages (fuel : nat) (pg stop pages : Z) (f : Z → M Z) : M Z :=
  if pg =? stop then mpure pages else
  match fuel with
  | O => mfail OutOfFuel
  | S fuel' =>
      n <- f pg ;
      size <- gets NVOCMP_size ;
      count_pages fuel' (NVOCMP_INCPAGE size pg) stop (u8 (pages + n)) f
  end.

Definition pages_fuel : nat := 256.

Definition NVOCMP_cleanPage : M Z :=
  ci <- geth compactInfo ;
  size <- gets NVOCMP_size ;
  endHdr <- NVOCMP_getCompactHdr (ci_xDstPage ci) XSRCENDHDR ;
  let stop := NVOCMP_INCPAGE size (ci_xSrcEPage ci) in
  for_pages pages_fuel (ci_xSrcSPage ci) stop (λ pg,
    if pg =? ch_page endHdr then modPage pg (pset_offset (ch_pageOffset endHdr))
    else modPage pg (pset_offset NVOCMP_PGDATAOFS)) ;;
  count_pages pages_fuel (ci_xSrcSPage ci) stop 0 (λ pg,
    pi <- getPage pg ;
    if pi_offset pi =? NVOCMP_PGDATAOFS then
      e <- NVOCMP_erase pg ; modify (set_failW e) ;; mpure 1
    else
      e <- NVOCMP_write pg ((THISPAGEHDR + 1) * NVOCMP_COMPACTHDRLEN)
             [u8 (pi_offset pi); u8 (Z.shiftr (pi_offset pi) 8)] ;
      modify (set_failW e) ;;
      pageHdr <- readPageHdr pg ;
      (if ph_state pageHdr =? NVOCMP_PGACT then NVOCMP_changePageState pg NVOCMP_PGFULL
       else when (ph_state pageHdr =? NVOCMP_PGXDST) (mfail AssertLoop)) ;;
      mpure 0).

(** ** Compaction of the ring of pages *)

(** "mark page mode": returns the number of pages whose items are all active. *)
Fixpoint mark_pages (n : nat) (pg dstPg allActivePages : Z) : M Z :=
  match n with
  | O => mpure allActivePages
  | S n' =>
      if pg =? dstPg then mark_pages n' (pg + 1) dstPg allActivePages
      else
        pageHdr <- readPageHdr pg ;
        let all := if ctrue (ph_allActive pageHdr) then allActivePages + 1 else allActivePages in
        when ((ph_state pageHdr =? NVOCMP_PGACT) || (ph_state pageHdr =? NVOCMP_PGFULL))
          (NVOCMP_writeByte pg NVOCMP_COMPMODEOFS NVOCMP_PGCSRC ;;
           modPage pg (pset_mode NVOCMP_PGCSRC)) ;;
        mark_pages n' (pg + 1) dstPg all
  end.

Record cp_vars := mkCP {
  cp_srcPg : Z; cp_dstPg : Z; cp_compactPages : Z; cp_skipPages : Z; cp_foundRoom : bool }.

(** Compaction of one destination page, after the source page was chosen;
    [None] when [NVOCMP_compact] failed. *)
Definition compact_into (nBytes : Z) (srcPageHdr : NVOCMP_pageHdr_t) (v : cp_vars)
  : M (option cp_vars) :=
  size <- gets NVOCMP_size ;
  let '(mkCP srcPg dstPg compactPages skipPages foundRoom) := v in
  when (negb (ph_state srcPageHdr =? NVOCMP_PGXSRC)) (NVOCMP_changePageState srcPg NVOCMP_PGXSRC) ;;
  dstPageHdr <- readPageHdr dstPg ;
  when (negb (ph_state dstPageHdr =? NVOCMP_PGXDST)) (NVOCMP_changePageState dstPg NVOCMP_PGXDST) ;;
  NVOCMP_writeByte dstPg NVOCMP_COMPMODEOFS NVOCMP_PGCDST ;;
  modPage dstPg (pset_mode NVOCMP_PGCDST) ;;
  modc (cset_xDstPage dstPg) ;;
  modc (cset_xDstOffset FLASH_PAGE_SIZE) ;;
  modc (cset_xSrcSPage srcPg) ;;
  srcInfo <- getPage srcPg ;
  modc (cset_xSrcSOffset (pi_offset srcInfo)) ;;
  modc (cset_xSrcEPage NVOCMP_NULLPAGE) ;;
  modc (cset_xSrcEOffset 0) ;;
  status <- NVOCMP_compact ;
  match status with
  | NVOCMP_COMPACT_FAILURE => mpure None
  | NVOCMP_COMPACT_DONE _ _ =>
      xDstOffset <- getc ci_xDstOffset ;
      let needBytes := if ctrue nBytes then nBytes else 16 in
      let room := needBytes <=? FLASH_PAGE_SIZE - xDstOffset in
      let foundRoom' := if ctrue nBytes && room then true else foundRoom in
      NVOCMP_changePageState dstPg (if room then NVOCMP_PGACT else NVOCMP_PGFULL) ;;
      cleanPages <- NVOCMP_cleanPage ;
      modc (λ c, cset_xSrcPages (u8 (ci_xSrcPages c - cleanPages)) c) ;;
      NVOCMP_writeByte dstPg NVOCMP_COMPMODEOFS NVOCMP_PGCDONE ;;
      modPage dstPg (pset_mode NVOCMP_PGCDONE) ;;
      modh (λ h, hset_tailPage (NVOCMP_ADDPAGE size (tailPage h) (cleanPages + skipPages)) h) ;;
      modh (λ h, hset_headPage (NVOCMP_INCPAGE size (tailPage h)) h) ;;
      xSrcEPage <- getc ci_xSrcEPage ;
      endInfo <- getPage xSrcEPage ;
      tail <- geth tailPage ;
      mpure (Some (mkCP (if pi_offset endInfo =? NVOCMP_PGDATAOFS
                         then NVOCMP_INCPAGE size xSrcEPage else xSrcEPage)
                        tail (u16 (compactPages - cleanPages)) 0 foundRoom'))
  end.

(** [while (compactPages)]; [None] when a compaction failed. *)
Fixpoint compactPage_loop (fuel : nat) (nBytes : Z) (v : cp_vars) : M (option cp_vars) :=
  if cp_compactPages v =? 0 then mpure (Some v) else
  match fuel with
  | O => mfail OutOfFuel
  | S fuel' =>
      size <- gets NVOCMP_size ;
      xSrcPages <- getc ci_xSrcPages ;
      when (xSrcPages =? 0) (modc (cset_xSrcPages 1)) ;;
      pageHdr <- readPageHdr (cp_srcPg v) ;
      if ctrue nBytes && ctrue (ph_allActive pageHdr) then
        let srcPg' := NVOCMP_INCPAGE size (cp_srcPg v) in
        modc (cset_xDstOffset FLASH_PAGE_SIZE) ;;
        modc (cset_xSrcSPage srcPg') ;;
        modc (λ c, cset_xSrcPages (u8 (ci_xSrcPages c - 1)) c) ;;
        compactPage_loop fuel' nBytes
          (mkCP srcPg' (cp_dstPg v) (cp_compactPages v - 1) (cp_skipPages v + 1) (cp_foundRoom v))
      else
        r <- compact_into nBytes pageHdr v ;
        match r with
        | None => mpure None
        | Some v' =>
            if ctrue nBytes && cp_foundRoom v' then mpure (Some v')
            else compactPage_loop fuel' nBytes v'
        end
  end.

Definition compactPage_fuel : nat := 1024.

(** The page to continue on after a compaction. *)
Definition compactPage_finish : M unit :=
  size <- gets NVOCMP_size ;
  pg <- NVOCMP_findPage NVOCMP_PGACT ;
  pg <- (if pg =? NVOCMP_NULLPAGE then
           pg <- NVOCMP_findPage NVOCMP_PGRDY ;
           if pg =? NVOCMP_NULLPAGE then
             head <- geth headPage ;
             headInfo <- getPage head ;
             if pi_state headInfo =? NVOCMP_PGNACT then
               NVOCMP_changePageState head NVOCMP_PGRDY ;; mpure head
             else tail <- geth tailPage ; mpure (NVOCMP_DECPAGE size tail)
           else mpure pg
         else mpure pg) ;
  modh (hset_actPage pg) ;;
  pi <- getPage pg ;
  modh (hset_actOffset (pi_offset pi)) ;;
  tail <- geth tailPage ;
  NVOCMP_changePageState tail NVOCMP_PGXDST ;;
  modh (hset_forceCompact 0).

Definition NVOCMP_compactPage (nBytes : Z) : M Z :=
  err <- NVOCMP_FLASHACCESS ;
  if ctrue err then mpure 0 else
  size <- gets NVOCMP_size ;
  srcPg <- geth headPage ;
  dstPg <- geth tailPage ;
  modc (cset_xSrcPages (u8 (if ctrue nBytes then 1 else size - 1))) ;;
  allActivePages <- mark_pages (Z.to_nat size) 0 dstPg 0 ;
  force <- geth forceCompact ;
  if (allActivePages =? size - 1) && negb (ctrue force) then mpure 0 else
  r <- compactPage_loop compactPage_fuel nBytes (mkCP srcPg dstPg (u16 (size - 1)) 0 false) ;
  match r with
  | None => mpure 0
  | Some _ =>
      compactPage_finish ;;
      xDstOffset <- getc ci_xDstOffset ;
      mpure (s16 (FLASH_PAGE_SIZE - xDstOffset))
  end.
End NvCompact.
