(* ===== verification/NvItems.v ===== *)
(** * NV driver: finding and writing items

    [NVOCMP_findItem], [NVOCMP_getDstPage], [NVOCMP_writeItem] and
    [NVOCMP_addItem] of src/src/platform/cc13xx_26xx/nvocmp.c. *)

From S2P Require Import Prelude.
From S2P Require Import NvTypes.
From S2P Require Import NvOps.
From S2P Require Import NvCompact.

Section NvItems.
Context `{NvCodes} `{Nvs}.

(** ** Search *)

Definition is_active (h : NVOCMP_itemHdr_t) : bool :=
  ctrue (Z.land (ih_stats h) NVOCMP_ACTIVEIDBIT) &&
  negb (ctrue (Z.land (ih_stats h) NVOCMP_VALIDIDBIT)).

(** The [switch] on the kind of search; [None] for the default case. *)
Definition item_matches (flag : Z) (pHdr iHdr : NVOCMP_itemHdr_t) : option bool :=
  let kind := Z.land flag NVOCMP_FINDLMASK in
  if kind =? NVOCMP_FINDANY then Some true
  else if kind =? NVOCMP_FINDSTRICT then
    Some (NVOCMP_CMPRID (ih_sysid pHdr) (ih_itemid pHdr) (ih_subid pHdr) =? ih_cmpid iHdr)
  else if kind =? NVOCMP_FINDSYSID then Some (ih_sysid pHdr =? ih_sysid iHdr)
  else if kind =? NVOCMP_FINDITMID then
    Some ((ih_sysid pHdr =? ih_sysid iHdr) && (ih_itemid pHdr =? ih_itemid iHdr))
  else None.

(** Content comparison: read the item into the caller's buffer, compare at
    [coff]. Returns whether it matches and the buffer as it is left. *)
Definition content_matches (pInfo : NVOCMP_itemInfo_t) (rBuf : list Z)
    (iHdr : NVOCMP_itemHdr_t) : M (bool * list Z) :=
  r <- NVOCMP_readItem iHdr 0 (ii_rlength pInfo) ;
  let '(err, d) := r in
  if ctrue err then mpure (false, rBuf)
  else
    let rBuf' := d ++ drop (length d) rBuf in
    if Z.of_nat (length rBuf') <? ii_coff pInfo + ii_clength pInfo then mfail BadIndex
    else mpure (bool_decide (take (Z.to_nat (ii_clength pInfo)) (drop (Z.to_nat (ii_coff pInfo)) rBuf')
                             = take (Z.to_nat (ii_clength pInfo)) (ii_cBuf pInfo)), rBuf').

(** What one item of the page says about the search. *)
Inductive find_verdict := Found | BadFlag | NotThis.

Definition find_check (flag : Z) (pInfo : option NVOCMP_itemInfo_t) (rBuf : list Z)
    (pHdr iHdr : NVOCMP_itemHdr_t) : M (find_verdict * list Z) :=
  if is_active iHdr then
    match item_matches flag pHdr iHdr with
    | None => mpure (BadFlag, rBuf)
    | Some false => mpure (NotThis, rBuf)
    | Some true =>
        match pInfo with
        | Some info =>
            if Z.land flag NVOCMP_FINDHMASK =? NVOCMP_FINDCONTENT then
              r <- content_matches info rBuf iHdr ;
              let '(ok, rBuf') := r in
              mpure (if ok then Found else NotThis, rBuf')
            else mpure (Found, rBuf)
        | None => mpure (Found, rBuf)
        end
    end
  else mpure (NotThis, rBuf).

Inductive find_pc := ForTest | WhileTest.

(** The two nested loops, with the point of the next test as [pc]. The result
    is the status, the header and the caller's read buffer. *)
Fixpoint findItem_loop (fuel : nat) (flag : Z) (pInfo : option NVOCMP_itemInfo_t)
    (pHdr : NVOCMP_itemHdr_t) (rBuf : list Z) (pc : find_pc) (p ofs nvSearched : Z)
  : M (Z * NVOCMP_itemHdr_t * list Z) :=
  match fuel with
  | O => mfail OutOfFuel
  | S fuel' =>
      size <- gets NVOCMP_size ;
      let next n :=
        let p' := NVOCMP_DECPAGE size p in
        pi <- getPage p' ;
        findItem_loop fuel' flag pInfo pHdr rBuf ForTest p' (pi_offset pi) n in
      match pc with
      | ForTest =>
          if nvSearched <? size then
            tail <- geth tailPage ;
            if p =? tail then next (nvSearched + 1)
            else findItem_loop fuel' flag pInfo pHdr rBuf WhileTest p ofs (nvSearched + 1)
          else
            mpure (NVINTF_NOTFOUND,
                   mkItemHdr (ih_cmpid pHdr) (ih_subid pHdr) (ih_itemid pHdr) (ih_sysid pHdr)
                     (ih_crc8 pHdr) (ih_sig pHdr) (ih_stats pHdr) 0 (ih_len pHdr) (ih_hpage pHdr),
                   rBuf)
      | WhileTest =>
          if ofs <? NVOCMP_PGDATAOFS + NVOCMP_ITEMHDRLEN then next nvSearched
          else
            let ofs := ofs - NVOCMP_ITEMHDRLEN in
            iHdr <- NVOCMP_readHeader p ofs ;
            r <- find_check flag pInfo rBuf pHdr iHdr ;
            let '(verdict, rBuf) := r in
            let restart :=
              NVOCMP_compactPage 0 ;;
              act <- geth actPage ;
              findItem_loop fuel' flag pInfo pHdr rBuf WhileTest (NVOCMP_INCPAGE size act) 0 0 in
            match verdict with
            | Found => mpure (NVINTF_SUCCESS, iHdr, rBuf)
            | BadFlag => mpure (NVINTF_BADPARAM, pHdr, rBuf)
            | NotThis =>
                if ctrue (Z.land (ih_stats iHdr) NVOCMP_FOLLOWBIT) then
                  if ih_len iHdr <? ofs
                  then findItem_loop fuel' flag pInfo pHdr rBuf WhileTest p (ofs - ih_len iHdr) nvSearched
                  else NVOCMP_setItemInactive p ofs ;; restart
                else modh (hset_forceCompact 1) ;; restart
            end
      end
  end.

(** A search over sound pages reads at most 290 items on each of the pages. *)
Definition findItem_fuel : nat := Z.to_nat 40000.

Definition NVOCMP_findItem (pg ofs : Z) (pHdr : NVOCMP_itemHdr_t) (flag : Z)
    (pInfo : option NVOCMP_itemInfo_t) : M (Z * NVOCMP_itemHdr_t * list Z) :=
  findItem_loop findItem_fuel flag pInfo pHdr
    (match pInfo with Some info => ii_rBuf info | None => [] end) ForTest pg ofs 0.

(** ** Destination page *)

Fixpoint getDstPage_loop (n : nat) (pg len : Z) : M Z :=
  match n with
  | O => mpure NVOCMP_NULLPAGE
  | S n' =>
      size <- gets NVOCMP_size ;
      tail <- geth tailPage ;
      if pg =? tail then getDstPage_loop n' (NVOCMP_INCPAGE size pg) len
      else
        pageHdr <- readPageHdr pg ;
        if ph_state pageHdr =? NVOCMP_PGFULL
        then getDstPage_loop n' (NVOCMP_INCPAGE size pg) len
        else
          when ((ph_state pageHdr =? NVOCMP_PGNACT) || (ph_state pageHdr =? NVOCMP_PGRDY))
            (NVOCMP_changePageState pg NVOCMP_PGACT) ;;
          modh (hset_actPage pg) ;;
          pi <- getPage pg ;
          modh (hset_actOffset (pi_offset pi)) ;;
          if pi_offset pi + len <=? FLASH_PAGE_SIZE then mpure pg
          else
            NVOCMP_changePageState pg NVOCMP_PGFULL ;;
            getDstPage_loop n' (NVOCMP_INCPAGE size pg) len
  end.

Definition NVOCMP_getDstPage (len : Z) : M Z :=
  size <- gets NVOCMP_size ;
  pg <- geth actPage ;
  getDstPage_loop (Z.to_nat size) pg len.

(** ** Writing *)

Definition advance_offsets (dstPg dstOff iLen : Z) : M unit :=
  modh (λ h, hset_actOffset (u16 (actOffset h + iLen)) h) ;;
  modPage dstPg (pset_offset (u16 (dstOff + iLen))).

Definition NVOCMP_writeItem (pHdr : NVOCMP_itemHdr_t) (dstPg dstOff : Z) (pBuf : list Z) : M unit :=
  pageHdr <- readPageHdr dstPg ;
  when (ph_state pageHdr =? NVOCMP_PGRDY) (NVOCMP_changePageState dstPg NVOCMP_PGACT) ;;
  if negb (ph_state pageHdr =? NVOCMP_PGACT) then modify (set_failW NVINTF_FAILURE)
  else
    let dLen := ih_len pHdr in
    let iLen := NVOCMP_ITEMHDRLEN + dLen in
    if dstOff + iLen <=? FLASH_PAGE_SIZE then
      let hOfs := dstOff + dLen in
      let data := take (Z.to_nat dLen) pBuf in
      let ids := pack_ids (ih_sysid pHdr) (ih_itemid pHdr) (ih_subid pHdr) dLen in
      let header := pack_header (ih_sysid pHdr) (ih_itemid pHdr) (ih_subid pHdr) dLen in
      if iLen <=? NVOCMP_SMALLITEM then
        let newCRC := NVOCMP_doRAMCRC (data ++ ids) 0 in
        e <- NVOCMP_write dstPg dstOff (data ++ header newCRC) ;
        modify (set_failW e) ;;
        advance_offsets dstPg dstOff iLen ;;
        when (ctrue e) (NVOCMP_setItemInactive dstPg hOfs)
      else
        let newCRC := NVOCMP_doRAMCRC ids (NVOCMP_doRAMCRC data 0) in
        e <- NVOCMP_write dstPg dstOff data ;
        e' <- NVOCMP_write dstPg hOfs (header newCRC) ;
        modify (set_failW (Z.lor e e')) ;;
        if ctrue (Z.lor e e') then mpure tt
        else advance_offsets dstPg dstOff iLen
    else modify (set_failW NVINTF_BADLENGTH).

(** [do { .. } while (dOfs < iHdr->len)]: whether the stored bytes differ. *)
Fixpoint data_changed (fuel : nat) (pg iOfs dOfs len : Z) (pBuf : list Z) : M bool :=
  match fuel with
  | O => mfail OutOfFuel
  | S fuel' =>
      let len2cmp := if NVOCMP_COMPARE_SIZE <? len - dOfs then NVOCMP_COMPARE_SIZE else len - dOfs in
      readBuf <- NVOCMP_read pg (u16 (iOfs + dOfs)) len2cmp ;
      if bool_decide (readBuf = take (Z.to_nat len2cmp) (drop (Z.to_nat dOfs) pBuf)) then
        if dOfs + len2cmp <? len then data_changed fuel' pg iOfs (dOfs + len2cmp) len pBuf
        else mpure false
      else mpure true
  end.

Definition set_found (hpage hofs : Z) (h : NVOCMP_itemHdr_t) : NVOCMP_itemHdr_t :=
  mkItemHdr (ih_cmpid h) (ih_subid h) (ih_itemid h) (ih_sysid h) (ih_crc8 h) (ih_sig h)
    (ih_stats h) hofs (ih_len h) hpage.

(** The item is in the state of the header only after a search: [hdr] is a
    local whose other fields the search fills in. *)
Definition search_header (iHdr : NVOCMP_itemHdr_t) : NVOCMP_itemHdr_t :=
  mkItemHdr 0 (ih_subid iHdr) (ih_itemid iHdr) (ih_sysid iHdr) 0 0 0 0 0 0.

(** Returns the status and the header, whose [hpage] and [hofs] locate the item
    being replaced ([hofs] 0 for none). *)
Definition NVOCMP_addItem (iHdr : NVOCMP_itemHdr_t) (pBuf : list Z) (wm : NVOCMP_writeMode)
  : M (Z * NVOCMP_itemHdr_t) :=
  let iLen := u16 (NVOCMP_ITEMHDRLEN + ih_len iHdr) in
  dstPg <- NVOCMP_getDstPage iLen ;
  let compact := dstPg =? NVOCMP_NULLPAGE in
  left <- (if compact then NVOCMP_compactPage iLen else mpure iLen) ;
  failW <- gets NVOCMP_failW ;
  if left <? iLen then
    mpure (if negb (failW =? NVINTF_SUCCESS) then failW else NVINTF_BADLENGTH, iHdr)
  else
    act <- geth actPage ;
    actOfs <- geth actOffset ;
    iHdr <- (if (failW =? NVINTF_SUCCESS) &&
                (match wm with NVOCMP_WRITE => true | NVOCMP_UPDATE => compact | NVOCMP_CREATE => false end)
             then
               r <- NVOCMP_findItem act actOfs (search_header iHdr) NVOCMP_FINDSTRICT None ;
               let '(_, hdr, _) := r in
               mpure (set_found (ih_hpage hdr) (ih_hofs hdr) iHdr)
             else mpure iHdr) ;
    changed <- (if ctrue (ih_hofs iHdr) && ctrue (ih_len iHdr) then
                  data_changed (Z.to_nat (ih_len iHdr)) (ih_hpage iHdr)
                    (u16 (ih_hofs iHdr - ih_len iHdr)) 0 (ih_len iHdr) pBuf
                else mpure true) ;
    act <- geth actPage ;
    actOfs <- geth actOffset ;
    iHdr <- (if (changed : bool) then NVOCMP_writeItem iHdr act actOfs pBuf ;; mpure iHdr
             else mpure (set_found (ih_hpage iHdr) 0 iHdr)) ;
    failW <- gets NVOCMP_failW ;
    mpure (failW, iHdr).
End NvItems.
