(* ===== verification/NvApi.v ===== *)
(** * NV driver: initialisation and API functions

    The functions of src/src/platform/cc13xx_26xx/nvocmp.c that
    [NVOCMP_loadApiPtrsExt] hands out. Each runs under the driver's mutex, so a
    call is one step; buffers are lists holding at least the bytes the caller
    announces, and [None] is a null pointer. *)

From S2P Require Import Prelude.
From S2P Require Import NvTypes.
From S2P Require Import NvOps.
From S2P Require Import NvCompact.
From S2P Require Import NvItems.

Section NvApi.
Context `{NvCodes} `{Nvs}.

(** ** Start-up scan *)

Definition is_page_state (st : Z) : bool :=
  (st =? NVOCMP_PGNACT) || (st =? NVOCMP_PGXDST) || (st =? NVOCMP_PGRDY) ||
  (st =? NVOCMP_PGACT) || (st =? NVOCMP_PGFULL) || (st =? NVOCMP_PGXSRC).

Definition read_headers (pg : Z)
  : M (NVOCMP_pageHdr_t * (NVOCMP_compactHdr_t * NVOCMP_compactHdr_t * NVOCMP_compactHdr_t)) :=
  h <- readPageHdr pg ;
  t <- NVOCMP_getCompactHdr pg THISPAGEHDR ;
  b <- NVOCMP_getCompactHdr pg XSRCSTARTHDR ;
  e <- NVOCMP_getCompactHdr pg XSRCENDHDR ;
  mpure (h, (t, b, e)).

Definition NVOCMP_scanPage (pg : Z) : M Z :=
  hs <- read_headers pg ;
  let h := hs.1 in
  let bad := negb (is_page_state (ph_state h)) ||
             negb (ph_version h =? NVOCMP_VERSION) ||
             negb (ph_signature h =? NVOCMP_SIGNATURE) in
  r <- (if bad then
          e <- NVOCMP_erase pg ;
          modify (set_failW e) ;;
          if e =? NVINTF_SUCCESS then
            hs' <- read_headers pg ; mpure (inl hs')
          else mpure (inr (if e =? NVINTF_LOWPOWER then NVINTF_LOWPOWER else NVINTF_FAILURE))
        else mpure (inl hs)) ;
  match r with
  | inr err => mpure err
  | inl (h, (this, start, end_)) =>
      offset <- (if (ph_state h =? NVOCMP_PGNACT) || (ph_state h =? NVOCMP_PGXDST)
                 then mpure NVOCMP_PGDATAOFS
                 else if negb (ch_pageOffset this =? NVOCMP_NULLOFFSET)
                 then mpure (ch_pageOffset this)
                 else NVOCMP_findOffset pg FLASH_PAGE_SIZE) ;
      modPage pg (λ _, mkPageInfo (ph_state h) (ph_cycle h) (ch_page this) (ph_allActive h)
                         (ch_page start) (ch_page end_) offset
                         (ch_pageOffset start) (ch_pageOffset end_)) ;;
      mpure NVINTF_SUCCESS
  end.

Fixpoint findDstPage_from (n : nat) (pg : Z) : M Z :=
  match n with
  | O => mpure pg
  | S n' =>
      pi <- getPage pg ;
      if pi_mode pi =? NVOCMP_PGCDST then mpure pg else findDstPage_from n' (pg + 1)
  end.

Definition NVOCMP_findDstPage : M Z :=
  size <- gets NVOCMP_size ; findDstPage_from (Z.to_nat size) 0.

(** Counts and last indices per page state that [NVOCMP_initNv] gathers. *)
Record page_census := mkCensus {
  noPgNact : Z; noPgXdst : Z; noPgRdy : Z; noPgAct : Z; noPgFull : Z; noPgXsrc : Z;
  noPgNdef : Z; pgXdst : Z; pgRdy : Z; pgAct : Z; pgNact : Z }.

Definition census_add (c : page_census) (pg st : Z) : page_census :=
  let '(mkCensus nn nx nr na nf ns nd px pr pa pn) := c in
  if st =? NVOCMP_PGNACT then mkCensus (nn + 1) nx nr na nf ns nd px pr pa pg
  else if st =? NVOCMP_PGXDST then mkCensus nn (nx + 1) nr na nf ns nd pg pr pa pn
  else if st =? NVOCMP_PGRDY then mkCensus nn nx (nr + 1) na nf ns nd px pg pa pn
  else if st =? NVOCMP_PGACT then mkCensus nn nx nr (na + 1) nf ns nd px pr pg pn
  else if st =? NVOCMP_PGFULL then mkCensus nn nx nr na (nf + 1) ns nd px pr pa pn
  else if st =? NVOCMP_PGXSRC then mkCensus nn nx nr na nf (ns + 1) nd px pr pa pn
  else mkCensus nn nx nr na nf ns (nd + 1) px pr pa pn.

(** [None] when the scan of a page fails. *)
Fixpoint scan_pages (n : nat) (pg : Z) (c : page_census) : M (option page_census) :=
  match n with
  | O => mpure (Some c)
  | S n' =>
      status <- NVOCMP_scanPage pg ;
      if negb (status =? NVINTF_SUCCESS) then mpure None
      else pi <- getPage pg ; scan_pages n' (pg + 1) (census_add c pg (pi_state pi))
  end.

Definition census_with_pgXdst (v : Z) (c : page_census) : page_census :=
  mkCensus (noPgNact c) (noPgXdst c) (noPgRdy c) (noPgAct c) (noPgFull c) (noPgXsrc c)
    (noPgNdef c) v (pgRdy c) (pgAct c) (pgNact c).

(** "Decide Action based on Page Informations". *)
Definition init_decide (c : page_census) : M (NVOCMP_initAction * page_census) :=
  size <- gets NVOCMP_size ;
  if (0 <? noPgNdef c) || (1 <? noPgXdst c) || (1 <? noPgXsrc c) || (1 <? noPgRdy c)
  then mpure (NVOCMP_FORCE_CLEAN, c)
  else if noPgNact c =? size then mpure (NVOCMP_NORMAL_INIT, c)
  else if ctrue (noPgXsrc c) then
    if ctrue (noPgXdst c) then mpure (NVOCMP_RECOVER_COMPACT, c)
    else if ctrue (noPgNact c)
    then mpure (NVOCMP_RECOVER_COMPACT, census_with_pgXdst (pgNact c) c)
    else
      d <- NVOCMP_findDstPage ;
      mpure (if d <? size then NVOCMP_RECOVER_ERASE else NVOCMP_ERROR_UNKNOWN, c)
  else if ctrue (noPgXdst c) then mpure (NVOCMP_NORMAL_RESUME, c)
  else if ctrue (noPgAct c) || ctrue (noPgFull c) then
    d <- NVOCMP_findDstPage ;
    if d <? size then mpure (NVOCMP_RECOVER_ERASE, c)
    else if ctrue (noPgNact c) then
      tail <- geth tailPage ;
      NVOCMP_changePageState tail NVOCMP_PGXDST ;;
      mpure (NVOCMP_NORMAL_RESUME, census_with_pgXdst (pgNact c) c)
    else mpure (NVOCMP_ERROR_UNKNOWN, c)
  else mpure (NVOCMP_FORCE_CLEAN, c).

(** Erase pages [pg ..], accumulating the status in [NVOCMP_failW]. *)
Fixpoint erase_pages (n : nat) (pg : Z) : M unit :=
  match n with
  | O => mpure tt
  | S n' =>
      e <- NVOCMP_erase pg ;
      failW <- gets NVOCMP_failW ;
      modify (set_failW (Z.lor failW e)) ;;
      erase_pages n' (pg + 1)
  end.

(** The first page becomes ready and the last the compaction target. *)
Definition fresh_ring : M unit :=
  size <- gets NVOCMP_size ;
  modh (hset_headPage 0) ;;
  modh (hset_tailPage (size - 1)) ;;
  modh (hset_actPage 0) ;;
  pi <- getPage 0 ;
  modh (hset_actOffset (pi_offset pi)) ;;
  NVOCMP_changePageState 0 NVOCMP_PGRDY ;;
  NVOCMP_changePageState (size - 1) NVOCMP_PGXDST.

Definition set_active (pg : Z) : M unit :=
  modh (hset_actPage pg) ;;
  pi <- getPage pg ;
  modh (hset_actOffset (pi_offset pi)).

(** An item written last but whose older copy was not yet marked inactive is
    completed. *)
Definition complete_pending : M unit :=
  actOfs <- geth actOffset ;
  act <- geth actPage ;
  if NVOCMP_PGDATAOFS + NVOCMP_ITEMHDRLEN <? actOfs then
    iHdr <- NVOCMP_readHeader act (actOfs - NVOCMP_ITEMHDRLEN) ;
    if ctrue (Z.land (ih_stats iHdr) NVOCMP_FOLLOWBIT) then
      r <- NVOCMP_findItem act (u16 (actOfs - NVOCMP_ITEMHDRLEN - ih_len iHdr)) iHdr
             NVOCMP_FINDSTRICT None ;
      let '(status, hdr, _) := r in
      when ((status =? NVINTF_SUCCESS) && (0 <? ih_hofs hdr))
        (NVOCMP_setItemInactive (ih_hpage hdr) (ih_hofs hdr))
    else NVOCMP_compactPage 0 ;; mpure tt
  else mpure tt.

(** [NVOCMP_NORMAL_RESUME]: find the active page. *)
Definition init_resume (c : page_census) : M unit :=
  size <- gets NVOCMP_size ;
  modh (hset_tailPage (pgXdst c)) ;;
  modh (hset_headPage (NVOCMP_INCPAGE size (pgXdst c))) ;;
  if negb (pgAct c =? NVOCMP_NULLPAGE) then
    set_active (pgAct c) ;; complete_pending
  else if negb (pgRdy c =? NVOCMP_NULLPAGE) then set_active (pgRdy c)
  else head <- geth headPage ; set_active head.

Definition init_recover_compact (c : page_census) : M unit :=
  size <- gets NVOCMP_size ;
  modh (hset_tailPage (pgXdst c)) ;;
  modh (hset_headPage (NVOCMP_INCPAGE size (pgXdst c))) ;;
  e <- NVOCMP_erase (pgXdst c) ;
  modify (set_failW e) ;;
  NVOCMP_changePageState (pgXdst c) NVOCMP_PGXDST ;;
  modh (hset_forceCompact 1) ;;
  NVOCMP_compactPage 0 ;; mpure tt.

(** First page in one of the states, else the head page. *)
Fixpoint find_page_of (states : list Z) : M Z :=
  match states with
  | [] => geth headPage
  | st :: states' =>
      pg <- NVOCMP_findPage st ;
      if pg =? NVOCMP_NULLPAGE then find_page_of states' else mpure pg
  end.

Definition init_recover_erase : M unit :=
  size <- gets NVOCMP_size ;
  pg <- NVOCMP_findDstPage ;
  pi <- getPage pg ;
  modc (cset_xDstPage pg) ;;
  modc (cset_xSrcSPage (pi_sPage pi)) ;;
  modc (cset_xSrcEPage (pi_ePage pi)) ;;
  cleanPages <- NVOCMP_cleanPage ;
  modh (hset_tailPage (NVOCMP_ADDPAGE size pg cleanPages)) ;;
  modh (λ h, hset_headPage (NVOCMP_INCPAGE size (tailPage h)) h) ;;
  tmpPg <- find_page_of [NVOCMP_PGACT; NVOCMP_PGRDY; NVOCMP_PGNACT; NVOCMP_PGFULL] ;
  set_active tmpPg ;;
  tail <- geth tailPage ;
  NVOCMP_changePageState tail NVOCMP_PGXDST.

Definition empty_census : page_census :=
  mkCensus 0 0 0 0 0 0 0 NVOCMP_NULLPAGE NVOCMP_NULLPAGE NVOCMP_NULLPAGE NVOCMP_NULLPAGE.

Definition NVOCMP_initNv : M unit :=
  size <- gets NVOCMP_size ;
  scanned <- scan_pages (Z.to_nat size) 0 empty_census ;
  match scanned with
  | None => mpure tt
  | Some c =>
      d <- init_decide c ;
      let '(action, c') := d in
      modify (set_gAction action) ;;
      match action with
      | NVOCMP_FORCE_CLEAN => erase_pages (Z.to_nat size) 0 ;; fresh_ring
      | NVOCMP_NORMAL_INIT => fresh_ring
      | NVOCMP_NORMAL_RESUME => init_resume c'
      | NVOCMP_RECOVER_COMPACT => init_recover_compact c'
      | NVOCMP_RECOVER_ERASE => init_recover_erase
      | NVOCMP_ERROR_UNKNOWN => mfail AssertLoop
      end
  end.

(** The handle zeroed by [memset], with [compactInfo] filled with 0xFF. *)
Definition zero_pageInfo : NVOCMP_pageInfo_t := mkPageInfo 0 0 0 0 0 0 0 0 0.
Definition zero_handle : NVOCMP_nvHandle_t :=
  mkHandle 0 0 0 0 0 0 (mkCompactInfo 0xFF 0xFF 0xFF 0xFF 0xFFFF 0xFFFF 0xFFFF)
    (replicate (Z.to_nat NVOCMP_NVPAGES) zero_pageInfo).

(** [NVS_open] is taken to succeed. *)
Definition NVOCMP_initNvApi : M Z :=
  failF <- gets NVOCMP_failF ;
  modify (set_failW failF) ;;
  if failF =? NVINTF_NOTREADY then
    modify (set_failF NVINTF_SUCCESS) ;;
    modify (set_failW NVINTF_SUCCESS) ;;
    modify (set_handle zero_handle) ;;
    let n := u8 (NVS_regionSize / NVS_sectorSize) in
    let n := if NVOCMP_NVPAGES <? n then NVOCMP_NVPAGES else n in
    modh (hset_nvSize n) ;;
    modify (set_size n) ;;
    if negb (FLASH_PAGE_SIZE =? NVS_sectorSize) || (NVS_regionSize <? n * FLASH_PAGE_SIZE) then
      modify (set_failF NVINTF_FAILURE) ;; mpure NVINTF_FAILURE
    else
      modh (hset_forceCompact 0) ;;
      modh (hset_actPage NVOCMP_NULLPAGE) ;;
      modh (hset_actOffset FLASH_PAGE_SIZE) ;;
      NVOCMP_initNv ;;
      gets NVOCMP_failW
  else gets NVOCMP_failW.

(** ** Whole-device operations *)

Definition NVOCMP_eraseNvApi : M Z :=
  err <- NVOCMP_FLASHACCESS ;
  if ctrue err then mpure err else
  size <- gets NVOCMP_size ;
  erase_pages (Z.to_nat size) 0 ;;
  err <- gets NVOCMP_failW ;
  fresh_ring ;;
  mpure err.

Fixpoint free_space (n : nat) (pg freespace : Z) : M Z :=
  match n with
  | O => mpure freespace
  | S n' =>
      size <- gets NVOCMP_size ;
      tail <- geth tailPage ;
      if pg =? tail then free_space n' (NVOCMP_INCPAGE size pg) freespace
      else
        pageHdr <- readPageHdr pg ;
        pi <- getPage pg ;
        free_space n' (NVOCMP_INCPAGE size pg)
          (if (ph_state pageHdr =? NVOCMP_PGNACT) || (ph_state pageHdr =? NVOCMP_PGRDY) ||
              (ph_state pageHdr =? NVOCMP_PGACT)
           then u32 (freespace + (FLASH_PAGE_SIZE - pi_offset pi)) else freespace)
  end.

Definition NVOCMP_getFreeNvApi : M Z :=
  size <- gets NVOCMP_size ;
  pg <- geth actPage ;
  free_space (Z.to_nat size) pg 0.

Definition NVOCMP_compactNvApi (minAvail : Z) : M Z :=
  err <- NVOCMP_FLASHACCESS ;
  if ctrue err then mpure err else
  err <- gets NVOCMP_failF ;
  if err =? NVINTF_SUCCESS then
    actOfs <- geth actOffset ;
    let left := s16 (FLASH_PAGE_SIZE - actOfs) in
    if (left <? minAvail) || (minAvail =? 0) then
      NVOCMP_compactPage 0 ;; gets NVOCMP_failW
    else mpure NVINTF_BADPARAM
  else mpure err.

(** ** Items *)

(** The search all item operations start with: from the newest item of the
    active page on. *)
Definition find_current (pHdr : NVOCMP_itemHdr_t) : M (Z * NVOCMP_itemHdr_t) :=
  act <- geth actPage ;
  actOfs <- geth actOffset ;
  r <- NVOCMP_findItem act actOfs pHdr NVOCMP_FINDSTRICT None ;
  let '(err, hdr, _) := r in mpure (err, hdr).

Definition NVOCMP_createItemApi (id : NVINTF_itemID_t) (len : Z) (pBuf : option (list Z)) : M Z :=
  match pBuf with
  | None => mpure NVINTF_BADPARAM
  | Some buf =>
      if len =? 0 then mpure NVINTF_BADPARAM else
      c <- NVOCMP_checkItem id (u16 len) ;
      let '(err, iHdr) := c in
      if ctrue err then mpure err else
      err <- NVOCMP_FLASHACCESS ;
      if ctrue err then mpure err else
      r <- find_current iHdr ;
      let '(err, iHdr) := r in
      if err =? NVINTF_SUCCESS then mpure NVINTF_EXIST
      else if err =? NVINTF_NOTFOUND then
        a <- NVOCMP_addItem iHdr buf NVOCMP_CREATE ;
        mpure (if negb (a.1 =? NVINTF_SUCCESS) then NVINTF_FAILURE else a.1)
      else mpure NVINTF_FAILURE
  end.

(** After [NVOCMP_addItem]: retire the item that was replaced. *)
Definition retire (a : Z * NVOCMP_itemHdr_t) : M Z :=
  let '(err, iHdr) := a in
  if (err =? NVINTF_SUCCESS) && (0 <? ih_hofs iHdr) then
    NVOCMP_setItemInactive (ih_hpage iHdr) (ih_hofs iHdr) ;;
    gets NVOCMP_failW
  else mpure err.

Definition NVOCMP_updateItemApi (id : NVINTF_itemID_t) (len : Z) (pBuf : option (list Z)) : M Z :=
  match pBuf with
  | None => mpure NVINTF_BADPARAM
  | Some buf =>
      if len =? 0 then mpure NVINTF_BADPARAM else
      c <- NVOCMP_checkItem id (u16 len) ;
      let '(err, iHdr) := c in
      if ctrue err then mpure err else
      err <- NVOCMP_FLASHACCESS ;
      if ctrue err then mpure err else
      r <- find_current iHdr ;
      let '(err, iHdr) := r in
      if err =? NVINTF_SUCCESS then
        a <- NVOCMP_addItem iHdr buf NVOCMP_UPDATE ; retire a
      else if err =? NVINTF_NOTFOUND then mpure NVINTF_NOTFOUND
      else mpure NVINTF_FAILURE
  end.

Definition NVOCMP_deleteItemApi (id : NVINTF_itemID_t) : M Z :=
  c <- NVOCMP_checkItem id 0 ;
  let '(err, iHdr) := c in
  if ctrue err then mpure err else
  err <- NVOCMP_FLASHACCESS ;
  if ctrue err then mpure err else
  r <- find_current iHdr ;
  let '(err, iHdr) := r in
  if ctrue err then mpure err else
  NVOCMP_setItemInactive (ih_hpage iHdr) (ih_hofs iHdr) ;;
  r <- find_current iHdr ;
  failW <- gets NVOCMP_failW ;
  mpure (if r.1 =? NVINTF_NOTFOUND then failW else NVINTF_FAILURE).

Definition NVOCMP_getItemLenApi (id : NVINTF_itemID_t) : M Z :=
  c <- NVOCMP_checkItem id 0 ;
  let '(err, iHdr) := c in
  if ctrue err then mpure 0 else
  r <- find_current iHdr ;
  mpure (if negb (r.1 =? NVINTF_SUCCESS) then 0 else ih_len r.2).

(** Returns the status and the bytes copied to the caller's buffer. *)
Definition NVOCMP_readItemApi (id : NVINTF_itemID_t) (ofs len : Z) (pBuf : option (list Z))
  : M (Z * list Z) :=
  match pBuf with
  | None => mpure (NVINTF_BADPARAM, [])
  | Some _ =>
      if len =? 0 then mpure (NVINTF_BADPARAM, []) else
      c <- NVOCMP_checkItem id len ;
      let '(err, iHdr) := c in
      if ctrue err then mpure (err, []) else
      r <- find_current iHdr ;
      let '(err, iHdr) := r in
      if ctrue err then mpure (err, []) else NVOCMP_readItem iHdr ofs len
  end.

(** Returns the status, the caller's read buffer and the sub-identifier. *)
Definition NVOCMP_readContItemApi (id : NVINTF_itemID_t) (ofs rlen : Z) (rBuf : option (list Z))
    (clen coff : Z) (cBuf : option (list Z)) : M (Z * list Z * Z) :=
  match rBuf, cBuf with
  | Some rb, Some cb =>
      if (rlen =? 0) || (clen =? 0) || (FLASH_PAGE_SIZE <? coff)
      then mpure (NVINTF_BADPARAM, rb, NVOCMP_INVALIDSUBID) else
      c <- NVOCMP_checkItem id rlen ;
      let '(err, iHdr) := c in
      if ctrue err then mpure (err, rb, NVOCMP_INVALIDSUBID) else
      act <- geth actPage ;
      actOfs <- geth actOffset ;
      r <- NVOCMP_findItem act actOfs iHdr (Z.lor NVOCMP_FINDITMID NVOCMP_FINDCONTENT)
             (Some (mkItemInfo cb clen coff rb rlen)) ;
      let '(err, hdr, rb') := r in
      mpure (err, rb', if ctrue err then NVOCMP_INVALIDSUBID else ih_subid hdr)
  | _, _ => mpure (NVINTF_BADPARAM, default [] rBuf, NVOCMP_INVALIDSUBID)
  end.

Definition NVOCMP_writeItemApi (id : NVINTF_itemID_t) (len : Z) (pBuf : option (list Z)) : M Z :=
  match pBuf with
  | None => mpure NVINTF_BADPARAM
  | Some buf =>
      if len =? 0 then mpure NVINTF_BADPARAM else
      c <- NVOCMP_checkItem id len ;
      let '(err, iHdr) := c in
      if ctrue err then mpure err else
      err <- NVOCMP_FLASHACCESS ;
      if ctrue err then mpure err else
      a <- NVOCMP_addItem iHdr buf NVOCMP_WRITE ; retire a
  end.

Definition NVOCMP_expectCompApi (len : Z) : M bool :=
  if ctrue len then
    dstPg <- NVOCMP_getDstPage (u16 (NVOCMP_ITEMHDRLEN + len)) ;
    mpure (dstPg =? NVOCMP_NULLPAGE)
  else mpure false.

(** ** Iteration over items *)

Record NVINTF_nvProxy_t := mkProxy {
  px_flag : Z; px_sysid : Z; px_itemid : Z; px_subid : Z; px_len : Z;
  px_buffer : option (list Z) }.

(** A new search: decode the flags into the static variables. *)
Definition doNext_start (prx : NVINTF_nvProxy_t) (h : NVOCMP_nvHandle_t) (st : doNext_statics)
  : doNext_statics :=
  let has f := ctrue (Z.land (px_flag prx) f) in
  mkDoNext
    (if has NVINTF_DOFIND then doFind else if has NVINTF_DOREAD then doRead
     else if has NVINTF_DODELETE then doDelete else dn_op st)
    (if has NVINTF_DOSYSID then NVOCMP_FINDSYSID else if has NVINTF_DOITMID then NVOCMP_FINDITMID
     else if has NVINTF_DOANYID then NVOCMP_FINDANY else dn_search st)
    (actPage h) (s16 (actOffset h)) (px_len prx) (-1) 0xFF.

Definition NVOCMP_doNextApi (prx : NVINTF_nvProxy_t) : M (Z * NVINTF_nvProxy_t) :=
  if px_flag prx =? 0 then mpure (NVINTF_BADPARAM, prx) else
  h <- geth id ;
  st <- gets doNextSt ;
  let start := ctrue (Z.land (px_flag prx) NVINTF_DOSTART) in
  let flag := if start then Z.land (px_flag prx) (Z.lnot NVINTF_DOSTART) else px_flag prx in
  let prx := mkProxy flag (px_sysid prx) (px_itemid prx) (px_subid prx) (px_len prx) (px_buffer prx) in
  let st := if start then doNext_start prx h st else st in
  modify (set_doNext st) ;;
  let hdr := mkItemHdr 0 (px_subid prx) (px_itemid prx) (px_sysid prx) 0 0 0 0 0 0 in
  r <- NVOCMP_findItem (dn_sPage st) (u16 (dn_fOfs st)) hdr (dn_search st) None ;
  let '(err, hdr, _) := r in
  if ctrue err then mpure (NVINTF_NOTFOUND, prx)
  else
    let prx := mkProxy flag (ih_sysid hdr) (ih_itemid hdr) (ih_subid hdr) (ih_len hdr) (px_buffer prx) in
    let nowrap := ctrue (Z.land flag NVINTF_DONOWRAP) in
    let again := nowrap && (dn_initialFindiofs st =? ih_hofs hdr) && (dn_initialsPage st =? ih_hpage hdr) in
    let first := nowrap && (dn_initialFindiofs st =? -1) && (dn_initialsPage st =? 0xFF) in
    modify (set_doNext (mkDoNext (dn_op st) (dn_search st) (ih_hpage hdr) (s16 (ih_hofs hdr - ih_len hdr))
              (dn_bufLen st)
              (if first then ih_hofs hdr else dn_initialFindiofs st)
              (if first then ih_hpage hdr else dn_initialsPage st))) ;;
    if again then mpure (NVINTF_NOTFOUND, prx)
    else
      match dn_op st with
      | doFind => mpure (NVINTF_SUCCESS, prx)
      | doRead =>
          match px_buffer prx with
          | Some buf =>
              if ih_len hdr <=? dn_bufLen st then
                r <- NVOCMP_readItem hdr 0 (ih_len hdr) ;
                mpure (r.1, mkProxy flag (ih_sysid hdr) (ih_itemid hdr) (ih_subid hdr) (ih_len hdr)
                              (Some (r.2 ++ drop (length r.2) buf)))
              else mpure (NVINTF_SUCCESS, prx)
          | None => mpure (NVINTF_SUCCESS, prx)
          end
      | doDelete =>
          when (negb (ih_sysid hdr =? NVINTF_SYSID_NVDRVR))
            (NVOCMP_setItemInactive (ih_hpage hdr) (ih_hofs hdr)) ;;
          mpure (NVINTF_SUCCESS, prx)
      end.
End NvApi.
