(* ===== verification/NvFlash.v ===== *)
(** * NV driver: the flash device and the CRC

    What the driver relies on of the NVS driver and of [crc_update], as classes
    of laws, and the behaviour of the driver's flash primitives under them. *)

From S2P Require Import Prelude.
From S2P Require Import NvTypes.
From S2P Require Import NvOps.

(** ** Byte-addressed memory *)

(** The [n] bytes at [o]. *)
Definition region (m : Z → Z) (o n : Z) : list Z := m <$> seqZ o n.

(** [m] with [buf] stored at [o]. *)
Definition upd (m : Z → Z) (o : Z) (buf : list Z) (a : Z) : Z :=
  if (o <=? a) && (a <? o + Z.of_nat (length buf)) then nth (Z.to_nat (a - o)) buf 0 else m a.

Lemma region_length m o n : length (region m o n) = Z.to_nat n.
Proof. unfold region. by rewrite length_fmap, length_seqZ. Qed.

Lemma region_lookup m o n i :
  (i < Z.to_nat n)%nat → region m o n !! i = Some (m (o + Z.of_nat i)).
Proof.
  intros Hi. unfold region. rewrite list_lookup_fmap, lookup_seqZ_lt by lia. done.
Qed.

Lemma region_one m o : region m o 1 = [m o].
Proof. done. Qed.

Lemma region_split m o a b :
  0 <= a → 0 <= b → region m o (a + b) = region m o a ++ region m (o + a) b.
Proof. intros. unfold region. rewrite seqZ_app by lia. by rewrite fmap_app. Qed.

Lemma region_ext m m' o n :
  (∀ a, o <= a < o + n → m a = m' a) → region m o n = region m' o n.
Proof.
  intros E. unfold region. apply list_fmap_ext. intros i a Hi.
  apply lookup_seqZ in Hi. apply E. lia.
Qed.

Lemma region_upd_out m o buf p n :
  p + n <= o ∨ o + Z.of_nat (length buf) <= p → region (upd m o buf) p n = region m p n.
Proof.
  intros Hd. apply region_ext. intros a Ha. unfold upd.
  destruct (Z.leb_spec o a), (Z.ltb_spec a (o + Z.of_nat (length buf))); simpl; try done; lia.
Qed.

Lemma region_upd_in m o buf n :
  n = Z.of_nat (length buf) → region (upd m o buf) o n = buf.
Proof.
  intros ->. apply list_eq. intros i. destruct (decide (i < length buf)%nat).
  - rewrite region_lookup by lia. unfold upd.
    destruct (Z.leb_spec o (o + Z.of_nat i)), (Z.ltb_spec (o + Z.of_nat i) (o + Z.of_nat (length buf)));
      simpl; try lia.
    rewrite Z.add_simpl_l, Nat2Z.id.
    destruct (lookup_lt_is_Some_2 buf i) as [x Hx]; [done|].
    by rewrite Hx, (nth_lookup_Some _ _ _ _ Hx).
  - rewrite !lookup_ge_None_2; rewrite ?region_length; done || lia.
Qed.

(** Storing inside a region replaces the middle of it. *)
Lemma region_upd_mid m o n pre mid post p buf :
  region m o n = pre ++ mid ++ post →
  p = o + Z.of_nat (length pre) → length buf = length mid →
  region (upd m p buf) o n = pre ++ buf ++ post.
Proof.
  intros E -> Hb.
  assert (Hn : Z.to_nat n = (length pre + (length mid + length post))%nat)
    by (rewrite <- (region_length m o n), E, !length_app; done).
  destruct (decide (n < 0)).
  { replace (Z.to_nat n) with 0%nat in Hn by lia.
    destruct pre, mid, post; simpl in *; try lia. destruct buf; simpl in *; [|lia].
    apply nil_length_inv. rewrite region_length. lia. }
  assert (En : n = Z.of_nat (length pre) + (Z.of_nat (length mid) + Z.of_nat (length post))) by lia.
  rewrite En in E |- *.
  rewrite region_split in E |- * by lia.
  rewrite region_split in E |- * by lia.
  apply app_inj_1 in E as [E1 E2]; [|rewrite region_length; lia].
  apply app_inj_1 in E2 as [_ E3]; [|rewrite region_length; lia].
  rewrite region_upd_out by lia. rewrite E1. f_equal.
  rewrite <- Hb, region_upd_in by lia. f_equal.
  rewrite Hb. rewrite region_upd_out by (rewrite Hb; lia). done.
Qed.

Lemma region_sub m o n pre mid post :
  region m o n = pre ++ mid ++ post →
  region m (o + Z.of_nat (length pre)) (Z.of_nat (length mid)) = mid.
Proof.
  intros E.
  assert (Hl : Z.to_nat n = (length pre + (length mid + length post))%nat)
    by (rewrite <- (region_length m o n), E, !length_app; done).
  apply list_eq. intros i. destruct (decide (i < length mid)%nat).
  2:{ rewrite !lookup_ge_None_2; rewrite ?region_length; done || lia. }
  assert (E' := f_equal (lookup (length pre + i)%nat) E).
  rewrite lookup_app_r in E' by lia. rewrite lookup_app_l in E' by lia.
  rewrite region_lookup in E' by lia. rewrite region_lookup by lia.
  rewrite Nat2Z.inj_add, Z.add_assoc in E'. rewrite E'. f_equal. lia.
Qed.

(** ** Laws of the services *)

(** Reads return the memory, a successful write stores the buffer and an erase
    sets a sector to ones; the voltage check does not touch the memory. *)
Class NvsLaws `{Nvs} := {
  mem : dev → Z → Z;
  mem_byte d a : in_u8 (mem d a);
  NVS_read_mem d ofs len :
    0 <= ofs → 0 <= len → ofs + len <= NVS_regionSize →
    NVS_read d ofs len = region (mem d) ofs len;
  NVS_write_mem d ofs buf st d' :
    is_bytes buf → 0 <= ofs → ofs + Z.of_nat (length buf) <= NVS_regionSize →
    NVS_write d ofs buf = (st, d') → 0 <= st →
    ∀ a, mem d' a = upd (mem d) ofs buf a;
  NVS_erase_mem d ofs n st d' :
    0 <= ofs → 0 <= n → ofs + n <= NVS_regionSize →
    NVS_erase d ofs n = (st, d') → 0 <= st →
    ∀ a, mem d' a = upd (mem d) ofs (replicate (Z.to_nat n) NVOCMP_ERASEDBYTE) a;
  volt_mem d ok d' :
    NVOCMP_voltCheckFptr d = Some (ok, d') → ∀ a, mem d' a = mem d a
}.

(** Programming can only clear bits: [buf] can be written over [old]. *)
Definition programmable (old buf : list Z) : Prop :=
  Forall2 (λ o b, in_u8 b ∧ Z.land b o = b) old buf.

(** A device in working order: erasing works, clearing bits works, and the
    voltage is sufficient or not checked. *)
Class NvsReliable `{NvsLaws} : Prop := {
  write_succeeds d ofs buf :
    0 <= ofs → ofs + Z.of_nat (length buf) <= NVS_regionSize →
    programmable (region (mem d) ofs (Z.of_nat (length buf))) buf →
    0 <= (NVS_write d ofs buf).1;
  erase_succeeds d ofs n :
    0 <= ofs → 0 <= n → ofs + n <= NVS_regionSize → 0 <= (NVS_erase d ofs n).1;
  volt_sufficient d :
    NVOCMP_voltCheckFptr d = None ∨ ∃ d', NVOCMP_voltCheckFptr d = Some (true, d')
}.

(** [crc_update] is an eight-bit CRC fed incrementally. *)
Class CrcLaws `{Nvs} : Prop := {
  crc_byte c l : in_u8 c → in_u8 (crc_update c l);
  crc_app c l1 l2 : crc_update (crc_update c l1) l2 = crc_update c (l1 ++ l2)
}.

(** ** Reasoning about driver code *)

Section Steps.
Context `{NvCodes} `{Nvs}.

Lemma mthen_ret {A B} (m : M A) (k : A → M B) s a s' :
  m s = Ret a s' → mthen m k s = k a s'.
Proof. unfold mthen. by intros ->. Qed.

Lemma mthen_gets {A B} (f : drv → A) (k : A → M B) s : mthen (gets f) k s = k (f s) s.
Proof. done. Qed.
Lemma mthen_geth {A B} (f : NVOCMP_nvHandle_t → A) (k : A → M B) s :
  mthen (geth f) k s = k (f (nvHandle s)) s.
Proof. done. Qed.
Lemma mthen_getc {A B} (f : NVOCMP_compactInfo_t → A) (k : A → M B) s :
  mthen (getc f) k s = k (f (compactInfo (nvHandle s))) s.
Proof. done. Qed.
Lemma mthen_modify {B} f (k : unit → M B) s : mthen (modify f) k s = k tt (f s).
Proof. done. Qed.
Lemma mthen_modh {B} f (k : unit → M B) s :
  mthen (modh f) k s = k tt (set_handle (f (nvHandle s)) s).
Proof. done. Qed.
Lemma mthen_mpure {A B} (a : A) (k : A → M B) s : mthen (mpure a) k s = k a s.
Proof. done. Qed.

Lemma set_flash_id (s : drv) : set_flash (flash s) s = s.
Proof. by destruct s. Qed.

Lemma set_flash_twice (s : drv) d d' : set_flash d' (set_flash d s) = set_flash d' s.
Proof. done. Qed.
End Steps.

(** Run the first action of a sequence by an equation about it. *)
Ltac nvbind E := rewrite (mthen_ret _ _ _ _ _ E).

(** Run the first action when it is a plain access to the state. *)
Ltac nvget :=
  match goal with
  | |- context [mthen (gets ?f) ?k ?s] => rewrite (mthen_gets f k s)
  | |- context [mthen (geth ?f) ?k ?s] => rewrite (mthen_geth f k s)
  | |- context [mthen (getc ?f) ?k ?s] => rewrite (mthen_getc f k s)
  | |- context [mthen (modify ?f) ?k ?s] => rewrite (mthen_modify f k s)
  | |- context [mthen (modh ?f) ?k ?s] => rewrite (mthen_modh f k s)
  | |- context [mthen (mpure ?a) ?k ?s] => rewrite (mthen_mpure a k s)
  end; cbv beta.

(** ** Flash primitives of the driver *)

Section Flash.
Context `{NvCodesOk} `{NvsLaws}.
Implicit Types (s : drv).

Lemma success_eq : NVINTF_SUCCESS = 0.
Proof. apply success_is_zero. Qed.

Lemma ctrue_success : ctrue NVINTF_SUCCESS = false.
Proof. by rewrite success_eq. Qed.

Lemma lor_success : Z.lor NVINTF_SUCCESS NVINTF_SUCCESS = NVINTF_SUCCESS.
Proof. by rewrite success_eq. Qed.

Lemma failure_code c : c ∈ nv_failures → 0 < c < 128.
Proof. intros Hc. pose proof failures_range as F. rewrite Forall_forall in F. by apply F. Qed.

(** Byte [ofs] of page [pg]. *)
Definition addr (pg ofs : Z) : Z := NVOCMP_FLASHOFFSET pg ofs.

Lemma addr_eq pg ofs : addr pg ofs = pg * 2048 + ofs.
Proof. unfold addr, NVOCMP_FLASHOFFSET, PAGE_SIZE_LSHIFT. by rewrite Z.shiftl_mul_pow2. Qed.

(** The access lies inside the flash region. *)
Definition in_region (pg ofs len : Z) : Prop :=
  0 <= addr pg ofs ∧ 0 <= len ∧ addr pg ofs + len <= NVS_regionSize.

Lemma read_spec s pg ofs len :
  in_region pg ofs len →
  NVOCMP_read pg ofs len s = Ret (region (mem (flash s)) (addr pg ofs) len) s.
Proof. intros (?&?&?). unfold NVOCMP_read, gets. by rewrite NVS_read_mem. Qed.

Lemma readByte_spec s pg ofs :
  in_region pg ofs 1 → NVOCMP_readByte pg ofs s = Ret (mem (flash s) (addr pg ofs)) s.
Proof.
  intros Hr. unfold NVOCMP_readByte. nvbind (read_spec s pg ofs 1 Hr).
  by rewrite region_one.
Qed.

(** With the voltage too low nothing is written. *)
Lemma write_lowpower s pg ofs buf d :
  NVOCMP_voltCheckFptr (flash s) = Some (false, d) →
  NVOCMP_write pg ofs buf s = Ret NVINTF_LOWPOWER (set_flash d s).
Proof.
  intros E. unfold NVOCMP_write, NVOCMP_FLASHACCESS, mthen. rewrite E.
  assert (0 < NVINTF_LOWPOWER < 128) by (apply failure_code; set_solver).
  rewrite success_eq. destruct (Z.eqb_spec NVINTF_LOWPOWER 0); [lia|done].
Qed.

Context `{!NvsReliable}.

Lemma flashaccess_spec s :
  ∃ d, NVOCMP_FLASHACCESS s = Ret NVINTF_SUCCESS (set_flash d s) ∧
       ∀ a, mem d a = mem (flash s) a.
Proof.
  unfold NVOCMP_FLASHACCESS. destruct (volt_sufficient (flash s)) as [E|[d E]]; rewrite E.
  - exists (flash s). by rewrite set_flash_id.
  - exists d. split; [done|]. exact (volt_mem _ _ _ E).
Qed.

(** A write that only clears bits succeeds and stores the bytes. *)
Lemma write_spec s pg ofs buf :
  in_region pg ofs (Z.of_nat (length buf)) →
  programmable (region (mem (flash s)) (addr pg ofs) (Z.of_nat (length buf))) buf →
  ∃ d, NVOCMP_write pg ofs buf s = Ret NVINTF_SUCCESS (set_flash d s) ∧
       ∀ a, mem d a = upd (mem (flash s)) (addr pg ofs) buf a.
Proof.
  intros (Ho&_&Hr) Hp. unfold NVOCMP_write.
  destruct (flashaccess_spec s) as (d0&E0&M0). nvbind E0.
  rewrite Z.eqb_refl. unfold NVS_write_s, mthen. simpl.
  rewrite (region_ext _ (mem d0)) in Hp by (intros; symmetry; apply M0).
  assert (Hok := write_succeeds d0 (addr pg ofs) buf Ho Hr Hp).
  unfold addr in *. destruct (NVS_write d0 _ buf) as [st d1] eqn:E1. simpl in Hok.
  exists d1. split.
  - destruct (Z.ltb_spec st 0); [lia|]. done.
  - intros a. rewrite (NVS_write_mem _ _ _ _ _ ltac:(eapply Forall2_Forall_r; [exact Hp|];
      apply Forall_forall; naive_solver) Ho Hr E1 Hok a).
    unfold upd. destruct (_ && _); [done|apply M0].
Qed.

Lemma writeByte_spec s pg ofs b :
  in_region pg ofs 1 → in_u8 b → Z.land b (mem (flash s) (addr pg ofs)) = b →
  ∃ d, NVOCMP_writeByte pg ofs b s = Ret tt (set_failW NVINTF_SUCCESS (set_flash d s)) ∧
       ∀ a, mem d a = upd (mem (flash s)) (addr pg ofs) [b] a.
Proof.
  intros Hr Hb Hl. destruct (write_spec s pg ofs [b]) as (d&E&M); [done| |].
  { simpl. rewrite region_one. by apply Forall2_cons. }
  exists d. split; [|done]. unfold NVOCMP_writeByte. by nvbind E.
Qed.
End Flash.
