(* ===== verification/NvLog.v ===== *)
(** * NV driver: items in flash

    The byte format of an item, the round trip of its packed header, its CRC, and
    the contents of a page as a log of items. *)

From S2P Require Import Prelude.
From S2P Require Import NvTypes.
From S2P Require Import NvOps.
From S2P Require Import NvFlash.

(** ** Bit fields as arithmetic *)

(** The masks and shifts of the header format. *)
Lemma mask_3 x : Z.land x 0x3 = x mod 4.
Proof. apply (land_mod 2). lia. Qed.
Lemma mask_3F x : Z.land x 0x3F = x mod 64.
Proof. apply (land_mod 6). lia. Qed.
Lemma mask_FF x : Z.land x 0xFF = x mod 256.
Proof. apply (land_mod 8). lia. Qed.
Lemma mask_3FF x : Z.land x 0x3FF = x mod 1024.
Proof. apply (land_mod 10). lia. Qed.

Create Rewrite HintDb bitfield.
#[export] Hint Rewrite mask_3 mask_3F mask_FF mask_3FF : bitfield.
#[export] Hint Rewrite Z.shiftl_mul_pow2 Z.shiftr_div_pow2 using lia : bitfield.

(** Turn the fields of a goal into [*], [/] and [mod] by constants; a [lor] of
    disjoint fields is a sum. *)
Ltac field_sum :=
  repeat match goal with
  | |- context [Z.lor (Z.shiftl ?a ?n) ?b] =>
      rewrite (lor_shiftl_add a b n) by
        (autorewrite with bitfield; first [lia | split; Z.div_mod_to_equations; lia])
  end.

Ltac bitfields :=
  field_sum; autorewrite with bitfield; unfold u8, u16, u32 in *;
  repeat match goal with |- context [2 ^ ?n] => let v := eval vm_compute in (2 ^ n) in change (2 ^ n) with v end.

(** ** Items *)

Record item := mkItem {
  it_sys : Z; it_item : Z; it_sub : Z; it_data : list Z; it_live : bool }.

Definition it_len (it : item) : Z := Z.of_nat (length (it_data it)).

(** The identifiers and the length fit the fields of the header. *)
Definition item_ok (it : item) : Prop :=
  0 <= it_sys it <= NVOCMP_MAXSYSID ∧ 0 <= it_item it <= NVOCMP_MAXITEMID ∧
  0 <= it_sub it <= NVOCMP_MAXSUBID ∧ it_len it <= NVOCMP_MAXLEN ∧ is_bytes (it_data it).

Definition it_key (it : item) : Z * Z * Z := (it_sys it, it_item it, it_sub it).

(** [tmp &= ~NVOCMP_ACTIVEIDBIT] on the byte with the status bits. *)
Definition retire_byte (b : Z) : Z := Z.land b (u8 (Z.lnot NVOCMP_ACTIVEIDBIT)).
Definition retire_header (c : list Z) : list Z := alter retire_byte 5%nat c.

Definition retired (it : item) : item :=
  mkItem (it_sys it) (it_item it) (it_sub it) (it_data it) false.

Section Items.
Context `{Nvs}.

Definition it_ids (it : item) : list Z := pack_ids (it_sys it) (it_item it) (it_sub it) (it_len it).
Definition it_crc (it : item) : Z := u8 (crc_update 0 (it_data it ++ it_ids it)).

Definition active_header (it : item) : list Z :=
  pack_header (it_sys it) (it_item it) (it_sub it) (it_len it) (it_crc it).
Definition item_header (it : item) : list Z :=
  if it_live it then active_header it else retire_header (active_header it).

(** An item in flash: its data, then its header. *)
Definition item_bytes (it : item) : list Z := it_data it ++ item_header it.
Definition item_size (it : item) : Z := it_len it + NVOCMP_ITEMHDRLEN.

(** The header of an item as the driver expands it. *)
Definition expanded (pg hofs : Z) (it : item) : NVOCMP_itemHdr_t :=
  mkItemHdr (NVOCMP_CMPRID (it_sys it) (it_item it) (it_sub it)) (it_sub it) (it_item it) (it_sys it)
    (it_crc it) NVOCMP_SIGNATURE
    (if it_live it then Z.lor NVOCMP_ACTIVEIDBIT NVOCMP_FOLLOWBIT else NVOCMP_FOLLOWBIT)
    hofs (it_len it) pg.

Lemma item_header_length it : length (item_header it) = 7%nat.
Proof. unfold item_header, retire_header. destruct (it_live it); [done|by rewrite length_alter]. Qed.

Lemma item_bytes_length it : Z.of_nat (length (item_bytes it)) = item_size it.
Proof.
  unfold item_bytes, item_size, it_len. rewrite length_app, item_header_length.
  unfold NVOCMP_ITEMHDRLEN. lia.
Qed.

(** The packed bytes as sums of their fields; [st] are the two status bits. *)
Definition packed (sys itm sub len crc st : Z) : list Z :=
  [sys * 4 + itm / 256; itm mod 256; sub / 4; sub mod 4 * 64 + len / 64;
   len mod 64 * 4 + crc / 64; crc mod 64 * 4 + st; NVOCMP_SIGNATURE].

Lemma pack_header_sum sys itm sub len crc :
  0 <= sys <= NVOCMP_MAXSYSID → 0 <= itm <= NVOCMP_MAXITEMID → 0 <= sub <= NVOCMP_MAXSUBID →
  0 <= len <= NVOCMP_MAXLEN → in_u8 crc →
  pack_header sys itm sub len crc = packed sys itm sub len crc NVOCMP_ACTIVEIDBIT.
Proof.
  unfold NVOCMP_MAXSYSID, NVOCMP_MAXITEMID, NVOCMP_MAXSUBID, NVOCMP_MAXLEN, in_u8.
  intros. change (2 ^ 8) with 256 in *.
  unfold packed, pack_header, pack_ids, NVOCMP_ACTIVEIDBIT. simpl.
  rewrite (u8_id (Z.shiftl (Z.land len 63) 2))
    by (unfold in_u8; bitfields; Z.div_mod_to_equations; lia).
  do 5 (f_equal; [bitfields; Z.div_mod_to_equations; lia|]).
  f_equal. bitfields. Z.div_mod_to_equations. lia.
Qed.

Lemma retire_packed sys itm sub len crc :
  in_u8 crc →
  retire_header (packed sys itm sub len crc NVOCMP_ACTIVEIDBIT) = packed sys itm sub len crc 0.
Proof.
  intros. unfold packed, retire_header, retire_byte, NVOCMP_ACTIVEIDBIT. simpl. do 5 f_equal. f_equal.
  assert (0 <= crc mod 64 < 64) by (apply Z.mod_pos_bound; lia).
  change (u8 (Z.lnot 2)) with 253.
  replace (crc mod 64 * 4 + 2) with (Z.lor ((crc mod 64) ≪ 2) 2) by (rewrite lor_shiftl_add; lia).
  replace (crc mod 64 * 4 + 0) with ((crc mod 64) ≪ 2) by (rewrite Z.shiftl_mul_pow2; lia).
  rewrite Z.land_lor_distr_l. change (Z.land 2 253) with 0. rewrite Z.lor_0_r.
  apply Z.bits_inj'. intros i Hi. rewrite Z.land_spec, Z.shiftl_spec by done.
  destruct (Z.ltb_spec i 2); [by rewrite Z.testbit_neg_r by lia|].
  destruct (Z.ltb_spec i 8).
  - assert (i = 2 ∨ i = 3 ∨ i = 4 ∨ i = 5 ∨ i = 6 ∨ i = 7) as Hc by lia.
    destruct_or! Hc; subst; by rewrite andb_true_r.
  - rewrite (Z.bits_above_log2 (crc mod 64)); [done|lia|].
    destruct (decide (crc mod 64 = 0)) as [->|]; [simpl; lia|].
    apply Z.log2_lt_pow2; [lia|]. apply Z.lt_le_trans with (2 ^ 6); [lia|].
    apply Z.pow_le_mono_r; lia.
Qed.

(** The packed header expands to the fields it was built from. *)
Lemma unpack_packed pg ofs sys itm sub len crc st :
  0 <= sys <= NVOCMP_MAXSYSID → 0 <= itm <= NVOCMP_MAXITEMID → 0 <= sub <= NVOCMP_MAXSUBID →
  0 <= len <= NVOCMP_MAXLEN → in_u8 crc → 0 <= st < 4 →
  unpack_header pg ofs (packed sys itm sub len crc st) =
  mkItemHdr (NVOCMP_CMPRID sys itm sub) sub itm sys crc NVOCMP_SIGNATURE
    (Z.lor st NVOCMP_FOLLOWBIT) ofs len pg.
Proof.
  unfold NVOCMP_MAXSYSID, NVOCMP_MAXITEMID, NVOCMP_MAXSUBID, NVOCMP_MAXLEN, in_u8 in *.
  intros. change (2 ^ 8) with 256 in *. unfold unpack_header, packed. simpl.
  assert (Es : Z.land ((sys * 4 + itm / 256) ≫ 2) 63 = sys)
    by (bitfields; Z.div_mod_to_equations; lia).
  assert (Ei : Z.lor (Z.land (sys * 4 + itm / 256) 3 ≪ 8) (itm mod 256) = itm)
    by (bitfields; Z.div_mod_to_equations; lia).
  assert (Eb : Z.lor ((sub / 4) ≪ 2) (Z.land ((sub mod 4 * 64 + len / 64) ≫ 6) 3) = sub)
    by (bitfields; Z.div_mod_to_equations; lia).
  rewrite Es, Ei, Eb. f_equal.
  - bitfields. Z.div_mod_to_equations. lia.
  - f_equal. unfold NVOCMP_VALIDIDBIT, NVOCMP_ACTIVEIDBIT. change (Z.lor 1 2) with 3.
    bitfields. Z.div_mod_to_equations. lia.
  - bitfields. Z.div_mod_to_equations. lia.
Qed.

Lemma it_crc_byte it : in_u8 (it_crc it).
Proof. apply u8_range. Qed.

Lemma item_header_packed it :
  item_ok it →
  item_header it = packed (it_sys it) (it_item it) (it_sub it) (it_len it) (it_crc it)
                     (if it_live it then NVOCMP_ACTIVEIDBIT else 0).
Proof.
  intros (?&?&?&?&_). unfold item_header, active_header.
  assert (0 <= it_len it) by (unfold it_len; lia). pose proof (it_crc_byte it).
  rewrite pack_header_sum by done. destruct (it_live it); [done|by apply retire_packed].
Qed.

Lemma unpack_item pg ofs it :
  item_ok it → unpack_header pg ofs (item_header it) = expanded pg ofs it.
Proof.
  intros Hok. rewrite item_header_packed by done. destruct Hok as (?&?&?&?&_).
  assert (0 <= it_len it) by (unfold it_len; lia). pose proof (it_crc_byte it).
  rewrite unpack_packed by (done || (destruct (it_live it); done)).
  unfold expanded. by destruct (it_live it).
Qed.

Lemma item_bytes_ok it : item_ok it → is_bytes (item_bytes it).
Proof.
  intros Hok. unfold item_bytes. apply is_bytes_app. split; [apply Hok|].
  rewrite item_header_packed by done. destruct Hok as (?&?&?&?&_).
  assert (0 <= it_len it) by (unfold it_len; lia). pose proof (it_crc_byte it).
  unfold packed, is_bytes, in_u8, NVOCMP_MAXSYSID, NVOCMP_MAXITEMID, NVOCMP_MAXSUBID, NVOCMP_MAXLEN,
    NVOCMP_ACTIVEIDBIT in *.
  change (2 ^ 8) with 256 in *.
  repeat (apply Forall_cons; split; [destruct (it_live it); Z.div_mod_to_equations; lia|]).
  by constructor.
Qed.
End Items.

(** ** CRC *)

Section Crc.
Context `{NvCodesOk} `{NvsLaws} `{!CrcLaws}.
Implicit Types (s : drv).

(** The block-wise CRC of flash is the CRC of the whole area. *)
Lemma doNVCRC_loop_spec fuel s pg ofs len crc :
  (Z.to_nat len <= fuel)%nat → 0 < len → 0 <= ofs → ofs + len < 65536 → in_region pg ofs len →
  NVOCMP_doNVCRC_loop fuel pg ofs len crc s =
  Ret (crc_update crc (region (mem (flash s)) (addr pg ofs) len)) s.
Proof.
  revert ofs len crc. induction fuel as [|fuel IH]; intros ofs len crc Hf Hl Ho Hlim Hr; [lia|].
  cbn [NVOCMP_doNVCRC_loop]. destruct (Z.leb_spec len 0); [lia|].
  assert (Hrd : 0 < (if len <? NVOCMP_XFERBLKMAX then len else NVOCMP_XFERBLKMAX) <= len)
    by (unfold NVOCMP_XFERBLKMAX; destruct (Z.ltb_spec len 32); lia).
  revert Hrd. generalize (if len <? NVOCMP_XFERBLKMAX then len else NVOCMP_XFERBLKMAX).
  intros rd Hrd.
  unfold in_region in Hr. rewrite addr_eq in Hr.
  assert (R1 : in_region pg ofs rd) by (unfold in_region; rewrite addr_eq; lia).
  nvbind (read_spec s pg ofs rd R1). rewrite (u16_id (ofs + rd)) by solve_width.
  destruct (decide (len = rd)) as [<-|].
  - rewrite Z.sub_diag. destruct fuel; reflexivity.
  - rewrite IH by (try lia; unfold in_region; rewrite addr_eq; lia).
    rewrite crc_app, !addr_eq. replace len with (rd + (len - rd)) at 2 by lia.
    rewrite region_split by lia. by rewrite !Z.add_assoc.
Qed.

Lemma doNVCRC_spec s pg ofs len crc :
  0 < len → 0 <= ofs → ofs + len < 65536 → in_region pg ofs len → in_u8 crc →
  NVOCMP_doNVCRC pg ofs len crc s =
  Ret (crc_update crc (region (mem (flash s)) (addr pg ofs) len)) s.
Proof.
  intros Hl Ho Hlim Hr Hc. unfold NVOCMP_doNVCRC.
  rewrite (mthen_ret _ _ _ _ _ (doNVCRC_loop_spec _ _ _ _ _ _ ltac:(done) Hl Ho Hlim Hr)).
  unfold mpure. rewrite u8_id; [done|]. by apply crc_byte.
Qed.

Lemma it_crc_eq it : it_crc it = crc_update 0 (it_data it ++ it_ids it).
Proof. apply u8_id, crc_byte. unfold in_u8. lia. Qed.

(** [NVOCMP_verifyCRC] on an item in flash compares with the CRC the item was
    written with. *)
Lemma verifyCRC_spec s pg ofs it crc :
  item_ok it → 0 <= ofs → ofs + it_len it + 4 < 65536 → in_region pg ofs (it_len it + 4) →
  region (mem (flash s)) (addr pg ofs) (it_len it + 4) = it_data it ++ take 4 (it_ids it) →
  NVOCMP_verifyCRC ofs (it_len it) crc pg s =
  Ret (if it_crc it =? crc then NVINTF_SUCCESS else NVINTF_CORRUPT) s.
Proof.
  intros (_&_&_&Hlen&_) Ho Hlim Hr E. unfold NVOCMP_verifyCRC, NVOCMP_HDRCRCINC.
  assert (0 <= it_len it) by (unfold it_len; lia). unfold NVOCMP_MAXLEN in Hlen.
  replace (it_len it + 5 - 1) with (it_len it + 4) by lia. rewrite u16_id by solve_width.
  assert (in_u8 0) as H0' by (unfold in_u8; lia).
  rewrite (mthen_ret _ _ _ _ _ (doNVCRC_spec s pg ofs (it_len it + 4) 0 ltac:(lia) Ho ltac:(lia) Hr H0')).
  rewrite E. unfold NVOCMP_doRAMCRC. rewrite crc_app, <- app_assoc.
  unfold it_crc, it_ids, pack_ids. done.
Qed.
End Crc.

(** ** Pages as logs *)

Section Pages.
Context `{Nvs}.

Definition log_bytes (items : list item) : list Z := concat (map item_bytes items).
Definition log_size (items : list item) : Z := Z.of_nat (length (log_bytes items)).

(** The page [bytes] hold a 16-byte header, the items in the order they were
    written, and the bytes [rest]. *)
Definition page_log (bytes hdr : list Z) (items : list item) (rest : list Z) : Prop :=
  length hdr = 16%nat ∧ Forall item_ok items ∧ bytes = hdr ++ log_bytes items ++ rest.

Lemma log_bytes_app l1 l2 : log_bytes (l1 ++ l2) = log_bytes l1 ++ log_bytes l2.
Proof. unfold log_bytes. by rewrite map_app, concat_app. Qed.

Lemma log_bytes_one it : log_bytes [it] = item_bytes it.
Proof. apply app_nil_r. Qed.

Lemma log_bytes_cons it l : log_bytes (it :: l) = item_bytes it ++ log_bytes l.
Proof. done. Qed.

Lemma log_size_app l1 l2 : log_size (l1 ++ l2) = log_size l1 + log_size l2.
Proof. unfold log_size. rewrite log_bytes_app, length_app. lia. Qed.

Lemma log_size_cons it l : log_size (it :: l) = item_size it + log_size l.
Proof. unfold log_size. rewrite log_bytes_cons, length_app, Nat2Z.inj_add. by rewrite item_bytes_length. Qed.

Lemma log_size_one it : log_size [it] = item_size it.
Proof. rewrite log_size_cons. unfold log_size. simpl. lia. Qed.

Lemma log_size_nonneg l : 0 <= log_size l.
Proof. unfold log_size. lia. Qed.

Lemma item_size_bound it : 7 <= item_size it.
Proof. unfold item_size, it_len, NVOCMP_ITEMHDRLEN. lia. Qed.

(** A page holds at most 290 items. *)
Lemma log_size_count l : 7 * Z.of_nat (length l) <= log_size l.
Proof.
  induction l as [|it l IH]; [unfold log_size; simpl; lia|].
  rewrite log_size_cons. pose proof (item_size_bound it). simpl. lia.
Qed.
End Pages.
