(* ===== verification/NvFind.v ===== *)
(** * NV driver: the item search

    [NVOCMP_findItem] over sound pages returns the newest live item that matches,
    walking the ring of pages backwards from the active one. *)

From S2P Require Import Prelude.
From S2P Require Import NvTypes.
From S2P Require Import NvOps.
From S2P Require Import NvCompact.
From S2P Require Import NvItems.
From S2P Require Import NvFlash.
From S2P Require Import NvLog.

(** ** What a search looks for *)

(** The last element that satisfies [f], and what precedes it. *)
Fixpoint last_match {A} (f : A → bool) (l : list A) : option (list A * A) :=
  match l with
  | [] => None
  | x :: l' =>
      match last_match f l' with
      | Some (pre, y) => Some (x :: pre, y)
      | None => if f x then Some ([], x) else None
      end
  end.

Lemma last_match_snoc {A} (f : A → bool) l x :
  last_match f (l ++ [x]) = if f x then Some (l, x) else last_match f l.
Proof.
  induction l as [|y l IH]; simpl; [by destruct (f x)|]. rewrite IH. by destruct (f x).
Qed.

Lemma last_match_some {A} (f : A → bool) l pre x :
  last_match f l = Some (pre, x) → ∃ post, l = pre ++ x :: post ∧ f x = true.
Proof.
  revert pre. induction l as [|y l IH]; intros pre E; simpl in E; [done|].
  destruct (last_match f l) as [[pre' y']|].
  - injection E as <- <-. destruct (IH _ eq_refl) as (post&->&?). by exists post.
  - destruct (f y) eqn:?; [|done]. injection E as <- <-. by exists l.
Qed.

Lemma last_match_none {A} (f : A → bool) l x :
  last_match f l = None → x ∈ l → f x = false.
Proof.
  induction l as [|y l IH]; intros E Hx; [by apply not_elem_of_nil in Hx|]. simpl in E.
  destruct (last_match f l) as [[]|]; [done|]. destruct (f y) eqn:Ey; [done|].
  apply elem_of_cons in Hx as [->|]; auto.
Qed.

(** The search over the pages [p], [p - 1], ... of a ring of [size] pages. *)
Fixpoint ring_search (f : item → bool) (logs : Z → list item) (size tail p : Z) (n : nat)
  : option (Z * list item * item) :=
  match n with
  | O => None
  | S n' =>
      let next := ring_search f logs size tail (NVOCMP_DECPAGE size p) n' in
      if p =? tail then next
      else match last_match f (logs p) with
           | Some (pre, it) => Some (p, pre, it)
           | None => next
           end
  end.

Section Find.
Context `{NvCodesOk} `{NvsLaws}.
Implicit Types (s : drv) (pHdr : NVOCMP_itemHdr_t).

Definition page_bytes s (p : Z) : list Z := region (mem (flash s)) (addr p 0) FLASH_PAGE_SIZE.

Definition wanted (flag : Z) pHdr (it : item) : bool :=
  it_live it && default false (item_matches flag pHdr (expanded 0 0 it)).

Definition plain_search (flag : Z) : Prop := 0 <= Z.land flag NVOCMP_FINDLMASK <= 3.

(** Where the header of an item that follows [pre] on its page is. *)
Definition header_ofs (pre : list item) (it : item) : Z :=
  NVOCMP_PGDATAOFS + log_size pre + it_len it.

Lemma page_read s p A B C :
  in_region p 0 FLASH_PAGE_SIZE → page_bytes s p = A ++ B ++ C →
  NVOCMP_read p (Z.of_nat (length A)) (Z.of_nat (length B)) s = Ret B s.
Proof.
  intros Hr E.
  assert (Hl : Z.to_nat FLASH_PAGE_SIZE = (length A + (length B + length C))%nat)
    by (rewrite <- (region_length (mem (flash s)) (addr p 0)); fold (page_bytes s p);
        rewrite E, !length_app; done).
  unfold in_region in Hr. rewrite addr_eq in Hr. change FLASH_PAGE_SIZE with 2048 in *.
  rewrite read_spec by (unfold in_region; rewrite addr_eq; lia).
  rewrite addr_eq, <- (Z.add_0_r (p * 2048)), <- addr_eq.
  by rewrite (region_sub _ _ _ _ _ _ E).
Qed.

Lemma readHeader_spec s p A it B ofs :
  in_region p 0 FLASH_PAGE_SIZE → item_ok it →
  page_bytes s p = A ++ item_header it ++ B → ofs = Z.of_nat (length A) →
  NVOCMP_readHeader p ofs s = Ret (expanded p ofs it) s.
Proof.
  intros Hr Hok E ->. unfold NVOCMP_readHeader.
  assert (HR := page_read s p A (item_header it) B Hr E). rewrite item_header_length in HR.
  change NVOCMP_ITEMHDRLEN with (Z.of_nat 7). nvbind HR. unfold mpure. by rewrite unpack_item.
Qed.

Lemma is_active_expanded p ofs it : is_active (expanded p ofs it) = it_live it.
Proof. unfold is_active, expanded. simpl. by destruct (it_live it). Qed.

Lemma item_matches_plain flag pHdr p ofs it :
  plain_search flag →
  item_matches flag pHdr (expanded p ofs it) =
  Some (default false (item_matches flag pHdr (expanded 0 0 it))).
Proof.
  unfold plain_search, item_matches, NVOCMP_FINDANY, NVOCMP_FINDSTRICT, NVOCMP_FINDSYSID,
    NVOCMP_FINDITMID. intros Hf. repeat zcase; try done. lia.
Qed.

Lemma find_check_spec s flag rb pHdr p ofs it :
  plain_search flag →
  find_check flag None rb pHdr (expanded p ofs it) s =
  Ret (if wanted flag pHdr it then Found else NotThis, rb) s.
Proof.
  intros Hf. unfold find_check, wanted. rewrite is_active_expanded.
  destruct (it_live it); [|done]. rewrite item_matches_plain by done.
  simpl. by destruct (default false _).
Qed.

(** ** One page *)

(** How the search goes on after a page. *)
Definition next_page (k : nat) flag pHdr rb (p nv : Z) : M (Z * NVOCMP_itemHdr_t * list Z) :=
  size <- gets NVOCMP_size ;
  pi <- getPage (NVOCMP_DECPAGE size p) ;
  findItem_loop k flag None pHdr rb ForTest (NVOCMP_DECPAGE size p) (pi_offset pi) nv.

Lemma find_in_page s flag pHdr rb p nv hdr items rest k :
  plain_search flag → in_region p 0 FLASH_PAGE_SIZE →
  length hdr = 16%nat → Forall item_ok items → page_bytes s p = hdr ++ log_bytes items ++ rest →
  findItem_loop (length items + S k) flag None pHdr rb WhileTest p (NVOCMP_PGDATAOFS + log_size items) nv s =
  match last_match (wanted flag pHdr) items with
  | Some (pre, it) => Ret (NVINTF_SUCCESS, expanded p (header_ofs pre it) it, rb) s
  | None => next_page k flag pHdr rb p nv s
  end.
Proof.
  intros Hf Hr Hh. revert rest. induction items as [|it items IH] using rev_ind; intros rest Hok E.
  { reflexivity. }
  apply Forall_app in Hok as [Hok Hit]. apply Forall_cons_1 in Hit as [Hit _].
  rewrite last_match_snoc, length_app, log_size_app, log_size_one.
  replace (length items + length [it] + S k)%nat with (S (length items + S k)) by (simpl; lia).
  cbn [findItem_loop]. nvget.
  pose proof (item_size_bound it). pose proof (log_size_nonneg items).
  destruct (Z.ltb_spec (NVOCMP_PGDATAOFS + (log_size items + item_size it))
              (NVOCMP_PGDATAOFS + NVOCMP_ITEMHDRLEN)) as [Hlt|_];
    [unfold NVOCMP_PGDATAOFS, NVOCMP_ITEMHDRLEN in Hlt; lia|].
  set (ofs := NVOCMP_PGDATAOFS + (log_size items + item_size it) - NVOCMP_ITEMHDRLEN).
  assert (Eo : ofs = header_ofs items it) by (unfold ofs, header_ofs, item_size; lia).
  assert (EB : page_bytes s p = (hdr ++ log_bytes items ++ it_data it) ++ item_header it ++ rest).
  { rewrite E, log_bytes_app, log_bytes_one. unfold item_bytes. by rewrite <- !app_assoc. }
  rewrite (mthen_ret _ _ _ _ _ (readHeader_spec s p _ it _ ofs Hr Hit EB ltac:(rewrite Eo, !length_app, Hh;
    unfold header_ofs, log_size, it_len; change NVOCMP_PGDATAOFS with 16; lia))).
  rewrite (mthen_ret _ _ _ _ _ (find_check_spec s flag rb pHdr p ofs it Hf)).
  destruct (wanted flag pHdr it); [by rewrite Eo|].
  assert (EF : ctrue (Z.land (ih_stats (expanded p ofs it)) NVOCMP_FOLLOWBIT) = true)
    by (simpl; by destruct (it_live it)).
  rewrite EF. change (ih_len (expanded p ofs it)) with (it_len it).
  destruct (Z.ltb_spec (it_len it) ofs) as [_|Hge];
    [|rewrite Eo in Hge; unfold header_ofs in Hge; change NVOCMP_PGDATAOFS with 16 in Hge; lia].
  replace (ofs - it_len it) with (NVOCMP_PGDATAOFS + log_size items)
    by (rewrite Eo; unfold header_ofs; lia).
  apply (IH (item_bytes it ++ rest)); [done|].
  by rewrite E, log_bytes_app, log_bytes_one, <- !app_assoc.
Qed.

(** ** The ring of pages *)

(** The states of a page that is not being compacted. *)
Definition stored_states : list Z := [NVOCMP_PGNACT; NVOCMP_PGRDY; NVOCMP_PGACT; NVOCMP_PGFULL].

(** The offset that compaction may have recorded in the page header. *)
Definition recorded (tl : list Z) : Z := ch_pageOffset (decode_compactHdr tl).

(** The page header in flash agrees with the driver's table entry, and only a
    full page has an offset recorded. *)
Definition header_ok (hdr : list Z) (pi : NVOCMP_pageInfo_t) : Prop :=
  ∃ tl, hdr = encode_pageHdr (mkPageHdr (pi_state pi) (pi_cycle pi) (pi_allActive pi)
                                NVOCMP_VERSION NVOCMP_SIGNATURE) ++ tl ∧
    length tl = 12%nat ∧ is_bytes tl ∧ last tl = Some NVOCMP_SIGNATURE ∧
    in_u8 (pi_cycle pi) ∧ 0 <= pi_allActive pi < 4 ∧ pi_state pi ∈ stored_states ∧
    (recorded tl = NVOCMP_NULLOFFSET ∨ pi_state pi = NVOCMP_PGFULL ∧ recorded tl = pi_offset pi).

Definition page_ok s (p : Z) (log : list item) : Prop :=
  ∃ hdr rest pi, page_log (page_bytes s p) hdr log rest ∧
    pageInfo (nvHandle s) !! Z.to_nat p = Some pi ∧
    pi_offset pi = NVOCMP_PGDATAOFS + log_size log ∧ header_ok hdr pi ∧
    (recorded (drop 4 hdr) = NVOCMP_NULLOFFSET → Forall (eq NVOCMP_ERASEDBYTE) rest).

(** Apart from the active page a page is full, or empty and not yet in use. *)
Definition states_ok s (logs : Z → list item) : Prop :=
  ∀ p pi, 0 <= p < NVOCMP_size s → p ≠ tailPage (nvHandle s) →
    pageInfo (nvHandle s) !! Z.to_nat p = Some pi →
    if decide (p = actPage (nvHandle s)) then pi_state pi ≠ NVOCMP_PGNACT
    else pi_state pi = NVOCMP_PGNACT ∧ logs p = [] ∨ pi_state pi = NVOCMP_PGFULL.

(** The header of the page that waits for the next compaction. *)
Definition target_ok (bytes : list Z) : Prop :=
  ∃ cycle allActive rest,
    bytes = encode_pageHdr (mkPageHdr NVOCMP_PGXDST cycle allActive NVOCMP_VERSION NVOCMP_SIGNATURE) ++ rest ∧
    in_u8 cycle ∧ 0 <= allActive < 4.

(** The pages other than the compaction target hold the logs [logs], and the
    handle points to the end of the active page. *)
Record ring s (logs : Z → list item) : Prop := mkRing {
  ring_size : 2 <= NVOCMP_size s <= NVOCMP_NVPAGES;
  ring_region : NVOCMP_size s * FLASH_PAGE_SIZE <= NVS_regionSize;
  ring_table : length (pageInfo (nvHandle s)) = Z.to_nat NVOCMP_NVPAGES;
  ring_act : 0 <= actPage (nvHandle s) < NVOCMP_size s;
  ring_tail : 0 <= tailPage (nvHandle s) < NVOCMP_size s;
  ring_distinct : actPage (nvHandle s) ≠ tailPage (nvHandle s);
  ring_page p : 0 <= p < NVOCMP_size s → p ≠ tailPage (nvHandle s) → page_ok s p (logs p);
  ring_offset : actOffset (nvHandle s) = NVOCMP_PGDATAOFS + log_size (logs (actPage (nvHandle s)));
  ring_states : states_ok s logs;
  ring_target : target_ok (page_bytes s (tailPage (nvHandle s)))
}.

Lemma in_region_page s logs p ofs len :
  ring s logs → 0 <= p < NVOCMP_size s → 0 <= ofs → 0 <= len → ofs + len <= FLASH_PAGE_SIZE →
  in_region p ofs len.
Proof.
  intros R Hp Ho Hl Hs. pose proof (ring_region _ _ R). unfold in_region. rewrite addr_eq.
  change FLASH_PAGE_SIZE with 2048 in *. nia.
Qed.

Lemma getPage_ok s logs p :
  ring s logs → 0 <= p < NVOCMP_size s →
  ∃ pi, pageInfo (nvHandle s) !! Z.to_nat p = Some pi ∧ getPage p s = Ret pi s.
Proof.
  intros R Hp. pose proof (ring_size _ _ R). pose proof (ring_table _ _ R).
  destruct (lookup_lt_is_Some_2 (pageInfo (nvHandle s)) (Z.to_nat p)) as [pi E].
  { rewrite H4. lia. }
  exists pi. split; [done|]. unfold getPage. destruct (Z.ltb_spec p 0); [lia|]. by rewrite E.
Qed.

Lemma page_log_size s p hdr log rest :
  page_log (page_bytes s p) hdr log rest → 16 + log_size log + Z.of_nat (length rest) = 2048.
Proof.
  intros (Hh&_&Hb). apply (f_equal length) in Hb. unfold page_bytes in Hb.
  rewrite region_length, !length_app, Hh in Hb. unfold log_size.
  change (Z.to_nat FLASH_PAGE_SIZE) with 2048%nat in Hb. lia.
Qed.

Lemma page_log_count s p hdr log rest :
  page_log (page_bytes s p) hdr log rest → (length log <= 290)%nat.
Proof. intros Hl%page_log_size. pose proof (log_size_count log). lia. Qed.

Lemma decpage_range s logs p : ring s logs → 0 <= NVOCMP_DECPAGE (NVOCMP_size s) p < NVOCMP_size s.
Proof. intros R. pose proof (ring_size _ _ R). apply Z.mod_pos_bound. lia. Qed.

Definition page_fuel : nat := 293.

Lemma find_ring s logs flag pHdr rb n :
  ring s logs → plain_search flag → ∀ p ofs fuel,
  0 <= p < NVOCMP_size s → (n <= Z.to_nat (NVOCMP_size s))%nat →
  (p ≠ tailPage (nvHandle s) → ofs = NVOCMP_PGDATAOFS + log_size (logs p)) →
  (n * page_fuel < fuel)%nat →
  findItem_loop fuel flag None pHdr rb ForTest p ofs (NVOCMP_size s - Z.of_nat n) s =
  match ring_search (wanted flag pHdr) logs (NVOCMP_size s) (tailPage (nvHandle s)) p n with
  | Some (q, pre, it) => Ret (NVINTF_SUCCESS, expanded q (header_ofs pre it) it, rb) s
  | None => Ret (NVINTF_NOTFOUND, set_found (ih_hpage pHdr) 0 pHdr, rb) s
  end.
Proof.
  intros R Hf. induction n as [|n IH]; intros p ofs fuel Hp Hn Ho Hfuel.
  { destruct fuel as [|fuel]; [lia|]. cbn [findItem_loop ring_search]. nvget.
    destruct (Z.ltb_spec (NVOCMP_size s - Z.of_nat 0) (NVOCMP_size s)); [lia|]. done. }
  destruct fuel as [|fuel]; [lia|]. cbn [findItem_loop ring_search]. nvget.
  destruct (Z.ltb_spec (NVOCMP_size s - Z.of_nat (S n)) (NVOCMP_size s)) as [_|]; [|lia]. nvget.
  replace (NVOCMP_size s - Z.of_nat (S n) + 1) with (NVOCMP_size s - Z.of_nat n) by lia.
  pose proof (decpage_range s logs p R) as Hp'.
  destruct (getPage_ok s logs _ R Hp') as (pi&Epi&Eget).
  assert (Ho' : NVOCMP_DECPAGE (NVOCMP_size s) p ≠ tailPage (nvHandle s) →
                pi_offset pi = NVOCMP_PGDATAOFS + log_size (logs (NVOCMP_DECPAGE (NVOCMP_size s) p))).
  { intros Hne. destruct (ring_page _ _ R _ Hp' Hne) as (hdr&rest&pi'&_&E&Eo&_). congruence. }
  unfold page_fuel in *.
  destruct (Z.eqb_spec p (tailPage (nvHandle s))) as [|Hne].
  { nvbind Eget. apply IH; (done || lia). }
  destruct (ring_page _ _ R p Hp Hne) as (hdr&rest&pi'&Hlog&_). rewrite (Ho Hne).
  pose proof (page_log_count _ _ _ _ _ Hlog). destruct Hlog as (Hh&Hok&Hb).
  replace fuel with (length (logs p) + S (fuel - S (length (logs p))))%nat by lia.
  rewrite (find_in_page s flag pHdr rb p _ hdr (logs p) _ _ Hf
             (in_region_page s logs p 0 FLASH_PAGE_SIZE R Hp ltac:(lia) ltac:(done) ltac:(done)) Hh Hok Hb).
  destruct (last_match _ _) as [[pre it]|]; [done|].
  unfold next_page. nvget. nvbind Eget. apply IH; (done || lia).
Qed.

(** [NVOCMP_findItem] from the end of the active page. *)
Lemma findItem_spec s logs flag pHdr :
  ring s logs → plain_search flag →
  NVOCMP_findItem (actPage (nvHandle s)) (actOffset (nvHandle s)) pHdr flag None s =
  match ring_search (wanted flag pHdr) logs (NVOCMP_size s) (tailPage (nvHandle s))
          (actPage (nvHandle s)) (Z.to_nat (NVOCMP_size s)) with
  | Some (q, pre, it) => Ret (NVINTF_SUCCESS, expanded q (header_ofs pre it) it, []) s
  | None => Ret (NVINTF_NOTFOUND, set_found (ih_hpage pHdr) 0 pHdr, []) s
  end.
Proof.
  intros R Hf. pose proof (ring_size _ _ R) as Hs. unfold NVOCMP_findItem.
  replace 0 with (NVOCMP_size s - Z.of_nat (Z.to_nat (NVOCMP_size s))) at 1 by lia.
  apply find_ring; try done; try apply R.
  { intros _. apply R. }
  unfold findItem_fuel, page_fuel, NVOCMP_NVPAGES in *. lia.
Qed.
End Find.

(** ** The search result among all items *)

Section Search.
Context (f : item → bool) (logs : Z → list item) (size tail : Z).

Lemma ring_search_some p n q pre it :
  0 < size → 0 <= p < size →
  ring_search f logs size tail p n = Some (q, pre, it) →
  0 <= q < size ∧ q ≠ tail ∧ f it = true ∧ ∃ post, logs q = pre ++ it :: post.
Proof.
  intros Hs. revert p. induction n as [|n IH]; intros p Hp E; simpl in E; [done|].
  assert (Hp' : 0 <= NVOCMP_DECPAGE size p < size) by (apply Z.mod_pos_bound; lia).
  destruct (Z.eqb_spec p tail); [by apply (IH _ Hp')|].
  destruct (last_match f (logs p)) as [[pre' it']|] eqn:El; [|by apply (IH _ Hp')].
  simplify_eq. apply last_match_some in El as (post&El&Hf). eauto 10.
Qed.

Lemma ring_search_none p n k it :
  0 < size → 0 <= p < size → ring_search f logs size tail p n = None →
  (k < n)%nat → (p - Z.of_nat k) mod size ≠ tail →
  it ∈ logs ((p - Z.of_nat k) mod size) → f it = false.
Proof.
  intros Hs. revert p k. induction n as [|n IH]; intros p k Hp E Hk Ht Hit; simpl in E; [lia|].
  destruct k as [|k].
  - rewrite Z.sub_0_r, Z.mod_small in Ht, Hit by lia.
    destruct (Z.eqb_spec p tail); [done|].
    destruct (last_match f (logs p)) as [[]|] eqn:El; [done|]. by eapply last_match_none.
  - assert (Hp' : 0 <= NVOCMP_DECPAGE size p < size) by (apply Z.mod_pos_bound; lia).
    assert (Em : (p - Z.of_nat (S k)) mod size = (NVOCMP_DECPAGE size p - Z.of_nat k) mod size).
    { unfold NVOCMP_DECPAGE, NVOCMP_ADDPAGE. rewrite Zminus_mod_idemp_l.
      rewrite <- (Z_mod_plus_full (p - Z.of_nat (S k)) 1). f_equal. lia. }
    rewrite Em in Ht, Hit. apply (IH (NVOCMP_DECPAGE size p) k); [done| |lia|done|done].
    destruct (Z.eqb_spec p tail); [done|]. by destruct (last_match f (logs p)) as [[]|].
Qed.

Lemma ring_search_none_all p q it :
  0 < size → 0 <= p < size → 0 <= q < size → q ≠ tail →
  ring_search f logs size tail p (Z.to_nat size) = None → it ∈ logs q → f it = false.
Proof.
  intros Hs Hp Hq Ht E Hit.
  assert (0 <= (p - q) mod size < size) by (apply Z.mod_pos_bound; lia).
  assert (Eq : (p - Z.of_nat (Z.to_nat ((p - q) mod size))) mod size = q).
  { rewrite Z2Nat.id by lia. rewrite Zminus_mod_idemp_r.
    replace (p - (p - q)) with q by lia. by apply Z.mod_small. }
  eapply (ring_search_none p _ (Z.to_nat ((p - q) mod size))); rewrite ?Eq; try done. lia.
Qed.
End Search.

(** The search only looks at the pages it visits. *)
Lemma ring_search_ext f logs logs' size tail p n :
  0 < size → 0 <= p < size →
  (∀ k, (k < n)%nat → logs' ((p - Z.of_nat k) mod size) = logs ((p - Z.of_nat k) mod size)) →
  ring_search f logs' size tail p n = ring_search f logs size tail p n.
Proof.
  intros Hs. revert p. induction n as [|n IH]; intros p Hp E; [done|]. cbn [ring_search].
  assert (Hp' : 0 <= NVOCMP_DECPAGE size p < size) by (apply Z.mod_pos_bound; lia).
  rewrite (IH _ Hp').
  - assert (E0 : logs' p = logs p); [|by rewrite E0].
    specialize (E 0%nat ltac:(lia)). by rewrite Z.sub_0_r, Z.mod_small in E.
  - intros k Hk. specialize (E (S k) ltac:(lia)).
    replace ((p - Z.of_nat (S k)) mod size) with ((NVOCMP_DECPAGE size p - Z.of_nat k) mod size) in E; [done|].
    unfold NVOCMP_DECPAGE, NVOCMP_ADDPAGE. rewrite Zminus_mod_idemp_l.
    rewrite <- (Z_mod_plus_full (p - Z.of_nat (S k)) 1). f_equal. lia.
Qed.

(** The pages visited after the first are other pages. *)
Lemma page_before_ne size p k n :
  Z.to_nat size = S n → 0 <= p < size → (k < n)%nat → p ≠ (p + (size - 1) - Z.of_nat k) mod size.
Proof.
  intros Hs Hp Hk E. assert (Hd : (p - (p + (size - 1) - Z.of_nat k)) mod size = 0).
  { rewrite Zminus_mod, <- E, (Z.mod_small p) by lia. by rewrite Z.sub_diag, Z.mod_0_l by lia. }
  apply Z.mod_divide in Hd as [c Hc]; [|lia].
  assert (-1 < c < 0) by nia. lia.
Qed.

Section FindBefore.
Context `{NvCodesOk} `{NvsLaws}.

(** [NVOCMP_findItem] from the middle of the active page: it sees the items
    [pre] of that page. *)
Lemma findItem_before s logs flag pHdr pre post :
  ring s logs → plain_search flag → logs (actPage (nvHandle s)) = pre ++ post →
  NVOCMP_findItem (actPage (nvHandle s)) (NVOCMP_PGDATAOFS + log_size pre) pHdr flag None s =
  match ring_search (wanted flag pHdr) (<[actPage (nvHandle s) := pre]> logs) (NVOCMP_size s)
          (tailPage (nvHandle s)) (actPage (nvHandle s)) (Z.to_nat (NVOCMP_size s)) with
  | Some (q, pre, it) => Ret (NVINTF_SUCCESS, expanded q (header_ofs pre it) it, []) s
  | None => Ret (NVINTF_NOTFOUND, set_found (ih_hpage pHdr) 0 pHdr, []) s
  end.
Proof.
  intros R Hf El. pose proof (ring_size _ _ R) as Hs. set (act := actPage (nvHandle s)) in *.
  pose proof (ring_act _ _ R) as Ha. fold act in Ha. pose proof (ring_distinct _ _ R) as Hd. fold act in Hd.
  destruct (ring_page _ _ R act Ha Hd) as (hdr&rest&pi'&Hlog&_).
  pose proof (page_log_count _ _ _ _ _ Hlog) as Hcnt. rewrite El, length_app in Hcnt.
  destruct Hlog as (Hh&Hok&Hb). rewrite El in Hok, Hb. apply Forall_app in Hok as [Hok _].
  rewrite log_bytes_app, <- app_assoc in Hb.
  pose proof (decpage_range s logs act R) as Hp'. destruct (getPage_ok s logs _ R Hp') as (pi&Epi&Eget).
  destruct (Z.to_nat (NVOCMP_size s)) as [|n] eqn:En; [lia|]. cbn [ring_search].
  destruct (Z.eqb_spec act (tailPage (nvHandle s))) as [|_]; [done|]. rewrite fn_lookup_insert.
  unfold NVOCMP_findItem. set (fuel := findItem_fuel).
  assert (Hfuel : (page_fuel * 120 < fuel)%nat)
    by (unfold fuel, findItem_fuel, page_fuel, NVOCMP_NVPAGES; lia).
  destruct fuel as [|fuel]; [lia|]. cbn [findItem_loop]. nvget.
  destruct (Z.ltb_spec 0 (NVOCMP_size s)) as [_|]; [|lia]. nvget.
  destruct (Z.eqb_spec act (tailPage (nvHandle s))) as [|_]; [done|].
  unfold page_fuel in Hfuel.
  replace fuel with (length pre + S (fuel - S (length pre)))%nat by lia.
  rewrite (find_in_page s flag pHdr [] act _ hdr pre _ _ Hf
             (in_region_page s logs act 0 FLASH_PAGE_SIZE R Ha ltac:(lia) ltac:(done) ltac:(done)) Hh Hok Hb).
  destruct (last_match _ _) as [[pre' it]|]; [done|].
  rewrite (ring_search_ext _ logs); [|lia|done|].
  2:{ intros k Hk. apply fn_lookup_insert_ne. unfold NVOCMP_DECPAGE, NVOCMP_ADDPAGE.
      rewrite Zminus_mod_idemp_l. by apply (page_before_ne _ _ _ n). }
  unfold next_page. nvget. nvbind Eget. replace (0 + 1) with (NVOCMP_size s - Z.of_nat n) by lia.
  apply find_ring; try done; [lia| |unfold page_fuel, NVOCMP_NVPAGES in *; lia].
  intros Hne. destruct (ring_page _ _ R _ Hp' Hne) as (?&?&pi2&_&E&Eo&_). congruence.
Qed.
End FindBefore.
