(* ===== verification/NvPages.v ===== *)
(** * NV driver: changes to the pages of the ring

    How flash writes, page-state changes and the retirement of an item act on the
    logs of the ring. *)

From S2P Require Import Prelude.
From S2P Require Import NvTypes.
From S2P Require Import NvOps.
From S2P Require Import NvCompact.
From S2P Require Import NvItems.
From S2P Require Import NvFlash.
From S2P Require Import NvLog.
From S2P Require Import NvFind.

Section Pages.
Context `{NvCodesOk} `{NvsLaws}.
Implicit Types (s : drv).

(** ** Memory of other pages *)

Lemma page_bytes_ext s s' p :
  (∀ a, mem (flash s') a = mem (flash s) a) → page_bytes s' p = page_bytes s p.
Proof. intros E. apply region_ext. intros a _. apply E. Qed.

Lemma page_bytes_upd s s' q o buf p :
  (∀ a, mem (flash s') a = upd (mem (flash s)) (addr q o) buf a) →
  0 <= o → o + Z.of_nat (length buf) <= FLASH_PAGE_SIZE → p ≠ q →
  page_bytes s' p = page_bytes s p.
Proof.
  intros E Ho Hl Hne. unfold page_bytes.
  rewrite (region_ext _ (upd (mem (flash s)) (addr q o) buf)) by (intros; apply E).
  apply region_upd_out. rewrite !addr_eq. change FLASH_PAGE_SIZE with 2048 in *.
  assert (p < q ∨ q < p) as [] by lia; lia.
Qed.

Lemma page_bytes_upd_same s s' q pre mid post buf :
  (∀ a, mem (flash s') a = upd (mem (flash s)) (addr q (Z.of_nat (length pre))) buf a) →
  page_bytes s q = pre ++ mid ++ post → length buf = length mid →
  page_bytes s' q = pre ++ buf ++ post.
Proof.
  intros E Eb Hl. unfold page_bytes.
  rewrite (region_ext _ (upd (mem (flash s)) (addr q (Z.of_nat (length pre))) buf)) by (intros; apply E).
  eapply region_upd_mid; [exact Eb| |done]. rewrite !addr_eq. lia.
Qed.

Lemma page_bytes_length s p : length (page_bytes s p) = 2048%nat.
Proof. unfold page_bytes. by rewrite region_length. Qed.

Lemma page_bytes_are_bytes s p : is_bytes (page_bytes s p).
Proof.
  apply Forall_forall. intros b Hb. unfold page_bytes, region in Hb.
  apply list_elem_of_fmap in Hb as (a&->&_). apply mem_byte.
Qed.

(** ** The page table *)

Definition with_page (q : Z) (pi : NVOCMP_pageInfo_t) s : drv :=
  set_handle (hset_pageInfo (<[Z.to_nat q := pi]> (pageInfo (nvHandle s))) (nvHandle s)) s.

Lemma modPage_spec s q f pi :
  0 <= q → pageInfo (nvHandle s) !! Z.to_nat q = Some pi →
  modPage q f s = Ret tt (with_page q (f pi) s).
Proof.
  intros Hq E. unfold modPage, mthen, getPage. destruct (Z.ltb_spec q 0); [lia|]. by rewrite E.
Qed.

Lemma getPage_spec s q pi :
  0 <= q → pageInfo (nvHandle s) !! Z.to_nat q = Some pi → getPage q s = Ret pi s.
Proof. intros Hq E. unfold getPage. destruct (Z.ltb_spec q 0); [lia|]. by rewrite E. Qed.

(** What a change confined to page [q] keeps. *)
Record only_page (q : Z) s s' : Prop := {
  op_size : NVOCMP_size s' = NVOCMP_size s;
  op_failF : NVOCMP_failF s' = NVOCMP_failF s;
  op_tail : tailPage (nvHandle s') = tailPage (nvHandle s);
  op_table : length (pageInfo (nvHandle s')) = length (pageInfo (nvHandle s));
  op_bytes p : p ≠ q → page_bytes s' p = page_bytes s p;
  op_info p : 0 <= p → p ≠ q → pageInfo (nvHandle s') !! Z.to_nat p = pageInfo (nvHandle s) !! Z.to_nat p
}.

Lemma only_page_refl q s : only_page q s s.
Proof. by split. Qed.

Lemma only_page_trans q s1 s2 s3 : only_page q s1 s2 → only_page q s2 s3 → only_page q s1 s3.
Proof.
  intros [a1 b1 c1 d1 e1 f1] [a2 b2 c2 d2 e2 f2]. split; try congruence.
  - intros. by rewrite e2, e1.
  - intros. by rewrite f2, f1.
Qed.

Lemma only_page_with_page q pi s : 0 <= q → only_page q s (with_page q pi s).
Proof.
  intros Hq. split; try done; simpl.
  - by rewrite length_insert.
  - intros p Hp Hne. rewrite list_lookup_insert_ne; [done|]. lia.
Qed.

Lemma with_page_info q pi pi0 s :
  pageInfo (nvHandle s) !! Z.to_nat q = Some pi0 →
  pageInfo (nvHandle (with_page q pi s)) !! Z.to_nat q = Some pi.
Proof. intros E%lookup_lt_Some. simpl. by apply list_lookup_insert_eq. Qed.

(** The state of the active page, as the table has it. *)
Definition act_state s : option Z :=
  pi_state <$> pageInfo (nvHandle s) !! Z.to_nat (actPage (nvHandle s)).

Lemma with_page_act_state q pi pi0 s :
  pageInfo (nvHandle s) !! Z.to_nat q = Some pi0 → pi_state pi = pi_state pi0 →
  act_state (with_page q pi s) = act_state s.
Proof.
  intros Hi Hs. unfold act_state. simpl.
  destruct (decide (Z.to_nat q = Z.to_nat (actPage (nvHandle s)))) as [E|Hne].
  - rewrite <- E, Hi, list_lookup_insert_eq by (by eapply lookup_lt_Some). simpl. by rewrite Hs.
  - by rewrite list_lookup_insert_ne.
Qed.

(** A ring stays a ring when one page changes to hold another log. *)
Lemma ring_change s s' logs q log :
  ring s logs → 0 <= q < NVOCMP_size s → q ≠ tailPage (nvHandle s) → only_page q s s' →
  page_ok s' q log → states_ok s' (<[q := log]> logs) →
  0 <= actPage (nvHandle s') < NVOCMP_size s →
  actPage (nvHandle s') ≠ tailPage (nvHandle s) →
  actOffset (nvHandle s') =
    NVOCMP_PGDATAOFS + log_size ((<[q := log]> logs) (actPage (nvHandle s'))) →
  ring s' (<[q := log]> logs).
Proof.
  intros R Hq Hqt [Es Ef Et El Eb Ei] Hok Hst Ha Hd Ho.
  split; rewrite ?Es, ?Et; try apply R; try done; [| |rewrite Eb by done; apply R].
  - rewrite El. apply R.
  - intros p Hp Hne. destruct (decide (p = q)) as [->|Hpq].
    + by rewrite fn_lookup_insert.
    + rewrite fn_lookup_insert_ne by done.
      destruct (ring_page _ _ R p Hp Hne) as (hdr&rest&pi&Hl&Hi&Hr).
      exists hdr, rest, pi. rewrite Eb, Ei by (done || lia). done.
Qed.

Lemma fn_insert_self (logs : Z → list item) q p : (<[q := logs q]> logs) p = logs p.
Proof.
  destruct (decide (q = p)) as [->|]; [by rewrite fn_lookup_insert|by rewrite fn_lookup_insert_ne].
Qed.

(** The state condition survives when page [q] keeps its state. *)
Lemma states_ok_keep s s' logs q log :
  ring s logs → only_page q s s' → actPage (nvHandle s') = actPage (nvHandle s) →
  (∀ pi', pageInfo (nvHandle s') !! Z.to_nat q = Some pi' →
     ∃ pi, pageInfo (nvHandle s) !! Z.to_nat q = Some pi ∧ pi_state pi' = pi_state pi) →
  (logs q = [] → log = [] ∨ q = actPage (nvHandle s)) →
  states_ok s' (<[q := log]> logs).
Proof.
  intros R O Ha Hpi Hl p pi Hp Hne Hi.
  rewrite (op_size _ _ _ O) in Hp. rewrite (op_tail _ _ _ O) in Hne. rewrite Ha.
  destruct (decide (p = q)) as [->|Hpq].
  - destruct (Hpi _ Hi) as (pi0&Hi0&->). pose proof (ring_states _ _ R q pi0 Hp Hne Hi0) as Hs.
    rewrite fn_lookup_insert. destruct (decide (q = _)); [done|]. naive_solver.
  - rewrite (op_info _ _ _ O) in Hi by lia. rewrite fn_lookup_insert_ne by done.
    by apply (ring_states _ _ R).
Qed.

Lemma ring_same_logs s logs q : ring s (<[q := logs q]> logs) → ring s logs.
Proof.
  intros [? ? ? ? ? ? Hp Ho Hst ?]. split; try done.
  3:{ intros p pi H1' H2' H3'. specialize (Hst p pi H1' H2' H3').
      by rewrite fn_insert_self in Hst. }
  - intros p Hr Hne. specialize (Hp p Hr Hne). destruct (decide (p = q)) as [->|].
    + by rewrite fn_lookup_insert in Hp.
    + by rewrite fn_lookup_insert_ne in Hp.
  - destruct (decide (actPage (nvHandle s) = q)) as [E|].
    + rewrite E in *. by rewrite fn_lookup_insert in Ho.
    + by rewrite fn_lookup_insert_ne in Ho.
Qed.

(** ** Access to one page *)

Lemma ring_in_region s logs q :
  ring s logs → 0 <= q < NVOCMP_size s → in_region q 0 FLASH_PAGE_SIZE.
Proof. intros. by eapply in_region_page. Qed.

Lemma page_readByte s logs q A b C :
  ring s logs → 0 <= q < NVOCMP_size s → page_bytes s q = A ++ b :: C →
  NVOCMP_readByte q (Z.of_nat (length A)) s = Ret b s.
Proof.
  intros R Hq E. unfold NVOCMP_readByte.
  assert (HR := page_read s q A [b] C (ring_in_region s logs q R Hq) E).
  by nvbind HR.
Qed.

Lemma decode_encode_pageHdr st cycle allActive :
  in_u8 st → in_u8 cycle → 0 <= allActive < 4 →
  let h := mkPageHdr st cycle allActive NVOCMP_VERSION NVOCMP_SIGNATURE in
  decode_pageHdr (encode_pageHdr h) = h.
Proof.
  intros Hs Hc Ha. unfold decode_pageHdr, encode_pageHdr. simpl. rewrite !u8_id by done.
  assert (allActive = 0 ∨ allActive = 1 ∨ allActive = 2 ∨ allActive = 3) as Hcs by lia.
  by destruct_or! Hcs; subst.
Qed.

Lemma readPageHdr_spec s q st cycle allActive rest :
  let h := mkPageHdr st cycle allActive NVOCMP_VERSION NVOCMP_SIGNATURE in
  in_region q 0 FLASH_PAGE_SIZE → page_bytes s q = encode_pageHdr h ++ rest →
  in_u8 st → in_u8 cycle → 0 <= allActive < 4 →
  readPageHdr q s = Ret h s.
Proof.
  intros h Hr Hb Hs Hc Ha. unfold readPageHdr.
  assert (HR := page_read s q [] (encode_pageHdr h) rest Hr Hb).
  change (NVOCMP_PGHDROFS) with (Z.of_nat (length (@nil Z))).
  change (NVOCMP_PGHDRLEN) with 4. simpl length in HR. change (Z.of_nat 4) with 4 in HR.
  nvbind HR. unfold mpure, h. by rewrite decode_encode_pageHdr.
Qed.

Lemma stored_state_byte st : st ∈ stored_states → in_u8 st.
Proof.
  unfold stored_states. intros Hs. repeat (apply elem_of_cons in Hs as [->|Hs]; [by vm_compute|]).
  by apply not_elem_of_nil in Hs.
Qed.

Lemma page_readHdr s logs q log :
  ring s logs → 0 <= q < NVOCMP_size s → page_ok s q log →
  ∃ pi, pageInfo (nvHandle s) !! Z.to_nat q = Some pi ∧
    readPageHdr q s = Ret (mkPageHdr (pi_state pi) (pi_cycle pi) (pi_allActive pi)
                             NVOCMP_VERSION NVOCMP_SIGNATURE) s.
Proof.
  intros R Hq (hdr&rest&pi&(_&_&Hb)&Hi&_&(tl&->&_&_&_&Hc&Ha&Hs&_)&_).
  exists pi. split; [done|]. rewrite <- !app_assoc in Hb.
  eapply readPageHdr_spec; try done; [by eapply ring_in_region|by apply stored_state_byte].
Qed.

Context `{!NvsReliable}.

Lemma page_write s q pre mid post buf :
  in_region q 0 FLASH_PAGE_SIZE → page_bytes s q = pre ++ mid ++ post →
  programmable mid buf →
  ∃ d, NVOCMP_write q (Z.of_nat (length pre)) buf s = Ret NVINTF_SUCCESS (set_flash d s) ∧
    page_bytes (set_flash d s) q = pre ++ buf ++ post ∧ only_page q s (set_flash d s).
Proof.
  intros Hr0 E Hp. pose proof (Forall2_length _ _ _ Hp) as Hl.
  assert (HL := page_bytes_length s q). rewrite E, !length_app in HL.
  assert (Hr : in_region q (Z.of_nat (length pre)) (Z.of_nat (length buf)))
    by (unfold in_region in *; rewrite addr_eq in *; change FLASH_PAGE_SIZE with 2048 in *; lia).
  destruct (write_spec s q (Z.of_nat (length pre)) buf Hr) as (d&Ew&Em).
  { rewrite <- Hl. rewrite addr_eq, <- (Z.add_0_r (q * 2048)), <- addr_eq.
    by rewrite (region_sub _ _ _ _ _ _ E). }
  exists d. split; [done|]. split.
  - by eapply page_bytes_upd_same.
  - split; try done. intros p Hne. eapply page_bytes_upd; try done; [lia|].
    change FLASH_PAGE_SIZE with 2048. lia.
Qed.

Lemma page_writeByte s q pre old post b :
  in_region q 0 FLASH_PAGE_SIZE → page_bytes s q = pre ++ old :: post →
  in_u8 b → Z.land b old = b →
  ∃ d, let s' := set_failW NVINTF_SUCCESS (set_flash d s) in
    NVOCMP_writeByte q (Z.of_nat (length pre)) b s = Ret tt s' ∧
    page_bytes s' q = pre ++ b :: post ∧ only_page q s s'.
Proof.
  intros Hr E Hb Hl.
  destruct (page_write s q pre [old] post [b] Hr E) as (d&Ew&Eb&Ho);
    [by apply Forall2_cons|].
  exists d. split_and!; [|done|by destruct Ho].
  unfold NVOCMP_writeByte. by nvbind Ew.
Qed.

(** ** Retiring an item *)

Lemma retire_byte_programs b : in_u8 b → in_u8 (retire_byte b) ∧ Z.land (retire_byte b) b = retire_byte b.
Proof.
  intros Hb. unfold retire_byte. change (u8 (Z.lnot NVOCMP_ACTIVEIDBIT)) with 253. split.
  - split; [apply Z.land_nonneg; unfold in_u8 in Hb; lia|].
    destruct (decide (Z.land b 253 = 0)) as [->|]; [lia|].
    assert (0 <= Z.land b 253) by (apply Z.land_nonneg; lia).
    apply Z.log2_lt_pow2; [lia|]. apply Z.le_lt_trans with (Z.min (Z.log2 b) (Z.log2 253)).
    + apply Z.log2_land; unfold in_u8 in Hb; lia.
    + apply Z.min_lt_iff. right. by vm_compute.
  - rewrite <- Z.land_assoc, (Z.land_comm 253), Z.land_assoc. by rewrite Z.land_diag.
Qed.

(** The header of a live item around its status byte. *)
Lemma header_split it :
  item_ok it → it_live it = true →
  ∃ h b, in_u8 b ∧ length h = 5%nat ∧
    item_header it = h ++ b :: [NVOCMP_SIGNATURE] ∧
    item_header (retired it) = h ++ retire_byte b :: [NVOCMP_SIGNATURE].
Proof.
  intros Hok Hl. pose proof (item_bytes_ok it Hok) as Hb.
  unfold item_bytes in Hb. apply is_bytes_app in Hb as [_ Hb].
  assert (E : item_header (retired it) = retire_header (item_header it)).
  { unfold item_header. by rewrite Hl. }
  rewrite E. clear E. rewrite (item_header_packed it Hok), Hl in Hb |- *.
  exists (take 5 (packed (it_sys it) (it_item it) (it_sub it) (it_len it) (it_crc it) NVOCMP_ACTIVEIDBIT)),
    (it_crc it mod 64 * 4 + NVOCMP_ACTIVEIDBIT).
  split_and!; try done. by apply (Forall_lookup_1 _ _ 5 _ Hb).
Qed.

Lemma retired_ok it : item_ok it → item_ok (retired it).
Proof. done. Qed.

Lemma retired_size it : item_size (retired it) = item_size it.
Proof. done. Qed.

(** [tmp &= ~NVOCMP_ALLACTIVE] on the third header byte. *)
Lemma clear_allActive a :
  0 <= a < 4 →
  let v := Z.lor (Z.land a 3) (Z.shiftl (Z.land NVOCMP_VERSION 0x3F) 2) in
  let w := Z.land v (u8 (Z.lnot NVOCMP_ALLACTIVE)) in
  w = Z.lor (Z.land 0 3) (Z.shiftl (Z.land NVOCMP_VERSION 0x3F) 2) ∧ in_u8 w ∧ Z.land w v = w.
Proof.
  intros Ha. assert (a = 0 ∨ a = 1 ∨ a = 2 ∨ a = 3) as Hc by lia.
  destruct_or! Hc; subst; split_and!; by vm_compute.
Qed.

Lemma header_ofs_length hdr pre it h :
  length hdr = 16%nat → length h = 5%nat →
  Z.of_nat (length (hdr ++ log_bytes pre ++ it_data it ++ h)) = header_ofs pre it + NVOCMP_HDRVLDOFS.
Proof.
  intros Hh H5. rewrite !length_app, Hh, H5. unfold header_ofs, log_size, it_len.
  change NVOCMP_PGDATAOFS with 16. change NVOCMP_HDRVLDOFS with 5. lia.
Qed.

(** The table entry after the page is known to hold inactive items. *)
Definition some_inactive (pi : NVOCMP_pageInfo_t) : NVOCMP_pageInfo_t :=
  pset_allActive NVOCMP_SOMEINACTIVE pi.

Lemma header_some_inactive pi tl :
  header_ok (encode_pageHdr (mkPageHdr (pi_state pi) (pi_cycle pi) (pi_allActive pi)
               NVOCMP_VERSION NVOCMP_SIGNATURE) ++ tl) pi →
  header_ok (encode_pageHdr (mkPageHdr (pi_state pi) (pi_cycle pi) 0
               NVOCMP_VERSION NVOCMP_SIGNATURE) ++ tl) (some_inactive pi).
Proof.
  intros (tl'&E&Hr). apply app_inj_1 in E as [_ <-]; [|done].
  exists tl. destruct pi. simpl in *. naive_solver lia.
Qed.

(** The first write clears the status bit of the item... *)
Lemma clear_status s logs q pre it post :
  ring s logs → 0 <= q < NVOCMP_size s → q ≠ tailPage (nvHandle s) →
  logs q = pre ++ it :: post → it_live it = true →
  ∃ b s', NVOCMP_readByte q (header_ofs pre it + NVOCMP_HDRVLDOFS) s = Ret b s ∧
    NVOCMP_writeByte q (header_ofs pre it + NVOCMP_HDRVLDOFS) (retire_byte b) s = Ret tt s' ∧
    ring s' (<[q := pre ++ retired it :: post]> logs) ∧ only_page q s s' ∧
    NVOCMP_failW s' = NVINTF_SUCCESS ∧ nvHandle s' = nvHandle s.
Proof.
  intros R Hq Ht El Hlive.
  destruct (ring_page _ _ R q Hq Ht) as (hdr&rest&pi&(Hh&Hok&Hb)&Hi&Ho&Hhdr&Her).
  rewrite El in Hok, Hb, Ho. apply Forall_app in Hok as [Hpre Hok].
  apply Forall_cons_1 in Hok as [Hit Hpost].
  destruct (header_split it Hit Hlive) as (h&b&Hub&Hh5&Eh&Eh').
  destruct (retire_byte_programs b Hub) as [Hr1 Hr2].
  assert (Hsz : log_size (pre ++ retired it :: post) = log_size (pre ++ it :: post))
    by (rewrite !log_size_app, !log_size_cons; done).
  rewrite log_bytes_app, log_bytes_cons in Hb. unfold item_bytes in Hb. rewrite Eh in Hb.
  assert (EB : page_bytes s q = (hdr ++ log_bytes pre ++ it_data it ++ h) ++
                 b :: (NVOCMP_SIGNATURE :: log_bytes post ++ rest))
    by (rewrite Hb; rewrite <- !app_assoc; done).
  rewrite <- (header_ofs_length hdr pre it h Hh Hh5).
  destruct (page_writeByte s q _ _ _ (retire_byte b) (ring_in_region _ _ _ R Hq) EB Hr1 Hr2) as (d1&E1&B1&O1).
  exists b. eexists. split_and!; [by eapply page_readByte|exact E1| |done|done|done].
  eapply (ring_change s); try done; try apply R.
  - exists hdr, rest, pi. rewrite Hsz. split_and!; try done. split_and!; try done.
    + apply Forall_app. split; [done|]. by apply Forall_cons.
    + rewrite B1, log_bytes_app, log_bytes_cons. unfold item_bytes. rewrite Eh'.
      rewrite <- !app_assoc. done.
  - eapply states_ok_keep; try done; [eauto|]. rewrite El. by destruct pre.
  - simpl. destruct (decide (actPage (nvHandle s) = q)) as [<-|].
    + rewrite fn_lookup_insert, Hsz, <- El. apply R.
    + rewrite fn_lookup_insert_ne by done. apply R.
Qed.

(** ... the second clears the mark that all items of the page are active. *)
Lemma clear_mark s logs q pi :
  ring s logs → 0 <= q < NVOCMP_size s → q ≠ tailPage (nvHandle s) →
  pageInfo (nvHandle s) !! Z.to_nat q = Some pi →
  ∃ v s', NVOCMP_readByte q NVOCMP_PGHDRVER s = Ret v s ∧
    mthen (NVOCMP_writeByte q NVOCMP_PGHDRVER (Z.land v (u8 (Z.lnot NVOCMP_ALLACTIVE))))
      (λ _, modPage q (pset_allActive NVOCMP_SOMEINACTIVE)) s = Ret tt s' ∧
    ring s' logs ∧ only_page q s s' ∧
    NVOCMP_failW s' = NVINTF_SUCCESS ∧ actPage (nvHandle s') = actPage (nvHandle s) ∧
    act_state s' = act_state s.
Proof.
  intros R Hq Ht Hi.
  destruct (ring_page _ _ R q Hq Ht) as (hdr&rest&pi'&(Hh&Hok&Hb)&Hi'&Ho&Hhdr&Her).
  assert (pi' = pi) as -> by congruence.
  assert (Hhdr' := Hhdr). destruct Hhdr' as (tl&Etl&_&_&_&_&Hal&_).
  destruct (clear_allActive (pi_allActive pi) Hal) as (W0&W1&W2).
  set (v := Z.lor (Z.land (pi_allActive pi) 3) _) in *.
  assert (B2 : page_bytes s q = [u8 (pi_state pi); u8 (pi_cycle pi)] ++ v ::
             (u8 NVOCMP_SIGNATURE :: tl ++ log_bytes (logs q) ++ rest)).
  { rewrite Hb, Etl. by rewrite <- app_assoc. }
  change NVOCMP_PGHDRVER with (Z.of_nat (length [u8 (pi_state pi); u8 (pi_cycle pi)])).
  destruct (page_writeByte s q _ _ _ _ (ring_in_region _ _ _ R Hq) B2 W1 W2) as (d2&E2&B3&O2).
  set (s2 := set_failW _ (set_flash d2 s)) in *.
  exists v, (with_page q (some_inactive pi) s2).
  assert (O3 : only_page q s (with_page q (some_inactive pi) s2))
    by (eapply only_page_trans; [exact O2|apply only_page_with_page; lia]).
  split_and!; try done; [by eapply page_readByte| | |by apply (with_page_act_state _ _ pi s2)].
  { nvbind E2. rewrite (modPage_spec s2 q _ pi) by (done || lia). done. }
  apply (ring_same_logs _ _ q). eapply (ring_change s); try done; try apply R.
  - rewrite W0 in B3.
    exists (encode_pageHdr (mkPageHdr (pi_state pi) (pi_cycle pi) 0 NVOCMP_VERSION NVOCMP_SIGNATURE) ++ tl),
      rest, (some_inactive pi).
    split_and!; [split_and!; [|done|]|by eapply with_page_info|apply Ho| |].
    + rewrite Etl, length_app in Hh. by rewrite length_app.
    + change (page_bytes (with_page q (some_inactive pi) s2) q) with (page_bytes s2 q).
      rewrite B3. by rewrite <- app_assoc.
    + apply header_some_inactive. by rewrite <- Etl.
    + rewrite Etl in Her. exact Her.
  - eapply states_ok_keep; try done; [|by left].
    intros pi' Hpi'. exists pi. split; [done|].
    assert (Some pi' = Some (some_inactive pi)) as [= ->]; [|done].
    rewrite <- Hpi'. by eapply with_page_info.
  - rewrite fn_insert_self. apply (ring_offset _ _ R).
Qed.

Lemma setItemInactive_spec s logs q pre it post :
  ring s logs → 0 <= q < NVOCMP_size s → q ≠ tailPage (nvHandle s) →
  logs q = pre ++ it :: post → it_live it = true →
  ∃ s', NVOCMP_setItemInactive q (header_ofs pre it) s = Ret tt s' ∧
    ring s' (<[q := pre ++ retired it :: post]> logs) ∧ only_page q s s' ∧
    NVOCMP_failW s' = NVINTF_SUCCESS ∧ actPage (nvHandle s') = actPage (nvHandle s) ∧
    act_state s' = act_state s.
Proof.
  intros R Hq Ht El Hlive.
  destruct (clear_status s logs q pre it post R Hq Ht El Hlive) as (b&s1&Eb&E1&R1&O1&F1&Hh).
  unfold NVOCMP_setItemInactive. nvbind Eb. unfold retire_byte in E1. nvbind E1.
  assert (Hq1 : 0 <= q < NVOCMP_size s1) by (rewrite (op_size _ _ _ O1); done).
  destruct (getPage_ok s1 _ q R1 Hq1) as (pi&Hi&Eg). nvbind Eg.
  destruct (ctrue (pi_allActive pi)); simpl when; [|exists s1; unfold act_state; by rewrite Hh].
  destruct (clear_mark s1 _ q pi R1 Hq1 ltac:(by rewrite Hh) Hi) as (v&s2&Ev&E2&R2&O2&F2&A2&S2).
  nvbind Ev. exists s2. split_and!; try done; [by eapply only_page_trans|by rewrite A2, Hh|].
  rewrite S2. unfold act_state. by rewrite Hh.
Qed.
End Pages.
