(* ===== verification/NvWrite.v ===== *)
(** * NV driver: writing an item

    The choice of the destination page and the append of an item to the log of the
    active page. *)

From S2P Require Import Prelude.
From S2P Require Import NvTypes.
From S2P Require Import NvOps.
From S2P Require Import NvCompact.
From S2P Require Import NvItems.
From S2P Require Import NvFlash.
From S2P Require Import NvLog.
From S2P Require Import NvFind.
From S2P Require Import NvPages.

Section Write.
Context `{NvCodesOk} `{NvsLaws} `{!NvsReliable}.
Implicit Types (s : drv).

(** ** Page states *)

(** A page may go from one state to a later one: this only clears bits. *)
Definition state_step (old new : Z) : Prop :=
  old ≠ NVOCMP_PGFULL ∧ new ∈ stored_states ∧ Z.land new old = new.

Lemma header_new_state pi tl st :
  header_ok (encode_pageHdr (mkPageHdr (pi_state pi) (pi_cycle pi) (pi_allActive pi)
               NVOCMP_VERSION NVOCMP_SIGNATURE) ++ tl) pi →
  state_step (pi_state pi) st →
  header_ok (encode_pageHdr (mkPageHdr st (pi_cycle pi) (pi_allActive pi)
               NVOCMP_VERSION NVOCMP_SIGNATURE) ++ tl) (pset_state st pi) ∧
  recorded tl = NVOCMP_NULLOFFSET.
Proof.
  intros (tl'&E&Hr) (Hne&Hst&_). apply app_inj_1 in E as [_ <-]; [|done].
  destruct pi. simpl in *.
  assert (recorded tl = NVOCMP_NULLOFFSET) by naive_solver.
  split; [|done]. exists tl. simpl. naive_solver.
Qed.

(** [NVOCMP_changePageState] writes the first byte of the page and its entry in
    the table; a page that becomes active is made the active page. *)
Lemma changePageState_raw s q st old post pi :
  in_region q 0 FLASH_PAGE_SIZE → 0 <= q → page_bytes s q = old :: post →
  in_u8 st → Z.land st old = st → pageInfo (nvHandle s) !! Z.to_nat q = Some pi →
  ∃ s', NVOCMP_changePageState q st s = Ret tt s' ∧ page_bytes s' q = st :: post ∧ only_page q s s' ∧
    pageInfo (nvHandle s') !! Z.to_nat q = Some (pset_state st pi) ∧
    NVOCMP_failW s' = NVINTF_SUCCESS ∧
    actPage (nvHandle s') = (if st =? NVOCMP_PGACT then q else actPage (nvHandle s)) ∧
    actOffset (nvHandle s') = actOffset (nvHandle s).
Proof.
  intros Hr Hq B Hnb Hland Hi. unfold NVOCMP_changePageState.
  change NVOCMP_PGHDROFS with (Z.of_nat (length (@nil Z))). rewrite (u8_id st) by done.
  destruct (page_writeByte s q [] old post st Hr B Hnb Hland) as (d&E&B1&O1).
  nvbind E. set (s1 := set_failW _ _) in *. nvget. simpl NVOCMP_failW. rewrite Z.eqb_refl. simpl when.
  set (s2 := if st =? NVOCMP_PGACT then set_handle (hset_actPage q (nvHandle s1)) s1 else s1).
  assert (E2 : when (st =? NVOCMP_PGACT) (modh (hset_actPage q)) s1 = Ret tt s2)
    by (unfold s2; by destruct (st =? NVOCMP_PGACT)).
  nvbind E2.
  assert (Hi2 : pageInfo (nvHandle s2) !! Z.to_nat q = Some pi) by (unfold s2; by destruct (_ =? _)).
  assert (Hfl : flash s2 = flash s1) by (unfold s2; by destruct (_ =? _)).
  assert (O2 : only_page q s s2) by (unfold s2; destruct (_ =? _); destruct O1; by split).
  rewrite (modPage_spec s2 q _ pi) by (done || lia).
  exists (with_page q (pset_state st pi) s2). split; [done|].
  split. { unfold page_bytes in *. simpl. by rewrite Hfl. }
  split_and!; [eapply only_page_trans; [exact O2|apply only_page_with_page; lia]|by eapply with_page_info|..];
    unfold s2; by destruct (_ =? _).
Qed.

Lemma changePageState_spec s logs q pi st :
  ring s logs → 0 <= q < NVOCMP_size s → q ≠ tailPage (nvHandle s) →
  pageInfo (nvHandle s) !! Z.to_nat q = Some pi → state_step (pi_state pi) st →
  ∃ s', NVOCMP_changePageState q st s = Ret tt s' ∧ page_ok s' q (logs q) ∧ only_page q s s' ∧
    pageInfo (nvHandle s') !! Z.to_nat q = Some (pset_state st pi) ∧
    NVOCMP_failW s' = NVINTF_SUCCESS ∧
    actPage (nvHandle s') = (if st =? NVOCMP_PGACT then q else actPage (nvHandle s)) ∧
    actOffset (nvHandle s') = actOffset (nvHandle s).
Proof.
  intros R Hq Ht Hi Hst.
  destruct (ring_page _ _ R q Hq Ht) as (hdr&rest&pi'&(Hh&Hok&Hb)&Hi'&Ho&Hhdr&Her).
  assert (pi' = pi) as -> by congruence.
  assert (Hhdr' := Hhdr). destruct Hhdr' as (tl&Etl&_&_&_&_&Hal&Hss&_).
  pose proof (stored_state_byte _ Hss) as Hsb.
  assert (Hst' := Hst). destruct Hst' as (_&Hsn&Hland). pose proof (stored_state_byte _ Hsn) as Hnb.
  rewrite Etl in Hhdr. destruct (header_new_state pi tl st Hhdr Hst) as [Hnew Hrec].
  assert (B : page_bytes s q = u8 (pi_state pi) :: (drop 1 hdr ++ log_bytes (logs q) ++ rest))
    by (rewrite Hb; by rewrite Etl).
  destruct (changePageState_raw s q st _ _ pi (ring_in_region _ _ _ R Hq) ltac:(lia) B Hnb
              ltac:(by rewrite u8_id) Hi) as (s'&E&B1&O&Hi1&Hrest).
  exists s'. split; [done|]. split; [|done].
  exists (encode_pageHdr (mkPageHdr st (pi_cycle pi) (pi_allActive pi) NVOCMP_VERSION NVOCMP_SIGNATURE) ++ tl),
    rest, (pset_state st pi). split_and!; [split_and!; [|done|]|done|done|done|].
  - rewrite Etl, length_app in Hh. by rewrite length_app.
  - rewrite Etl in B1. rewrite B1. unfold encode_pageHdr. simpl. by rewrite (u8_id st).
  - intros _. apply Her. by rewrite Etl.
Qed.

(** ** Destination page *)

(** The driver's state after the page was made the active one. *)
Definition activated (q ofs : Z) s : drv :=
  set_handle (hset_actOffset ofs (hset_actPage q (nvHandle s))) s.

Definition act_info s : option NVOCMP_pageInfo_t :=
  pageInfo (nvHandle s) !! Z.to_nat (actPage (nvHandle s)).

(** The active page takes an item of [len] bytes. *)
Definition has_room s (logs : Z → list item) (len : Z) : Prop :=
  (∃ pi, act_info s = Some pi ∧ pi_state pi = NVOCMP_PGACT) ∧
  NVOCMP_PGDATAOFS + log_size (logs (actPage (nvHandle s))) + len <= FLASH_PAGE_SIZE.

Lemma has_room_state s logs len : has_room s logs len → act_state s = Some NVOCMP_PGACT.
Proof. intros [(pi&Hi&Hs) _]. unfold act_state. unfold act_info in Hi. by rewrite Hi, <- Hs. Qed.

(** What choosing a destination page keeps. *)
Record same_ring s s' : Prop := {
  sr_size : NVOCMP_size s' = NVOCMP_size s;
  sr_failF : NVOCMP_failF s' = NVOCMP_failF s;
  sr_tail : tailPage (nvHandle s') = tailPage (nvHandle s);
  sr_failW : NVOCMP_failW s = NVINTF_SUCCESS → NVOCMP_failW s' = NVINTF_SUCCESS
}.

Lemma same_ring_refl s : same_ring s s.
Proof. by split. Qed.

Lemma same_ring_trans s1 s2 s3 : same_ring s1 s2 → same_ring s2 s3 → same_ring s1 s3.
Proof. intros [] []. split; try congruence. auto. Qed.

Lemma only_page_same_ring q s s' :
  only_page q s s' → NVOCMP_failW s' = NVINTF_SUCCESS → same_ring s s'.
Proof. intros [] ?. by split. Qed.

(** The active page is [q], or has been given up as full. *)
Definition leaving s (q : Z) : Prop :=
  q = actPage (nvHandle s) ∨ ∃ pi, act_info s = Some pi ∧ pi_state pi = NVOCMP_PGFULL.

Lemma activated_states s s' logs q pi ofs :
  ring s logs → leaving s q → only_page q s s' → 0 <= q →
  pageInfo (nvHandle s') !! Z.to_nat q = Some pi → pi_state pi = NVOCMP_PGACT →
  states_ok (activated q ofs s') logs.
Proof.
  intros R Hlv O Hq Hi Hst p pi' Hp Hne Hi'. simpl in *.
  rewrite (op_size _ _ _ O) in Hp. rewrite (op_tail _ _ _ O) in Hne.
  destruct (decide (p = q)) as [->|Hpq]; [by simplify_eq; rewrite Hst|].
  rewrite (op_info _ _ _ O) in Hi' by lia.
  pose proof (ring_states _ _ R p pi' Hp Hne Hi') as Hs.
  destruct (decide (p = actPage (nvHandle s))) as [->|]; [|done].
  right. destruct Hlv as [|(pi0&Hi0&Hf)]; [congruence|]. unfold act_info in Hi0. congruence.
Qed.

(** A page that is not full and not the target becomes the active page. *)
Lemma activate_spec s logs q pi :
  ring s logs → leaving s q → 0 <= q < NVOCMP_size s → q ≠ tailPage (nvHandle s) →
  pageInfo (nvHandle s) !! Z.to_nat q = Some pi → pi_state pi ≠ NVOCMP_PGFULL →
  ∃ s', when ((pi_state pi =? NVOCMP_PGNACT) || (pi_state pi =? NVOCMP_PGRDY))
          (NVOCMP_changePageState q NVOCMP_PGACT) s = Ret tt s' ∧
    ring (activated q (pi_offset pi) s') logs ∧ same_ring s s' ∧ only_page q s s' ∧
    pageInfo (nvHandle s') !! Z.to_nat q = Some (pset_state NVOCMP_PGACT pi).
Proof.
  intros R Hlv Hq Ht Hi Hnf.
  destruct (ring_page _ _ R q Hq Ht) as (hdr&rest&pi'&Hl&Hi'&Ho&Hhdr&Her).
  assert (pi' = pi) as -> by congruence.
  assert (Hss : pi_state pi ∈ stored_states) by (destruct Hhdr as (?&?&?&?&?&?&?&?&?); done).
  assert (Hring : ∀ s', only_page q s s' → page_ok s' q (logs q) →
    pageInfo (nvHandle s') !! Z.to_nat q = Some (pset_state NVOCMP_PGACT pi) →
    ring (activated q (pi_offset pi) s') logs).
  { intros s' O Hp Hpi. apply (ring_same_logs _ _ q). eapply (ring_change s); try done.
    - destruct O. by split.
    - pose proof (activated_states s s' logs q _ (pi_offset pi) R Hlv O (proj1 Hq) Hpi eq_refl) as Hs.
      intros p pi' H1' H2' H3'. rewrite fn_insert_self. by apply Hs.
    - simpl. rewrite fn_lookup_insert. exact Ho. }
  destruct (_ || _) eqn:Eb; simpl when.
  - destruct (changePageState_spec s logs q pi NVOCMP_PGACT R Hq Ht Hi) as (s'&E&Hp&O&Hi2&Hf&_).
    { split_and!; [done|by vm_compute; set_solver|].
      apply orb_true_iff in Eb as [->%Z.eqb_eq| ->%Z.eqb_eq]; done. }
    exists s'. split_and!; auto. by eapply only_page_same_ring.
  - exists s. apply orb_false_iff in Eb as [E1%Z.eqb_neq E2%Z.eqb_neq].
    assert (pi_state pi = NVOCMP_PGACT) as Hact.
    { unfold stored_states in Hss. set_solver. }
    assert (Epi : pset_state NVOCMP_PGACT pi = pi) by (destruct pi; simpl in *; by rewrite Hact).
    split_and!; [done| |apply same_ring_refl|apply only_page_refl|by rewrite Epi].
    apply Hring; [apply only_page_refl|by apply R|by rewrite Epi].
Qed.

Lemma incpage_range s logs p : ring s logs → 0 <= NVOCMP_INCPAGE (NVOCMP_size s) p < NVOCMP_size s.
Proof. intros R. pose proof (ring_size _ _ R). apply Z.mod_pos_bound. lia. Qed.

(** The page that became active but has no room is marked full. *)
Lemma mark_full s logs q pi :
  ring s logs → q = actPage (nvHandle s) →
  pageInfo (nvHandle s) !! Z.to_nat q = Some pi → pi_state pi = NVOCMP_PGACT →
  ∃ s', NVOCMP_changePageState q NVOCMP_PGFULL s = Ret tt s' ∧ ring s' logs ∧ same_ring s s' ∧
    only_page q s s' ∧ (∀ p, leaving s' p) ∧ actPage (nvHandle s') = q.
Proof.
  intros R Hqa Hi Hst. assert (Hq : 0 <= q < NVOCMP_size s) by (rewrite Hqa; apply R).
  assert (Ht : q ≠ tailPage (nvHandle s)) by (rewrite Hqa; apply R).
  destruct (changePageState_spec s logs q pi NVOCMP_PGFULL R Hq Ht Hi) as (s'&E&Hp&O&Hi'&Hf&Ha&Hoff).
  { rewrite Hst. split_and!; [done|by vm_compute; set_solver|done]. }
  change (NVOCMP_PGFULL =? NVOCMP_PGACT) with false in Ha. cbv iota in Ha.
  exists s'. split_and!; [done| |by eapply only_page_same_ring|done| |by rewrite Ha, Hqa].
  2:{ intros p. right. exists (pset_state NVOCMP_PGFULL pi). unfold act_info. by rewrite Ha, <- Hqa. }
  apply (ring_same_logs _ _ q). eapply (ring_change s); try done; rewrite ?Ha; try apply R.
  - intros p pi' H1' H2' H3'. rewrite fn_insert_self, Ha.
    rewrite (op_size _ _ _ O) in H1'. rewrite (op_tail _ _ _ O) in H2'.
    destruct (decide (p = q)) as [->|].
    + rewrite decide_True by done. simplify_eq. done.
    + rewrite (op_info _ _ _ O) in H3' by lia. by apply (ring_states _ _ R).
  - rewrite Hoff, fn_insert_self. apply R.
Qed.

(** Page [p] takes an item of [len] bytes. *)
Definition roomy s (len p : Z) : Prop :=
  0 <= p < NVOCMP_size s ∧ p ≠ tailPage (nvHandle s) ∧
  ∃ pi, pageInfo (nvHandle s) !! Z.to_nat p = Some pi ∧ pi_state pi ≠ NVOCMP_PGFULL ∧
        pi_offset pi + len <= FLASH_PAGE_SIZE.

(** Some page takes an item of [len] bytes: no compaction is needed. *)
Definition room s (len : Z) : Prop := ∃ p, roomy s len p.

Lemma roomy_other s s' q len p : only_page q s s' → p ≠ q → roomy s len p → roomy s' len p.
Proof.
  intros O Hne (Hp&Ht&pi&Hi&Hr). split_and!; rewrite ?(op_size _ _ _ O), ?(op_tail _ _ _ O); try lia.
  exists pi. by rewrite (op_info _ _ _ O) by lia.
Qed.

(** The pages from [pg] on, [n] of them, contain one with room. *)
Definition room_ahead s (len pg : Z) (n : nat) : Prop :=
  ∃ k, (k < n)%nat ∧ roomy s len ((pg + Z.of_nat k) mod NVOCMP_size s).

Lemma room_ahead_next s s' q len n :
  0 <= q < NVOCMP_size s → room_ahead s len q (S n) → ¬ roomy s len q → only_page q s s' →
  room_ahead s' len (NVOCMP_INCPAGE (NVOCMP_size s) q) n.
Proof.
  intros Hq (k&Hk&Hr) Hn O. destruct k as [|k].
  { rewrite Z.add_0_r, Z.mod_small in Hr by lia. done. }
  exists k. split; [lia|]. rewrite (op_size _ _ _ O).
  assert (E : (NVOCMP_INCPAGE (NVOCMP_size s) q + Z.of_nat k) mod NVOCMP_size s =
              (q + Z.of_nat (S k)) mod NVOCMP_size s).
  { unfold NVOCMP_INCPAGE, NVOCMP_ADDPAGE. rewrite Zplus_mod_idemp_l. f_equal. lia. }
  rewrite E. eapply roomy_other; [done| |done]. intros Eq. rewrite Eq in Hr. done.
Qed.

Lemma room_from_active s logs len :
  ring s logs → room s len → room_ahead s len (actPage (nvHandle s)) (Z.to_nat (NVOCMP_size s)).
Proof.
  intros R (p&Hr). pose proof (ring_size _ _ R). assert (Hp := Hr). destruct Hp as (Hp&_).
  assert (0 <= (p - actPage (nvHandle s)) mod NVOCMP_size s < NVOCMP_size s) by (apply Z.mod_pos_bound; lia).
  exists (Z.to_nat ((p - actPage (nvHandle s)) mod NVOCMP_size s)). split; [lia|].
  rewrite Z2Nat.id, Zplus_mod_idemp_r by lia.
  replace (actPage (nvHandle s) + (p - actPage (nvHandle s))) with p by lia.
  by rewrite Z.mod_small.
Qed.

(** The active page stays or becomes one without items. *)
Definition moved s s' (logs : Z → list item) : Prop :=
  actPage (nvHandle s') = actPage (nvHandle s) ∨ logs (actPage (nvHandle s')) = [].

Lemma not_full_moved s logs q pi :
  ring s logs → 0 <= q < NVOCMP_size s → q ≠ tailPage (nvHandle s) →
  pageInfo (nvHandle s) !! Z.to_nat q = Some pi → pi_state pi ≠ NVOCMP_PGFULL →
  q = actPage (nvHandle s) ∨ logs q = [].
Proof.
  intros R Hq Ht Hi Hnf. pose proof (ring_states _ _ R q pi Hq Ht Hi) as Hs.
  destruct (decide (q = _)); [by left|]. naive_solver.
Qed.

Lemma getDstPage_loop_spec n s logs pg len :
  ring s logs → 0 <= pg < NVOCMP_size s → leaving s pg →
  ∃ r s', getDstPage_loop n pg len s = Ret r s' ∧ ring s' logs ∧ same_ring s s' ∧ moved s s' logs ∧
    (r ≠ NVOCMP_NULLPAGE → r = actPage (nvHandle s') ∧ has_room s' logs len) ∧
    (room_ahead s len pg n → r ≠ NVOCMP_NULLPAGE).
Proof.
  revert s pg. induction n as [|n IH]; intros s pg R Hpg Hlv.
  { exists NVOCMP_NULLPAGE, s. split_and!; [done|done|apply same_ring_refl|by left|done|]. intros (k&?&_). lia. }
  cbn [getDstPage_loop]. nvget. nvget. pose proof (incpage_range s logs pg R) as Hnext.
  pose proof (λ s', room_ahead_next s s' pg len n Hpg) as Hadv.
  destruct (Z.eqb_spec pg (tailPage (nvHandle s))) as [Htl|Ht].
  { assert (Hlv' : leaving s (NVOCMP_INCPAGE (NVOCMP_size s) pg)).
    { right. destruct Hlv as [->|]; [|done]. by destruct (ring_distinct _ _ R). }
    destruct (IH s _ R Hnext Hlv') as (r&s'&E&R'&S'&Hmv&Hr&Ha). exists r, s'. split_and!; try done.
    intros Hra. apply Ha. apply (Hadv s Hra); [|apply only_page_refl]. by intros (_&?&_). }
  destruct (page_readHdr s logs pg _ R Hpg (ring_page _ _ R pg Hpg Ht)) as (pi&Hi&Eh). nvbind Eh.
  cbn [ph_state]. destruct (Z.eqb_spec (pi_state pi) NVOCMP_PGFULL) as [Hfull|Hnf].
  { assert (Hlv' : leaving s (NVOCMP_INCPAGE (NVOCMP_size s) pg)).
    { right. destruct Hlv as [->|]; [|done]. by exists pi. }
    destruct (IH s _ R Hnext Hlv') as (r&s'&E&R'&S'&Hmv&Hr&Ha). exists r, s'. split_and!; try done.
    intros Hra. apply Ha. apply (Hadv s Hra); [|apply only_page_refl]. intros (_&_&pi'&?&?&_). congruence. }
  pose proof (not_full_moved s logs pg pi R Hpg Ht Hi Hnf) as Hmv.
  destruct (activate_spec s logs pg pi R Hlv Hpg Ht Hi Hnf) as (s1&E1&R1&S1&O1&Hi1).
  nvbind E1. nvget.
  rewrite (mthen_ret _ _ _ _ _ (getPage_spec (set_handle (hset_actPage pg (nvHandle s1)) s1) pg _ ltac:(lia) Hi1)).
  nvget. change (pi_offset (pset_state NVOCMP_PGACT pi)) with (pi_offset pi).
  change (set_handle _ _) with (activated pg (pi_offset pi) s1).
  assert (Hoff : pi_offset pi = NVOCMP_PGDATAOFS + log_size (logs pg)) by apply (ring_offset _ _ R1).
  destruct (Z.leb_spec (pi_offset pi + len) FLASH_PAGE_SIZE) as [Hfit|Hbig].
  { exists pg, (activated pg (pi_offset pi) s1). split_and!; [done|done|by destruct S1|done| |].
    - intros _. split; [done|]. split; [|simpl; lia]. by exists (pset_state NVOCMP_PGACT pi).
    - intros _. pose proof (ring_size _ _ R). unfold NVOCMP_NVPAGES, NVOCMP_NULLPAGE in *. lia. }
  assert (Hs1 : NVOCMP_size s1 = NVOCMP_size s) by apply S1.
  destruct (mark_full _ logs pg _ R1 eq_refl Hi1 eq_refl) as (s2&E2&R2&S2&O2&Hlv2&Hact2).
  nvbind E2. assert (Hs2 : NVOCMP_size s2 = NVOCMP_size s) by (rewrite (sr_size _ _ S2); exact Hs1).
  destruct (IH s2 (NVOCMP_INCPAGE (NVOCMP_size s) pg) R2) as (r&s3&E3&R3&S3&Hmv3&Hroom&Ha);
    [by rewrite Hs2|done|].
  exists r, s3. split_and!; try done.
  - eapply same_ring_trans; [exact S1|]. eapply same_ring_trans; [|exact S3]. by destruct S2.
  - destruct Hmv3 as [Ea|]; [|by right]. unfold moved. rewrite Ea, Hact2. done.
  - intros Hra. apply Ha. apply (Hadv s2 Hra).
    + intros (_&_&pi'&?&_&?). assert (pi' = pi) by congruence. subst. lia.
    + eapply only_page_trans; [exact O1|]. by destruct O2.
Qed.

Lemma getDstPage_spec s logs len :
  ring s logs → room s len →
  ∃ r s', NVOCMP_getDstPage len s = Ret r s' ∧ r ≠ NVOCMP_NULLPAGE ∧
    ring s' logs ∧ same_ring s s' ∧ moved s s' logs ∧ has_room s' logs len.
Proof.
  intros R Hr. destruct (getDstPage_loop_spec (Z.to_nat (NVOCMP_size s)) s logs _ len R (ring_act _ _ R)
              (or_introl eq_refl))
    as (r&s'&E&R'&S'&Hmv&Hroom&Ha).
  assert (r ≠ NVOCMP_NULLPAGE) by (apply Ha; by eapply room_from_active).
  exists r, s'. split_and!; try done. by apply Hroom.
Qed.

(** ** Appending an item *)

(** The item a header and a buffer describe. *)
Definition item_of (pHdr : NVOCMP_itemHdr_t) (pBuf : list Z) : item :=
  mkItem (ih_sysid pHdr) (ih_itemid pHdr) (ih_subid pHdr) (take (Z.to_nat (ih_len pHdr)) pBuf) true.

Lemma programmable_erased rest buf :
  Forall (eq NVOCMP_ERASEDBYTE) rest → is_bytes buf → (length buf <= length rest)%nat →
  programmable (take (length buf) rest) buf.
Proof.
  revert rest. induction buf as [|b buf IH]; intros rest Hr Hb Hl; [constructor|].
  destruct rest as [|r rest]; simpl in *; [lia|].
  apply Forall_cons_1 in Hr as [<- Hr]. apply Forall_cons_1 in Hb as [Hb1 Hb].
  constructor; [|apply IH; [done|done|lia]]. split; [done|].
  change NVOCMP_ERASEDBYTE with 0xFF. rewrite mask_FF. by apply Z.mod_small.
Qed.

(** Writing erased bytes at the end of the log of the active page. *)
Lemma append_write s q pre buf rest :
  in_region q 0 FLASH_PAGE_SIZE →
  page_bytes s q = pre ++ rest → Forall (eq NVOCMP_ERASEDBYTE) rest →
  is_bytes buf → (length buf <= length rest)%nat →
  ∃ d, NVOCMP_write q (Z.of_nat (length pre)) buf s = Ret NVINTF_SUCCESS (set_flash d s) ∧
    page_bytes (set_flash d s) q = (pre ++ buf) ++ drop (length buf) rest ∧
    Forall (eq NVOCMP_ERASEDBYTE) (drop (length buf) rest) ∧ only_page q s (set_flash d s).
Proof.
  intros Hr Hb He Hby Hl.
  destruct (page_write s q pre (take (length buf) rest) (drop (length buf) rest) buf Hr)
    as (d&E&B&O).
  { by rewrite take_drop. }
  { by apply programmable_erased. }
  exists d. split_and!; [done|by rewrite <- app_assoc|by apply Forall_drop|done].
Qed.

(** After the bytes of an item were written behind the log of the active page
    and the offsets advanced, the log ends with the item. *)
Lemma advance_spec s s1 logs it hdr rest pi :
  let q := actPage (nvHandle s) in
  ring s logs → only_page q s s1 → nvHandle s1 = nvHandle s →
  NVOCMP_failW s1 = NVINTF_SUCCESS → item_ok it →
  pageInfo (nvHandle s) !! Z.to_nat q = Some pi → pi_state pi = NVOCMP_PGACT →
  Forall item_ok (logs q) → length hdr = 16%nat → header_ok hdr pi →
  page_bytes s1 q = hdr ++ log_bytes (logs q ++ [it]) ++ rest →
  Forall (eq NVOCMP_ERASEDBYTE) rest →
  ∃ s', advance_offsets q (actOffset (nvHandle s)) (item_size it) s1 = Ret tt s' ∧
    ring s' (<[q := logs q ++ [it]]> logs) ∧ only_page q s s' ∧
    NVOCMP_failW s' = NVINTF_SUCCESS ∧ actPage (nvHandle s') = q ∧ act_state s' = act_state s.
Proof.
  intros q R O Eh Hf Hit Hi Hst Hok Hh Hhdr Hb He. unfold advance_offsets. nvget. rewrite Eh.
  pose proof (ring_act _ _ R) as Ha. fold q in Ha.
  assert (Hl : page_log (page_bytes s1 q) hdr (logs q ++ [it]) rest).
  { split_and!; [done| |done]. apply Forall_app. by rewrite Forall_singleton. }
  pose proof (page_log_size _ _ _ _ _ Hl) as Hsz.
  assert (Hoff : actOffset (nvHandle s) + item_size it = NVOCMP_PGDATAOFS + log_size (logs q ++ [it])).
  { rewrite (ring_offset _ _ R), log_size_app, log_size_one. fold q. lia. }
  rewrite Hoff. pose proof (log_size_nonneg (logs q ++ [it])).
  rewrite u16_id by (change NVOCMP_PGDATAOFS with 16; unfold in_u16; lia).
  set (ofs := NVOCMP_PGDATAOFS + _) in *. rewrite (modPage_spec _ q _ pi) by (done || lia).
  eexists. split; [done|]. set (s' := with_page _ _ _).
  assert (O' : only_page q s s').
  { eapply only_page_trans; [|apply only_page_with_page; lia]. destruct O. split; try done; by rewrite Eh in *. }
  split_and!; try done.
  2:{ by apply (with_page_act_state q _ pi (set_handle (hset_actOffset ofs (nvHandle s)) s1)). }
  eapply (ring_change s); try done; try apply R.
  - exists hdr, rest, (pset_offset ofs pi). split_and!; try done.
    + by eapply with_page_info.
    + destruct Hhdr as (tl&Etl&?&?&?&?&?&?&Hr). exists tl. destruct pi. simpl in *. split_and!; try done; try lia.
      left. destruct Hr as [|[Hbad _]]; [done|]. by rewrite Hst in Hbad.
  - eapply states_ok_keep; try done; [|by right]. intros pi' Hpi'. exists pi. split; [done|].
    assert (Some pi' = Some (pset_offset ofs pi)) as [= ->]; [|done].
    rewrite <- Hpi'. by eapply with_page_info.
  - simpl. rewrite fn_lookup_insert. done.
Qed.

Context `{!CrcLaws}.

Lemma it_of_crc pHdr pBuf :
  it_len (item_of pHdr pBuf) = ih_len pHdr →
  let data := take (Z.to_nat (ih_len pHdr)) pBuf in
  let ids := pack_ids (ih_sysid pHdr) (ih_itemid pHdr) (ih_subid pHdr) (ih_len pHdr) in
  NVOCMP_doRAMCRC (data ++ ids) 0 = it_crc (item_of pHdr pBuf) ∧
  NVOCMP_doRAMCRC ids (NVOCMP_doRAMCRC data 0) = it_crc (item_of pHdr pBuf).
Proof.
  intros El data ids. unfold NVOCMP_doRAMCRC, it_crc, it_ids. rewrite El. split; [done|].
  rewrite (u8_id (crc_update 0 data)), crc_app by (apply crc_byte; by vm_compute). done.
Qed.

(** The active page, seen as the bytes written so far and erased flash. *)
Record open_page s (logs : Z → list item) (hdr rest : list Z) (pi : NVOCMP_pageInfo_t) : Prop := {
  op_len : length hdr = 16%nat;
  op_items : Forall item_ok (logs (actPage (nvHandle s)));
  op_page : page_bytes s (actPage (nvHandle s)) = (hdr ++ log_bytes (logs (actPage (nvHandle s)))) ++ rest;
  op_pi : pageInfo (nvHandle s) !! Z.to_nat (actPage (nvHandle s)) = Some pi;
  op_state : pi_state pi = NVOCMP_PGACT;
  op_header : header_ok hdr pi;
  op_erased : Forall (eq NVOCMP_ERASEDBYTE) rest;
  op_offset : actOffset (nvHandle s) =
              Z.of_nat (length (hdr ++ log_bytes (logs (actPage (nvHandle s)))))
}.

Lemma open_active_page s logs len :
  ring s logs → has_room s logs len →
  ∃ hdr rest pi, open_page s logs hdr rest pi ∧ len <= Z.of_nat (length rest).
Proof.
  intros R [(pi&Hi&Hst) Hfit].
  destruct (ring_page _ _ R _ (ring_act _ _ R) (ring_distinct _ _ R)) as (hdr&rest&pi'&Hlog&Hi2&Ho&Hhdr&Her).
  unfold act_info in Hi. assert (pi' = pi) as -> by congruence.
  pose proof (page_log_size _ _ _ _ _ Hlog) as Hsz. destruct Hlog as (Hh&Hok&Hb).
  change NVOCMP_PGDATAOFS with 16 in Hfit. change FLASH_PAGE_SIZE with 2048 in Hfit.
  exists hdr, rest, pi. split; [|lia]. split; try done.
  - by rewrite <- app_assoc.
  - apply Her. destruct Hhdr as (tl&->&_&_&_&_&_&_&[Hr|[Hbad _]]); [done|]. by rewrite Hst in Hbad.
  - rewrite (ring_offset _ _ R), length_app, Hh. unfold log_size. change NVOCMP_PGDATAOFS with 16. lia.
Qed.

(** Once the bytes are in flash, the offsets make them an item of the log. *)
Lemma advance_open s logs hdr rest pi it d rest' :
  let q := actPage (nvHandle s) in let s1 := set_failW NVINTF_SUCCESS (set_flash d s) in
  ring s logs → open_page s logs hdr rest pi → item_ok it → only_page q s (set_flash d s) →
  page_bytes (set_flash d s) q = ((hdr ++ log_bytes (logs q)) ++ item_bytes it) ++ rest' →
  Forall (eq NVOCMP_ERASEDBYTE) rest' →
  ∃ s', advance_offsets q (actOffset (nvHandle s)) (item_size it) s1 = Ret tt s' ∧
    ring s' (<[q := logs q ++ [it]]> logs) ∧ only_page q s s' ∧
    NVOCMP_failW s' = NVINTF_SUCCESS ∧ actPage (nvHandle s') = q ∧ act_state s' = act_state s.
Proof.
  intros q s1 R [] Hit O Hb He. eapply (advance_spec s s1 logs it hdr rest' pi); try done.
  - by destruct O.
  - transitivity (page_bytes (set_flash d s) q); [done|].
    rewrite Hb. fold q. rewrite log_bytes_app, log_bytes_one. by rewrite <- !app_assoc.
Qed.

(** [NVOCMP_writeItem] at the end of an active page with room appends the item. *)
Lemma writeItem_spec s logs pHdr pBuf :
  let q := actPage (nvHandle s) in let it := item_of pHdr pBuf in
  ring s logs → has_room s logs (item_size it) → item_ok it → it_len it = ih_len pHdr →
  ∃ s', NVOCMP_writeItem pHdr q (actOffset (nvHandle s)) pBuf s = Ret tt s' ∧
    ring s' (<[q := logs q ++ [it]]> logs) ∧ only_page q s s' ∧
    NVOCMP_failW s' = NVINTF_SUCCESS ∧ actPage (nvHandle s') = q ∧ act_state s' = act_state s.
Proof.
  intros q it R Hroom Hit Hlen. pose proof (ring_act _ _ R) as Hq. fold q in Hq.
  destruct (open_active_page s logs _ R Hroom) as (hdr&rest&pi&OP&Hrest).
  destruct (page_readHdr s logs q _ R Hq (ring_page _ _ R q Hq (ring_distinct _ _ R))) as (pi'&Hi'&Eh).
  assert (pi' = pi) as -> by (pose proof (op_pi _ _ _ _ _ OP); unfold q in Hi'; congruence).
  pose proof (item_bytes_ok it Hit) as Hby. pose proof (item_bytes_length it) as Hil.
  destruct (it_of_crc pHdr pBuf Hlen) as [Ec1 Ec2].
  assert (Ehd : ∀ c, c = it_crc it → pack_header (ih_sysid pHdr) (ih_itemid pHdr) (ih_subid pHdr) (ih_len pHdr) c
                     = item_header it)
    by (intros c ->; unfold item_header, active_header; by rewrite Hlen).
  unfold NVOCMP_writeItem. nvbind Eh. cbn [ph_state]. rewrite (op_state _ _ _ _ _ OP).
  rewrite (mthen_ret _ _ _ _ _ (eq_refl : when (NVOCMP_PGACT =? NVOCMP_PGRDY) _ s = Ret tt s)).
  change (negb (NVOCMP_PGACT =? NVOCMP_PGACT)) with false. cbv iota zeta.
  assert (Esz : NVOCMP_ITEMHDRLEN + ih_len pHdr = item_size it) by (unfold item_size; rewrite Hlen; lia).
  rewrite Esz. destruct (Z.leb_spec (actOffset (nvHandle s) + item_size it) FLASH_PAGE_SIZE) as [_|Hbad];
    [|rewrite (ring_offset _ _ R) in Hbad; destruct Hroom as [_ Hfit]; lia].
  rewrite (Ehd _ Ec1), (Ehd _ Ec2). fold it in Ec1.
  change (take (Z.to_nat (ih_len pHdr)) pBuf) with (it_data it).
  pose proof (ring_in_region s logs q R Hq) as Hreg.
  assert (Eo := op_offset _ _ _ _ _ OP). fold q in Eo.
  assert (Ep := op_page _ _ _ _ _ OP). fold q in Ep. assert (He := op_erased _ _ _ _ _ OP).
  destruct (Z.leb_spec (item_size it) NVOCMP_SMALLITEM) as [_|_].
  - fold (item_bytes it).
    destruct (append_write s q _ (item_bytes it) rest Hreg Ep He Hby ltac:(lia)) as (d&E&B&E'&O).
    rewrite <- Eo in E. nvbind E. nvget.
    destruct (advance_open s logs hdr rest pi it d _ R OP Hit O B E') as (s'&Ea&Hs').
    fold q in Ea, Hs'. nvbind Ea. rewrite ctrue_success. by exists s'.
  - unfold item_bytes in Hby, Hil. apply is_bytes_app in Hby as [Hby1 Hby2].
    rewrite length_app, Nat2Z.inj_add in Hil.
    destruct (append_write s q _ (it_data it) rest Hreg Ep He Hby1 ltac:(lia)) as (d&E&B&E'&O).
    rewrite <- Eo in E. nvbind E.
    destruct (append_write (set_flash d s) q _ (item_header it) _ Hreg B E' Hby2
                ltac:(rewrite length_drop; lia)) as (d2&E2&B2&E2'&O2).
    rewrite length_app, Nat2Z.inj_add, <- Eo in E2. fold (it_len it) in E2. rewrite Hlen in E2.
    nvbind E2. nvget. rewrite lor_success, ctrue_success. rewrite <- (app_assoc _ (it_data it)) in B2.
    destruct (advance_open s logs hdr rest pi it d2 _ R OP Hit (only_page_trans _ _ _ _ O O2) B2 E2')
      as (s'&Ea&Hs').
    by exists s'.
Qed.
End Write.
