(* ===== verification/NvStore.v ===== *)
(** * NV driver: the item store

    The pages of the ring represent a finite map from item identifiers to values;
    the API functions implement the operations of that map. *)

From S2P Require Import Prelude.
From S2P Require Import NvTypes.
From S2P Require Import NvOps.
From S2P Require Import NvCompact.
From S2P Require Import NvItems.
From S2P Require Import NvApi.
From S2P Require Import NvFlash.
From S2P Require Import NvLog.
From S2P Require Import NvFind.
From S2P Require Import NvPages.
From S2P Require Import NvWrite.

(** ** Live entries *)

Definition entry (it : item) : option ((Z * Z * Z) * list Z) :=
  if it_live it then Some (it_key it, it_data it) else None.

Definition entries (logs : Z → list item) (pages : list Z) : list ((Z * Z * Z) * list Z) :=
  pages ≫= (λ p, omap entry (logs p)).

Section Entries.
Implicit Types (logs : Z → list item) (pages : list Z).

Lemma entries_elem logs pages k v :
  (k, v) ∈ entries logs pages ↔
  ∃ q it, q ∈ pages ∧ it ∈ logs q ∧ it_live it = true ∧ it_key it = k ∧ it_data it = v.
Proof.
  unfold entries. rewrite list_elem_of_bind. setoid_rewrite list_elem_of_omap.
  unfold entry. split.
  - intros (q&(it&Hit&E)&Hq). exists q, it. destruct (it_live it); naive_solver.
  - intros (q&it&Hq&Hit&Hl&<-&<-). exists q. split; [|done]. exists it. by rewrite Hl.
Qed.

Lemma entries_other logs pages q log :
  q ∉ pages → entries (<[q := log]> logs) pages = entries logs pages.
Proof.
  intros Hq. unfold entries. induction pages as [|p pages IH]; [done|]. simpl.
  rewrite fn_lookup_insert_ne by set_solver. f_equal. apply IH. set_solver.
Qed.

(** The entries, those of page [q] first. *)
Lemma entries_split logs pages q :
  NoDup pages → q ∈ pages →
  ∃ others, (q ∉ others) ∧ (∀ log,
    entries (<[q := log]> logs) pages ≡ₚ omap entry log ++ entries logs others).
Proof.
  intros Hnd Hq. destruct (list_elem_of_split _ _ Hq) as (l1&l2&->).
  assert (q ∉ l1 ++ l2) as Hn.
  { apply NoDup_app in Hnd as (_&Hd&Hnd). apply NoDup_cons in Hnd as [? _]. set_solver. }
  exists (l1 ++ l2). split; [done|]. intros log. unfold entries.
  pose proof (entries_other logs l1 q log ltac:(set_solver)) as E1.
  pose proof (entries_other logs l2 q log ltac:(set_solver)) as E2. unfold entries in E1, E2.
  rewrite !bind_app, bind_cons, fn_lookup_insert, E1, E2. solve_Permutation.
Qed.

Lemma entries_self logs pages q : entries (<[q := logs q]> logs) pages = entries logs pages.
Proof.
  unfold entries. induction pages as [|p pages IH]; [done|].
  rewrite !bind_cons, fn_insert_self. f_equal. exact IH.
Qed.

Lemma entries_append logs pages q it :
  NoDup pages → q ∈ pages → it_live it = true →
  entries (<[q := logs q ++ [it]]> logs) pages ≡ₚ (it_key it, it_data it) :: entries logs pages.
Proof.
  intros Hnd Hq Hl. destruct (entries_split logs pages q Hnd Hq) as (others&_&E).
  rewrite E, <- (entries_self logs pages q), E, omap_app. simpl. unfold entry at 2. rewrite Hl.
  solve_Permutation.
Qed.

Lemma entries_retire logs pages q pre it post :
  NoDup pages → q ∈ pages → it_live it = true → logs q = pre ++ it :: post →
  entries logs pages ≡ₚ
  (it_key it, it_data it) :: entries (<[q := pre ++ retired it :: post]> logs) pages.
Proof.
  intros Hnd Hq Hl El. destruct (entries_split logs pages q Hnd Hq) as (others&_&E).
  rewrite E, <- (entries_self logs pages q), E, El, !omap_app. simpl. unfold entry at 2. rewrite Hl.
  solve_Permutation.
Qed.
End Entries.

(** ** Representation *)

Section Store.
Context `{NvCodesOk} `{NvsLaws}.
Implicit Types (s : drv) (m : gmap (Z * Z * Z) (list Z)).

(** The pages of the ring that hold items. *)
Definition store_pages s : list Z :=
  filter (λ p, p ≠ tailPage (nvHandle s)) (seqZ 0 (NVOCMP_size s)).

(** The last item of the active page, when retired, has no live copy left. *)
Definition settled s (logs : Z → list item) m : Prop :=
  ∀ it, last (logs (actPage (nvHandle s))) = Some it → it_live it = false → m !! it_key it = None.

(** The active page is not full. *)
Definition writable s : Prop := act_state s = Some NVOCMP_PGRDY ∨ act_state s = Some NVOCMP_PGACT.

(** The logs [logs] represent the map [m]. *)
Definition represents s (logs : Z → list item) m : Prop :=
  ring s logs ∧ entries logs (store_pages s) ≡ₚ map_to_list m ∧ settled s logs m ∧ writable s.

(** The driver is initialised, without a pending error, and stores [m]. *)
Definition store s m : Prop :=
  (∃ logs, represents s logs m) ∧
  NVOCMP_failF s = NVINTF_SUCCESS ∧ NVOCMP_failW s = NVINTF_SUCCESS.

Lemma store_pages_elem s p :
  p ∈ store_pages s ↔ 0 <= p < NVOCMP_size s ∧ p ≠ tailPage (nvHandle s).
Proof. unfold store_pages. rewrite list_elem_of_filter, elem_of_seqZ. lia. Qed.

Lemma store_pages_NoDup s : NoDup (store_pages s).
Proof. apply NoDup_filter, NoDup_seqZ. Qed.

Lemma store_pages_same s s' :
  NVOCMP_size s' = NVOCMP_size s → tailPage (nvHandle s') = tailPage (nvHandle s) →
  store_pages s' = store_pages s.
Proof. unfold store_pages. by intros -> ->. Qed.

(** ** Identifiers *)

Definition id_key (id : NVINTF_itemID_t) : Z * Z * Z := (systemID id, itemID id, subID id).

Definition valid_id (id : NVINTF_itemID_t) : Prop :=
  0 <= systemID id <= NVOCMP_MAXSYSID ∧ 0 <= itemID id <= NVOCMP_MAXITEMID ∧
  0 <= subID id <= NVOCMP_MAXSUBID.

(** The compressed identifier determines the identifier. *)
Lemma cmprid_inj (s1 i1 b1 s2 i2 b2 : Z) :
  0 <= s1 <= 63 → 0 <= i1 <= 1023 → 0 <= b1 <= 1023 →
  0 <= s2 <= 63 → 0 <= i2 <= 1023 → 0 <= b2 <= 1023 →
  NVOCMP_CMPRID s1 i1 b1 = NVOCMP_CMPRID s2 i2 b2 → (s1, i1, b1) = (s2, i2, b2).
Proof.
  intros ? ? ? ? ? ? E.
  assert (HC : ∀ s i b : Z, 0 <= s <= 63 → 0 <= i <= 1023 → 0 <= b <= 1023 →
               NVOCMP_CMPRID s i b = (s * 4096 + i) * 4096 + b).
  { intros s i b ???. unfold NVOCMP_CMPRID, NVOCMP_MAXSYSID, NVOCMP_MAXITEMID, NVOCMP_MAXSUBID, NVOCMP_CMPSPACE.
    rewrite mask_3F, !mask_3FF, !Z.mod_small by lia.
    rewrite !lor_shiftl_add by lia. change (2 ^ 12) with 4096. apply u32_id. unfold in_u32. lia. }
  rewrite !HC in E by done. assert (s1 = s2 ∧ i1 = i2 ∧ b1 = b2) as (->&->&->) by lia. done.
Qed.

(** A header with the fields of [id]. *)
Definition names (pHdr : NVOCMP_itemHdr_t) (id : NVINTF_itemID_t) : Prop :=
  ih_sysid pHdr = systemID id ∧ ih_itemid pHdr = itemID id ∧ ih_subid pHdr = subID id.

Lemma wanted_strict pHdr id it :
  names pHdr id → valid_id id → item_ok it →
  wanted NVOCMP_FINDSTRICT pHdr it = true ↔ it_live it = true ∧ it_key it = id_key id.
Proof.
  intros (Es&Ei&Eb) (?&?&?) (?&?&?&_). unfold wanted, item_matches. simpl.
  rewrite Es, Ei, Eb, andb_true_iff. split.
  - intros [? E%Z.eqb_eq]. split; [done|]. symmetry. by apply cmprid_inj.
  - intros [? E]. split; [done|]. apply Z.eqb_eq. unfold it_key, id_key in E. congruence.
Qed.

(** ** Search by identifier *)

Definition from_active pHdr : M (Z * NVOCMP_itemHdr_t * list Z) := λ s,
  NVOCMP_findItem (actPage (nvHandle s)) (actOffset (nvHandle s)) pHdr NVOCMP_FINDSTRICT None s.

(** Where the live item with a value sits. *)
Definition located s (logs : Z → list item) (k : Z * Z * Z) (v : list Z) (q : Z) (pre : list item)
    (it : item) (post : list item) : Prop :=
  0 <= q < NVOCMP_size s ∧ q ≠ tailPage (nvHandle s) ∧ logs q = pre ++ it :: post ∧
  it_live it = true ∧ it_key it = k ∧ it_data it = v ∧ item_ok it.

Lemma ring_item_ok s logs q it :
  ring s logs → 0 <= q < NVOCMP_size s → q ≠ tailPage (nvHandle s) → it ∈ logs q → item_ok it.
Proof.
  intros R Hq Ht Hit. destruct (ring_page _ _ R q Hq Ht) as (?&?&?&(_&Hok&_)&_).
  rewrite Forall_forall in Hok. auto.
Qed.

(** The search for an identifier over logs that hold the map [m]. *)
Definition search_id s (logs : Z → list item) pHdr : option (Z * list item * item) :=
  ring_search (wanted NVOCMP_FINDSTRICT pHdr) logs (NVOCMP_size s) (tailPage (nvHandle s))
    (actPage (nvHandle s)) (Z.to_nat (NVOCMP_size s)).

Definition items_ok s (logs : Z → list item) : Prop :=
  ∀ q it, q ∈ store_pages s → it ∈ logs q → item_ok it.

Lemma ring_items_ok s logs : ring s logs → items_ok s logs.
Proof. intros R q it [Hq Ht]%store_pages_elem. by apply (ring_item_ok s logs q). Qed.

Lemma search_found s logs m pHdr id q pre it :
  0 <= actPage (nvHandle s) < NVOCMP_size s → items_ok s logs →
  entries logs (store_pages s) ≡ₚ map_to_list m → names pHdr id → valid_id id →
  search_id s logs pHdr = Some (q, pre, it) →
  ∃ post v, located s logs (id_key id) v q pre it post ∧ m !! id_key id = Some v.
Proof.
  intros Ha Hit E Hn Hv Es. apply ring_search_some in Es as (Hq&Ht&Hw&post&El); [|lia|done].
  assert (Hok : item_ok it).
  { apply (Hit q); [by apply store_pages_elem|]. rewrite El. set_solver. }
  apply (wanted_strict pHdr id it Hn Hv Hok) in Hw as [Hl Hk].
  exists post, (it_data it). split; [split_and!; done || lia|].
  apply elem_of_map_to_list. rewrite <- E. apply entries_elem.
  exists q, it. rewrite store_pages_elem, El. set_solver.
Qed.

Lemma search_missing s logs m pHdr id v :
  0 <= actPage (nvHandle s) < NVOCMP_size s → items_ok s logs →
  entries logs (store_pages s) ≡ₚ map_to_list m → names pHdr id → valid_id id →
  search_id s logs pHdr = None → m !! id_key id = Some v → False.
Proof.
  intros Ha Hok E Hn Hv Es Hm.
  assert (Hin : (id_key id, v) ∈ entries logs (store_pages s))
    by (rewrite E; by apply elem_of_map_to_list).
  apply entries_elem in Hin as (q&it&Hq&Hit&Hl&Hk&_). specialize (Hok q it Hq Hit).
  apply store_pages_elem in Hq as [Hq Ht].
  assert (Hw : wanted NVOCMP_FINDSTRICT pHdr it = true) by by apply (wanted_strict pHdr id it Hn Hv Hok).
  eapply ring_search_none_all in Es; try done; [|lia]. congruence.
Qed.

Lemma search_present s logs m pHdr id v :
  0 <= actPage (nvHandle s) < NVOCMP_size s → items_ok s logs →
  entries logs (store_pages s) ≡ₚ map_to_list m → names pHdr id → valid_id id →
  m !! id_key id = Some v →
  ∃ q pre it post, located s logs (id_key id) v q pre it post ∧
    search_id s logs pHdr = Some (q, pre, it).
Proof.
  intros Ha Hok E Hn Hv Hm. destruct (search_id s logs pHdr) as [[[q pre] it]|] eqn:Es.
  - destruct (search_found s logs m pHdr id q pre it) as (post&v'&L&Hm'); try done.
    exists q, pre, it, post. split; [|done]. congruence.
  - exfalso. by eapply search_missing.
Qed.

Lemma search_absent s logs m pHdr id :
  0 <= actPage (nvHandle s) < NVOCMP_size s → items_ok s logs →
  entries logs (store_pages s) ≡ₚ map_to_list m → names pHdr id → valid_id id →
  m !! id_key id = None → search_id s logs pHdr = None.
Proof.
  intros Ha Hok E Hn Hv Hm. destruct (search_id s logs pHdr) as [[[q pre] it]|] eqn:Es; [|done].
  destruct (search_found s logs m pHdr id q pre it) as (post&v'&L&Hm'); try done. congruence.
Qed.

Lemma find_present s logs m pHdr id v :
  represents s logs m → names pHdr id → valid_id id → m !! id_key id = Some v →
  ∃ q pre it post, located s logs (id_key id) v q pre it post ∧
    from_active pHdr s = Ret (NVINTF_SUCCESS, expanded q (header_ofs pre it) it, []) s.
Proof.
  intros (R&E&_) Hn Hv Hm.
  destruct (search_present s logs m pHdr id v (ring_act _ _ R) (ring_items_ok s logs R) E Hn Hv Hm)
    as (q&pre&it&post&L&Es).
  exists q, pre, it, post. split; [done|]. unfold from_active.
  rewrite (findItem_spec s logs) by (done || by vm_compute). unfold search_id in Es. by rewrite Es.
Qed.

Lemma find_absent s logs m pHdr id :
  represents s logs m → names pHdr id → valid_id id → m !! id_key id = None →
  from_active pHdr s = Ret (NVINTF_NOTFOUND, set_found (ih_hpage pHdr) 0 pHdr, []) s.
Proof.
  intros (R&E&_) Hn Hv Hm.
  pose proof (search_absent s logs m pHdr id (ring_act _ _ R) (ring_items_ok s logs R) E Hn Hv Hm) as Es.
  unfold from_active. rewrite (findItem_spec s logs) by (done || by vm_compute).
  unfold search_id in Es. by rewrite Es.
Qed.

(** ** Reading a located item *)

(** The bytes of a located item on its page. *)
Lemma located_page s logs k v q pre it post :
  ring s logs → located s logs k v q pre it post →
  ∃ A B, page_bytes s q = A ++ (it_data it ++ item_header it) ++ B ∧
    Z.of_nat (length A) = NVOCMP_PGDATAOFS + log_size pre ∧
    NVOCMP_PGDATAOFS + log_size pre + item_size it <= FLASH_PAGE_SIZE.
Proof.
  intros R (Hq&Ht&El&_). destruct (ring_page _ _ R q Hq Ht) as (hdr&rest&pi&Hlog&_).
  pose proof (page_log_size _ _ _ _ _ Hlog) as Hsz. destruct Hlog as (Hh&_&Hb).
  rewrite El in *. exists (hdr ++ log_bytes pre), (log_bytes post ++ rest). split_and!.
  - rewrite Hb, log_bytes_app, log_bytes_cons. fold (item_bytes it). by rewrite <- !app_assoc.
  - rewrite length_app, Hh. unfold log_size. change NVOCMP_PGDATAOFS with 16. lia.
  - rewrite log_size_app, log_size_cons in Hsz. pose proof (log_size_nonneg post).
    change NVOCMP_PGDATAOFS with 16. change FLASH_PAGE_SIZE with 2048. lia.
Qed.

(** Outcome of reading [len] bytes at [ofs] of the value [v]. *)
Definition read_value (v : list Z) (ofs len : Z) : Z * list Z :=
  if ofs + len <=? Z.of_nat (length v) then
    (NVINTF_SUCCESS, take (Z.to_nat len) (drop (Z.to_nat ofs) v))
  else (if Z.of_nat (length v) <? len then NVINTF_BADLENGTH else NVINTF_BADOFFSET, []).

Context `{!CrcLaws}.

(** The CRC of an item in the log is accepted. *)
Lemma located_crc s logs k v q pre it post :
  ring s logs → located s logs k v q pre it post →
  NVOCMP_verifyCRC (NVOCMP_PGDATAOFS + log_size pre) (it_len it) (it_crc it) q s = Ret NVINTF_SUCCESS s.
Proof.
  intros R L. destruct (located_page _ _ _ _ _ _ _ _ R L) as (A&B&Hb&Hl&Hsz).
  destruct L as (Hq&Ht&El&Hlive&_&_&Hok). unfold item_size in Hsz.
  assert (0 <= it_len it) by (unfold it_len; lia).
  pose proof (log_size_nonneg pre). change NVOCMP_PGDATAOFS with 16 in *.
  change FLASH_PAGE_SIZE with 2048 in Hsz. change NVOCMP_ITEMHDRLEN with 7 in Hsz.
  rewrite (verifyCRC_spec s q _ it); [by rewrite Z.eqb_refl|done|lia|lia|..].
  - eapply in_region_page; try done; try lia. change FLASH_PAGE_SIZE with 2048. lia.
  - assert (Eh : item_header it = take 4 (it_ids it) ++ drop 4 (item_header it)).
    { unfold item_header. rewrite Hlive. done. }
    rewrite Eh, (app_assoc (it_data it)), <- (app_assoc (it_data it ++ _)) in Hb.
    rewrite <- Hl, addr_eq, <- (Z.add_0_r (q * 2048)), <- addr_eq.
    replace (it_len it + 4) with (Z.of_nat (length (it_data it ++ take 4 (it_ids it)))).
    + by rewrite (region_sub _ _ _ _ _ _ Hb).
    + rewrite length_app. unfold it_len. simpl. lia.
Qed.

Lemma readItem_spec s logs k v q pre it post ofs len :
  ring s logs → located s logs k v q pre it post →
  0 <= ofs <= 0xF800 → 0 <= len →
  NVOCMP_readItem (expanded q (header_ofs pre it) it) ofs len s = Ret (read_value v ofs len) s.
Proof.
  intros R L Ho Hlen. assert (HC := located_crc _ _ _ _ _ _ _ _ R L).
  destruct (located_page _ _ _ _ _ _ _ _ R L) as (A&B&Hb&Hl&Hsz).
  destruct L as (Hq&Ht&El&Hlive&_&<-&Hok). unfold item_size in Hsz.
  assert (0 <= it_len it) by (unfold it_len; lia). pose proof (log_size_nonneg pre).
  change NVOCMP_PGDATAOFS with 16 in *. change FLASH_PAGE_SIZE with 2048 in *.
  change NVOCMP_ITEMHDRLEN with 7 in Hsz.
  unfold NVOCMP_readItem, read_value. simpl. fold (it_len it). unfold header_ofs.
  change NVOCMP_PGDATAOFS with 16.
  replace (16 + log_size pre + it_len it - it_len it) with (16 + log_size pre) by lia.
  rewrite !(u16_id (16 + log_size pre)) by (unfold in_u16; lia). nvbind HC. rewrite Z.eqb_refl.
  rewrite u16_id by (unfold in_u16; lia).
  destruct (Z.leb_spec (ofs + len) (it_len it)) as [Hfit|Hbig];
    destruct (Z.leb_spec (16 + log_size pre + ofs + len) (16 + log_size pre + it_len it)); try lia; [|done].
  set (D := it_data it) in *.
  assert (ED : D = take (Z.to_nat ofs) D ++ take (Z.to_nat len) (drop (Z.to_nat ofs) D) ++
                   drop (Z.to_nat len) (drop (Z.to_nat ofs) D)) by by rewrite !take_drop.
  rewrite ED in Hb. rewrite <- !app_assoc in Hb. rewrite app_assoc in Hb.
  assert (HR := page_read s q _ _ _ (ring_in_region s logs q R Hq) Hb).
  unfold it_len in *. fold D in Hfit, Hsz. rewrite !length_app, length_take, length_take, length_drop in HR.
  replace (Z.of_nat (length A + Z.to_nat ofs `min` length D)) with (16 + log_size pre + ofs) in HR by lia.
  replace (Z.of_nat (Z.to_nat len `min` (length D - Z.to_nat ofs))) with len in HR by lia.
  by nvbind HR.
Qed.
End Store.
