(* ===== verification/NvDevice.v ===== *)
(** * NV driver: a concrete flash device

    A NOR flash of three pages with read-back verification, a CRC-8 and a choice of
    status codes: they satisfy the laws of NvFlash.v, so the theorems of the driver
    apply to a device that can be run. *)

From S2P Require Import Prelude.
From S2P Require Import NvTypes.
From S2P Require Import NvOps.
From S2P Require Import NvCompact.
From S2P Require Import NvItems.
From S2P Require Import NvApi.
From S2P Require Import NvFlash.
From S2P Require Import NvLog.
From S2P Require Import NvFind.
From S2P Require Import NvPages.
From S2P Require Import NvWrite.
From S2P Require Import NvStore.

(** ** Status codes *)

Definition nor_codes : NvCodes := {|
  NVINTF_SUCCESS := 0; NVINTF_FAILURE := 1; NVINTF_CORRUPT := 2; NVINTF_NOTREADY := 3;
  NVINTF_BADPARAM := 4; NVINTF_BADLENGTH := 5; NVINTF_BADOFFSET := 6; NVINTF_BADITEMID := 7;
  NVINTF_BADSUBID := 8; NVINTF_BADSYSID := 9; NVINTF_NOTFOUND := 10; NVINTF_LOWPOWER := 11;
  NVINTF_BADVERSION := 12; NVINTF_EXIST := 13;
  NVINTF_DOSTART := 0x40; NVINTF_DOFIND := 0x20; NVINTF_DOREAD := 0x10; NVINTF_DODELETE := 0x08;
  NVINTF_DOSYSID := 0x04; NVINTF_DOITMID := 0x02; NVINTF_DOANYID := 0x01;
  NVINTF_SYSID_NVDRVR := 1 |}.

Lemma nor_codes_ok : @NvCodesOk nor_codes.
Proof.
  split; [done| |].
  - repeat (apply Forall_cons; split; [done|]). by constructor.
  - apply (bool_decide_unpack _). by vm_compute.
Qed.

(** ** Flash cells *)

(** An absent cell is erased. *)
Definition cell (d : gmap Z Z) (a : Z) : Z := u8 (default 255 (d !! a)).

(** Program [buf] at [a]; bits can only be cleared. *)
Fixpoint program (d : gmap Z Z) (a : Z) (buf : list Z) : gmap Z Z :=
  match buf with
  | [] => d
  | b :: buf' => program (<[a := Z.land b (cell d a)]> d) (a + 1) buf'
  end.

Fixpoint wipe (d : gmap Z Z) (a : Z) (n : nat) : gmap Z Z :=
  match n with
  | O => d
  | S n' => wipe (delete a d) (a + 1) n'
  end.

Definition crc8_bit (c : Z) : Z :=
  if Z.testbit c 7 then Z.lxor (u8 (2 * c)) 0x07 else u8 (2 * c).
Definition crc8_byte (c b : Z) : Z := u8 (Nat.iter 8 crc8_bit (Z.lxor c b)).

Definition nor_flash : Nvs := {|
  dev := gmap Z Z;
  NVS_read d ofs len := region (cell d) ofs len;
  NVS_write d ofs buf :=
    let d' := program d ofs buf in
    (if bool_decide (region (cell d') ofs (Z.of_nat (length buf)) = buf) then 0 else -1, d');
  NVS_erase d ofs n := (0, wipe d ofs (Z.to_nat n));
  NVOCMP_voltCheckFptr _ := None;
  NVS_sectorSize := 2048;
  NVS_regionSize := 3 * 2048;
  crc_update c l := fold_left crc8_byte l c |}.

Lemma program_out d a buf x :
  (x < a ∨ a + Z.of_nat (length buf) <= x) → cell (program d a buf) x = cell d x.
Proof.
  revert d a. induction buf as [|b buf IH]; intros d a Hx; [done|]. simpl in *.
  rewrite IH by lia. unfold cell. rewrite lookup_insert_ne by lia. done.
Qed.

(** A program operation whose read-back verifies stored the buffer. *)
Lemma program_verified d a buf x :
  region (cell (program d a buf)) a (Z.of_nat (length buf)) = buf →
  cell (program d a buf) x = upd (cell d) a buf x.
Proof.
  intros E. unfold upd. destruct (Z.leb_spec a x), (Z.ltb_spec x (a + Z.of_nat (length buf))); simpl;
    try (rewrite program_out by lia; done).
  set (i := Z.to_nat (x - a)). assert (E' := f_equal (lookup i) E).
  rewrite region_lookup in E' by lia. replace (a + Z.of_nat i) with x in E' by lia.
  symmetry in E'. by rewrite (nth_lookup_Some _ _ _ _ E').
Qed.

(** Programming cells that only need bits cleared stores the buffer. *)
Lemma program_clears d a buf :
  programmable (region (cell d) a (Z.of_nat (length buf))) buf →
  region (cell (program d a buf)) a (Z.of_nat (length buf)) = buf.
Proof.
  revert d a. induction buf as [|b buf IH]; intros d a Hp; [done|].
  simpl length in *. replace (Z.of_nat (S (length buf))) with (1 + Z.of_nat (length buf)) in * by lia.
  rewrite region_split, region_one in Hp |- * by lia. apply Forall2_cons in Hp as [[Hb Hl] Hp].
  simpl. rewrite program_out by lia. unfold cell at 1. rewrite lookup_insert_eq. simpl.
  rewrite Hl, u8_id by done. f_equal. apply IH.
  erewrite region_ext; [exact Hp|]. intros x Hx. unfold cell. by rewrite lookup_insert_ne by lia.
Qed.

Lemma wipe_spec d a n x :
  cell (wipe d a n) x = upd (cell d) a (replicate n 255) x.
Proof.
  revert d a. induction n as [|n IH]; intros d a; simpl.
  - unfold upd. simpl length. destruct (Z.leb_spec a x), (Z.ltb_spec x (a + Z.of_nat 0)); simpl; done || lia.
  - rewrite IH. unfold upd. rewrite !length_replicate. simpl length. rewrite length_replicate.
    destruct (decide (x = a)) as [->|].
    + destruct (Z.leb_spec (a + 1) a); [lia|]. simpl.
      destruct (Z.leb_spec a a), (Z.ltb_spec a (a + Z.of_nat (S n))); simpl; try lia.
      rewrite Z.sub_diag. unfold cell. by rewrite lookup_delete_eq.
    + destruct (Z.leb_spec (a + 1) x), (Z.leb_spec a x), (Z.ltb_spec x (a + 1 + Z.of_nat n)),
        (Z.ltb_spec x (a + Z.of_nat (S n))); simpl; try lia;
        try (unfold cell; by rewrite lookup_delete_ne by lia).
      replace (Z.to_nat (x - a)) with (S (Z.to_nat (x - (a + 1)))) by lia. done.
Qed.

#[local] Existing Instance nor_codes.
#[local] Existing Instance nor_codes_ok.
#[local] Existing Instance nor_flash.

#[local] Instance nor_laws : @NvsLaws nor_flash.
Proof.
  refine (Build_NvsLaws nor_flash cell _ _ _ _ _).
  - intros d a. apply u8_range.
  - done.
  - intros d ofs buf st d' _ _ _ E Hst. injection E as <- <-.
    case_bool_decide as Hv; [|lia]. intros a. by apply program_verified.
  - intros d ofs n st d' _ _ _ E _ a. injection E as <- <-. apply wipe_spec.
  - done.
Defined.

#[local] Instance nor_reliable : @NvsReliable nor_flash nor_laws.
Proof.
  split.
  - intros d ofs buf _ _ Hp. simpl. rewrite bool_decide_eq_true_2; [done|]. by apply program_clears.
  - done.
  - intros d. by left.
Qed.

#[local] Instance nor_crc : @CrcLaws nor_flash.
Proof.
  split.
  - intros c l Hc. simpl. revert c Hc. induction l as [|b l IH]; intros c Hc; [done|].
    simpl. apply IH, u8_range.
  - intros c l1 l2. simpl. by rewrite fold_left_app.
Qed.

(** ** A driver on this device *)

Definition powered_on (d : gmap Z Z) : drv :=
  mkDrv nor_flash zero_handle NVINTF_NOTREADY NVINTF_SUCCESS 0 NVOCMP_NORMAL_INIT
    (mkDoNext doFind 0 0 FLASH_PAGE_SIZE 0 (-1) 0xFF) d.

(** The state a run ends in, and the value it returns. *)
Definition after {A} (m : M A) (s : drv) : drv := match m s with Ret _ s' => s' | Fault _ => s end.
Definition result {A} (m : M A) (s : drv) : option A :=
  match m s with Ret a _ => Some a | Fault _ => None end.

(** The driver initialised on a blank device. *)
Definition fresh : drv := Eval vm_compute in after NVOCMP_initNvApi (powered_on ∅).

(** The bytes of a page that holds no item. *)
Definition empty_page (pi : NVOCMP_pageInfo_t) : list Z :=
  encode_pageHdr (mkPageHdr (pi_state pi) (pi_cycle pi) (pi_allActive pi) NVOCMP_VERSION NVOCMP_SIGNATURE) ++
  [255; 255; 255; 0x96; 255; 255; 255; 0x96; 255; 255; 255; 0x96].

Lemma item_page_ok s p pi log n :
  pageInfo (nvHandle s) !! Z.to_nat p = Some pi →
  page_bytes s p = empty_page pi ++ log_bytes log ++ replicate n 255 →
  Forall item_ok log → pi_offset pi = 16 + log_size log →
  0 <= pi_cycle pi < 256 → 0 <= pi_allActive pi < 4 → pi_state pi ∈ stored_states →
  page_ok s p log.
Proof.
  intros Hi Hb Hok Ho Hc Ha Hs. exists (empty_page pi), (replicate n 255), pi.
  split_and!; [by split_and!|done|done| |].
  - eexists. split; [reflexivity|]. split_and!; try done; try lia; [|by left].
    repeat (apply Forall_cons; split; [by vm_compute|]). by constructor.
  - intros _. by apply Forall_replicate.
Qed.

Lemma stored_state_dec st : existsb (Z.eqb st) stored_states = true → st ∈ stored_states.
Proof.
  intros (x&Hx&E%Z.eqb_eq)%existsb_exists. subst. by apply list_elem_of_In.
Qed.

(** The two pages in use and the compaction target of the device, checked one
    by one. *)
Lemma device_ring s logs :
  NVOCMP_size s = 3 → length (pageInfo (nvHandle s)) = Z.to_nat NVOCMP_NVPAGES →
  actPage (nvHandle s) = 0 → tailPage (nvHandle s) = 2 →
  actOffset (nvHandle s) = NVOCMP_PGDATAOFS + log_size (logs 0) →
  page_ok s 0 (logs 0) → page_ok s 1 (logs 1) →
  (∃ pi, pageInfo (nvHandle s) !! 0%nat = Some pi ∧ pi_state pi ≠ NVOCMP_PGNACT) →
  (∃ pi, pageInfo (nvHandle s) !! 1%nat = Some pi ∧ pi_state pi = NVOCMP_PGNACT) → logs 1 = [] →
  target_ok (page_bytes s 2) → ring s logs.
Proof.
  intros Hz Hl Ha Ht Ho P0 P1 (i0&E0&S0) (i1&E1&S1) L1 T.
  assert (∀ p, 0 <= p < 3 → p ≠ 2 → p = 0 ∨ p = 1) as H01 by lia.
  split; rewrite ?Hz, ?Ha, ?Ht; try done.
  - intros p Hp Hn. by destruct (H01 p Hp Hn) as [->| ->].
  - intros p pi. rewrite Hz, Ha, Ht. intros Hp Hn Hi.
    destruct (H01 p Hp Hn) as [->| ->].
    + change (Z.to_nat 0) with 0%nat in Hi. simplify_eq. by rewrite decide_True.
    + change (Z.to_nat 1) with 1%nat in Hi. simplify_eq. rewrite decide_False by done. by left.
Qed.

Lemma fresh_is_ring : ring fresh (λ _, []).
Proof.
  apply device_ring; try done.
  1,2: eapply (item_page_ok _ _ _ [] 2032); [vm_compute; reflexivity|vm_compute; reflexivity|by constructor|
    vm_compute; reflexivity|by vm_compute|by vm_compute|by apply stored_state_dec].
  - by eexists.
  - by eexists.
  - exists 1, 3. eexists. split; [vm_compute; reflexivity|by vm_compute].
Qed.

(** After the initialisation of a blank device no item is stored. *)
Lemma fresh_store : store fresh ∅.
Proof. split; [|done]. exists (λ _, []). split; [apply fresh_is_ring|]. split; [by vm_compute|]. split; [done|by left]. Qed.

Lemma fresh_room len : 0 <= len <= 2032 → room fresh len.
Proof.
  intros Hl. exists 0. split; [done|]. split; [done|]. eexists. split; [reflexivity|].
  split; [done|]. simpl. change FLASH_PAGE_SIZE with 2048. lia.
Qed.

(** A driver that stores one item, written through the API. *)
Definition demo_id : NVINTF_itemID_t := mkItemID 3 5 7.
Definition demo_item : item := mkItem 3 5 7 [10; 20; 30] true.
Definition loaded : drv :=
  Eval vm_compute in after (NVOCMP_writeItemApi demo_id 3 (Some [10; 20; 30])) fresh.
Definition demo_logs (p : Z) : list item := if p =? 0 then [demo_item] else [].

Lemma loaded_is_ring : ring loaded demo_logs.
Proof.
  apply device_ring; try done.
  - eapply (item_page_ok _ _ _ [demo_item] 2022); [vm_compute; reflexivity|vm_compute; reflexivity| |
      vm_compute; reflexivity|by vm_compute|by vm_compute|by apply stored_state_dec].
    apply Forall_singleton. unfold item_ok. simpl. split_and!; try done.
    repeat (apply Forall_cons; split; [done|]). by constructor.
  - eapply (item_page_ok _ _ _ [] 2032); [vm_compute; reflexivity|vm_compute; reflexivity|by constructor|
      vm_compute; reflexivity|by vm_compute|by vm_compute|by apply stored_state_dec].
  - by eexists.
  - by eexists.
  - exists 1, 3. eexists. split; [vm_compute; reflexivity|by vm_compute].
Qed.

Lemma loaded_store : store loaded {[ (3, 5, 7) := [10; 20; 30] ]}.
Proof. split; [|done]. exists demo_logs. split; [apply loaded_is_ring|]. split; [by vm_compute|].
  split; [by intros it [= <-]|by right].
Qed.

Lemma loaded_room len : 0 <= len <= 2022 → room loaded len.
Proof.
  intros Hl. exists 0. split; [done|]. split; [done|]. eexists. split; [reflexivity|].
  split; [done|]. simpl. change FLASH_PAGE_SIZE with 2048. lia.
Qed.

Lemma demo_valid : valid_id demo_id.
Proof. by vm_compute. Qed.

Lemma demo_buffer l : forallb (λ b, (0 <=? b) && (b <? 256)) l = true → is_bytes l.
Proof.
  rewrite forallb_forall. intros Hf. apply Forall_forall. intros b Hb.
  apply list_elem_of_In in Hb. apply Hf in Hb. unfold in_u8. zbool. lia.
Qed.
