(* ===== verification/NvKv.v ===== *)
(** * NV driver: the API implements a map

    Refinement of the item API of nvocmp.c to finite maps from identifiers to
    values, on a working flash device. *)

From S2P Require Import Prelude.
From S2P Require Import NvTypes.
From S2P Require Import NvOps.
From S2P Require Import NvCompact.
From S2P Require Import NvItems.
From S2P Require Import NvApi.
From S2P Require Import NvFlash.
From S2P Require Import NvLog.
From S2P Require Import NvFind.
From S2P Require Import NvPages.
From S2P Require Import NvWrite.
From S2P Require Import NvStore.
From S2P Require Import NvDevice.

Lemma block_eq (D P : list Z) (d n : nat) :
  take n (drop d D) = take n (drop d P) → (d + n <= length D)%nat →
  (drop d D = take (length D - d) (drop d P) ↔
   drop (d + n) D = take (length D - (d + n)) (drop (d + n) P)).
Proof.
  intros E Hl. rewrite <- !drop_drop.
  rewrite <- (take_drop n (drop d D)) at 1. rewrite <- (take_drop n (drop d P)) at 1.
  assert (Hn : length (take n (drop d P)) = n).
  { rewrite <- E, length_take, length_drop. lia. }
  rewrite take_app, Hn, E. rewrite (take_ge (take n (drop d P))) by lia.
  replace (length D - d - n)%nat with (length D - (d + n))%nat by lia.
  split; [by intros ?%app_inv_head|by intros ->].
Qed.

#[local] Opaque NVOCMP_findItem NVOCMP_writeItem data_changed.

Section Kv.
Context `{NvCodesOk} `{NvsLaws} `{!NvsReliable} `{!CrcLaws}.
Implicit Types (s : drv) (m : gmap (Z * Z * Z) (list Z)).

(** ** Unchanged data *)

(** The comparison in blocks compares the whole area with the buffer. *)
Lemma data_changed_spec fuel s q iOfs (D pBuf : list Z) (d : nat) :
  let len := Z.of_nat (length D) in
  0 <= iOfs → iOfs + len < 65536 → in_region q iOfs len →
  region (mem (flash s)) (addr q iOfs) len = D →
  (d < length D)%nat → (length D - d <= fuel)%nat →
  data_changed fuel q iOfs (Z.of_nat d) len pBuf s =
  Ret (negb (bool_decide (drop d D = take (length D - d) (drop d pBuf)))) s.
Proof.
  intros len Hi Hlim Hr HD. unfold len in *. clear len. revert d. induction fuel as [|fuel IH]; intros d Hd Hf; [lia|].
  cbn [data_changed]. cbv zeta.
  assert (Hn : ∃ n, (0 < n)%nat ∧ (d + n <= length D)%nat ∧
    (if NVOCMP_COMPARE_SIZE <? Z.of_nat (length D) - Z.of_nat d then NVOCMP_COMPARE_SIZE
     else Z.of_nat (length D) - Z.of_nat d) = Z.of_nat n).
  { unfold NVOCMP_COMPARE_SIZE. destruct (Z.ltb_spec 32 (Z.of_nat (length D) - Z.of_nat d)).
    - exists 32%nat. lia.
    - exists (length D - d)%nat. lia. }
  destruct Hn as (n&Hn0&Hn1&->). unfold in_region in Hr. rewrite addr_eq in Hr.
  rewrite (u16_id (iOfs + Z.of_nat d)) by (unfold in_u16; lia).
  assert (ER : NVOCMP_read q (iOfs + Z.of_nat d) (Z.of_nat n) s = Ret (take n (drop d D)) s).
  { rewrite read_spec by (unfold in_region; rewrite addr_eq; lia). f_equal.
    assert (ED : region (mem (flash s)) (addr q iOfs) (Z.of_nat (length D)) =
                 take d D ++ take n (drop d D) ++ drop n (drop d D)) by (rewrite HD, !take_drop; done).
    apply region_sub in ED. rewrite !length_take, length_drop in ED.
    replace (Z.of_nat (n `min` (length D - d))) with (Z.of_nat n) in ED by lia.
    replace (Z.of_nat (d `min` length D)) with (Z.of_nat d) in ED by lia.
    rewrite addr_eq in *. by rewrite Z.add_assoc. }
  nvbind ER. rewrite !Nat2Z.id. case_bool_decide as Eb.
  - pose proof (block_eq D pBuf d n Eb ltac:(lia)) as Hiff. rewrite <- Nat2Z.inj_add.
    destruct (Z.ltb_spec (Z.of_nat (d + n)) (Z.of_nat (length D))) as [Hlt|Hge].
    + rewrite IH by lia. f_equal. f_equal. by apply bool_decide_ext.
    + unfold mpure. rewrite bool_decide_eq_true_2; [done|]. apply Hiff.
      rewrite drop_ge, (proj2 (Nat.sub_0_le _ _)) by lia. done.
  - unfold mpure. rewrite bool_decide_eq_false_2; [done|]. intros Heq. apply Eb.
    rewrite Heq, take_take. f_equal. lia.
Qed.

(** ** States that represent the same map *)

Lemma ring_flash s logs d :
  (∀ a, mem d a = mem (flash s) a) → ring s logs → ring (set_flash d s) logs.
Proof.
  intros E [? ? ? ? ? ? Hp ? ? Ht]. split; try done.
  - intros p Hq Hne. destruct (Hp p Hq Hne) as (hdr&rest&pi&Hl&Hr). exists hdr, rest, pi.
    split; [|done]. by rewrite (page_bytes_ext s (set_flash d s) p E).
  - by rewrite (page_bytes_ext s (set_flash d s) _ E).
Qed.

Lemma represents_flash s logs m d :
  (∀ a, mem d a = mem (flash s) a) → represents s logs m → represents (set_flash d s) logs m.
Proof. intros E [R P]. split; [by apply ring_flash|done]. Qed.

Lemma represents_same_ring s s' logs m len :
  represents s logs m → ring s' logs → same_ring s s' → moved s s' logs → has_room s' logs len →
  represents s' logs m.
Proof.
  intros (_&P&Q&_) R S Hm Hr. split; [done|]. split_and!.
  - by rewrite (store_pages_same s s' (sr_size _ _ S) (sr_tail _ _ S)).
  - intros it. destruct Hm as [-> | ->]; [apply Q|done].
  - right. by eapply has_room_state.
Qed.

(** A log whose last item is live is settled. *)
Lemma settled_live s logs m pre it :
  logs (actPage (nvHandle s)) = pre ++ [it] → it_live it = true → settled s logs m.
Proof. intros E Hl it'. rewrite E, last_snoc. intros [= <-]. congruence. Qed.

Lemma act_in_store_pages s logs : ring s logs → actPage (nvHandle s) ∈ store_pages s.
Proof. intros R. apply store_pages_elem. split; apply R. Qed.

(** A value that is new, or that replaced a retired one. *)
Lemma entries_insert_new (l : list (Z * Z * Z * list Z)) m k v :
  m !! k = None → l ≡ₚ (k, v) :: map_to_list m → l ≡ₚ map_to_list (<[k := v]> m).
Proof. intros Hm ->. by rewrite map_to_list_insert. Qed.

Lemma entries_insert_old (l l' : list (Z * Z * Z * list Z)) m k v old :
  m !! k = Some old → l ≡ₚ (k, v) :: map_to_list m → l ≡ₚ (k, old) :: l' →
  l' ≡ₚ map_to_list (<[k := v]> m).
Proof.
  intros Hm E E'. apply (Permutation_cons_inv (a := (k, old))). rewrite <- E', E.
  rewrite <- (map_to_list_delete m k old Hm), <- insert_delete_eq.
  rewrite (map_to_list_insert (delete k m)) by apply lookup_delete_eq. apply perm_swap.
Qed.

Lemma entries_delete (l l' : list (Z * Z * Z * list Z)) m k old :
  m !! k = Some old → l ≡ₚ map_to_list m → l ≡ₚ (k, old) :: l' → l' ≡ₚ map_to_list (delete k m).
Proof.
  intros Hm E E'. apply (Permutation_cons_inv (a := (k, old))). rewrite <- E', E.
  by rewrite map_to_list_delete.
Qed.

(** ** Writing or keeping an item *)

(** The end of [NVOCMP_addItem]: skip the write when the data is the same. *)
Definition store_item (iHdr : NVOCMP_itemHdr_t) (pBuf : list Z) : M (Z * NVOCMP_itemHdr_t) :=
  changed <- (if ctrue (ih_hofs iHdr) && ctrue (ih_len iHdr) then
                data_changed (Z.to_nat (ih_len iHdr)) (ih_hpage iHdr)
                  (u16 (ih_hofs iHdr - ih_len iHdr)) 0 (ih_len iHdr) pBuf
              else mpure true) ;
  act <- geth actPage ;
  actOfs <- geth actOffset ;
  iHdr <- (if (changed : bool) then NVOCMP_writeItem iHdr act actOfs pBuf ;; mpure iHdr
           else mpure (set_found (ih_hpage iHdr) 0 iHdr)) ;
  failW <- gets NVOCMP_failW ;
  mpure (failW, iHdr).

(** What an append to the active page gives. *)
Definition appended s logs it s' : Prop :=
  ring s' (<[actPage (nvHandle s) := logs (actPage (nvHandle s)) ++ [it]]> logs) ∧
  NVOCMP_size s' = NVOCMP_size s ∧ tailPage (nvHandle s') = tailPage (nvHandle s) ∧
  NVOCMP_failF s' = NVOCMP_failF s ∧ NVOCMP_failW s' = NVINTF_SUCCESS ∧
  actPage (nvHandle s') = actPage (nvHandle s) ∧ act_state s' = Some NVOCMP_PGACT.

(** The arguments describe an item that fits the active page. *)
Definition fits s logs iHdr pBuf : Prop :=
  let it := item_of iHdr pBuf in
  item_ok it ∧ it_len it = ih_len iHdr ∧ has_room s logs (item_size it).

Lemma write_appends s logs iHdr pBuf :
  ring s logs → fits s logs iHdr pBuf →
  ∃ s', NVOCMP_writeItem iHdr (actPage (nvHandle s)) (actOffset (nvHandle s)) pBuf s = Ret tt s' ∧
    appended s logs (item_of iHdr pBuf) s'.
Proof.
  intros R (Hok&Hl&Hroom). destruct (writeItem_spec s logs iHdr pBuf R Hroom Hok Hl) as (s'&E&R'&O&Hf&Ha&Hst).
  exists s'. split; [done|]. destruct O. split_and!; try done.
  rewrite Hst. by eapply has_room_state.
Qed.

Lemma store_item_new s logs iHdr pBuf :
  ring s logs → fits s logs iHdr pBuf → ih_hofs iHdr = 0 →
  ∃ s', store_item iHdr pBuf s = Ret (NVINTF_SUCCESS, iHdr) s' ∧ appended s logs (item_of iHdr pBuf) s'.
Proof.
  intros R F H0'. destruct (write_appends s logs iHdr pBuf R F) as (s'&E&A).
  exists s'. split; [|done]. unfold store_item. rewrite H0'.
  change (ctrue 0 && ctrue (ih_len iHdr)) with false. cbv iota. nvget. nvget. nvget.
  assert (E' : (NVOCMP_writeItem iHdr (actPage (nvHandle s)) (actOffset (nvHandle s)) pBuf ;; mpure iHdr) s
               = Ret iHdr s') by by nvbind E.
  nvbind E'. nvget. unfold mpure. by destruct A as (_&_&_&_&->&_).
Qed.

Lemma header_ofs_pos pre it : 0 < header_ofs pre it.
Proof.
  unfold header_ofs, it_len. pose proof (log_size_nonneg pre). change NVOCMP_PGDATAOFS with 16. lia.
Qed.

(** The last bytes of the old value are compared with the new one. *)
Lemma data_changed_old s logs k v q pre it post iHdr pBuf :
  ring s logs → located s logs k v q pre it post → is_bytes pBuf →
  0 < ih_len iHdr <= it_len it → ih_hofs iHdr = header_ofs pre it →
  data_changed (Z.to_nat (ih_len iHdr)) q (u16 (ih_hofs iHdr - ih_len iHdr)) 0 (ih_len iHdr) pBuf s
  = Ret (negb (bool_decide (drop (length v - Z.to_nat (ih_len iHdr)) v = it_data (item_of iHdr pBuf)))) s.
Proof.
  intros R L Hby Hpos Hh.
  destruct (located_page _ _ _ _ _ _ _ _ R L) as (Ap&B&Hb&HA&Hsz).
  destruct L as (Hq&Ht&El&_&_&<-&Hok). pose proof (log_size_nonneg pre).
  set (skip := (length (it_data it) - Z.to_nat (ih_len iHdr))%nat).
  set (D := drop skip (it_data it)).
  assert (HD : Z.of_nat (length D) = ih_len iHdr) by (unfold D, skip, it_len in *; rewrite length_drop; lia).
  rewrite Hh, <- HD. unfold header_ofs.
  replace (NVOCMP_PGDATAOFS + log_size pre + it_len it - Z.of_nat (length D))
    with (NVOCMP_PGDATAOFS + log_size pre + Z.of_nat skip) by (unfold skip, it_len in *; lia).
  unfold item_size in Hsz. change NVOCMP_PGDATAOFS with 16 in *. change FLASH_PAGE_SIZE with 2048 in *.
  change NVOCMP_ITEMHDRLEN with 7 in *.
  assert (Hskip : Z.of_nat skip + Z.of_nat (length D) = it_len it)
    by (unfold D, skip, it_len in *; rewrite length_drop; lia).
  rewrite u16_id by (unfold in_u16; lia). rewrite Nat2Z.id.
  rewrite (data_changed_spec _ s q _ D pBuf 0); [|lia|lia| | |lia|lia].
  - rewrite Nat.sub_0_r, !drop_0. unfold item_of. simpl. rewrite <- HD. by rewrite Nat2Z.id.
  - eapply in_region_page; try done; try lia. change FLASH_PAGE_SIZE with 2048. lia.
  - rewrite <- app_assoc, <- (take_drop skip (it_data it)), <- app_assoc, app_assoc in Hb.
    apply region_sub in Hb. rewrite length_app, Nat2Z.inj_add, HA, length_take in Hb.
    replace (Z.of_nat (skip `min` length (it_data it))) with (Z.of_nat skip) in Hb by (unfold skip; lia).
    rewrite addr_eq, Z.add_0_r, <- addr_eq in Hb. exact Hb.
Qed.

Lemma store_item_old s logs k v q pre it post iHdr pBuf :
  ring s logs → located s logs k v q pre it post → fits s logs iHdr pBuf → is_bytes pBuf →
  0 < ih_len iHdr <= it_len it → ih_hofs iHdr = header_ofs pre it → ih_hpage iHdr = q →
  if bool_decide (drop (length v - Z.to_nat (ih_len iHdr)) v = it_data (item_of iHdr pBuf)) then
    store_item iHdr pBuf s = Ret (NVOCMP_failW s, set_found q 0 iHdr) s
  else
    ∃ s', store_item iHdr pBuf s = Ret (NVINTF_SUCCESS, iHdr) s' ∧ appended s logs (item_of iHdr pBuf) s'.
Proof.
  intros R L F Hby Hpos Hh Hp. destruct (write_appends s logs iHdr pBuf R F) as (s'&E&A).
  pose proof (data_changed_old s logs k v q pre it post iHdr pBuf R L Hby Hpos Hh) as Hdc.
  assert (Hc : ctrue (ih_hofs iHdr) && ctrue (ih_len iHdr) = true).
  { rewrite Hh. pose proof (header_ofs_pos pre it). unfold ctrue.
    apply andb_true_iff. split; apply negb_true_iff, Z.eqb_neq; lia. }
  unfold store_item. rewrite Hc, Hp. nvbind Hdc. nvget. nvget.
  case_bool_decide; simpl negb; cbv iota.
  - nvget. nvget. done.
  - exists s'. split; [|done].
    assert (E' : (NVOCMP_writeItem iHdr (actPage (nvHandle s)) (actOffset (nvHandle s)) pBuf ;; mpure iHdr) s
                 = Ret iHdr s') by by nvbind E.
    nvbind E'. nvget. unfold mpure. by destruct A as (_&_&_&_&->&_).
Qed.

(** ** Parameter check and search *)

Definition checked (id : NVINTF_itemID_t) (len : Z) : NVOCMP_itemHdr_t :=
  mkItemHdr (NVOCMP_CMPRID (systemID id) (itemID id) (subID id))
    (subID id) (itemID id) (systemID id) 0 NVOCMP_SIGNATURE 0 0 len 0.

Lemma success_not_failure c : c ∈ nv_failures → NVINTF_SUCCESS ≠ c ∧ ctrue c = true.
Proof.
  intros Hc%failure_code. rewrite success_eq. split; [lia|].
  unfold ctrue. by destruct (Z.eqb_spec c 0); [lia|].
Qed.

Lemma checkItem_ok s id len :
  valid_id id → 0 <= len <= NVOCMP_MAXLEN → NVOCMP_failF s = NVINTF_SUCCESS →
  NVOCMP_checkItem id len s = Ret (NVINTF_SUCCESS, checked id len) s.
Proof.
  intros (Hs&Hi&Hb) Hl Hf. unfold NVOCMP_checkItem. nvget. rewrite Hf. unfold mpure.
  destruct (success_not_failure NVINTF_NOTREADY) as [Hne _]; [set_solver|].
  repeat (zcase; [done || lia|]). done.
Qed.

Lemma checked_names id len : names (checked id len) id.
Proof. done. Qed.

Lemma find_current_eq s pHdr e h rb s' :
  from_active pHdr s = Ret (e, h, rb) s' → find_current pHdr s = Ret (e, h) s'.
Proof.
  intros E. unfold from_active in E. unfold find_current. nvget. nvget. by nvbind E.
Qed.

Lemma flashaccess_store s m :
  store s m → ∃ d, NVOCMP_FLASHACCESS s = Ret NVINTF_SUCCESS (set_flash d s) ∧ store (set_flash d s) m.
Proof.
  intros ((logs&Rp)&Hf). destruct (flashaccess_spec s) as (d&E&M). exists d. split; [done|].
  split; [|done]. exists logs. by apply represents_flash.
Qed.

(** ** Adding an item *)

Lemma addItem_eq s s1 r iHdr pBuf wm :
  0 <= ih_len iHdr <= NVOCMP_MAXLEN →
  NVOCMP_getDstPage (NVOCMP_ITEMHDRLEN + ih_len iHdr) s = Ret r s1 → r ≠ NVOCMP_NULLPAGE →
  NVOCMP_failW s1 = NVINTF_SUCCESS →
  NVOCMP_addItem iHdr pBuf wm s =
  (iHdr <- (match wm with
            | NVOCMP_WRITE =>
                r <- from_active (search_header iHdr) ;
                let '(_, hdr, _) := r in mpure (set_found (ih_hpage hdr) (ih_hofs hdr) iHdr)
            | _ => mpure iHdr
            end) ;
   store_item iHdr pBuf) s1.
Proof.
  intros Hl Eg Hr Hw. unfold NVOCMP_addItem. change NVOCMP_MAXLEN with 4095 in Hl.
  rewrite u16_id by (change NVOCMP_ITEMHDRLEN with 7; unfold in_u16; lia). nvbind Eg.
  destruct (Z.eqb_spec r NVOCMP_NULLPAGE) as [|_]; [done|]. nvget. nvget.
  destruct (Z.ltb_spec (NVOCMP_ITEMHDRLEN + ih_len iHdr) (NVOCMP_ITEMHDRLEN + ih_len iHdr)) as [|_]; [lia|].
  nvget. nvget. rewrite Hw, Z.eqb_refl. unfold from_active, store_item.
  destruct wm; unfold mthen; reflexivity.
Qed.

(** A buffer for an item of [len] bytes. *)
Definition buffer_ok (buf : list Z) (len : Z) : Prop := is_bytes buf ∧ len <= Z.of_nat (length buf).

Lemma item_of_ok id iHdr buf len :
  names iHdr id → ih_len iHdr = len → valid_id id → 0 <= len <= NVOCMP_MAXLEN → buffer_ok buf len →
  item_ok (item_of iHdr buf) ∧ it_len (item_of iHdr buf) = ih_len iHdr ∧
  item_size (item_of iHdr buf) = NVOCMP_ITEMHDRLEN + len ∧
  it_key (item_of iHdr buf) = id_key id ∧ it_data (item_of iHdr buf) = take (Z.to_nat len) buf.
Proof.
  intros (Es&Ei&Eb) El (?&?&?) Hl [Hby Hle]. unfold item_ok, item_size, it_len, it_key, id_key. simpl.
  rewrite Es, Ei, Eb, El, length_take.
  replace (Z.of_nat (Z.to_nat len `min` length buf)) with len by lia.
  split_and!; try done; try lia. by apply Forall_take.
Qed.

Lemma appended_entries s logs m it s' :
  represents s logs m → appended s logs it s' → it_live it = true →
  entries (<[actPage (nvHandle s) := logs (actPage (nvHandle s)) ++ [it]]> logs) (store_pages s')
  ≡ₚ (it_key it, it_data it) :: map_to_list m.
Proof.
  intros (R&P&_) (_&Es&Et&_) Hl. rewrite (store_pages_same s s' Es Et).
  rewrite entries_append; [by rewrite P|apply store_pages_NoDup|by eapply act_in_store_pages|done].
Qed.

Lemma appended_store s logs m it s' :
  represents s logs m → appended s logs it s' → it_live it = true → m !! it_key it = None →
  NVOCMP_failF s = NVINTF_SUCCESS → store s' (<[it_key it := it_data it]> m).
Proof.
  intros Rp A Hl Hm Hf. pose proof (appended_entries _ _ _ _ _ Rp A Hl) as P.
  destruct A as (R'&_&_&Ff&Fw&Ha&Hst). split; [|split; congruence].
  eexists. split; [exact R'|]. split_and!; [by apply entries_insert_new| |by right].
  eapply settled_live; [rewrite Ha; apply fn_lookup_insert|done].
Qed.

(** The old item is still where it was, so it can be retired. *)
Lemma inactive_replaced s logs m it s' k old q pre it0 post :
  represents s logs m → appended s logs it s' → it_live it = true → it_key it = k →
  m !! k = Some old → located s logs k old q pre it0 post →
  NVOCMP_failF s = NVINTF_SUCCESS →
  ∃ s'', NVOCMP_setItemInactive q (header_ofs pre it0) s' = Ret tt s'' ∧
    store s'' (<[k := it_data it]> m).
Proof.
  intros Rp A Hl <- Hm L Hf. pose proof (appended_entries _ _ _ _ _ Rp A Hl) as P.
  destruct A as (R'&Es&Et&Ff&Fw&Ha&Hst). destruct L as (Hq&Ht&El&Hl0&Hk0&Hd0&_).
  set (logs' := <[_ := _]> logs) in *.
  assert (El' : ∃ post', logs' q = pre ++ it0 :: post' ∧
    ∃ l, (<[q := pre ++ retired it0 :: post']> logs') (actPage (nvHandle s)) = l ++ [it]).
  { unfold logs'. destruct (decide (actPage (nvHandle s) = q)) as [<-|].
    - rewrite fn_lookup_insert, El. exists (post ++ [it]). split; [by rewrite <- app_assoc|].
      rewrite fn_lookup_insert. exists (pre ++ retired it0 :: post). by rewrite <- app_assoc.
    - rewrite fn_lookup_insert_ne by done. exists post. split; [done|].
      rewrite fn_lookup_insert_ne by done. rewrite fn_lookup_insert. by eexists. }
  destruct El' as (post'&El'&l&Elast).
  destruct (setItemInactive_spec s' logs' q pre it0 post' R') as (s''&E&R''&O&Fw'&Ha'&Hst'); try done.
  { by rewrite Es. }
  { by rewrite Et. }
  exists s''. split; [done|]. split; [|split; [rewrite (op_failF _ _ _ O); congruence|done]].
  eexists. split; [exact R''|].
  split_and!; [|eapply settled_live; [by rewrite Ha', Ha|done]|right; by rewrite Hst'].
  rewrite (store_pages_same s' s'') by apply O.
  eapply entries_insert_old; [exact Hm|exact P|].
  rewrite <- Hk0, <- Hd0. apply entries_retire; try done; [apply store_pages_NoDup|].
  apply store_pages_elem. by rewrite Es, Et.
Qed.

Lemma retire_replaced s logs m it s' k old q pre it0 post iHdr :
  represents s logs m → appended s logs it s' → it_live it = true → it_key it = k →
  m !! k = Some old → located s logs k old q pre it0 post →
  NVOCMP_failF s = NVINTF_SUCCESS →
  ih_hpage iHdr = q → ih_hofs iHdr = header_ofs pre it0 →
  ∃ s'', retire (NVINTF_SUCCESS, iHdr) s' = Ret NVINTF_SUCCESS s'' ∧
    store s'' (<[k := it_data it]> m).
Proof.
  intros Rp A Hl Hk Hm L Hf Hp Ho.
  destruct (inactive_replaced s logs m it s' k old q pre it0 post Rp A Hl Hk Hm L Hf) as (s''&E&St).
  exists s''. split; [|done]. unfold retire. rewrite Z.eqb_refl, Ho, Hp.
  rewrite (proj2 (Z.ltb_lt _ _) (header_ofs_pos pre it0)).
  change (true && true) with true. cbv iota. nvbind E. unfold gets. by destruct St as (_&_&->).
Qed.

(** ** Reading *)

Lemma find_current_present s logs m id len v :
  represents s logs m → valid_id id → m !! id_key id = Some v →
  ∃ q pre it post, located s logs (id_key id) v q pre it post ∧
    find_current (checked id len) s = Ret (NVINTF_SUCCESS, expanded q (header_ofs pre it) it) s.
Proof.
  intros Rp Hv Hm.
  destruct (find_present s logs m (checked id len) id v Rp (checked_names id len) Hv Hm)
    as (q&pre&it&post&L&E).
  exists q, pre, it, post. split; [done|]. by eapply find_current_eq.
Qed.

Lemma find_current_absent s logs m id pHdr :
  represents s logs m → valid_id id → names pHdr id → m !! id_key id = None →
  find_current pHdr s = Ret (NVINTF_NOTFOUND, set_found (ih_hpage pHdr) 0 pHdr) s.
Proof. intros Rp Hv Hn Hm. eapply find_current_eq. by eapply find_absent. Qed.

(** C24: On a driver that stores the map [m], and for offsets up to 0xF800, NVOCMP_readItemApi returns
    exactly the requested bytes of the value of the item, NVINTF_NOTFOUND when the item does not
    exist, and NVINTF_BADLENGTH or NVINTF_BADOFFSET when the bytes are not in the value; it does
    not change the driver. Beyond, the sum of offset and length wraps: see [read_offset_wraps]. *)
Theorem readItemApi_refines s m id ofs len buf :
  store s m → valid_id id → 0 < len <= NVOCMP_MAXLEN → 0 <= ofs <= 0xF800 →
  NVOCMP_readItemApi id ofs len (Some buf) s =
  Ret (match m !! id_key id with
       | Some v => read_value v ofs len
       | None => (NVINTF_NOTFOUND, [])
       end) s.
Proof.
  intros ((logs&Rp)&Hf&_) Hv Hl Ho. unfold NVOCMP_readItemApi.
  destruct (Z.eqb_spec len 0) as [|_]; [lia|].
  rewrite (mthen_ret _ _ _ _ _ (checkItem_ok s id len Hv ltac:(lia) Hf)). rewrite ctrue_success.
  destruct (m !! id_key id) as [v|] eqn:Em.
  - destruct (find_current_present s logs m id len v Rp Hv Em) as (q&pre&it&post&L&E).
    nvbind E. rewrite ctrue_success. eapply readItem_spec; [apply Rp|done|done|lia].
  - rewrite (mthen_ret _ _ _ _ _ (find_current_absent s logs m id _ Rp Hv (checked_names id len) Em)).
    destruct (success_not_failure NVINTF_NOTFOUND) as [_ ->]; [set_solver|done].
Qed.

(** NVOCMP_getItemLenApi returns the length of the stored value, 0 when the
    item does not exist. *)
Theorem getItemLenApi_refines s m id :
  store s m → valid_id id →
  NVOCMP_getItemLenApi id s =
  Ret (match m !! id_key id with Some v => Z.of_nat (length v) | None => 0 end) s.
Proof.
  intros ((logs&Rp)&Hf&_) Hv. unfold NVOCMP_getItemLenApi.
  rewrite (mthen_ret _ _ _ _ _ (checkItem_ok s id 0 Hv ltac:(done) Hf)). rewrite ctrue_success.
  destruct (m !! id_key id) as [v|] eqn:Em.
  - destruct (find_current_present s logs m id 0 v Rp Hv Em) as (q&pre&it&post&L&E).
    nvbind E. unfold mpure. simpl. rewrite Z.eqb_refl. destruct L as (_&_&_&_&_&<-&_). done.
  - rewrite (mthen_ret _ _ _ _ _ (find_current_absent s logs m id _ Rp Hv (checked_names id 0) Em)).
    destruct (success_not_failure NVINTF_NOTFOUND) as [Hne _]; [set_solver|].
    unfold mpure. simpl. destruct (Z.eqb_spec NVINTF_NOTFOUND NVINTF_SUCCESS); [congruence|done].
Qed.

(** ** Writing *)

Lemma room_flash s d len : room s len → room (set_flash d s) len.
Proof. done. Qed.

Lemma addItem_start s logs m iHdr pBuf wm id len :
  represents s logs m → NVOCMP_failF s = NVINTF_SUCCESS → NVOCMP_failW s = NVINTF_SUCCESS →
  names iHdr id → ih_len iHdr = len → valid_id id → 0 < len <= NVOCMP_MAXLEN → buffer_ok pBuf len →
  room s (NVOCMP_ITEMHDRLEN + len) →
  ∃ s1, represents s1 logs m ∧ same_ring s s1 ∧
    NVOCMP_failF s1 = NVINTF_SUCCESS ∧ NVOCMP_failW s1 = NVINTF_SUCCESS ∧
    (∀ iHdr', names iHdr' id → ih_len iHdr' = len → fits s1 logs iHdr' pBuf) ∧
    NVOCMP_addItem iHdr pBuf wm s =
    (iHdr <- (match wm with
              | NVOCMP_WRITE =>
                  r <- from_active (search_header iHdr) ;
                  let '(_, hdr, _) := r in mpure (set_found (ih_hpage hdr) (ih_hofs hdr) iHdr)
              | _ => mpure iHdr
              end) ;
     store_item iHdr pBuf) s1.
Proof.
  intros Rp Hf Hw Hn El Hv Hl Hbuf Hroom.
  destruct (getDstPage_spec s logs _ (proj1 Rp) Hroom) as (r&s1&Eg&Hr&R1&S1&Hmv&Hhas).
  assert (Hw1 : NVOCMP_failW s1 = NVINTF_SUCCESS) by by apply S1.
  exists s1. split_and!; [by eapply represents_same_ring|done|by rewrite (sr_failF _ _ S1)|done| |].
  - intros h Hn' El'. destruct (item_of_ok id h pBuf len Hn' El' Hv ltac:(lia) Hbuf) as (?&?&E3&_).
    split_and!; [done|done|]. by rewrite E3.
  - rewrite (addItem_eq s s1 r); try done; rewrite El; [lia|done].
Qed.

Lemma located_same_ring s s' logs k v q pre it post :
  same_ring s s' → located s logs k v q pre it post → located s' logs k v q pre it post.
Proof. intros S. unfold located. by rewrite (sr_size _ _ S), (sr_tail _ _ S). Qed.

(** Storing a value for an identifier that has none. *)
Lemma insert_item s logs m id len h buf :
  represents s logs m → NVOCMP_failF s = NVINTF_SUCCESS → names h id → ih_len h = len → ih_hofs h = 0 →
  valid_id id → 0 < len <= NVOCMP_MAXLEN → buffer_ok buf len → fits s logs h buf →
  m !! id_key id = None →
  ∃ s', store_item h buf s = Ret (NVINTF_SUCCESS, h) s' ∧
    store s' (<[id_key id := take (Z.to_nat len) buf]> m).
Proof.
  intros Rp Hf Hn El Hh Hv Hl Hbuf Hfit Em.
  destruct (item_of_ok id h buf len Hn El Hv ltac:(lia) Hbuf) as (_&_&_&Ek&Ed).
  destruct (store_item_new s logs h buf (proj1 Rp) Hfit Hh) as (s2&Es&A).
  exists s2. split; [done|]. rewrite <- Ek, <- Ed. rewrite <- Ek in Em. by eapply appended_store.
Qed.

(** The map after writing [new] over [old]: a value that the old one ends with is
    not stored. *)
Definition overwrite (m : gmap (Z * Z * Z) (list Z)) (k : Z * Z * Z) (old new : list Z) : gmap (Z * Z * Z) (list Z) :=
  if bool_decide (drop (length old - length new) old = new) then m else <[k := new]> m.

Lemma overwrite_same_length m k old new :
  m !! k = Some old → length old = length new → overwrite m k old new = <[k := new]> m.
Proof.
  intros Hm Hl. unfold overwrite. case_bool_decide as Hb; [|done].
  rewrite Hl, Nat.sub_diag, drop_0 in Hb. subst. by rewrite insert_id.
Qed.

(** Storing a value over an old one that is not shorter. *)
Lemma replace_item s logs m id len h buf old q pre it post :
  represents s logs m → NVOCMP_failF s = NVINTF_SUCCESS → NVOCMP_failW s = NVINTF_SUCCESS →
  names h id → ih_len h = len → ih_hofs h = header_ofs pre it → ih_hpage h = q →
  valid_id id → 0 < len <= NVOCMP_MAXLEN → buffer_ok buf len → fits s logs h buf →
  m !! id_key id = Some old → located s logs (id_key id) old q pre it post →
  len <= Z.of_nat (length old) →
  ∃ s', (a <- store_item h buf ; retire a) s = Ret NVINTF_SUCCESS s' ∧
    store s' (overwrite m (id_key id) old (take (Z.to_nat len) buf)).
Proof.
  intros Rp Hf Hw Hn El Hh Hp Hv Hl Hbuf Hfit Em L Hold.
  destruct (item_of_ok id h buf len Hn El Hv ltac:(lia) Hbuf) as (_&Eil&_&Ek&Ed).
  assert (Hlo : ih_len h <= it_len it).
  { destruct L as (_&_&_&_&_&Hd&_). unfold it_len. rewrite Hd. lia. }
  pose proof (store_item_old s logs _ old q pre it post h buf (proj1 Rp) L Hfit (proj1 Hbuf) ltac:(lia) Hh Hp) as Hs.
  rewrite Ed in Hs. assert (Elen : length (take (Z.to_nat len) buf) = Z.to_nat (ih_len h))
    by (rewrite length_take; destruct Hbuf; lia).
  unfold overwrite. rewrite Elen. case_bool_decide as Hb.
  - exists s. nvbind Hs. unfold retire. simpl. rewrite Hw, Z.eqb_refl.
    split; [done|]. split; [|done]. by exists logs.
  - destruct Hs as (s2&Es&A). nvbind Es. rewrite <- Ed.
    by eapply (retire_replaced s logs m (item_of h buf) s2 (id_key id) old).
Qed.

(** The search of [NVOCMP_addItem] for the item being replaced. *)
Lemma search_old s iHdr e h rb :
  from_active (search_header iHdr) s = Ret (e, h, rb) s →
  (r <- from_active (search_header iHdr) ;
   let '(_, hdr, _) := r in mpure (set_found (ih_hpage hdr) (ih_hofs hdr) iHdr)) s
  = Ret (set_found (ih_hpage h) (ih_hofs h) iHdr) s.
Proof. intros E. by nvbind E. Qed.

(** The beginning of [NVOCMP_writeItemApi], up to the choice of the page. *)
Lemma writeItemApi_start s m id len buf :
  store s m → valid_id id → 0 < len <= NVOCMP_MAXLEN → buffer_ok buf len →
  room s (NVOCMP_ITEMHDRLEN + len) →
  ∃ s1 logs, represents s1 logs m ∧ NVOCMP_failF s1 = NVINTF_SUCCESS ∧ NVOCMP_failW s1 = NVINTF_SUCCESS ∧
    (∀ h, names h id → ih_len h = len → fits s1 logs h buf) ∧
    NVOCMP_writeItemApi id len (Some buf) s =
    (a <- (iHdr <- (r <- from_active (search_header (checked id len)) ;
             let '(_, hdr, _) := r in mpure (set_found (ih_hpage hdr) (ih_hofs hdr) (checked id len))) ;
           store_item iHdr buf) ;
     retire a) s1.
Proof.
  intros St Hv Hl Hbuf Hroom. unfold NVOCMP_writeItemApi.
  destruct (Z.eqb_spec len 0) as [|_]; [lia|].
  rewrite (mthen_ret _ _ _ _ _ (checkItem_ok s id len Hv ltac:(lia) (proj1 (proj2 St)))).
  rewrite ctrue_success. destruct (flashaccess_store s m St) as (d&Ea&((logs&Rp)&Hf&Hw)).
  nvbind Ea. rewrite ctrue_success.
  destruct (addItem_start _ logs m (checked id len) buf NVOCMP_WRITE id len Rp Hf Hw (checked_names id len)
              eq_refl Hv Hl Hbuf (room_flash _ _ _ Hroom)) as (s1&Rp1&S1&Hf1&Hw1&Hfit&Eadd).
  exists s1, logs. split_and!; try done. unfold mthen at 1. rewrite Eadd. reflexivity.
Qed.

Lemma write_over s m id len buf old :
  store s m → valid_id id → 0 < len <= NVOCMP_MAXLEN → buffer_ok buf len →
  room s (NVOCMP_ITEMHDRLEN + len) → m !! id_key id = Some old → len <= Z.of_nat (length old) →
  ∃ s', NVOCMP_writeItemApi id len (Some buf) s = Ret NVINTF_SUCCESS s' ∧
    store s' (overwrite m (id_key id) old (take (Z.to_nat len) buf)).
Proof.
  intros St Hv Hl Hbuf Hroom Em Hold.
  destruct (writeItemApi_start s m id len buf St Hv Hl Hbuf Hroom) as (s1&logs&Rp1&Hf1&Hw1&Hfit&->).
  destruct (find_present s1 logs m (search_header (checked id len)) id old Rp1 (checked_names id len) Hv Em)
    as (q&pre&it&post&L&E).
  destruct (replace_item s1 logs m id len (set_found q (header_ofs pre it) (checked id len)) buf old q pre it post)
    as (s2&E2&St2); try done; [by apply Hfit|].
  exists s2. split; [|done]. unfold mthen at 1.
  rewrite (mthen_ret _ _ _ _ _ (search_old s1 _ _ _ _ E)). exact E2.
Qed.

Lemma write_new s m id len buf :
  store s m → valid_id id → 0 < len <= NVOCMP_MAXLEN → buffer_ok buf len →
  room s (NVOCMP_ITEMHDRLEN + len) → m !! id_key id = None →
  ∃ s', NVOCMP_writeItemApi id len (Some buf) s = Ret NVINTF_SUCCESS s' ∧
    store s' (<[id_key id := take (Z.to_nat len) buf]> m).
Proof.
  intros St Hv Hl Hbuf Hroom Em.
  destruct (writeItemApi_start s m id len buf St Hv Hl Hbuf Hroom) as (s1&logs&Rp1&Hf1&Hw1&Hfit&->).
  pose proof (find_absent s1 logs m (search_header (checked id len)) id Rp1 (checked_names id len) Hv Em) as E.
  destruct (insert_item s1 logs m id len (set_found 0 0 (checked id len)) buf) as (s2&E2&St2);
    try done; [by apply Hfit|].
  exists s2. split; [|done]. unfold mthen at 1.
  rewrite (mthen_ret _ _ _ _ _ (search_old s1 _ _ _ _ E)). simpl ih_hpage. simpl ih_hofs.
  rewrite E2. unfold retire. by rewrite Z.eqb_refl.
Qed.

(** C19: When some page has room for it, NVOCMP_writeItemApi of a new item, or of an
    item whose stored value has the same length, returns NVINTF_SUCCESS and the
    driver then stores the map with the item set to the bytes of the buffer; every
    other item keeps its value. *)
Theorem writeItemApi_refines s m id len buf :
  store s m → valid_id id → 0 < len <= NVOCMP_MAXLEN → buffer_ok buf len →
  room s (NVOCMP_ITEMHDRLEN + len) →
  (∀ old, m !! id_key id = Some old → Z.of_nat (length old) = len) →
  ∃ s', NVOCMP_writeItemApi id len (Some buf) s = Ret NVINTF_SUCCESS s' ∧
    store s' (<[id_key id := take (Z.to_nat len) buf]> m).
Proof.
  intros St Hv Hl Hbuf Hroom Hold. destruct (m !! id_key id) as [old|] eqn:Em.
  - specialize (Hold old eq_refl). rewrite <- (overwrite_same_length m (id_key id) old); [|done|].
    + apply write_over; try done. lia.
    + rewrite length_take. destruct Hbuf. lia.
  - by apply write_new.
Qed.

(** Overwriting a value by one that is not longer. NVOCMP_writeItemApi returns
    NVINTF_SUCCESS, and the driver then stores the new value, except when the old
    value ends with the bytes written: then the old value stays, also when the new
    one is shorter. *)
Theorem writeItemApi_shorter s m id len buf old :
  store s m → valid_id id → 0 < len <= NVOCMP_MAXLEN → buffer_ok buf len →
  room s (NVOCMP_ITEMHDRLEN + len) → m !! id_key id = Some old → len <= Z.of_nat (length old) →
  ∃ s', NVOCMP_writeItemApi id len (Some buf) s = Ret NVINTF_SUCCESS s' ∧
    store s' (overwrite m (id_key id) old (take (Z.to_nat len) buf)).
Proof. apply write_over. Qed.

(** When some page has room for it, NVOCMP_createItemApi stores a new item;
    for an identifier that already has a value it returns NVINTF_EXIST and the
    stored map is unchanged. *)
Theorem createItemApi_refines s m id len buf :
  store s m → valid_id id → 0 < len <= NVOCMP_MAXLEN → buffer_ok buf len →
  room s (NVOCMP_ITEMHDRLEN + len) →
  ∃ s', NVOCMP_createItemApi id len (Some buf) s =
    Ret (if bool_decide (is_Some (m !! id_key id)) then NVINTF_EXIST else NVINTF_SUCCESS) s' ∧
    store s' (if bool_decide (is_Some (m !! id_key id)) then m
              else <[id_key id := take (Z.to_nat len) buf]> m).
Proof.
  intros St Hv Hl Hbuf Hroom. unfold NVOCMP_createItemApi.
  destruct (Z.eqb_spec len 0) as [|_]; [lia|]. change NVOCMP_MAXLEN with 4095 in Hl.
  rewrite (u16_id len) by (unfold in_u16; lia).
  rewrite (mthen_ret _ _ _ _ _ (checkItem_ok s id len Hv ltac:(change NVOCMP_MAXLEN with 4095; lia) (proj1 (proj2 St)))).
  rewrite ctrue_success. destruct (flashaccess_store s m St) as (d&Ea&St').
  assert (St0 := St'). destruct St' as ((logs&Rp)&Hf&Hw).
  nvbind Ea. rewrite ctrue_success.
  destruct (m !! id_key id) as [old|] eqn:Em.
  - destruct (find_current_present _ logs m id len old Rp Hv Em) as (q&pre&it&post&L&E).
    nvbind E. rewrite Z.eqb_refl. rewrite bool_decide_eq_true_2 by eauto. by exists (set_flash d s).
  - rewrite bool_decide_eq_false_2 by (intros []; done).
    rewrite (mthen_ret _ _ _ _ _ (find_current_absent _ logs m id _ Rp Hv (checked_names id len) Em)).
    destruct (success_not_failure NVINTF_NOTFOUND) as [Hne _]; [set_solver|].
    destruct (Z.eqb_spec NVINTF_NOTFOUND NVINTF_SUCCESS) as [|_]; [congruence|]. rewrite Z.eqb_refl.
    set (h := set_found _ 0 (checked id len)).
    destruct (addItem_start _ logs m h buf NVOCMP_CREATE id len Rp Hf Hw (checked_names id len)
                eq_refl Hv Hl Hbuf (room_flash _ _ _ Hroom)) as (s1&Rp1&S1&Hf1&Hw1&Hfit&Eadd).
    rewrite mthen_mpure in Eadd.
    destruct (insert_item s1 logs m id len h buf) as (s2&E2&St2); try done; [by apply Hfit|].
    rewrite E2 in Eadd. nvbind Eadd. exists s2. unfold mpure. simpl. by rewrite Z.eqb_refl.
Qed.

(** NVOCMP_updateItemApi of an existing item, whatever length it is given,
    stores as many bytes of the buffer as the old value had; of an item that
    does not exist it returns NVINTF_NOTFOUND. *)
Theorem updateItemApi_keeps_length s m id len buf :
  store s m → valid_id id → 0 < len → u16 len <= NVOCMP_MAXLEN →
  match m !! id_key id with
  | None => ∃ s', NVOCMP_updateItemApi id len (Some buf) s = Ret NVINTF_NOTFOUND s' ∧ store s' m
  | Some old =>
      let n := Z.of_nat (length old) in
      0 < n → buffer_ok buf n → room s (NVOCMP_ITEMHDRLEN + n) →
      ∃ s', NVOCMP_updateItemApi id len (Some buf) s = Ret NVINTF_SUCCESS s' ∧
        store s' (<[id_key id := take (length old) buf]> m)
  end.
Proof.
  intros St Hv Hl Hu.
  assert (Hpre : ∃ s0 logs, represents s0 logs m ∧ store s0 m ∧ (∀ n, room s n → room s0 n) ∧
    NVOCMP_updateItemApi id len (Some buf) s =
    (r <- find_current (checked id (u16 len)) ;
     let '(err, iHdr) := r in
     if err =? NVINTF_SUCCESS then a <- NVOCMP_addItem iHdr buf NVOCMP_UPDATE ; retire a
     else if err =? NVINTF_NOTFOUND then mpure NVINTF_NOTFOUND else mpure NVINTF_FAILURE) s0).
  { destruct (flashaccess_store s m St) as (d&Ea&St'). assert (St0 := St').
    destruct St' as ((logs&Rp)&_). exists (set_flash d s), logs. split_and!; try done.
    unfold NVOCMP_updateItemApi. destruct (Z.eqb_spec len 0) as [|_]; [lia|].
    rewrite (mthen_ret _ _ _ _ _ (checkItem_ok s id (u16 len) Hv (conj (proj1 (u16_range len)) Hu) (proj1 (proj2 St)))).
    rewrite ctrue_success. nvbind Ea. rewrite ctrue_success. done. }
  destruct Hpre as (s0&logs&Rp&St0&Hroom0&->). assert (St0' := St0). destruct St0' as (_&Hf&Hw).
  destruct (success_not_failure NVINTF_NOTFOUND) as [Hne _]; [set_solver|].
  destruct (m !! id_key id) as [old|] eqn:Em.
  - intros n Hn Hbuf Hroom.
    destruct (find_current_present _ logs m id (u16 len) old Rp Hv Em) as (q&pre&it&post&L&E).
    nvbind E. rewrite Z.eqb_refl. set (h := expanded _ _ it).
    assert (HL := L). destruct HL as (_&_&_&_&Hk&Hd&(_&_&_&Hlen&_)).
    assert (Hnames : names h id) by (unfold id_key, it_key in Hk; injection Hk as Ek1 Ek2 Ek3; by split_and!).
    assert (Eln : ih_len h = n) by (simpl; unfold it_len, n; by rewrite Hd).
    assert (n <= NVOCMP_MAXLEN) by (rewrite <- Eln; done).
    destruct (addItem_start _ logs m h buf NVOCMP_UPDATE id n Rp Hf Hw Hnames Eln Hv ltac:(lia) Hbuf
                (Hroom0 _ Hroom)) as (s1&Rp1&S1&Hf1&Hw1&Hfit&Eadd).
    rewrite mthen_mpure in Eadd.
    destruct (replace_item s1 logs m id n h buf old q pre it post) as (s2&E2&St2); try done; try lia;
      try (by apply Hfit); try (by eapply located_same_ring).
    exists s2. split; [unfold mthen; rewrite Eadd; exact E2|].
    unfold n in St2. rewrite Nat2Z.id in St2. rewrite <- (overwrite_same_length m (id_key id) old); try done.
    rewrite length_take. destruct Hbuf. lia.
  - rewrite (mthen_ret _ _ _ _ _ (find_current_absent _ logs m id _ Rp Hv (checked_names id _) Em)).
    destruct (Z.eqb_spec NVINTF_NOTFOUND NVINTF_SUCCESS) as [|_]; [congruence|]. rewrite Z.eqb_refl.
    by exists s0.
Qed.

(** ** Deleting *)

Lemma settled_retire s s' logs m q pre it post k :
  settled s logs m → actPage (nvHandle s') = actPage (nvHandle s) →
  logs q = pre ++ it :: post → it_key it = k →
  settled s' (<[q := pre ++ retired it :: post]> logs) (delete k m).
Proof.
  intros Q Ha El Hk it'. rewrite Ha. intros Hlast Hd.
  destruct (decide (it_key it' = k)) as [->|Hne]; [apply lookup_delete_eq|].
  rewrite lookup_delete_ne by done. apply Q; [|done].
  destruct (decide (q = actPage (nvHandle s))) as [->|Hq]; [|by rewrite fn_lookup_insert_ne in Hlast].
  rewrite fn_lookup_insert in Hlast. rewrite El. rewrite last_app_cons in Hlast |- *.
  rewrite last_cons in Hlast |- *. destruct (last post); [done|]. by injection Hlast as <-.
Qed.

(** C29: NVOCMP_deleteItemApi removes an item and reports NVINTF_SUCCESS; of an item
    that does not exist it returns NVINTF_NOTFOUND. Every other item keeps its
    value. *)
Theorem deleteItemApi_refines s m id :
  store s m → valid_id id →
  ∃ s', NVOCMP_deleteItemApi id s =
    Ret (if bool_decide (is_Some (m !! id_key id)) then NVINTF_SUCCESS else NVINTF_NOTFOUND) s' ∧
    store s' (delete (id_key id) m).
Proof.
  intros St Hv. unfold NVOCMP_deleteItemApi.
  rewrite (mthen_ret _ _ _ _ _ (checkItem_ok s id 0 Hv ltac:(done) (proj1 (proj2 St)))).
  rewrite ctrue_success. destruct (flashaccess_store s m St) as (d&Ea&St').
  assert (St0 := St'). destruct St' as ((logs&Rp)&Hf&Hw). nvbind Ea. rewrite ctrue_success.
  destruct (m !! id_key id) as [old|] eqn:Em.
  - rewrite bool_decide_eq_true_2 by eauto.
    destruct (find_current_present _ logs m id 0 old Rp Hv Em) as (q&pre&it&post&L&E).
    nvbind E. rewrite ctrue_success. destruct L as (Hq&Ht&El&Hl&Hk&Hd&Hok).
    destruct (setItemInactive_spec _ logs q pre it post (proj1 Rp) Hq Ht El Hl) as (s1&E1&R1&O1&Hw1&Ha1&Hst1).
    cbn [ih_hpage ih_hofs expanded]. nvbind E1.
    assert (Rp1 : represents s1 (<[q := pre ++ retired it :: post]> logs) (delete (id_key id) m)).
    { split; [done|]. destruct (Rp) as (_&_&Hse&Hwr).
      split_and!; [|by eapply (settled_retire (set_flash d s))|unfold writable; rewrite Hst1; exact Hwr].
      rewrite (store_pages_same (set_flash d s) s1) by apply O1.
      eapply entries_delete; [exact Em|apply Rp|]. rewrite <- Hk, <- Hd.
      apply entries_retire; try done; [apply store_pages_NoDup|by apply store_pages_elem]. }
    set (h := expanded _ _ it).
    assert (Hn : names h id) by (unfold id_key, it_key in Hk; injection Hk as Ek1 Ek2 Ek3; by split_and!).
    rewrite (mthen_ret _ _ _ _ _ (find_current_absent s1 _ _ id h Rp1 Hv Hn (lookup_delete_eq m (id_key id)))).
    nvget. exists s1. unfold mpure. simpl. rewrite Z.eqb_refl, Hw1. split; [done|].
    split; [by eexists|]. split; [by rewrite (op_failF _ _ _ O1)|done].
  - rewrite bool_decide_eq_false_2 by (intros []; done).
    rewrite (mthen_ret _ _ _ _ _ (find_current_absent _ logs m id _ Rp Hv (checked_names id 0) Em)).
    destruct (success_not_failure NVINTF_NOTFOUND) as [_ ->]; [set_solver|].
    exists (set_flash d s). split; [done|]. by rewrite delete_id.
Qed.
End Kv.

(** ** Witnesses on the concrete device *)

#[local] Existing Instance nor_codes.
#[local] Existing Instance nor_codes_ok.
#[local] Existing Instance nor_flash.
#[local] Existing Instance nor_laws.
#[local] Existing Instance nor_reliable.
#[local] Existing Instance nor_crc.

Lemma readItemApi_refines_witness :
  NVOCMP_readItemApi demo_id 1 2 (Some [0; 0]) loaded = Ret (NVINTF_SUCCESS, [20; 30]) loaded.
Proof.
  apply (readItemApi_refines loaded {[ (3, 5, 7) := [10; 20; 30] ]} demo_id 1 2 [0; 0] loaded_store demo_valid);
    by vm_compute.
Defined.

Lemma getItemLenApi_refines_witness : NVOCMP_getItemLenApi demo_id loaded = Ret 3 loaded.
Proof. apply (getItemLenApi_refines loaded {[ (3, 5, 7) := [10; 20; 30] ]} demo_id loaded_store demo_valid). Defined.

Lemma writeItemApi_refines_witness :
  ∃ s', NVOCMP_writeItemApi demo_id 3 (Some [1; 2; 3]) loaded = Ret NVINTF_SUCCESS s' ∧
    store s' {[ (3, 5, 7) := [1; 2; 3] ]}.
Proof.
  apply (writeItemApi_refines loaded {[ (3, 5, 7) := [10; 20; 30] ]} demo_id 3 [1; 2; 3] loaded_store demo_valid).
  - by vm_compute.
  - split; [by apply demo_buffer|done].
  - apply loaded_room. by vm_compute.
  - intros old E. by injection E as <-.
Defined.

Lemma writeItemApi_shorter_witness :
  ∃ s', NVOCMP_writeItemApi demo_id 1 (Some [30]) loaded = Ret NVINTF_SUCCESS s' ∧
    store s' {[ (3, 5, 7) := [10; 20; 30] ]}.
Proof.
  apply (writeItemApi_shorter loaded {[ (3, 5, 7) := [10; 20; 30] ]} demo_id 1 [30] [10; 20; 30] loaded_store demo_valid).
  - by vm_compute.
  - split; [by apply demo_buffer|done].
  - apply loaded_room. by vm_compute.
  - done.
  - by vm_compute.
Defined.

Lemma createItemApi_refines_witness :
  ∃ s', NVOCMP_createItemApi (mkItemID 1 2 3) 2 (Some [8; 9]) loaded = Ret NVINTF_SUCCESS s' ∧
    store s' (<[(1, 2, 3) := [8; 9]]> {[ (3, 5, 7) := [10; 20; 30] ]}).
Proof.
  apply (createItemApi_refines loaded {[ (3, 5, 7) := [10; 20; 30] ]} (mkItemID 1 2 3) 2 [8; 9] loaded_store).
  - by vm_compute.
  - by vm_compute.
  - split; [by apply demo_buffer|done].
  - apply loaded_room. by vm_compute.
Defined.

Lemma updateItemApi_keeps_length_witness :
  ∃ s', NVOCMP_updateItemApi demo_id 1 (Some [1; 2; 3; 4]) loaded = Ret NVINTF_SUCCESS s' ∧
    store s' (<[(3, 5, 7) := [1; 2; 3]]> {[ (3, 5, 7) := [10; 20; 30] ]}).
Proof.
  assert (W := updateItemApi_keeps_length loaded {[ (3, 5, 7) := [10; 20; 30] ]} demo_id 1 [1; 2; 3; 4]
                 loaded_store demo_valid ltac:(by vm_compute) ltac:(by vm_compute)).
  change (id_key demo_id) with (3, 5, 7) in W. rewrite lookup_singleton_eq in W. apply W.
  - by vm_compute.
  - split; [by apply demo_buffer|done].
  - apply loaded_room. by vm_compute.
Defined.

Lemma deleteItemApi_refines_witness :
  ∃ s', NVOCMP_deleteItemApi demo_id loaded = Ret NVINTF_SUCCESS s' ∧ store s' ∅.
Proof. apply (deleteItemApi_refines loaded {[ (3, 5, 7) := [10; 20; 30] ]} demo_id loaded_store demo_valid). Defined.
