(* ===== verification/NvErase.v ===== *)
(** * NV driver: erasing pages

    [NVOCMP_erase], [NVOCMP_eraseNvApi] and the start of a fresh ring: the driver
    then stores no item. *)

From S2P Require Import Prelude.
From S2P Require Import NvTypes.
From S2P Require Import NvOps.
From S2P Require Import NvCompact.
From S2P Require Import NvItems.
From S2P Require Import NvApi.
From S2P Require Import NvFlash.
From S2P Require Import NvLog.
From S2P Require Import NvFind.
From S2P Require Import NvPages.
From S2P Require Import NvWrite.
From S2P Require Import NvStore.
From S2P Require Import NvDevice.

Section Erase.
Context `{NvCodesOk} `{NvsLaws} `{!NvsReliable}.
Implicit Types (s : drv).

Definition null_compact : list Z :=
  encode_compactHdr (mkCompactHdr NVOCMP_NULLOFFSET NVOCMP_NULLPAGE NVOCMP_SIGNATURE).

(** The next erase cycle number. *)
Definition next_cycle (c : Z) : Z := if c <? NVOCMP_MAXCYCLE then c + 1 else NVOCMP_MINCYCLE.

(** Table entry of a page after its erase. *)
Definition erased_info (pi : NVOCMP_pageInfo_t) : NVOCMP_pageInfo_t :=
  mkPageInfo NVOCMP_PGNACT (next_cycle (pi_cycle pi)) NVOCMP_PGNORMAL NVOCMP_ALLACTIVE
    (pi_sPage pi) (pi_ePage pi) NVOCMP_PGDATAOFS (pi_sOffset pi) (pi_eOffset pi).

(** The header of an empty page in state [st]. *)
Definition empty_header (st cycle : Z) : list Z :=
  encode_pageHdr (mkPageHdr st cycle NVOCMP_ALLACTIVE NVOCMP_VERSION NVOCMP_SIGNATURE) ++
  null_compact ++ null_compact ++ null_compact.

(** Page [p] is empty, in state [st]. *)
Definition empty_at s (p st : Z) : Prop :=
  ∃ pi, pageInfo (nvHandle s) !! Z.to_nat p = Some pi ∧
    pi_state pi = st ∧ pi_offset pi = NVOCMP_PGDATAOFS ∧ pi_allActive pi = NVOCMP_ALLACTIVE ∧
    in_u8 (pi_cycle pi) ∧
    page_bytes s p = empty_header st (pi_cycle pi) ++ replicate 2032 NVOCMP_ERASEDBYTE.

Lemma next_cycle_byte c : in_u8 c → in_u8 (next_cycle c).
Proof.
  unfold next_cycle, NVOCMP_MAXCYCLE, NVOCMP_MINCYCLE, in_u8. intros. zcase; lia.
Qed.

Lemma encode_pageHdr_bytes st c :
  in_u8 st → in_u8 c →
  is_bytes (encode_pageHdr (mkPageHdr st c NVOCMP_ALLACTIVE NVOCMP_VERSION NVOCMP_SIGNATURE)).
Proof.
  intros. unfold encode_pageHdr. simpl. repeat (apply Forall_cons; split; [apply u8_range || by vm_compute|]).
  by constructor.
Qed.

Lemma null_compact_bytes : is_bytes null_compact.
Proof. repeat (apply Forall_cons; split; [by vm_compute|]). by constructor. Qed.

(** ** One page *)

Lemma wipe_page s p :
  in_region p 0 FLASH_PAGE_SIZE → NVS_sectorSize = FLASH_PAGE_SIZE →
  ∃ st d, NVS_erase_s (NVOCMP_FLASHOFFSET p 0) NVS_sectorSize s = Ret st (set_flash d s) ∧ 0 <= st ∧
    page_bytes (set_flash d s) p = replicate 2048 NVOCMP_ERASEDBYTE ∧ only_page p s (set_flash d s).
Proof.
  intros (Ho&_&Hr) Es. unfold NVS_erase_s. rewrite Es.
  assert (Hok := erase_succeeds (flash s) (addr p 0) FLASH_PAGE_SIZE Ho ltac:(done) Hr).
  unfold addr in Hok. destruct (NVS_erase (flash s) _ FLASH_PAGE_SIZE) as [st d] eqn:E. simpl in Hok.
  exists st, d. pose proof (NVS_erase_mem (flash s) (addr p 0) FLASH_PAGE_SIZE st d Ho ltac:(done) Hr E Hok) as M.
  split_and!; try done.
  - unfold page_bytes. simpl. rewrite (region_ext _ _ _ _ (λ a _, M a)).
    rewrite region_upd_in; [done|]. by rewrite length_replicate.
  - split; try done. intros q Hne. eapply page_bytes_upd; [exact M|done| |done].
    rewrite length_replicate. done.
Qed.

Lemma setCompactHdr_append s p pre rest loc :
  in_region p 0 FLASH_PAGE_SIZE → page_bytes s p = pre ++ rest → Forall (eq NVOCMP_ERASEDBYTE) rest →
  Z.of_nat (length pre) = (loc + 1) * NVOCMP_COMPACTHDRLEN → (4 <= length rest)%nat →
  ∃ d, NVOCMP_setCompactHdr p NVOCMP_NULLPAGE NVOCMP_NULLOFFSET loc s =
       Ret tt (set_failW NVINTF_SUCCESS (set_flash d s)) ∧
    page_bytes (set_flash d s) p = (pre ++ null_compact) ++ drop 4 rest ∧
    only_page p s (set_flash d s).
Proof.
  intros Hr B He Hl Hrest. unfold NVOCMP_setCompactHdr. rewrite <- Hl.
  change (u16 NVOCMP_NULLOFFSET) with NVOCMP_NULLOFFSET. fold null_compact.
  destruct (append_write s p pre null_compact rest Hr B He) as (d&E&B'&_&O); [|done|].
  { apply null_compact_bytes. }
  exists d. nvbind E. done.
Qed.

Lemma setPageState_append s p rest pi :
  in_region p 0 FLASH_PAGE_SIZE → 0 <= p → page_bytes s p = rest → Forall (eq NVOCMP_ERASEDBYTE) rest →
  (4 <= length rest)%nat → pageInfo (nvHandle s) !! Z.to_nat p = Some pi → in_u8 (pi_cycle pi) →
  ∃ s', NVOCMP_setPageState p NVOCMP_PGNACT s = Ret tt s' ∧
    page_bytes s' p = encode_pageHdr (mkPageHdr NVOCMP_PGNACT (pi_cycle pi) NVOCMP_ALLACTIVE
                        NVOCMP_VERSION NVOCMP_SIGNATURE) ++ drop 4 rest ∧
    only_page p s s' ∧ NVOCMP_failW s' = NVINTF_SUCCESS ∧
    pageInfo (nvHandle s') !! Z.to_nat p =
      Some (pset_allActive NVOCMP_ALLACTIVE (pset_state NVOCMP_PGNACT pi)).
Proof.
  intros Hr Hp B He Hrest Hi Hc. unfold NVOCMP_setPageState.
  nvbind (getPage_spec s p pi Hp Hi). set (hd := encode_pageHdr _).
  destruct (append_write s p [] hd rest Hr B He) as (d&E&B'&_&O); [by apply encode_pageHdr_bytes|done|].
  simpl length in E. change (Z.of_nat 0) with 0 in E. nvbind E. nvget.
  rewrite Z.eqb_refl. simpl when. nvget. set (s1 := set_failW _ _).
  assert (Hi1 : pageInfo (nvHandle s1) !! Z.to_nat p = Some pi) by done.
  nvbind (modPage_spec s1 p (pset_state NVOCMP_PGNACT) pi Hp Hi1).
  rewrite (modPage_spec _ p _ (pset_state NVOCMP_PGNACT pi)) by (done || by eapply with_page_info).
  eexists. split; [done|]. split_and!; [exact B'| |done|].
  - do 2 (eapply only_page_trans; [|by apply only_page_with_page]). by destruct O.
  - eapply with_page_info. by eapply with_page_info.
Qed.

(** The three empty compaction headers behind the page header. *)
Lemma null_headers s p hd rest {B} (k : M B) :
  in_region p 0 FLASH_PAGE_SIZE → page_bytes s p = hd ++ rest → Forall (eq NVOCMP_ERASEDBYTE) rest →
  length hd = 4%nat → (12 <= length rest)%nat →
  ∃ d, (NVOCMP_setCompactHdr p NVOCMP_NULLPAGE NVOCMP_NULLOFFSET THISPAGEHDR ;;
        NVOCMP_setCompactHdr p NVOCMP_NULLPAGE NVOCMP_NULLOFFSET XSRCSTARTHDR ;;
        NVOCMP_setCompactHdr p NVOCMP_NULLPAGE NVOCMP_NULLOFFSET XSRCENDHDR ;; k) s =
       k (set_failW NVINTF_SUCCESS (set_flash d s)) ∧
    page_bytes (set_flash d s) p = hd ++ (null_compact ++ null_compact ++ null_compact) ++ drop 12 rest ∧
    only_page p s (set_flash d s).
Proof.
  intros Hr B0 He Hh Hl.
  destruct (setCompactHdr_append s p _ _ THISPAGEHDR Hr B0 He) as (d3&E3&B3&O3); [by rewrite Hh|lia|].
  nvbind E3. set (s3 := set_failW _ _).
  destruct (setCompactHdr_append s3 p _ _ XSRCSTARTHDR Hr B3) as (d4&E4&B4&O4);
    [by apply Forall_drop|by rewrite length_app, Hh|rewrite length_drop; lia|].
  nvbind E4. set (s4 := set_failW _ (set_flash d4 _)).
  destruct (setCompactHdr_append s4 p _ _ XSRCENDHDR Hr B4) as (d5&E5&B5&O5);
    [by apply Forall_drop, Forall_drop|by rewrite !length_app, Hh|rewrite !length_drop; lia|].
  nvbind E5. exists d5. split_and!; [done| |].
  - transitivity (page_bytes (set_flash d5 s4) p); [done|]. rewrite B5, !drop_drop. by rewrite <- !app_assoc.
  - eapply only_page_trans; [exact O3|]. eapply only_page_trans; [by destruct O4|]. by destruct O5.
Qed.

Lemma erase_spec s p pi :
  in_region p 0 FLASH_PAGE_SIZE → NVS_sectorSize = FLASH_PAGE_SIZE → 0 <= p →
  pageInfo (nvHandle s) !! Z.to_nat p = Some pi → in_u8 (pi_cycle pi) →
  ∃ s', NVOCMP_erase p s = Ret NVINTF_SUCCESS s' ∧ only_page p s s' ∧ empty_at s' p NVOCMP_PGNACT ∧
    NVOCMP_failW s' = NVINTF_SUCCESS ∧
    pageInfo (nvHandle s') !! Z.to_nat p = Some (erased_info pi).
Proof.
  intros Hr Es Hp Hi Hc. pose proof (next_cycle_byte _ Hc) as Hc'. unfold NVOCMP_erase.
  destruct (flashaccess_spec s) as (d0&E0&M0). nvbind E0. rewrite Z.eqb_refl.
  assert (O0 : only_page p s (set_flash d0 s))
    by (split; try done; intros; by apply (page_bytes_ext s (set_flash d0 s))).
  destruct (wipe_page (set_flash d0 s) p Hr Es) as (st&d1&E1&Hst&B1&O1). nvbind E1.
  destruct (Z.ltb_spec st 0) as [|_]; [lia|]. rewrite set_flash_twice in *.
  set (pi1 := pset_cycle (next_cycle (pi_cycle pi)) pi).
  rewrite (mthen_ret _ _ _ _ _ (modPage_spec (set_flash d1 s) p (λ p0, pset_cycle
    (if pi_cycle p0 <? NVOCMP_MAXCYCLE then pi_cycle p0 + 1 else NVOCMP_MINCYCLE) p0) pi Hp Hi)).
  fold (next_cycle (pi_cycle pi)). set (s1 := with_page p _ _).
  assert (Hi1 : pageInfo (nvHandle s1) !! Z.to_nat p = Some pi1) by (by eapply with_page_info).
  destruct (setPageState_append s1 p _ pi1 Hr Hp B1 ltac:(by apply Forall_replicate) ltac:(by vm_compute; lia) Hi1 Hc')
    as (s2&E2&B2&O2&_&Hi2). nvbind E2.
  edestruct (null_headers s2 p _ _ (modPage p (pset_offset NVOCMP_PGDATAOFS) ;;
      modPage p (pset_mode NVOCMP_PGNORMAL) ;; mpure NVINTF_SUCCESS) Hr B2) as (d5&E5&B5&O5);
    [by apply Forall_drop, Forall_replicate|done|by rewrite length_drop, length_replicate; lia|].
  rewrite E5. set (s5 := set_failW _ (set_flash d5 _)) in *.
  rewrite (mthen_ret _ _ _ _ _ (modPage_spec s5 p (pset_offset NVOCMP_PGDATAOFS) _ Hp Hi2)).
  rewrite (mthen_ret _ _ _ _ _ (modPage_spec _ p (pset_mode NVOCMP_PGNORMAL) _ Hp
    (with_page_info p _ _ s5 Hi2))).
  set (s6 := with_page p _ (with_page p _ s5)).
  assert (Hi6 : pageInfo (nvHandle s6) !! Z.to_nat p = Some (erased_info pi))
    by (eapply with_page_info; by eapply with_page_info).
  exists s6. split; [reflexivity|]. split; [|split; [|by split]].
  - do 2 (eapply only_page_trans; [|by apply only_page_with_page]).
    eapply only_page_trans; [exact O0|]. eapply only_page_trans; [exact O1|].
    eapply only_page_trans; [by apply (only_page_with_page p pi1)|].
    eapply only_page_trans; [exact O2|]. by destruct O5.
  - exists (erased_info pi). do 5 (split; [done|]).
    transitivity (page_bytes (set_flash d5 s2) p); [reflexivity|].
    rewrite B5, drop_drop, drop_replicate. unfold empty_header. by rewrite <- !app_assoc.
Qed.

(** ** All pages *)

(** The device and the page table have the geometry the driver checks at start. *)
Definition geometry s : Prop :=
  2 <= NVOCMP_size s <= NVOCMP_NVPAGES ∧ NVOCMP_size s * FLASH_PAGE_SIZE <= NVS_regionSize ∧
  NVS_sectorSize = FLASH_PAGE_SIZE ∧ length (pageInfo (nvHandle s)) = Z.to_nat NVOCMP_NVPAGES ∧
  (∀ p pi, pageInfo (nvHandle s) !! Z.to_nat p = Some pi → in_u8 (pi_cycle pi)).

Lemma geometry_page s p :
  geometry s → 0 <= p < NVOCMP_size s →
  in_region p 0 FLASH_PAGE_SIZE ∧
  ∃ pi, pageInfo (nvHandle s) !! Z.to_nat p = Some pi ∧ in_u8 (pi_cycle pi).
Proof.
  intros (Hs&Hr&_&Ht&Hc) Hp. split.
  - unfold in_region. rewrite addr_eq. change FLASH_PAGE_SIZE with 2048 in *. lia.
  - destruct (lookup_lt_is_Some_2 (pageInfo (nvHandle s)) (Z.to_nat p)) as [pi E].
    { rewrite Ht. unfold NVOCMP_NVPAGES in *. lia. }
    eauto.
Qed.

Lemma geometry_change s s' p pi :
  geometry s → only_page p s s' → 0 <= p →
  pageInfo (nvHandle s') !! Z.to_nat p = Some pi → in_u8 (pi_cycle pi) → geometry s'.
Proof.
  intros (Hs&Hr&Hz&Ht&Hc) O Hp Hi Hpi. unfold geometry. rewrite (op_size _ _ _ O), (op_table _ _ _ O).
  split_and!; try done; try lia. intros q pi' Hq. destruct (decide (Z.to_nat q = Z.to_nat p)) as [E|].
  - rewrite E in Hq. congruence.
  - destruct (decide (0 <= q)); [|].
    + rewrite (op_info _ _ _ O) in Hq by lia. eauto.
    + replace (Z.to_nat q) with (Z.to_nat 0) in * by lia. rewrite (op_info _ _ _ O) in Hq by lia. eauto.
Qed.

Lemma empty_at_other q s s' p st : only_page q s s' → 0 <= p → p ≠ q → empty_at s p st → empty_at s' p st.
Proof.
  intros O Hp Hne (pi&Hi&Hr). exists pi. by rewrite (op_info _ _ _ O), (op_bytes _ _ _ O) by done.
Qed.

Lemma erase_pages_spec n s p :
  geometry s → NVOCMP_failW s = NVINTF_SUCCESS → 0 <= p → p + Z.of_nat n <= NVOCMP_size s →
  (∀ q, 0 <= q < p → empty_at s q NVOCMP_PGNACT) →
  ∃ s', erase_pages n p s = Ret tt s' ∧ geometry s' ∧ NVOCMP_failW s' = NVINTF_SUCCESS ∧
    NVOCMP_failF s' = NVOCMP_failF s ∧ NVOCMP_size s' = NVOCMP_size s ∧
    (∀ q, 0 <= q < p + Z.of_nat n → empty_at s' q NVOCMP_PGNACT).
Proof.
  revert s p. induction n as [|n IH]; intros s p G Hw Hp Hn He.
  { exists s. split_and!; try done; try apply G. intros q Hq. apply He. lia. }
  cbn [erase_pages]. destruct (geometry_page s p G ltac:(lia)) as (Hr&pi&Hi&Hc).
  destruct (erase_spec s p pi Hr (proj1 (proj2 (proj2 G))) Hp Hi Hc) as (s1&E1&O1&Hempty&Hw1&Hi1).
  nvbind E1. do 2 nvget. rewrite Hw1, lor_success. set (s2 := set_failW _ s1).
  assert (O2 : only_page p s s2) by (destruct O1; by split).
  assert (G2 : geometry s2) by (eapply (geometry_change s s2 p); try done; by apply next_cycle_byte).
  destruct (IH s2 (p + 1) G2 eq_refl ltac:(lia)) as (s3&E3&G3&Hw3&Hf3&Hs3&He3).
  { rewrite (op_size _ _ _ O2). lia. }
  { intros q Hq. destruct (decide (q = p)) as [->|]; [done|].
    eapply (empty_at_other p s); try done; [lia|]. apply He. lia. }
  exists s3. split_and!; try done; try apply G3.
  - by rewrite Hf3, (op_failF _ _ _ O2).
  - by rewrite Hs3, (op_size _ _ _ O2).
  - intros q Hq. apply He3. lia.
Qed.

(** ** A fresh ring *)

Lemma empty_state_byte st c :
  ∃ post, empty_header st c ++ replicate 2032 NVOCMP_ERASEDBYTE = u8 st :: post ∧
    ∀ st', in_u8 st' → empty_header st' c ++ replicate 2032 NVOCMP_ERASEDBYTE = st' :: post.
Proof.
  eexists. split; [reflexivity|]. intros st' Hs. unfold empty_header, encode_pageHdr. simpl.
  by rewrite (u8_id st').
Qed.

(** Changing the state of an empty page. *)
Lemma change_empty s p st st' :
  geometry s → 0 <= p < NVOCMP_size s → empty_at s p st → in_u8 st → in_u8 st' → Z.land st' st = st' →
  ∃ s', NVOCMP_changePageState p st' s = Ret tt s' ∧ only_page p s s' ∧ empty_at s' p st' ∧ geometry s' ∧
    NVOCMP_failW s' = NVINTF_SUCCESS ∧ actOffset (nvHandle s') = actOffset (nvHandle s) ∧
    (st' ≠ NVOCMP_PGACT → actPage (nvHandle s') = actPage (nvHandle s)).
Proof.
  intros G Hp (pi&Hi&Hst&Ho&Ha&Hc&Hb) Hs Hs' Hland.
  destruct (geometry_page s p G Hp) as [Hr _].
  destruct (empty_state_byte st (pi_cycle pi)) as (post&E1&E2). rewrite E1, u8_id in Hb by done.
  destruct (changePageState_raw s p st' st post pi Hr ltac:(lia) Hb Hs' Hland Hi)
    as (s'&E&Hb'&O&Hi'&Hw&Hact&Hoff).
  exists s'. split_and!; try done.
  - exists (pset_state st' pi). split_and!; try done. by rewrite Hb', <- E2.
  - eapply (geometry_change s s' p); try done. lia.
  - intros Hna. rewrite Hact. by destruct (Z.eqb_spec st' NVOCMP_PGACT).
Qed.

Lemma empty_page_stored s p st :
  empty_at s p st → st ∈ stored_states → page_ok s p [].
Proof.
  intros (pi&Hi&<-&Ho&Ha&Hc&Hb) Hs.
  eexists _, (replicate 2032 NVOCMP_ERASEDBYTE), pi. split_and!.
  - split_and!; [|by constructor|exact Hb]. done.
  - done.
  - done.
  - eexists. rewrite Ha. split; [reflexivity|]. split_and!; try done; try (by left).
    repeat apply is_bytes_app, conj; apply null_compact_bytes.
  - intros _. by apply Forall_replicate.
Qed.

(** Empty pages, the first ready for writing and the last for compaction,
    represent the empty map. *)
Lemma empty_represents s :
  geometry s → actPage (nvHandle s) = 0 → tailPage (nvHandle s) = NVOCMP_size s - 1 →
  actOffset (nvHandle s) = NVOCMP_PGDATAOFS → empty_at s 0 NVOCMP_PGRDY →
  (∀ q, 0 < q < NVOCMP_size s - 1 → empty_at s q NVOCMP_PGNACT) →
  empty_at s (NVOCMP_size s - 1) NVOCMP_PGXDST →
  represents s (λ _, []) ∅.
Proof.
  intros G Ha Ht Ho E0 Eq Et. split; [|split_and!; [|by intros it|]].
  - destruct G as (?&?&_&Hl&_). split; rewrite ?Ha, ?Ht; try done; try lia.
    + intros p Hp Hne. destruct (decide (p = 0)) as [->|].
      * eapply empty_page_stored; [exact E0|by apply stored_state_dec].
      * eapply empty_page_stored; [apply Eq; lia|by apply stored_state_dec].
    + intros p pi Hp Hne Hi. rewrite Ht in Hne. rewrite Ha. case_decide as Hd.
      * destruct E0 as (pi0&Hi0&Hs&_). subst p. rewrite Hi in Hi0. injection Hi0 as <-. by rewrite Hs.
      * destruct (Eq p ltac:(lia)) as (pi0&Hi0&Hs&_). left. split; [congruence|done].
    + destruct Et as (pi&_&_&_&_&Hc&->). exists (pi_cycle pi), NVOCMP_ALLACTIVE. unfold empty_header.
      rewrite <- app_assoc. eexists. split; [reflexivity|]. by split.
  - unfold entries. induction (store_pages s); [done|]. simpl. done.
  - left. unfold act_state. rewrite Ha. destruct E0 as (pi0&Hi0&Hs&_). rewrite Hi0. simpl. by rewrite Hs.
Qed.

(** On empty pages a fresh ring stores nothing. *)
Lemma fresh_ring_spec s :
  geometry s → NVOCMP_failF s = NVINTF_SUCCESS →
  (∀ q, 0 <= q < NVOCMP_size s → empty_at s q NVOCMP_PGNACT) →
  ∃ s', fresh_ring s = Ret tt s' ∧ store s' ∅.
Proof.
  intros G Hf He. unfold fresh_ring. assert (Hsz := proj1 G). do 4 nvget.
  destruct (He 0 ltac:(lia)) as (pi0&Hi0&_&Ho0&_).
  set (s1 := set_handle _ _).
  rewrite (mthen_ret _ _ _ _ _ (getPage_spec s1 0 pi0 ltac:(lia) Hi0)). nvget. rewrite Ho0.
  set (s2 := set_handle _ s1).
  assert (G2 : geometry s2) by apply G.
  assert (He2 : ∀ q, 0 <= q < NVOCMP_size s → empty_at s2 q NVOCMP_PGNACT) by apply He.
  destruct (change_empty s2 0 NVOCMP_PGNACT NVOCMP_PGRDY G2 ltac:(simpl; lia) (He2 0 ltac:(lia)))
    as (s3&E3&O3&Hr3&G3&_&Hoff3&Hact3); try by vm_compute.
  nvbind E3. specialize (Hact3 ltac:(done)).
  assert (He3 : ∀ q, 0 < q < NVOCMP_size s → empty_at s3 q NVOCMP_PGNACT).
  { intros q Hq. eapply empty_at_other; [exact O3|lia|lia|]. apply He2. lia. }
  assert (Hs3 : NVOCMP_size s3 = NVOCMP_size s) by apply O3.
  destruct (change_empty s3 (NVOCMP_size s - 1) NVOCMP_PGNACT NVOCMP_PGXDST G3 ltac:(lia)
              (He3 (NVOCMP_size s - 1) ltac:(lia)))
    as (s4&E4&O4&Et4&G4&Hw4&Hoff4&Hact4); try by vm_compute.
  specialize (Hact4 ltac:(done)). exists s4. split; [done|].
  assert (Hs4 : NVOCMP_size s4 = NVOCMP_size s) by (rewrite (op_size _ _ _ O4); done).
  split; [|split; [rewrite (op_failF _ _ _ O4), (op_failF _ _ _ O3); done|done]].
  exists (λ _, []). apply empty_represents; try done.
  - by rewrite Hact4, Hact3.
  - rewrite (op_tail _ _ _ O4), (op_tail _ _ _ O3), Hs4. done.
  - by rewrite Hoff4, Hoff3.
  - eapply empty_at_other; [exact O4|lia|lia|done].
  - intros q Hq. eapply empty_at_other; [exact O4|lia|lia|]. apply He3. lia.
  - by rewrite Hs4.
Qed.

(** On an initialised driver, whatever it stored and whatever its pages
    hold, NVOCMP_eraseNvApi returns NVINTF_SUCCESS and leaves a driver that
    stores no item and is ready for use: it represents the empty map. *)
Theorem eraseNvApi_empties s :
  geometry s → NVOCMP_failF s = NVINTF_SUCCESS → NVOCMP_failW s = NVINTF_SUCCESS →
  ∃ s', NVOCMP_eraseNvApi s = Ret NVINTF_SUCCESS s' ∧ store s' ∅.
Proof.
  intros G Hf Hw. unfold NVOCMP_eraseNvApi. destruct (flashaccess_spec s) as (d&E0&_).
  nvbind E0. rewrite ctrue_success. nvget. pose proof (proj1 G) as Hs.
  destruct (erase_pages_spec (Z.to_nat (NVOCMP_size s)) (set_flash d s) 0) as (s1&E1&G1&Hw1&Hf1&Hs1&He1);
    try done; [simpl; lia|intros; lia|].
  nvbind E1. nvget. rewrite Hw1. destruct (fresh_ring_spec s1) as (s2&E2&St); [done|by rewrite Hf1| |].
  { intros q Hq. apply He1. rewrite Hs1 in Hq. simpl in Hq. lia. }
  nvbind E2. by exists s2.
Qed.
End Erase.

#[local] Existing Instance nor_codes.
#[local] Existing Instance nor_codes_ok.
#[local] Existing Instance nor_flash.
#[local] Existing Instance nor_laws.
#[local] Existing Instance nor_reliable.

Lemma loaded_geometry : geometry loaded.
Proof.
  split_and!; try by vm_compute. intros p pi.
  intros Hi%list_elem_of_lookup_2. vm_compute in Hi. unfold in_u8.
  repeat (apply elem_of_cons in Hi as [->|Hi]; [simpl; lia|]). by apply elem_of_nil in Hi.
Qed.

Lemma eraseNvApi_empties_witness :
  ∃ s', NVOCMP_eraseNvApi loaded = Ret NVINTF_SUCCESS s' ∧ store s' ∅.
Proof. apply (eraseNvApi_empties loaded loaded_geometry); by vm_compute. Defined.
