(* ===== verification/NvScan.v ===== *)
(** * NV driver: the end of the data on a page

    [NVOCMP_findOffset] returns the offset behind the last byte that is not
    erased, and [NVOCMP_scanPage] restores the page table from the flash. *)

From S2P Require Import Prelude.
From S2P Require Import NvTypes.
From S2P Require Import NvOps.
From S2P Require Import NvCompact.
From S2P Require Import NvItems.
From S2P Require Import NvApi.
From S2P Require Import NvFlash.
From S2P Require Import NvLog.
From S2P Require Import NvFind.
From S2P Require Import NvPages.
From S2P Require Import NvWrite.
From S2P Require Import NvStore.
From S2P Require Import NvDevice.

(** ** Free-space search *)

Definition erased (l : list Z) : Prop := Forall (eq NVOCMP_ERASEDBYTE) l.

Lemma erased_word w :
  is_bytes w → length w = 4%nat → little_endian_to_Z 8 w = NVOCMP_ERASEDWORD ↔ erased w.
Proof.
  intros Hw Hl. assert (Hr := Z_to_little_endian_to_Z 4 8 w).
  split.
  - intros E. rewrite E in Hr. rewrite <- Hr; [by repeat constructor|lia|lia|].
    eapply Forall_impl; [exact Hw|]. done.
  - intros He. destruct w as [|a [|b [|c [|d [|]]]]]; try done.
    unfold erased in He. rewrite !Forall_cons in He. destruct He as (<-&<-&<-&<-&_). done.
Qed.

(** The number of the last byte of a word that is not erased. *)
Lemma findOffset_bytes_spec w n b :
  is_bytes w → length w = 4%nat → (n < 4)%nat → w !! n = Some b → b ≠ NVOCMP_ERASEDBYTE →
  erased (drop (S n) w) → findOffset_bytes w = Z.of_nat (S n).
Proof.
  intros Hw Hl Hn Hb Hne He.
  assert (Hland : ∀ x, in_u8 x → (Z.land x NVOCMP_ERASEDBYTE =? NVOCMP_ERASEDBYTE) = (x =? 255)).
  { intros x Hx. change NVOCMP_ERASEDBYTE with (Z.ones 8). rewrite Z.land_ones by lia.
    rewrite Z.mod_small by (unfold in_u8 in Hx; lia). done. }
  destruct w as [|a0 [|a1 [|a2 [|a3 [|]]]]]; try done.
  unfold is_bytes in Hw. rewrite !Forall_cons in Hw. destruct Hw as (H0&H1&H2&H3&_).
  unfold findOffset_bytes. simpl nth. rewrite !Hland by done. change NVOCMP_ERASEDBYTE with 255 in Hne.
  destruct n as [|[|[|[|n]]]]; [..|lia]; simpl in *; unfold erased in He;
    rewrite ?Forall_cons in He; injection Hb as ->; destruct_and?; subst; simpl;
    change NVOCMP_ERASEDBYTE with 255; rewrite ?Z.eqb_refl;
    destruct (Z.eqb_spec b 255); done.
Qed.

Section Offset.
Context (A R : list Z) (b : Z).
Context (HA : is_bytes (A ++ [b])) (Hb : b ≠ NVOCMP_ERASEDBYTE) (HR : erased R).
Abbreviation buf := ((A ++ [b]) ++ R).
Abbreviation used := (Z.of_nat (S (length A))).

Lemma buf_bytes : is_bytes buf.
Proof.
  apply Forall_app. split; [done|]. eapply Forall_impl; [exact HR|]. intros x <-. by vm_compute.
Qed.

Lemma word_ok ofs : 0 <= ofs → ofs + 4 <= Z.of_nat (length buf) →
  is_bytes (word_at buf ofs) ∧ length (word_at buf ofs) = 4%nat.
Proof.
  intros H1 H2. unfold word_at. split.
  - apply Forall_take, Forall_drop, buf_bytes.
  - rewrite length_take, length_drop. lia.
Qed.

Lemma word_behind ofs : used <= ofs → erased (word_at buf ofs).
Proof.
  intros Ho. unfold word_at. apply Forall_take. rewrite drop_app_ge; [by apply Forall_drop|].
  rewrite length_app. simpl. lia.
Qed.

Lemma word_last ofs : 0 <= ofs → ofs < used → used <= ofs + 4 → ofs + 4 <= Z.of_nat (length buf) →
  findOffset_bytes (word_at buf ofs) = used - ofs ∧ ~ erased (word_at buf ofs).
Proof.
  intros H0 H1 H2 H3. destruct (word_ok ofs H0 H3) as [Hw Hl].
  set (n := (length A - Z.to_nat ofs)%nat).
  assert (El : word_at buf ofs !! n = Some b).
  { unfold word_at. rewrite lookup_take_lt by (unfold n; lia). rewrite lookup_drop.
    replace (Z.to_nat ofs + n)%nat with (length A) by (unfold n; lia).
    rewrite lookup_app_l by (rewrite length_app; simpl; lia).
    by rewrite lookup_app_r, Nat.sub_diag by lia. }
  split.
  - rewrite (findOffset_bytes_spec _ n b Hw Hl ltac:(unfold n; lia) El Hb); [unfold n; lia|].
    unfold word_at. rewrite skipn_firstn_comm. apply Forall_take.
    rewrite drop_drop, drop_app_ge; [by apply Forall_drop|]. rewrite length_app. unfold n. simpl. lia.
  - intros He. eapply Forall_lookup_1 in He; [|exact El]. by apply Hb.
Qed.

Lemma findOffset_words_spec n k tmp :
  4 * Z.of_nat k <= Z.of_nat (length buf) → used <= 4 * Z.of_nat k → (k < n)%nat →
  ∃ ofs, findOffset_words n buf (4 * Z.of_nat k) tmp = (ofs, ofs) ∧
    0 <= ofs < used ∧ used <= ofs + 4 ∧ ofs + 4 <= Z.of_nat (length buf).
Proof.
  revert k tmp. induction n as [|n IH]; intros k tmp Hlen Hu Hk; [lia|].
  destruct k as [|k]; [lia|]. cbn [findOffset_words].
  destruct (Z.leb_spec 4 (4 * Z.of_nat (S k))) as [_|]; [|lia].
  replace (4 * Z.of_nat (S k) - 4) with (4 * Z.of_nat k) by lia.
  destruct (word_ok (4 * Z.of_nat k)) as [Hw Hl]; [lia|lia|].
  pose proof (erased_word _ Hw Hl) as He.
  destruct (decide (used <= 4 * Z.of_nat k)) as [Hge|Hlt].
  - rewrite (proj2 (Z.eqb_eq _ _)) by (by apply He, word_behind). apply IH; lia.
  - destruct (word_last (4 * Z.of_nat k)) as [_ Hne]; [lia..|].
    rewrite (proj2 (Z.eqb_neq _ _)) by (by rewrite He). eexists. split; [done|]. lia.
Qed.

(** The offset behind the last byte that is not erased. *)
Lemma findOffset_in_spec :
  (length buf = 4 * (length buf / 4))%nat → Z.of_nat (length buf) < 65536 →
  findOffset_in buf (Z.of_nat (length buf)) = used.
Proof.
  intros Hdiv Hmax. unfold findOffset_in. set (k := (length buf / 4)%nat) in *.
  assert (Hlen : (S (length A) <= length buf)%nat) by (rewrite !length_app; simpl; lia).
  replace (Z.of_nat (length buf)) with (4 * Z.of_nat k) by lia.
  destruct (findOffset_words_spec (Z.to_nat (4 * Z.of_nat k)) k 0) as (ofs&->&H1&H2&H3); [lia..|].
  destruct (word_last ofs) as [-> _]; [lia..|]. rewrite u16_id; [lia|]. unfold in_u16. lia.
Qed.
End Offset.

(** ** Scanning a page *)

Section Scan.
Context `{NvCodesOk} `{NvsLaws}.
Implicit Types (s : drv).

(** A log ends with a byte that is not erased. *)
Lemma item_bytes_last it : item_ok it → ∃ l, item_bytes it = l ++ [NVOCMP_SIGNATURE].
Proof.
  intros Hok. unfold item_bytes. rewrite item_header_packed by done.
  eexists (it_data it ++ take 6 (packed _ _ _ _ _ _)). by rewrite <- app_assoc.
Qed.

Lemma log_last hdr log :
  last hdr = Some NVOCMP_SIGNATURE → Forall item_ok log →
  ∃ l, hdr ++ log_bytes log = l ++ [NVOCMP_SIGNATURE].
Proof.
  intros (l&->)%last_Some Hok. destruct log as [|it log _] using rev_ind.
  - exists l. by rewrite app_nil_r.
  - apply Forall_app in Hok as [_ Hit%Forall_cons_1]. destruct Hit as [Hit _].
    destruct (item_bytes_last it Hit) as (l'&E).
    rewrite log_bytes_app, log_bytes_one, E. eexists. by rewrite !app_assoc.
Qed.

(** The end of the data of a page whose rest is erased. *)
Lemma findOffset_spec s p hdr log rest :
  in_region p 0 FLASH_PAGE_SIZE → page_log (page_bytes s p) hdr log rest →
  last hdr = Some NVOCMP_SIGNATURE → erased rest →
  NVOCMP_findOffset p FLASH_PAGE_SIZE s = Ret (NVOCMP_PGDATAOFS + log_size log) s.
Proof.
  intros Hr (Hh&Hok&Hb) Hl He. unfold NVOCMP_findOffset. nvbind (read_spec s p 0 FLASH_PAGE_SIZE Hr).
  fold (page_bytes s p). unfold mpure. f_equal.
  pose proof (page_bytes_length s p) as Hlen. pose proof (page_bytes_are_bytes s p) as Hby.
  destruct (log_last hdr log Hl Hok) as (l&El). rewrite app_assoc, El in Hb. rewrite Hb in *.
  change FLASH_PAGE_SIZE with (Z.of_nat 2048). rewrite <- Hlen. rewrite findOffset_in_spec; try done.
  - apply (f_equal length) in El. rewrite !length_app, Hh in El. unfold log_size.
    change NVOCMP_PGDATAOFS with 16. simpl in El. lia.
  - by apply Forall_app in Hby as [? _].
  - by rewrite Hlen.
  - rewrite Hlen. lia.
Qed.

(** What the scan leaves in the table for a page with header [h], [tl]. *)
Definition scanned (st cycle allActive : Z) (tl : list Z) (offset : Z) : NVOCMP_pageInfo_t :=
  let this := decode_compactHdr (take 4 tl) in
  let start := decode_compactHdr (take 4 (drop 4 tl)) in
  let end_ := decode_compactHdr (take 4 (drop 8 tl)) in
  mkPageInfo st cycle (ch_page this) allActive (ch_page start) (ch_page end_) offset
    (ch_pageOffset start) (ch_pageOffset end_).

Lemma getCompactHdr_spec s p pre b rest loc :
  in_region p 0 FLASH_PAGE_SIZE → page_bytes s p = pre ++ b ++ rest → length b = 4%nat →
  Z.of_nat (length pre) = (loc + 1) * NVOCMP_COMPACTHDRLEN →
  NVOCMP_getCompactHdr p loc s = Ret (decode_compactHdr b) s.
Proof.
  intros Hr Hb Hl Ho. unfold NVOCMP_getCompactHdr. rewrite <- Ho.
  change NVOCMP_COMPACTHDRLEN with (Z.of_nat 4). rewrite <- Hl.
  by nvbind (page_read s p pre b rest Hr Hb).
Qed.

Lemma read_headers_spec s p st cycle allActive tl rest :
  let h := mkPageHdr st cycle allActive NVOCMP_VERSION NVOCMP_SIGNATURE in
  in_region p 0 FLASH_PAGE_SIZE → page_bytes s p = encode_pageHdr h ++ tl ++ rest → length tl = 12%nat →
  in_u8 st → in_u8 cycle → 0 <= allActive < 4 →
  read_headers p s = Ret (h, (decode_compactHdr (take 4 tl), decode_compactHdr (take 4 (drop 4 tl)),
                              decode_compactHdr (take 4 (drop 8 tl)))) s.
Proof.
  intros h Hr Hb Hl Hs Hc Ha. unfold read_headers.
  nvbind (readPageHdr_spec s p st cycle allActive _ Hr Hb Hs Hc Ha). fold h.
  set (a := take 4 tl). set (b := take 4 (drop 4 tl)). set (c := take 4 (drop 8 tl)).
  assert (Etl : tl = a ++ b ++ c).
  { unfold a, b, c. rewrite <- (take_drop 4 tl) at 1. f_equal. rewrite <- (take_drop 4 (drop 4 tl)) at 1.
    f_equal. rewrite drop_drop, take_ge; [done|]. rewrite length_drop. lia. }
  assert (length a = 4%nat ∧ length b = 4%nat ∧ length c = 4%nat) as (La&Lb&Lc).
  { unfold a, b, c. rewrite !length_take, !length_drop, Hl. done. }
  rewrite Etl, <- !app_assoc in Hb.
  nvbind (getCompactHdr_spec s p (encode_pageHdr h) a _ THISPAGEHDR Hr Hb La eq_refl).
  rewrite app_assoc in Hb.
  nvbind (getCompactHdr_spec s p _ b _ XSRCSTARTHDR Hr Hb Lb ltac:(by rewrite length_app, La)).
  rewrite app_assoc in Hb.
  nvbind (getCompactHdr_spec s p _ c _ XSRCENDHDR Hr Hb Lc ltac:(by rewrite !length_app, La, Lb)).
  done.
Qed.

Lemma decode_take tl : (4 <= length tl)%nat → decode_compactHdr (take 4 tl) = decode_compactHdr tl.
Proof. destruct tl as [|? [|? [|? [|? ?]]]]; simpl; (lia || done). Qed.

(** A page whose header is in order is not erased by the scan, and its table
    entry is read back from the header. *)
Lemma scanPage_spec s p st cycle allActive tl rest pi0 ofs :
  let h := mkPageHdr st cycle allActive NVOCMP_VERSION NVOCMP_SIGNATURE in
  in_region p 0 FLASH_PAGE_SIZE → page_bytes s p = encode_pageHdr h ++ tl ++ rest → length tl = 12%nat →
  is_page_state st = true → in_u8 st → in_u8 cycle → 0 <= allActive < 4 →
  0 <= p → pageInfo (nvHandle s) !! Z.to_nat p = Some pi0 →
  (if (st =? NVOCMP_PGNACT) || (st =? NVOCMP_PGXDST) then ofs = NVOCMP_PGDATAOFS
   else if negb (recorded tl =? NVOCMP_NULLOFFSET) then ofs = recorded tl
   else NVOCMP_findOffset p FLASH_PAGE_SIZE s = Ret ofs s) →
  NVOCMP_scanPage p s = Ret NVINTF_SUCCESS (with_page p (scanned st cycle allActive tl ofs) s).
Proof.
  intros h Hr Hb Hl Hst Hs Hc Ha Hp Hi Hofs. unfold NVOCMP_scanPage.
  nvbind (read_headers_spec s p st cycle allActive tl rest Hr Hb Hl Hs Hc Ha). fold h.
  cbn [fst ph_state ph_version ph_signature h]. rewrite Hst, !Z.eqb_refl. simpl negb. cbv iota. simpl orb.
  cbv iota. nvget. cbn [fst ph_state ph_cycle ph_allActive h]. rewrite (decode_take tl) by lia. fold (recorded tl).
  unfold scanned. rewrite (decode_take tl) by lia.
  assert (E : (if (st =? NVOCMP_PGNACT) || (st =? NVOCMP_PGXDST) then mpure NVOCMP_PGDATAOFS
    else if negb (recorded tl =? NVOCMP_NULLOFFSET) then mpure (recorded tl)
    else NVOCMP_findOffset p FLASH_PAGE_SIZE) s = Ret ofs s).
  { destruct (_ || _); [by subst|]. destruct (negb _); by subst. }
  nvbind E. by rewrite (mthen_ret _ _ _ _ _ (modPage_spec s p _ pi0 Hp Hi)).
Qed.

(** The table entry of a page that stores a log is restored. *)
Lemma scanPage_stored s p bytes hdr log rest pi pi0 :
  in_region p 0 FLASH_PAGE_SIZE → 0 <= p → pageInfo (nvHandle s) !! Z.to_nat p = Some pi0 →
  page_bytes s p = bytes → page_log bytes hdr log rest → header_ok hdr pi →
  pi_offset pi = NVOCMP_PGDATAOFS + log_size log →
  (recorded (drop 4 hdr) = NVOCMP_NULLOFFSET → erased rest) →
  (pi_state pi = NVOCMP_PGNACT → log = []) →
  ∃ pi', NVOCMP_scanPage p s = Ret NVINTF_SUCCESS (with_page p pi' s) ∧
    pi_state pi' = pi_state pi ∧ pi_cycle pi' = pi_cycle pi ∧ pi_allActive pi' = pi_allActive pi ∧
    pi_offset pi' = pi_offset pi.
Proof.
  intros Hr Hp Hi Eb Hlog Hh Ho He Hn. destruct Hh as (tl&Ehdr&Hl&Htl&Hlast&Hc&Ha&Hs&Hrec).
  exists (scanned (pi_state pi) (pi_cycle pi) (pi_allActive pi) tl (pi_offset pi)).
  split; [|by split_and!].
  assert (Hpl := Hlog). destruct Hlog as (Hh16&Hok&Hb). rewrite Ehdr, <- !app_assoc in Hb.
  rewrite <- Eb in Hb.
  eapply scanPage_spec; try done.
  - unfold stored_states in Hs. unfold is_page_state.
    repeat (apply elem_of_cons in Hs as [->|Hs]; [done|]). by apply not_elem_of_nil in Hs.
  - by apply stored_state_byte.
  - rewrite Ehdr in He. rewrite (drop_app_length' (encode_pageHdr _)) in He by done.
    destruct (Z.eqb_spec (pi_state pi) NVOCMP_PGNACT) as [E|Hne].
    { simpl. rewrite Ho, Hn by done. unfold log_size. simpl. lia. }
    assert (pi_state pi ≠ NVOCMP_PGXDST) by (intros E; rewrite E in Hs; by vm_compute in Hs; set_solver).
    destruct (Z.eqb_spec (pi_state pi) NVOCMP_PGXDST) as [|_]; [done|]. simpl.
    destruct (Z.eqb_spec (recorded tl) NVOCMP_NULLOFFSET) as [E|Hne']; simpl.
    + rewrite Ho. eapply findOffset_spec; [done|by rewrite Eb| |by apply He].
      rewrite Ehdr, last_app, Hlast. done.
    + destruct Hrec as [|[_ ->]]; done.
Qed.

(** The compaction target is recognised. *)
Lemma scanPage_target s p pi0 :
  in_region p 0 FLASH_PAGE_SIZE → 0 <= p → pageInfo (nvHandle s) !! Z.to_nat p = Some pi0 →
  target_ok (page_bytes s p) →
  ∃ pi', NVOCMP_scanPage p s = Ret NVINTF_SUCCESS (with_page p pi' s) ∧ pi_state pi' = NVOCMP_PGXDST.
Proof.
  intros Hr Hp Hi (cycle&allActive&rest&Hb&Hc&Ha).
  pose proof (page_bytes_length s p) as Hl. rewrite Hb, length_app in Hl. simpl in Hl.
  rewrite <- (take_drop 12 rest) in Hb. eexists. split.
  - eapply scanPage_spec; try done. rewrite length_take. lia.
  - done.
Qed.
End Scan.
