(* ===== verification/NvBoot.v ===== *)
(** * NV driver: starting on a flash that holds data

    [NVOCMP_initNvApi] on the pages of a running driver: the page table is
    rebuilt, and the same map is stored after a restart, also when the power
    failed between writing a new copy of an item and retiring the old one. *)

From S2P Require Import Prelude.
From S2P Require Import NvTypes.
From S2P Require Import NvOps.
From S2P Require Import NvCompact.
From S2P Require Import NvItems.
From S2P Require Import NvApi.
From S2P Require Import NvFlash.
From S2P Require Import NvLog.
From S2P Require Import NvFind.
From S2P Require Import NvPages.
From S2P Require Import NvWrite.
From S2P Require Import NvStore.
From S2P Require Import NvDevice.
From S2P Require Import NvKv.
From S2P Require Import NvScan.

(** ** The census of page states *)

Section Census.
Context (st : Z → Z) (size tail act : Z).
Context (Htail : st tail = NVOCMP_PGXDST) (Hdiff : act ≠ tail).
Context (Hact : st act = NVOCMP_PGRDY ∨ st act = NVOCMP_PGACT).
Context (Hrest : ∀ p, 0 <= p < size → p ≠ tail → p ≠ act → st p = NVOCMP_PGNACT ∨ st p = NVOCMP_PGFULL).

Definition census (n : Z) (c : page_census) : page_census :=
  foldl (λ c p, census_add c p (st p)) c (seqZ 0 n).

(** What the census has seen once pages [0 .. n-1] are scanned. *)
Definition counted (n : Z) (c : page_census) : Prop :=
  noPgNdef c = 0 ∧ noPgXsrc c = 0 ∧
  (noPgXdst c, pgXdst c) = (if tail <? n then (1, tail) else (0, NVOCMP_NULLPAGE)) ∧
  (noPgRdy c, pgRdy c) = (if (act <? n) && (st act =? NVOCMP_PGRDY) then (1, act) else (0, NVOCMP_NULLPAGE)) ∧
  (noPgAct c, pgAct c) = (if (act <? n) && (st act =? NVOCMP_PGACT) then (1, act) else (0, NVOCMP_NULLPAGE)) ∧
  noPgNact c <= n - (if act <? n then 1 else 0).

Lemma counted_step n c :
  0 <= n < size → counted n c → counted (n + 1) (census_add c n (st n)).
Proof.
  intros Hn (H1&H2&H3&H4&H5&H6). destruct c as [nn nx nr na nf ns nd px pr pa pn]. simpl in *.
  unfold counted. destruct (decide (n = tail)) as [->|Hnt]; [|destruct (decide (n = act)) as [->|Hna]].
  - rewrite Htail. simpl.
    replace (tail <? tail) with false in H3 by (symmetry; apply Z.ltb_ge; lia).
    replace (tail <? tail + 1) with true by (symmetry; apply Z.ltb_lt; lia).
    replace (act <? tail + 1) with (act <? tail); [|destruct (Z.ltb_spec act tail), (Z.ltb_spec act (tail + 1)); lia].
    split_and!; try done; try lia. by simplify_eq/=.
  - replace (act <? act) with false in * by (symmetry; apply Z.ltb_ge; lia).
    replace (act <? act + 1) with true by (symmetry; apply Z.ltb_lt; lia).
    replace (tail <? act + 1) with (tail <? act); [|destruct (Z.ltb_spec tail act), (Z.ltb_spec tail (act + 1)); lia].
    simpl in *. destruct Hact as [E|E]; rewrite E; simpl; split_and!; try done; try lia; by simplify_eq/=.
  - replace (act <? n + 1) with (act <? n); [|destruct (Z.ltb_spec act n), (Z.ltb_spec act (n + 1)); lia].
    replace (tail <? n + 1) with (tail <? n); [|destruct (Z.ltb_spec tail n), (Z.ltb_spec tail (n + 1)); lia].
    destruct (Hrest n Hn Hnt Hna) as [E|E]; rewrite E; simpl; split_and!; try done; try lia.
Qed.

Lemma census_counted n : 0 <= tail → 0 <= act → 0 <= n <= size → counted n (census n empty_census).
Proof.
  intros Ht Ha Hn. rewrite <- (Z2Nat.id n) in * by lia. induction (Z.to_nat n) as [|k IH].
  { unfold counted, census. simpl. change (Z.of_nat 0) with 0.
    destruct (Z.ltb_spec tail 0), (Z.ltb_spec act 0); try lia. split_and!; done || lia. }
  unfold census. rewrite seqZ_S, foldl_snoc, Z.add_0_l.
  fold (census (Z.of_nat k) empty_census). rewrite Nat2Z.inj_succ, <- Z.add_1_r. apply counted_step; [lia|].
  apply IH. lia.
Qed.
End Census.

Lemma insert_back (logs : Z → list item) p log q : (<[p := logs p]> (<[p := log]> logs)) q = logs q.
Proof.
  destruct (decide (q = p)) as [->|]; [by rewrite fn_lookup_insert|].
  by rewrite !fn_lookup_insert_ne.
Qed.

Section Boot.
Context `{NvCodesOk} `{NvsLaws} `{!NvsReliable} `{!CrcLaws}.
Implicit Types (s b : drv) (m : gmap (Z * Z * Z) (list Z)).

(** ** Rebuilding the page table *)

(** The state of a page of a running driver. *)
Definition page_state s (p : Z) : Z :=
  if decide (p = tailPage (nvHandle s)) then NVOCMP_PGXDST
  else from_option pi_state 0 (pageInfo (nvHandle s) !! Z.to_nat p).

(** Driver [b] has the pages of [s], and an unspecified table. *)
Record booting s b : Prop := {
  bt_bytes p : page_bytes b p = page_bytes s p;
  bt_size : NVOCMP_size b = NVOCMP_size s;
  bt_table : length (pageInfo (nvHandle b)) = length (pageInfo (nvHandle s));
  bt_failF : NVOCMP_failF b = NVINTF_SUCCESS;
  bt_failW : NVOCMP_failW b = NVINTF_SUCCESS
}.

(** The table entry of page [p] is as in [s], as far as the ring needs it. *)
Definition restored s b (p : Z) : Prop :=
  ∃ pi', pageInfo (nvHandle b) !! Z.to_nat p = Some pi' ∧ pi_state pi' = page_state s p ∧
    (p ≠ tailPage (nvHandle s) → ∃ pi, pageInfo (nvHandle s) !! Z.to_nat p = Some pi ∧
       pi_state pi' = pi_state pi ∧ pi_cycle pi' = pi_cycle pi ∧ pi_allActive pi' = pi_allActive pi ∧
       pi_offset pi' = pi_offset pi).

Lemma booting_with_page s b p pi : booting s b → booting s (with_page p pi b).
Proof. intros [? ? ? ? ?]. split; try done. simpl. by rewrite length_insert. Qed.

Lemma scanPage_restores s logs b p :
  ring s logs → booting s b → 0 <= p < NVOCMP_size s →
  ∃ pi', NVOCMP_scanPage p b = Ret NVINTF_SUCCESS (with_page p pi' b) ∧ restored s (with_page p pi' b) p.
Proof.
  intros R B Hp. pose proof (ring_in_region s logs p R Hp) as Hr.
  assert (∃ pi0, pageInfo (nvHandle b) !! Z.to_nat p = Some pi0) as (pi0&Hi0).
  { apply lookup_lt_is_Some. rewrite (bt_table _ _ B), (ring_table _ _ R).
    pose proof (ring_size _ _ R). unfold NVOCMP_NVPAGES in *. lia. }
  unfold restored, page_state. destruct (decide (p = tailPage (nvHandle s))) as [->|Hne].
  - destruct (scanPage_target b _ pi0 Hr ltac:(lia) Hi0) as (pi'&E&Hst).
    { rewrite (bt_bytes _ _ B). apply R. }
    exists pi'. split; [done|]. exists pi'. by rewrite (with_page_info _ _ pi0).
  - destruct (ring_page _ _ R p Hp Hne) as (hdr&rest&pi&Hlog&Hi&Ho&Hh&He).
    assert (Hnact : pi_state pi = NVOCMP_PGNACT → logs p = []).
    { intros Hst. pose proof (ring_states _ _ R p pi Hp Hne Hi) as Hs.
      case_decide; [done|]. destruct Hs as [[_ ?]|Hs]; [done|]. rewrite Hst in Hs. done. }
    destruct (scanPage_stored b p _ hdr (logs p) rest pi pi0 Hr ltac:(lia) Hi0 (bt_bytes _ _ B p) Hlog Hh Ho He Hnact)
      as (pi'&E&Hst&Hrest).
    exists pi'. split; [done|]. exists pi'. rewrite (with_page_info _ _ pi0) by done.
    rewrite Hi. split_and!; try done. intros _. by exists pi.
Qed.

Lemma scan_pages_spec s logs n b p c :
  ring s logs → booting s b → 0 <= p → p + Z.of_nat n = NVOCMP_size s →
  (∀ q, 0 <= q < p → restored s b q) →
  ∃ b', scan_pages n p c b = Ret (Some (foldl (λ c q, census_add c q (page_state s q)) c (seqZ p (Z.of_nat n)))) b' ∧
    booting s b' ∧ tailPage (nvHandle b') = tailPage (nvHandle b) ∧ (∀ q, 0 <= q < NVOCMP_size s → restored s b' q).
Proof.
  intros R. revert b p c. induction n as [|n IH]; intros b p c B Hp Hn Hq.
  { exists b. split_and!; try done. intros q Hq'. apply Hq. lia. }
  cbn [scan_pages]. destruct (scanPage_restores s logs b p R B ltac:(lia)) as (pi'&E&Hr).
  nvbind E. rewrite Z.eqb_refl. change (negb true) with false. cbv iota. destruct (Hr) as (pi1&Hi1&Hst&_).
  nvbind (getPage_spec _ p pi1 Hp Hi1). rewrite Hst.
  destruct (IH (with_page p pi' b) (p + 1) (census_add c p (page_state s p)))
    as (b'&E'&B'&Ht'&Hr'); [by apply booting_with_page|lia|lia| |].
  - intros q Hq'. destruct (decide (q = p)) as [->|Hne]; [done|].
    destruct (Hq q ltac:(lia)) as (pi2&Hi2&Hrest). exists pi2. split; [|done].
    simpl. rewrite list_lookup_insert_ne by lia. done.
  - exists b'. rewrite E'. rewrite Nat2Z.inj_succ, (seqZ_cons p) by lia. rewrite Z.pred_succ.
    rewrite <- Z.add_1_r. split_and!; try done.
Qed.

(** The rebuilt table makes the booting driver a ring again. *)
Lemma ring_restored s logs b :
  ring s logs → booting s b → (∀ q, 0 <= q < NVOCMP_size s → restored s b q) →
  tailPage (nvHandle b) = tailPage (nvHandle s) → actPage (nvHandle b) = actPage (nvHandle s) →
  actOffset (nvHandle b) = actOffset (nvHandle s) → ring b logs.
Proof.
  intros R B Hr Ht Ha Ho. split; rewrite ?(bt_size _ _ B), ?Ht, ?Ha; try apply R.
  - rewrite (bt_table _ _ B). apply R.
  - intros p Hp Hne. destruct (ring_page _ _ R p Hp Hne) as (hdr&rest&pi&Hlog&Hi&Hofs&Hh&He).
    destruct (Hr p Hp) as (pi'&Hi'&_&Hagree). destruct (Hagree Hne) as (pi2&Hi2&E1&E2&E3&E4).
    assert (pi2 = pi) as -> by congruence.
    exists hdr, rest, pi'. rewrite (bt_bytes _ _ B), E4. split_and!; try done.
    unfold header_ok. by rewrite E1, E2, E3, E4.
  - rewrite Ho. apply R.
  - intros p pi' Hp Hne Hi'. rewrite (bt_size _ _ B) in Hp. rewrite Ht in Hne. rewrite Ha.
    destruct (Hr p Hp) as (pi1&Hi1&_&Hagree). destruct (Hagree Hne) as (pi2&Hi2&E1&_).
    assert (pi1 = pi') as -> by congruence. rewrite E1. by apply (ring_states _ _ R).
  - rewrite (bt_bytes _ _ B). apply R.
Qed.

(** ** Completing an interrupted write *)

Lemma complete_empty b logs :
  ring b logs → logs (actPage (nvHandle b)) = [] → complete_pending b = Ret tt b.
Proof.
  intros R El. unfold complete_pending. do 2 nvget. rewrite (ring_offset _ _ R), El. done.
Qed.

Lemma complete_step b logs pre it :
  ring b logs → logs (actPage (nvHandle b)) = pre ++ [it] →
  complete_pending b =
  if NVOCMP_PGDATAOFS + NVOCMP_ITEMHDRLEN <? actOffset (nvHandle b) then
    match search_id b (<[actPage (nvHandle b) := pre]> logs) (expanded (actPage (nvHandle b)) (header_ofs pre it) it) with
    | Some (q, pre', it') => NVOCMP_setItemInactive q (header_ofs pre' it') b
    | None => Ret tt b
    end
  else Ret tt b.
Proof.
  intros R El. unfold complete_pending. do 2 nvget.
  destruct (Z.ltb_spec (NVOCMP_PGDATAOFS + NVOCMP_ITEMHDRLEN) (actOffset (nvHandle b))) as [Hlt|]; [|done].
  pose proof (ring_act _ _ R) as Ha. pose proof (ring_in_region b logs _ R Ha) as Hr.
  destruct (ring_page _ _ R _ Ha (ring_distinct _ _ R)) as (hdr&rest&pi&Hlog&_).
  pose proof (page_log_size _ _ _ _ _ Hlog) as Hsz. destruct Hlog as (Hh&Hok&Hb).
  rewrite El in Hok, Hb, Hsz. apply Forall_app in Hok as [_ Hit%Forall_cons_1]. destruct Hit as [Hit _].
  assert (Eo : actOffset (nvHandle b) - NVOCMP_ITEMHDRLEN = header_ofs pre it).
  { rewrite (ring_offset _ _ R), El, log_size_app, log_size_one. unfold header_ofs, item_size. lia. }
  assert (EB : page_bytes b (actPage (nvHandle b)) = (hdr ++ log_bytes pre ++ it_data it) ++ item_header it ++ rest).
  { rewrite Hb, log_bytes_app, log_bytes_one. unfold item_bytes. by rewrite <- !app_assoc. }
  rewrite Eo. assert (Hlen : header_ofs pre it = Z.of_nat (length (hdr ++ log_bytes pre ++ it_data it))).
  { rewrite !length_app, Hh. unfold header_ofs, log_size, it_len. change NVOCMP_PGDATAOFS with 16. lia. }
  nvbind (readHeader_spec b _ _ it _ _ Hr Hit EB Hlen). cbn [ih_stats ih_len expanded].
  assert (EF : ctrue (Z.land (ih_stats (expanded (actPage (nvHandle b)) (header_ofs pre it) it)) NVOCMP_FOLLOWBIT) = true)
    by (simpl; by destruct (it_live it)).
  cbn [ih_stats expanded] in EF. rewrite EF.
  rewrite log_size_app, log_size_one in Hsz. pose proof (log_size_nonneg pre). pose proof (item_size_bound it).
  assert (Ep : u16 (header_ofs pre it - it_len it) = NVOCMP_PGDATAOFS + log_size pre).
  { unfold header_ofs. change NVOCMP_PGDATAOFS with 16. rewrite u16_id; unfold in_u16; lia. }
  rewrite Ep. pose proof (findItem_before b logs NVOCMP_FINDSTRICT
    (expanded (actPage (nvHandle b)) (header_ofs pre it) it) pre [it] R ltac:(by vm_compute) El) as Hfind.
  unfold search_id. destruct (ring_search _ _ _ _ _ _) as [[[q pre'] it']|].
  - nvbind Hfind. cbn [ih_hpage ih_hofs expanded]. rewrite Z.eqb_refl.
    by rewrite (proj2 (Z.ltb_lt _ _) (header_ofs_pos pre' it')).
  - nvbind Hfind. simpl ih_hofs. rewrite andb_false_r. done.
Qed.

Lemma entries_ext logs logs' pages :
  (∀ q, q ∈ pages → logs' q = logs q) → entries logs' pages = entries logs pages.
Proof.
  intros E. unfold entries. induction pages as [|p pages IH]; [done|]. rewrite !bind_cons.
  rewrite (E p) by set_solver. f_equal. apply IH. set_solver.
Qed.

(** The entries without the last item of a page. *)
Lemma entries_unsnoc logs pages q pre it :
  NoDup pages → q ∈ pages → logs q = pre ++ [it] →
  entries logs pages ≡ₚ omap entry [it] ++ entries (<[q := pre]> logs) pages.
Proof.
  intros Hnd Hq El. destruct (entries_split logs pages q Hnd Hq) as (others&_&E).
  rewrite <- (entries_self logs pages q), E, E, El, omap_app.
  rewrite <- app_assoc. rewrite (Permutation_app_comm (omap entry pre)).
  rewrite <- app_assoc. f_equiv. apply Permutation_app_comm.
Qed.

Definition item_id (it : item) : NVINTF_itemID_t := mkItemID (it_sys it) (it_item it) (it_sub it).

Lemma expanded_names pg ofs it : names (expanded pg ofs it) (item_id it).
Proof. done. Qed.

Lemma item_id_valid it : item_ok it → valid_id (item_id it).
Proof. intros (?&?&?&_). done. Qed.

Lemma items_ok_prefix b logs pre it :
  ring b logs → logs (actPage (nvHandle b)) = pre ++ [it] →
  items_ok b (<[actPage (nvHandle b) := pre]> logs) ∧ item_ok it.
Proof.
  intros R El. pose proof (ring_items_ok b logs R) as Hok. split.
  - intros q it' Hq Hit. apply (Hok q); [done|].
    destruct (decide (q = actPage (nvHandle b))) as [->|Hne].
    + rewrite fn_lookup_insert in Hit. rewrite El. set_solver.
    + by rewrite fn_lookup_insert_ne in Hit.
  - apply (Hok (actPage (nvHandle b))); [by eapply act_in_store_pages|]. rewrite El. set_solver.
Qed.

(** After an orderly stop there is nothing to complete. *)
Lemma complete_settled b logs m : represents b logs m → complete_pending b = Ret tt b.
Proof.
  intros (R&E&Hse&_). destruct (logs (actPage (nvHandle b))) as [|it pre _] eqn:El using rev_ind.
  { by eapply complete_empty. }
  rewrite (complete_step b logs pre it R El). destruct (_ <? _); [|done].
  destruct (items_ok_prefix b logs pre it R El) as [Hok Hit].
  assert (∃ m0, entries (<[actPage (nvHandle b) := pre]> logs) (store_pages b) ≡ₚ map_to_list m0 ∧
                m0 !! it_key it = None) as (m0&E0&Hm0).
  { pose proof (entries_unsnoc logs _ _ pre it (store_pages_NoDup b) (act_in_store_pages b logs R) El) as Eu.
    unfold entry in Eu. simpl in Eu. destruct (it_live it) eqn:Hl; simpl in Eu.
    - exists (delete (it_key it) m). split; [|apply lookup_delete_eq].
      eapply entries_delete; [|exact E|exact Eu]. apply elem_of_map_to_list. rewrite <- E, Eu. set_solver.
    - exists m. split; [by rewrite <- Eu|]. apply Hse; [|done]. by rewrite El, last_snoc. }
  by rewrite (search_absent b _ m0 _ (item_id it) (ring_act _ _ R) Hok E0 (expanded_names _ _ it) (item_id_valid it Hit) Hm0).
Qed.

(** A new copy that was written, but whose old copy was not yet retired, takes
    its place. *)
Lemma complete_interrupted s logs m it b old :
  represents s logs m → NVOCMP_failF s = NVINTF_SUCCESS → appended s logs it b →
  it_live it = true → 0 < it_len it → m !! it_key it = Some old →
  ∃ b', complete_pending b = Ret tt b' ∧ store b' (<[it_key it := it_data it]> m).
Proof.
  intros Rp Hf A Hl Hlen Hm. assert (A' := A). destruct A' as (R'&Es&Et&_&_&Ha&_).
  destruct (Rp) as (R&E&_).
  assert (El : (<[actPage (nvHandle s) := logs (actPage (nvHandle s)) ++ [it]]> logs) (actPage (nvHandle b))
               = logs (actPage (nvHandle s)) ++ [it]) by (rewrite Ha; apply fn_lookup_insert).
  rewrite (complete_step b _ _ it R' El). rewrite (ring_offset _ _ R'), El, log_size_app, log_size_one.
  pose proof (log_size_nonneg (logs (actPage (nvHandle s)))). unfold item_size.
  destruct (Z.ltb_spec (NVOCMP_PGDATAOFS + NVOCMP_ITEMHDRLEN)
    (NVOCMP_PGDATAOFS + (log_size (logs (actPage (nvHandle s))) + (it_len it + NVOCMP_ITEMHDRLEN)))) as [_|]; [|lia].
  destruct (items_ok_prefix b _ _ it R' El) as [Hok Hit].
  set (hdr := expanded _ _ it). set (logs0 := <[actPage (nvHandle b) := _]> _) in *.
  assert (E0 : entries logs0 (store_pages b) ≡ₚ map_to_list m).
  { rewrite (store_pages_same s b Es Et), <- E. erewrite entries_ext; [done|].
    intros q _. unfold logs0. rewrite Ha. by apply insert_back. }
  destruct (search_present b logs0 m hdr (item_id it) old (ring_act _ _ R') Hok E0 (expanded_names _ _ it)
              (item_id_valid it Hit) Hm) as (q&pre&it0&post&L&Esearch).
  rewrite Esearch.
  assert (L' : located s logs (it_key it) old q pre it0 post).
  { destruct L as (Hq&Ht&Elq&L). rewrite Es in Hq. rewrite Et in Ht. split_and!; try done; try lia; try apply L.
    rewrite <- Elq. unfold logs0. rewrite Ha. symmetry. by apply insert_back. }
  by eapply (inactive_replaced s logs m it b).
Qed.

(** ** Initialisation *)

(** The driver [b] of a program that just started on the flash of [s]. *)
Definition restarted s b : Prop :=
  NVOCMP_failF b = NVINTF_NOTREADY ∧ ∀ a, mem (flash b) a = mem (flash s) a.

(** The number of pages that [NVOCMP_initNvApi] computes is the one [s] uses. *)
Definition device_fits s : Prop :=
  NVS_sectorSize = FLASH_PAGE_SIZE ∧
  let n := u8 (NVS_regionSize / NVS_sectorSize) in
  NVOCMP_size s = (if NVOCMP_NVPAGES <? n then NVOCMP_NVPAGES else n).

(** The same ring, read back from flash. *)
Record rebooted s (logs : Z → list item) b : Prop := {
  rb_ring : ring b logs;
  rb_size : NVOCMP_size b = NVOCMP_size s;
  rb_tail : tailPage (nvHandle b) = tailPage (nvHandle s);
  rb_act : actPage (nvHandle b) = actPage (nvHandle s);
  rb_failF : NVOCMP_failF b = NVINTF_SUCCESS;
  rb_failW : NVOCMP_failW b = NVINTF_SUCCESS;
  rb_state : act_state b = act_state s
}.

Lemma page_state_act s logs :
  ring s logs → writable s →
  page_state s (actPage (nvHandle s)) = (if bool_decide (act_state s = Some NVOCMP_PGACT) then NVOCMP_PGACT else NVOCMP_PGRDY).
Proof.
  intros R W. unfold page_state. rewrite decide_False by apply R.
  unfold writable, act_state in *. destruct (pageInfo (nvHandle s) !! _) as [pi|]; simpl in *;
    destruct W as [[= ->]|[= ->]]; done.
Qed.

Lemma census_resume s logs :
  ring s logs → writable s →
  counted (page_state s) (tailPage (nvHandle s)) (actPage (nvHandle s)) (NVOCMP_size s)
    (census (page_state s) (NVOCMP_size s) empty_census).
Proof.
  intros R W. pose proof (ring_size _ _ R). pose proof (ring_act _ _ R). pose proof (ring_tail _ _ R).
  apply (census_counted _ (NVOCMP_size s)); try lia.
  - unfold page_state. by rewrite decide_True.
  - apply R.
  - rewrite (page_state_act s logs R W). case_bool_decide; auto.
  - intros p Hp Ht Ha. unfold page_state. rewrite decide_False by done.
    destruct (getPage_ok s logs p R Hp) as (pi&Hi&_). rewrite Hi. simpl.
    pose proof (ring_states _ _ R p pi Hp Ht Hi) as Hs. rewrite decide_False in Hs by done. naive_solver.
Qed.

(** The scan finds the compaction target and one active page: the driver
    resumes. *)
Lemma init_decide_resume s logs b c :
  ring s logs → NVOCMP_size b = NVOCMP_size s →
  counted (page_state s) (tailPage (nvHandle s)) (actPage (nvHandle s)) (NVOCMP_size s) c →
  init_decide c b = Ret (NVOCMP_NORMAL_RESUME, c) b ∧ pgXdst c = tailPage (nvHandle s).
Proof.
  intros R Hs (G1&G2&G3&G4&_&G6). pose proof (ring_act _ _ R). pose proof (ring_tail _ _ R).
  rewrite (proj2 (Z.ltb_lt _ _)) in G3 by lia. rewrite (proj2 (Z.ltb_lt _ _)) in G4, G6 by lia.
  injection G3 as Hx1 Hx2. split; [|done].
  unfold init_decide. nvget. rewrite G1, G2, Hx1, Hs.
  destruct (Z.ltb_spec 1 (noPgRdy c)) as [Hbad|_].
  { simpl in G4. destruct (_ =? _); injection G4; lia. }
  simpl. destruct (Z.eqb_spec (noPgNact c) (NVOCMP_size s)); [lia|done].
Qed.

Lemma act_offset_restored s logs b pi :
  ring s logs → restored s b (actPage (nvHandle s)) →
  pageInfo (nvHandle b) !! Z.to_nat (actPage (nvHandle s)) = Some pi →
  pi_offset pi = actOffset (nvHandle s) ∧ Some (pi_state pi) = act_state s.
Proof.
  intros R (pi'&Hi&_&Hag) Hpi. assert (pi' = pi) as -> by congruence.
  destruct (Hag (ring_distinct _ _ R)) as (pi2&Hi2&E1&_&_&E4).
  destruct (ring_page _ _ R _ (ring_act _ _ R) (ring_distinct _ _ R)) as (?&?&pi3&_&Hi3&Ho&_).
  unfold act_state. rewrite Hi2, E1, E4. assert (pi3 = pi2) as -> by congruence.
  by rewrite Ho, (ring_offset _ _ R).
Qed.

(** Entering the active page: the ring of [s] is back. *)
Lemma set_active_spec s logs b :
  ring s logs → booting s b → (∀ q, 0 <= q < NVOCMP_size s → restored s b q) →
  tailPage (nvHandle b) = tailPage (nvHandle s) →
  ∃ b', set_active (actPage (nvHandle s)) b = Ret tt b' ∧ rebooted s logs b'.
Proof.
  intros R B Hr Ht. unfold set_active. nvget. pose proof (ring_act _ _ R) as Ha.
  destruct (Hr _ Ha) as (pi&Hi&_). set (b1 := set_handle _ b).
  rewrite (mthen_ret _ _ _ _ _ (getPage_spec b1 (actPage (nvHandle s)) pi (proj1 Ha) Hi)).
  destruct (act_offset_restored s logs b pi R (Hr _ Ha) Hi) as [Eo Est]. rewrite Eo.
  eexists. split; [reflexivity|]. set (b2 := set_handle _ b1).
  assert (B2 : booting s b2) by (destruct B; by split).
  split; try done; try apply B2.
  - by apply (ring_restored s logs b2).
  - unfold act_state at 1. simpl. by rewrite Hi.
Qed.

Lemma init_resume_spec s logs b c :
  ring s logs → writable s → booting s b → (∀ q, 0 <= q < NVOCMP_size s → restored s b q) →
  counted (page_state s) (tailPage (nvHandle s)) (actPage (nvHandle s)) (NVOCMP_size s) c →
  pgXdst c = tailPage (nvHandle s) →
  ∃ b', rebooted s logs b' ∧
    init_resume c b = (if bool_decide (act_state s = Some NVOCMP_PGACT) then complete_pending b' else Ret tt b').
Proof.
  intros R W B Hr (_&_&_&Hrdy&Hact&_) Hx. unfold init_resume. do 3 nvget. rewrite Hx.
  set (b1 := set_handle _ (set_handle _ b)).
  assert (B1 : booting s b1) by (destruct B; by split).
  destruct (set_active_spec s logs b1 R B1 Hr eq_refl) as (b2&E&Rb). exists b2. split; [done|].
  pose proof (ring_act _ _ R) as Ha. pose proof (ring_size _ _ R) as Hs.
  assert (Hnn : actPage (nvHandle s) ≠ NVOCMP_NULLPAGE) by (unfold NVOCMP_NVPAGES, NVOCMP_NULLPAGE in *; lia).
  rewrite (proj2 (Z.ltb_lt _ _)) in Hrdy, Hact by lia. rewrite (page_state_act s logs R W) in Hrdy, Hact.
  case_bool_decide; simpl in Hrdy, Hact; injection Hact as _ ->.
  - rewrite (proj2 (Z.eqb_neq _ _) Hnn). change (negb false) with true. cbv iota. by nvbind E.
  - injection Hrdy as _ ->. rewrite Z.eqb_refl, (proj2 (Z.eqb_neq _ _) Hnn).
    change (negb true) with false. change (negb false) with true. cbv iota. exact E.
Qed.

Lemma initNv_spec s logs b :
  ring s logs → writable s → booting s b →
  ∃ b', rebooted s logs b' ∧
    NVOCMP_initNv b = (if bool_decide (act_state s = Some NVOCMP_PGACT) then complete_pending b' else Ret tt b').
Proof.
  intros R W B. unfold NVOCMP_initNv. nvget. rewrite (bt_size _ _ B). pose proof (ring_size _ _ R).
  destruct (scan_pages_spec s logs (Z.to_nat (NVOCMP_size s)) b 0 empty_census R B) as (b1&E1&B1&_&Hr);
    [lia|lia|intros; lia|].
  nvbind E1. rewrite Z2Nat.id by lia. fold (census (page_state s) (NVOCMP_size s) empty_census).
  pose proof (census_resume s logs R W) as Hc. set (c := census _ _ _) in *.
  destruct (init_decide_resume s logs b1 c R (bt_size _ _ B1) Hc) as [E2 Hx]. nvbind E2. nvget.
  set (b2 := set_gAction _ b1). assert (B2 : booting s b2) by (destruct B1; by split).
  by destruct (init_resume_spec s logs b2 c R W B2 Hr Hc Hx) as (b3&Rb&->); eauto.
Qed.

(** [NVOCMP_initNvApi] of a restarted program reads the ring back. *)
Lemma initNvApi_spec s logs b :
  ring s logs → writable s → device_fits s → restarted s b →
  ∃ b', rebooted s logs b' ∧
    NVOCMP_initNvApi b =
    mthen (if bool_decide (act_state s = Some NVOCMP_PGACT) then complete_pending else mpure tt)
      (λ _, gets NVOCMP_failW) b'.
Proof.
  intros R W [Hsec Hn] [Hf Hm]. unfold NVOCMP_initNvApi. do 2 nvget. rewrite Hf, Z.eqb_refl.
  do 5 nvget. cbv zeta in Hn. rewrite <- Hn. rewrite Hsec, Z.eqb_refl. change (negb true) with false.
  pose proof (ring_region _ _ R). destruct (Z.ltb_spec NVS_regionSize (NVOCMP_size s * FLASH_PAGE_SIZE)); [lia|].
  change (false || false) with false. cbv iota. do 3 nvget.
  match goal with |- context [mthen NVOCMP_initNv _ ?b0] => set (b1 := b0) end.
  assert (B1 : booting s b1).
  { split; try done; [|by rewrite (ring_table _ _ R)]. intros p. apply page_bytes_ext. apply Hm. }
  destruct (initNv_spec s logs b1 R W B1) as (b2&Rb&E). exists b2. split; [done|].
  unfold mthen. rewrite E. by case_bool_decide.
Qed.

Lemma boot_store s m b :
  store s m → device_fits s → restarted s b →
  ∃ b', NVOCMP_initNvApi b = Ret NVINTF_SUCCESS b' ∧ store b' m.
Proof.
  intros ((logs&Rp)&_) Hd Hb. assert (Rp' := Rp). destruct Rp' as (R&E&Hse&W).
  destruct (initNvApi_spec s logs b R W Hd Hb) as (b'&[R' Hs Ht Ha Hf Hw Hst]&Ei).
  assert (Rp' : represents b' logs m).
  { split_and!; [done| | |unfold writable; by rewrite Hst].
    - by rewrite (store_pages_same s b' Hs Ht).
    - intros it. rewrite Ha. apply Hse. }
  exists b'. split; [|split; eauto]. rewrite Ei.
  case_bool_decide; [nvbind (complete_settled b' logs m Rp')|]; unfold gets, mthen, mpure; by rewrite Hw.
Qed.

Lemma boot_appended s logs m it s1 b old :
  represents s logs m → NVOCMP_failF s = NVINTF_SUCCESS → appended s logs it s1 →
  it_live it = true → 0 < it_len it → m !! it_key it = Some old →
  device_fits s1 → restarted s1 b →
  ∃ b', NVOCMP_initNvApi b = Ret NVINTF_SUCCESS b' ∧ store b' (<[it_key it := it_data it]> m).
Proof.
  intros Rp Hf (R1&Es&Et&Ef&_&Ea&Est) Hl Hlen Hm Hd Hb.
  destruct (initNvApi_spec s1 _ b R1 (or_intror Est) Hd Hb) as (b'&[R' Hs Ht Ha Hf' Hw Hst]&Ei).
  rewrite Ei, bool_decide_eq_true_2 by done.
  destruct (complete_interrupted s logs m it b' old Rp Hf) as (b2&E2&St); try done.
  { split_and!; [done|..]; try congruence. }
  exists b2. nvbind E2. split; [|done]. unfold gets. by destruct St as (_&_&->).
Qed.

(** C20: Persistence. When a program that stores the map [m] stops, at any time
    between two calls, and a program starts on the same flash, then
    NVOCMP_initNvApi returns NVINTF_SUCCESS and the driver stores [m] again. *)
Theorem initNvApi_restores s m b :
  store s m → device_fits s → restarted s b →
  ∃ b', NVOCMP_initNvApi b = Ret NVINTF_SUCCESS b' ∧ store b' m.
Proof. apply boot_store. Qed.

(** C21: Power loss in the middle of a write of a new item, or of a value as long as the old one, for
    which a page has room without compaction. NVOCMP_writeItemApi first adds the new copy of the
    item and then retires the old one. When the power fails between the two, NVOCMP_initNvApi at
    the next start finds both copies, retires the old one and the driver stores the new value. *)
Theorem interrupted_write_completes s m id len buf :
  store s m → device_fits s → valid_id id → 0 < len <= NVOCMP_MAXLEN → buffer_ok buf len →
  room s (NVOCMP_ITEMHDRLEN + len) →
  (∀ old, m !! id_key id = Some old → Z.of_nat (length old) = len) →
  ∃ r s1, NVOCMP_addItem (checked id len) buf NVOCMP_WRITE s = Ret r s1 ∧
    ∀ b, restarted s1 b →
      ∃ b', NVOCMP_initNvApi b = Ret NVINTF_SUCCESS b' ∧
        store b' (<[id_key id := take (Z.to_nat len) buf]> m).
Proof.
  intros ((logs&Rp)&Hf&Hw) Hd Hv Hl Hbuf Hroom Hold.
  destruct (addItem_start _ logs m (checked id len) buf NVOCMP_WRITE id len Rp Hf Hw (checked_names id len)
              eq_refl Hv Hl Hbuf Hroom) as (s1&Rp1&S1&Hf1&Hw1&Hfit&Eadd).
  assert (Hd1 : device_fits s1) by (unfold device_fits in *; by rewrite (sr_size _ _ S1)).
  destruct (m !! id_key id) as [old|] eqn:Em.
  - destruct (find_present s1 logs m (search_header (checked id len)) id old Rp1 (checked_names id len) Hv Em)
      as (q&pre&it&post&L&E).
    rewrite (mthen_ret _ _ _ _ _ (search_old s1 _ _ _ _ E)) in Eadd.
    set (h := set_found _ _ (checked id len)) in *.
    destruct (item_of_ok id h buf len (checked_names id len) eq_refl Hv ltac:(lia) Hbuf) as (_&El&_&Ek&Ed).
    specialize (Hold old eq_refl).
    assert (Hlo : it_len it = len) by (destruct L as (_&_&_&_&_&Hdat&_); unfold it_len; by rewrite Hdat).
    pose proof (store_item_old s1 logs _ old q pre it post h buf (proj1 Rp1) L (Hfit h (checked_names id len) eq_refl)
      (proj1 Hbuf) ltac:(simpl; lia) eq_refl eq_refl) as Hs.
    replace (length old - Z.to_nat (ih_len h))%nat with 0%nat in Hs by (simpl; lia). rewrite drop_0 in Hs.
    case_bool_decide as Hb.
    + exists (NVOCMP_failW s1, set_found q 0 h), s1. rewrite Eadd. split; [done|]. intros b Hr.
      apply (boot_store s1); try done. split; [|done]. exists logs.
      rewrite insert_id; [done|]. rewrite Em. by rewrite Hb, <- Ed.
    + destruct Hs as (s2&Es&A). exists (NVINTF_SUCCESS, h), s2. rewrite Eadd. split; [done|]. intros b Hr.
      rewrite <- Ed, <- Ek. eapply (boot_appended s1 logs m (item_of h buf) s2 b old); try done.
      * rewrite El. simpl. lia.
      * unfold device_fits in *. by rewrite (proj1 (proj2 A)).
  - pose proof (find_absent s1 logs m (search_header (checked id len)) id Rp1 (checked_names id len) Hv Em) as E.
    rewrite (mthen_ret _ _ _ _ _ (search_old s1 _ _ _ _ E)) in Eadd. simpl in Eadd.
    set (h := set_found 0 0 (checked id len)) in *.
    destruct (item_of_ok id h buf len (checked_names id len) eq_refl Hv ltac:(lia) Hbuf) as (_&El&_&Ek&Ed).
    destruct (store_item_new s1 logs h buf (proj1 Rp1) (Hfit h (checked_names id len) eq_refl) eq_refl)
      as (s2&Es&A).
    exists (NVINTF_SUCCESS, h), s2. rewrite Eadd. split; [exact Es|]. intros b Hr.
    apply (boot_store s2); try done.
    + rewrite <- Ed, <- Ek. by eapply (appended_store s1 logs m).
    + unfold device_fits in *. by rewrite (proj1 (proj2 A)).
Qed.
End Boot.

(** ** Witnesses on the concrete device *)

#[local] Existing Instance nor_codes.
#[local] Existing Instance nor_codes_ok.
#[local] Existing Instance nor_flash.
#[local] Existing Instance nor_laws.
#[local] Existing Instance nor_reliable.
#[local] Existing Instance nor_crc.

Lemma loaded_fits : device_fits loaded.
Proof. by vm_compute. Qed.

Lemma initNvApi_restores_witness :
  ∃ b', NVOCMP_initNvApi (powered_on (flash loaded)) = Ret NVINTF_SUCCESS b' ∧
    store b' {[ (3, 5, 7) := [10; 20; 30] ]}.
Proof. apply (initNvApi_restores loaded _ _ loaded_store loaded_fits). by split. Defined.

Lemma interrupted_write_completes_witness :
  ∃ r s1, NVOCMP_addItem (checked demo_id 3) [1; 2; 3] NVOCMP_WRITE loaded = Ret r s1 ∧
    ∀ b, restarted s1 b →
      ∃ b', NVOCMP_initNvApi b = Ret NVINTF_SUCCESS b' ∧ store b' {[ (3, 5, 7) := [1; 2; 3] ]}.
Proof.
  apply (interrupted_write_completes loaded {[ (3, 5, 7) := [10; 20; 30] ]} demo_id 3 [1; 2; 3]
           loaded_store loaded_fits demo_valid).
  - by vm_compute.
  - split; [by apply demo_buffer|done].
  - apply loaded_room. by vm_compute.
  - intros old E. by injection E as <-.
Defined.
