(* ===== verification/NvFormat.v ===== *)
(** * NV driver: the first start

    [NVOCMP_initNvApi] on a device whose pages carry no valid page header (a
    blank or foreign flash) erases and formats them: the driver stores nothing. *)

From S2P Require Import Prelude.
From S2P Require Import NvTypes.
From S2P Require Import NvOps.
From S2P Require Import NvCompact.
From S2P Require Import NvItems.
From S2P Require Import NvApi.
From S2P Require Import NvFlash.
From S2P Require Import NvLog.
From S2P Require Import NvFind.
From S2P Require Import NvPages.
From S2P Require Import NvWrite.
From S2P Require Import NvStore.
From S2P Require Import NvDevice.
From S2P Require Import NvErase.
From S2P Require Import NvScan.

Section Format.
Context `{NvCodesOk} `{NvsLaws} `{!NvsReliable}.
Implicit Types (s : drv).

(** The check of the page header that [NVOCMP_scanPage] makes fails. *)
Definition bad_header (h : NVOCMP_pageHdr_t) : bool :=
  negb (is_page_state (ph_state h)) || negb (ph_version h =? NVOCMP_VERSION) ||
  negb (ph_signature h =? NVOCMP_SIGNATURE).

Definition unformatted s (p : Z) : Prop :=
  bad_header (decode_pageHdr (take 4 (page_bytes s p))) = true.

Lemma read_headers_any s p :
  in_region p 0 FLASH_PAGE_SIZE →
  ∃ cs, read_headers p s = Ret (decode_pageHdr (take 4 (page_bytes s p)), cs) s.
Proof.
  intros Hr. unfold read_headers, readPageHdr.
  pose proof (page_bytes_length s p) as Hl.
  assert (Hsl : ∀ k, page_bytes s p = take k (page_bytes s p) ++ take 4 (drop k (page_bytes s p)) ++
                                      drop 4 (drop k (page_bytes s p))) by (intros; by rewrite !take_drop).
  pose proof (page_read s p _ _ _ Hr (Hsl 0%nat)) as E0. rewrite drop_0, length_take, Hl in E0.
  simpl length in E0. change (Z.of_nat 0) with NVOCMP_PGHDROFS in E0.
  change (Z.of_nat (4 `min` 2048)) with NVOCMP_PGHDRLEN in E0.
  assert (E0' : mthen (NVOCMP_read p NVOCMP_PGHDROFS NVOCMP_PGHDRLEN) (λ b, mpure (decode_pageHdr b)) s =
                Ret (decode_pageHdr (take 4 (page_bytes s p))) s) by by nvbind E0.
  nvbind E0'.
  assert (Hc : ∀ loc : Z, 0 <= loc <= 2 → ∃ c, NVOCMP_getCompactHdr p loc s = Ret c s).
  { intros loc Hloc. eexists. eapply (getCompactHdr_spec s p _ _ _ loc Hr (Hsl (4 * Z.to_nat (loc + 1))%nat)).
    - rewrite length_take, length_drop, Hl. lia.
    - rewrite length_take, Hl. change NVOCMP_COMPACTHDRLEN with 4. lia. }
  destruct (Hc THISPAGEHDR ltac:(done)) as (c1&E1). nvbind E1.
  destruct (Hc XSRCSTARTHDR ltac:(done)) as (c2&E2). nvbind E2.
  destruct (Hc XSRCENDHDR ltac:(done)) as (c3&E3). nvbind E3. by eexists.
Qed.

Lemma scanPage_formats s p pi :
  in_region p 0 FLASH_PAGE_SIZE → NVS_sectorSize = FLASH_PAGE_SIZE → 0 <= p →
  pageInfo (nvHandle s) !! Z.to_nat p = Some pi → in_u8 (pi_cycle pi) → unformatted s p →
  ∃ s', NVOCMP_scanPage p s = Ret NVINTF_SUCCESS s' ∧ only_page p s s' ∧ empty_at s' p NVOCMP_PGNACT ∧
    NVOCMP_failW s' = NVINTF_SUCCESS.
Proof.
  intros Hr Hsec Hp Hi Hc Hbad. unfold NVOCMP_scanPage.
  destruct (read_headers_any s p Hr) as (cs&E0). nvbind E0. cbn [fst].
  unfold unformatted, bad_header in Hbad. rewrite Hbad.
  destruct (erase_spec s p pi Hr Hsec Hp Hi Hc) as (s1&E1&O1&Hempty&Hw1&_).
  destruct Hempty as (pi1&Hi1&Hst&Ho&Ha&Hc1&Hb1).
  unfold empty_header in Hb1. rewrite <- app_assoc in Hb1.
  set (s2 := set_failW NVINTF_SUCCESS s1).
  pose proof (read_headers_spec s2 p NVOCMP_PGNACT (pi_cycle pi1) NVOCMP_ALLACTIVE _ _ Hr Hb1
    eq_refl ltac:(done) Hc1 ltac:(done)) as E2.
  match goal with |- context [mthen ?m ?k s] =>
    assert (Er : m s = Ret (inl (mkPageHdr NVOCMP_PGNACT (pi_cycle pi1) NVOCMP_ALLACTIVE NVOCMP_VERSION NVOCMP_SIGNATURE,
       (decode_compactHdr null_compact, decode_compactHdr null_compact, decode_compactHdr null_compact))) s2) end.
  { nvbind E1. nvget. rewrite Z.eqb_refl. fold s2. by nvbind E2. }
  nvbind Er. cbn [ph_state]. change (NVOCMP_PGNACT =? NVOCMP_PGNACT) with true.
  change (true || (NVOCMP_PGNACT =? NVOCMP_PGXDST)) with true. cbv iota. nvget.
  assert (Hi2 : pageInfo (nvHandle s2) !! Z.to_nat p = Some pi1) by done.
  rewrite (mthen_ret _ _ _ _ _ (modPage_spec s2 p _ pi1 Hp Hi2)). set (s3 := with_page p _ s2).
  exists s3. split; [reflexivity|]. split_and!; [|eexists; split; [by eapply with_page_info|]|done].
  - eapply only_page_trans; [|by apply only_page_with_page]. destruct O1; by split.
  - by split_and!.
Qed.

Lemma scan_pages_formats n s p c :
  geometry s → NVOCMP_failW s = NVINTF_SUCCESS → 0 <= p → p + Z.of_nat n <= NVOCMP_size s →
  (∀ q, 0 <= q < p → empty_at s q NVOCMP_PGNACT) →
  (∀ q, p <= q < p + Z.of_nat n → unformatted s q) →
  ∃ s' c', scan_pages n p c s = Ret (Some c') s' ∧ geometry s' ∧ NVOCMP_failW s' = NVINTF_SUCCESS ∧
    NVOCMP_failF s' = NVOCMP_failF s ∧ NVOCMP_size s' = NVOCMP_size s ∧
    (∀ q, 0 <= q < p + Z.of_nat n → empty_at s' q NVOCMP_PGNACT) ∧
    noPgNact c' = noPgNact c + Z.of_nat n ∧ noPgXdst c' = noPgXdst c ∧ noPgRdy c' = noPgRdy c ∧
    noPgXsrc c' = noPgXsrc c ∧ noPgNdef c' = noPgNdef c.
Proof.
  revert s p c. induction n as [|n IH]; intros s p c G Hw Hp Hn He Hu.
  { exists s, c. split_and!; try done; try apply G; try lia. intros q Hq. apply He. lia. }
  cbn [scan_pages]. destruct (geometry_page s p G ltac:(lia)) as (Hr&pi&Hi&Hc).
  destruct (scanPage_formats s p pi Hr (proj1 (proj2 (proj2 G))) Hp Hi Hc) as (s1&E1&O1&Hem&Hw1); [apply Hu; lia|].
  nvbind E1. rewrite Z.eqb_refl. change (negb true) with false. cbv iota.
  destruct (Hem) as (pi1&Hi1&Hst&_&_&Hc1&_). nvbind (getPage_spec s1 p pi1 Hp Hi1). rewrite Hst.
  assert (G1 : geometry s1) by by eapply (geometry_change s s1 p).
  destruct (IH s1 (p + 1) (census_add c p NVOCMP_PGNACT) G1 Hw1)
    as (s2&c2&E2&G2&Hw2&Hf2&Hs2&He2&C1&C2&C3&C4&C5); [lia|rewrite (op_size _ _ _ O1); lia| | |].
  - intros q Hq. destruct (decide (q = p)) as [->|]; [done|].
    eapply (empty_at_other p s); try done; [lia|]. apply He. lia.
  - intros q Hq. unfold unformatted. rewrite (op_bytes _ _ _ O1) by lia. apply Hu. lia.
  - exists s2, c2. destruct c. simpl in *.
    split_and!; try done; try apply G2; try lia.
    + by rewrite Hf2, (op_failF _ _ _ O1).
    + by rewrite Hs2, (op_size _ _ _ O1).
    + intros q Hq. apply He2. lia.
Qed.

(** The device has room for at least two pages. *)
Definition page_count : Z :=
  let n := u8 (NVS_regionSize / NVS_sectorSize) in if NVOCMP_NVPAGES <? n then NVOCMP_NVPAGES else n.

Definition device_ok : Prop :=
  NVS_sectorSize = FLASH_PAGE_SIZE ∧ 2 <= page_count ∧ page_count * FLASH_PAGE_SIZE <= NVS_regionSize.

(** First start. On a device none of whose pages carries a valid page header,
    NVOCMP_initNvApi returns NVINTF_SUCCESS, having erased and formatted every
    page: the driver is ready and stores no item. *)
Theorem initNvApi_formats s :
  device_ok → NVOCMP_failF s = NVINTF_NOTREADY →
  (∀ p, 0 <= p < page_count → unformatted s p) →
  ∃ s', NVOCMP_initNvApi s = Ret NVINTF_SUCCESS s' ∧ store s' ∅.
Proof.
  intros (Hsec&Hmin&Hreg) Hf Hu. unfold NVOCMP_initNvApi. do 2 nvget. rewrite Hf, Z.eqb_refl. do 5 nvget.
  fold page_count. assert (Hmax : page_count <= NVOCMP_NVPAGES) by (unfold page_count; zcase; lia).
  rewrite Hsec, Z.eqb_refl. change (negb true) with false.
  destruct (Z.ltb_spec NVS_regionSize (page_count * FLASH_PAGE_SIZE)); [lia|].
  change (false || false) with false. cbv iota. do 3 nvget.
  match goal with |- context [mthen NVOCMP_initNv _ ?b0] => set (b := b0) end.
  assert (G : geometry b).
  { split_and!; try done. intros p pi Hi%list_elem_of_lookup_2.
    apply (elem_of_replicate (Z.to_nat NVOCMP_NVPAGES) zero_pageInfo) in Hi as [-> _]. by vm_compute. }
  assert (Einit : ∃ b', NVOCMP_initNv b = Ret tt b' ∧ store b' ∅).
  { unfold NVOCMP_initNv. nvget. change (NVOCMP_size b) with page_count.
    destruct (scan_pages_formats (Z.to_nat page_count) b 0 empty_census G eq_refl)
      as (b1&c&E1&G1&Hw1&Hf1&Hs1&He1&C1&C2&C3&C4&C5); [lia|simpl; lia|intros; lia| |].
    { intros q Hq. apply Hu. lia. }
    nvbind E1. assert (Ed : init_decide c b1 = Ret (NVOCMP_NORMAL_INIT, c) b1).
    { unfold init_decide. nvget. rewrite C1, C2, C3, C4, C5, Hs1. simpl.
      rewrite Z2Nat.id by lia. by rewrite Z.eqb_refl. }
    nvbind Ed. nvget. apply fresh_ring_spec; [done|exact Hf1|].
    intros q Hq. apply (He1 q). simpl in Hq. rewrite Hs1 in Hq. simpl in Hq. lia. }
  destruct Einit as (b'&Eb&St). nvbind Eb. exists b'. split; [|done].
  unfold gets. by destruct St as (_&_&->).
Qed.
End Format.

#[local] Existing Instance nor_codes.
#[local] Existing Instance nor_codes_ok.
#[local] Existing Instance nor_flash.
#[local] Existing Instance nor_laws.
#[local] Existing Instance nor_reliable.

Lemma initNvApi_formats_witness :
  ∃ s', NVOCMP_initNvApi (powered_on ∅) = Ret NVINTF_SUCCESS s' ∧ store s' ∅.
Proof.
  apply (initNvApi_formats (powered_on ∅)).
  - by vm_compute.
  - done.
  - intros p Hp. change page_count with 3 in Hp.
    assert (p = 0 ∨ p = 1 ∨ p = 2) as [->|[->| ->]] by lia; by vm_compute.
Defined.

(** ** Behaviour at the edges

    Runs of the driver on the concrete device that show where it departs from a
    map of identifiers to values. *)


(** A buffer to read into. *)
Definition zeros (n : nat) : option (list Z) := Some (replicate n 0).

(** A read offset of 65535 wraps around in the 16-bit sum [iOfs + ofs]: the read
    succeeds and returns bytes in front of the item. *)
Lemma read_offset_wraps :
  result (NVOCMP_readItemApi demo_id 65535 3 (zeros 3)) loaded = Some (NVINTF_SUCCESS, [0x96; 10; 20]).
Proof. by vm_compute. Qed.

(** The 32-bit length of [NVOCMP_createItemApi] is checked after its truncation to
    16 bits: 65538 bytes are accepted and two are stored. *)
Lemma create_length_truncated :
  let c := NVOCMP_createItemApi (mkItemID 1 2 3) 65538 (Some [8; 9]) in
  result c loaded = Some NVINTF_SUCCESS ∧
  result (NVOCMP_getItemLenApi (mkItemID 1 2 3)) (after c loaded) = Some 2.
Proof. by vm_compute. Qed.
