(* ===== verification/PacketBuffer.v ===== *)
(** * Packet buffers

    [PacketBuffer] and [PacketBufferHandle] (src/src/system/SystemPacketBuffer.cpp and
    .h) in the configuration that allocates from the heap and does not use LwIP.

    A buffer is a block of memory with the data at an offset behind reserved space, the
    length of the data, the length of the data of the chain from this buffer on, and a
    count of references. A handle sees the buffers that it reaches through the [next]
    links: it is modelled by their list, the null handle by the empty list. Pointers
    into a buffer are offsets from [ReserveStart]. Accesses outside of the block and
    failed [VerifyOrDie] checks are outcomes of their own. *)

From S2P Require Import Prelude.
From S2P Require Import COutcome.
From S2P Require Import ChipError.

(** The width of [size_t] and the limit on allocations. *)
Class PbufConfig := {
  SIZE_BITS : Z;
  kMaxAllocSize : Z;
  kStructureSize : Z
}.

Record pbuf := mkPbuf {
  pb_mem : list Z;
  pb_payload : Z;
  pb_tot_len : Z;
  pb_len : Z;
  pb_ref : Z
}.

#[export] Instance pbuf_eq_dec : EqDecision pbuf.
Proof. solve_decision. Defined.

Definition pbset_mem v b := mkPbuf v (pb_payload b) (pb_tot_len b) (pb_len b) (pb_ref b).
Definition pbset_payload v b := mkPbuf (pb_mem b) v (pb_tot_len b) (pb_len b) (pb_ref b).
Definition pbset_tot_len v b := mkPbuf (pb_mem b) (pb_payload b) v (pb_len b) (pb_ref b).
Definition pbset_len v b := mkPbuf (pb_mem b) (pb_payload b) (pb_tot_len b) v (pb_ref b).
Definition pbset_ref v b := mkPbuf (pb_mem b) (pb_payload b) (pb_tot_len b) (pb_len b) v.

Definition kUINT16_MAX : Z := 0xFFFF.
Definition kUINT32_MAX : Z := 0xFFFFFFFF.

Section PacketBuffer.
Context `{PbufConfig}.

(** Assignment to a [size_t]. *)
Definition size_t (z : Z) : Z := z mod 2 ^ SIZE_BITS.

(** [VerifyOrDie]. *)
Definition verify_or_die {A} (cond : bool) (k : outcome A) : outcome A :=
  if cond then k else Crashes AssertFailed.

(** ** Sizes *)

Definition AllocSize (b : pbuf) : Z := Z.of_nat (length (pb_mem b)).
Definition Start (b : pbuf) : Z := pb_payload b.
Definition DataLength (b : pbuf) : Z := pb_len b.
Definition TotalLength (b : pbuf) : Z := pb_tot_len b.
Definition ReservedSize (b : pbuf) : Z := u16 (Start b).
Definition MaxDataLength (b : pbuf) : Z := size_t (AllocSize b - ReservedSize b).
Definition AvailableDataLength (b : pbuf) : Z := size_t (MaxDataLength b - DataLength b).
Definition HasChainedBuffer (rest : list pbuf) : bool := negb (bool_decide (rest = [])).
Definition HasSoleOwnership (b : pbuf) : bool := pb_ref b =? 1.

(** ** One buffer *)

Definition SetStart (aNewStart : Z) (b : pbuf) : pbuf :=
  let kEnd := Start b + MaxDataLength b in
  let aNewStart := if aNewStart <? 0 then 0 else if kEnd <? aNewStart then kEnd else aNewStart in
  let lDelta := aNewStart - pb_payload b in
  let lDelta := if (0 <? lDelta) && (pb_len b <? lDelta) then pb_len b else lDelta in
  mkPbuf (pb_mem b) aNewStart (size_t (pb_tot_len b - lDelta)) (size_t (pb_len b - lDelta)) (pb_ref b).

Definition ConsumeHead (aConsumeLength : Z) (b : pbuf) : pbuf :=
  let aConsumeLength := if pb_len b <? aConsumeLength then pb_len b else aConsumeLength in
  mkPbuf (pb_mem b) (pb_payload b + aConsumeLength) (size_t (pb_tot_len b - aConsumeLength))
    (size_t (pb_len b - aConsumeLength)) (pb_ref b).

(** [memmove] within the block. *)
Definition move_data (to : Z) (b : pbuf) : outcome pbuf :=
  let+ d := mem_read (pb_mem b) (pb_payload b) (pb_len b) in
  let+ m := mem_write (pb_mem b) to d in
  Returns (pbset_payload to (pbset_mem m b)).

Definition EnsureReservedSize (aReservedSize : Z) (b : pbuf) : outcome (bool * pbuf) :=
  let kCurrentReservedSize := ReservedSize b in
  if aReservedSize <=? kCurrentReservedSize then Returns (true, b)
  else if AllocSize b <? size_t (aReservedSize + pb_len b) then Returns (false, b)
  else
    let kMoveLength := u16 (aReservedSize - kCurrentReservedSize) in
    let+ b' := move_data (pb_payload b + kMoveLength) b in
    Returns (true, b').

(** [base] is the address of [ReserveStart]. *)
Definition AlignPayload (base aAlignBytes : Z) (b : pbuf) : outcome (bool * pbuf) :=
  if aAlignBytes =? 0 then Returns (false, b)
  else
    let kPayloadOffset := u16 ((base + pb_payload b) mod aAlignBytes) in
    if kPayloadOffset =? 0 then Returns (true, b)
    else
      let kPayloadShift := u16 (aAlignBytes - kPayloadOffset) in
      if kUINT16_MAX <? ReservedSize b + kPayloadShift then Returns (false, b)
      else EnsureReservedSize (ReservedSize b + kPayloadShift) b.

Definition AddRef (b : pbuf) : outcome pbuf :=
  verify_or_die (pb_ref b <? kUINT16_MAX) (Returns (pbset_ref (pb_ref b + 1) b)).

(** ** Chains *)

(** [SetDataLength] on the buffer number [i] of the chain, the head being passed. *)
Fixpoint SetDataLength (aNewLen : Z) (i : nat) (bs : list pbuf) : list pbuf * Z :=
  match bs, i with
  | [], _ => ([], 0)
  | b :: rest, O =>
      let kMaxDataLen := MaxDataLength b in
      let aNewLen := if kMaxDataLen <? aNewLen then kMaxDataLen else aNewLen in
      let lDelta := aNewLen - pb_len b in
      (pbset_tot_len (size_t (pb_tot_len b + lDelta)) (pbset_len aNewLen b) :: rest, lDelta)
  | b :: rest, S i =>
      let '(rest', lDelta) := SetDataLength aNewLen i rest in
      (pbset_tot_len (size_t (pb_tot_len b + lDelta)) b :: rest', lDelta)
  end.

(** The loop of [PacketBuffer::AddToEnd]. *)
Fixpoint add_loop (bs : list pbuf) (aPacket : list pbuf) (tot : Z) : outcome (list pbuf) :=
  match bs with
  | [] => Returns aPacket
  | b :: rest =>
      let old_total_length := pb_tot_len b in
      let b' := pbset_tot_len (size_t (pb_tot_len b + tot)) b in
      verify_or_die (old_total_length <=? pb_tot_len b')
        (let+ rest' := add_loop rest aPacket tot in Returns (b' :: rest'))
  end.

(** [PacketBufferHandle::AddToEnd]; the packet must not be null unless the handle is. *)
Definition AddToEnd (bs aPacket : list pbuf) : outcome (list pbuf) :=
  match bs, aPacket with
  | [], _ => Returns aPacket
  | _, [] => Crashes OutOfBounds
  | _, p :: _ => add_loop bs aPacket (pb_tot_len p)
  end.

(** [PacketBuffer::Free]: what stays allocated, from the first buffer that is still
    referenced. *)
Fixpoint Free (bs : list pbuf) : outcome (list pbuf) :=
  match bs with
  | [] => Returns []
  | b :: rest =>
      verify_or_die (0 <? pb_ref b)
        (if pb_ref b - 1 =? 0 then Free rest else Returns (pbset_ref (pb_ref b - 1) b :: rest))
  end.

(** [FreeHead]: the rest of the chain. *)
Definition FreeHead (b : pbuf) (rest : list pbuf) : outcome (list pbuf) :=
  let+ _ := Free [b] in Returns rest.

(** The loop of [CompactHead], for the head and the buffers behind it. *)
Fixpoint compact_loop (fuel : nat) (b : pbuf) (lAvailLength : Z) (rest : list pbuf) : outcome (list pbuf) :=
  match rest with
  | lNextPacket :: rest' =>
      if 0 <? lAvailLength then
        match fuel with
        | O => Crashes NoReturn
        | S fuel =>
            verify_or_die (pb_ref lNextPacket =? 1)
              (let lMoveLength := if lAvailLength <? pb_len lNextPacket then lAvailLength else pb_len lNextPacket in
               let+ d := mem_read (pb_mem lNextPacket) (pb_payload lNextPacket) lMoveLength in
               let+ m := mem_write (pb_mem b) (pb_payload b + pb_len b) d in
               let b' := pbset_len (size_t (pb_len b + lMoveLength)) (pbset_mem m b) in
               let next' := mkPbuf (pb_mem lNextPacket) (pb_payload lNextPacket + lMoveLength)
                 (size_t (pb_tot_len lNextPacket - lMoveLength)) (size_t (pb_len lNextPacket - lMoveLength))
                 (pb_ref lNextPacket) in
               let lAvailLength := size_t (lAvailLength - lMoveLength) in
               if pb_len next' =? 0 then
                 let+ rest'' := FreeHead next' rest' in compact_loop fuel b' lAvailLength rest''
               else compact_loop fuel b' lAvailLength (next' :: rest'))
        end
      else Returns (b :: rest)
  | [] => Returns [b]
  end.

Definition CompactHead (b : pbuf) (rest : list pbuf) : outcome (list pbuf) :=
  let+ b := (if pb_payload b =? 0 then Returns b else move_data 0 b) in
  compact_loop (S (length rest)) b (AvailableDataLength b) rest.

Fixpoint Consume (aConsumeLength : Z) (bs : list pbuf) : outcome (list pbuf) :=
  match bs with
  | [] => Returns []
  | b :: rest =>
      if 0 <? aConsumeLength then
        let kLength := DataLength b in
        if kLength <=? aConsumeLength then
          let+ rest' := FreeHead b rest in Consume (size_t (aConsumeLength - kLength)) rest
        else Returns (ConsumeHead aConsumeLength b :: rest)
      else Returns bs
  end.

(** The loop of [Read], with the bytes copied so far. *)
Fixpoint read_chain (aReadLength : Z) (acc : list Z) (bs : list pbuf) : outcome (chip_error * list Z) :=
  if 0 <? aReadLength then
    match bs with
    | [] => Returns (CHIP_ERROR_INTERNAL, acc)
    | b :: rest =>
        let lToReadFromCurrentBuf := if aReadLength <? DataLength b then aReadLength else DataLength b in
        let+ d := mem_read (pb_mem b) (Start b) lToReadFromCurrentBuf in
        read_chain (size_t (aReadLength - lToReadFromCurrentBuf)) (acc ++ d) rest
    end
  else Returns (CHIP_NO_ERROR, acc).

Definition Read (aReadLength : Z) (b : pbuf) (rest : list pbuf) : outcome (chip_error * list Z) :=
  if TotalLength b <? aReadLength then Returns (CHIP_ERROR_BUFFER_TOO_SMALL, [])
  else read_chain aReadLength [] (b :: rest).

(** ** Handles *)

(** [PopHead]: the handle of the old head, and the handle of the rest. *)
Definition PopHead (b : pbuf) (rest : list pbuf) : list pbuf * list pbuf :=
  ([pbset_tot_len (pb_len b) b], rest).

Section Alloc.
(** [MemoryAlloc]: the contents of a new block of the given size, or nothing. The size
    given is the one behind the structure. *)
Context (MemoryAlloc : Z → option (list Z)).

Definition New (aAvailableSize aReservedSize : Z) : list pbuf :=
  if kUINT32_MAX <? aAvailableSize then []
  else
    let sumOfSizes := u64 (aAvailableSize + aReservedSize + kStructureSize) in
    let sumOfAvailAndReserved := u64 (aAvailableSize + aReservedSize) in
    if 2 ^ SIZE_BITS - 1 <? sumOfSizes then []
    else if kMaxAllocSize <? sumOfAvailAndReserved then []
    else match MemoryAlloc sumOfAvailAndReserved with
         | None => []
         | Some m => [mkPbuf m aReservedSize 0 0 1]
         end.

Definition NewWithData (aData : list Z) (aAdditionalSize aReservedSize : Z) : outcome (list pbuf) :=
  let aDataSize := Z.of_nat (length aData) in
  match New (size_t (aDataSize + aAdditionalSize)) aReservedSize with
  | b :: _ =>
      let+ m := mem_write (pb_mem b) (pb_payload b) aData in
      Returns [mkPbuf m (pb_payload b) aDataSize aDataSize (pb_ref b)]
  | [] => Returns []
  end.

Definition kRightSizingThreshold : Z := 16.

(** [InternalRightSize]. *)
Definition RightSize (bs : list pbuf) : outcome (list pbuf) :=
  match bs with
  | [b] =>
      if pb_ref b =? 1 then
        let usedSize := size_t (pb_payload b + pb_len b) in
        if AllocSize b <? size_t (usedSize + kRightSizingThreshold) then Returns bs
        else match MemoryAlloc usedSize with
             | None => Returns bs
             | Some m =>
                 let+ d := mem_read (pb_mem b) 0 usedSize in
                 let+ m' := mem_write m 0 d in
                 let+ _ := Free bs in
                 Returns [mkPbuf m' (pb_payload b) (pb_tot_len b) (pb_len b) 1]
             end
      else Returns bs
  | _ => Returns bs
  end.

(** The loop of [CloneData]. *)
Fixpoint clone_loop (bs cloneHead : list pbuf) : outcome (list pbuf) :=
  match bs with
  | [] => Returns cloneHead
  | original :: rest =>
      let originalDataSize := MaxDataLength original in
      let originalReservedSize := ReservedSize original in
      let over := kMaxAllocSize <? size_t (originalDataSize + originalReservedSize) in
      if over && (kMaxAllocSize <? size_t (originalReservedSize + DataLength original)) then Returns []
      else
        let originalDataSize := if over then kMaxAllocSize - originalReservedSize else originalDataSize in
        match New originalDataSize originalReservedSize with
        | [] => Returns []
        | clone :: _ =>
            let+ d := mem_read (pb_mem original) 0 (originalDataSize + originalReservedSize) in
            let+ m := mem_write (pb_mem clone) 0 d in
            let clone := mkPbuf m (pb_payload clone) (pb_len original) (pb_len original) (pb_ref clone) in
            let+ cloneHead := AddToEnd cloneHead [clone] in
            clone_loop rest cloneHead
        end
  end.

Definition CloneData (bs : list pbuf) : outcome (list pbuf) := clone_loop bs [].

End Alloc.
End PacketBuffer.
