(* ===== verification/PacketBufferSpec.v ===== *)
(** * Packet buffers as sequences of bytes

    What a chain of packet buffers holds, the invariant that all operations keep, and
    what the operations do to the bytes. *)

From S2P Require Import Prelude.
From S2P Require Import COutcome.
From S2P Require Import ChipError.
From S2P Require Import PacketBuffer.

(** The bounds that the build asserts, for buffers of at most 65535 bytes. *)
Class PbufBounds `{PbufConfig} := {
  size_bits : 32 <= SIZE_BITS;
  max_alloc_bound : 0 <= kMaxAllocSize <= kUINT16_MAX;
  structure_bound : 0 <= kStructureSize <= kUINT16_MAX
}.

Definition host_config : PbufConfig := {| SIZE_BITS := 64; kMaxAllocSize := 64000; kStructureSize := 48 |}.

Lemma host_bounds : @PbufBounds host_config.
Proof. split; cbn; unfold kUINT16_MAX; lia. Qed.

Section Spec.
Context `{PbufBounds}.

Definition buf_data (b : pbuf) : list Z := slice (pb_mem b) (pb_payload b) (pb_len b).
Definition chain_data (bs : list pbuf) : list Z := concat (map buf_data bs).
Definition chain_len (bs : list pbuf) : Z := Z.of_nat (length (chain_data bs)).

(** The data lies in the block, and the block is one that [New] could have given. *)
Definition wf_buf (b : pbuf) : Prop :=
  0 <= pb_payload b ∧ 0 <= pb_len b ∧ pb_payload b + pb_len b <= AllocSize b ∧
  AllocSize b <= kMaxAllocSize ∧ 1 <= pb_ref b <= kUINT16_MAX.

(** Every buffer knows the length of the data from it on. *)
Fixpoint totals (bs : list pbuf) : Prop :=
  match bs with
  | [] => True
  | b :: rest => pb_tot_len b = chain_len (b :: rest) ∧ totals rest
  end.

Definition wf_chain (bs : list pbuf) : Prop :=
  Forall wf_buf bs ∧ totals bs ∧ chain_len bs < 2 ^ SIZE_BITS.

(** ** Sizes *)

Lemma size_pow : 2 ^ 32 <= 2 ^ SIZE_BITS.
Proof. apply Z.pow_le_mono_r; [lia|]. apply size_bits. Qed.

Lemma size_t_id z : 0 <= z < 2 ^ SIZE_BITS → size_t z = z.
Proof. apply Z.mod_small. Qed.

Lemma size_t_small z : 0 <= z < 2 ^ 32 → size_t z = z.
Proof. intros. apply size_t_id. pose proof size_pow. lia. Qed.

Lemma buf_data_length b : wf_buf b → Z.of_nat (length (buf_data b)) = pb_len b.
Proof.
  unfold wf_buf, buf_data, slice, AllocSize. intros. rewrite length_take, length_drop. lia.
Qed.

Lemma chain_data_cons b bs : chain_data (b :: bs) = buf_data b ++ chain_data bs.
Proof. done. Qed.

Lemma chain_len_cons b bs : wf_buf b → chain_len (b :: bs) = pb_len b + chain_len bs.
Proof. intros. unfold chain_len. rewrite chain_data_cons, length_app. rewrite <- (buf_data_length b) by done. lia. Qed.

Lemma chain_data_app bs1 bs2 : chain_data (bs1 ++ bs2) = chain_data bs1 ++ chain_data bs2.
Proof. unfold chain_data. by rewrite map_app, concat_app. Qed.

Lemma chain_len_nonneg bs : 0 <= chain_len bs.
Proof. unfold chain_len. lia. Qed.

Lemma wf_chain_cons b bs :
  wf_chain (b :: bs) ↔
  wf_buf b ∧ wf_chain bs ∧ pb_tot_len b = pb_len b + chain_len bs ∧ pb_len b + chain_len bs < 2 ^ SIZE_BITS.
Proof.
  unfold wf_chain. cbn [totals]. split.
  - intros (Hf&[Ht Hts]&Hl). apply Forall_cons in Hf as [Hb Hf]. rewrite chain_len_cons in Ht, Hl by done.
    assert (0 <= pb_len b) by apply Hb. split_and!; auto; lia.
  - intros (Hb&(Hf&Hts&Hl)&Ht&Hs). rewrite chain_len_cons by done. split_and!; auto.
Qed.

(** The parts of a block: reserved space, data, unused space. *)
Definition lay (A D U : list Z) (b : pbuf) : Prop :=
  pb_mem b = A ++ D ++ U ∧ pb_payload b = Z.of_nat (length A) ∧ pb_len b = Z.of_nat (length D).

Lemma wf_lay b : wf_buf b → ∃ A U, lay A (buf_data b) U b.
Proof.
  intros Hb. pose proof (buf_data_length b Hb) as Hl. destruct Hb as (Hp&Hn&Hs&_). unfold lay, AllocSize in *.
  exists (take (Z.to_nat (pb_payload b)) (pb_mem b)), (drop (Z.to_nat (pb_payload b) + Z.to_nat (pb_len b)) (pb_mem b)).
  split_and!; [|rewrite length_take; lia|done].
  unfold buf_data, slice. rewrite <- drop_drop. by rewrite !take_drop.
Qed.

Lemma lay_data A D U b : lay A D U b → buf_data b = D.
Proof.
  intros (Hm&Hp&Hl). unfold buf_data, slice. rewrite Hm, Hp, Hl, !Nat2Z.id.
  by rewrite drop_app_length, take_app_length.
Qed.

Lemma lay_alloc A D U b :
  lay A D U b → AllocSize b = Z.of_nat (length A) + Z.of_nat (length D) + Z.of_nat (length U).
Proof. intros (Hm&_). unfold AllocSize. rewrite Hm, !length_app. lia. Qed.

Lemma lay_wf A D U b :
  lay A D U b → AllocSize b <= kMaxAllocSize → 1 <= pb_ref b <= kUINT16_MAX → wf_buf b.
Proof.
  intros Hl Ha Hr. pose proof (lay_alloc _ _ _ _ Hl). destruct Hl as (Hm&Hp&Hn). unfold wf_buf. lia.
Qed.

(** [lia] with the bounds of the build and of a block. *)
Ltac pb_lia :=
  pose proof max_alloc_bound; pose proof structure_bound; pose proof size_pow;
  unfold wf_buf, kUINT16_MAX, kUINT32_MAX in *; solve_width.

Lemma ReservedSize_wf b : wf_buf b → ReservedSize b = pb_payload b.
Proof. intros. unfold ReservedSize, Start. apply u16_id. pb_lia. Qed.

Lemma MaxDataLength_wf b : wf_buf b → MaxDataLength b = AllocSize b - pb_payload b.
Proof. intros. unfold MaxDataLength. rewrite ReservedSize_wf by done. apply size_t_small. pb_lia. Qed.

Lemma AvailableDataLength_wf b : wf_buf b → AvailableDataLength b = AllocSize b - pb_payload b - pb_len b.
Proof.
  intros. unfold AvailableDataLength, DataLength. rewrite MaxDataLength_wf by done. apply size_t_small. pb_lia.
Qed.

(** ** One buffer *)

(** The buffer holds other data, or the same at another place, and the rest of the chain
    is untouched. *)
Lemma head_replaced b b' rest :
  wf_chain (b :: rest) → wf_buf b' → pb_tot_len b' = pb_tot_len b + (pb_len b' - pb_len b) →
  pb_len b' + chain_len rest < 2 ^ SIZE_BITS → wf_chain (b' :: rest).
Proof. rewrite !wf_chain_cons. intros (Hb&Hr&Ht&Hs) Hb' Ht' Hs'. split_and!; auto; lia. Qed.

Lemma split_at (l : list Z) (n k : nat) :
  (n + k <= length l)%nat → ∃ A B C, l = A ++ B ++ C ∧ length A = n ∧ length B = k.
Proof.
  intros Hl. exists (take n l), (take k (drop n l)), (drop k (drop n l)).
  rewrite !take_drop, !length_take, length_drop. split_and!; [done|lia|lia].
Qed.

Lemma read_data b n :
  wf_buf b → 0 <= n <= pb_len b →
  mem_read (pb_mem b) (pb_payload b) n = Returns (take (Z.to_nat n) (buf_data b)).
Proof.
  intros Hb Hn. unfold mem_read, buf_data, slice. rewrite take_take, Nat.min_l by lia.
  rewrite (proj2 (Z.leb_le 0 _)) by apply Hb. rewrite (proj2 (Z.leb_le _ _)); [done|].
  unfold wf_buf, AllocSize in Hb. lia.
Qed.

Lemma move_data_wf b to :
  wf_buf b → 0 <= to → to + pb_len b <= AllocSize b →
  ∃ b', move_data to b = Returns b' ∧ wf_buf b' ∧ buf_data b' = buf_data b ∧ pb_payload b' = to ∧
    AllocSize b' = AllocSize b ∧ pb_len b' = pb_len b ∧ pb_tot_len b' = pb_tot_len b ∧ pb_ref b' = pb_ref b.
Proof.
  intros Hb Hto Hend. destruct (wf_lay b Hb) as (A&U&Hl). pose proof (buf_data_length b Hb) as Hd.
  pose proof Hl as (Hm&Hp&Hn). unfold AllocSize in Hend.
  destruct (split_at (pb_mem b) (Z.to_nat to) (length (buf_data b))) as (A2&B2&U2&Hmem&HA2&HB2); [lia|].
  unfold move_data. rewrite read_data by (done || pb_lia). rewrite take_ge by lia. cbn [obind].
  rewrite Hmem. replace to with (Z.of_nat (length A2)) by lia. rewrite mem_write_mid by done. cbn [obind].
  eexists. split; [done|]. set (b' := pbset_payload _ _).
  assert (Hl' : lay A2 (buf_data b) U2 b') by done.
  assert (Ha' : AllocSize b' = AllocSize b)
    by (unfold AllocSize, b'; cbn; rewrite Hmem, !length_app; lia).
  split_and!; try done; [|by apply (lay_data A2 _ U2)].
  apply (lay_wf _ _ _ _ Hl'); [rewrite Ha'|]; apply Hb.
Qed.

(** What an operation on the head does to the chain: the bytes change as told, and all
    stays well-formed. *)
Definition head_step (b b' : pbuf) (D : list Z) : Prop :=
  wf_buf b' ∧ buf_data b' = D ∧ pb_tot_len b' = pb_tot_len b + (pb_len b' - pb_len b).

Lemma head_step_chain b b' D rest :
  wf_chain (b :: rest) → head_step b b' D → Z.of_nat (length D) + chain_len rest < 2 ^ SIZE_BITS →
  wf_chain (b' :: rest) ∧ chain_data (b' :: rest) = D ++ chain_data rest.
Proof.
  intros Hwf (Hb'&Hd&Ht) Hl. rewrite chain_data_cons, Hd. split; [|done].
  apply (head_replaced b); try done. by rewrite <- (buf_data_length b'), Hd.
Qed.

Lemma data_from A D U b k :
  lay A D U b → (k <= length D)%nat →
  lay (A ++ take k D) (drop k D) U
    (mkPbuf (pb_mem b) (pb_payload b + Z.of_nat k) (pb_tot_len b - Z.of_nat k) (pb_len b - Z.of_nat k) (pb_ref b)).
Proof.
  intros (Hm&Hp&Hn) Hk. split_and!; cbn; rewrite ?length_app, ?length_take, ?length_drop; try lia.
  rewrite Hm, <- app_assoc. f_equal. by rewrite app_assoc, take_drop.
Qed.

(** The first [k] bytes of the data are given up. *)
Lemma data_cut b k :
  wf_buf b → 0 <= k <= pb_len b →
  head_step b (mkPbuf (pb_mem b) (pb_payload b + k) (pb_tot_len b - k) (pb_len b - k) (pb_ref b))
    (drop (Z.to_nat k) (buf_data b)).
Proof.
  intros Hb Hk. destruct (wf_lay b Hb) as (A&U&Hl). pose proof (buf_data_length b Hb).
  pose proof (data_from _ _ _ _ (Z.to_nat k) Hl ltac:(lia)) as Hl'. rewrite Z2Nat.id in Hl' by lia.
  split_and!; [|by apply (lay_data _ _ _ _ Hl')|cbn; lia].
  eapply lay_wf; [done| |]; apply Hb.
Qed.

Lemma ConsumeHead_step b rest n :
  wf_chain (b :: rest) → 0 <= n →
  head_step b (ConsumeHead n b) (drop (Z.to_nat (Z.min n (pb_len b))) (buf_data b)).
Proof.
  intros Hwf Hn. pose proof (proj1 (wf_chain_cons b rest) Hwf) as (Hb&_&Ht&Hs).
  pose proof (chain_len_nonneg rest). unfold ConsumeHead.
  assert ((if pb_len b <? n then pb_len b else n) = Z.min n (pb_len b)) as -> by (zcase; lia).
  rewrite !size_t_id by pb_lia. apply data_cut; [done|]. pb_lia.
Qed.

Lemma SetStart_step b rest n :
  wf_chain (b :: rest) → AllocSize b + chain_len rest < 2 ^ SIZE_BITS →
  let n' := Z.max 0 (Z.min n (AllocSize b)) in
  head_step b (SetStart n b)
    (slice (pb_mem b) n' (pb_payload b + pb_len b - n')) ∧ pb_payload (SetStart n b) = n'.
Proof.
  intros Hwf Hs n'. pose proof (proj1 (wf_chain_cons b rest) Hwf) as (Hb&_&Ht&_).
  pose proof (chain_len_nonneg rest). pose proof (buf_data_length b Hb).
  unfold SetStart. rewrite MaxDataLength_wf by done. unfold Start.
  replace (pb_payload b + (AllocSize b - pb_payload b)) with (AllocSize b) by lia.
  assert ((if n <? 0 then 0 else if AllocSize b <? n then AllocSize b else n) = n') as ->
    by (unfold n'; repeat zcase; pb_lia).
  assert (0 <= n' <= AllocSize b) as Hn' by (unfold n'; pb_lia).
  clearbody n'. cbn zeta. set (d := if (0 <? n' - pb_payload b) && _ then _ else _).
  assert (d = Z.min (n' - pb_payload b) (pb_len b)) as -> by (unfold d; repeat zcase; cbn [andb]; pb_lia).
  rewrite !size_t_id by pb_lia. split; [|done]. split_and!; cbn; [|unfold buf_data; cbn|lia].
  - unfold wf_buf in *. cbn. unfold AllocSize in *. cbn. lia.
  - unfold slice. f_equal. lia.
Qed.

(** The reserve grows to [n] bytes if it fits, without a change of the data. *)
Lemma EnsureReservedSize_step b n :
  wf_buf b → in_u16 n →
  ∃ b', EnsureReservedSize n b = Returns (bool_decide (n <= pb_payload b ∨ n + pb_len b <= AllocSize b), b') ∧
    wf_buf b' ∧ buf_data b' = buf_data b ∧ pb_len b' = pb_len b ∧ pb_tot_len b' = pb_tot_len b ∧
    AllocSize b' = AllocSize b ∧ pb_ref b' = pb_ref b ∧
    (n <= pb_payload b ∨ n + pb_len b <= AllocSize b → pb_payload b' = Z.max n (pb_payload b)).
Proof.
  intros Hb Hn. unfold EnsureReservedSize. rewrite ReservedSize_wf by done. rewrite size_t_small by pb_lia.
  destruct (Z.leb_spec n (pb_payload b)).
  { exists b. rewrite bool_decide_true by lia. split_and!; try done. lia. }
  destruct (Z.ltb_spec (AllocSize b) (n + pb_len b)).
  { exists b. rewrite bool_decide_false by lia. split_and!; try done. lia. }
  rewrite u16_id by pb_lia. replace (pb_payload b + (n - pb_payload b)) with n by lia.
  destruct (move_data_wf b n) as (b'&->&Hwf&Hd&Hp&Ha&Hl&Ht&Hr); [done|pb_lia|lia|].
  exists b'. cbn [obind]. rewrite bool_decide_true by lia. split_and!; try done. lia.
Qed.

(** ** Chains *)

Lemma wf_chain_app bs1 bs2 :
  wf_chain bs1 → wf_chain bs2 → chain_len bs1 + chain_len bs2 < 2 ^ SIZE_BITS →
  wf_chain (map (λ b, pbset_tot_len (pb_tot_len b + chain_len bs2) b) bs1 ++ bs2) ∧
  chain_data (map (λ b, pbset_tot_len (pb_tot_len b + chain_len bs2) b) bs1 ++ bs2) =
    chain_data bs1 ++ chain_data bs2.
Proof.
  intros H1 H2 Hl. rewrite chain_data_app.
  assert (Hd : ∀ bs, chain_data (map (λ b, pbset_tot_len (pb_tot_len b + chain_len bs2) b) bs) = chain_data bs).
  { induction bs as [|b bs IH]; [done|]. cbn [map]. by rewrite !chain_data_cons, IH. }
  rewrite Hd. split; [|done]. induction bs1 as [|b bs1 IH]; [done|].
  apply wf_chain_cons in H1 as (Hb&H1&Ht&Hs). rewrite chain_len_cons in Hl by done.
  assert (0 <= pb_len b) by apply Hb. cbn [map app]. apply wf_chain_cons.
  assert (chain_len (map (λ b, pbset_tot_len (pb_tot_len b + chain_len bs2) b) bs1 ++ bs2) =
    chain_len bs1 + chain_len bs2) as Hcl.
  { unfold chain_len at 1. rewrite chain_data_app, Hd, length_app. unfold chain_len. lia. }
  rewrite Hcl. cbn. split_and!; [exact Hb|apply IH; [done|lia]|lia|lia].
Qed.

Lemma add_loop_step bs p :
  wf_chain bs → chain_len bs + chain_len p < 2 ^ SIZE_BITS →
  add_loop bs p (chain_len p) = Returns (map (λ b, pbset_tot_len (pb_tot_len b + chain_len p) b) bs ++ p).
Proof.
  pose proof (chain_len_nonneg p). induction bs as [|b bs IH]; intros Hwf Hl; [done|].
  apply wf_chain_cons in Hwf as (Hb&Hwf&Ht&Hs). rewrite chain_len_cons in Hl by done.
  assert (0 <= pb_len b) by apply Hb. pose proof (chain_len_nonneg bs).
  cbn [add_loop]. rewrite size_t_id by lia. unfold verify_or_die.
  rewrite (proj2 (Z.leb_le _ _)) by (cbn; lia). by rewrite IH by (done || lia).
Qed.

Lemma wf_chain_tot b bs : wf_chain (b :: bs) → pb_tot_len b = chain_len (b :: bs).
Proof. intros (_&[? _]&_). done. Qed.

Lemma AddToEnd_step bs p :
  wf_chain bs → wf_chain p → (bs = [] ∨ p ≠ []) → chain_len bs + chain_len p < 2 ^ SIZE_BITS →
  ∃ bs', AddToEnd bs p = Returns bs' ∧ wf_chain bs' ∧ chain_data bs' = chain_data bs ++ chain_data p.
Proof.
  intros Hbs Hp Hne Hl. destruct bs as [|b bs]; [by exists p|]. destruct p as [|q p]; [by destruct Hne|].
  cbn [AddToEnd]. rewrite (wf_chain_tot q p) by done. rewrite add_loop_step by done.
  eexists. split; [done|]. by apply wf_chain_app.
Qed.

(** A chain that is too long for a [size_t] is refused by the check of the first buffer. *)
Lemma AddToEnd_overflow bs p :
  wf_chain bs → wf_chain p → bs ≠ [] → p ≠ [] → 2 ^ SIZE_BITS <= chain_len bs + chain_len p → AddToEnd bs p = Crashes AssertFailed.
Proof.
  intros Hbs Hp Hb Hq Hl. destruct bs as [|b bs]; [done|]. destruct p as [|q p]; [done|]. cbn [AddToEnd add_loop].
  rewrite (wf_chain_tot q p) by done. rewrite (wf_chain_tot b bs) by done. unfold verify_or_die. cbn [pb_tot_len pbset_tot_len].
  pose proof (chain_len_nonneg (b :: bs)). pose proof (chain_len_nonneg (q :: p)).
  assert (chain_len (b :: bs) < 2 ^ SIZE_BITS) by apply Hbs. assert (chain_len (q :: p) < 2 ^ SIZE_BITS) by apply Hp.
  unfold size_t. rewrite <- (Z_mod_plus_full _ (-1)), Z.mod_small by lia. by rewrite (proj2 (Z.leb_gt _ _)) by lia.
Qed.

Lemma FreeHead_live b rest : wf_buf b → FreeHead b rest = Returns rest.
Proof.
  intros Hb. unfold FreeHead. cbn [Free]. unfold verify_or_die. rewrite (proj2 (Z.ltb_lt _ _)) by (unfold wf_buf in Hb; lia).
  by destruct (pb_ref b - 1 =? 0).
Qed.

(** [Consume] drops bytes from the front of the chain. *)
Lemma Consume_step bs n :
  wf_chain bs → 0 <= n < 2 ^ SIZE_BITS →
  ∃ bs', Consume n bs = Returns bs' ∧ wf_chain bs' ∧ chain_data bs' = drop (Z.to_nat n) (chain_data bs).
Proof.
  revert n. induction bs as [|b bs IH]; intros n Hwf Hn; [exists []; by destruct (Z.to_nat n)|].
  pose proof (proj1 (wf_chain_cons b bs) Hwf) as (Hb&Hwf'&Ht&Hs). pose proof (buf_data_length b Hb) as Hdl.
  pose proof (chain_len_nonneg bs). cbn [Consume]. unfold DataLength. destruct (Z.ltb_spec 0 n).
  - destruct (Z.leb_spec (pb_len b) n).
    + rewrite FreeHead_live by done. cbn [obind]. rewrite size_t_id by lia.
      destruct (IH (n - pb_len b)) as (bs'&->&Hw&Hd); [done|lia|]. exists bs'. split_and!; [done..|].
      rewrite Hd, chain_data_cons, drop_app_ge by lia. f_equal. lia.
    + eexists. split; [done|]. pose proof (ConsumeHead_step b bs n Hwf ltac:(lia)) as Hst.
      rewrite Z.min_l in Hst by lia.
      destruct (head_step_chain b (ConsumeHead n b) _ bs Hwf Hst) as [Hw Hd]; [rewrite length_drop; lia|].
      split; [done|]. by rewrite Hd, chain_data_cons, drop_app_le by lia.
  - exists (b :: bs). replace n with 0 by lia. by rewrite drop_0.
Qed.

Lemma read_chain_step bs n acc :
  wf_chain bs → 0 <= n <= chain_len bs →
  read_chain n acc bs = Returns (CHIP_NO_ERROR, acc ++ take (Z.to_nat n) (chain_data bs)).
Proof.
  revert n acc. induction bs as [|b bs IH]; intros n acc Hwf Hn.
  { replace n with 0 by (unfold chain_len in Hn; cbn in Hn; lia). cbn. by rewrite app_nil_r. }
  apply wf_chain_cons in Hwf as (Hb&Hwf&Ht&Hs). pose proof (buf_data_length b Hb) as Hdl.
  rewrite chain_len_cons in Hn by done. cbn [read_chain]. unfold DataLength, Start.
  destruct (Z.ltb_spec 0 n); [|replace n with 0 by lia; cbn [Z.to_nat]; by rewrite take_0, app_nil_r].
  assert ((if n <? pb_len b then n else pb_len b) = Z.min n (pb_len b)) as -> by (zcase; lia).
  pose proof (chain_len_nonneg bs). rewrite read_data by (done || lia). cbn [obind]. rewrite size_t_id by lia. rewrite IH by (done || lia).
  rewrite chain_data_cons, take_app, <- app_assoc. do 3 f_equal. f_equal; [|f_equal; lia].
  destruct (decide (n <= pb_len b)); [f_equal; lia|]. by rewrite !take_ge by lia.
Qed.

(** [Read] copies from the front of the chain, or reports that it is too short. *)
Lemma Read_step b bs n :
  wf_chain (b :: bs) → 0 <= n →
  Read n b bs = Returns (if n <=? chain_len (b :: bs)
                         then (CHIP_NO_ERROR, take (Z.to_nat n) (chain_data (b :: bs)))
                         else (CHIP_ERROR_BUFFER_TOO_SMALL, [])).
Proof.
  intros Hwf Hn. unfold Read, TotalLength. rewrite (wf_chain_tot b bs) by done.
  destruct (Z.ltb_spec (chain_len (b :: bs)) n); destruct (Z.leb_spec n (chain_len (b :: bs))); try lia; [done|].
  by rewrite read_chain_step.
Qed.

(** Data is put behind the data of a buffer. *)
Lemma append_data b d :
  wf_buf b → pb_payload b + pb_len b + Z.of_nat (length d) <= AllocSize b →
  ∃ m, mem_write (pb_mem b) (pb_payload b + pb_len b) d = Returns m ∧
    let b' := pbset_len (pb_len b + Z.of_nat (length d)) (pbset_mem m b) in
    wf_buf b' ∧ buf_data b' = buf_data b ++ d ∧ AllocSize b' = AllocSize b.
Proof.
  intros Hb Hd. destruct (wf_lay b Hb) as (A&U&Hl). pose proof (lay_alloc _ _ _ _ Hl) as Ha.
  pose proof Hl as (Hm&Hp&Hn). exists ((A ++ buf_data b) ++ d ++ drop (length d) U).
  rewrite Hm, app_assoc. replace (pb_payload b + pb_len b) with (Z.of_nat (length (A ++ buf_data b)))
    by (rewrite length_app; lia).
  rewrite mem_write_at by lia. split; [done|]. set (b' := pbset_len _ _). cbn zeta.
  assert (Hl' : lay A (buf_data b ++ d) (drop (length d) U) b').
  { split_and!; cbn; [by rewrite <- !app_assoc|done|]. rewrite length_app. lia. }
  assert (AllocSize b' = AllocSize b) as Ha'.
  { rewrite (lay_alloc _ _ _ _ Hl'), Ha, length_app, length_drop. lia. }
  split_and!; [|by apply (lay_data _ _ _ _ Hl')|done].
  apply (lay_wf _ _ _ _ Hl'); [rewrite Ha'|]; apply Hb.
Qed.

(** The head is filled from the buffers behind it; the bytes of the chain stay. The loop ends in
    a failed check only when one of these buffers is shared. *)
Lemma compact_loop_step fuel b rest :
  wf_chain (b :: rest) → (length rest < fuel)%nat →
  (compact_loop fuel b (AllocSize b - pb_payload b - pb_len b) rest = Crashes AssertFailed ∧ ¬ Forall (λ b, pb_ref b = 1) rest) ∨
  ∃ b' rest', compact_loop fuel b (AllocSize b - pb_payload b - pb_len b) rest = Returns (b' :: rest') ∧
    wf_chain (b' :: rest') ∧ chain_data (b' :: rest') = chain_data (b :: rest) ∧ pb_payload b' = pb_payload b ∧
    (rest' = [] ∨ pb_payload b' + pb_len b' = AllocSize b').
Proof.
  revert b rest. induction fuel as [|fuel IH]; intros b rest Hwf Hfuel; [lia|].
  destruct rest as [|nx rest]; [right; exists b, []; split_and!; auto|]. pose proof (proj1 (wf_chain_cons b _) Hwf) as (Hb&Hwf'&Ht&Hs).
  pose proof (proj1 (wf_chain_cons nx _) Hwf') as (Hn&Hwr&Htn&Hsn). rewrite chain_len_cons in Ht, Hs by done.
  pose proof (buf_data_length nx Hn) as Hdl. pose proof (chain_len_nonneg rest).
  set (av := AllocSize b - pb_payload b - pb_len b). cbn [compact_loop].
  destruct (Z.ltb_spec 0 av) as [Hav|Hav]; cycle 1.
  { right. exists b, (nx :: rest). split_and!; auto. right. unfold av in Hav. unfold wf_buf in Hb. lia. }
  unfold verify_or_die. destruct (Z.eqb_spec (pb_ref nx) 1) as [Hnx|Hnx]; [|left; split; [done|by intros [? _]%Forall_cons]].
  assert ((if av <? pb_len nx then av else pb_len nx) = Z.min av (pb_len nx)) as -> by (zcase; lia).
  set (k := Z.min av (pb_len nx)). rewrite read_data by (done || lia). cbn [obind].
  assert (Z.of_nat (length (take (Z.to_nat k) (buf_data nx))) = k) as Hk by (rewrite length_take; lia).
  destruct (append_data b (take (Z.to_nat k) (buf_data nx))) as (m&->&Hb'&Hd'&Ha'); [done|unfold av in *; lia|].
  cbn [obind]. rewrite Hk in Hb', Hd', Ha'. rewrite !size_t_id by (unfold av in *; pb_lia).
  set (b' := pbset_len (pb_len b + k) (pbset_mem m b)) in *.
  replace (av - k) with (AllocSize b' - pb_payload b' - pb_len b') by (rewrite Ha'; unfold b', av; cbn; lia).
  destruct (data_cut nx k Hn ltac:(lia)) as (Hn'&Hdn'&_).
  set (nx' := mkPbuf (pb_mem nx) _ _ _ _) in *.
  assert (Hbytes : buf_data b' ++ buf_data nx' = buf_data b ++ buf_data nx)
    by (rewrite Hd', Hdn', <- app_assoc; f_equal; apply take_drop).
  destruct (Z.eqb_spec (pb_len nx') 0) as [Hz|Hz]; cbn [pb_len] in Hz.
  - rewrite FreeHead_live by done. cbn [obind].
    assert (buf_data nx' = []) as Hnil by (apply nil_length_inv; pose proof (buf_data_length nx' Hn'); unfold nx' in *; cbn in *; lia).
    destruct (IH b' rest) as [[E Hsh]|(b2&rest2&E&Hw2&Hd2&Hp2&Hend)]; [|cbn in Hfuel; lia|left; split; [done|by intros [_ ?]%Forall_cons]|right].
    { apply wf_chain_cons. unfold b', nx' in *; cbn in *. split_and!; try done; lia. }
    exists b2, rest2. split_and!; try done. rewrite Hd2, !chain_data_cons, app_assoc, <- Hbytes, Hnil. by rewrite app_nil_r.
  - right. assert (Hwf2 : wf_chain (b' :: nx' :: rest)).
    { apply wf_chain_cons. rewrite chain_len_cons by done. unfold b', nx' in *; cbn in *.
      split_and!; try done; [|lia|lia]. apply wf_chain_cons. cbn. split_and!; try done; lia. }
    destruct fuel as [|fuel]; [cbn in Hfuel; lia|]. exists b', (nx' :: rest). cbn [compact_loop].
    rewrite (proj2 (Z.ltb_ge 0 _)) by (rewrite Ha'; unfold b', nx', k, av in *; cbn in *; lia).
    split_and!; try done.
    + by rewrite !chain_data_cons, !app_assoc, Hbytes.
    + right. rewrite Ha'. unfold b', nx', k, av in *. cbn in *. lia.
Qed.

Lemma CompactHead_step b rest :
  wf_chain (b :: rest) →
  (CompactHead b rest = Crashes AssertFailed ∧ ¬ Forall (λ b, pb_ref b = 1) rest) ∨
  ∃ b' rest', CompactHead b rest = Returns (b' :: rest') ∧ wf_chain (b' :: rest') ∧
    chain_data (b' :: rest') = chain_data (b :: rest) ∧ pb_payload b' = 0 ∧
    (rest' = [] ∨ pb_len b' = AllocSize b').
Proof.
  intros Hwf. pose proof (proj1 (wf_chain_cons b rest) Hwf) as (Hb&_&_&Hs). unfold CompactHead.
  assert (∃ b1, (if pb_payload b =? 0 then Returns b else move_data 0 b) = Returns b1 ∧ wf_chain (b1 :: rest) ∧
    chain_data (b1 :: rest) = chain_data (b :: rest) ∧ pb_payload b1 = 0) as (b1&->&Hw1&Hd1&Hp1).
  { destruct (Z.eqb_spec (pb_payload b) 0); [by exists b|].
    destruct (move_data_wf b 0) as (b1&->&Hb1&Hd&Hp&Ha&Hl&Ht&Hr); [done|lia|pb_lia|].
    exists b1. split_and!; try done; [|by rewrite !chain_data_cons, Hd]. apply (head_replaced b); try done; lia. }
  cbn [obind]. pose proof (proj1 (wf_chain_cons b1 rest) Hw1) as (Hb1&_). rewrite AvailableDataLength_wf by done.
  destruct (compact_loop_step (S (length rest)) b1 rest) as [?|(b2&rest2&E&Hw2&Hd2&Hp2&Hend)]; [done|lia|by left|right].
  exists b2, rest2. split_and!; [done..|by rewrite Hd2|lia|]. destruct Hend; [by left|right; lia].
Qed.

Lemma single_wf b : wf_buf b → pb_tot_len b = pb_len b → wf_chain [b].
Proof.
  intros Hb Ht. apply wf_chain_cons. pose proof size_pow. unfold chain_len. cbn. split_and!; try done; [|pb_lia..].
  split_and!; [done|done|]. unfold chain_len. cbn. lia.
Qed.

(** A second buffer that fits is moved into the head as a whole. *)
Lemma CompactHead_pair b d :
  wf_chain [b; d] → pb_ref d = 1 → pb_len b + pb_len d <= AllocSize b → pb_len b < AllocSize b →
  ∃ b', CompactHead b [d] = Returns [b'] ∧ wf_chain [b'] ∧ buf_data b' = buf_data b ++ buf_data d ∧
    pb_payload b' = 0 ∧ AllocSize b' = AllocSize b ∧ pb_ref b' = pb_ref b.
Proof.
  intros Hwf Hr Hfit Hroom. pose proof (proj1 (wf_chain_cons b [d]) Hwf) as (Hb&Hwd&Ht&Hs).
  pose proof (proj1 (wf_chain_cons d []) Hwd) as (Hd&_&_&_). rewrite chain_len_cons in Ht, Hs by done.
  change (chain_len []) with 0 in *. unfold CompactHead.
  assert (∃ b1, (if pb_payload b =? 0 then Returns b else move_data 0 b) = Returns b1 ∧ wf_buf b1 ∧
    buf_data b1 = buf_data b ∧ pb_payload b1 = 0 ∧ AllocSize b1 = AllocSize b ∧ pb_len b1 = pb_len b ∧
    pb_tot_len b1 = pb_tot_len b ∧ pb_ref b1 = pb_ref b) as (b1&->&Hb1&Hd1&Hp1&Ha1&Hl1&Ht1&Hr1).
  { destruct (Z.eqb_spec (pb_payload b) 0); [by exists b|].
    destruct (move_data_wf b 0) as (b1&->&Hb1&?&?&?&?&?&?); [done|lia|pb_lia|]. by exists b1. }
  cbn [obind]. rewrite AvailableDataLength_wf by done. cbn [compact_loop length].
  rewrite (proj2 (Z.ltb_lt 0 _)) by lia. unfold verify_or_die. rewrite (proj2 (Z.eqb_eq _ _) Hr).
  rewrite (proj2 (Z.ltb_ge _ (pb_len d))) by lia. rewrite read_data by (done || pb_lia).
  pose proof (buf_data_length d Hd) as Hdl. rewrite take_ge by lia. cbn [obind].
  destruct (append_data b1 (buf_data d)) as (m&->&Hb'&Hd'&Ha'); [done|lia|]. cbn [obind]. rewrite Hdl in Hb', Hd', Ha'.
  replace (size_t (pb_len d - pb_len d)) with 0 by (rewrite Z.sub_diag, size_t_small; lia). rewrite Z.eqb_refl.
  destruct (data_cut d (pb_len d) Hd ltac:(pb_lia)) as (Hcut&_). rewrite FreeHead_live.
  2:{ unfold wf_buf, AllocSize in *. cbn in *. lia. }
  cbn [obind]. rewrite size_t_small by pb_lia. eexists. split; [done|].
  split_and!; [|by rewrite Hd', Hd1|done|lia|done]. apply single_wf; [done|]. cbn. lia.
Qed.

(** The length of one buffer is set; what was in front of it and behind it stays. *)
Lemma SetDataLength_step n i bs b :
  bs !! i = Some b → wf_chain bs → 0 <= n →
  let n' := Z.min n (AllocSize b - pb_payload b) in
  chain_len bs + (n' - pb_len b) < 2 ^ SIZE_BITS →
  ∃ bs' x y, SetDataLength n i bs = (bs', n' - pb_len b) ∧ wf_chain bs' ∧
    chain_data bs = x ++ buf_data b ++ y ∧
    chain_data bs' = x ++ slice (pb_mem b) (pb_payload b) n' ++ y.
Proof.
  intros Hi Hwf Hn n'. revert i Hi. induction bs as [|a bs IH]; intros i Hi Hl; [by destruct i|].
  pose proof (proj1 (wf_chain_cons a bs) Hwf) as (Ha&Hwf'&Ht&Hs). rewrite chain_len_cons in Hl by done.
  pose proof (chain_len_nonneg bs). destruct i as [|i]; cbn [SetDataLength]; cbn in Hi.
  - injection Hi as ->. rewrite MaxDataLength_wf by done.
    assert ((if AllocSize b - pb_payload b <? n then AllocSize b - pb_payload b else n) = n') as ->
      by (unfold n'; zcase; lia).
    assert (0 <= n' <= AllocSize b - pb_payload b) as Hn' by (unfold n'; pb_lia).
    rewrite size_t_id by pb_lia. eexists _, [], (chain_data bs). split_and!; [done| |done|done].
    apply (head_replaced b); try done; cbn; [|lia..]. unfold wf_buf, AllocSize in *. cbn. lia.
  - assert (0 <= pb_len a) by apply Ha.
    destruct (IH Hwf' i Hi) as (bs'&x&y&E&Hw&Hd&Hd'); [lia|]. rewrite E. cbn beta iota.
    assert (Hb : wf_buf b) by (eapply Forall_lookup_1; [apply Hwf'|done]). pose proof (buf_data_length b Hb) as Hbl.
    assert (chain_len bs' = chain_len bs + (n' - pb_len b)) as Hcl.
    { unfold chain_len. rewrite Hd', Hd, !length_app. unfold slice. rewrite length_take, length_drop.
      unfold n', wf_buf, AllocSize in *. lia. }
    pose proof (chain_len_nonneg bs').
    rewrite size_t_id by lia. eexists _, (buf_data a ++ x), y. split_and!; [done| | |].
    + apply wf_chain_cons. rewrite Hcl. cbn. split_and!; try done; lia.
    + by rewrite chain_data_cons, Hd, <- app_assoc.
    + by rewrite chain_data_cons, Hd', <- app_assoc.
Qed.

(** ** New buffers *)

Section Alloc.
Context (MemoryAlloc : Z → option (list Z)).
Context (alloc_size_ok : ∀ n m, MemoryAlloc n = Some m → Z.of_nat (length m) = n).

Lemma New_step avail reserved :
  0 <= avail → in_u16 reserved →
  New MemoryAlloc avail reserved = [] ∨
  ∃ m, Z.of_nat (length m) = avail + reserved ∧
    New MemoryAlloc avail reserved = [mkPbuf m reserved 0 0 1] ∧ wf_buf (mkPbuf m reserved 0 0 1).
Proof.
  intros Ha Hr. unfold New. destruct (Z.ltb_spec kUINT32_MAX avail); [by left|].
  rewrite !u64_id by pb_lia. repeat (zcase; [by left|]).
  destruct (MemoryAlloc (avail + reserved)) as [m|] eqn:E; [|by left].
  right. exists m. pose proof (alloc_size_ok _ _ E). split_and!; try done.
  unfold wf_buf, AllocSize. cbn. pb_lia.
Qed.

Lemma NewWithData_step d extra reserved :
  0 <= extra → Z.of_nat (length d) + extra < 2 ^ SIZE_BITS → in_u16 reserved →
  NewWithData MemoryAlloc d extra reserved = Returns [] ∨
  ∃ b, NewWithData MemoryAlloc d extra reserved = Returns [b] ∧ wf_chain [b] ∧ chain_data [b] = d ∧
    pb_payload b = reserved ∧ AllocSize b = reserved + Z.of_nat (length d) + extra.
Proof.
  intros He Hd Hr. unfold NewWithData. rewrite size_t_id by lia.
  destruct (New_step (Z.of_nat (length d) + extra) reserved) as [->|(m&Hm&->&Hb)]; [lia|done|by left|].
  right. cbn [pb_mem pb_payload pb_ref].
  destruct (append_data (mkPbuf m reserved 0 0 1) d Hb) as (m'&Hw&Hb'&Hdd&Ha); [unfold AllocSize; cbn; lia|].
  cbn in Hw. rewrite Z.add_0_r in Hw. rewrite Hw. cbn [obind]. eexists. split; [done|].
  assert (AllocSize (mkPbuf m' reserved (Z.of_nat (length d)) (Z.of_nat (length d)) 1) = reserved + Z.of_nat (length d) + extra) as Ha2.
  { etransitivity; [exact Ha|]. unfold AllocSize. cbn. lia. }
  split_and!; try done.
  - apply single_wf; [|done]. unfold wf_buf in *. cbn in *. unfold AllocSize in *. cbn in *. lia.
  - unfold chain_data. cbn. rewrite app_nil_r. exact Hdd.
Qed.

(** A copy of a block with the same accounting. *)
Lemma copy_block b m k :
  wf_buf b → pb_payload b + pb_len b <= k <= AllocSize b → Z.of_nat (length m) = k →
  ∃ m', (let+ d := mem_read (pb_mem b) 0 k in mem_write m 0 d) = Returns m' ∧
    let b' := mkPbuf m' (pb_payload b) (pb_tot_len b) (pb_len b) 1 in
    wf_buf b' ∧ buf_data b' = buf_data b ∧ AllocSize b' = k.
Proof.
  intros Hb Hk Hm. pose proof (buf_data_length b Hb) as Hl. assert (pb_payload b + pb_len b <= k) as Hk' by lia.
  destruct (split_at (pb_mem b) 0 (length m)) as (A&B&C&Hmem&HA&HB); [unfold AllocSize in *; lia|].
  destruct A; [|done]. cbn in Hmem. exists B.
  pose proof (mem_read_mid [] B C) as Hr. pose proof (mem_write_mid [] m B [] HB) as Hw.
  rewrite !app_nil_r in Hw. change (Z.of_nat (length (@nil Z))) with 0 in Hr, Hw. cbn [app] in Hr, Hw. rewrite Hmem, <- Hm, <- HB, Hr. cbn [obind]. split; [done|].
  unfold buf_data, AllocSize, slice. cbn. split_and!; [|rewrite Hmem|done].
  - unfold wf_buf, AllocSize in *. cbn. unfold kUINT16_MAX. lia.
  - rewrite drop_app_le, take_app_le by (rewrite ?length_drop; unfold wf_buf in *; lia). done.
Qed.

Lemma RightSize_step bs :
  wf_chain bs →
  ∃ bs', RightSize MemoryAlloc bs = Returns bs' ∧ wf_chain bs' ∧ chain_data bs' = chain_data bs.
Proof.
  intros Hwf. destruct bs as [|b [|c bs]]; [by exists []| |by exists (b :: c :: bs)].
  pose proof (proj1 (wf_chain_cons b []) Hwf) as (Hb&_&Ht&_). cbn [RightSize].
  destruct (Z.eqb_spec (pb_ref b) 1) as [Hr|]; [|by exists [b]]. unfold kRightSizingThreshold.
  rewrite (size_t_small (pb_payload b + pb_len b)) by pb_lia. rewrite size_t_small by pb_lia. zcase; [by exists [b]|].
  destruct (MemoryAlloc _) as [m|] eqn:E; [|by exists [b]]. apply alloc_size_ok in E.
  destruct (copy_block b m (pb_payload b + pb_len b) Hb) as (m'&Hc&Hb'&Hd&_); [lia|done|].
  destruct (mem_read _ _ _) as [d|]; [|done]. cbn [obind] in Hc |- *. rewrite Hc. cbn [obind].
  cbn [Free]. unfold verify_or_die. rewrite Hr. cbn. eexists. split_and!; [done| |].
  - apply single_wf; [done|]. cbn. rewrite Ht. unfold chain_len. cbn. lia.
  - unfold chain_data. cbn. by rewrite Hd.
Qed.

Lemma clone_loop_step bs cs :
  wf_chain bs → wf_chain cs → chain_len cs + chain_len bs < 2 ^ SIZE_BITS →
  clone_loop MemoryAlloc bs cs = Returns [] ∨
  ∃ bs', clone_loop MemoryAlloc bs cs = Returns bs' ∧ wf_chain bs' ∧ chain_data bs' = chain_data cs ++ chain_data bs.
Proof.
  revert cs. induction bs as [|b bs IH]; intros cs Hbs Hcs Hl.
  { right. exists cs. by rewrite app_nil_r. }
  pose proof (proj1 (wf_chain_cons b bs) Hbs) as (Hb&Hbs'&_&_). rewrite chain_len_cons in Hl by done.
  pose proof (chain_len_nonneg bs). pose proof (chain_len_nonneg cs).
  cbn [clone_loop]. unfold DataLength. rewrite MaxDataLength_wf, ReservedSize_wf by done.
  replace (AllocSize b - pb_payload b + pb_payload b) with (AllocSize b) by lia.
  rewrite (proj2 (Z.ltb_ge _ _)) by (rewrite size_t_small by pb_lia; apply Hb). cbn [andb].
  destruct (New_step (AllocSize b - pb_payload b) (pb_payload b)) as [->|(m&Hm&->&_)]; [pb_lia|pb_lia|by left|].
  cbn [pb_mem pb_payload pb_ref]. replace (AllocSize b - pb_payload b + pb_payload b) with (AllocSize b) in * by lia.
  destruct (copy_block b m (AllocSize b) Hb) as (m'&Hc&Hb'&Hd&_); [pb_lia|done|].
  destruct (mem_read _ _ _) as [d|]; [|done]. cbn [obind] in Hc |- *. rewrite Hc. cbn [obind].
  set (c := mkPbuf m' (pb_payload b) (pb_len b) (pb_len b) 1).
  assert (wf_chain [c]) as Hwc by (by apply single_wf).
  assert (chain_data [c] = buf_data b) as Hcd by (unfold chain_data; cbn; rewrite app_nil_r; exact Hd).
  assert (chain_len [c] = pb_len b) as Hcl by (unfold chain_len; rewrite Hcd; by apply buf_data_length).
  destruct (AddToEnd_step cs [c]) as (cs'&->&Hw'&Hd'); [done|done|by right|lia|]. cbn [obind].
  destruct (IH cs') as [->|(bs'&->&Hw2&Hd2)]; [done|done| |by left|].
  { unfold chain_len at 1. rewrite Hd', length_app, Hcd. unfold chain_len in *. rewrite Hcd in Hcl. lia. }
  right. exists bs'. split_and!; try done. by rewrite Hd2, Hd', Hcd, chain_data_cons, app_assoc.
Qed.

End Alloc.
End Spec.
