(* ===== verification/PacketBufferThm.v ===== *)
(** * Operations on packet buffers: safety and effect

    All operations on a handle as one type, what a caller must keep to, and the theorems:
    they return, stay inside the blocks, keep the chain well-formed, and act on its bytes
    as documented; two checks may end the program. *)

From S2P Require Import Prelude.
From S2P Require Import COutcome.
From S2P Require Import ChipError.
From S2P Require Import PacketBuffer.
From S2P Require Import PacketBufferSpec.

Inductive pb_op :=
| OpSetStart (aNewStart : Z)
| OpSetDataLength (aNewLen : Z) (i : nat)
| OpAddToEnd (aPacket : list pbuf)
| OpCompactHead
| OpConsumeHead (aConsumeLength : Z)
| OpConsume (aConsumeLength : Z)
| OpEnsureReservedSize (aReservedSize : Z)
| OpAlignPayload (base aAlignBytes : Z)
| OpPopHead
| OpRightSize
| OpCloneData.

Section Ops.
Context `{PbufBounds}.
Context (MemoryAlloc : Z → option (list Z)).

(** An operation on a null handle dereferences the null pointer. *)
Definition exec (op : pb_op) (bs : list pbuf) : outcome (list pbuf) :=
  match op, bs with
  | OpSetStart n, b :: rest => Returns (SetStart n b :: rest)
  | OpSetDataLength n i, _ :: _ => Returns (SetDataLength n i bs).1
  | OpAddToEnd p, _ => AddToEnd bs p
  | OpCompactHead, b :: rest => CompactHead b rest
  | OpConsumeHead n, b :: rest => Returns (ConsumeHead n b :: rest)
  | OpConsume n, _ :: _ => Consume n bs
  | OpEnsureReservedSize n, b :: rest => let+ res := EnsureReservedSize n b in Returns (res.2 :: rest)
  | OpAlignPayload base n, b :: rest => let+ res := AlignPayload base n b in Returns (res.2 :: rest)
  | OpPopHead, b :: rest => Returns (PopHead b rest).2
  | OpRightSize, _ => RightSize MemoryAlloc bs
  | OpCloneData, _ => CloneData MemoryAlloc bs
  | _, [] => Crashes OutOfBounds
  end.

(** What the types and the interface ask of a call: the handle is not null where a buffer is
    needed, numbers have their types, and setting a start or a length does not make the chain
    longer than a [size_t] counts. *)
Definition typed (op : pb_op) (bs : list pbuf) : Prop :=
  match op with
  | OpSetStart _ => ∃ b rest, bs = b :: rest ∧ AllocSize b + chain_len rest < 2 ^ SIZE_BITS
  | OpSetDataLength n i => 0 <= n ∧ ∃ b, bs !! i = Some b ∧ chain_len bs + AllocSize b < 2 ^ SIZE_BITS
  | OpAddToEnd p => wf_chain p ∧ (bs = [] ∨ p ≠ [])
  | OpCompactHead => bs ≠ []
  | OpConsumeHead n => bs ≠ [] ∧ 0 <= n
  | OpConsume n => bs ≠ [] ∧ 0 <= n < 2 ^ SIZE_BITS
  | OpEnsureReservedSize n => bs ≠ [] ∧ in_u16 n
  | OpAlignPayload base n => bs ≠ [] ∧ 0 <= base ∧ in_u16 n
  | OpPopHead => bs ≠ []
  | OpRightSize | OpCloneData => True
  end.

(** The two calls whose checks may fail: adding beyond what a [size_t] counts, and compacting
    when a buffer behind the head is shared. *)
Definition overflows (op : pb_op) (bs : list pbuf) : Prop :=
  match op with OpAddToEnd p => bs ≠ [] ∧ 2 ^ SIZE_BITS <= chain_len bs + chain_len p | _ => False end.
Definition shares (op : pb_op) (bs : list pbuf) : Prop :=
  match op with OpCompactHead => ¬ Forall (λ b, pb_ref b = 1) (tail bs) | _ => False end.

(** A call that meets no failing check: the handle is not null, numbers have their types, the
    buffers behind the head are not shared when they are emptied, and the length of the
    chain fits in a [size_t]. *)
Definition allowed (op : pb_op) (bs : list pbuf) : Prop :=
  match op with
  | OpSetStart _ => ∃ b rest, bs = b :: rest ∧ AllocSize b + chain_len rest < 2 ^ SIZE_BITS
  | OpSetDataLength n i => 0 <= n ∧ ∃ b, bs !! i = Some b ∧ chain_len bs + AllocSize b < 2 ^ SIZE_BITS
  | OpAddToEnd p => wf_chain p ∧ (bs = [] ∨ p ≠ []) ∧ chain_len bs + chain_len p < 2 ^ SIZE_BITS
  | OpCompactHead => ∃ b rest, bs = b :: rest ∧ Forall (λ b, pb_ref b = 1) rest
  | OpConsumeHead n => bs ≠ [] ∧ 0 <= n
  | OpConsume n => bs ≠ [] ∧ 0 <= n < 2 ^ SIZE_BITS
  | OpEnsureReservedSize n => bs ≠ [] ∧ in_u16 n
  | OpAlignPayload base n => bs ≠ [] ∧ 0 <= base ∧ in_u16 n
  | OpPopHead => bs ≠ []
  | OpRightSize | OpCloneData => True
  end.

(** What the operation makes of the bytes of the chain. *)
Definition effect (op : pb_op) (bs : list pbuf) (d : list Z) : Prop :=
  match op, bs with
  | OpSetStart n, b :: rest =>
      let n := Z.max 0 (Z.min n (AllocSize b)) in
      if n <=? pb_payload b
      then d = slice (pb_mem b) n (pb_payload b - n) ++ chain_data bs
      else d = drop (Z.to_nat (n - pb_payload b)) (buf_data b) ++ chain_data rest
  | OpSetDataLength n i, _ =>
      ∃ b x y, bs !! i = Some b ∧ chain_data bs = x ++ buf_data b ++ y ∧
        d = x ++ slice (pb_mem b) (pb_payload b) (Z.min n (AllocSize b - pb_payload b)) ++ y
  | OpAddToEnd p, _ => d = chain_data bs ++ chain_data p
  | OpConsumeHead n, b :: rest => d = drop (Z.to_nat n) (buf_data b) ++ chain_data rest
  | OpConsume n, _ => d = drop (Z.to_nat n) (chain_data bs)
  | OpPopHead, _ :: rest => d = chain_data rest
  | OpCloneData, _ => d = chain_data bs ∨ d = []
  | _, _ => d = chain_data bs
  end.

Context (alloc_size_ok : ∀ n m, MemoryAlloc n = Some m → Z.of_nat (length m) = n).

Lemma slice_join (l : list Z) i n k :
  0 <= i → 0 <= n → 0 <= k → slice l i n ++ slice l (i + n) k = slice l i (n + k).
Proof.
  intros. unfold slice. rewrite !Z2Nat.inj_add by done. by rewrite <- drop_drop, take_take_drop.
Qed.

Lemma SetStart_effect b rest n :
  wf_chain (b :: rest) → AllocSize b + chain_len rest < 2 ^ SIZE_BITS →
  wf_chain (SetStart n b :: rest) ∧ effect (OpSetStart n) (b :: rest) (chain_data (SetStart n b :: rest)).
Proof.
  intros Hwf Hs. destruct (SetStart_step b rest n Hwf Hs) as [Hst Hp].
  set (n' := Z.max 0 (Z.min n (AllocSize b))) in *.
  pose proof (proj1 (wf_chain_cons b rest) Hwf) as (Hb&_). pose proof Hb as (H1&H2&H3&_).
  destruct (head_step_chain _ _ _ rest Hwf Hst) as [Hw Hd].
  { unfold slice. rewrite length_take, length_drop. unfold AllocSize in *. lia. }
  split; [done|]. cbn [effect]. fold n'. rewrite Hd. destruct (Z.leb_spec n' (pb_payload b)).
  - rewrite chain_data_cons, app_assoc. f_equal. unfold buf_data.
    replace (pb_payload b) with (n' + (pb_payload b - n')) at 3 by lia.
    rewrite slice_join by lia. f_equal. lia.
  - f_equal. unfold buf_data, slice. rewrite skipn_firstn_comm, drop_drop. f_equal; [lia|]. f_equal. lia.
Qed.

Lemma head_same b b' rest :
  wf_chain (b :: rest) → wf_buf b' → buf_data b' = buf_data b → pb_len b' = pb_len b → pb_tot_len b' = pb_tot_len b →
  wf_chain (b' :: rest) ∧ chain_data (b' :: rest) = chain_data (b :: rest).
Proof.
  intros Hwf Hb' Hd Hl Ht. pose proof (proj1 (wf_chain_cons b rest) Hwf) as (Hb&_&_&Hs).
  rewrite !chain_data_cons, Hd. split; [|done]. apply (head_replaced b); try done; lia.
Qed.

Lemma EnsureReservedSize_effect b rest n :
  wf_chain (b :: rest) → in_u16 n →
  ∃ ok b', EnsureReservedSize n b = Returns (ok, b') ∧ wf_chain (b' :: rest) ∧
    chain_data (b' :: rest) = chain_data (b :: rest).
Proof.
  intros Hwf Hn. pose proof (proj1 (wf_chain_cons b rest) Hwf) as (Hb&_).
  destruct (EnsureReservedSize_step b n Hb Hn) as (b'&->&Hb'&Hd&Hl&Ht&_).
  eexists _, b'. split; [done|]. by apply head_same.
Qed.

Lemma AlignPayload_effect base b rest n :
  wf_chain (b :: rest) → in_u16 n → 0 <= base →
  ∃ ok b', AlignPayload base n b = Returns (ok, b') ∧ wf_chain (b' :: rest) ∧
    chain_data (b' :: rest) = chain_data (b :: rest).
Proof.
  intros Hwf Hn Hbase. unfold AlignPayload. cbn zeta.
  destruct (n =? 0); [by eexists _, b|]. destruct (_ =? 0); [by eexists _, b|]. zcase; [by eexists _, b|].
  apply EnsureReservedSize_effect; [done|]. unfold ReservedSize, kUINT16_MAX in *.
  pose proof (u16_range (Start b)). set (k := u16 (n - _)) in *.
  pose proof (u16_range (n - u16 ((base + pb_payload b) mod n))). solve_width.
Qed.

Lemma exec_step op bs :
  wf_chain bs → allowed op bs → ∃ bs', exec op bs = Returns bs' ∧ wf_chain bs' ∧ effect op bs (chain_data bs').
Proof.
  intros Hwf Hal. destruct op; cbn [allowed] in Hal.
  - destruct Hal as (b&rest&->&Hs). eexists. split; [done|]. by apply SetStart_effect.
  - destruct Hal as (Hn&b&Hi&Hs). assert (Hb : wf_buf b) by (eapply Forall_lookup_1; [apply Hwf|done]).
    destruct (SetDataLength_step aNewLen i bs b Hi Hwf Hn) as (bs'&x&y&E&Hw&Hd&Hd').
    { destruct Hb as (?&?&?&_). lia. }
    destruct bs as [|b0 bs]; [by destruct i|]. cbn [exec]. rewrite E. exists bs'. split_and!; try done.
    exists b, x, y. done.
  - destruct Hal as (Hp&Hne&Hs). destruct (AddToEnd_step bs aPacket Hwf Hp Hne Hs) as (bs'&E&Hw&Hd). by exists bs'.
  - destruct Hal as (b&rest&->&Hr). destruct (CompactHead_step b rest Hwf) as [[_ []]|(b'&rest'&E&Hw&Hd&_)]; [done|]. by exists (b' :: rest').
  - destruct Hal as [Hne Hn]. destruct bs as [|b rest]; [done|]. eexists. split; [done|].
    pose proof (proj1 (wf_chain_cons b rest) Hwf) as (Hb&_&_&Hs). pose proof (buf_data_length b Hb).
    destruct (head_step_chain _ _ _ rest Hwf (ConsumeHead_step b rest aConsumeLength Hwf Hn)) as [Hw Hd].
    { rewrite length_drop. lia. }
    split; [done|]. cbn [effect]. rewrite Hd. f_equal. destruct (decide (aConsumeLength <= pb_len b)); [f_equal; lia|].
    by rewrite !drop_ge by lia.
  - destruct Hal as [Hne Hn]. destruct (Consume_step bs aConsumeLength Hwf Hn) as (bs'&E&Hw&Hd).
    exists bs'. by destruct bs.
  - destruct Hal as [Hne Hn]. destruct bs as [|b rest]; [done|].
    destruct (EnsureReservedSize_effect b rest aReservedSize Hwf Hn) as (ok&b'&E&Hw&Hd).
    cbn [exec]. rewrite E. by exists (b' :: rest).
  - destruct Hal as (Hne&Hbase&Hn). destruct bs as [|b rest]; [done|].
    destruct (AlignPayload_effect base b rest aAlignBytes Hwf Hn Hbase) as (ok&b'&E&Hw&Hd).
    cbn [exec]. rewrite E. by exists (b' :: rest).
  - destruct bs as [|b rest]; [done|]. exists rest. apply wf_chain_cons in Hwf as (_&Hw&_). by split_and!.
  - destruct (RightSize_step MemoryAlloc alloc_size_ok bs Hwf) as (bs'&E&Hw&Hd). exists bs'. by destruct bs.
  - assert (chain_len bs < 2 ^ SIZE_BITS) by apply Hwf.
    destruct (clone_loop_step MemoryAlloc alloc_size_ok bs [] Hwf) as [E|(bs'&E&Hw&Hd)]; [| |exists []|exists bs'].
    + split_and!; [constructor|done|]. pose proof size_pow. unfold chain_len. cbn. lia.
    + unfold chain_len at 1. cbn. lia.
    + split_and!; [by destruct bs|split_and!; [constructor|done|pose proof size_pow; unfold chain_len; cbn; lia]|by right].
    + split_and!; [by destruct bs|done|by left].
Qed.

Lemma overflow_dec op bs : overflows op bs ∨ ¬ overflows op bs.
Proof.
  destruct op; try (by right; intros []). cbn. destruct bs; [by right; intros [? _]|].
  destruct (Z.le_gt_cases (2 ^ SIZE_BITS) (chain_len (p :: bs) + chain_len aPacket)); [by left|right; lia].
Qed.

Lemma exec_typed op bs :
  wf_chain bs → typed op bs →
  (overflows op bs → exec op bs = Crashes AssertFailed) ∧
  (¬ overflows op bs → (shares op bs ∧ exec op bs = Crashes AssertFailed) ∨ ∃ bs', exec op bs = Returns bs' ∧ wf_chain bs').
Proof.
  intros Hwf Ht. split.
  { destruct op; try done. cbn in *. intros [Hne Hl]. destruct Ht as [Hp [?|?]]; [done|]. destruct bs; [done|]. by apply AddToEnd_overflow. }
  intros Ho. assert (allowed op bs → ∃ bs', exec op bs = Returns bs' ∧ wf_chain bs') as Hex.
  { intros Hal. destruct (exec_step op bs Hwf Hal) as (bs'&E&Hw&_). by exists bs'. }
  destruct op; try (by right; apply Hex); cbn in Ht, Ho.
  - right. apply Hex. destruct Ht as [Hp Hne]. cbn. split_and!; [done|done|]. destruct bs as [|b bs].
    { change (chain_len []) with 0. rewrite Z.add_0_l. apply Hp. }
    destruct (Z.le_gt_cases (2 ^ SIZE_BITS) (chain_len (b :: bs) + chain_len aPacket)); [by destruct Ho|lia].
  - destruct bs as [|b rest]; [done|]. destruct (CompactHead_step b rest Hwf) as [[E Hs]|(b'&rest'&E&Hw&_)]; [by left|].
    right. by exists (b' :: rest').
Qed.

(** The handles that a program can come to hold. *)
Inductive reachable : list pbuf → Prop :=
| reach_new avail reserved : 0 <= avail → in_u16 reserved → reachable (New MemoryAlloc avail reserved)
| reach_data d extra reserved bs :
    0 <= extra → Z.of_nat (length d) + extra < 2 ^ SIZE_BITS → in_u16 reserved →
    NewWithData MemoryAlloc d extra reserved = Returns bs → reachable bs
| reach_op op bs bs' : reachable bs → typed op bs → exec op bs = Returns bs' → reachable bs'.

Lemma wf_null : wf_chain [].
Proof. split_and!; [constructor|done|]. pose proof size_pow. unfold chain_len. cbn. lia. Qed.

Lemma reachable_wf bs : reachable bs → wf_chain bs.
Proof.
  induction 1 as [avail reserved Ha Hr|d extra reserved bs He Hd Hr E|op bs bs' _ IH Hal E].
  - destruct (New_step MemoryAlloc alloc_size_ok avail reserved Ha Hr) as [->|(m&_&->&Hb)]; [apply wf_null|by apply single_wf].
  - destruct (NewWithData_step MemoryAlloc alloc_size_ok d extra reserved He Hd Hr) as [E'|(b&E'&Hw&_)];
      rewrite E' in E; injection E as <-; [apply wf_null|done].
  - destruct (exec_typed op bs IH Hal) as [Ho Hr]. destruct (overflow_dec op bs) as [Hl|Hl].
    + by rewrite (Ho Hl) in E.
    + destruct (Hr Hl) as [[_ E2]|(bs2&E2&Hw)]; rewrite E2 in E; [done|]. by injection E as <-.
Qed.

(** C17: Every operation on a reachable handle whose arguments the types and the interface permit
    returns without an access outside a block and leaves a well-formed chain: the data of each
    buffer inside its block, and each total length the length of the data from there on. Two
    checks may fail and end the program, and only they: adding always fails the check when the
    chain would be too long for a [size_t], and compacting may fail its check when a buffer
    behind the head is shared. *)
Theorem packet_chain_safe op bs :
  reachable bs → typed op bs →
  (overflows op bs → exec op bs = Crashes AssertFailed) ∧
  (¬ overflows op bs → (shares op bs ∧ exec op bs = Crashes AssertFailed) ∨ ∃ bs', exec op bs = Returns bs' ∧ wf_chain bs').
Proof. intros Hr%reachable_wf. by apply exec_typed. Qed.

(** C18: The operations are operations on the sequence of bytes that the chain holds:
    consuming drops from the front, adding appends, and compacting, growing the reserve,
    aligning, resizing and cloning change nothing. *)
Theorem packet_chain_refines op bs bs' :
  reachable bs → allowed op bs → exec op bs = Returns bs' → effect op bs (chain_data bs').
Proof.
  intros Hr Hal E. destruct (exec_step op bs (reachable_wf bs Hr) Hal) as (bs2&E2&_&He). rewrite E2 in E.
  by injection E as <-.
Qed.

End Ops.

(** ** Runs *)

(** An allocator that gives zeroed blocks. *)
Definition calloc (n : Z) : option (list Z) := if n <? 0 then None else Some (replicate (Z.to_nat n) 0).

Lemma calloc_size n m : calloc n = Some m → Z.of_nat (length m) = n.
Proof. unfold calloc. zcase; [done|]. intros [= <-]. rewrite length_replicate. lia. Qed.

(** A buffer for eight bytes behind a reserve of four, filled with six. *)
Definition six_bytes : list pbuf := [mkPbuf [0; 0; 0; 0; 1; 2; 3; 4; 5; 6; 0; 0] 4 6 6 1].

Lemma six_bytes_reachable : @reachable host_config calloc six_bytes.
Proof.
  apply (@reach_data host_config calloc [1; 2; 3; 4; 5; 6] 2 4); [lia|vm_compute; done|solve_width|vm_compute; done].
Qed.

Lemma packet_chain_safe_witness :
  ∃ bs', @exec host_config calloc (OpConsume 4) six_bytes = Returns bs' ∧ @wf_chain host_config bs'.
Proof.
  destruct (@packet_chain_safe host_config host_bounds calloc calloc_size (OpConsume 4) six_bytes six_bytes_reachable) as [_ H].
  - split; [done|]. vm_compute. split; congruence.
  - destruct H as [[[] _]|H]; [intros []|exact H].
Defined.

Lemma packet_chain_refines_witness :
  chain_data [mkPbuf [0; 0; 0; 0; 1; 2; 3; 4; 5; 6; 0; 0] 8 2 2 1] = [5; 6].
Proof.
  apply (@packet_chain_refines host_config host_bounds calloc calloc_size (OpConsume 4) six_bytes
    [mkPbuf [0; 0; 0; 0; 1; 2; 3; 4; 5; 6; 0; 0] 8 2 2 1] six_bytes_reachable).
  - split; [done|]. vm_compute. split; congruence.
  - vm_compute. reflexivity.
Defined.

(** ** A shared buffer behind the head

    [CompactHead] is documented to have no way to fail. It ends the program when the buffer
    behind the head has another reference and there is room for its data. *)
Lemma compact_shared_dies :
  ∃ bs, @reachable host_config calloc bs ∧ @exec host_config calloc OpCompactHead bs = Crashes AssertFailed.
Proof.
  set (p := [mkPbuf [7; 8] 0 2 2 2]).
  assert (@wf_chain host_config p) as Hp by (apply (@single_wf host_config host_bounds); [vm_compute; intuition congruence|done]).
  destruct (@exec_step host_config host_bounds calloc calloc_size (OpAddToEnd p) six_bytes) as (bs & E & _).
  - by apply (@reachable_wf host_config host_bounds calloc calloc_size), six_bytes_reachable.
  - split; [done|]. split; [by right|]. vm_compute. done.
  - exists bs. split.
    + eapply (@reach_op host_config calloc (OpAddToEnd p)); [apply six_bytes_reachable| |exact E].
      split; [done|by right].
    + vm_compute in E. injection E as <-. vm_compute. reflexivity.
Qed.

(** ** Blocks of more than 65535 bytes

    [ReservedSize] is a [uint16_t]: once more than 65535 bytes are consumed from such a
    block, the room behind the data is overstated by 65536 bytes. *)

Section Large.
Context `{PbufConfig}.
Context (size_wide : 32 <= SIZE_BITS).

Lemma large_max_length b :
  2 ^ 16 <= pb_payload b < 2 ^ 17 → pb_payload b <= AllocSize b < 2 ^ 31 →
  MaxDataLength b = AllocSize b - pb_payload b + 2 ^ 16.
Proof.
  intros Hp Ha. unfold MaxDataLength, ReservedSize, Start.
  assert (u16 (pb_payload b) = pb_payload b - 2 ^ 16) as -> by wrap_lia.
  assert (2 ^ 32 <= 2 ^ SIZE_BITS) by (apply Z.pow_le_mono_r; lia).
  unfold size_t. rewrite Z.mod_small; lia.
Qed.

(** [SetDataLength] then accepts a length that runs over the end of the block. *)
Lemma large_length_overrun b rest :
  2 ^ 16 <= pb_payload b < 2 ^ 17 → pb_payload b <= AllocSize b < 2 ^ 31 →
  ∃ b' rest', (SetDataLength (AllocSize b) 0 (b :: rest)).1 = b' :: rest' ∧
    AllocSize b' < pb_payload b' + pb_len b'.
Proof.
  intros Hp Ha. cbn [SetDataLength fst]. rewrite (large_max_length b Hp Ha). eexists _, rest. split; [done|].
  unfold AllocSize in *. cbn. zcase; lia.
Qed.

End Large.
