(* ===== verification/BufferReader.v ===== *)
(** * Reading from a buffer

    [Encoding::LittleEndian::Reader] (src/src/lib/support/BufferReader.h and .cpp): a read
    point in a buffer, the number of bytes still available, and a status that stays
    failed once a read has failed. *)

From S2P Require Import Prelude.
From S2P Require Import ChipError.
From S2P Require Import Endian.

(** [mReadPtr] is the list of the bytes from there to the end of the buffer, and
    [mOctetsRead] its distance from [mBufStart]. *)
Record Reader := mkRd {
  mReadPtr : list Z;
  mOctetsRead : Z;
  mAvailable : Z;
  mStatus : chip_error
}.

Definition Reader_new (buffer : list Z) : Reader :=
  mkRd buffer 0 (Z.of_nat (length buffer)) CHIP_NO_ERROR.

Definition OctetsRead (r : Reader) : Z := mOctetsRead r.
Definition Remaining (r : Reader) : Z := mAvailable r.
Definition HasAtLeast (octets : Z) (r : Reader) : bool := octets <=? Remaining r.
Definition IsSuccess (r : Reader) : bool := bool_decide (mStatus r = CHIP_NO_ERROR).

Definition fail_read (r : Reader) : Reader := mkRd (mReadPtr r) (mOctetsRead r) 0 CHIP_ERROR_BUFFER_TOO_SMALL.

(** An unsigned integer of [n] bytes; nothing is stored when the read fails. *)
Definition RawReadLowLevelBeCareful (n : nat) (r : Reader) : option Z * Reader :=
  if IsSuccess r then
    if mAvailable r <? Z.of_nat n then (None, fail_read r)
    else (Some (le_decode (take n (mReadPtr r))),
          mkRd (drop n (mReadPtr r)) (mOctetsRead r + Z.of_nat n) (u16 (mAvailable r - Z.of_nat n)) (mStatus r))
  else (None, r).

Definition Reader_Read8 := RawReadLowLevelBeCareful 1.
Definition Reader_Read16 := RawReadLowLevelBeCareful 2.
Definition Reader_Read32 := RawReadLowLevelBeCareful 4.
Definition Reader_Read64 := RawReadLowLevelBeCareful 8.

Definition Reader_ReadBytes (size : Z) (r : Reader) : option (list Z) * Reader :=
  if (0xFFFF <? size) || (mAvailable r <? size) then (None, fail_read r)
  else (Some (take (Z.to_nat size) (mReadPtr r)),
        mkRd (drop (Z.to_nat size) (mReadPtr r)) (mOctetsRead r + size) (u16 (mAvailable r - size)) (mStatus r)).

Definition Reader_Skip (len : Z) (r : Reader) : Reader :=
  let len := Z.min len (mAvailable r) in
  mkRd (drop (Z.to_nat len) (mReadPtr r)) (mOctetsRead r + len) (mAvailable r - len) (mStatus r).

(** ** The reader over a buffer *)

(** The reader is [k] bytes into [buffer], with all the rest available. *)
Definition reads_at (buffer : list Z) (k : nat) (r : Reader) : Prop :=
  (k <= length buffer)%nat ∧ mReadPtr r = drop k buffer ∧ mOctetsRead r = Z.of_nat k ∧
  mAvailable r = Z.of_nat (length buffer) - Z.of_nat k ∧ mStatus r = CHIP_NO_ERROR.

Lemma Reader_new_at buffer : reads_at buffer 0 (Reader_new buffer).
Proof. split_and!; cbn; try done; lia. Qed.

Lemma RawRead_at buffer k n r :
  reads_at buffer k r → Z.of_nat (length buffer) <= 0xFFFF →
  if Z.of_nat (length buffer) <? Z.of_nat k + Z.of_nat n
  then RawReadLowLevelBeCareful n r = (None, fail_read r)
  else ∃ r', RawReadLowLevelBeCareful n r = (Some (le_decode (take n (drop k buffer))), r') ∧ reads_at buffer (k + n) r'.
Proof.
  intros (Hk&Hp&Ho&Ha&Hs) Hl. unfold RawReadLowLevelBeCareful, IsSuccess. rewrite Hs, Ha, bool_decide_true by done.
  destruct (Z.ltb_spec (Z.of_nat (length buffer)) (Z.of_nat k + Z.of_nat n)).
  - by rewrite (proj2 (Z.ltb_lt _ _)) by lia.
  - rewrite (proj2 (Z.ltb_ge _ _)) by lia. eexists. split; [by rewrite Hp|].
    split_and!; cbn; [lia| | | |done].
    + by rewrite drop_drop.
    + lia.
    + rewrite u16_id by solve_width. lia.
Qed.

Lemma Skip_at buffer k n r :
  reads_at buffer k r → 0 <= n <= Remaining r → reads_at buffer (k + Z.to_nat n) (Reader_Skip n r).
Proof.
  intros (Hk&Hp&Ho&Ha&Hs) Hn. unfold Remaining in Hn. unfold Reader_Skip. rewrite Z.min_l by lia.
  split_and!; cbn; [lia| |lia|lia|done]. by rewrite Hp, drop_drop.
Qed.
