(* ===== verification/MessageHeader.v ===== *)
(** * Message headers

    [PacketHeader], [PayloadHeader] and [MessageAuthenticationCode]
    (src/src/transport/raw/MessageHeader.h and .cpp): the headers in front of a message
    and the tag behind it. The buffer of a message is the head of a packet buffer
    chain. *)

From S2P Require Import Prelude.
From S2P Require Import COutcome.
From S2P Require Import ChipError.
From S2P Require Import Endian.
From S2P Require Import BufferReader.
From S2P Require Import PacketBuffer.

(** ** Flags: [BitFlags] over a [uint8_t] *)

Definition flags_Set (flag v : Z) : Z := Z.lor v flag.
Definition flags_Clear (flag v : Z) : Z := Z.land v (u8 (Z.lnot flag)).
Definition flags_SetTo (flag : Z) (isSet : bool) (v : Z) : Z := if isSet then flags_Set flag v else flags_Clear flag v.
Definition flags_Has (flag v : Z) : bool := negb (Z.land v flag =? 0).
Definition flags_HasAll (all v : Z) : bool := Z.land v all =? all.

Definition has {A} (o : option A) : bool := bool_decide (is_Some o).

Module Header.
Definition kUnicastSession : Z := 0.
Definition kGroupSession : Z := 1.

Definition kExchangeFlag_Initiator : Z := 0x01.
Definition kExchangeFlag_AckMsg : Z := 0x02.
Definition kExchangeFlag_NeedsAck : Z := 0x04.
Definition kExchangeFlag_SecuredExtension : Z := 0x08.
Definition kExchangeFlag_VendorIdPresent : Z := 0x10.

Definition kSourceNodeIdPresent : Z := 4.
Definition kDestinationNodeIdPresent : Z := 1.
Definition kDestinationGroupIdPresent : Z := 2.

Definition kPrivacyFlag : Z := 0x80.
Definition kControlMsgFlag : Z := 0x40.
Definition kMsgExtensionFlag : Z := 0x20.
Definition kSessionTypeMask : Z := 3.
End Header.
Import Header.

Definition kMsgUnicastSessionIdUnsecured : Z := 0.
Definition kMsgHeaderVersion : Z := 0.
Definition kVersionMask : Z := 0xF0.
Definition kMsgFlagsMask : Z := 0x07.
Definition kVersionShift : Z := 4.
Definition kFixedUnencryptedHeaderSizeBytes : Z := 8.
Definition kEncryptedHeaderSizeBytes : Z := 6.
Definition kNodeIdSizeBytes : Z := 8.
Definition kGroupIdSizeBytes : Z := 2.
Definition kVendorIdSizeBytes : Z := 2.
Definition kAckMessageCounterSizeBytes : Z := 4.
Definition CHIP_CRYPTO_AEAD_MIC_LENGTH_BYTES : Z := 16.

(** ** Decoding

    A decoder has the header that it fills and the reader; an error leaves both as they
    are at that point. *)

Definition dop (H A : Type) := H → Reader → (chip_error + A) * H * Reader.

Definition dret {H A} (a : A) : dop H A := λ h r, (inr a, h, r).
Definition derr {H A} (e : chip_error) : dop H A := λ h r, (inl e, h, r).
Definition dbind {H A B} (o : dop H A) (k : A → dop H B) : dop H B := λ h r,
  match o h r with
  | (inl e, h', r') => (inl e, h', r')
  | (inr a, h', r') => k a h' r'
  end.
Definition dget {H} : dop H H := λ h r, (inr h, h, r).
Definition dreader {H} : dop H Reader := λ h r, (inr r, h, r).
Definition dmod {H} (f : H → H) : dop H unit := λ h r, (inr tt, f h, r).
Definition dverify {H} (cond : bool) (e : chip_error) : dop H unit := if cond then dret tt else derr e.

(** [SuccessOrExit(err = reader.ReadX(&v).StatusCode())] *)
Definition dread {H} (n : nat) : dop H Z := λ h r,
  match RawReadLowLevelBeCareful n r with
  | (Some v, r') => (inr v, h, r')
  | (None, r') => (inl (mStatus r'), h, r')
  end.
Definition dskip {H} (len : Z) : dop H unit := λ h r, (inr tt, h, Reader_Skip len r).

Notation "'let*' x ':=' o 'in' k" := (dbind o (λ x, k)) (at level 10, x name, o at level 100, k at level 200).
Notation "'do*' o 'in' k" := (dbind o (λ _, k)) (at level 10, o at level 100, k at level 200).

(** ** The packet header *)

Record PacketHeader := mkPacketHeader {
  mMessageCounter : Z;
  mSourceNodeId : option Z;
  mDestinationNodeId : option Z;
  mDestinationGroupId : option Z;
  mSessionId : Z;
  mSessionType : Z;
  mMsgFlags : Z;
  mSecFlags : Z
}.

#[export] Instance PacketHeader_eq_dec : EqDecision PacketHeader.
Proof. solve_decision. Defined.

Definition PacketHeader_new : PacketHeader :=
  mkPacketHeader 0 None None None kMsgUnicastSessionIdUnsecured kUnicastSession 0 0.

Definition phset_counter v h := mkPacketHeader v (mSourceNodeId h) (mDestinationNodeId h) (mDestinationGroupId h) (mSessionId h) (mSessionType h) (mMsgFlags h) (mSecFlags h).
Definition phset_source v h := mkPacketHeader (mMessageCounter h) v (mDestinationNodeId h) (mDestinationGroupId h) (mSessionId h) (mSessionType h) (mMsgFlags h) (mSecFlags h).
Definition phset_destNode v h := mkPacketHeader (mMessageCounter h) (mSourceNodeId h) v (mDestinationGroupId h) (mSessionId h) (mSessionType h) (mMsgFlags h) (mSecFlags h).
Definition phset_destGroup v h := mkPacketHeader (mMessageCounter h) (mSourceNodeId h) (mDestinationNodeId h) v (mSessionId h) (mSessionType h) (mMsgFlags h) (mSecFlags h).
Definition phset_sessionId v h := mkPacketHeader (mMessageCounter h) (mSourceNodeId h) (mDestinationNodeId h) (mDestinationGroupId h) v (mSessionType h) (mMsgFlags h) (mSecFlags h).
Definition phset_sessionType v h := mkPacketHeader (mMessageCounter h) (mSourceNodeId h) (mDestinationNodeId h) (mDestinationGroupId h) (mSessionId h) v (mMsgFlags h) (mSecFlags h).
Definition phset_msgFlags v h := mkPacketHeader (mMessageCounter h) (mSourceNodeId h) (mDestinationNodeId h) (mDestinationGroupId h) (mSessionId h) (mSessionType h) v (mSecFlags h).
Definition phset_secFlags v h := mkPacketHeader (mMessageCounter h) (mSourceNodeId h) (mDestinationNodeId h) (mDestinationGroupId h) (mSessionId h) (mSessionType h) (mMsgFlags h) v.

Definition HasPrivacyFlag (h : PacketHeader) : bool := flags_Has kPrivacyFlag (mSecFlags h).
Definition HasSourceNodeId (h : PacketHeader) : bool := flags_Has kSourceNodeIdPresent (mMsgFlags h).
Definition HasDestinationNodeId (h : PacketHeader) : bool := flags_Has kDestinationNodeIdPresent (mMsgFlags h).
Definition HasDestinationGroupId (h : PacketHeader) : bool := flags_Has kDestinationGroupIdPresent (mMsgFlags h).
Definition IsGroupSession (h : PacketHeader) : bool := mSessionType h =? kGroupSession.
Definition IsUnicastSession (h : PacketHeader) : bool := mSessionType h =? kUnicastSession.
Definition IsSessionTypeValid (h : PacketHeader) : bool := IsUnicastSession h || IsGroupSession h.
Definition IsSecureSessionControlMsg (h : PacketHeader) : bool := flags_Has kControlMsgFlag (mSecFlags h).
Definition IsValidGroupMsg (h : PacketHeader) : bool :=
  IsGroupSession h && HasSourceNodeId h && HasDestinationGroupId h && negb (IsSecureSessionControlMsg h).
Definition IsValidMCSPMsg (h : PacketHeader) : bool :=
  IsGroupSession h && HasSourceNodeId h && HasDestinationNodeId h && IsSecureSessionControlMsg h.
Definition IsEncrypted (h : PacketHeader) : bool :=
  negb ((mSessionId h =? kMsgUnicastSessionIdUnsecured) && IsUnicastSession h).
Definition MICTagLength (h : PacketHeader) : Z := if IsEncrypted h then CHIP_CRYPTO_AEAD_MIC_LENGTH_BYTES else 0.

Definition SetSecFlag (value : Z) (h : PacketHeader) : PacketHeader := phset_secFlags (flags_Set value (mSecFlags h)) h.
Definition SetMsgFlag (value : Z) (h : PacketHeader) : PacketHeader := phset_msgFlags (flags_Set value (mMsgFlags h)) h.
Definition SetMessageFlags (flags : Z) (h : PacketHeader) : PacketHeader := phset_msgFlags flags h.
Definition SetSecurityFlags (securityFlags : Z) (h : PacketHeader) : PacketHeader :=
  phset_sessionType (Z.land securityFlags kSessionTypeMask) (phset_secFlags securityFlags h).
Definition SetSecureSessionControlMsg (value : bool) (h : PacketHeader) : PacketHeader :=
  phset_secFlags (flags_SetTo kControlMsgFlag value (mSecFlags h)) h.

(** The setters for a value, for an optional value and for none. *)
Definition SetSourceNodeId (id : option Z) (h : PacketHeader) : PacketHeader :=
  phset_msgFlags (flags_SetTo kSourceNodeIdPresent (has id) (mMsgFlags h)) (phset_source id h).
Definition SetDestinationNodeId (id : option Z) (h : PacketHeader) : PacketHeader :=
  phset_msgFlags (flags_SetTo kDestinationNodeIdPresent (has id) (mMsgFlags h)) (phset_destNode id h).
Definition SetDestinationGroupId (id : option Z) (h : PacketHeader) : PacketHeader :=
  phset_msgFlags (flags_SetTo kDestinationGroupIdPresent (has id) (mMsgFlags h)) (phset_destGroup id h).

Definition SetSessionType (type : Z) (h : PacketHeader) : PacketHeader :=
  phset_secFlags (u8 (Z.lor (Z.land (mSecFlags h) (Z.lnot kSessionTypeMask)) (Z.land type kSessionTypeMask)))
    (phset_sessionType type h).
Definition SetSessionId (id : Z) (h : PacketHeader) : PacketHeader := phset_sessionId id h.
Definition SetMessageCounter (id : Z) (h : PacketHeader) : PacketHeader := phset_counter id h.
Definition SetUnsecured (h : PacketHeader) : PacketHeader :=
  phset_sessionType kUnicastSession (phset_sessionId kMsgUnicastSessionIdUnsecured h).

Definition PrivacyHeaderLength (h : PacketHeader) : Z :=
  4 + (if HasSourceNodeId h then 8 else 0) +
  (if HasDestinationNodeId h then 8 else if HasDestinationGroupId h then 2 else 0).
Definition PayloadOffset (h : PacketHeader) : Z := 4 + PrivacyHeaderLength h.

Definition PacketHeader_EncodeSizeBytes (h : PacketHeader) : Z :=
  u16 (kFixedUnencryptedHeaderSizeBytes +
       (if has (mSourceNodeId h) then kNodeIdSizeBytes else 0) +
       (if has (mDestinationNodeId h) then kNodeIdSizeBytes
        else if has (mDestinationGroupId h) then kGroupIdSizeBytes else 0)).

Definition DecodeFixedCommon : dop PacketHeader unit :=
  let* msgFlags := dread 1 in
  do* dverify (Z.shiftr (Z.land msgFlags kVersionMask) kVersionShift =? kMsgHeaderVersion) CHIP_ERROR_VERSION_MISMATCH in
  do* dmod (SetMessageFlags msgFlags) in
  let* sessionId := dread 2 in
  do* dmod (phset_sessionId sessionId) in
  let* securityFlags := dread 1 in
  dmod (SetSecurityFlags securityFlags).

Definition PacketHeader_DecodeFixed (h : PacketHeader) (data : list Z) : chip_error * PacketHeader :=
  match DecodeFixedCommon h (Reader_new data) with
  | (inl e, h', _) => (e, h')
  | (inr _, h', _) => (CHIP_NO_ERROR, h')
  end.

Definition decode_source : dop PacketHeader unit :=
  let* h := dget in
  if flags_Has kSourceNodeIdPresent (mMsgFlags h)
  then let* sourceNodeId := dread 8 in dmod (phset_source (Some sourceNodeId))
  else dmod (phset_source None).

Definition decode_destination : dop PacketHeader unit :=
  let* h := dget in
  if flags_HasAll (Z.lor kDestinationNodeIdPresent kDestinationGroupIdPresent) (mMsgFlags h) then derr CHIP_ERROR_INTERNAL
  else if flags_Has kDestinationNodeIdPresent (mMsgFlags h) then
    let* destinationNodeId := dread 8 in
    do* dmod (phset_destNode (Some destinationNodeId)) in dmod (phset_destGroup None)
  else if flags_Has kDestinationGroupIdPresent (mMsgFlags h) then
    do* dverify (mSessionType h =? kGroupSession) CHIP_ERROR_INTERNAL in
    let* destinationGroupId := dread 2 in
    do* dmod (phset_destGroup (Some destinationGroupId)) in dmod (phset_destNode None)
  else do* dmod (phset_destNode None) in dmod (phset_destGroup None).

(** The block of an extension, behind its length. *)
Definition skip_extension {H} : dop H unit :=
  let* mxLength := dread 2 in
  let* reader := dreader in
  do* dverify (mxLength <=? Remaining reader) CHIP_ERROR_INTERNAL in
  dskip mxLength.

(** The result is the number written to [*decode_len]. *)
Definition decode_packet : dop PacketHeader Z :=
  do* DecodeFixedCommon in
  let* messageCounter := dread 4 in
  do* dmod (phset_counter messageCounter) in
  do* decode_source in
  let* h := dget in
  do* dverify (IsSessionTypeValid h) CHIP_ERROR_INTERNAL in
  do* decode_destination in
  let* h := dget in
  do* (if flags_Has kMsgExtensionFlag (mSecFlags h) then skip_extension else dret tt) in
  let* reader := dreader in
  dret (u16 (OctetsRead reader)).

Definition PacketHeader_Decode (h : PacketHeader) (data : list Z) : (chip_error + Z) * PacketHeader :=
  (decode_packet h (Reader_new data)).1.

Definition wire_msgFlags (h : PacketHeader) : Z :=
  let messageFlags := flags_SetTo kDestinationGroupIdPresent (has (mDestinationGroupId h))
    (flags_SetTo kDestinationNodeIdPresent (has (mDestinationNodeId h))
      (flags_SetTo kSourceNodeIdPresent (has (mSourceNodeId h)) (mMsgFlags h))) in
  u8 (Z.lor (Z.shiftl kMsgHeaderVersion kVersionShift) (Z.land messageFlags kMsgFlagsMask)).

(** The bytes written at [data], whose number is [*encode_size], when [size] bytes are there. *)
Definition PacketHeader_Encode (h : PacketHeader) (size : Z) : chip_error + list Z :=
  if size <? PacketHeader_EncodeSizeBytes h then inl CHIP_ERROR_INVALID_ARGUMENT
  else if has (mDestinationNodeId h) && has (mDestinationGroupId h) then inl CHIP_ERROR_INTERNAL
  else if negb (IsSessionTypeValid h) then inl CHIP_ERROR_INTERNAL
  else
    let p := Write8 (wire_msgFlags h) ++ Write16 (mSessionId h) ++ Write8 (mSecFlags h) ++ Write32 (mMessageCounter h) ++
      from_option Write64 [] (mSourceNodeId h) ++
      match mDestinationNodeId h with
      | Some id => Write64 id
      | None => from_option Write16 [] (mDestinationGroupId h)
      end in
    if Z.of_nat (length p) =? PacketHeader_EncodeSizeBytes h then inr p else inl CHIP_ERROR_INTERNAL.

(** ** The payload header *)

(** [Protocols::Id]: a vendor and a protocol of the vendor. *)
Record ProtocolId := mkProtocolId { GetVendorId : Z; GetProtocolId : Z }.
Definition VendorId_Common : Z := 0x0000.
Definition NotSpecified : ProtocolId := mkProtocolId 0xFFFF 0xFFFF.

#[export] Instance ProtocolId_eq_dec : EqDecision ProtocolId.
Proof. solve_decision. Defined.

Record PayloadHeader := mkPayloadHeader {
  mMessageType : Z;
  mExchangeID : Z;
  mProtocolID : ProtocolId;
  mExchangeFlags : Z;
  mAckMessageCounter : option Z
}.

#[export] Instance PayloadHeader_eq_dec : EqDecision PayloadHeader.
Proof. solve_decision. Defined.

Definition plset_type v h := mkPayloadHeader v (mExchangeID h) (mProtocolID h) (mExchangeFlags h) (mAckMessageCounter h).
Definition plset_exchange v h := mkPayloadHeader (mMessageType h) v (mProtocolID h) (mExchangeFlags h) (mAckMessageCounter h).
Definition plset_protocol v h := mkPayloadHeader (mMessageType h) (mExchangeID h) v (mExchangeFlags h) (mAckMessageCounter h).
Definition plset_flags v h := mkPayloadHeader (mMessageType h) (mExchangeID h) (mProtocolID h) v (mAckMessageCounter h).
Definition plset_ack v h := mkPayloadHeader (mMessageType h) (mExchangeID h) (mProtocolID h) (mExchangeFlags h) v.

Definition HaveVendorId (h : PayloadHeader) : bool := flags_Has kExchangeFlag_VendorIdPresent (mExchangeFlags h).
Definition IsInitiator (h : PayloadHeader) : bool := flags_Has kExchangeFlag_Initiator (mExchangeFlags h).
Definition IsAckMsg (h : PayloadHeader) : bool := flags_Has kExchangeFlag_AckMsg (mExchangeFlags h).
Definition NeedsAck (h : PayloadHeader) : bool := flags_Has kExchangeFlag_NeedsAck (mExchangeFlags h).

Definition SetProtocol (protocol : ProtocolId) (h : PayloadHeader) : PayloadHeader :=
  plset_protocol protocol
    (plset_flags (flags_SetTo kExchangeFlag_VendorIdPresent (negb (GetVendorId protocol =? VendorId_Common)) (mExchangeFlags h)) h).
Definition PayloadHeader_new : PayloadHeader := SetProtocol NotSpecified (mkPayloadHeader 0 0 NotSpecified 0 None).
Definition SetMessageType (protocol : ProtocolId) (type : Z) (h : PayloadHeader) : PayloadHeader :=
  plset_type type (SetProtocol protocol h).
Definition SetExchangeID (id : Z) (h : PayloadHeader) : PayloadHeader := plset_exchange id h.
Definition SetInitiator (inInitiator : bool) (h : PayloadHeader) : PayloadHeader :=
  plset_flags (flags_SetTo kExchangeFlag_Initiator inInitiator (mExchangeFlags h)) h.
Definition SetAckMessageCounter (id : option Z) (h : PayloadHeader) : PayloadHeader :=
  plset_flags (flags_SetTo kExchangeFlag_AckMsg (has id) (mExchangeFlags h)) (plset_ack id h).
Definition SetNeedsAck (inNeedsAck : bool) (h : PayloadHeader) : PayloadHeader :=
  plset_flags (flags_SetTo kExchangeFlag_NeedsAck inNeedsAck (mExchangeFlags h)) h.

Definition PayloadHeader_EncodeSizeBytes (h : PayloadHeader) : Z :=
  u16 (kEncryptedHeaderSizeBytes + (if HaveVendorId h then kVendorIdSizeBytes else 0) +
       (if has (mAckMessageCounter h) then kAckMessageCounterSizeBytes else 0)).

Definition decode_payload : dop PayloadHeader Z :=
  let* header := dread 1 in
  let* messageType := dread 1 in
  do* dmod (plset_type messageType) in
  let* exchangeID := dread 2 in
  do* dmod (plset_exchange exchangeID) in
  do* dmod (plset_flags header) in
  let* h := dget in
  let* vendor_id := (if HaveVendorId h then dread 2 else dret VendorId_Common) in
  let* protocol_id := dread 2 in
  do* dmod (plset_protocol (mkProtocolId vendor_id protocol_id)) in
  do* (if flags_Has kExchangeFlag_AckMsg (mExchangeFlags h)
       then let* ack_message_counter := dread 4 in dmod (plset_ack (Some ack_message_counter))
       else dmod (plset_ack None)) in
  do* (if flags_Has kExchangeFlag_SecuredExtension (mExchangeFlags h) then skip_extension else dret tt) in
  let* reader := dreader in
  dret (u16 (OctetsRead reader)).

Definition PayloadHeader_Decode (h : PayloadHeader) (data : list Z) : (chip_error + Z) * PayloadHeader :=
  (decode_payload h (Reader_new data)).1.

Definition PayloadHeader_Encode (h : PayloadHeader) (size : Z) : chip_error + list Z :=
  if size <? PayloadHeader_EncodeSizeBytes h then inl CHIP_ERROR_INVALID_ARGUMENT
  else
    let p := Write8 (mExchangeFlags h) ++ Write8 (mMessageType h) ++ Write16 (mExchangeID h) ++
      (if HaveVendorId h then Write16 (GetVendorId (mProtocolID h)) else []) ++
      Write16 (GetProtocolId (mProtocolID h)) ++ from_option Write32 [] (mAckMessageCounter h) in
    if Z.of_nat (length p) =? PayloadHeader_EncodeSizeBytes h then inr p else inl CHIP_ERROR_INTERNAL.

(** ** Headers in packet buffers *)

Section Buffers.
Context `{PbufConfig}.

(** [EncodeBeforeData] of both headers, for the size and the encoder of the header. *)
Definition encode_before (headerSize : Z) (Encode : Z → chip_error + list Z) (buf : pbuf) :
    outcome (chip_error * pbuf) :=
  let+ res := EnsureReservedSize headerSize buf in
  if res.1 then
    let buf := SetStart (Start res.2 - headerSize) res.2 in
    match Encode (DataLength buf) with
    | inl e => Returns (e, buf)
    | inr bytes =>
        let+ m := mem_write (pb_mem buf) (Start buf) bytes in
        Returns (if Z.of_nat (length bytes) =? headerSize then CHIP_NO_ERROR else CHIP_ERROR_INTERNAL, pbset_mem m buf)
    end
  else Returns (CHIP_ERROR_NO_MEMORY, res.2).

Definition PacketHeader_EncodeBeforeData (h : PacketHeader) (buf : pbuf) : outcome (chip_error * pbuf) :=
  encode_before (PacketHeader_EncodeSizeBytes h) (PacketHeader_Encode h) buf.
Definition PayloadHeader_EncodeBeforeData (h : PayloadHeader) (buf : pbuf) : outcome (chip_error * pbuf) :=
  encode_before (PayloadHeader_EncodeSizeBytes h) (PayloadHeader_Encode h) buf.

Definition decode_consume {Hd} (Decode : Hd → list Z → (chip_error + Z) * Hd) (h : Hd) (buf : pbuf) :
    outcome (chip_error * Hd * pbuf) :=
  let+ data := mem_read (pb_mem buf) (Start buf) (DataLength buf) in
  match Decode h data with
  | (inl e, h') => Returns (e, h', buf)
  | (inr headerSize, h') => Returns (CHIP_NO_ERROR, h', ConsumeHead headerSize buf)
  end.

Definition PacketHeader_DecodeAndConsume := decode_consume PacketHeader_Decode.
Definition PayloadHeader_DecodeAndConsume := decode_consume PayloadHeader_Decode.

End Buffers.

(** ** The authentication tag *)

Definition kMaxTagLen : Z := 16.

Definition MAC_SetTag (mTag tag : list Z) : list Z :=
  if (0 <? CHIP_CRYPTO_AEAD_MIC_LENGTH_BYTES) && (CHIP_CRYPTO_AEAD_MIC_LENGTH_BYTES <=? kMaxTagLen) &&
     (Z.of_nat (length tag) =? CHIP_CRYPTO_AEAD_MIC_LENGTH_BYTES)
  then tag else mTag.

(** The error, the tag, and the number written to [*decode_len]. *)
Definition MAC_Decode (packetHeader : PacketHeader) (mTag data : list Z) : chip_error * list Z * option Z :=
  let taglen := MICTagLength packetHeader in
  if taglen =? 0 then (CHIP_ERROR_WRONG_ENCRYPTION_TYPE_FROM_PEER, mTag, None)
  else if Z.of_nat (length data) <? taglen then (CHIP_ERROR_INVALID_ARGUMENT, mTag, None)
  else (CHIP_NO_ERROR, take (Z.to_nat taglen) data ++ drop (Z.to_nat taglen) mTag, Some taglen).

Definition MAC_Encode (packetHeader : PacketHeader) (mTag : list Z) (size : Z) : chip_error + list Z :=
  let taglen := MICTagLength packetHeader in
  if taglen =? 0 then inl CHIP_ERROR_WRONG_ENCRYPTION_TYPE
  else if size <? taglen then inl CHIP_ERROR_INVALID_ARGUMENT
  else inr (take (Z.to_nat taglen) mTag).
