(* ===== verification/MessageHeaderSpec.v ===== *)
(** * Message headers: round trips

    Headers that are built with the setters are encoded and decoded to themselves; what is
    decoded is encoded to the same bytes; both also inside packet buffers. *)

From S2P Require Import Prelude.
From S2P Require Import COutcome.
From S2P Require Import ChipError.
From S2P Require Import Endian.
From S2P Require Import BufferReader.
From S2P Require Import PacketBuffer.
From S2P Require Import PacketBufferSpec.
From S2P Require Import MessageHeader.
Import Header.

(** ** Reading integers *)

(** A reader in good state, [o] bytes into its buffer and in front of [rest]. *)
Definition rd (o : Z) (rest : list Z) : Reader := mkRd rest o (Z.of_nat (length rest)) CHIP_NO_ERROR.

Lemma dread_encoded {H A} n v (k : Z → dop H A) h o rest :
  Z.of_nat (length rest) <= 0xFFFF →
  dbind (dread n) k h (rd o (le_encode n v ++ rest)) =
  k (v mod 2 ^ (8 * Z.of_nat n)) h (rd (o + Z.of_nat n) rest).
Proof.
  intros Hl. unfold dbind, dread, RawReadLowLevelBeCareful, rd, IsSuccess. cbn [mStatus mAvailable mReadPtr mOctetsRead].
  rewrite bool_decide_true by done. rewrite length_app, le_encode_length.
  rewrite (proj2 (Z.ltb_ge _ _)) by lia.
  rewrite take_app_length' by (by rewrite le_encode_length). rewrite drop_app_length' by (by rewrite le_encode_length).
  rewrite le_decode_encode. do 3 f_equal. rewrite u16_id by solve_width. lia.
Qed.

Lemma Write8_length v : length (Write8 v) = 1%nat.
Proof. done. Qed.
Lemma Write16_length v : length (Write16 v) = 2%nat.
Proof. done. Qed.
Lemma Write32_length v : length (Write32 v) = 4%nat.
Proof. done. Qed.

(** A read that succeeds has the bytes of an integer in front of it. *)
Lemma dread_inv {H A} n (k : Z → dop H A) h o rest a h' r' :
  is_bytes rest → Z.of_nat (length rest) <= 0xFFFF →
  dbind (dread n) k h (rd o rest) = (inr a, h', r') →
  ∃ v rest', rest = le_encode n v ++ rest' ∧ 0 <= v < 2 ^ (8 * Z.of_nat n) ∧ is_bytes rest' ∧
    Z.of_nat (length rest') <= 0xFFFF ∧ k v h (rd (o + Z.of_nat n) rest') = (inr a, h', r').
Proof.
  intros Hb Hl E. destruct (decide (Z.of_nat (length rest) < Z.of_nat n)) as [Hs|Hs].
  { revert E. unfold dbind, dread, RawReadLowLevelBeCareful, rd, IsSuccess. cbn [mStatus mAvailable].
    rewrite bool_decide_true, (proj2 (Z.ltb_lt _ _)) by done. done. }
  assert (Hlen : length (take n rest) = n) by (rewrite length_take; lia).
  assert (Ht : is_bytes (take n rest)) by (by apply Forall_take).
  exists (le_decode (take n rest)), (drop n rest).
  pose proof (le_encode_decode _ Ht) as He. pose proof (le_decode_range _ Ht) as Hr. rewrite Hlen in He, Hr.
  assert (Hrest : rest = le_encode n (le_decode (take n rest)) ++ drop n rest) by (by rewrite He, take_drop).
  assert (Z.of_nat (length (drop n rest)) <= 0xFFFF) by (rewrite length_drop; lia).
  split_and!; try done; [lia|lia|by apply Forall_drop|].
  rewrite Hrest in E. rewrite dread_encoded in E by done. by rewrite Z.mod_small in E by done.
Qed.

(** ** Bits *)

Lemma u8_cases (P : Z → Prop) :
  Forall P (seqZ 0 256) → ∀ v, in_u8 v → P v.
Proof. rewrite Forall_forall. intros HP v Hv. apply HP, elem_of_seqZ. solve_width. Qed.

(** [by_bytes v] proves a decidable fact of a byte by trying them all. *)
Ltac by_bytes v Hv :=
  pattern v; revert v Hv; apply u8_cases;
  apply (bool_decide_unpack _); vm_compute; exact I.

Lemma wire_msgFlags_eq h :
  wire_msgFlags h = (if has (mSourceNodeId h) then 4 else 0) + (if has (mDestinationNodeId h) then 1 else 0) +
                    (if has (mDestinationGroupId h) then 2 else 0).
Proof.
  unfold wire_msgFlags. destruct h as [c s n g i t f sf]. cbn [mSourceNodeId mDestinationNodeId mDestinationGroupId mMsgFlags].
  set (x := flags_SetTo _ _ _).
  assert (Hx : Z.land x kMsgFlagsMask = (if has s then 4 else 0) + (if has n then 1 else 0) + (if has g then 2 else 0)).
  { unfold x. apply Z.bits_inj'. intros j Hj.
    destruct (decide (j = 0)) as [->|]; [|destruct (decide (j = 1)) as [->|]; [|destruct (decide (j = 2)) as [->|]]].
    4: { assert (Z.log2 kMsgFlagsMask < j) by (change (2 < j); lia).
         rewrite Z.land_spec, (Z.bits_above_log2 kMsgFlagsMask j), andb_false_r by done.
         symmetry. change (Z.log2 kMsgFlagsMask) with 2 in *.
         destruct (has s), (has n), (has g); (apply Z.bits_above_log2; [lia|]);
           match goal with |- Z.log2 ?e < _ => let x := eval vm_compute in (Z.log2 e) in change (x < j) end; lia. }
    all: rewrite Z.land_spec; destruct (has s), (has n), (has g); cbn [flags_SetTo]; unfold flags_Set, flags_Clear;
      rewrite ?Z.land_spec, ?Z.lor_spec, ?Z.land_spec, ?Z.lor_spec, ?Z.land_spec, ?Z.lor_spec;
      destruct (Z.testbit f _); vm_compute; reflexivity. }
  rewrite Hx. destruct (has s), (has n), (has g); vm_compute; reflexivity.
Qed.

Lemma has_some {A} (a : A) : has (Some a) = true.
Proof. done. Qed.
Lemma has_none {A} : has (@None A) = false.
Proof. done. Qed.

(** ** The packet header *)

Lemma dbind_ok {H A B} (o : dop H A) (k : A → dop H B) h r a h' r' :
  o h r = (inr a, h', r') → dbind o k h r = k a h' r'.
Proof. unfold dbind. by intros ->. Qed.

Lemma dbind_ret {H A B} (a : A) (k : A → dop H B) h r : dbind (dret a) k h r = k a h r.
Proof. done. Qed.
Lemma dbind_mod {H B} f (k : unit → dop H B) h r : dbind (dmod f) k h r = k tt (f h) r.
Proof. done. Qed.
Lemma dbind_get {H B} (k : H → dop H B) h r : dbind dget k h r = k h h r.
Proof. done. Qed.
Lemma dbind_reader {H B} (k : Reader → dop H B) h r : dbind dreader k h r = k r h r.
Proof. done. Qed.
Create Rewrite HintDb decoder.
#[export] Hint Rewrite @dbind_ret @dbind_mod @dbind_get @dbind_reader : decoder.

(** The fields have their widths, and the flags tell which of them are present. *)
Definition packet_fields (h : PacketHeader) : Prop :=
  in_u32 (mMessageCounter h) ∧ in_u16 (mSessionId h) ∧ in_u8 (mSecFlags h) ∧
  (∀ id, mSourceNodeId h = Some id → in_u64 id) ∧ (∀ id, mDestinationNodeId h = Some id → in_u64 id) ∧
  (∀ id, mDestinationGroupId h = Some id → in_u16 id) ∧
  mMsgFlags h = wire_msgFlags h ∧ mSessionType h = Z.land (mSecFlags h) kSessionTypeMask ∧
  IsSessionTypeValid h = true ∧ flags_Has kMsgExtensionFlag (mSecFlags h) = false.

(** At most one destination, and a group only for a group session. *)
Definition packet_destination (h : PacketHeader) : Prop :=
  (mDestinationNodeId h = None ∨ mDestinationGroupId h = None) ∧
  (mDestinationGroupId h = None ∨ mSessionType h = kGroupSession).

Definition packet_bytes (h : PacketHeader) : list Z :=
  Write8 (mMsgFlags h) ++ Write16 (mSessionId h) ++ Write8 (mSecFlags h) ++ Write32 (mMessageCounter h) ++
  from_option Write64 [] (mSourceNodeId h) ++ from_option Write64 [] (mDestinationNodeId h) ++
  from_option Write16 [] (mDestinationGroupId h).

Lemma packet_bytes_size h :
  packet_destination h → Z.of_nat (length (packet_bytes h)) = PacketHeader_EncodeSizeBytes h.
Proof.
  intros [Hd _]. unfold packet_bytes, PacketHeader_EncodeSizeBytes. rewrite !length_app.
  destruct (mSourceNodeId h), (mDestinationNodeId h), (mDestinationGroupId h); cbn; (reflexivity || by destruct Hd).
Qed.

Lemma PacketHeader_Encode_ok h size :
  packet_fields h → packet_destination h → PacketHeader_EncodeSizeBytes h <= size →
  PacketHeader_Encode h size = inr (packet_bytes h).
Proof.
  intros (_&_&_&_&_&_&Hf&_&Hv&_) Hd Hs. pose proof (packet_bytes_size h Hd) as Hl. unfold PacketHeader_Encode.
  rewrite (proj2 (Z.ltb_ge _ _)) by done. rewrite Hv, <- Hf. cbn [negb].
  assert (has (mDestinationNodeId h) && has (mDestinationGroupId h) = false) as ->.
  { destruct Hd as [[-> | ->] _]; [done|apply andb_false_r]. }
  assert (match mDestinationNodeId h with Some id => Write64 id | None => from_option Write16 [] (mDestinationGroupId h) end =
    from_option Write64 [] (mDestinationNodeId h) ++ from_option Write16 [] (mDestinationGroupId h)) as ->.
  { destruct Hd as [[-> | ->] _]; [done|]. destruct (mDestinationNodeId h); cbn; by rewrite ?app_nil_r. }
  fold (packet_bytes h). by rewrite (proj2 (Z.eqb_eq _ _)) by done.
Qed.

Lemma DecodeFixedCommon_encoded h0 o m sid s rest :
  0 <= m < 16 → in_u16 sid → in_u8 s → Z.of_nat (length rest) + 4 <= 0xFFFF →
  DecodeFixedCommon h0 (rd o (Write8 m ++ Write16 sid ++ Write8 s ++ rest)) =
  (inr tt, SetSecurityFlags s (phset_sessionId sid (SetMessageFlags m h0)), rd (o + 4) rest).
Proof.
  intros Hm Hsid Hs Hl. unfold DecodeFixedCommon, Write8, Write16.
  rewrite dread_encoded by (rewrite !length_app, !le_encode_length; lia). rewrite Z.mod_small by lia.
  assert (Z.shiftr (Z.land m kVersionMask) kVersionShift = 0) as Hv.
  { assert (Hm8 : in_u8 m) by solve_width. revert Hm. by_bytes m Hm8. }
  unfold dverify at 1. rewrite Hv. cbn [Z.eqb kMsgHeaderVersion].
  rewrite dbind_ret, dbind_mod.
  rewrite dread_encoded by (rewrite !length_app, !le_encode_length; lia). rewrite Z.mod_small by solve_width.
  rewrite dbind_mod.
  rewrite dread_encoded by lia. rewrite Z.mod_small by solve_width. cbn. do 2 f_equal. lia.
Qed.

Lemma decode_source_encoded h0 o id rest :
  flags_Has kSourceNodeIdPresent (mMsgFlags h0) = has id → (∀ v, id = Some v → in_u64 v) →
  Z.of_nat (length rest) <= 0xFFFF →
  ∃ o', decode_source h0 (rd o (from_option Write64 [] id ++ rest)) = (inr tt, phset_source id h0, rd o' rest) ∧
    o' = o + Z.of_nat (length (from_option Write64 [] id)).
Proof.
  intros Hf Hid Hl. unfold decode_source. rewrite dbind_get. rewrite Hf.
  destruct id as [v|]; cbn [has from_option].
  - rewrite has_some. unfold Write64. rewrite dread_encoded by done.
    rewrite Z.mod_small by (by apply Hid). eexists. split; [done|]. rewrite le_encode_length. lia.
  - rewrite (@has_none Z). eexists. split; [done|]. cbn. lia.
Qed.

(** The flags that are on the wire for the fields of a header. *)
Lemma wire_flags_read h :
  let f := wire_msgFlags h in
  0 <= f < 8 ∧ flags_Has kSourceNodeIdPresent f = has (mSourceNodeId h) ∧
  flags_Has kDestinationNodeIdPresent f = has (mDestinationNodeId h) ∧
  flags_Has kDestinationGroupIdPresent f = has (mDestinationGroupId h) ∧
  flags_HasAll (Z.lor kDestinationNodeIdPresent kDestinationGroupIdPresent) f =
    has (mDestinationNodeId h) && has (mDestinationGroupId h).
Proof.
  cbn zeta. rewrite wire_msgFlags_eq.
  destruct (has (mSourceNodeId h)), (has (mDestinationNodeId h)), (has (mDestinationGroupId h)); vm_compute;
    repeat split; congruence.
Qed.

Lemma decode_destination_encoded h0 h o rest :
  packet_fields h → packet_destination h → mMsgFlags h0 = mMsgFlags h → mSessionType h0 = mSessionType h →
  Z.of_nat (length rest) <= 0xFFFF →
  ∃ o', decode_destination h0 (rd o (from_option Write64 [] (mDestinationNodeId h) ++
      from_option Write16 [] (mDestinationGroupId h) ++ rest)) =
    (inr tt, phset_destGroup (mDestinationGroupId h) (phset_destNode (mDestinationNodeId h) h0), rd o' rest) ∧
    o' = o + Z.of_nat (length (from_option Write64 [] (mDestinationNodeId h) ++ from_option Write16 [] (mDestinationGroupId h))).
Proof.
  intros (_&_&_&_&Hn&Hg&Hf&_) [Hd Hs] Hf0 Ht0 Hl. unfold decode_destination.
  destruct (wire_flags_read h) as (_&_&Hfn&Hfg&Hfa). rewrite <- Hf in Hfn, Hfg, Hfa.
  rewrite dbind_get. rewrite Hf0, Ht0, Hfn, Hfg, Hfa.
  destruct (mDestinationNodeId h) as [n|], (mDestinationGroupId h) as [g|]; rewrite ?has_some, ?(@has_none Z);
    cbn [andb from_option app]; try (by destruct Hd).
  - unfold Write64. rewrite dread_encoded by done. rewrite Z.mod_small by (by apply Hn).
    eexists. split; [done|]. rewrite app_nil_r, le_encode_length. lia.
  - destruct Hs as [|Hs]; [done|]. rewrite Hs. unfold dverify. cbn [Z.eqb Pos.eqb kGroupSession]. rewrite dbind_ret.
    unfold Write16. rewrite dread_encoded by done. rewrite Z.mod_small by (by apply Hg).
    eexists. split; [done|]. rewrite le_encode_length. lia.
  - eexists. split; [done|]. cbn. lia.
Qed.

(** A header that is built is read back, whatever the header read into held. *)
Lemma PacketHeader_Decode_encoded h h0 rest :
  packet_fields h → packet_destination h →
  Z.of_nat (length (packet_bytes h)) + Z.of_nat (length rest) <= 0xFFFF →
  PacketHeader_Decode h0 (packet_bytes h ++ rest) = (inr (Z.of_nat (length (packet_bytes h))), h).
Proof.
  intros Hok Hd Hl. pose proof Hok as (Hc&Hsid&Hsf&Hsrc&_&_&Hf&Ht&Hv&Hmx).
  destruct (wire_flags_read h) as (Hfr&Hfs&_). rewrite <- Hf in Hfr, Hfs.
  unfold PacketHeader_Decode, decode_packet. change (Reader_new ?d) with (rd 0 d).
  unfold packet_bytes in *. rewrite !length_app, ?Write8_length, ?Write16_length, ?Write32_length in Hl. rewrite <- !app_assoc.
  erewrite dbind_ok by (apply DecodeFixedCommon_encoded; try done; [lia|];
    rewrite !length_app, ?Write8_length, ?Write16_length, ?Write32_length; lia).
  unfold Write32 at 1. rewrite dread_encoded by (rewrite !length_app; lia).
  rewrite Z.mod_small by done. rewrite dbind_mod.
  destruct (decode_source_encoded
    (phset_counter (mMessageCounter h) (SetSecurityFlags (mSecFlags h) (phset_sessionId (mSessionId h) (SetMessageFlags (mMsgFlags h) h0))))
    (0 + 4 + Z.of_nat 4) (mSourceNodeId h)
    (from_option Write64 [] (mDestinationNodeId h) ++ from_option Write16 [] (mDestinationGroupId h) ++ rest))
    as (o1&E1&->); [done|done|rewrite !length_app; lia|].
  rewrite (dbind_ok _ _ _ _ _ _ _ E1). rewrite dbind_get.
  assert (IsSessionTypeValid (phset_source (mSourceNodeId h) (phset_counter (mMessageCounter h)
    (SetSecurityFlags (mSecFlags h) (phset_sessionId (mSessionId h) (SetMessageFlags (mMsgFlags h) h0))))) = true) as ->.
  { rewrite <- Hv. unfold IsSessionTypeValid, IsUnicastSession, IsGroupSession. by rewrite Ht. }
  unfold dverify at 1. rewrite dbind_ret.
  destruct (decode_destination_encoded (phset_source (mSourceNodeId h) (phset_counter (mMessageCounter h)
    (SetSecurityFlags (mSecFlags h) (phset_sessionId (mSessionId h) (SetMessageFlags (mMsgFlags h) h0))))) h
    (0 + 4 + Z.of_nat 4 + Z.of_nat (length (from_option Write64 [] (mSourceNodeId h)))) rest)
    as (o2&E2&->); [done|done|done|by rewrite Ht|lia|].
  rewrite (dbind_ok _ _ _ _ _ _ _ E2). rewrite dbind_get.
  change (mSecFlags (phset_destGroup _ _)) with (mSecFlags h). rewrite Hmx.
  rewrite dbind_ret, dbind_reader. unfold dret. cbn [fst]. f_equal.
  - f_equal. unfold rd, OctetsRead. cbn [mOctetsRead]. rewrite u16_id.
    + rewrite !length_app, ?Write8_length, ?Write16_length, ?Write32_length. lia.
    + rewrite !length_app. solve_width.
  - destruct h. cbn in *. by rewrite Ht.
Qed.

(** ** The payload header *)

Definition payload_fields (h : PayloadHeader) : Prop :=
  in_u8 (mMessageType h) ∧ in_u16 (mExchangeID h) ∧ in_u16 (GetVendorId (mProtocolID h)) ∧
  in_u16 (GetProtocolId (mProtocolID h)) ∧ in_u8 (mExchangeFlags h) ∧
  (∀ v, mAckMessageCounter h = Some v → in_u32 v) ∧
  HaveVendorId h = negb (GetVendorId (mProtocolID h) =? VendorId_Common) ∧
  IsAckMsg h = has (mAckMessageCounter h) ∧
  flags_Has kExchangeFlag_SecuredExtension (mExchangeFlags h) = false.

Definition payload_bytes (h : PayloadHeader) : list Z :=
  Write8 (mExchangeFlags h) ++ Write8 (mMessageType h) ++ Write16 (mExchangeID h) ++
  (if HaveVendorId h then Write16 (GetVendorId (mProtocolID h)) else []) ++
  Write16 (GetProtocolId (mProtocolID h)) ++ from_option Write32 [] (mAckMessageCounter h).

Lemma payload_bytes_size h : Z.of_nat (length (payload_bytes h)) = PayloadHeader_EncodeSizeBytes h.
Proof.
  unfold payload_bytes, PayloadHeader_EncodeSizeBytes. rewrite !length_app.
  destruct (HaveVendorId h), (mAckMessageCounter h); reflexivity.
Qed.

Lemma PayloadHeader_Encode_ok h size :
  PayloadHeader_EncodeSizeBytes h <= size → PayloadHeader_Encode h size = inr (payload_bytes h).
Proof.
  intros Hs. pose proof (payload_bytes_size h) as Hl. unfold PayloadHeader_Encode.
  rewrite (proj2 (Z.ltb_ge _ _)) by done. fold (payload_bytes h). by rewrite (proj2 (Z.eqb_eq _ _)) by done.
Qed.

Lemma PayloadHeader_Decode_encoded h h0 rest :
  payload_fields h → Z.of_nat (length (payload_bytes h)) + Z.of_nat (length rest) <= 0xFFFF →
  PayloadHeader_Decode h0 (payload_bytes h ++ rest) = (inr (Z.of_nat (length (payload_bytes h))), h).
Proof.
  intros (Ht&Hx&Hvn&Hp&Hf&Ha&Hv&Hak&Hsx) Hl. unfold PayloadHeader_Decode, decode_payload.
  change (Reader_new ?d) with (rd 0 d). unfold payload_bytes in *. rewrite !length_app in Hl.
  unfold Write8, Write16 in *. rewrite <- !app_assoc. rewrite !le_encode_length in Hl.
  rewrite dread_encoded by (rewrite !length_app, !le_encode_length; lia). rewrite (Z.mod_small (mExchangeFlags h)) by done.
  rewrite dread_encoded by (rewrite !length_app, !le_encode_length; lia). rewrite (Z.mod_small (mMessageType h)), dbind_mod by done.
  rewrite dread_encoded by (rewrite !length_app, !le_encode_length; lia). rewrite (Z.mod_small (mExchangeID h)), !dbind_mod, dbind_get by done.
  set (h1 := plset_flags _ _). change (HaveVendorId h1) with (HaveVendorId h).
  change (mExchangeFlags h1) with (mExchangeFlags h). rewrite Hsx.
  fold (IsAckMsg h). rewrite Hak.
  assert (Hcont : ∀ o, dbind (if HaveVendorId h then dread 2 else dret VendorId_Common)
     (λ vendor_id, let* protocol_id := dread 2 in
       do* dmod (plset_protocol (mkProtocolId vendor_id protocol_id)) in
       do* (if has (mAckMessageCounter h)
            then let* ack_message_counter := dread 4 in dmod (plset_ack (Some ack_message_counter))
            else dmod (plset_ack None)) in
       do* dret tt in let* reader := dreader in dret (u16 (OctetsRead reader))) h1
     (rd o ((if HaveVendorId h then le_encode 2 (GetVendorId (mProtocolID h)) else []) ++
        le_encode 2 (GetProtocolId (mProtocolID h)) ++ from_option Write32 [] (mAckMessageCounter h) ++ rest)) =
    (inr (u16 (o + Z.of_nat (length (if HaveVendorId h then le_encode 2 (GetVendorId (mProtocolID h)) else [])) + 2 +
       Z.of_nat (length (from_option Write32 [] (mAckMessageCounter h))))), h,
     rd (o + Z.of_nat (length (if HaveVendorId h then le_encode 2 (GetVendorId (mProtocolID h)) else [])) + 2 +
       Z.of_nat (length (from_option Write32 [] (mAckMessageCounter h)))) rest)).
  { intros o. set (k := λ vendor_id : Z, _).
    assert (Hvd : dbind (if HaveVendorId h then dread 2 else dret VendorId_Common) k h1
      (rd o ((if HaveVendorId h then le_encode 2 (GetVendorId (mProtocolID h)) else []) ++
        le_encode 2 (GetProtocolId (mProtocolID h)) ++ from_option Write32 [] (mAckMessageCounter h) ++ rest)) =
      k (GetVendorId (mProtocolID h)) h1 (rd (o + Z.of_nat (length (if HaveVendorId h then le_encode 2 (GetVendorId (mProtocolID h)) else [])))
        (le_encode 2 (GetProtocolId (mProtocolID h)) ++ from_option Write32 [] (mAckMessageCounter h) ++ rest))).
    { destruct (HaveVendorId h).
      - rewrite dread_encoded by (rewrite !length_app, !le_encode_length; lia).
        rewrite Z.mod_small by done. by rewrite le_encode_length.
      - symmetry in Hv. apply negb_false_iff, Z.eqb_eq in Hv. cbn [app length]. rewrite dbind_ret, Hv.
        by rewrite Z.add_0_r. }
    rewrite Hvd. unfold k. clear Hvd k.
    rewrite dread_encoded by (rewrite !length_app in *; lia). rewrite Z.mod_small, dbind_mod by done.
    destruct h as [mt ex [vi pi] fl [ack|]]; cbn [from_option mAckMessageCounter mProtocolID GetVendorId GetProtocolId] in *.
    - rewrite has_some. unfold Write32.
      erewrite (dbind_ok (dbind _ _)) by (rewrite dread_encoded by lia; rewrite Z.mod_small by (by apply Ha); reflexivity).
      rewrite le_encode_length. reflexivity.
    - rewrite (@has_none Z). rewrite dbind_mod. cbn [app length]. rewrite Z.add_0_r. reflexivity. }
  rewrite Hcont. cbn [fst]. f_equal. f_equal. rewrite !length_app, !le_encode_length. rewrite u16_id.
  - lia.
  - solve_width.
Qed.
