(* ===== verification/MessageThm.v ===== *)
(** * Messages: building, encoding, decoding

    Which headers the setters build, the round trip of a message with both headers
    through a packet buffer, and that decoding determines the bytes. *)

From S2P Require Import Prelude.
From S2P Require Import COutcome.
From S2P Require Import ChipError.
From S2P Require Import Endian.
From S2P Require Import BufferReader.
From S2P Require Import PacketBuffer.
From S2P Require Import PacketBufferSpec.
From S2P Require Import MessageHeader.
From S2P Require Import MessageHeaderSpec.
Import Header.

(** ** Headers that the setters build *)

Definition opt_in (P : Z → Prop) (o : option Z) : Prop := ∀ v, o = Some v → P v.

Inductive packet_built : PacketHeader → Prop :=
| pb_new : packet_built PacketHeader_new
| pb_source id h : packet_built h → opt_in in_u64 id → packet_built (SetSourceNodeId id h)
| pb_destNode id h : packet_built h → opt_in in_u64 id → packet_built (SetDestinationNodeId id h)
| pb_destGroup id h : packet_built h → opt_in in_u16 id → packet_built (SetDestinationGroupId id h)
| pb_type t h : packet_built h → t ∈ [kUnicastSession; kGroupSession] → packet_built (SetSessionType t h)
| pb_session id h : packet_built h → in_u16 id → packet_built (SetSessionId id h)
| pb_counter id h : packet_built h → in_u32 id → packet_built (SetMessageCounter id h)
| pb_control v h : packet_built h → packet_built (SetSecureSessionControlMsg v h)
| pb_privacy h : packet_built h → packet_built (SetSecFlag kPrivacyFlag h).

(** What a change of the security flags keeps. *)
Definition sec_ok (s : Z) : Prop :=
  in_u8 s ∧ flags_Has kMsgExtensionFlag s = false ∧ (Z.land s kSessionTypeMask = 0 ∨ Z.land s kSessionTypeMask = 1).

#[local] Instance sec_ok_dec s : Decision (sec_ok s).
Proof. unfold sec_ok, in_u8. apply _. Defined.

Lemma sec_control v s : sec_ok s →
  sec_ok (flags_SetTo kControlMsgFlag v s) ∧
  Z.land (flags_SetTo kControlMsgFlag v s) kSessionTypeMask = Z.land s kSessionTypeMask.
Proof. intros Hs. pose proof Hs as [Hb _]. revert Hs. destruct v; by_bytes s Hb. Qed.

Lemma sec_privacy s : sec_ok s →
  sec_ok (flags_Set kPrivacyFlag s) ∧
  Z.land (flags_Set kPrivacyFlag s) kSessionTypeMask = Z.land s kSessionTypeMask.
Proof. intros Hs. pose proof Hs as [Hb _]. revert Hs. by_bytes s Hb. Qed.

Lemma sec_type t s : t ∈ [kUnicastSession; kGroupSession] → sec_ok s →
  let s' := u8 (Z.lor (Z.land s (Z.lnot kSessionTypeMask)) (Z.land t kSessionTypeMask)) in
  sec_ok s' ∧ Z.land s' kSessionTypeMask = t.
Proof.
  rewrite !elem_of_cons, elem_of_nil. cbn zeta. intros [->|[->|[]]] Hs; pose proof Hs as [Hb _]; revert Hs; by_bytes s Hb.
Qed.

(** [packet_fields] by way of the security flags. *)
Lemma packet_fields_sec h :
  packet_fields h ↔
  in_u32 (mMessageCounter h) ∧ in_u16 (mSessionId h) ∧ sec_ok (mSecFlags h) ∧ opt_in in_u64 (mSourceNodeId h) ∧
  opt_in in_u64 (mDestinationNodeId h) ∧ opt_in in_u16 (mDestinationGroupId h) ∧ mMsgFlags h = wire_msgFlags h ∧
  mSessionType h = Z.land (mSecFlags h) kSessionTypeMask.
Proof.
  unfold packet_fields, sec_ok, opt_in. split.
  - intros (?&?&?&?&?&?&?&Ht&Hv&?). split_and!; try done.
    unfold IsSessionTypeValid, IsUnicastSession, IsGroupSession, kUnicastSession, kGroupSession in Hv. rewrite Ht in Hv.
    apply orb_true_iff in Hv as [Hv|Hv]; apply Z.eqb_eq in Hv; auto.
  - intros (?&?&(?&?&Hv)&?&?&?&?&Ht). split_and!; try done.
    unfold IsSessionTypeValid, IsUnicastSession, IsGroupSession, kUnicastSession, kGroupSession. rewrite Ht.
    by destruct Hv as [-> | ->].
Qed.

(** [by_presence] decides a fact of message flags by which fields are present. *)
Ltac by_presence h :=
  rewrite !wire_msgFlags_eq; cbn; intros ->;
  repeat match goal with |- context [has ?o] => destruct (has o) end; vm_compute; reflexivity.

Lemma SetSourceNodeId_flags id h :
  mMsgFlags h = wire_msgFlags h → mMsgFlags (SetSourceNodeId id h) = wire_msgFlags (SetSourceNodeId id h).
Proof. by_presence h. Qed.
Lemma SetDestinationNodeId_flags id h :
  mMsgFlags h = wire_msgFlags h → mMsgFlags (SetDestinationNodeId id h) = wire_msgFlags (SetDestinationNodeId id h).
Proof. by_presence h. Qed.
Lemma SetDestinationGroupId_flags id h :
  mMsgFlags h = wire_msgFlags h → mMsgFlags (SetDestinationGroupId id h) = wire_msgFlags (SetDestinationGroupId id h).
Proof. by_presence h. Qed.

(** The setters keep the flags in step with the fields. *)
Lemma packet_built_fields h : packet_built h → packet_fields h.
Proof.
  rewrite packet_fields_sec. induction 1 as [|id h _ IH Hid|id h _ IH Hid|id h _ IH Hid|t h _ IH Ht|id h _ IH Hid|id h _ IH Hid|v h _ IH|h _ IH];
    [|destruct IH as (Hc&Hi&Hs&Hsrc&Hn&Hg&Hf&Hst)..].
  - unfold opt_in, sec_ok, PacketHeader_new. cbn. split_and!; try done; try solve_width. by left.
  - pose proof (SetSourceNodeId_flags id h Hf). by split_and!.
  - pose proof (SetDestinationNodeId_flags id h Hf). by split_and!.
  - pose proof (SetDestinationGroupId_flags id h Hf). by split_and!.
  - destruct (sec_type t (mSecFlags h) Ht Hs) as [Hs' Ht']. split_and!; try done; by symmetry.
  - by split_and!.
  - by split_and!.
  - destruct (sec_control v (mSecFlags h) Hs) as [Hs' Ht']. split_and!; try done. cbn. by rewrite Ht'.
  - destruct (sec_privacy (mSecFlags h) Hs) as [Hs' Ht']. split_and!; try done. cbn. by rewrite Ht'.
Qed.

Inductive payload_built : PayloadHeader → Prop :=
| plb_new : payload_built PayloadHeader_new
| plb_type p t h : payload_built h → in_u16 (GetVendorId p) → in_u16 (GetProtocolId p) → in_u8 t →
    payload_built (SetMessageType p t h)
| plb_exchange id h : payload_built h → in_u16 id → payload_built (SetExchangeID id h)
| plb_initiator v h : payload_built h → payload_built (SetInitiator v h)
| plb_ack id h : payload_built h → opt_in in_u32 id → payload_built (SetAckMessageCounter id h)
| plb_needsAck v h : payload_built h → payload_built (SetNeedsAck v h).

(** A change of one exchange flag leaves the byte a byte and the other flags alone. *)
Lemma ex_flag_changed flag v f :
  flag ∈ [kExchangeFlag_Initiator; kExchangeFlag_AckMsg; kExchangeFlag_NeedsAck; kExchangeFlag_VendorIdPresent] →
  in_u8 f →
  in_u8 (flags_SetTo flag v f) ∧ flags_Has flag (flags_SetTo flag v f) = v ∧
  Forall (λ g, g = flag ∨ flags_Has g (flags_SetTo flag v f) = flags_Has g f)
    [kExchangeFlag_Initiator; kExchangeFlag_AckMsg; kExchangeFlag_NeedsAck; kExchangeFlag_VendorIdPresent;
     kExchangeFlag_SecuredExtension].
Proof.
  rewrite !elem_of_cons, elem_of_nil. unfold in_u8.
  intros [->|[->|[->|[->|[]]]]] Hf; destruct v; by_bytes f Hf.
Qed.

(** The flags that a setter does not change, from the last part of [ex_flag_changed]. *)
Ltac kept_flags :=
  match goal with H : Forall _ _ |- _ =>
    rewrite !Forall_cons in H; destruct H as ([?|?]&[?|?]&[?|?]&[?|?]&[?|?]&_) end;
  try discriminate; cbn; split_and!; congruence || done.

Lemma payload_built_fields h : payload_built h → payload_fields h.
Proof.
  unfold payload_fields, HaveVendorId, IsAckMsg.
  induction 1 as [|p t h _ IH Hv Hp Ht|id h _ IH Hid|v h _ IH|id h _ IH Hid|v h _ IH];
    [|destruct IH as (Hmt&Hx&Hvn&Hpn&Hf&Ha&Hhv&Hak&Hsx)..].
  - cbn. split_and!; try done; try solve_width; vm_compute; split; congruence.
  - destruct (ex_flag_changed kExchangeFlag_VendorIdPresent (negb (GetVendorId p =? VendorId_Common)) (mExchangeFlags h))
      as (Hb&Hset&Hoth); [set_solver|done|]. kept_flags.
  - by split_and!.
  - destruct (ex_flag_changed kExchangeFlag_Initiator v (mExchangeFlags h)) as (Hb&Hset&Hoth); [set_solver|done|].
    kept_flags.
  - destruct (ex_flag_changed kExchangeFlag_AckMsg (has id) (mExchangeFlags h)) as (Hb&Hset&Hoth); [set_solver|done|].
    kept_flags.
  - destruct (ex_flag_changed kExchangeFlag_NeedsAck v (mExchangeFlags h)) as (Hb&Hset&Hoth); [set_solver|done|].
    kept_flags.
Qed.

(** ** Headers in packet buffers *)

Section Messages.
Context `{PbufBounds}.

(** The bytes of a header are put in front of the data. *)
Lemma encode_before_step (Encode : Z → chip_error + list Z) bytes b rest :
  wf_chain (b :: rest) → AllocSize b + chain_len rest < 2 ^ SIZE_BITS →
  (∀ n, Z.of_nat (length bytes) <= n → Encode n = inr bytes) →
  Z.of_nat (length bytes) + pb_len b <= AllocSize b →
  ∃ b', encode_before (Z.of_nat (length bytes)) Encode b = Returns (CHIP_NO_ERROR, b') ∧
    wf_chain (b' :: rest) ∧ buf_data b' = bytes ++ buf_data b ∧ AllocSize b' = AllocSize b.
Proof.
  intros Hwf Hsz He Hroom. set (k := Z.of_nat (length bytes)) in *.
  pose proof (proj1 (wf_chain_cons b rest) Hwf) as (Hb&Hwr&Ht&_).
  pose proof max_alloc_bound as Hmax. pose proof (chain_len_nonneg rest). unfold kUINT16_MAX in *.
  assert (0 <= pb_len b ∧ AllocSize b <= kMaxAllocSize) as [Hln Hal] by (split; apply Hb).
  unfold encode_before.
  destruct (EnsureReservedSize_step b k Hb) as (b1&->&Hb1&Hd1&Hl1&Ht1&Ha1&Hr1&Hp1); [solve_width|].
  rewrite bool_decide_true by lia. specialize (Hp1 ltac:(lia)). cbn [obind fst snd].
  assert (Hw1 : wf_chain (b1 :: rest)) by (apply (head_replaced b); try done; lia).
  destruct (SetStart_step b1 rest (Start b1 - k) Hw1) as [(Hb2&Hd2&Ht2) Hp2]; [lia|].
  assert (∃ b2, b2 = SetStart (Start b1 - k) b1 ∧ AllocSize b2 = AllocSize b1 ∧ pb_ref b2 = pb_ref b1) as (b2&Eb2&Ha12&Hr12)
    by (by eexists).
  rewrite <- Eb2 in *. unfold Start in *.
  pose proof Hb1 as (?&?&?&_). rewrite Z.min_l, Z.max_r in * by lia.
  replace (pb_payload b1 + pb_len b1 - (pb_payload b1 - k)) with (k + pb_len b1) in Hd2 by lia.
  pose proof (buf_data_length b2 Hb2) as Hl2. rewrite Hd2 in Hl2. unfold slice in Hl2. rewrite length_take, length_drop in Hl2.
  assert (pb_len b2 = k + pb_len b) as Hn2 by (unfold AllocSize in *; lia).
  unfold DataLength. rewrite He by lia.
  destruct (wf_lay b2 Hb2) as (A&U&HL). pose proof (lay_alloc _ _ _ _ HL) as Ha2. pose proof HL as (Hm2&Hpl2&Hnl2).
  set (D1 := take (length bytes) (buf_data b2)). set (D2 := drop (length bytes) (buf_data b2)).
  assert (HD2 : D2 = buf_data b).
  { unfold D2. rewrite <- Hd1, Hd2. unfold buf_data, slice. rewrite skipn_firstn_comm, drop_drop. f_equal; [lia|]. f_equal. lia. }
  assert (Hm : pb_mem b2 = A ++ D1 ++ (D2 ++ U)) by (rewrite Hm2; unfold D1, D2; rewrite (app_assoc (take _ _)), take_drop; done).
  assert (Hw : mem_write (pb_mem b2) (pb_payload b2) bytes = Returns (A ++ bytes ++ D2 ++ U)).
  { rewrite Hm, Hpl2. apply mem_write_mid. unfold D1. rewrite length_take. lia. }
  unfold Start. rewrite Hw. cbn [obind]. fold k. rewrite Z.eqb_refl. eexists. split; [done|].
  assert (HL3 : lay A (bytes ++ D2) U (pbset_mem (A ++ bytes ++ D2 ++ U) b2)).
  { split_and!; cbn; [by rewrite <- app_assoc|done|]. rewrite length_app, HD2, Hn2. pose proof (buf_data_length b Hb). lia. }
  assert (AllocSize (pbset_mem (A ++ bytes ++ D2 ++ U) b2) = AllocSize b) as Ha3.
  { rewrite (lay_alloc _ _ _ _ HL3), length_app, HD2. pose proof (buf_data_length b Hb).
    lia. }
  split_and!; [|rewrite (lay_data _ _ _ _ HL3); by rewrite HD2|done].
  apply (head_replaced b); try done; cbn; [|lia|lia]. apply (lay_wf _ _ _ _ HL3); [lia|]. cbn.
  rewrite Hr12, Hr1. apply Hb.
Qed.

(** A header in front of the data is decoded and taken off. *)
Lemma decode_consume_step {Hd} (Decode : Hd → list Z → (chip_error + Z) * Hd) (h0 h : Hd) bytes d b rest :
  wf_chain (b :: rest) → buf_data b = bytes ++ d → Decode h0 (bytes ++ d) = (inr (Z.of_nat (length bytes)), h) →
  ∃ b', decode_consume Decode h0 b = Returns (CHIP_NO_ERROR, h, b') ∧ wf_chain (b' :: rest) ∧ buf_data b' = d.
Proof.
  intros Hwf Hd' Hdec. pose proof (proj1 (wf_chain_cons b rest) Hwf) as (Hb&_&_&Hs).
  pose proof (buf_data_length b Hb) as Hl. rewrite Hd', length_app in Hl.
  unfold decode_consume, Start, DataLength. rewrite read_data by (done || lia). cbn [obind].
  rewrite take_ge by (rewrite Hd', length_app; lia). rewrite Hd', Hdec. eexists. split; [done|].
  pose proof (ConsumeHead_step b rest (Z.of_nat (length bytes)) Hwf ltac:(lia)) as Hst. rewrite Z.min_l in Hst by lia.
  rewrite Nat2Z.id, Hd', drop_app_length in Hst.
  destruct (head_step_chain _ _ _ rest Hwf Hst) as [Hw _]; [lia|]. split; [done|]. apply Hst.
Qed.

(** C7: A message survives the way through a packet buffer with room for its headers: the packet
    header built with the setters of the source, the destination, the session type and id, the
    counter, and the control and privacy flags, with at most one destination and a group only in
    a group session, the payload header with all of its setters. The payload header and then the
    packet header are put in front of the data, and the receiver decodes the packet header, then
    the payload header, to the ones that were sent, and is left with the data. Other headers are
    refused or misread ([group_in_unicast_refused], [SetUnsecured_stays_group]). *)
Theorem message_roundtrip h p b rest h0 p0 :
  packet_built h → packet_destination h → payload_built p → wf_chain (b :: rest) →
  AllocSize b + chain_len rest < 2 ^ SIZE_BITS →
  PacketHeader_EncodeSizeBytes h + PayloadHeader_EncodeSizeBytes p + pb_len b <= AllocSize b →
  ∃ b1 b2 b3 b4,
    PayloadHeader_EncodeBeforeData p b = Returns (CHIP_NO_ERROR, b1) ∧
    PacketHeader_EncodeBeforeData h b1 = Returns (CHIP_NO_ERROR, b2) ∧
    PacketHeader_DecodeAndConsume h0 b2 = Returns (CHIP_NO_ERROR, h, b3) ∧
    PayloadHeader_DecodeAndConsume p0 b3 = Returns (CHIP_NO_ERROR, p, b4) ∧
    wf_chain (b4 :: rest) ∧ chain_data (b4 :: rest) = chain_data (b :: rest).
Proof.
  intros Hh Hdst Hp Hwf Hsz Hroom. apply packet_built_fields in Hh. apply payload_built_fields in Hp.
  pose proof (packet_bytes_size h Hdst) as Hhs. pose proof (payload_bytes_size p) as Hps.
  pose proof (proj1 (wf_chain_cons b rest) Hwf) as (Hb&_). pose proof (buf_data_length b Hb) as Hbl.
  pose proof max_alloc_bound as Hmax. unfold kUINT16_MAX in *.
  assert (AllocSize b <= kMaxAllocSize) as Hal by apply Hb.
  unfold PayloadHeader_EncodeBeforeData, PacketHeader_EncodeBeforeData. rewrite <- Hhs, <- Hps in *.
  destruct (encode_before_step (PayloadHeader_Encode p) (payload_bytes p) b rest) as (b1&E1&Hw1&Hd1&Ha1); try done; [|lia|].
  { intros n Hn. apply PayloadHeader_Encode_ok. lia. }
  pose proof (proj1 (wf_chain_cons b1 rest) Hw1) as (Hb1&_). pose proof (buf_data_length b1 Hb1) as Hbl1.
  rewrite Hd1, length_app in Hbl1.
  destruct (encode_before_step (PacketHeader_Encode h) (packet_bytes h) b1 rest) as (b2&E2&Hw2&Hd2&Ha2); try done; [lia| |lia|].
  { intros n Hn. apply PacketHeader_Encode_ok; [done|done|lia]. }
  destruct (decode_consume_step PacketHeader_Decode h0 h (packet_bytes h) (buf_data b1) b2 rest) as (b3&E3&Hw3&Hd3); try done.
  { apply PacketHeader_Decode_encoded; try done. rewrite Hd1, length_app. lia. }
  destruct (decode_consume_step PayloadHeader_Decode p0 p (payload_bytes p) (buf_data b) b3 rest) as (b4&E4&Hw4&Hd4); try done.
  { by rewrite Hd3. } { apply PayloadHeader_Decode_encoded; try done. lia. }
  exists b1, b2, b3, b4. split_and!; try done. by rewrite !chain_data_cons, Hd4.
Qed.

End Messages.

(** ** What is decoded *)

Lemma dbind_assoc {H A B C} (o : dop H A) (k : A → dop H B) (k' : B → dop H C) h r :
  dbind (dbind o k) k' h r = dbind o (λ a, dbind (k a) k') h r.
Proof. unfold dbind. by destruct (o h r) as [[[|] ?] ?]. Qed.

Lemma dverify_inv {H A} (c : bool) e (k : unit → dop H A) h r a h' r' :
  dbind (dverify c e) k h r = (inr a, h', r') → c = true ∧ k tt h r = (inr a, h', r').
Proof. by destruct c. Qed.

(** The reader has consumed [pre] of the data, which is all bytes. *)
Definition consumed (data pre rest : list Z) : Prop :=
  data = pre ++ rest ∧ is_bytes rest ∧ Z.of_nat (length rest) <= 0xFFFF.

Lemma dread_step {H A} n (k : Z → dop H A) h data pre rest a h' r' :
  consumed data pre rest → dbind (dread n) k h (rd (Z.of_nat (length pre)) rest) = (inr a, h', r') →
  ∃ v rest', consumed data (pre ++ le_encode n v) rest' ∧ 0 <= v < 2 ^ (8 * Z.of_nat n) ∧
    k v h (rd (Z.of_nat (length (pre ++ le_encode n v))) rest') = (inr a, h', r').
Proof.
  intros (->&Hb&Hl) E. apply dread_inv in E as (v&rest'&->&Hv&Hb'&Hl'&E); try done.
  exists v, rest'. split_and!; try done.
  - unfold consumed. by rewrite <- app_assoc.
  - lia.
  - lia.
  - rewrite length_app, le_encode_length, Nat2Z.inj_add. done.
Qed.

(** The bytes in front of the destination, and the header after them. *)
Lemma decode_fixed_inv (k : dop PacketHeader Z) h0 data a h r' :
  consumed data [] data →
  dbind DecodeFixedCommon (λ _, let* c := dread 4 in do* dmod (phset_counter c) in do* decode_source in k) h0 (rd 0 data) =
    (inr a, h, r') →
  ∃ m sid s c src rest h1,
    consumed data (Write8 m ++ Write16 sid ++ Write8 s ++ Write32 c ++ from_option Write64 [] src) rest ∧
    0 <= m < 16 ∧ in_u16 sid ∧ in_u8 s ∧ in_u32 c ∧ opt_in in_u64 src ∧
    flags_Has kSourceNodeIdPresent m = has src ∧
    mMessageCounter h1 = c ∧ mSourceNodeId h1 = src ∧ mSessionId h1 = sid ∧
    mSessionType h1 = Z.land s kSessionTypeMask ∧ mMsgFlags h1 = m ∧ mSecFlags h1 = s ∧
    k h1 (rd (Z.of_nat (length (Write8 m ++ Write16 sid ++ Write8 s ++ Write32 c ++ from_option Write64 [] src))) rest) =
      (inr a, h, r').
Proof.
  intros Hc E. change (rd 0 data) with (rd (Z.of_nat (length (@nil Z))) data) in E.
  unfold DecodeFixedCommon in E. rewrite dbind_assoc in E.
  apply (dread_step 1 _ _ _ _ _ _ _ _ Hc) in E as (m&r1&Hc1&Hm&E). rewrite dbind_assoc in E.
  apply dverify_inv in E as [Hver E]. rewrite dbind_assoc, dbind_mod, dbind_assoc in E.
  apply (dread_step 2 _ _ _ _ _ _ _ _ Hc1) in E as (sid&r2&Hc2&Hsid&E). rewrite dbind_assoc, dbind_mod, dbind_assoc in E.
  apply (dread_step 1 _ _ _ _ _ _ _ _ Hc2) in E as (s&r3&Hc3&Hs&E). rewrite dbind_mod in E.
  apply (dread_step 4 _ _ _ _ _ _ _ _ Hc3) in E as (c&r4&Hc4&Hcc&E). rewrite dbind_mod in E.
  assert (0 <= m < 16) as Hm16.
  { assert (Hm8 : in_u8 m) by exact Hm. revert Hver. clear -Hm8. by_bytes m Hm8. }
  unfold decode_source in E. rewrite dbind_assoc, dbind_get in E.
  set (h1 := phset_counter c _) in E. change (mMsgFlags h1) with m in E.
  rewrite <- !app_assoc in Hc4. cbn [app] in Hc4.
  destruct (flags_Has kSourceNodeIdPresent m) eqn:Hfs.
  - rewrite dbind_assoc in E. rewrite <- !app_assoc in E. cbn [app] in E.
    apply (dread_step 8 _ _ _ _ _ _ _ _ Hc4) in E as (src&r5&Hc5&Hsrc&E). rewrite dbind_mod in E.
    rewrite <- !app_assoc in Hc5, E. exists m, sid, s, c, (Some src), r5, (phset_source (Some src) h1).
    split_and!; try done; try solve_width. by intros v [= <-].
  - rewrite dbind_mod in E. rewrite <- !app_assoc in E. exists m, sid, s, c, None, r4, (phset_source None h1).
    cbn [from_option]. rewrite app_nil_r. split_and!; try done; solve_width.
Qed.

Lemma decode_destination_inv (k : unit → dop PacketHeader Z) h1 data pre rest a h r' :
  consumed data pre rest → in_u8 (mMsgFlags h1) →
  dbind decode_destination k h1 (rd (Z.of_nat (length pre)) rest) = (inr a, h, r') →
  ∃ n g rest', consumed data (pre ++ from_option Write64 [] n ++ from_option Write16 [] g) rest' ∧
    opt_in in_u64 n ∧ opt_in in_u16 g ∧
    flags_Has kDestinationNodeIdPresent (mMsgFlags h1) = has n ∧
    flags_Has kDestinationGroupIdPresent (mMsgFlags h1) = has g ∧
    (n = None ∨ g = None) ∧ (g = None ∨ mSessionType h1 = kGroupSession) ∧
    k tt (phset_destGroup g (phset_destNode n h1))
      (rd (Z.of_nat (length (pre ++ from_option Write64 [] n ++ from_option Write16 [] g))) rest') = (inr a, h, r').
Proof.
  intros Hc Hm8 E. unfold decode_destination in E. rewrite dbind_assoc, dbind_get in E.
  destruct (flags_HasAll _ _) eqn:Hall; [done|].
  assert (flags_Has kDestinationNodeIdPresent (mMsgFlags h1) = true → flags_Has kDestinationGroupIdPresent (mMsgFlags h1) = false) as Hex.
  { revert Hall. set (m := mMsgFlags h1) in *. clearbody m. clear -Hm8. by_bytes m Hm8. }
  destruct (flags_Has kDestinationNodeIdPresent (mMsgFlags h1)) eqn:Hn.
  - rewrite dbind_assoc in E. apply (dread_step 8 _ _ _ _ _ _ _ _ Hc) in E as (n&r1&Hc1&Hv&E).
    rewrite dbind_assoc, !dbind_mod in E. exists (Some n), None, r1. cbn [from_option]. rewrite app_nil_r.
    split_and!; try done; [by intros v [= <-]|by rewrite Hex|by right|by left].
  - destruct (flags_Has kDestinationGroupIdPresent (mMsgFlags h1)) eqn:Hg.
    + rewrite dbind_assoc in E. apply dverify_inv in E as [Ht E]. apply Z.eqb_eq in Ht. rewrite dbind_assoc in E.
      apply (dread_step 2 _ _ _ _ _ _ _ _ Hc) in E as (g&r1&Hc1&Hv&E). rewrite dbind_assoc, !dbind_mod in E.
      exists None, (Some g), r1. cbn [from_option app].
      split_and!; try done; [by intros v [= <-]|by left|by right].
    + rewrite dbind_assoc, !dbind_mod in E. exists None, None, rest. cbn [from_option app]. rewrite app_nil_r.
      split_and!; try done; by left.
Qed.

(** The encoding is unique: when the decoder accepts bytes (without a message
    extension and with the reserved flag clear), encoding the header gives back exactly
    the bytes that it consumed. *)
Theorem decoded_packet_encodes h0 data n h size :
  is_bytes data → Z.of_nat (length data) <= 0xFFFF → PacketHeader_Decode h0 data = (inr n, h) →
  flags_Has kMsgExtensionFlag (mSecFlags h) = false → mMsgFlags h < 8 → n <= size →
  PacketHeader_Encode h size = inr (take (Z.to_nat n) data) ∧ 0 <= n <= Z.of_nat (length data).
Proof.
  intros Hb Hl E Hmx Hres Hsize. unfold PacketHeader_Decode in E. change (Reader_new data) with (rd 0 data) in E.
  destruct (decode_packet h0 (rd 0 data)) as [[res h'] r'] eqn:E'. cbn in E. injection E as -> ->.
  unfold decode_packet in E'.
  apply decode_fixed_inv in E' as (m&sid&s&c&src&r1&h1&Hc1&Hm&Hsid&Hs&Hcc&Hsrc&Hfs&F1&F2&F3&F4&F5&F6&E); [|done].
  rewrite dbind_get in E. apply dverify_inv in E as [Hval E].
  apply (decode_destination_inv _ _ _ _ _ _ _ _ Hc1) in E as (nd&g&r2&Hc2&Hnd&Hg&Hfn&Hfg&Hd1&Hd2&E);
    [|rewrite F5; solve_width].
  rewrite dbind_get in E. change (mSecFlags (phset_destGroup _ _)) with (mSecFlags h1) in E.
  assert (Hh : mSecFlags h = mSecFlags h1 → flags_Has kMsgExtensionFlag (mSecFlags h1) = false) by (by intros <-).
  destruct (flags_Has kMsgExtensionFlag (mSecFlags h1)) eqn:Hx.
  { exfalso. rewrite F6 in *. enough (mSecFlags h = s) by (specialize (Hh ltac:(done)); done).
    revert E. unfold dbind, skip_extension, dbind, dread, dreader, dverify, dskip, dret, derr.
    repeat case_match; intros [= <-]; try done; by simplify_eq. }
  remember ((Write8 m ++ Write16 sid ++ Write8 s ++ Write32 c ++ from_option Write64 [] src) ++
    from_option Write64 [] nd ++ from_option Write16 [] g) as pre eqn:Epre.
  rewrite dbind_ret, dbind_reader in E. injection E as <- <- <-.
  set (h' := phset_destGroup g (phset_destNode nd h1)) in *.
  destruct Hc2 as (Hdata&_&Hr2). rewrite Hdata, length_app in Hl.
  assert (mMsgFlags h1 = wire_msgFlags h') as Hw.
  { rewrite wire_msgFlags_eq. change (mSourceNodeId h') with (mSourceNodeId h1). rewrite F2.
    change (mDestinationNodeId h') with nd. change (mDestinationGroupId h') with g.
    rewrite F5 in *. rewrite <- Hfs, <- Hfn, <- Hfg. clear -Hres F5 Hm. change (mMsgFlags h') with (mMsgFlags h1) in Hres.
    rewrite F5 in Hres. assert (Hm8 : in_u8 m) by solve_width. clear -Hres Hm8. revert Hres. by_bytes m Hm8. }
  assert (Hfields : packet_fields h').
  { apply packet_fields_sec. unfold h', sec_ok; cbn. rewrite F1, F2, F3, F4, F6 in *. split_and!; try done.
    unfold IsSessionTypeValid, IsUnicastSession, IsGroupSession in Hval. rewrite F4 in Hval.
    apply orb_true_iff in Hval as [Hv|Hv]; apply Z.eqb_eq in Hv; auto. }
  assert (Hdst : packet_destination h') by done.
  assert (packet_bytes h' = pre) as Hpre.
  { rewrite Epre. unfold packet_bytes, h'. cbn. by rewrite F1, F2, F3, F5, F6. }
  assert (u16 (Z.of_nat (length pre)) = Z.of_nat (length pre)) as Hn by (apply u16_id; solve_width).
  rewrite Hn in *. split; [|rewrite Hdata, length_app; lia].
  rewrite PacketHeader_Encode_ok; [|done|done|rewrite <- packet_bytes_size by done; rewrite Hpre; lia].
  by rewrite Hpre, Nat2Z.id, Hdata, take_app_length.
Qed.

(** ** Runs *)

(** A request to a node in a unicast session. *)
Definition example_packet : PacketHeader :=
  SetDestinationNodeId (Some 0x1122) (SetSourceNodeId (Some 7) (SetMessageCounter 1000 (SetSessionId 5 PacketHeader_new))).
Definition example_payload : PayloadHeader :=
  SetAckMessageCounter (Some 999) (SetInitiator true (SetMessageType (mkProtocolId 0 1) 2 PayloadHeader_new)).
Definition example_buffer : pbuf := mkPbuf (replicate 40 0 ++ [1; 2; 3] ++ replicate 5 0) 40 3 3 1.

Lemma example_packet_built : packet_built example_packet.
Proof.
  apply pb_destNode; [apply pb_source; [apply pb_counter; [apply pb_session; [apply pb_new|]|]|]|];
    try (intros v [= <-]); solve_width.
Qed.
Lemma example_payload_built : payload_built example_payload.
Proof.
  apply plb_ack; [apply plb_initiator, plb_type; [apply plb_new|..]|]; try (intros v [= <-]); cbn; solve_width.
Qed.

Lemma example_buffer_wf : @wf_chain host_config [example_buffer].
Proof.
  split_and!; [repeat constructor; vm_compute; congruence|done|vm_compute; done].
Qed.

Lemma message_roundtrip_witness :
  ∃ b1 b2 b3 b4,
    @PayloadHeader_EncodeBeforeData host_config example_payload example_buffer = Returns (CHIP_NO_ERROR, b1) ∧
    @PacketHeader_EncodeBeforeData host_config example_packet b1 = Returns (CHIP_NO_ERROR, b2) ∧
    @PacketHeader_DecodeAndConsume host_config PacketHeader_new b2 = Returns (CHIP_NO_ERROR, example_packet, b3) ∧
    @PayloadHeader_DecodeAndConsume host_config PayloadHeader_new b3 = Returns (CHIP_NO_ERROR, example_payload, b4) ∧
    @wf_chain host_config [b4] ∧ chain_data [b4] = chain_data [example_buffer].
Proof.
  apply (@message_roundtrip host_config host_bounds example_packet example_payload example_buffer []).
  - apply example_packet_built.
  - split; [by right|by left].
  - apply example_payload_built.
  - apply example_buffer_wf.
  - vm_compute. reflexivity.
  - vm_compute. congruence.
Defined.

Lemma decoded_packet_encodes_witness :
  PacketHeader_Encode (PacketHeader_Decode PacketHeader_new [0x01; 5; 0; 0; 9; 0; 0; 0; 1; 2; 3; 4; 5; 6; 7; 8; 99]).2 100 =
    inr [0x01; 5; 0; 0; 9; 0; 0; 0; 1; 2; 3; 4; 5; 6; 7; 8] ∧ 0 <= 16 <= 17.
Proof.
  apply (decoded_packet_encodes PacketHeader_new [0x01; 5; 0; 0; 9; 0; 0; 0; 1; 2; 3; 4; 5; 6; 7; 8; 99] 16).
  - repeat constructor; solve_width.
  - vm_compute. congruence.
  - vm_compute. reflexivity.
  - vm_compute. reflexivity.
  - vm_compute. reflexivity.
  - lia.
Defined.

(** ** At the edges *)

(** [SetUnsecured] changes the session type but not the bits on the wire: after a group
    session the header is sent as one of a group session. *)
Lemma SetUnsecured_stays_group :
  let h := SetUnsecured (SetSessionType kGroupSession PacketHeader_new) in
  mSessionType h = kUnicastSession ∧
  ∃ bytes, PacketHeader_Encode h 8 = inr bytes ∧
    mSessionType (PacketHeader_Decode PacketHeader_new bytes).2 = kGroupSession.
Proof. cbn zeta. split; [done|]. exists [0; 0; 0; 1; 0; 0; 0; 0]. split; vm_compute; reflexivity. Qed.

(** A group destination in a unicast session is encoded and then refused by the decoder. *)
Lemma group_in_unicast_refused :
  let h := SetDestinationGroupId (Some 3) PacketHeader_new in
  ∃ bytes, PacketHeader_Encode h 10 = inr bytes ∧
    (PacketHeader_Decode PacketHeader_new bytes).1 = inl CHIP_ERROR_INTERNAL.
Proof. cbn zeta. exists [2; 0; 0; 0; 0; 0; 0; 0; 3; 0]. split; vm_compute; reflexivity. Qed.

(** [mAvailable] is cut to 16 bits: of a buffer of 65537 bytes the reader hands out one. *)
Lemma large_message_refused h0 data :
  Z.of_nat (length data) = 65537 →
  ∃ e, (PacketHeader_Decode h0 data).1 = inl e ∧ e ∈ [CHIP_ERROR_BUFFER_TOO_SMALL; CHIP_ERROR_VERSION_MISMATCH].
Proof.
  intros Hl. unfold PacketHeader_Decode, decode_packet, DecodeFixedCommon. rewrite dbind_assoc.
  erewrite (dbind_ok (dread 1)) by (unfold dread, RawReadLowLevelBeCareful, Reader_new, IsSuccess;
    cbn [mStatus mAvailable mReadPtr mOctetsRead]; rewrite bool_decide_true, Hl by done; reflexivity).
  rewrite dbind_assoc. generalize (Z.shiftr (Z.land (le_decode (take 1 data)) kVersionMask) kVersionShift). intros v.
  unfold dverify at 1. destruct (v =? kMsgHeaderVersion); [|eexists; split; [reflexivity|set_solver]].
  rewrite dbind_ret, dbind_assoc, dbind_mod, dbind_assoc. eexists. split; [reflexivity|set_solver].
Qed.
