(* ===== verification/Verhoeff.v ===== *)
(** * Verhoeff's check digit

    src/src/lib/support/verhoeff/Verhoeff.cpp and Verhoeff10.cpp: the check digit at the
    end of a manual pairing code. A string is the list of the codes of its characters,
    without the terminating zero. *)

From S2P Require Import Prelude.

Definition Base : Z := 10.
Definition PolygonSize : Z := 5.

(** ** The dihedral group *)

Definition DihedralMultiply (x y n : Z) : Z :=
  let n2 := n * 2 in
  let x := Z.rem x n2 in
  let y := Z.rem y n2 in
  if x <? n then
    if y <? n then Z.rem (x + y) n
    else Z.rem (x + (y - n)) n + n
  else if y <? n then Z.rem (n + (x - n) - y) n + n
  else Z.rem (n + (x - n) - (y - n)) n.

Definition DihedralInvert (val n : Z) : Z :=
  if (0 <? val) && (val <? n) then n - val else val.

Fixpoint Permute (val : Z) (permTable : list Z) (permTableLen : Z) (iterCount : nat) : Z :=
  let val := Z.rem val permTableLen in
  match iterCount with
  | O => val
  | S iterCount => Permute (nth (Z.to_nat val) permTable 0) permTable permTableLen iterCount
  end.

(** ** Base 10 *)

Definition sMultiplyTable : list Z := [
    0; 1; 2; 3; 4; 5; 6; 7; 8; 9; 1; 2; 3; 4; 0; 6; 7; 8; 9; 5; 2; 3; 4; 0; 1; 7; 8; 9; 5; 6; 3; 4; 0; 1;
    2; 8; 9; 5; 6; 7; 4; 0; 1; 2; 3; 9; 5; 6; 7; 8; 5; 9; 8; 7; 6; 0; 4; 3; 2; 1; 6; 5; 9; 8; 7; 1; 0; 4;
    3; 2; 7; 6; 5; 9; 8; 2; 1; 0; 4; 3; 8; 7; 6; 5; 9; 3; 2; 1; 0; 4; 9; 8; 7; 6; 5; 4; 3; 2; 1; 0].

Definition sPermTable : list Z := [1; 5; 7; 6; 2; 8; 3; 0; 9; 4].

Definition CharToVal (ch : Z) : Z := if (48 <=? ch) && (ch <=? 57) then ch - 48 else -1.

Definition ValToChar (val : Z) : Z := if (0 <=? val) && (val <=? Base) then 48 + val else 0.

(** The loop over the characters from the last to the first, the character at hand
    being the one number [i] from the end; [None] for a character that is no digit. *)
Fixpoint check_loop (rev_str : list Z) (i : nat) (c : Z) : option Z :=
  match rev_str with
  | [] => Some c
  | ch :: rest =>
      let val := CharToVal ch in
      if val <? 0 then None
      else
        let p := Permute val sPermTable Base i in
        check_loop rest (S i) (nth (Z.to_nat (c * Base + p)) sMultiplyTable 0)
  end.

Definition ComputeCheckChar (str : list Z) : Z :=
  match check_loop (rev str) 1 0 with
  | None => 0
  | Some c => ValToChar (DihedralInvert c PolygonSize)
  end.

Definition ValidateCheckChar (checkChar : Z) (str : list Z) : bool := ComputeCheckChar str =? checkChar.

(** The form for a string with its check character at the end. *)
Definition ValidateCheckChar_last (str : list Z) : bool :=
  match rev str with
  | [] => false
  | checkChar :: rest => ValidateCheckChar checkChar (rev rest)
  end.

(** ** The group *)

Definition mul (a b : Z) : Z := nth (Z.to_nat (a * Base + b)) sMultiplyTable 0.
Definition perm (i : nat) (v : Z) : Z := Permute v sPermTable Base i.

Definition digits : list Z := [0; 1; 2; 3; 4; 5; 6; 7; 8; 9].
Definition digit (v : Z) : Prop := 0 <= v < 10.

Lemma digit_in v : digit v → v ∈ digits.
Proof.
  unfold digit. intros Hv.
  assert (v = 0 ∨ v = 1 ∨ v = 2 ∨ v = 3 ∨ v = 4 ∨ v = 5 ∨ v = 6 ∨ v = 7 ∨ v = 8 ∨ v = 9) by lia.
  unfold digits. set_solver.
Qed.

(** A decidable relation of three digits holds when it holds for all thousand. *)
Lemma digits3 (R : Z → Z → Z → Prop) (dec : ∀ a b c, Decision (R a b c)) :
  forallb (λ a, forallb (λ b, forallb (λ c, bool_decide (R a b c)) digits) digits) digits = true →
  ∀ a b c, digit a → digit b → digit c → R a b c.
Proof.
  intros HR a b c Ha%digit_in Hb%digit_in Hc%digit_in. rewrite forallb_forall in HR.
  specialize (HR a (proj1 (list_elem_of_In _ _) Ha)). rewrite forallb_forall in HR.
  specialize (HR b (proj1 (list_elem_of_In _ _) Hb)). rewrite forallb_forall in HR.
  specialize (HR c (proj1 (list_elem_of_In _ _) Hc)). by apply bool_decide_eq_true in HR.
Qed.

(** [by_digits R a b c] proves [R a b c] for digits by computation. *)
Tactic Notation "by_digits" uconstr(R) constr(x) constr(y) constr(z) :=
  apply (digits3 R ltac:(intros ???; cbn beta; apply _)) with (a := x) (b := y) (c := z);
    [vm_compute; reflexivity|done..].

(** The table is the multiplication of the dihedral group. *)
Lemma mul_dihedral a b : digit a → digit b → mul a b = DihedralMultiply a b PolygonSize.
Proof. intros Ha Hb. by_digits (λ a b _, mul a b = DihedralMultiply a b PolygonSize) a b a. Qed.

Lemma mul_digit a b : digit a → digit b → digit (mul a b).
Proof. intros Ha Hb. by_digits (λ a b _, 0 <= mul a b < 10) a b a. Qed.

Lemma mul_assoc a b c : digit a → digit b → digit c → mul (mul a b) c = mul a (mul b c).
Proof. intros ???. by_digits (λ a b c, mul (mul a b) c = mul a (mul b c)) a b c. Qed.

Lemma mul_0 a : digit a → mul 0 a = a ∧ mul a 0 = a.
Proof. intros Ha. by_digits (λ a _ _, mul 0 a = a ∧ mul a 0 = a) a a a. Qed.

Lemma mul_cancel_l c a b : digit a → digit b → digit c → mul c a = mul c b → a = b.
Proof. intros ???. by_digits (λ a b c, mul c a = mul c b → a = b) a b c. Qed.

Lemma mul_cancel_r c a b : digit a → digit b → digit c → mul a c = mul b c → a = b.
Proof. intros ???. by_digits (λ a b c, mul a c = mul b c → a = b) a b c. Qed.

Lemma invert_spec a b : digit a → digit b → DihedralInvert a PolygonSize = b ↔ mul b a = 0.
Proof.
  intros Ha Hb. by_digits (λ a b _, DihedralInvert a PolygonSize = b ↔ mul b a = 0) a b a.
Qed.

Lemma invert_digit a : digit a → digit (DihedralInvert a PolygonSize).
Proof.
  intros Ha. by_digits (λ a _ _, 0 <= DihedralInvert a PolygonSize < 10) a a a.
Qed.

(** ** The permutations *)

Lemma perm_0 v : digit v → perm 0 v = v.
Proof. intros Hv. unfold perm. cbn. apply Z.rem_small. unfold digit, Base in *. lia. Qed.

Lemma perm_S i v : digit v → perm (S i) v = perm i (perm 1 v).
Proof.
  intros Hv. unfold perm. cbn [Permute].
  assert (∀ w, 0 <= w < 10 → Z.rem w Base = w) as Hrem by (intros; apply Z.rem_small; unfold Base; lia).
  assert (0 <= nth (Z.to_nat (Z.rem v Base)) sPermTable 0 < 10) as Hn.
  { by_digits (λ v _ _, 0 <= nth (Z.to_nat (Z.rem v Base)) sPermTable 0 < 10) v v v. }
  by rewrite (Hrem _ Hn).
Qed.

Lemma perm_digit i v : digit v → digit (perm i v).
Proof.
  revert v. induction i as [|i IH]; intros v Hv; [by rewrite perm_0|]. rewrite perm_S by done. apply IH.
  by_digits (λ v _ _, 0 <= perm 1 v < 10) v v v.
Qed.

Lemma perm_inj i v w : digit v → digit w → perm i v = perm i w → v = w.
Proof.
  revert v w. induction i as [|i IH]; intros v w Hv Hw; [by rewrite !perm_0|]. rewrite !(perm_S i) by done. intros E.
  apply IH in E; try by apply perm_digit.
  revert E. by_digits (λ v w _, perm 1 v = perm 1 w → v = w) v w v.
Qed.

Lemma perm_add n i v : digit v → perm (n + i) v = perm i (perm n v).
Proof.
  revert v. induction n as [|n IH]; intros v Hv; [by rewrite perm_0|].
  cbn [Nat.add]. rewrite (perm_S (n + i)), (perm_S n) by done. apply IH. by apply perm_digit.
Qed.

Lemma perm_period i v : digit v → perm (8 + i) v = perm i v.
Proof. intros Hv. rewrite perm_add by done. f_equal. by_digits (λ v _ _, perm 8 v = v) v v v. Qed.

(** No two digits in neighbouring places can be exchanged. *)
Lemma perm_swap i a b :
  digit a → digit b → mul (perm i a) (perm (S i) b) = mul (perm i b) (perm (S i) a) → a = b.
Proof.
  revert a b. induction (lt_wf i) as [i _ IH]. intros a b Ha Hb.
  destruct (decide (i < 8)%nat) as [Hi|Hi].
  - assert (i = 0 ∨ i = 1 ∨ i = 2 ∨ i = 3 ∨ i = 4 ∨ i = 5 ∨ i = 6 ∨ i = 7)%nat as Hcases by lia.
    destruct_or! Hcases; subst i;
      match goal with |- mul (perm ?i _) _ = _ → _ =>
        by_digits (λ a b _, mul (perm i a) (perm (S i) b) = mul (perm i b) (perm (S i) a) → a = b) a b a end.
  - replace i with (8 + (i - 8))%nat by lia. change (S (8 + (i - 8))) with (8 + S (i - 8))%nat.
    rewrite !perm_period by done. apply IH; [lia|done|done].
Qed.

(** ** Codes *)

(** The product of the digits of a code from the last to the first, each permuted
    according to its place. *)
Fixpoint prod (i : nat) (l : list Z) : Z :=
  match l with
  | [] => 0
  | v :: l => mul (perm i v) (prod (S i) l)
  end.

Definition digit_char (ch : Z) : Prop := 48 <= ch <= 57.
Definition vals (str : list Z) : list Z := map (λ ch, ch - 48) str.

Lemma prod_digit i l : Forall digit l → digit (prod i l).
Proof.
  intros Hl. revert i. induction Hl as [|v l Hv _ IH]; intros i; [unfold digit; cbn; lia|].
  apply mul_digit; [by apply perm_digit|apply IH].
Qed.

Lemma CharToVal_digit ch : digit_char ch → CharToVal ch = ch - 48 ∧ digit (ch - 48).
Proof. unfold digit_char, CharToVal, digit. intros. rewrite !(proj2 (Z.leb_le _ _)) by lia. cbn. lia. Qed.

Lemma vals_digits str : Forall digit_char str → Forall digit (vals str).
Proof. unfold vals. rewrite Forall_map. intros Hs. eapply Forall_impl; [done|]. intros ch Hch. by apply CharToVal_digit. Qed.

Lemma check_loop_prod rev_str i c :
  Forall digit_char rev_str → digit c → check_loop rev_str i c = Some (mul c (prod i (vals rev_str))).
Proof.
  intros Hs. revert i c. induction Hs as [|ch str Hch Hs IH]; intros i c Hc; cbn [check_loop vals map prod].
  - by rewrite (proj2 (mul_0 c Hc)).
  - destruct (CharToVal_digit ch Hch) as [-> Hd]. rewrite (proj2 (Z.ltb_ge _ _)) by (unfold digit in Hd; lia).
    fold (perm i (ch - 48)). fold (mul c (perm i (ch - 48))). pose proof (perm_digit i _ Hd) as Hp.
    rewrite IH by (by apply mul_digit). f_equal. fold (vals str). rewrite mul_assoc; try done.
    apply prod_digit. by apply vals_digits.
Qed.

(** A code is accepted when its product is the neutral element. *)
Lemma validate_prod str :
  str ≠ [] → Forall digit_char str → ValidateCheckChar_last str = true ↔ prod 0 (vals (rev str)) = 0.
Proof.
  intros Hne Hs. assert (Hr : Forall digit_char (rev str)) by (by apply Forall_rev).
  unfold ValidateCheckChar_last. destruct (rev str) as [|ch rest] eqn:E.
  { destruct str; [done|]. cbn in E. by destruct (rev str). }
  apply Forall_cons in Hr as [Hch Hr]. unfold ValidateCheckChar, ComputeCheckChar. rewrite rev_involutive.
  destruct (CharToVal_digit ch Hch) as [_ Hd]. pose proof (prod_digit 1 _ (vals_digits _ Hr)) as Hp.
  rewrite check_loop_prod by (done || (unfold digit; lia)). rewrite (proj1 (mul_0 _ Hp)).
  cbn [vals map prod]. fold (vals rest). rewrite perm_0 by done. rewrite <- invert_spec by done.
  rewrite Z.eqb_eq. pose proof (invert_digit _ Hp) as Hi. unfold ValToChar, digit, Base in *.
  rewrite !(proj2 (Z.leb_le _ _)) by lia. cbn [andb]. lia.
Qed.

(** A change in one place, or of two neighbours, changes the product. *)
Lemma prod_place i x l m :
  Forall digit (x ++ l) → Forall digit (x ++ m) → prod (length x + i) l ≠ prod (length x + i) m →
  prod i (x ++ l) ≠ prod i (x ++ m).
Proof.
  revert i. induction x as [|v x IH]; intros i Hl Hm Hne; [done|]. cbn [app prod length] in *.
  apply Forall_cons in Hl as [Hv Hl]. apply Forall_cons in Hm as [_ Hm].
  intros E. apply mul_cancel_l in E; try by apply prod_digit. 2: by apply perm_digit.
  revert E. apply IH; try done. by replace (length x + S i)%nat with (S (length x + i)) by lia.
Qed.

Lemma prod_digit_changed i a b l :
  digit a → digit b → Forall digit l → a ≠ b → prod i (a :: l) ≠ prod i (b :: l).
Proof.
  intros Ha Hb Hl Hne E. cbn [prod] in E. apply mul_cancel_r in E; try by apply perm_digit. 2: by apply prod_digit.
  by apply perm_inj in E.
Qed.

Lemma prod_swapped i a b l :
  digit a → digit b → Forall digit l → a ≠ b → prod i (a :: b :: l) ≠ prod i (b :: a :: l).
Proof.
  intros Ha Hb Hl Hne E. cbn [prod] in E. pose proof (prod_digit (S (S i)) l Hl).
  rewrite <- !mul_assoc in E by (done || by apply perm_digit).
  apply mul_cancel_r in E; try apply mul_digit; try done; try by apply perm_digit. by apply perm_swap in E.
Qed.

Lemma ComputeCheckChar_digit str : Forall digit_char str → digit_char (ComputeCheckChar str).
Proof.
  intros Hs. assert (Hr : Forall digit_char (rev str)) by (by apply Forall_rev).
  unfold ComputeCheckChar. rewrite check_loop_prod by (done || (unfold digit; lia)).
  pose proof (prod_digit 1 _ (vals_digits _ Hr)) as Hp. rewrite (proj1 (mul_0 _ Hp)).
  pose proof (invert_digit _ Hp) as Hi. unfold ValToChar, digit, digit_char, Base in *.
  rewrite !(proj2 (Z.leb_le _ _)) by lia. cbn [andb]. lia.
Qed.

Lemma computed_validates str : ValidateCheckChar_last (str ++ [ComputeCheckChar str]) = true.
Proof.
  unfold ValidateCheckChar_last. rewrite rev_app_distr. cbn. rewrite rev_involutive.
  unfold ValidateCheckChar. apply Z.eqb_refl.
Qed.

(** Two codes with different products are not both accepted. *)
Lemma validate_differs s s' :
  s ≠ [] → s' ≠ [] → Forall digit_char s → Forall digit_char s' → ValidateCheckChar_last s = true →
  prod 0 (vals (rev s)) ≠ prod 0 (vals (rev s')) → ValidateCheckChar_last s' = false.
Proof.
  intros Hne Hne' Hs Hs' Hv Hp. destruct (ValidateCheckChar_last s') eqn:E; [|done].
  apply validate_prod in E; try done. apply validate_prod in Hv; try done. congruence.
Qed.

Section Mistyped.
Context (str : list Z) (Hstr : Forall digit_char str).
Let code := str ++ [ComputeCheckChar str].

Lemma code_digit_chars : Forall digit_char code.
Proof. apply Forall_app. split; [done|]. constructor; [by apply ComputeCheckChar_digit|constructor]. Qed.

Lemma char_digit ch : digit_char ch → digit (ch - 48).
Proof. intros Hch. by apply CharToVal_digit. Qed.

Lemma changed_digit_found pre a post c :
  code = pre ++ a :: post → digit_char c → c ≠ a → ValidateCheckChar_last (pre ++ c :: post) = false.
Proof.
  intros Hcode Hc Hne. pose proof (computed_validates str) as Hv. fold code in Hv. pose proof code_digit_chars as Hd.
  rewrite Hcode in *. pose proof Hd as (Hpre&Hap)%Forall_app. apply Forall_cons in Hap as [Ha Hpost].
  assert (Hd' : Forall digit_char (pre ++ c :: post)) by (apply Forall_app; by split; [|constructor]).
  apply (validate_differs (pre ++ a :: post)); try done; [by destruct pre..|].
  unfold vals. rewrite !rev_app_distr. cbn [rev]. rewrite <- !app_assoc, !map_app. cbn [app map].
  assert (Hrp : Forall digit (map (λ ch, ch - 48) (rev post))) by (apply vals_digits, Forall_rev; done).
  assert (Hrq : Forall digit (map (λ ch, ch - 48) (rev pre))) by (apply vals_digits, Forall_rev; done).
  pose proof char_digit.
  apply prod_place; [apply Forall_app; split; [done|constructor; auto]..|].
  apply prod_digit_changed; auto. lia.
Qed.

Lemma swapped_digits_found pre a b post :
  code = pre ++ a :: b :: post → a ≠ b → ValidateCheckChar_last (pre ++ b :: a :: post) = false.
Proof.
  intros Hcode Hne. pose proof (computed_validates str) as Hv. fold code in Hv. pose proof code_digit_chars as Hd.
  rewrite Hcode in *. pose proof Hd as (Hpre&Hap)%Forall_app. apply Forall_cons in Hap as [Ha Hpost].
  apply Forall_cons in Hpost as [Hb Hpost'].
  assert (Hd' : Forall digit_char (pre ++ b :: a :: post)) by (apply Forall_app; split; [done|constructor; [done|by constructor]]).
  apply (validate_differs (pre ++ a :: b :: post)); try done; [by destruct pre..|].
  unfold vals. rewrite !rev_app_distr. cbn [rev]. rewrite <- !app_assoc, !map_app. cbn [app map].
  assert (Hrp : Forall digit (map (λ ch, ch - 48) (rev post))) by (apply vals_digits, Forall_rev; done).
  assert (Hrq : Forall digit (map (λ ch, ch - 48) (rev pre))) by (apply vals_digits, Forall_rev; done).
  pose proof char_digit.
  apply prod_place; [apply Forall_app; split; [done|constructor; [auto|constructor; auto]]..|].
  apply prod_swapped; auto. lia.
Qed.

End Mistyped.

(** The check digit fits the code it is computed for, and it finds every error in
    a single digit and every exchange of two neighbouring digits, the check digit itself
    included. *)
Theorem check_digit_detects str :
  Forall digit_char str →
  let code := str ++ [ComputeCheckChar str] in
  ValidateCheckChar_last code = true ∧
  ∀ pre a post, code = pre ++ a :: post →
    (∀ c, digit_char c → c ≠ a → ValidateCheckChar_last (pre ++ c :: post) = false) ∧
    (∀ b post', post = b :: post' → a ≠ b → ValidateCheckChar_last (pre ++ b :: a :: post') = false).
Proof.
  intros Hs code. split; [apply computed_validates|]. intros pre a post Hcode. split.
  - intros c. by apply (changed_digit_found str).
  - intros b post' ->. by apply (swapped_digits_found str).
Qed.

Lemma check_digit_detects_witness :
  let code := [50; 51; 54] ++ [ComputeCheckChar [50; 51; 54]] in
  ValidateCheckChar_last code = true ∧
  ∀ pre a post, code = pre ++ a :: post →
    (∀ c, digit_char c → c ≠ a → ValidateCheckChar_last (pre ++ c :: post) = false) ∧
    (∀ b post', post = b :: post' → a ≠ b → ValidateCheckChar_last (pre ++ b :: a :: post') = false).
Proof. apply check_digit_detects. repeat constructor; unfold digit_char; lia. Defined.
