(* ===== verification/SetupPayload.v ===== *)
(** * Onboarding payload

    What a device tells to be commissioned, and when it is valid
    (src/src/setup_payload/SetupPayload.h and .cpp,
    src/src/lib/support/SetupDiscriminator.h). *)

From S2P Require Import Prelude.
From S2P Require Import COutcome.

(** ** Discriminator *)

Definition kLongBits : Z := 12.
Definition kShortBits : Z := 4.
Definition kLongMask : Z := 2 ^ kLongBits - 1.
Definition kShortMask : Z := 2 ^ kShortBits - 1.

Record SetupDiscriminator := mkDiscriminator { mDiscriminator : Z; mIsShortDiscriminator : bool }.

#[export] Instance SetupDiscriminator_eq_dec : EqDecision SetupDiscriminator.
Proof. solve_decision. Defined.

Definition SetupDiscriminator_new : SetupDiscriminator := mkDiscriminator 0 false.

Definition SetShortValue (discriminator : Z) : outcome SetupDiscriminator :=
  if discriminator =? Z.land discriminator kShortMask
  then Returns (mkDiscriminator (Z.land discriminator kShortMask) true) else Crashes AssertFailed.

Definition SetLongValue (discriminator : Z) : outcome SetupDiscriminator :=
  if discriminator =? Z.land discriminator kLongMask
  then Returns (mkDiscriminator (Z.land discriminator kLongMask) false) else Crashes AssertFailed.

Definition LongToShortValue (longValue : Z) : Z := u8 (Z.shiftr longValue (kLongBits - kShortBits)).

Definition GetShortValue (d : SetupDiscriminator) : Z :=
  if mIsShortDiscriminator d then u8 (mDiscriminator d) else LongToShortValue (mDiscriminator d).

Definition GetLongValue (d : SetupDiscriminator) : outcome Z :=
  if mIsShortDiscriminator d then Crashes AssertFailed else Returns (mDiscriminator d).

Definition MatchesLongDiscriminator (discriminator : Z) (d : SetupDiscriminator) : bool :=
  if mIsShortDiscriminator d then mDiscriminator d =? LongToShortValue discriminator
  else mDiscriminator d =? discriminator.

(** ** Payload *)

Definition kSetupPINCodeFieldLengthInBits : Z := 27.
Definition kSetupPINCodeMaximumValue : Z := 99999998.
Definition kSetupPINCodeUndefinedValue : Z := 0.

(** [CommissioningFlow], an 8-bit enumeration. *)
Definition kStandard : Z := 0.
Definition kUserActionRequired : Z := 1.
Definition kCustom : Z := 2.

Record PayloadContents := mkPayload {
  version : Z;
  vendorID : Z;
  productID : Z;
  commissioningFlow : Z;
  rendezvousInformation : option Z;
  discriminator : SetupDiscriminator;
  setUpPINCode : Z
}.

#[export] Instance PayloadContents_eq_dec : EqDecision PayloadContents.
Proof. solve_decision. Defined.

Definition PayloadContents_new : PayloadContents := mkPayload 0 0 0 kStandard None SetupDiscriminator_new 0.

Definition spset_version v p := mkPayload v (vendorID p) (productID p) (commissioningFlow p) (rendezvousInformation p) (discriminator p) (setUpPINCode p).
Definition spset_vendorID v p := mkPayload (version p) v (productID p) (commissioningFlow p) (rendezvousInformation p) (discriminator p) (setUpPINCode p).
Definition spset_productID v p := mkPayload (version p) (vendorID p) v (commissioningFlow p) (rendezvousInformation p) (discriminator p) (setUpPINCode p).
Definition spset_flow v p := mkPayload (version p) (vendorID p) (productID p) v (rendezvousInformation p) (discriminator p) (setUpPINCode p).
Definition spset_rendezvous v p := mkPayload (version p) (vendorID p) (productID p) (commissioningFlow p) v (discriminator p) (setUpPINCode p).
Definition spset_discriminator v p := mkPayload (version p) (vendorID p) (productID p) (commissioningFlow p) (rendezvousInformation p) v (setUpPINCode p).
Definition spset_pin v p := mkPayload (version p) (vendorID p) (productID p) (commissioningFlow p) (rendezvousInformation p) (discriminator p) v.

Inductive ValidationMode := kProduce | kConsume.

Definition invalid_pins : list Z :=
  [11111111; 22222222; 33333333; 44444444; 55555555; 66666666; 77777777; 88888888; 12345678; 87654321].

Definition IsValidSetupPIN (setupPIN : Z) : bool :=
  negb ((setupPIN =? kSetupPINCodeUndefinedValue) || (kSetupPINCodeMaximumValue <? setupPIN) ||
        existsb (Z.eqb setupPIN) invalid_pins).

Definition VendorId_Unspecified : Z := 0x0000.
Definition VendorId_TestVendor4 : Z := 0xFFF4.

Definition IsVendorIdValidOperationally (vendorId : Z) : bool :=
  negb (vendorId =? VendorId_Unspecified) && (vendorId <=? VendorId_TestVendor4).

Definition CheckPayloadCommonConstraints (p : PayloadContents) : bool :=
  (version p =? 0) && IsValidSetupPIN (setUpPINCode p) &&
  ((vendorID p =? VendorId_Unspecified) || IsVendorIdValidOperationally (vendorID p)) &&
  (negb (productID p =? 0) || (vendorID p =? VendorId_Unspecified)).

Definition isValidManualCode (p : PayloadContents) : bool := CheckPayloadCommonConstraints p.

(** [kSoftAP], [kBLE], [kOnNetwork] and [kWiFiPAF]. *)
Definition valid_rendezvous : Z := 0x0F.

Definition isValidQRCodePayload (mode : ValidationMode) (p : PayloadContents) : bool :=
  (version p <? 2 ^ 3) && (commissioningFlow p <? 2 ^ 2) &&
  existsb (Z.eqb (commissioningFlow p)) [kStandard; kUserActionRequired; kCustom] &&
  negb (mIsShortDiscriminator (discriminator p)) &&
  match rendezvousInformation p with
  | None => false
  | Some flags =>
      match mode with
      | kProduce => Z.land flags (u8 (Z.lnot valid_rendezvous)) =? 0
      | kConsume => true
      end
  end && CheckPayloadCommonConstraints p.

(** ** Facts *)

(** The values that the setters give a discriminator. *)
Definition discriminator_ok (d : SetupDiscriminator) : Prop :=
  0 <= mDiscriminator d < 2 ^ (if mIsShortDiscriminator d then kShortBits else kLongBits).

Lemma GetShortValue_range d : discriminator_ok d → 0 <= GetShortValue d < 16.
Proof.
  unfold discriminator_ok, GetShortValue, LongToShortValue, kLongBits, kShortBits.
  destruct (mIsShortDiscriminator d); intros Hd.
  - rewrite u8_id by solve_width. lia.
  - rewrite Z.shiftr_div_pow2 by lia. change (12 - 4) with 8. unfold u8.
    assert (0 <= mDiscriminator d / 2 ^ 8 < 16) by (split; [apply Z.div_pos; lia|apply Z.div_lt_upper_bound; lia]).
    rewrite Z.mod_small; lia.
Qed.

Lemma SetShortValue_ok v : 0 <= v < 16 → SetShortValue v = Returns (mkDiscriminator v true).
Proof.
  intros Hv. unfold SetShortValue, kShortMask, kShortBits. rewrite land_mod by lia. rewrite Z.mod_small by lia.
  by rewrite Z.eqb_refl.
Qed.

Lemma SetLongValue_ok v : 0 <= v < 4096 → SetLongValue v = Returns (mkDiscriminator v false).
Proof.
  intros Hv. unfold SetLongValue, kLongMask, kLongBits. rewrite land_mod by lia. rewrite Z.mod_small by lia.
  by rewrite Z.eqb_refl.
Qed.

Lemma valid_pin_range pin : 0 <= pin → IsValidSetupPIN pin = true → 0 < pin < 2 ^ 27.
Proof.
  unfold IsValidSetupPIN, kSetupPINCodeUndefinedValue, kSetupPINCodeMaximumValue. intros Hp Hv.
  apply negb_true_iff in Hv. rewrite !orb_false_iff in Hv. destruct Hv as [[H1 H2] _]. zbool. lia.
Qed.
