(* ===== verification/ManualCode.v ===== *)
(** * Manual pairing code

    The decimal code of an onboarding payload:
    src/src/setup_payload/ManualSetupPayloadGenerator.cpp and
    ManualSetupPayloadParser.cpp. *)

From S2P Require Import Prelude.
From S2P Require Import COutcome.
From S2P Require Import ChipError.
From S2P Require Import Verhoeff.
From S2P Require Import SetupPayload.

Definition kManualSetupDiscriminatorFieldLengthInBits : Z := kShortBits.
Definition kManualSetupChunk1DiscriminatorMsbitsPos : Z := 0.
Definition kManualSetupChunk1DiscriminatorMsbitsLength : Z := 2.
Definition kManualSetupChunk1VidPidPresentBitPos : Z := 2.
Definition kManualSetupChunk2PINCodeLsbitsPos : Z := 0.
Definition kManualSetupChunk2PINCodeLsbitsLength : Z := 14.
Definition kManualSetupChunk2DiscriminatorLsbitsPos : Z := 14.
Definition kManualSetupChunk2DiscriminatorLsbitsLength : Z := 2.
Definition kManualSetupChunk3PINCodeMsbitsPos : Z := 0.
Definition kManualSetupChunk3PINCodeMsbitsLength : Z := 13.

Definition kManualSetupShortCodeCharLength : Z := 10.
Definition kManualSetupLongCodeCharLength : Z := 20.
Definition kManualSetupCodeChunk1CharLength : nat := 1.
Definition kManualSetupCodeChunk2CharLength : nat := 5.
Definition kManualSetupCodeChunk3CharLength : nat := 4.
Definition kManualSetupVendorIdCharLength : nat := 5.
Definition kManualSetupProductIdCharLength : nat := 5.

Definition mask (bits : Z) : Z := 2 ^ bits - 1.

(** ** Generator *)

Definition chunk1PayloadRepresentation (payload : PayloadContents) : Z :=
  let kDiscriminatorShift := kManualSetupDiscriminatorFieldLengthInBits - kManualSetupChunk1DiscriminatorMsbitsLength in
  let discriminatorChunk := Z.land (Z.shiftr (GetShortValue (discriminator payload)) kDiscriminatorShift)
    (mask kManualSetupChunk1DiscriminatorMsbitsLength) in
  let vidPidPresentFlag := if commissioningFlow payload =? kStandard then 0 else 1 in
  u32 (Z.lor (Z.shiftl discriminatorChunk kManualSetupChunk1DiscriminatorMsbitsPos)
             (Z.shiftl vidPidPresentFlag kManualSetupChunk1VidPidPresentBitPos)).

Definition chunk2PayloadRepresentation (payload : PayloadContents) : Z :=
  let discriminatorChunk := Z.land (GetShortValue (discriminator payload)) (mask kManualSetupChunk2DiscriminatorLsbitsLength) in
  u32 (Z.lor (Z.shiftl (Z.land (setUpPINCode payload) (mask kManualSetupChunk2PINCodeLsbitsLength)) kManualSetupChunk2PINCodeLsbitsPos)
             (Z.shiftl discriminatorChunk kManualSetupChunk2DiscriminatorLsbitsPos)).

Definition chunk3PayloadRepresentation (payload : PayloadContents) : Z :=
  let kPincodeShift := kSetupPINCodeFieldLengthInBits - kManualSetupChunk3PINCodeMsbitsLength in
  u32 (Z.shiftl (Z.land (Z.shiftr (setUpPINCode payload) kPincodeShift) (mask kManualSetupChunk3PINCodeMsbitsLength))
         kManualSetupChunk3PINCodeMsbitsPos).

(** The decimal digits of an unsigned 32-bit number, of which there are at most ten. *)
Fixpoint dec_loop (fuel : nat) (number : Z) (acc : list Z) : list Z :=
  match fuel with
  | O => acc
  | S fuel =>
      let acc := (48 + number mod 10) :: acc in
      if number / 10 =? 0 then acc else dec_loop fuel (number / 10) acc
  end.

(** The text that snprintf makes of "%0*" PRIu32. *)
Definition zero_padded (len : nat) (number : Z) : list Z :=
  let s := dec_loop 10 number [] in replicate (len - length s) 48 ++ s.

(** For a buffer of [len + 1] characters. *)
Definition decimalStringWithPadding (len : nat) (number : Z) : chip_error + list Z :=
  let s := zero_padded len number in
  if Z.of_nat len + 1 <=? Z.of_nat (length s) then inl CHIP_ERROR_BUFFER_TOO_SMALL else inr s.

Notation "'let?' x ':=' o 'in' k" := (match o with inl e => inl e | inr x => k end)
  (at level 10, x name, o at level 100, k at level 200).

(** The code, when the buffer has [outSize] characters. *)
Definition payloadDecimalStringRepresentation (mAllowInvalidPayload mForceShortCode : bool)
    (payload : PayloadContents) (outSize : Z) : chip_error + list Z :=
  if negb mAllowInvalidPayload && negb (isValidManualCode payload) then inl CHIP_ERROR_INVALID_ARGUMENT
  else
    let useLongCode := negb (commissioningFlow payload =? kStandard) && negb mForceShortCode in
    if (useLongCode && (outSize <? kManualSetupLongCodeCharLength + 2)) ||
       (negb useLongCode && (outSize <? kManualSetupShortCodeCharLength + 2)) then inl CHIP_ERROR_BUFFER_TOO_SMALL
    else
      let? s1 := decimalStringWithPadding kManualSetupCodeChunk1CharLength (chunk1PayloadRepresentation payload) in
      let? s2 := decimalStringWithPadding kManualSetupCodeChunk2CharLength (chunk2PayloadRepresentation payload) in
      let? s3 := decimalStringWithPadding kManualSetupCodeChunk3CharLength (chunk3PayloadRepresentation payload) in
      let? s4 := (if useLongCode then
                    let? v := decimalStringWithPadding kManualSetupVendorIdCharLength (vendorID payload) in
                    let? p := decimalStringWithPadding kManualSetupProductIdCharLength (productID payload) in
                    inr (v ++ p)
                  else inr []) in
      let outBuffer := s1 ++ s2 ++ s3 ++ s4 in
      let checkDigit := CharToVal (ComputeCheckChar outBuffer) in
      let? c := decimalStringWithPadding 1 (u32 checkDigit) in
      inr (outBuffer ++ c).

(** ** Parser *)

(** What C sees of a string: the characters before the first NUL. *)
Fixpoint c_str (s : list Z) : list Z :=
  match s with
  | [] => []
  | c :: s => if c =? 0 then [] else c :: c_str s
  end.

Definition CheckDecimalStringValidity (decimalString : list Z) : chip_error + list Z :=
  if Z.of_nat (length decimalString) <? 2 then inl CHIP_ERROR_INVALID_STRING_LENGTH
  else
    let repWithoutCheckChar := take (length decimalString - 1) decimalString in
    let checkChar := List.last decimalString 0 in
    if ValidateCheckChar checkChar (c_str repWithoutCheckChar) then inr repWithoutCheckChar
    else inl CHIP_ERROR_INTEGRITY_CHECK_FAILED.

Definition CheckCodeLengthValidity (decimalString : list Z) (isLongCode : bool) : chip_error :=
  let expectedCharLength := if isLongCode then kManualSetupLongCodeCharLength else kManualSetupShortCodeCharLength in
  if Z.of_nat (length decimalString) =? expectedCharLength then CHIP_NO_ERROR else CHIP_ERROR_INVALID_STRING_LENGTH.

Definition isdigit (c : Z) : bool := (48 <=? c) && (c <=? 57).

Fixpoint number_loop (decimalString : list Z) (number : Z) : chip_error + Z :=
  match decimalString with
  | [] => inr number
  | c :: rest =>
      if isdigit c then number_loop rest (u32 (u32 (number * 10) + (c - 48)))
      else inl CHIP_ERROR_INVALID_INTEGER_VALUE
  end.

Definition ToNumber (decimalString : list Z) : chip_error + Z := number_loop decimalString 0.

(** The number and the index behind it; the index is moved on also when the digits are
    refused, but then it is not used again. *)
Definition ReadDigitsFromDecimalString (decimalString : list Z) (index numberOfCharsToRead : nat) : chip_error + Z * nat :=
  if (Z.of_nat (length decimalString) <? Z.of_nat numberOfCharsToRead) ||
     (Z.of_nat (length decimalString) <? Z.of_nat (numberOfCharsToRead + index)) then inl CHIP_ERROR_INVALID_STRING_LENGTH
  else
    let? n := ToNumber (take numberOfCharsToRead (drop index decimalString)) in
    inr (n, (index + numberOfCharsToRead)%nat).

(** The vendor and the product of a long code; the vendor is stored before the product
    is checked. *)
Definition read_vendor_product (s : list Z) (stringOffset : nat) (outPayload : PayloadContents) :
    chip_error * PayloadContents :=
  match ReadDigitsFromDecimalString s stringOffset kManualSetupVendorIdCharLength with
  | inl e => (e, outPayload)
  | inr (vendor, stringOffset) =>
      match ReadDigitsFromDecimalString s stringOffset kManualSetupProductIdCharLength with
      | inl e => (e, outPayload)
      | inr (product, _) =>
          if 0xFFFF <? vendor then (CHIP_ERROR_INVALID_INTEGER_VALUE, outPayload)
          else
            let outPayload := spset_vendorID (u16 vendor) outPayload in
            if 0xFFFF <? product then (CHIP_ERROR_INVALID_INTEGER_VALUE, outPayload)
            else (CHIP_NO_ERROR, spset_productID (u16 product) outPayload)
      end
  end.

Definition read_chunks (s : list Z) : chip_error + Z * Z * Z * nat :=
  let? r1 := ReadDigitsFromDecimalString s 0 kManualSetupCodeChunk1CharLength in
  let? r2 := ReadDigitsFromDecimalString s r1.2 kManualSetupCodeChunk2CharLength in
  let? r3 := ReadDigitsFromDecimalString s r2.2 kManualSetupCodeChunk3CharLength in
  inr (r1.1, r2.1, r3.1, r3.2).

Definition chunks_discriminator (chunk1 chunk2 : Z) : Z :=
  Z.lor (Z.land (Z.shiftr chunk2 kManualSetupChunk2DiscriminatorLsbitsPos) (mask kManualSetupChunk2DiscriminatorLsbitsLength))
    (u32 (Z.shiftl (Z.land (Z.shiftr chunk1 kManualSetupChunk1DiscriminatorMsbitsPos) (mask kManualSetupChunk1DiscriminatorMsbitsLength))
       kManualSetupChunk2DiscriminatorLsbitsLength)).

Definition chunks_pin (chunk2 chunk3 : Z) : Z :=
  Z.lor (Z.land (Z.shiftr chunk2 kManualSetupChunk2PINCodeLsbitsPos) (mask kManualSetupChunk2PINCodeLsbitsLength))
    (u32 (Z.shiftl (Z.land (Z.shiftr chunk3 kManualSetupChunk3PINCodeMsbitsPos) (mask kManualSetupChunk3PINCodeMsbitsLength))
       kManualSetupChunk2PINCodeLsbitsLength)).

Definition ManualSetupPayloadParser_populatePayload (mDecimalStringRepresentation : list Z) (outPayload : PayloadContents) :
    outcome (chip_error * PayloadContents) :=
  match CheckDecimalStringValidity mDecimalStringRepresentation with
  | inl e => Returns (e, outPayload)
  | inr s =>
      match read_chunks s with
      | inl e => Returns (e, outPayload)
      | inr (chunk1, chunk2, chunk3, stringOffset) =>
          if (chunk1 =? 8) || (chunk1 =? 9) then Returns (CHIP_ERROR_INVALID_ARGUMENT, outPayload)
          else
            let isLongCode := Z.land (Z.shiftr chunk1 kManualSetupChunk1VidPidPresentBitPos) 1 =? 1 in
            match CheckCodeLengthValidity s isLongCode with
            | CHIP_NO_ERROR =>
                let pin := chunks_pin chunk2 chunk3 in
                if pin =? 0 then Returns (CHIP_ERROR_INVALID_ARGUMENT, outPayload)
                else
                  match (if isLongCode then read_vendor_product s stringOffset outPayload else (CHIP_NO_ERROR, outPayload)) with
                  | (CHIP_NO_ERROR, outPayload) =>
                      let outPayload := spset_flow (if isLongCode then kCustom else kStandard) outPayload in
                      let outPayload := spset_pin pin outPayload in
                      let+ d := SetShortValue (u8 (chunks_discriminator chunk1 chunk2)) in
                      Returns (CHIP_NO_ERROR, spset_discriminator d outPayload)
                  | (e, outPayload) => Returns (e, outPayload)
                  end
            | e => Returns (e, outPayload)
            end
      end
  end.
