(* ===== verification/ManualCodeThm.v ===== *)
(** * Manual pairing code: round trip

    The parser reads back what the generator writes. *)

From S2P Require Import Prelude.
From S2P Require Import COutcome.
From S2P Require Import ChipError.
From S2P Require Import Verhoeff.
From S2P Require Import SetupPayload.
From S2P Require Import ManualCode.

(** ** Decimal numbers *)

Definition numval (l : list Z) (a : Z) : Z := fold_left (λ a c, a * 10 + (c - 48)) l a.

Lemma numval_app l m a : numval (l ++ m) a = numval m (numval l a).
Proof. apply fold_left_app. Qed.

Lemma numval_ge l a : Forall digit_char l → 0 <= a → a <= numval l a.
Proof.
  intros Hl. revert a. induction Hl as [|c l Hc _ IH]; intros a Ha; [done|]. cbn. unfold digit_char in Hc.
  etransitivity; [|apply IH; lia]. lia.
Qed.

Lemma numval_zeros n a : numval (replicate n 48) a = a * 10 ^ Z.of_nat n.
Proof.
  revert a. induction n as [|n IH]; intros a; cbn [replicate numval fold_left]; [cbn; lia|].
  fold (numval (replicate n 48) (a * 10 + (48 - 48))). rewrite IH. rewrite Nat2Z.inj_succ, Z.pow_succ_r by lia. lia.
Qed.

Lemma ToNumber_digits l a :
  Forall digit_char l → 0 <= a → numval l a < 2 ^ 32 → number_loop l a = inr (numval l a).
Proof.
  intros Hl. revert a. induction Hl as [|c l Hc Hl IH]; intros a Ha Hn; [done|]. cbn [number_loop numval fold_left] in *.
  pose proof (numval_ge l (a * 10 + (c - 48)) Hl) as Hge. unfold digit_char in Hc. specialize (Hge ltac:(lia)).
  unfold numval in Hge. unfold isdigit. rewrite !(proj2 (Z.leb_le _ _)) by lia. cbn [andb].
  rewrite (u32_id (a * 10)) by solve_width. rewrite u32_id by solve_width. rewrite IH by (unfold numval; lia). done.
Qed.

Lemma dec_loop_spec fuel n acc k :
  (0 < k <= fuel)%nat → 0 <= n < 10 ^ Z.of_nat k →
  ∃ s, dec_loop fuel n acc = s ++ acc ∧ (0 < length s <= k)%nat ∧ Forall digit_char s ∧ numval s 0 = n.
Proof.
  revert n acc k. induction fuel as [|fuel IH]; intros n acc k Hk Hn; [lia|]. cbn [dec_loop].
  assert (Hd : digit_char (48 + n mod 10)) by (unfold digit_char; pose proof (Z.mod_pos_bound n 10); lia).
  pose proof (Z.div_mod n 10 ltac:(lia)) as Hdm. pose proof (Z.mod_pos_bound n 10 ltac:(lia)).
  destruct (Z.eqb_spec (n / 10) 0) as [Hz|Hz].
  - exists [48 + n mod 10]. split_and!; [done|cbn; lia|cbn; lia|by constructor|cbn; lia].
  - destruct k as [|k]; [lia|]. rewrite Nat2Z.inj_succ, Z.pow_succ_r in Hn by lia.
    assert (0 < n / 10) by (pose proof (Z.div_pos n 10); lia).
    destruct k as [|k]; [cbn in Hn; lia|].
    destruct (IH (n / 10) ((48 + n mod 10) :: acc) (S k)) as (s&E&Hlen&Hs&Hv); [lia|lia|].
    exists (s ++ [48 + n mod 10]). rewrite E, <- app_assoc. split_and!; [done|rewrite length_app; cbn; lia..| |].
    + apply Forall_app. by split; [|constructor].
    + rewrite numval_app, Hv. cbn. lia.
Qed.

Lemma zero_padded_spec len n :
  (0 < len <= 10)%nat → 0 <= n < 10 ^ Z.of_nat len → n < 2 ^ 32 →
  length (zero_padded len n) = len ∧ Forall digit_char (zero_padded len n) ∧ ToNumber (zero_padded len n) = inr n.
Proof.
  intros Hl Hn Hb. unfold zero_padded. destruct (dec_loop_spec 10 n [] len) as (s&->&Hs&Hd&Hv); [lia|lia|].
  rewrite app_nil_r. assert (Hz : Forall digit_char (replicate (len - length s) 48 ++ s)).
  { apply Forall_app. split; [|done]. apply Forall_replicate. unfold digit_char. lia. }
  assert (Hnum : numval (replicate (len - length s) 48 ++ s) 0 = n) by (by rewrite numval_app, numval_zeros).
  split_and!; [rewrite length_app, length_replicate; lia|done|].
  unfold ToNumber. rewrite ToNumber_digits by (done || lia). by rewrite Hnum.
Qed.

Lemma zero_padded_digit c : digit c → zero_padded 1 c = [48 + c].
Proof. unfold digit. intros Hc. unfold zero_padded. cbn [dec_loop]. by rewrite Z.mod_small, Z.div_small by lia. Qed.

Lemma decimalString_ok len n :
  (0 < len <= 10)%nat → 0 <= n < 10 ^ Z.of_nat len → n < 2 ^ 32 →
  decimalStringWithPadding len n = inr (zero_padded len n).
Proof.
  intros Hl Hn Hb. unfold decimalStringWithPadding. destruct (zero_padded_spec len n) as (->&_); try done.
  by rewrite (proj2 (Z.leb_gt _ _)) by lia.
Qed.

Lemma ReadDigits_at pre len n rest :
  (0 < len <= 10)%nat → 0 <= n < 10 ^ Z.of_nat len → n < 2 ^ 32 →
  ReadDigitsFromDecimalString (pre ++ zero_padded len n ++ rest) (length pre) len = inr (n, (length pre + len)%nat).
Proof.
  intros Hl Hn Hb. destruct (zero_padded_spec len n) as (Hlen&_&Hnum); try done.
  unfold ReadDigitsFromDecimalString. rewrite !length_app, Hlen. rewrite !(proj2 (Z.ltb_ge _ _)) by lia. cbn [orb].
  rewrite drop_app_length, <- Hlen at 1. rewrite take_app_length, Hnum. done.
Qed.

(** ** Chunks *)

Section Chunks.
Context (p : PayloadContents).
Context (Hd : discriminator_ok (discriminator p)).
Context (Hpin : 0 < setUpPINCode p < 2 ^ 27).

Let d := GetShortValue (discriminator p).
Let long := if commissioningFlow p =? kStandard then 0 else 1.

Lemma chunk1_value : chunk1PayloadRepresentation p = d / 4 + 4 * long.
Proof.
  pose proof (GetShortValue_range _ Hd) as Hr. unfold chunk1PayloadRepresentation.
  change (kManualSetupDiscriminatorFieldLengthInBits - kManualSetupChunk1DiscriminatorMsbitsLength) with 2.
  unfold kManualSetupChunk1DiscriminatorMsbitsLength, kManualSetupChunk1DiscriminatorMsbitsPos,
    kManualSetupChunk1VidPidPresentBitPos, mask. fold d in Hr |- *. fold long.
  rewrite Z.shiftl_0_r, Z.shiftr_div_pow2, land_mod by lia. change (2 ^ 2) with 4.
  assert (0 <= d / 4 < 4) by (split; [apply Z.div_pos; lia|apply Z.div_lt_upper_bound; lia]).
  assert (0 <= long <= 1) by (unfold long; case_match; lia).
  rewrite Z.mod_small, Z.lor_comm, lor_shiftl_add by lia. rewrite u32_id by solve_width. lia.
Qed.

Lemma chunk2_value : chunk2PayloadRepresentation p = setUpPINCode p mod 2 ^ 14 + 2 ^ 14 * (d mod 4).
Proof.
  pose proof (GetShortValue_range _ Hd) as Hr. unfold chunk2PayloadRepresentation.
  unfold kManualSetupChunk2DiscriminatorLsbitsLength, kManualSetupChunk2PINCodeLsbitsLength,
    kManualSetupChunk2PINCodeLsbitsPos, kManualSetupChunk2DiscriminatorLsbitsPos, mask. fold d in Hr |- *.
  rewrite Z.shiftl_0_r, !land_mod by lia. change (2 ^ 2) with 4.
  pose proof (Z.mod_pos_bound (setUpPINCode p) (2 ^ 14) ltac:(lia)). pose proof (Z.mod_pos_bound d 4 ltac:(lia)).
  rewrite Z.lor_comm, lor_shiftl_add by lia. rewrite u32_id by solve_width. lia.
Qed.

Lemma chunk3_value : chunk3PayloadRepresentation p = setUpPINCode p / 2 ^ 14.
Proof.
  unfold chunk3PayloadRepresentation.
  change (kSetupPINCodeFieldLengthInBits - kManualSetupChunk3PINCodeMsbitsLength) with 14.
  unfold kManualSetupChunk3PINCodeMsbitsLength, kManualSetupChunk3PINCodeMsbitsPos, mask.
  rewrite Z.shiftl_0_r, Z.shiftr_div_pow2, land_mod by lia.
  assert (0 <= setUpPINCode p / 2 ^ 14 < 2 ^ 13) by (split; [apply Z.div_pos; lia|apply Z.div_lt_upper_bound; lia]).
  rewrite Z.mod_small by lia. apply u32_id. solve_width.
Qed.

Lemma chunk_ranges :
  0 <= d / 4 + 4 * long < 8 ∧ 0 <= setUpPINCode p mod 2 ^ 14 + 2 ^ 14 * (d mod 4) < 2 ^ 16 ∧
  0 <= setUpPINCode p / 2 ^ 14 < 2 ^ 13.
Proof.
  pose proof (GetShortValue_range _ Hd) as Hr. fold d in Hr.
  assert (0 <= d / 4 < 4) by (split; [apply Z.div_pos; lia|apply Z.div_lt_upper_bound; lia]).
  assert (0 <= long <= 1) by (unfold long; case_match; lia).
  pose proof (Z.mod_pos_bound (setUpPINCode p) (2 ^ 14) ltac:(lia)). pose proof (Z.mod_pos_bound d 4 ltac:(lia)).
  assert (0 <= setUpPINCode p / 2 ^ 14 < 2 ^ 13) by (split; [apply Z.div_pos; lia|apply Z.div_lt_upper_bound; lia]).
  lia.
Qed.

Lemma chunks_discriminator_value :
  chunks_discriminator (d / 4 + 4 * long) (setUpPINCode p mod 2 ^ 14 + 2 ^ 14 * (d mod 4)) = d.
Proof.
  pose proof (GetShortValue_range _ Hd) as Hr. fold d in Hr. unfold chunks_discriminator.
  unfold kManualSetupChunk2DiscriminatorLsbitsPos, kManualSetupChunk2DiscriminatorLsbitsLength,
    kManualSetupChunk1DiscriminatorMsbitsPos, kManualSetupChunk1DiscriminatorMsbitsLength, mask.
  rewrite Z.shiftr_0_r, Z.shiftr_div_pow2, !land_mod by lia. change (2 ^ 2) with 4.
  pose proof (Z.mod_pos_bound (setUpPINCode p) (2 ^ 14) ltac:(lia)). pose proof (Z.mod_pos_bound d 4 ltac:(lia)).
  assert (0 <= d / 4 < 4) by (split; [apply Z.div_pos; lia|apply Z.div_lt_upper_bound; lia]).
  rewrite (Z.mul_comm (2 ^ 14)), Z.div_add, Z.div_small by lia. rewrite Z.add_0_l, (Z.mod_small (d mod 4)) by lia.
  rewrite (Z.mul_comm 4), Z.mod_add, (Z.mod_small (d / 4)) by lia.
  rewrite u32_id by (rewrite Z.shiftl_mul_pow2 by lia; solve_width).
  rewrite Z.lor_comm, lor_shiftl_add by lia. pose proof (Z.div_mod d 4). lia.
Qed.

Lemma chunks_pin_value :
  chunks_pin (setUpPINCode p mod 2 ^ 14 + 2 ^ 14 * (d mod 4)) (setUpPINCode p / 2 ^ 14) = setUpPINCode p.
Proof.
  unfold chunks_pin, kManualSetupChunk2PINCodeLsbitsPos, kManualSetupChunk2PINCodeLsbitsLength,
    kManualSetupChunk3PINCodeMsbitsPos, kManualSetupChunk3PINCodeMsbitsLength, mask.
  rewrite !Z.shiftr_0_r, !land_mod by lia.
  pose proof (Z.mod_pos_bound (setUpPINCode p) (2 ^ 14) ltac:(lia)).
  assert (0 <= setUpPINCode p / 2 ^ 14 < 2 ^ 13) by (split; [apply Z.div_pos; lia|apply Z.div_lt_upper_bound; lia]).
  rewrite (Z.mul_comm (2 ^ 14)), Z.mod_add, Z.mod_mod by lia. rewrite (Z.mod_small (setUpPINCode p / 2 ^ 14)) by lia.
  rewrite u32_id by (rewrite Z.shiftl_mul_pow2 by lia; solve_width).
  rewrite Z.lor_comm, lor_shiftl_add by lia. pose proof (Z.div_mod (setUpPINCode p) (2 ^ 14)). lia.
Qed.

End Chunks.

(** ** The code *)

(** The widths of the fields of a payload. *)
Definition payload_widths (p : PayloadContents) : Prop :=
  in_u16 (vendorID p) ∧ in_u16 (productID p) ∧ in_u32 (setUpPINCode p) ∧ discriminator_ok (discriminator p).

Definition is_long (p : PayloadContents) : bool := negb (commissioningFlow p =? kStandard).

(** The digits in front of the check digit. *)
Definition code_digits (p : PayloadContents) : list Z :=
  zero_padded 1 (chunk1PayloadRepresentation p) ++ zero_padded 5 (chunk2PayloadRepresentation p) ++
  zero_padded 4 (chunk3PayloadRepresentation p) ++
  (if is_long p then zero_padded 5 (vendorID p) ++ zero_padded 5 (productID p) else []).

Section Code.
Context (p : PayloadContents).
Context (Hw : payload_widths p).
Context (Hpin : 0 < setUpPINCode p < 2 ^ 27).

Lemma field_ranges :
  0 <= chunk1PayloadRepresentation p < 8 ∧ 0 <= chunk2PayloadRepresentation p < 2 ^ 16 ∧
  0 <= chunk3PayloadRepresentation p < 2 ^ 13.
Proof.
  destruct Hw as (_&_&_&Hd). rewrite chunk1_value, chunk2_value, chunk3_value by done. by apply chunk_ranges.
Qed.

Lemma code_digits_spec :
  Forall digit_char (code_digits p) ∧ length (code_digits p) = if is_long p then 20%nat else 10%nat.
Proof.
  destruct Hw as (Hv&Hp&_&Hd). destruct field_ranges as (H1&H2&H3). unfold code_digits.
  destruct (zero_padded_spec 1 (chunk1PayloadRepresentation p)) as (L1&D1&_); [lia|cbn; lia|lia|].
  destruct (zero_padded_spec 5 (chunk2PayloadRepresentation p)) as (L2&D2&_); [lia|cbn; lia|lia|].
  destruct (zero_padded_spec 4 (chunk3PayloadRepresentation p)) as (L3&D3&_); [lia|cbn; lia|lia|].
  destruct (zero_padded_spec 5 (vendorID p)) as (L4&D4&_); [lia|cbn; solve_width|solve_width|].
  destruct (zero_padded_spec 5 (productID p)) as (L5&D5&_); [lia|cbn; solve_width|solve_width|].
  rewrite !Forall_app, !length_app, L1, L2, L3. destruct (is_long p).
  - rewrite Forall_app, length_app, L4, L5. by split_and!.
  - by split_and!.
Qed.

Lemma generated_code outSize :
  isValidManualCode p = true → (if is_long p then 22 else 12) <= outSize →
  payloadDecimalStringRepresentation false false p outSize =
    inr (code_digits p ++ [ComputeCheckChar (code_digits p)]).
Proof.
  intros Hvalid Hsize. destruct Hw as (Hv&Hp&_&Hd). destruct field_ranges as (H1&H2&H3).
  unfold payloadDecimalStringRepresentation. rewrite Hvalid. cbn [negb andb]. rewrite andb_true_r. fold (is_long p).
  assert (is_long p && (outSize <? kManualSetupLongCodeCharLength + 2) ||
    negb (is_long p) && (outSize <? kManualSetupShortCodeCharLength + 2) = false) as ->.
  { destruct (is_long p).
    - by rewrite (proj2 (Z.ltb_ge outSize (kManualSetupLongCodeCharLength + 2))) by (unfold kManualSetupLongCodeCharLength; lia).
    - by rewrite (proj2 (Z.ltb_ge outSize (kManualSetupShortCodeCharLength + 2))) by (unfold kManualSetupShortCodeCharLength; lia). }
  unfold kManualSetupCodeChunk1CharLength, kManualSetupCodeChunk2CharLength, kManualSetupCodeChunk3CharLength,
    kManualSetupVendorIdCharLength, kManualSetupProductIdCharLength.
  rewrite !decimalString_ok by (lia || (cbn; solve_width)).
  destruct code_digits_spec as [Hdc _]. pose proof (ComputeCheckChar_digit _ Hdc) as Hc.
  destruct (CharToVal_digit _ Hc) as [Hcv Hdig]. unfold digit in Hdig.
  assert (Hlast : decimalStringWithPadding 1 (u32 (CharToVal (ComputeCheckChar (code_digits p)))) =
    inr [ComputeCheckChar (code_digits p)]).
  { rewrite Hcv, u32_id by solve_width. rewrite decimalString_ok by (lia || (cbn; lia)).
    rewrite zero_padded_digit by done. do 2 f_equal. lia. }
  unfold code_digits in Hlast |- *. destruct (is_long p); by rewrite Hlast.
Qed.

Lemma read_chunks_code :
  read_chunks (code_digits p) =
    inr (chunk1PayloadRepresentation p, chunk2PayloadRepresentation p, chunk3PayloadRepresentation p, 10%nat).
Proof.
  destruct field_ranges as (H1&H2&H3). unfold read_chunks, code_digits.
  unfold kManualSetupCodeChunk1CharLength, kManualSetupCodeChunk2CharLength, kManualSetupCodeChunk3CharLength.
  destruct (zero_padded_spec 1 (chunk1PayloadRepresentation p)) as (L1&_); [lia|cbn; lia|lia|].
  destruct (zero_padded_spec 5 (chunk2PayloadRepresentation p)) as (L2&_); [lia|cbn; lia|lia|].
  set (s4 := if is_long p then _ else _). set (s1 := zero_padded 1 _) in *. set (s2 := zero_padded 5 _) in *.
  pose proof (ReadDigits_at [] 1 (chunk1PayloadRepresentation p)
    (s2 ++ zero_padded 4 (chunk3PayloadRepresentation p) ++ s4) ltac:(lia) ltac:(cbn; lia) ltac:(lia)) as E1.
  pose proof (ReadDigits_at s1 5 (chunk2PayloadRepresentation p)
    (zero_padded 4 (chunk3PayloadRepresentation p) ++ s4) ltac:(lia) ltac:(cbn; lia) ltac:(lia)) as E2.
  pose proof (ReadDigits_at (s1 ++ s2) 4 (chunk3PayloadRepresentation p) s4 ltac:(lia) ltac:(cbn; lia) ltac:(lia)) as E3.
  rewrite <- app_assoc in E3. rewrite length_app, L1, L2 in E3. rewrite L1 in E2. fold s1 in E1. fold s2 in E2.
  cbn [app length] in E1. rewrite E1. cbn [fst snd Nat.add] in *. rewrite E2. cbn [fst snd Nat.add] in *. by rewrite E3.
Qed.

Lemma read_vendor_product_code q :
  is_long p = true →
  read_vendor_product (code_digits p) 10 q = (CHIP_NO_ERROR, spset_productID (productID p) (spset_vendorID (vendorID p) q)).
Proof.
  intros Hlong. destruct Hw as (Hv&Hp&_&_). destruct field_ranges as (H1&H2&H3). unfold read_vendor_product, code_digits.
  rewrite Hlong. unfold kManualSetupVendorIdCharLength, kManualSetupProductIdCharLength.
  destruct (zero_padded_spec 1 (chunk1PayloadRepresentation p)) as (L1&_); [lia|cbn; lia|lia|].
  destruct (zero_padded_spec 5 (chunk2PayloadRepresentation p)) as (L2&_); [lia|cbn; lia|lia|].
  destruct (zero_padded_spec 4 (chunk3PayloadRepresentation p)) as (L3&_); [lia|cbn; lia|lia|].
  destruct (zero_padded_spec 5 (vendorID p)) as (L4&_); [lia|cbn; solve_width|solve_width|].
  set (s1 := zero_padded 1 _) in *. set (s2 := zero_padded 5 (chunk2PayloadRepresentation p)) in *. set (s3 := zero_padded 4 _) in *.
  pose proof (ReadDigits_at (s1 ++ s2 ++ s3) 5 (vendorID p) (zero_padded 5 (productID p)) ltac:(lia)
    ltac:(cbn; solve_width) ltac:(solve_width)) as E1.
  pose proof (ReadDigits_at (s1 ++ s2 ++ s3 ++ zero_padded 5 (vendorID p)) 5 (productID p) [] ltac:(lia)
    ltac:(cbn; solve_width) ltac:(solve_width)) as E2.
  rewrite app_nil_r, !length_app, L1, L2, L3, L4, <- !app_assoc in E2. rewrite !length_app, L1, L2, L3, <- !app_assoc in E1.
  cbn [Nat.add] in E1, E2. rewrite E1, E2. rewrite !(proj2 (Z.ltb_ge _ _)) by solve_width. by rewrite !u16_id.
Qed.

(** What the parser makes of a payload: a short discriminator, and one flow for all codes
    with a vendor. *)
Definition parsed (q : PayloadContents) : PayloadContents :=
  let q := if is_long p then spset_productID (productID p) (spset_vendorID (vendorID p) q) else q in
  spset_discriminator (mkDiscriminator (GetShortValue (discriminator p)) true)
    (spset_pin (setUpPINCode p) (spset_flow (if is_long p then kCustom else kStandard) q)).

Lemma c_str_digits s : Forall digit_char s → c_str s = s.
Proof.
  induction 1 as [|c s Hc _ IH]; [done|]. cbn [c_str]. unfold digit_char in Hc.
  rewrite (proj2 (Z.eqb_neq _ _)) by lia. by rewrite IH.
Qed.

(** A code of digits with a check digit that does not fit is refused, and nothing is stored. *)
Lemma parse_mistyped code q :
  Forall digit_char code → (2 <= length code)%nat → ValidateCheckChar_last code = false →
  ManualSetupPayloadParser_populatePayload code q = Returns (CHIP_ERROR_INTEGRITY_CHECK_FAILED, q).
Proof.
  destruct code as [|c str _] using rev_ind; intros Hd Hl Hv; [cbn in Hl; lia|].
  unfold ManualSetupPayloadParser_populatePayload, CheckDecimalStringValidity.
  rewrite (proj2 (Z.ltb_ge _ _)) by lia. apply Forall_app in Hd as [Hd _].
  rewrite length_app. cbn [length]. rewrite Nat.add_sub, take_app_length, last_last, c_str_digits by done.
  unfold ValidateCheckChar_last in Hv. rewrite rev_app_distr in Hv. cbn [rev app] in Hv. rewrite rev_involutive in Hv.
  by rewrite Hv.
Qed.

Lemma parse_code q :
  ManualSetupPayloadParser_populatePayload (code_digits p ++ [ComputeCheckChar (code_digits p)]) q =
    Returns (CHIP_NO_ERROR, parsed q).
Proof.
  destruct code_digits_spec as [Hdc Hlen]. unfold ManualSetupPayloadParser_populatePayload, CheckDecimalStringValidity.
  rewrite (proj2 (Z.ltb_ge _ _)) by (rewrite length_app, Hlen; destruct (is_long p); cbn; lia).
  replace (length (code_digits p ++ [ComputeCheckChar (code_digits p)]) - 1)%nat with (length (code_digits p))
    by (rewrite length_app; cbn; lia).
  rewrite take_app_length, last_last, c_str_digits by done. unfold ValidateCheckChar. rewrite Z.eqb_refl, read_chunks_code.
  destruct Hw as (_&_&_&Hd). pose proof (GetShortValue_range _ Hd) as Hr. destruct field_ranges as (H1&_).
  rewrite !(proj2 (Z.eqb_neq _ _)) by lia. cbn [orb].
  assert ((Z.land (Z.shiftr (chunk1PayloadRepresentation p) kManualSetupChunk1VidPidPresentBitPos) 1 =? 1) = is_long p) as ->.
  { rewrite chunk1_value by done. unfold kManualSetupChunk1VidPidPresentBitPos, is_long.
    rewrite Z.shiftr_div_pow2, (Z.mul_comm 4) by lia. change (2 ^ 2) with 4.
    rewrite Z.div_add, Z.div_div by lia. rewrite (Z.div_small _ (4 * 4)) by lia. by destruct (_ =? kStandard). }
  unfold CheckCodeLengthValidity. rewrite Hlen.
  assert ((Z.of_nat (if is_long p then 20 else 10) =?
    (if is_long p then kManualSetupLongCodeCharLength else kManualSetupShortCodeCharLength)) = true) as ->
    by (by destruct (is_long p)).
  rewrite chunk1_value, chunk2_value, chunk3_value by done. rewrite chunks_pin_value by done.
  rewrite (proj2 (Z.eqb_neq _ _)) by lia. rewrite chunks_discriminator_value by done.
  rewrite u8_id, SetShortValue_ok by (solve_width || lia). unfold parsed. destruct (is_long p) eqn:Hlong.
  - rewrite read_vendor_product_code by done. done.
  - done.
Qed.

End Code.

(** C34: The manual pairing code of a valid payload is read back by the parser: the passcode and the
    high bits of the discriminator, and, when the flow is not the standard one, the vendor and
    the product. A code with exactly one digit changed, or with two neighbours exchanged, is
    refused with the integrity error and nothing is stored. *)
Theorem manual_code_roundtrip p q outSize :
  payload_widths p → isValidManualCode p = true → (if is_long p then 22 else 12) <= outSize →
  ∃ code, payloadDecimalStringRepresentation false false p outSize = inr code ∧
    Z.of_nat (length code) = (if is_long p then 21 else 11) ∧
    ManualSetupPayloadParser_populatePayload code q = Returns (CHIP_NO_ERROR, parsed p q) ∧
    (∀ pre a post c, code = pre ++ a :: post → digit_char c → c ≠ a →
      ManualSetupPayloadParser_populatePayload (pre ++ c :: post) q = Returns (CHIP_ERROR_INTEGRITY_CHECK_FAILED, q)) ∧
    (∀ pre a b post, code = pre ++ a :: b :: post → a ≠ b →
      ManualSetupPayloadParser_populatePayload (pre ++ b :: a :: post) q = Returns (CHIP_ERROR_INTEGRITY_CHECK_FAILED, q)).
Proof.
  intros Hw Hvalid Hsize. assert (Hpin : 0 < setUpPINCode p < 2 ^ 27).
  { apply valid_pin_range; [apply Hw|]. unfold isValidManualCode, CheckPayloadCommonConstraints in Hvalid. by zbool. }
  destruct (code_digits_spec p Hw Hpin) as [Hdc Hlen]. pose proof (code_digit_chars _ Hdc) as Hd.
  eexists. split; [by apply generated_code|]. split; [rewrite length_app, Hlen; by destruct (is_long p)|].
  split; [by apply parse_code|]. assert (Hl2 : (2 <= length (code_digits p ++ [ComputeCheckChar (code_digits p)]))%nat)
    by (rewrite length_app, Hlen; destruct (is_long p); cbn; lia).
  split.
  - intros pre a post c E Hc Hne. rewrite E in Hd, Hl2. apply Forall_app in Hd as [Hpre [_ Hpost]%Forall_cons].
    apply parse_mistyped; [by apply Forall_app; split; [|constructor]|by rewrite length_app in *|].
    by eapply (changed_digit_found (code_digits p)).
  - intros pre a b post E Hne. rewrite E in Hd, Hl2.
    apply Forall_app in Hd as [Hpre [Ha [Hb Hpost]%Forall_cons]%Forall_cons].
    apply parse_mistyped; [by apply Forall_app; split; [|constructor; [|constructor]]|by rewrite length_app in *|].
    by eapply (swapped_digits_found (code_digits p)).
Qed.

Lemma manual_code_roundtrip_witness :
  let p := mkPayload 0 0xFFF1 0x8000 kCustom None (mkDiscriminator 3840 false) 20202021 in
  ∃ code, payloadDecimalStringRepresentation false false p 22 = inr code ∧
    Z.of_nat (length code) = 21 ∧
    ManualSetupPayloadParser_populatePayload code PayloadContents_new = Returns (CHIP_NO_ERROR, parsed p PayloadContents_new).
Proof.
  destruct (manual_code_roundtrip (mkPayload 0 0xFFF1 0x8000 kCustom None (mkDiscriminator 3840 false) 20202021)
    PayloadContents_new 22) as (code & Hgen & Hlen & Hparse & _).
  - unfold payload_widths, discriminator_ok. cbn [vendorID productID setUpPINCode discriminator mDiscriminator mIsShortDiscriminator kLongBits]. unfold kLongBits. solve_width.
  - vm_compute. reflexivity.
  - cbn. lia.
  - exists code. split; [exact Hgen|split; [exact Hlen|exact Hparse]].
Defined.
