(* ===== verification/Base38.v ===== *)
(** * Base 38

    The text form of the QR code payload: src/src/setup_payload/Base38.h,
    Base38Encode.cpp and Base38Decode.cpp. Three bytes make five characters, two bytes
    four, one byte two. Characters are their codes. *)

From S2P Require Import Prelude.
From S2P Require Import ChipError.
From S2P Require Import Endian.

Definition kCodes : list Z := [
  48; 49; 50; 51; 52; 53; 54; 55; 56; 57; 65; 66; 67; 68; 69; 70; 71; 72; 73;
  74; 75; 76; 77; 78; 79; 80; 81; 82; 83; 84; 85; 86; 87; 88; 89; 90; 45; 46].
Definition kBase38CharactersNeededInNBytesChunk : list Z := [2; 4; 5].
Definition kRadix : Z := 38.
Definition kMaxBytesSingleChunkLen : Z := 3.

(** ** Encoding *)

(** The loop that puts the bytes of a chunk together, from byte number [byte_idx] on. *)
Fixpoint chunk_value (bytes : list Z) (byte_idx value : Z) : Z :=
  match bytes with
  | [] => value
  | b :: rest => chunk_value rest (byte_idx + 1) (u32 (value + u32 (Z.shiftl b (8 * byte_idx))))
  end.

Fixpoint encode_chars (n : nat) (value : Z) : list Z :=
  match n with
  | O => []
  | S n => nth (Z.to_nat (value mod kRadix)) kCodes 0 :: encode_chars n (value / kRadix)
  end.

(** The characters written so far are [out], their number [out_idx]. *)
Fixpoint encode_loop (fuel : nat) (in_buf out : list Z) (out_size : Z) : chip_error * list Z :=
  match fuel, in_buf with
  | _, [] => (CHIP_NO_ERROR, out)
  | O, _ => (CHIP_ERROR_INTERNAL, out)
  | S fuel, _ =>
      let in_buf_len := Z.of_nat (length in_buf) in
      let bytesInChunk := if kMaxBytesSingleChunkLen <=? in_buf_len then kMaxBytesSingleChunkLen else in_buf_len in
      let value := chunk_value (take (Z.to_nat bytesInChunk) in_buf) 0 0 in
      let base38CharactersNeeded := nth (Z.to_nat (bytesInChunk - 1)) kBase38CharactersNeededInNBytesChunk 0 in
      if out_size <=? Z.of_nat (length out) + base38CharactersNeeded then (CHIP_ERROR_BUFFER_TOO_SMALL, out)
      else encode_loop fuel (drop (Z.to_nat bytesInChunk) in_buf)
             (out ++ encode_chars (Z.to_nat base38CharactersNeeded) value) out_size
  end.

(** The error and the text that the output span has at the end. *)
Definition base38Encode (in_buf : list Z) (out_size : Z) : chip_error * list Z :=
  let '(err, out) := encode_loop (length in_buf) in_buf [] out_size in
  if Z.of_nat (length out) <? out_size then (err, out) else (CHIP_ERROR_BUFFER_TOO_SMALL, out).

Definition base38EncodedLength (num_bytes : Z) : Z := num_bytes / 3 * 5 + num_bytes mod 3 * 2 + 1.

(** ** Decoding *)

Definition kBogus : Z := 255.
Definition decodes : list Z := [
  36; 37; kBogus; 0; 1; 2; 3; 4; 5; 6; 7; 8; 9; kBogus; kBogus; kBogus; kBogus; kBogus; kBogus; kBogus;
  10; 11; 12; 13; 14; 15; 16; 17; 18; 19; 20; 21; 22; 23; 24; 25; 26; 27; 28; 29; 30; 31; 32; 33; 34; 35].

Definition decodeChar (c : Z) : chip_error + Z :=
  if (c <? 45) || (90 <? c) then inl CHIP_ERROR_INVALID_INTEGER_VALUE
  else
    let v := nth (Z.to_nat (c - 45)) decodes 0 in
    if v =? kBogus then inl CHIP_ERROR_INVALID_INTEGER_VALUE else inr v.

(** The loop over the characters of a chunk, from the last to the first. *)
Fixpoint decode_chars (rev_chars : list Z) (value : Z) : chip_error + Z :=
  match rev_chars with
  | [] => inr value
  | c :: rest =>
      match decodeChar c with
      | inl err => inl err
      | inr v => decode_chars rest (u32 (u32 (value * kRadix) + v))
      end
  end.

(** The error and the contents of [result]. *)
Fixpoint decode_loop (fuel : nat) (base38 result : list Z) : chip_error * list Z :=
  match fuel, base38 with
  | _, [] => (CHIP_NO_ERROR, result)
  | O, _ => (CHIP_ERROR_INTERNAL, result)
  | S fuel, _ =>
      let base38CharactersNumber := Z.of_nat (length base38) in
      let chunk :=
        if 5 <=? base38CharactersNumber then Some (5, 3)
        else if base38CharactersNumber =? 4 then Some (4, 2)
        else if base38CharactersNumber =? 2 then Some (2, 1)
        else None in
      match chunk with
      | None => (CHIP_ERROR_INVALID_STRING_LENGTH, result)
      | Some (base38CharactersInChunk, bytesInDecodedChunk) =>
          match decode_chars (rev (take (Z.to_nat base38CharactersInChunk) base38)) 0 with
          | inl err => (err, result)
          | inr value =>
              let result := result ++ le_encode (Z.to_nat bytesInDecodedChunk) value in
              if 0 <? Z.shiftr value (8 * bytesInDecodedChunk) then (CHIP_ERROR_INVALID_ARGUMENT, result)
              else decode_loop fuel (drop (Z.to_nat base38CharactersInChunk) base38) result
          end
      end
  end.

Definition base38Decode (base38 : list Z) : chip_error * list Z := decode_loop (length base38) base38 [].

(** ** Characters *)

Lemma code_of_value v : 0 <= v < 38 → decodeChar (nth (Z.to_nat v) kCodes 0) = inr v.
Proof.
  intros Hv. assert (Hall : Forall (λ v, decodeChar (nth (Z.to_nat v) kCodes 0) = inr v) (seqZ 0 38))
    by (repeat constructor).
  rewrite Forall_forall in Hall. apply Hall, elem_of_seqZ. lia.
Qed.

Definition char_ok (c : Z) : bool :=
  match decodeChar c with
  | inl _ => true
  | inr v => (0 <=? v) && (v <? 38) && (nth (Z.to_nat v) kCodes 0 =? c)
  end.

(** Every character that is accepted stands for one value. *)
Lemma value_of_code c v : decodeChar c = inr v → 0 <= v < 38 ∧ nth (Z.to_nat v) kCodes 0 = c.
Proof.
  intros E. assert (Hc : 45 <= c < 91).
  { unfold decodeChar in E. destruct (c <? 45) eqn:E1; [done|]. destruct (90 <? c) eqn:E2; [done|]. zbool. lia. }
  assert (Hall : forallb char_ok (seqZ 45 46) = true) by (vm_compute; reflexivity).
  rewrite forallb_forall in Hall. specialize (Hall c). unfold char_ok in Hall. rewrite E in Hall.
  assert (Hin : In c (seqZ 45 46)) by (apply list_elem_of_In, elem_of_seqZ; lia).
  apply Hall in Hin. zbool. lia.
Qed.

(** ** Chunks *)

Lemma encode_chars_length n v : length (encode_chars n v) = n.
Proof. revert v. induction n as [|n IH]; intros v; cbn; [done|by rewrite IH]. Qed.

Lemma decode_chars_app l1 l2 a :
  decode_chars (l1 ++ l2) a = match decode_chars l1 a with inl err => inl err | inr v => decode_chars l2 v end.
Proof.
  revert a. induction l1 as [|c l1 IH]; intros a; cbn [app decode_chars]; [done|].
  destruct (decodeChar c); [done|]. apply IH.
Qed.

Lemma decode_chars_fails l a err : decode_chars l a = inl err → err ≠ CHIP_NO_ERROR.
Proof.
  revert a. induction l as [|c l IH]; intros a E; cbn [decode_chars] in E; [done|].
  destruct (decodeChar c) as [e|v] eqn:Ec; [|by eapply IH]. injection E as <-. unfold decodeChar in Ec.
  repeat (destruct (_ : bool) in Ec; [by injection Ec as <-|]). done.
Qed.

(** The digits of a value, read back. *)
Lemma decode_encode_chars n v :
  0 <= v < 38 ^ Z.of_nat n → v < 2 ^ 32 → decode_chars (rev (encode_chars n v)) 0 = inr v.
Proof.
  revert v. induction n as [|n IH]; intros v Hv H32; [f_equal; cbn in *; lia|].
  cbn [encode_chars rev]. rewrite decode_chars_app.
  rewrite Nat2Z.inj_succ, Z.pow_succ_r in Hv by lia. unfold kRadix.
  pose proof (Z.div_mod v 38 ltac:(lia)). pose proof (Z.mod_pos_bound v 38 ltac:(lia)).
  rewrite IH by nia. cbn [decode_chars]. rewrite code_of_value by done.
  unfold kRadix. rewrite (u32_id (v / 38 * 38)) by solve_width. rewrite u32_id by solve_width. f_equal. lia.
Qed.

(** A text that is accepted is made of the digits of its value. *)
Lemma encode_decode_chars l v :
  38 ^ Z.of_nat (length l) < 2 ^ 32 → decode_chars (rev l) 0 = inr v →
  0 <= v < 38 ^ Z.of_nat (length l) ∧ encode_chars (length l) v = l.
Proof.
  revert v. induction l as [|c l IH]; intros v Hl E; [cbn in *; injection E as <-; split; [lia|done]|].
  cbn [rev length] in *. rewrite Nat2Z.inj_succ, Z.pow_succ_r in * by lia.
  rewrite decode_chars_app in E. destruct (decode_chars (rev l) 0) as [|w] eqn:Ew; [done|].
  destruct (IH w ltac:(lia) eq_refl) as [Hw El]. cbn [decode_chars] in E.
  destruct (decodeChar c) as [|d] eqn:Ed; [done|]. destruct (value_of_code _ _ Ed) as [Hd Hc].
  unfold kRadix in E. rewrite (u32_id (w * 38)) in E by solve_width.
  rewrite u32_id in E by solve_width. injection E as <-.
  split; [lia|]. cbn [encode_chars]. unfold kRadix.
  replace ((w * 38 + d) mod 38) with d by (Z.div_mod_to_equations; lia).
  replace ((w * 38 + d) / 38) with w by (Z.div_mod_to_equations; lia). by rewrite Hc, El.
Qed.

Lemma chunk_value_le bytes :
  is_bytes bytes → (length bytes <= 3)%nat → chunk_value bytes 0 0 = le_decode bytes.
Proof.
  intros Hb Hl. unfold is_bytes in Hb. destruct bytes as [|b0 [|b1 [|b2 [|]]]]; cbn [length] in Hl; try lia;
    repeat match goal with H : Forall _ (_ :: _) |- _ => apply Forall_cons_1 in H; destruct H end;
    cbn [chunk_value le_decode]; rewrite ?Z.shiftl_mul_pow2 by lia;
    change (8 * 0) with 0; change (8 * (0 + 1)) with 8; change (8 * (0 + 1 + 1)) with 16;
    change (2 ^ 0) with 1; wrap_lia.
Qed.

Definition chars_of (nbytes : nat) : nat := Z.to_nat (nth (nbytes - 1) kBase38CharactersNeededInNBytesChunk 0).
Definition chunk_text (bytes : list Z) : list Z := encode_chars (chars_of (length bytes)) (le_decode bytes).

(** The reference: the text of a sequence of bytes, chunk by chunk. *)
Inductive text_of : list Z → list Z → Prop :=
| text_nil : text_of [] []
| text_last bytes : (1 <= length bytes <= 2)%nat → is_bytes bytes → text_of bytes (chunk_text bytes)
| text_chunk bytes rest text :
    length bytes = 3%nat → is_bytes bytes → text_of rest text →
    text_of (bytes ++ rest) (chunk_text bytes ++ text).

Lemma chunk_text_length bytes : length (chunk_text bytes) = chars_of (length bytes).
Proof. apply encode_chars_length. Qed.

Lemma decode_chunk_text bytes :
  is_bytes bytes → (1 <= length bytes <= 3)%nat → decode_chars (rev (chunk_text bytes)) 0 = inr (le_decode bytes).
Proof.
  intros Hb Hl. pose proof (le_decode_range _ Hb) as Hv. apply decode_encode_chars.
  - assert (Hc : length bytes = 1%nat ∨ length bytes = 2%nat ∨ length bytes = 3%nat) by lia.
    destruct Hc as [E|[E|E]]; rewrite E in *; (split; [apply Hv|]);
      (eapply Z.lt_trans; [apply Hv|reflexivity]).
  - eapply Z.lt_le_trans; [apply Hv|]. apply Z.pow_le_mono_r; lia.
Qed.

Lemma chars_of_pos nbytes : (1 <= nbytes <= 3)%nat → (1 <= chars_of nbytes)%nat.
Proof.
  intros Hn. assert (Hc : nbytes = 1%nat ∨ nbytes = 2%nat ∨ nbytes = 3%nat) by lia.
  destruct Hc as [-> | [-> | ->]]; apply Nat.leb_le; reflexivity.
Qed.

Lemma text_of_nil bytes : text_of bytes [] → bytes = [].
Proof.
  intros Ht. remember [] as text eqn:Et. destruct Ht as [|bytes Hl _|bytes rest text Hl _ _]; [done|..];
    apply (f_equal length) in Et; rewrite ?length_app, chunk_text_length in Et;
    pose proof (chars_of_pos (length bytes) ltac:(lia)); cbn [length] in Et; lia.
Qed.

Lemma text_of_total bytes : is_bytes bytes → ∃ text, text_of bytes text.
Proof.
  remember (length bytes) as n eqn:En. revert bytes En.
  induction (lt_wf n) as [n _ IH]. intros bytes -> Hb.
  destruct (decide (length bytes = 0%nat)) as [E|]; [destruct bytes; [eexists; constructor|done]|].
  destruct (decide (length bytes < 3)%nat); [eexists; apply text_last; [lia|done]|].
  destruct (IH (length (drop 3 bytes)) ltac:(rewrite length_drop; lia) (drop 3 bytes) eq_refl) as [text Ht];
    [by apply Forall_drop|].
  exists (chunk_text (take 3 bytes) ++ text). rewrite <- (take_drop 3 bytes) at 1.
  constructor; [rewrite length_take; lia|by apply Forall_take|done].
Qed.

Lemma text_of_bytes bytes text : text_of bytes text → is_bytes bytes.
Proof. induction 1; [constructor|done|by apply Forall_app]. Qed.

Lemma text_of_length bytes text :
  text_of bytes text → Z.of_nat (length text) = base38EncodedLength (Z.of_nat (length bytes)) - 1.
Proof.
  unfold base38EncodedLength. induction 1 as [|bytes Hl _|bytes rest text Hl _ _ IH]; [done| |].
  - rewrite chunk_text_length. assert (Hc : length bytes = 1%nat ∨ length bytes = 2%nat) by lia.
    by destruct Hc as [-> | ->].
  - rewrite !length_app, chunk_text_length, Hl, Nat2Z.inj_add, IH. cbn [chars_of]. 
    replace (Z.of_nat (chars_of 3)) with 5 by done. Z.div_mod_to_equations. lia.
Qed.

(** ** The loops *)

(** One turn of the encoder, on a whole chunk or on the last one. *)
Lemma encode_loop_chunk fuel bytes rest out out_size :
  is_bytes bytes → length bytes = 3%nat ∨ (1 <= length bytes <= 2)%nat ∧ rest = [] →
  encode_loop (S fuel) (bytes ++ rest) out out_size =
    if out_size <=? Z.of_nat (length out) + Z.of_nat (length (chunk_text bytes)) then (CHIP_ERROR_BUFFER_TOO_SMALL, out)
    else encode_loop fuel rest (out ++ chunk_text bytes) out_size.
Proof.
  intros Hb Hl. cbn [encode_loop].
  assert (Hne : bytes ++ rest ≠ []) by (intros [-> ->]%app_eq_nil; cbn in Hl; lia).
  assert (Hmin : (if kMaxBytesSingleChunkLen <=? Z.of_nat (length (bytes ++ rest)) then kMaxBytesSingleChunkLen
      else Z.of_nat (length (bytes ++ rest))) = Z.of_nat (length bytes)).
  { unfold kMaxBytesSingleChunkLen. rewrite length_app. zcase; destruct Hl as [Hl|[Hl ->]]; cbn [length] in *; lia. }
  rewrite Hmin, Nat2Z.id, take_app_length, drop_app_length, chunk_value_le by (done || lia).
  replace (Z.to_nat (Z.of_nat (length bytes) - 1)) with (length bytes - 1)%nat by lia.
  rewrite chunk_text_length. unfold chunk_text, chars_of.
  assert (Hn : 0 <= nth (length bytes - 1) kBase38CharactersNeededInNBytesChunk 0).
  { assert (Hc : (length bytes - 1 = 0 ∨ length bytes - 1 = 1 ∨ length bytes - 1 = 2)%nat) by lia.
    destruct Hc as [-> | [-> | ->]]; cbn; lia. }
  rewrite Z2Nat.id by done. destruct (bytes ++ rest); done.
Qed.

Lemma encode_loop_text bytes text :
  text_of bytes text → ∀ fuel out out_size, (length bytes <= fuel)%nat →
  (Z.of_nat (length out) + Z.of_nat (length text) < out_size →
    encode_loop fuel bytes out out_size = (CHIP_NO_ERROR, out ++ text)) ∧
  (bytes ≠ [] → out_size <= Z.of_nat (length out) + Z.of_nat (length text) →
    (encode_loop fuel bytes out out_size).1 = CHIP_ERROR_BUFFER_TOO_SMALL).
Proof.
  induction 1 as [|bytes Hl Hb|bytes rest text Hl Hb Ht IH]; intros fuel out out_size Hf.
  - split; [|done]. intros _. rewrite app_nil_r. by destruct fuel.
  - destruct fuel as [|fuel]; [lia|]. rewrite <- (app_nil_r bytes), !encode_loop_chunk by auto.
    rewrite !app_nil_r. split; intros; zcase; try lia; try done. by destruct fuel.
  - rewrite length_app in Hf. destruct fuel as [|fuel]; [lia|]. rewrite !encode_loop_chunk by auto.
    destruct (IH fuel (out ++ chunk_text bytes) out_size ltac:(lia)) as [IH1 IH2].
    rewrite length_app in *. split; intros; zcase; try lia; try done.
    + rewrite IH1 by lia. by rewrite <- app_assoc.
    + destruct Ht; cbn [length] in *; [lia|..]; apply IH2; try lia;
        intros E; apply (f_equal length) in E; rewrite ?length_app in E; cbn in *; lia.
Qed.

(** One turn of the decoder. *)
Lemma decode_loop_chunk fuel bytes rest result :
  is_bytes bytes → length bytes = 3%nat ∨ (1 <= length bytes <= 2)%nat ∧ rest = [] →
  decode_loop (S fuel) (chunk_text bytes ++ rest) result = decode_loop fuel rest (result ++ bytes).
Proof.
  intros Hb Hl. cbn [decode_loop].
  assert (Hc : length bytes = 3%nat ∨ (length bytes = 1%nat ∨ length bytes = 2%nat) ∧ rest = []) by (destruct Hl as [|[]]; [auto|right; split; [lia|done]]).
  assert (Hchunk : (if 5 <=? Z.of_nat (length (chunk_text bytes ++ rest)) then Some (5, 3)
      else if Z.of_nat (length (chunk_text bytes ++ rest)) =? 4 then Some (4, 2)
      else if Z.of_nat (length (chunk_text bytes ++ rest)) =? 2 then Some (2, 1) else None)
    = Some (Z.of_nat (length (chunk_text bytes)), Z.of_nat (length bytes))).
  { rewrite length_app, chunk_text_length. destruct Hc as [-> | [[-> | ->] ->]]; [|done|done].
    change (chars_of 3) with 5%nat. by rewrite (proj2 (Z.leb_le _ _)) by lia. }
  rewrite Hchunk, !Nat2Z.id, take_app_length, drop_app_length.
  rewrite decode_chunk_text by (done || lia). rewrite le_encode_decode by done.
  pose proof (le_decode_range _ Hb). rewrite Z.shiftr_div_pow2, Z.div_small by lia.
  assert (chunk_text bytes ++ rest ≠ []).
  { intros E. apply (f_equal length) in E. rewrite length_app, chunk_text_length in E.
    destruct Hc as [Hc|[[Hc|Hc] _]]; rewrite Hc in E; done. }
  destruct (chunk_text bytes ++ rest); done.
Qed.

Lemma decode_loop_text bytes text :
  text_of bytes text → ∀ fuel result, (length text <= fuel)%nat →
  decode_loop fuel text result = (CHIP_NO_ERROR, result ++ bytes).
Proof.
  induction 1 as [|bytes Hl Hb|bytes rest text Hl Hb Ht IH]; intros fuel result Hf.
  - rewrite app_nil_r. by destruct fuel.
  - assert (Hc : length bytes = 1%nat ∨ length bytes = 2%nat) by lia.
    rewrite chunk_text_length in Hf.
    destruct fuel as [|fuel]; [destruct Hc as [Hc|Hc]; rewrite Hc in Hf; cbv in Hf; lia|].
    rewrite <- (app_nil_r (chunk_text bytes)), decode_loop_chunk by auto. by destruct fuel.
  - rewrite length_app, chunk_text_length, Hl in Hf. change (chars_of 3) with 5%nat in Hf.
    destruct fuel as [|fuel]; [lia|]. rewrite decode_loop_chunk by auto. rewrite IH by lia.
    by rewrite <- app_assoc.
Qed.

(** The characters of a chunk that is accepted are the text of its bytes. *)
Lemma accepted_chunk (nbytes : nat) chars v :
  (1 <= nbytes <= 3)%nat → length chars = chars_of nbytes → decode_chars (rev chars) 0 = inr v →
  (0 <? Z.shiftr v (8 * Z.of_nat nbytes)) = false → chunk_text (le_encode nbytes v) = chars.
Proof.
  intros Hn Hl E Hv. unfold chunk_text. rewrite le_encode_length, le_decode_encode, <- Hl.
  assert (Hp : 38 ^ Z.of_nat (length chars) < 2 ^ 32).
  { rewrite Hl. assert (Hc : nbytes = 1%nat ∨ nbytes = 2%nat ∨ nbytes = 3%nat) by lia.
    destruct Hc as [-> | [-> | ->]]; reflexivity. }
  destruct (encode_decode_chars _ _ Hp E) as [Hr Hc].
  rewrite Z.shiftr_div_pow2 in Hv by lia. zbool.
  assert (v < 2 ^ (8 * Z.of_nat nbytes)).
  { assert (0 < 2 ^ (8 * Z.of_nat nbytes)) by lia. Z.div_mod_to_equations. nia. }
  by rewrite Z.mod_small by lia.
Qed.

(** One turn of the decoder that is not the last: the chunk it has taken. *)
Lemma decode_loop_step fuel text result r :
  text ≠ [] → decode_loop (S fuel) text result = (CHIP_NO_ERROR, r) →
  ∃ nbytes v, (1 <= nbytes <= 3)%nat ∧ (chars_of nbytes <= length text)%nat ∧
    (nbytes = 3%nat ∨ length text = chars_of nbytes) ∧
    chunk_text (le_encode nbytes v) = take (chars_of nbytes) text ∧
    decode_loop fuel (drop (chars_of nbytes) text) (result ++ le_encode nbytes v) = (CHIP_NO_ERROR, r).
Proof.
  intros Hne E. cbn [decode_loop] in E. destruct text as [|c0 text0] eqn:Etext; [done|]. rewrite <- Etext in *.
  assert (Hpick : ∃ nbytes, (1 <= nbytes <= 3)%nat ∧ (chars_of nbytes <= length text)%nat ∧
      (nbytes = 3%nat ∨ length text = chars_of nbytes) ∧
      match decode_chars (rev (take (chars_of nbytes) text)) 0 with
      | inl err => (err, result)
      | inr value =>
          if 0 <? Z.shiftr value (8 * Z.of_nat nbytes) then (CHIP_ERROR_INVALID_ARGUMENT, result ++ le_encode nbytes value)
          else decode_loop fuel (drop (chars_of nbytes) text) (result ++ le_encode nbytes value)
      end = (CHIP_NO_ERROR, r)).
  { destruct (5 <=? _) eqn:E5 in E; [exists 3%nat|destruct (_ =? 4) eqn:E4 in E; [exists 2%nat|
      destruct (_ =? 2) eqn:E2 in E; [exists 1%nat|done]]]; zbool;
      (split; [lia|]); (split; [cbv [chars_of nth kBase38CharactersNeededInNBytesChunk]; cbn; lia|]);
      (split; [cbv [chars_of nth kBase38CharactersNeededInNBytesChunk]; cbn; lia|exact E]). }
  destruct Hpick as (nbytes & Hn & Hle & Hlast & Hd). exists nbytes.
  destruct (decode_chars _ _) as [err|v] eqn:Ev; [injection Hd as ->|].
  { by destruct (decode_chars_fails _ _ _ Ev). }
  destruct (0 <? _) eqn:Es in Hd; [done|]. exists v. do 3 (split; [done|]). split; [|done].
  apply accepted_chunk; try done. rewrite length_take. lia.
Qed.

Lemma decode_loop_inv fuel text result r :
  (length text <= fuel)%nat → decode_loop fuel text result = (CHIP_NO_ERROR, r) →
  ∃ bytes, r = result ++ bytes ∧ text_of bytes text.
Proof.
  revert text result. induction fuel as [|fuel IH]; intros text result Hf E;
    (destruct (decide (text = [])) as [-> | Hne];
      [injection E as <-; exists []; rewrite app_nil_r; split; [done|constructor]|]).
  { destruct text; cbn in *; [done|lia]. }
  destruct (decode_loop_step _ _ _ _ Hne E) as (nbytes & v & Hn & Hle & Hlast & Hc & Hd).
  pose proof (chars_of_pos nbytes Hn) as Hpos.
  destruct (IH (drop (chars_of nbytes) text) _ ltac:(rewrite length_drop; lia) Hd) as (rest & -> & Hrest).
  exists (le_encode nbytes v ++ rest). split; [by rewrite app_assoc|].
  rewrite <- (take_drop (chars_of nbytes) text), <- Hc. destruct Hlast as [-> | Hlast].
  { constructor; [apply le_encode_length|apply le_encode_bytes|done]. }
  rewrite drop_ge in Hrest |- * by lia. rewrite (text_of_nil _ Hrest), !app_nil_r.
  destruct (decide (nbytes = 3%nat)) as [-> | Hn3].
  - rewrite <- (app_nil_r (le_encode 3 v)), <- (app_nil_r (chunk_text _)).
    rewrite (app_nil_r (le_encode 3 v)) at 2.
    constructor; [apply le_encode_length|apply le_encode_bytes|constructor].
  - constructor; [rewrite le_encode_length; lia|apply le_encode_bytes].
Qed.

(** ** The text form is faithful *)

Lemma base38Encode_text bytes text out_size :
  text_of bytes text → Z.of_nat (length text) < out_size → base38Encode bytes out_size = (CHIP_NO_ERROR, text).
Proof.
  intros Ht Hs. unfold base38Encode.
  destruct (encode_loop_text bytes text Ht (length bytes) [] out_size (le_n _)) as [Hfit _].
  rewrite Hfit by (cbn [length]; lia).
  cbn [app]. by rewrite (proj2 (Z.ltb_lt _ _)) by done.
Qed.

Lemma base38Encode_small bytes text out_size :
  text_of bytes text → out_size <= Z.of_nat (length text) →
  (base38Encode bytes out_size).1 = CHIP_ERROR_BUFFER_TOO_SMALL.
Proof.
  intros Ht Hs. unfold base38Encode. destruct (decide (bytes = [])) as [-> | Hne].
  - inversion Ht as [Ht'|? Hl|? ? ? Hl ? ? E]; subst; cbn in *; try lia.
    + by rewrite (proj2 (Z.ltb_ge _ _)) by lia.
    + apply app_eq_nil in E as [-> ->]. done.
  - destruct (encode_loop_text bytes text Ht (length bytes) [] out_size (le_n _)) as [_ Hsmall].
    specialize (Hsmall Hne Hs). destruct (encode_loop _ _ _ _) as [err out]. cbn in Hsmall. subst. by zcase.
Qed.

(** base 38 is a faithful text form of byte strings. The encoder fails with
    BUFFER_TOO_SMALL exactly when the output span is shorter than
    [base38EncodedLength]; otherwise it writes that many characters less the
    terminator, which the decoder turns back into the same bytes. And every text that
    the decoder accepts is the one that the encoder writes for its bytes. *)
Theorem base38_roundtrip bytes out_size :
  is_bytes bytes →
  (if out_size <? base38EncodedLength (Z.of_nat (length bytes))
   then (base38Encode bytes out_size).1 = CHIP_ERROR_BUFFER_TOO_SMALL
   else ∃ text, base38Encode bytes out_size = (CHIP_NO_ERROR, text) ∧
     Z.of_nat (length text) = base38EncodedLength (Z.of_nat (length bytes)) - 1 ∧
     base38Decode text = (CHIP_NO_ERROR, bytes) ∧
     ∀ text', base38Decode text' = (CHIP_NO_ERROR, bytes) → text' = text).
Proof.
  intros Hb. destruct (text_of_total _ Hb) as [text Ht]. pose proof (text_of_length _ _ Ht) as Hlen.
  zcase; [eapply base38Encode_small; [exact Ht|lia]|]. exists text.
  assert (He : base38Encode bytes out_size = (CHIP_NO_ERROR, text)) by (apply base38Encode_text; [done|lia]).
  split; [done|]. split; [done|]. split; [by apply (decode_loop_text _ _ Ht)|].
  intros text' Hd. apply decode_loop_inv in Hd as (bytes' & Heq & Ht'); [|done]. cbn in Heq. subst bytes'.
  pose proof (text_of_length _ _ Ht') as Hlen'.
  rewrite (base38Encode_text _ _ out_size Ht') in He by lia. by injection He.
Qed.

Lemma base38_roundtrip_witness :
  base38Encode [10; 10; 10; 255] 8 = (CHIP_NO_ERROR, [45; 78; 46; 66; 48; 82; 54]) ∧
  (∀ text', base38Decode text' = (CHIP_NO_ERROR, [10; 10; 10; 255]) → text' = [45; 78; 46; 66; 48; 82; 54]).
Proof.
  destruct (base38_roundtrip [10; 10; 10; 255] 8) as (text & He & _ & _ & Hinj).
  - repeat (apply Forall_cons_2; [unfold in_u8; lia|]). apply Forall_nil_2.
  - vm_compute in He. injection He as <-. split; [reflexivity|exact Hinj].
Defined.
