(* ===== verification/QrCode.v ===== *)
(** * QR code

    The optional data of a payload, and the QR code with its generator and parser:
    src/src/setup_payload/SetupPayload.cpp, QRCodeSetupPayloadGenerator.cpp and
    QRCodeSetupPayloadParser.cpp. The payload is packed into bits, optional data follows
    as TLV, and the bytes are written in base 38 behind a prefix. *)

From S2P Require Import Prelude.
From S2P Require Import COutcome.
From S2P Require Import ChipError.
From S2P Require Import TlvTypes.
From S2P Require Import TlvWriter.
From S2P Require Import TlvReader.
From S2P Require Import SetupPayload.
From S2P Require Import ManualCode.
From S2P Require Import Base38.

#[local] Open Scope reader_scope.

(** ** Ordered maps

    [std::map] with integer keys: its entries in the order of their keys. *)
Section Maps.
Context {A : Type}.

Fixpoint map_find (k : Z) (m : list (Z * A)) : option A :=
  match m with
  | [] => None
  | (k', v) :: m => if k =? k' then Some v else map_find k m
  end.

Fixpoint map_set (k : Z) (v : A) (m : list (Z * A)) : list (Z * A) :=
  match m with
  | [] => [(k, v)]
  | (k', v') :: m' =>
      if k <? k' then (k, v) :: m
      else if k =? k' then (k, v) :: m'
      else (k', v') :: map_set k v m'
  end.

Fixpoint map_erase (k : Z) (m : list (Z * A)) : list (Z * A) :=
  match m with
  | [] => []
  | (k', v) :: m => if k =? k' then m else (k', v) :: map_erase k m
  end.

End Maps.

(** ** Optional data *)

Inductive optionalQRCodeInfoType :=
| optionalQRCodeInfoTypeUnknown
| optionalQRCodeInfoTypeString
| optionalQRCodeInfoTypeInt32
| optionalQRCodeInfoTypeInt64
| optionalQRCodeInfoTypeUInt32
| optionalQRCodeInfoTypeUInt64.

Record OptionalQRCodeInfo := mkInfo {
  info_tag : Z;
  info_type : optionalQRCodeInfoType;
  info_data : list Z;
  info_int32 : Z
}.

Record OptionalQRCodeInfoExtension := mkExtension {
  ext_info : OptionalQRCodeInfo;
  ext_int64 : Z;
  ext_uint32 : Z;
  ext_uint64 : Z
}.

Record SetupPayload := mkSetupPayload {
  contents : PayloadContents;
  optionalVendorData : list (Z * OptionalQRCodeInfo);
  optionalExtensionData : list (Z * OptionalQRCodeInfoExtension)
}.

Definition SetupPayload_new : SetupPayload := mkSetupPayload PayloadContents_new [] [].

Definition set_contents f sp := mkSetupPayload (f (contents sp)) (optionalVendorData sp) (optionalExtensionData sp).
Definition set_vendor v sp := mkSetupPayload (contents sp) v (optionalExtensionData sp).
Definition set_extension v sp := mkSetupPayload (contents sp) (optionalVendorData sp) v.

Definition kSerialNumberTag : Z := 0x00.
Definition IsCommonTag (tag : Z) : bool := tag <? 0x80.
Definition IsVendorTag (tag : Z) : bool := negb (IsCommonTag tag).

Definition addOptionalVendorData (info : OptionalQRCodeInfo) (sp : SetupPayload) : chip_error * SetupPayload :=
  if IsVendorTag (info_tag info)
  then (CHIP_NO_ERROR, set_vendor (map_set (info_tag info) info (optionalVendorData sp)) sp)
  else (CHIP_ERROR_INVALID_ARGUMENT, sp).

Definition addOptionalVendorData_string (tag : Z) (data : list Z) : SetupPayload → chip_error * SetupPayload :=
  addOptionalVendorData (mkInfo tag optionalQRCodeInfoTypeString data 0).

Definition addOptionalVendorData_int (tag data : Z) : SetupPayload → chip_error * SetupPayload :=
  addOptionalVendorData (mkInfo tag optionalQRCodeInfoTypeInt32 [] data).

Definition getAllOptionalVendorData (sp : SetupPayload) : list OptionalQRCodeInfo := map snd (optionalVendorData sp).

Definition removeOptionalVendorData (tag : Z) (sp : SetupPayload) : chip_error * SetupPayload :=
  match map_find tag (optionalVendorData sp) with
  | Some _ => (CHIP_NO_ERROR, set_vendor (map_erase tag (optionalVendorData sp)) sp)
  | None => (CHIP_ERROR_KEY_NOT_FOUND, sp)
  end.

Definition getOptionalVendorData (tag : Z) (sp : SetupPayload) : chip_error + OptionalQRCodeInfo :=
  match map_find tag (optionalVendorData sp) with
  | Some info => inr info
  | None => inl CHIP_ERROR_KEY_NOT_FOUND
  end.

Definition addOptionalExtensionData (info : OptionalQRCodeInfoExtension) (sp : SetupPayload) :
    chip_error * SetupPayload :=
  let tag := info_tag (ext_info info) in
  if IsCommonTag tag
  then (CHIP_NO_ERROR, set_extension (map_set tag info (optionalExtensionData sp)) sp)
  else (CHIP_ERROR_INVALID_ARGUMENT, sp).

Definition addSerialNumber_string (serialNumber : list Z) : SetupPayload → chip_error * SetupPayload :=
  addOptionalExtensionData
    (mkExtension (mkInfo kSerialNumberTag optionalQRCodeInfoTypeString serialNumber 0) 0 0 0).

Definition addSerialNumber_uint (serialNumber : Z) : SetupPayload → chip_error * SetupPayload :=
  addOptionalExtensionData
    (mkExtension (mkInfo kSerialNumberTag optionalQRCodeInfoTypeUInt32 [] 0) 0 serialNumber 0).

Definition removeSerialNumber (sp : SetupPayload) : chip_error * SetupPayload :=
  match map_find kSerialNumberTag (optionalExtensionData sp) with
  | Some _ => (CHIP_NO_ERROR, set_extension (map_erase kSerialNumberTag (optionalExtensionData sp)) sp)
  | None => (CHIP_ERROR_KEY_NOT_FOUND, sp)
  end.

Definition getOptionalExtensionData (tag : Z) (sp : SetupPayload) : chip_error + OptionalQRCodeInfoExtension :=
  match map_find tag (optionalExtensionData sp) with
  | Some info => inr info
  | None => inl CHIP_ERROR_KEY_NOT_FOUND
  end.

(** [std::to_string] of a number. *)
Definition getSerialNumber (sp : SetupPayload) : chip_error + list Z :=
  let? info := getOptionalExtensionData kSerialNumberTag sp in
  match info_type (ext_info info) with
  | optionalQRCodeInfoTypeString => inr (info_data (ext_info info))
  | optionalQRCodeInfoTypeUInt32 => inr (zero_padded 1 (ext_uint32 info))
  | _ => inl CHIP_ERROR_INVALID_ARGUMENT
  end.

Definition getNumericTypeFor (tag : Z) : optionalQRCodeInfoType :=
  if IsVendorTag tag then optionalQRCodeInfoTypeInt32
  else if tag =? kSerialNumberTag then optionalQRCodeInfoTypeUInt32
  else optionalQRCodeInfoTypeUnknown.

Definition getAllOptionalExtensionData (sp : SetupPayload) : list OptionalQRCodeInfoExtension :=
  map snd (optionalExtensionData sp).

(** ** Fields *)

Definition kVersionFieldLengthInBits : Z := 3.
Definition kVendorIDFieldLengthInBits : Z := 16.
Definition kProductIDFieldLengthInBits : Z := 16.
Definition kCommissioningFlowFieldLengthInBits : Z := 2.
Definition kRendezvousInfoFieldLengthInBits : Z := 8.
Definition kPayloadDiscriminatorFieldLengthInBits : Z := kLongBits.
Definition kPaddingFieldLengthInBits : Z := 4.
Definition kTotalPayloadDataSizeInBits : Z :=
  kVersionFieldLengthInBits + kVendorIDFieldLengthInBits + kProductIDFieldLengthInBits +
  kCommissioningFlowFieldLengthInBits + kRendezvousInfoFieldLengthInBits + kPayloadDiscriminatorFieldLengthInBits +
  kSetupPINCodeFieldLengthInBits + kPaddingFieldLengthInBits.
Definition kTotalPayloadDataSizeInBytes : Z := kTotalPayloadDataSizeInBits / 8.
(** "MT:" *)
Definition kQRCodePrefix : list Z := [77; 84; 58].

(** ** Generator *)

(** The loop of [populateBits]: the bits of [input] from bit number [index] on. An input
    of 64 bits is 0 after 64 turns. *)
Fixpoint populate_loop (fuel : nat) (bits : list Z) (index input : Z) : outcome (list Z) :=
  if input =? 0 then Returns bits
  else
    match fuel with
    | O => Crashes NoReturn
    | S fuel =>
        let+ bits :=
          if ctrue (Z.land input 1) then
            let mask := u8 (Z.shiftl 1 (index mod 8)) in
            match bits !! Z.to_nat (index / 8) with
            | Some b => Returns (<[Z.to_nat (index / 8) := u8 (Z.lor b mask)]> bits)
            | None => Crashes OutOfBounds
            end
          else Returns bits in
        populate_loop fuel bits (index + 1) (Z.shiftr input 1)
    end.

(** The error, the bits and the offset. *)
Definition populateBits (bits : list Z) (offset input numberOfBits totalPayloadDataSizeInBits : Z) :
    outcome (chip_error * list Z * Z) :=
  if negb (offset + numberOfBits <=? totalPayloadDataSizeInBits) then Returns (CHIP_ERROR_INVALID_ARGUMENT, bits, offset)
  else if negb (input <? u32 (Z.shiftl 1 numberOfBits)) then Returns (CHIP_ERROR_INVALID_ARGUMENT, bits, offset)
  else
    let+ bits := populate_loop 64 bits offset input in
    Returns (CHIP_NO_ERROR, bits, offset + numberOfBits).

(** Calls of [populateBits] one after the other, up to the first that fails. *)
Fixpoint populate_fields (fields : list (Z * Z)) (total : Z) (bits : list Z) (offset : Z) :
    outcome (chip_error * list Z * Z) :=
  match fields with
  | [] => Returns (CHIP_NO_ERROR, bits, offset)
  | (input, numberOfBits) :: fields =>
      let+ (err, bits, offset) := populateBits bits offset input numberOfBits total in
      match err with
      | CHIP_NO_ERROR => populate_fields fields total bits offset
      | _ => Returns (err, bits, offset)
      end
  end.

Definition populateTLVBits (bits : list Z) (offset : Z) (tlvBuf : list Z) (totalPayloadDataSizeInBits : Z) :
    outcome (chip_error * list Z * Z) :=
  populate_fields (map (λ value, (value, 8)) tlvBuf) totalPayloadDataSizeInBits bits offset.

Section WithTlv.
Context `{TlvConfig}.

Definition writeTag (tag : Z) (info : OptionalQRCodeInfo) : wop :=
  match info_type info with
  | optionalQRCodeInfoTypeString => TLVWriter_PutString tag (c_str (info_data info))
  | optionalQRCodeInfoTypeInt32 => TLVWriter_Put_i32 tag (info_int32 info)
  | _ => wret CHIP_ERROR_INVALID_ARGUMENT
  end.

(** [uint32] is a field of 64 bits. *)
Definition writeTag_ext (tag : Z) (info : OptionalQRCodeInfoExtension) : wop :=
  match info_type (ext_info info) with
  | optionalQRCodeInfoTypeString | optionalQRCodeInfoTypeInt32 => writeTag tag (ext_info info)
  | optionalQRCodeInfoTypeInt64 => TLVWriter_Put_i64 tag (ext_int64 info)
  | optionalQRCodeInfoTypeUInt32 => TLVWriter_Put_u64 tag (ext_uint32 info)
  | optionalQRCodeInfoTypeUInt64 => TLVWriter_Put_u64 tag (ext_uint64 info)
  | optionalQRCodeInfoTypeUnknown => wret CHIP_ERROR_INVALID_ARGUMENT
  end.

(** The two loops over the optional data. *)
Fixpoint write_infos (infos : list OptionalQRCodeInfo) : wop :=
  match infos with
  | [] => wret CHIP_NO_ERROR
  | info :: infos => wseq (writeTag (ContextTag (info_tag info)) info) (write_infos infos)
  end.

Fixpoint write_extensions (infos : list OptionalQRCodeInfoExtension) : wop :=
  match infos with
  | [] => wret CHIP_NO_ERROR
  | info :: infos =>
      wseq (writeTag_ext (ContextTag (info_tag (ext_info info))) info) (write_extensions infos)
  end.

(** The error, and the bytes of the TLV in the buffer of [maxLen] bytes. *)
Definition generateTLVFromOptionalData (outPayload : SetupPayload) (maxLen : Z) : chip_error * list Z :=
  let optionalData := getAllOptionalVendorData outPayload in
  let optionalExtensionData := getAllOptionalExtensionData outPayload in
  match optionalData, optionalExtensionData with
  | [], [] => (CHIP_NO_ERROR, [])
  | _, _ =>
      match TLVWriter_OpenContainer AnonymousTag kTLVType_Structure TLVWriter_new (TLVWriter_Init maxLen) with
      | (CHIP_NO_ERROR, innerStructureWriter, rootWriter) =>
          match wseq (write_infos optionalData) (write_extensions optionalExtensionData) innerStructureWriter with
          | (CHIP_NO_ERROR, innerStructureWriter) =>
              match TLVWriter_CloseContainer innerStructureWriter rootWriter with
              | (CHIP_NO_ERROR, _, rootWriter) =>
                  match TLVWriter_Finalize rootWriter with
                  | (CHIP_NO_ERROR, rootWriter) =>
                      (CHIP_NO_ERROR, take (Z.to_nat (wLenWritten rootWriter)) (wOut rootWriter))
                  | (err, _) => (err, [])
                  end
              | (err, _, _) => (err, [])
              end
          | (err, _) => (err, [])
          end
      | (err, _, _) => (err, [])
      end
  end.

(** The fields and their widths, in the order of the calls; an optional field that is
    missing is 0, and so is a short discriminator. *)
Definition payload_fields (payload : PayloadContents) : list (Z * Z) := [
  (version payload, kVersionFieldLengthInBits);
  (vendorID payload, kVendorIDFieldLengthInBits);
  (productID payload, kProductIDFieldLengthInBits);
  (commissioningFlow payload, kCommissioningFlowFieldLengthInBits);
  (default 0 (rendezvousInformation payload), kRendezvousInfoFieldLengthInBits);
  (if mIsShortDiscriminator (discriminator payload) then 0 else mDiscriminator (discriminator payload),
   kPayloadDiscriminatorFieldLengthInBits);
  (setUpPINCode payload, kSetupPINCodeFieldLengthInBits);
  (0, kPaddingFieldLengthInBits)].

Definition generateBitSet (payload : PayloadContents) (bits tlvData : list Z) : outcome (chip_error * list Z) :=
  let totalPayloadSizeInBits := kTotalPayloadDataSizeInBits + Z.of_nat (length tlvData) * 8 in
  if negb (totalPayloadSizeInBits <=? Z.of_nat (length bits) * 8) then Returns (CHIP_ERROR_BUFFER_TOO_SMALL, bits)
  else
    let+ (err, bits, offset) := populate_fields (payload_fields payload) kTotalPayloadDataSizeInBits bits 0 in
    match err with
    | CHIP_NO_ERROR =>
        let+ (err, bits, _) := populateTLVBits bits offset tlvData totalPayloadSizeInBits in
        Returns (err, bits)
    | _ => Returns (err, bits)
    end.

(** The error and the text in the output span of [outSize] characters, with [bitsSize]
    bytes for the bits. *)
Definition payloadBase38RepresentationWithTLV (payload : PayloadContents) (outSize bitsSize : Z) (tlvData : list Z) :
    outcome (chip_error * list Z) :=
  let+ (err, bits) := generateBitSet payload (replicate (Z.to_nat bitsSize) 0) tlvData in
  match err with
  | CHIP_NO_ERROR =>
      let prefixLen := Z.of_nat (length kQRCodePrefix) in
      if outSize <? prefixLen + 1 then Returns (CHIP_ERROR_BUFFER_TOO_SMALL, [])
      else
        let '(err, text) := base38Encode bits (outSize - prefixLen) in
        Returns (err, kQRCodePrefix ++ text)
  | _ => Returns (err, [])
  end.

(** With a buffer of [tlvDataStartSize] bytes for the TLV. A vector of [n] elements has
    the capacity [n]. *)
Definition payloadBase38Representation (mAllowInvalidPayload : bool) (mPayload : SetupPayload) (tlvDataStartSize : Z) :
    outcome (chip_error * list Z) :=
  if negb (mAllowInvalidPayload || isValidQRCodePayload kProduce (contents mPayload))
  then Returns (CHIP_ERROR_INVALID_ARGUMENT, [])
  else
    match generateTLVFromOptionalData mPayload tlvDataStartSize with
    | (CHIP_NO_ERROR, tlvData) =>
        let bitsSize := kTotalPayloadDataSizeInBytes + Z.of_nat (length tlvData) in
        let bufferSize := base38EncodedLength bitsSize + Z.of_nat (length kQRCodePrefix) in
        let+ (err, text) := payloadBase38RepresentationWithTLV (contents mPayload) bufferSize bitsSize tlvData in
        match err with
        | CHIP_NO_ERROR => Returns (CHIP_NO_ERROR, c_str text)
        | _ => Returns (err, [])
        end
    | (err, _) => Returns (err, [])
    end.

(** The size that one item of optional data may need. *)
Definition dataItemSizeEstimate (item : OptionalQRCodeInfo) : Z :=
  match info_type item with
  | optionalQRCodeInfoTypeString => 2 + 8 + Z.of_nat (length (info_data item))
  | _ => 2 + 8
  end.

Definition EstimateStructOverhead (firstFieldSize : Z) : Z := firstFieldSize + 4 + 2.

Definition tlv_estimate (mPayload : SetupPayload) : Z :=
  let estimate := fold_left (λ estimate data, estimate + dataItemSizeEstimate data)
                    (getAllOptionalVendorData mPayload) 0 in
  let estimate := fold_left (λ estimate data, estimate + dataItemSizeEstimate (ext_info data))
                    (getAllOptionalExtensionData mPayload) estimate in
  EstimateStructOverhead estimate.

(** [alloc] tells whether the buffer can be allocated. *)
Definition payloadBase38RepresentationWithAutoTLVBuffer (mAllowInvalidPayload alloc : bool) (mPayload : SetupPayload) :
    outcome (chip_error * list Z) :=
  let estimate := tlv_estimate mPayload in
  if negb (estimate <=? UINT32_MAX) then Returns (CHIP_ERROR_NO_MEMORY, [])
  else if negb alloc then Returns (CHIP_ERROR_NO_MEMORY, [])
  else payloadBase38Representation mAllowInvalidPayload mPayload estimate.

(** [QRCodeBasicSetupPayloadGenerator::payloadBase38Representation]. *)
Definition Basic_payloadBase38Representation (mPayload : PayloadContents) (outSize : Z) : outcome (chip_error * list Z) :=
  if negb (isValidQRCodePayload kProduce mPayload) then Returns (CHIP_ERROR_INVALID_ARGUMENT, [])
  else payloadBase38RepresentationWithTLV mPayload outSize kTotalPayloadDataSizeInBytes [].

(** ** Parser *)

Fixpoint read_bits_loop (n : nat) (buf : list Z) (currentIndex bitsRead dest : Z) : outcome Z :=
  match n with
  | O => Returns dest
  | S n =>
      match buf !! Z.to_nat (currentIndex / 8) with
      | None => Crashes OutOfBounds
      | Some b =>
          let dest := if ctrue (Z.land b (Z.shiftl 1 (currentIndex mod 8)))
                      then Z.lor dest (Z.shiftl 1 bitsRead) else dest in
          read_bits_loop n buf (currentIndex + 1) (bitsRead + 1) dest
      end
  end.

(** The value and the new index. [1 << bitsRead] is an [int]: callers read 27 bits at most. *)
Definition readBits (buf : list Z) (index numberOfBitsToRead : Z) : outcome (chip_error + Z * Z) :=
  if (Z.of_nat (length buf) * 8 <? index + numberOfBitsToRead) || (64 <? numberOfBitsToRead)
  then Returns (inl CHIP_ERROR_INVALID_ARGUMENT)
  else
    let+ dest := read_bits_loop (Z.to_nat numberOfBitsToRead) buf index 0 0 in
    Returns (inr (dest, index + numberOfBitsToRead)).

(** The container reader, when the container is as expected. *)
Definition openTLVContainer (reader : TLVReader) (type tag : Z) : chip_error + TLVReader :=
  if negb (TLVReader_GetType reader =? type) then inl CHIP_ERROR_INVALID_ARGUMENT
  else if negb (TLVReader_GetTag reader =? tag) then inl CHIP_ERROR_INVALID_ARGUMENT
  else if negb (TLVReader_GetLength reader =? 0) then inl CHIP_ERROR_INVALID_ARGUMENT
  else
    match TLVReader_OpenContainer reader with
    | (CHIP_NO_ERROR, Some containerReader, _) =>
        if negb (rContainerType containerReader =? type) then inl CHIP_ERROR_INVALID_ARGUMENT
        else inr containerReader
    | (err, _, _) => inl err
    end.

(** A call of [Get] on the reader. *)
Definition get_from {A} (f : TLVReader → chip_error * A) : rop A := λ r,
  match f r with
  | (CHIP_NO_ERROR, a) => ROk a r
  | (err, _) => RErr err r
  end.

Definition retrieveOptionalInfoString (info : OptionalQRCodeInfo) : rop OptionalQRCodeInfo :=
  data <-- TLVReader_Get_CharSpan [] ;;
  rret (mkInfo (info_tag info) optionalQRCodeInfoTypeString data (info_int32 info)).

Definition retrieveOptionalInfoInt32 (info : OptionalQRCodeInfo) : rop OptionalQRCodeInfo :=
  value <-- get_from (λ r, TLVReader_Get_i32 r 0) ;;
  rret (mkInfo (info_tag info) optionalQRCodeInfoTypeInt32 (info_data info) value).

Definition set_ext_type t (info : OptionalQRCodeInfo) := mkInfo (info_tag info) t (info_data info) (info_int32 info).

Definition retrieveOptionalInfoInt64 (info : OptionalQRCodeInfoExtension) : rop OptionalQRCodeInfoExtension :=
  value <-- get_from (λ r, TLVReader_Get_i64 r 0) ;;
  rret (mkExtension (set_ext_type optionalQRCodeInfoTypeInt64 (ext_info info)) value (ext_uint32 info) (ext_uint64 info)).

Definition retrieveOptionalInfoUInt32 (info : OptionalQRCodeInfoExtension) : rop OptionalQRCodeInfoExtension :=
  value <-- get_from (λ r, TLVReader_Get_u32 r 0) ;;
  rret (mkExtension (set_ext_type optionalQRCodeInfoTypeUInt32 (ext_info info)) (ext_int64 info) value (ext_uint64 info)).

Definition retrieveOptionalInfoUInt64 (info : OptionalQRCodeInfoExtension) : rop OptionalQRCodeInfoExtension :=
  value <-- get_from (λ r, TLVReader_Get_u64 r 0) ;;
  rret (mkExtension (set_ext_type optionalQRCodeInfoTypeUInt64 (ext_info info)) (ext_int64 info) (ext_uint32 info) value).

Definition retrieveOptionalInfo (info : OptionalQRCodeInfo) (type : optionalQRCodeInfoType) : rop OptionalQRCodeInfo :=
  match type with
  | optionalQRCodeInfoTypeString => retrieveOptionalInfoString info
  | optionalQRCodeInfoTypeInt32 => retrieveOptionalInfoInt32 info
  | _ => rfail CHIP_ERROR_INVALID_ARGUMENT
  end.

Definition retrieveOptionalInfo_ext (info : OptionalQRCodeInfoExtension) (type : optionalQRCodeInfoType) :
    rop OptionalQRCodeInfoExtension :=
  match type with
  | optionalQRCodeInfoTypeString | optionalQRCodeInfoTypeInt32 =>
      base <-- retrieveOptionalInfo (ext_info info) type ;;
      rret (mkExtension base (ext_int64 info) (ext_uint32 info) (ext_uint64 info))
  | optionalQRCodeInfoTypeInt64 => retrieveOptionalInfoInt64 info
  | optionalQRCodeInfoTypeUInt32 => retrieveOptionalInfoUInt32 info
  | optionalQRCodeInfoTypeUInt64 => retrieveOptionalInfoUInt64 info
  | optionalQRCodeInfoTypeUnknown => rfail CHIP_ERROR_INVALID_ARGUMENT
  end.

(** The result of a reader operation in front of [k]; an error ends with the payload [sp]. *)
Definition with_reader {A} (res : rres A) (sp : SetupPayload) (k : A → TLVReader → outcome (chip_error * SetupPayload)) :
    outcome (chip_error * SetupPayload) :=
  match res with
  | ROk a r => k a r
  | RErr err _ => Returns (err, sp)
  | RUndefined => Crashes OutOfBounds
  | RFuel => Crashes NoReturn
  end.

(** The optional information of the current element, added to [sp]. *)
Definition retrieve_element (sp : SetupPayload) (r : TLVReader) : outcome (chip_error * SetupPayload) :=
  let type := TLVReader_GetType r in
  let tag := TLVReader_GetTag r in
  if negb (IsContextTag tag) then Returns (CHIP_ERROR_INVALID_TLV_TAG, sp)
  else
    let tagNumber := u8 (TagNumFromTag tag) in
    let elemType := if type =? kTLVType_UTF8String then optionalQRCodeInfoTypeString else getNumericTypeFor tagNumber in
    if IsCommonTag tagNumber then
      with_reader
        (retrieveOptionalInfo_ext (mkExtension (mkInfo tagNumber optionalQRCodeInfoTypeUnknown [] 0) 0 0 0) elemType r) sp
        (λ info _, Returns (addOptionalExtensionData info sp))
    else
      with_reader (retrieveOptionalInfo (mkInfo tagNumber optionalQRCodeInfoTypeUnknown [] 0) elemType r) sp
        (λ info _, Returns (addOptionalVendorData info sp)).

Definition is_info_type (type : Z) : bool :=
  (type =? kTLVType_UTF8String) || (type =? kTLVType_SignedInteger) || (type =? kTLVType_UnsignedInteger).

(** The loop of [retrieveOptionalInfos]; each turn moves the reader on. *)
Fixpoint infos_loop (fuel : nat) (outPayload : SetupPayload) (reader : TLVReader) : outcome (chip_error * SetupPayload) :=
  match fuel with
  | O => Crashes NoReturn
  | S fuel =>
      let+ (err, outPayload) :=
        if is_info_type (TLVReader_GetType reader) then retrieve_element outPayload reader
        else Returns (CHIP_NO_ERROR, outPayload) in
      match err with
      | CHIP_NO_ERROR =>
          match TLVReader_Next reader with
          | RErr CHIP_ERROR_END_OF_TLV _ => Returns (CHIP_NO_ERROR, outPayload)
          | res => with_reader res outPayload (λ _ reader, infos_loop fuel outPayload reader)
          end
      | _ => Returns (err, outPayload)
      end
  end.

Definition retrieveOptionalInfos (outPayload : SetupPayload) (reader : TLVReader) : outcome (chip_error * SetupPayload) :=
  infos_loop (S (length (input reader))) outPayload reader.

Definition parseTLVFields (outPayload : SetupPayload) (tlvData : list Z) : outcome (chip_error * SetupPayload) :=
  if negb (Z.of_nat (length tlvData) <=? UINT32_MAX) then Returns (CHIP_ERROR_INVALID_ARGUMENT, outPayload)
  else
    with_reader (TLVReader_Next (TLVReader_Init tlvData)) outPayload (λ _ rootReader,
    if negb (TLVReader_GetType rootReader =? kTLVType_Structure) then Returns (CHIP_ERROR_INVALID_ARGUMENT, outPayload)
    else
      match openTLVContainer rootReader kTLVType_Structure AnonymousTag with
      | inl err => Returns (err, outPayload)
      | inr innerStructureReader =>
          with_reader (TLVReader_Next innerStructureReader) outPayload (λ _ innerStructureReader,
          let+ (err, outPayload) := retrieveOptionalInfos outPayload innerStructureReader in
          Returns (match err with CHIP_ERROR_END_OF_TLV => CHIP_NO_ERROR | _ => err end, outPayload))
      end).

(** The bytes of the TLV; a byte that [readBits] refuses is left 0. *)
Fixpoint tlv_bytes (n : nat) (buf : list Z) (index : Z) : outcome (list Z) :=
  match n with
  | O => Returns []
  | S n =>
      let+ res := readBits buf index 8 in
      let '(dest, index) := match res with inl _ => (0, index) | inr p => p end in
      let+ rest := tlv_bytes n buf index in
      Returns (u8 dest :: rest)
  end.

(** [alloc] tells whether the buffer can be allocated. *)
Definition populateTLV (alloc : bool) (outPayload : SetupPayload) (buf : list Z) (index : Z) :
    outcome (chip_error * SetupPayload) :=
  let bitsLeftToRead := Z.of_nat (length buf) * 8 - index in
  let tlvBytesLength := (bitsLeftToRead + 7) / 8 in
  if tlvBytesLength =? 0 then Returns (CHIP_NO_ERROR, outPayload)
  else if negb alloc then Returns (CHIP_ERROR_NO_MEMORY, outPayload)
  else
    let+ tlvArray := tlv_bytes (Z.to_nat tlvBytesLength) buf index in
    parseTLVFields outPayload tlvArray.

(** The indices behind the delimiters '%'. *)
Fixpoint delimiter_indices (s : list Z) (i : nat) : list nat :=
  match s with
  | [] => []
  | c :: s => if c =? 37 then S i :: delimiter_indices s (S i) else delimiter_indices s (S i)
  end.

Definition starts_with (prefix s : list Z) : bool := bool_decide (take (length prefix) s = prefix).

(** The first segment that starts with the prefix and is longer. *)
Fixpoint find_segment (inString : list Z) (startIndices : list nat) : list Z :=
  match startIndices with
  | [] => []
  | startIndex :: rest =>
      let segment :=
        match rest with
        | [] => drop startIndex inString
        | next :: _ => take (next - 1 - startIndex) (drop startIndex inString)
        end in
      if starts_with kQRCodePrefix segment && (length kQRCodePrefix <? length segment)%nat then segment
      else find_segment inString rest
  end.

Definition ExtractPayload (inString : list Z) : list Z :=
  let chipSegment := find_segment inString (0%nat :: delimiter_indices inString 0) in
  match chipSegment with
  | [] => []
  | _ => drop (length kQRCodePrefix) chipSegment
  end.

(** A call of [readBits] in front of [k]. *)
Definition with_bits (buf : list Z) (index n : Z) (outPayload : SetupPayload)
    (k : Z → Z → outcome (chip_error * SetupPayload)) : outcome (chip_error * SetupPayload) :=
  let+ res := readBits buf index n in
  match res with
  | inl err => Returns (err, outPayload)
  | inr (dest, index) => k dest index
  end.

Definition QRCodeSetupPayloadParser_populatePayload (alloc : bool) (mBase38Representation : list Z)
    (sp : SetupPayload) : outcome (chip_error * SetupPayload) :=
  match ExtractPayload mBase38Representation with
  | [] => Returns (CHIP_ERROR_INVALID_ARGUMENT, sp)
  | payload =>
      match base38Decode payload with
      | (CHIP_NO_ERROR, buf) =>
          with_bits buf 0 kVersionFieldLengthInBits sp (λ dest index,
          let sp := set_contents (spset_version (u8 dest)) sp in
          with_bits buf index kVendorIDFieldLengthInBits sp (λ dest index,
          let sp := set_contents (spset_vendorID (u16 dest)) sp in
          with_bits buf index kProductIDFieldLengthInBits sp (λ dest index,
          let sp := set_contents (spset_productID (u16 dest)) sp in
          with_bits buf index kCommissioningFlowFieldLengthInBits sp (λ dest index,
          let sp := set_contents (spset_flow (u8 dest)) sp in
          with_bits buf index kRendezvousInfoFieldLengthInBits sp (λ dest index,
          let sp := set_contents (spset_rendezvous (Some (u8 dest))) sp in
          with_bits buf index kPayloadDiscriminatorFieldLengthInBits sp (λ dest index,
          let+ d := SetLongValue (u16 dest) in
          let sp := set_contents (spset_discriminator d) sp in
          with_bits buf index kSetupPINCodeFieldLengthInBits sp (λ dest index,
          let sp := set_contents (spset_pin (u32 dest)) sp in
          with_bits buf index kPaddingFieldLengthInBits sp (λ dest index,
          if negb (dest =? 0) then Returns (CHIP_ERROR_INVALID_ARGUMENT, sp)
          else populateTLV alloc sp buf index))))))))
      | (err, _) => Returns (err, sp)
      end
  end.

End WithTlv.
