(* ===== verification/QrBits.v ===== *)
(** * QR code: packing of fields into bits

    A buffer of bytes is the number that it encodes in little-endian order; writing a
    field of bits adds a digit to that number, reading one takes it off. *)

From S2P Require Import Prelude.
From S2P Require Import COutcome.
From S2P Require Import ChipError.
From S2P Require Import Endian.
From S2P Require Import QrCode.

(** ** Bits of a buffer *)

Lemma le_decode_testbit l k :
  is_bytes l → 0 <= k →
  Z.testbit (le_decode l) k = from_option (λ b, Z.testbit b (k mod 8)) false (l !! Z.to_nat (k / 8)).
Proof.
  intros Hl. revert k. induction Hl as [|b l Hb Hl IH]; intros k Hk; cbn [le_decode].
  { by rewrite Z.bits_0. }
  unfold in_u8 in Hb. pose proof (le_decode_range _ Hl).
  destruct (Z.lt_ge_cases k 8) as [Hlt|Hge].
  - rewrite Z.div_small, Z.mod_small by lia. cbn.
    rewrite <- (Z.mod_pow2_bits_low (b + 2 ^ 8 * le_decode l) 8 k) by lia.
    by rewrite (Z.mul_comm (2 ^ 8)), Z.mod_add, Z.mod_small by lia.
  - replace (Z.to_nat (k / 8)) with (S (Z.to_nat ((k - 8) / 8))) by (Z.div_mod_to_equations; lia).
    cbn [lookup list_lookup]. replace (k mod 8) with ((k - 8) mod 8) by (Z.div_mod_to_equations; lia).
    rewrite <- IH by lia. replace k with (k - 8 + 8) at 1 by lia. rewrite <- Z.div_pow2_bits by lia.
    by rewrite (Z.mul_comm (2 ^ 8)), Z.div_add, Z.div_small by lia.
Qed.

(** The bits of [b] with bit [i] set. *)
Lemma set_bit_byte b i : in_u8 b → 0 <= i < 8 → in_u8 (Z.lor b (2 ^ i)).
Proof.
  intros Hb Hi. unfold in_u8 in *. split; [apply Z.lor_nonneg; lia|].
  apply (Z.log2_lt_cancel _ (2 ^ 8)). rewrite Z.log2_lor by lia. rewrite Z.log2_pow2, (Z.log2_pow2 8) by lia.
  apply Z.max_lub_lt; [|lia]. destruct (Z.eq_dec b 0) as [-> | Hnz]; [cbn; lia|]. apply Z.log2_lt_pow2; lia.
Qed.

Lemma set_bit bits index b :
  is_bytes bits → 0 <= index → bits !! Z.to_nat (index / 8) = Some b →
  let bits' := <[Z.to_nat (index / 8) := u8 (Z.lor b (u8 (Z.shiftl 1 (index mod 8))))]> bits in
  is_bytes bits' ∧ le_decode bits' = Z.lor (le_decode bits) (2 ^ index).
Proof.
  intros Hb Hi Hl bits'. assert (Hm : 0 <= index mod 8 < 8) by (apply Z.mod_pos_bound; lia).
  assert (Hbb : in_u8 b) by (by eapply Forall_lookup_1).
  assert (Hmask : u8 (Z.shiftl 1 (index mod 8)) = 2 ^ (index mod 8)).
  { rewrite Z.shiftl_1_l. apply u8_id. unfold in_u8. split; [lia|]. apply Z.pow_lt_mono_r; lia. }
  assert (Hnew : u8 (Z.lor b (u8 (Z.shiftl 1 (index mod 8)))) = Z.lor b (2 ^ (index mod 8))).
  { rewrite Hmask. by apply u8_id, set_bit_byte. }
  assert (Hb' : is_bytes bits').
  { apply Forall_insert; [done|]. rewrite Hnew. by apply set_bit_byte. }
  split; [done|]. apply Z.bits_inj'. intros k Hk. rewrite Z.lor_spec, !le_decode_testbit by done.
  subst bits'. rewrite Hnew. destruct (decide (Z.to_nat (index / 8) = Z.to_nat (k / 8))) as [Heq|Hne].
  - rewrite <- Heq, list_lookup_insert_eq by (by eapply lookup_lt_Some). rewrite Hl. cbn [from_option].
    rewrite Z.lor_spec. f_equal. rewrite !Z.pow2_bits_eqb by lia.
    assert (index / 8 = k / 8) by (apply Z2Nat.inj; [apply Z.div_pos; lia..|done]).
    apply eq_true_iff_eq. rewrite !Z.eqb_eq. split; intros; Z.div_mod_to_equations; lia.
  - rewrite list_lookup_insert_ne by done. rewrite Z.pow2_bits_false; [by rewrite orb_false_r|].
    intros ->. done.
Qed.

(** ** Writing *)

Lemma populate_loop_spec n fuel bits index input :
  (n <= fuel)%nat → is_bytes bits → 0 <= index → 0 <= input < 2 ^ Z.of_nat n →
  index + Z.of_nat n <= Z.of_nat (length bits) * 8 →
  ∃ bits', populate_loop fuel bits index input = Returns bits' ∧ is_bytes bits' ∧ length bits' = length bits ∧
    le_decode bits' = Z.lor (le_decode bits) (Z.shiftl input index).
Proof.
  revert fuel bits index input. induction n as [|n IH]; intros fuel bits index input Hf Hb Hi Hin Hlen.
  { assert (input = 0) as -> by (cbn in Hin; lia). exists bits. rewrite Z.shiftl_0_l, Z.lor_0_r. by destruct fuel. }
  destruct fuel as [|fuel]; [lia|]. cbn [populate_loop]. destruct (Z.eqb_spec input 0) as [-> | Hnz].
  { exists bits. by rewrite Z.shiftl_0_l, Z.lor_0_r. }
  rewrite Nat2Z.inj_succ, Z.pow_succ_r in Hin by lia. rewrite Nat2Z.inj_succ in Hlen.
  assert (Hhalf : Z.shiftr input 1 = input / 2) by (by rewrite Z.shiftr_div_pow2).
  assert (Hsplit : Z.shiftl input index =
    Z.lor (if ctrue (Z.land input 1) then 2 ^ index else 0) (Z.shiftl (Z.shiftr input 1) (index + 1))).
  { assert (Hbit : ctrue (Z.land input 1) = Z.testbit input 0).
    { unfold ctrue. rewrite (Z.land_ones input 1 ltac:(lia) : Z.land input 1 = _). change (2 ^ 1) with 2.
      rewrite <- Z.bit0_mod. by destruct (Z.testbit input 0). }
    rewrite Hbit. apply Z.bits_inj'. intros k Hk. rewrite Z.lor_spec.
    destruct (Z.lt_ge_cases k index) as [Hlt|Hge].
    - rewrite !Z.shiftl_spec_low by lia. destruct (Z.testbit input 0); [|by rewrite Z.bits_0].
      by rewrite Z.pow2_bits_false by lia.
    - rewrite Z.shiftl_spec by lia. destruct (Z.eq_dec k index) as [-> | Hne].
      + rewrite Z.sub_diag, Z.shiftl_spec_low by lia. destruct (Z.testbit input 0);
          [by rewrite Z.pow2_bits_true by lia|by rewrite Z.bits_0].
      + rewrite Z.shiftl_spec, Z.shiftr_spec by lia. replace (k - (index + 1) + 1) with (k - index) by lia.
        destruct (Z.testbit input 0); [|by rewrite Z.bits_0]. by rewrite Z.pow2_bits_false by lia. }
  assert (Hstep : ∃ bits1, (if ctrue (Z.land input 1) then
      match bits !! Z.to_nat (index / 8) with
      | Some b => Returns (<[Z.to_nat (index / 8) := u8 (Z.lor b (u8 (Z.shiftl 1 (index mod 8))))]> bits)
      | None => Crashes OutOfBounds
      end else Returns bits) = Returns bits1 ∧ is_bytes bits1 ∧ length bits1 = length bits ∧
    le_decode bits1 = Z.lor (le_decode bits) (if ctrue (Z.land input 1) then 2 ^ index else 0)).
  { destruct (ctrue _); [|exists bits; by rewrite Z.lor_0_r].
    destruct (lookup_lt_is_Some_2 bits (Z.to_nat (index / 8))) as [b Hl]; [Z.div_mod_to_equations; lia|].
    destruct (set_bit bits index b Hb Hi Hl) as [Hb' Hd]. rewrite Hl. eexists. split_and!; try done.
    by rewrite length_insert. }
  destruct Hstep as (bits1 & -> & Hb1 & Hl1 & Hd1). cbn [obind].
  destruct (IH fuel bits1 (index + 1) (Z.shiftr input 1)) as (bits' & -> & Hb' & Hl' & Hd'); try done; try lia.
  { rewrite Hhalf. Z.div_mod_to_equations. lia. }
  exists bits'. split_and!; try done; [lia|]. by rewrite Hd', Hd1, Hsplit, Z.lor_assoc.
Qed.

(** Two numbers without common bits. *)
Lemma lor_low_shiftl a b k : 0 <= k → 0 <= a < 2 ^ k → Z.lor a (Z.shiftl b k) = a + 2 ^ k * b.
Proof. intros Hk Ha. rewrite Z.lor_comm, lor_shiftl_add by done. lia. Qed.

(** The number whose digits are the fields. *)
Fixpoint pack (fields : list (Z * Z)) : Z :=
  match fields with
  | [] => 0
  | (v, n) :: fields => v + 2 ^ n * pack fields
  end.
Fixpoint pack_bits (fields : list (Z * Z)) : Z :=
  match fields with
  | [] => 0
  | (_, n) :: fields => n + pack_bits fields
  end.

Definition field_ok (f : Z * Z) : Prop := 0 < f.2 < 32 ∧ 0 <= f.1 < 2 ^ f.2.

Lemma pack_bits_nonneg fields : Forall field_ok fields → 0 <= pack_bits fields.
Proof. induction 1 as [|[v n] fields [Hn _] _ IH]; cbn in *; lia. Qed.

Lemma pack_range fields : Forall field_ok fields → 0 <= pack fields < 2 ^ pack_bits fields.
Proof.
  induction 1 as [|[v n] fields [Hn Hv] Hf IH]; cbn [pack pack_bits fst snd] in *; [lia|].
  rewrite Z.pow_add_r by (lia || by apply pack_bits_nonneg). nia.
Qed.

Lemma populateBits_spec bits offset input n total :
  is_bytes bits → 0 <= offset → 0 < n < 32 → 0 <= input < 2 ^ n → offset + n <= total →
  total <= Z.of_nat (length bits) * 8 → 0 <= le_decode bits < 2 ^ offset →
  ∃ bits', populateBits bits offset input n total = Returns (CHIP_NO_ERROR, bits', offset + n) ∧
    is_bytes bits' ∧ length bits' = length bits ∧ le_decode bits' = le_decode bits + 2 ^ offset * input.
Proof.
  intros Hb Ho Hn Hin Ht Hlen Hd. unfold populateBits. rewrite (proj2 (Z.leb_le _ _)) by done. cbn [negb].
  assert (u32 (Z.shiftl 1 n) = 2 ^ n) as ->.
  { rewrite Z.shiftl_1_l. apply u32_id. split; [lia|]. apply Z.pow_lt_mono_r; lia. }
  rewrite (proj2 (Z.ltb_lt _ _)) by lia. cbn [negb].
  destruct (populate_loop_spec (Z.to_nat n) 64 bits offset input) as (bits' & -> & Hb' & Hl' & Hd'); try done;
    rewrite ?Z2Nat.id; try lia.
  exists bits'. split_and!; try done. by rewrite Hd', lor_low_shiftl.
Qed.

Lemma populate_fields_spec fields total bits offset :
  Forall field_ok fields → is_bytes bits → 0 <= offset → offset + pack_bits fields <= total →
  total <= Z.of_nat (length bits) * 8 → 0 <= le_decode bits < 2 ^ offset →
  ∃ bits', populate_fields fields total bits offset = Returns (CHIP_NO_ERROR, bits', offset + pack_bits fields) ∧
    is_bytes bits' ∧ length bits' = length bits ∧ le_decode bits' = le_decode bits + 2 ^ offset * pack fields.
Proof.
  intros Hf. revert bits offset. induction Hf as [|[v n] fields [Hn Hv] Hf IH]; intros bits offset Hb Ho Ht Hlen Hd.
  { exists bits. cbn. by rewrite Z.add_0_r, Z.mul_0_r, Z.add_0_r. }
  cbn [fst snd populate_fields pack pack_bits] in *. pose proof (pack_bits_nonneg _ Hf).
  destruct (populateBits_spec bits offset v n total) as (bits1 & -> & Hb1 & Hl1 & Hd1); try done; try lia.
  cbn [obind]. assert (Hp : 2 ^ (offset + n) = 2 ^ offset * 2 ^ n) by (apply Z.pow_add_r; lia).
  destruct (IH bits1 (offset + n)) as (bits' & -> & Hb' & Hl' & Hd'); try done; try lia.
  { rewrite Hd1, Hp. nia. }
  exists bits'. split_and!; try done; [f_equal; f_equal; lia|lia|]. rewrite Hd', Hd1, Hp. ring.
Qed.

(** ** Reading *)

Lemma read_bits_loop_spec n buf index k dest :
  is_bytes buf → 0 <= index → 0 <= k → index + Z.of_nat n <= Z.of_nat (length buf) * 8 → 0 <= dest < 2 ^ k →
  read_bits_loop n buf index k dest =
    Returns (dest + 2 ^ k * ((le_decode buf / 2 ^ index) mod 2 ^ Z.of_nat n)).
Proof.
  revert index k dest. induction n as [|n IH]; intros index k dest Hb Hi Hk Hlen Hd; cbn [read_bits_loop].
  { rewrite Z.mod_1_r. f_equal. lia. }
  rewrite Nat2Z.inj_succ in *.
  destruct (lookup_lt_is_Some_2 buf (Z.to_nat (index / 8))) as [b Hl]; [Z.div_mod_to_equations; lia|]. rewrite Hl.
  assert (Hm : 0 <= index mod 8 < 8) by (apply Z.mod_pos_bound; lia).
  assert (Hbit : ctrue (Z.land b (Z.shiftl 1 (index mod 8))) = Z.testbit (le_decode buf) index).
  { rewrite le_decode_testbit, Hl by done. cbn. rewrite Z.shiftl_1_l. unfold ctrue.
    destruct (Z.testbit b (index mod 8)) eqn:E.
    - apply negb_true_iff, Z.eqb_neq. intros Hz. apply (f_equal (λ z, Z.testbit z (index mod 8))) in Hz.
      rewrite Z.land_spec, Z.bits_0, E, Z.pow2_bits_true in Hz by lia. done.
    - apply negb_false_iff, Z.eqb_eq, Z.bits_inj'. intros j Hj. rewrite Z.land_spec, Z.bits_0, Z.pow2_bits_eqb by lia.
      destruct (Z.eqb_spec (index mod 8) j) as [<- | ]; [by rewrite E|apply andb_false_r]. }
  set (V := le_decode buf) in *.
  assert (Hdest : (if ctrue (Z.land b (Z.shiftl 1 (index mod 8))) then Z.lor dest (Z.shiftl 1 k) else dest) =
    dest + 2 ^ k * ((V / 2 ^ index) mod 2)).
  { rewrite Hbit, <- Z.testbit_spec' by lia. destruct (Z.testbit V index); cbn [Z.b2z]; [|lia].
    by rewrite lor_low_shiftl by lia. }
  assert (0 <= (V / 2 ^ index) mod 2 < 2) by (apply Z.mod_pos_bound; lia).
  rewrite Hdest, IH; try done; try lia.
  - f_equal. rewrite (Z.pow_succ_r 2 (Z.of_nat n)) by lia.
    rewrite (Z.rem_mul_r (V / 2 ^ index) 2 (2 ^ Z.of_nat n)) by lia.
    rewrite Z.div_div, !Z.pow_add_r by lia. change (2 ^ 1) with 2. ring.
  - rewrite Z.pow_add_r by lia. nia.
Qed.

Lemma readBits_spec buf index n :
  is_bytes buf → 0 <= index → 0 <= n <= 64 → index + n <= Z.of_nat (length buf) * 8 →
  readBits buf index n = Returns (inr ((le_decode buf / 2 ^ index) mod 2 ^ n, index + n)).
Proof.
  intros Hb Hi Hn Hlen. unfold readBits. rewrite !(proj2 (Z.ltb_ge _ _)) by lia. cbn [orb].
  rewrite read_bits_loop_spec by (rewrite ?Z2Nat.id; lia || done). cbn [obind]. rewrite Z2Nat.id by lia.
  do 3 f_equal. lia.
Qed.

Lemma tlv_bytes_spec n buf index :
  is_bytes buf → 0 <= index → index + 8 * Z.of_nat n <= Z.of_nat (length buf) * 8 →
  tlv_bytes n buf index = Returns (le_encode n (le_decode buf / 2 ^ index)).
Proof.
  revert index. induction n as [|n IH]; intros index Hb Hi Hlen; [done|]. cbn [tlv_bytes le_encode].
  rewrite readBits_spec by (done || lia). cbn [obind]. rewrite IH by (done || lia). cbn [obind].
  rewrite Z.div_div, <- Z.pow_add_r by lia. do 2 f_equal. unfold u8. by rewrite Z.mod_mod by lia.
Qed.

(** A field, read back from the number. *)
Lemma pack_read fields1 v n fields2 rest :
  Forall field_ok fields1 → field_ok (v, n) → Forall field_ok fields2 → 
  (pack (fields1 ++ (v, n) :: fields2) + 2 ^ pack_bits (fields1 ++ (v, n) :: fields2) * rest) / 2 ^ pack_bits fields1 mod 2 ^ n = v.
Proof.
  intros H1 [Hn Hv] H2. cbn [fst snd] in *. pose proof (pack_bits_nonneg _ H2). induction H1 as [|[w m] fields1 [Hm Hw] H1 IH].
  - cbn [app pack pack_bits]. rewrite Z.div_1_r, Z.pow_add_r by lia.
    replace (v + 2 ^ n * pack fields2 + 2 ^ n * 2 ^ pack_bits fields2 * rest)
      with (v + (pack fields2 + 2 ^ pack_bits fields2 * rest) * 2 ^ n) by ring.
    by rewrite Z.mod_add, Z.mod_small by lia.
  - cbn [app pack pack_bits fst snd] in *. pose proof (pack_bits_nonneg _ H1). etransitivity; [|exact IH]. clear IH.
    assert (Hb : 0 <= pack_bits (fields1 ++ (v, n) :: fields2)).
    { apply pack_bits_nonneg, Forall_app. split; [done|]. by constructor. }
    rewrite (Z.pow_add_r 2 m (pack_bits fields1)), <- Z.div_div by lia. rewrite (Z.pow_add_r 2 m (pack_bits (_ ++ _))) by lia.
    set (P := pack (fields1 ++ (v, n) :: fields2)). set (B := 2 ^ pack_bits (fields1 ++ (v, n) :: fields2)).
    replace (w + 2 ^ m * P + 2 ^ m * B * rest) with (w + (P + B * rest) * 2 ^ m) by ring.
    by rewrite (Z.div_add w), (Z.div_small w) by lia.
Qed.
