(* ===== verification/QrTlv.v ===== *)
(** * QR code: the optional data as TLV

    The generator writes the optional data of a payload as one structure, within the
    size it estimates, and the parser reads it back. *)

From S2P Require Import Prelude.
From S2P Require Import COutcome.
From S2P Require Import ChipError.
From S2P Require Import Endian.
From S2P Require Import TlvTypes.
From S2P Require Import TlvWriter.
From S2P Require Import TlvReader.
From S2P Require Import TlvHead.
From S2P Require Import TlvElement.
From S2P Require Import TlvRead.
From S2P Require Import TlvRoundtrip.
From S2P Require Import SetupPayload.
From S2P Require Import ManualCode.
From S2P Require Import Base38.
From S2P Require Import QrCode.

(** ** Items

    One piece of optional data, of either kind. *)
Inductive item := IVendor (info : OptionalQRCodeInfo) | IExtension (info : OptionalQRCodeInfoExtension).

Definition item_info (it : item) : OptionalQRCodeInfo :=
  match it with IVendor info => info | IExtension info => ext_info info end.

Definition item_value (it : item) : tlv_value :=
  match it with
  | IVendor info =>
      match info_type info with
      | optionalQRCodeInfoTypeString => VString (info_data info)
      | _ => VInt (info_int32 info)
      end
  | IExtension info =>
      match info_type (ext_info info) with
      | optionalQRCodeInfoTypeString => VString (info_data (ext_info info))
      | _ => VUInt (ext_uint32 info)
      end
  end.

Definition item_elem (it : item) : Z * tlv_value := (ContextTag (info_tag (item_info it)), item_value it).

(** What the parser does with an item. *)
Definition item_add (it : item) (sp : SetupPayload) : SetupPayload :=
  match it with
  | IVendor info => set_vendor (map_set (info_tag info) info (optionalVendorData sp)) sp
  | IExtension info => set_extension (map_set (info_tag (ext_info info)) info (optionalExtensionData sp)) sp
  end.

Definition items (sp : SetupPayload) : list item :=
  map IVendor (getAllOptionalVendorData sp) ++ map IExtension (getAllOptionalExtensionData sp).

(** A string that is written and read as it is: no NUL, at which C ends it, and no
    separator, at which the reader cuts it. *)
Definition text_ok (s : list Z) : Prop :=
  Forall (λ c, in_u8 c ∧ c ≠ 0 ∧ c ≠ kUnicodeInformationSeparator1) s ∧ Utf8.IsValid s = true.

Definition vendor_ok (info : OptionalQRCodeInfo) : Prop :=
  0x80 <= info_tag info <= 0xFF ∧
  match info_type info with
  | optionalQRCodeInfoTypeString => text_ok (info_data info) ∧ info_int32 info = 0
  | optionalQRCodeInfoTypeInt32 => info_data info = [] ∧ - 2 ^ 31 <= info_int32 info <= 2 ^ 31 - 1
  | _ => False
  end.

Definition extension_ok (info : OptionalQRCodeInfoExtension) : Prop :=
  info_tag (ext_info info) = kSerialNumberTag ∧ info_int32 (ext_info info) = 0 ∧ ext_int64 info = 0 ∧ ext_uint64 info = 0 ∧
  match info_type (ext_info info) with
  | optionalQRCodeInfoTypeString => text_ok (info_data (ext_info info)) ∧ ext_uint32 info = 0
  | optionalQRCodeInfoTypeUInt32 => info_data (ext_info info) = [] ∧ in_u32 (ext_uint32 info)
  | _ => False
  end.

Definition item_ok (it : item) : Prop :=
  match it with IVendor info => vendor_ok info | IExtension info => extension_ok info end.

Lemma item_tag_range it : item_ok it → 0 <= info_tag (item_info it) <= 0xFF.
Proof. destruct it; unfold item_ok, vendor_ok, extension_ok, kSerialNumberTag; cbn; intros []; lia. Qed.

Lemma c_str_text s : text_ok s → c_str s = s.
Proof.
  intros [Hs _]. induction Hs as [|c s (_&Hc&_) _ IH]; [done|]. cbn [c_str].
  by rewrite (proj2 (Z.eqb_neq _ _)), IH.
Qed.

Lemma until_text s : text_ok s → until kUnicodeInformationSeparator1 s = s.
Proof.
  intros [Hs _]. induction Hs as [|c s (_&_&Hc) _ IH]; [done|]. cbn [until].
  by rewrite (proj2 (Z.eqb_neq _ _)), IH.
Qed.

Lemma text_last s : text_ok s → last s ≠ Some 0.
Proof.
  intros [Hs _] Hl. apply last_Some in Hl as [l ->]. apply Forall_app in Hs as [_ Hs].
  apply Forall_cons in Hs as [(_&?&_) _]. done.
Qed.

(** ** Tags *)

Lemma context_tag_parts t :
  0 <= t <= 0xFF →
  in_u64 (ContextTag t) ∧ IsContextTag (ContextTag t) = true ∧ TagNumFromTag (ContextTag t) = t ∧
  norm_tag (ContextTag t) = ContextTag t.
Proof.
  intros Ht. assert (Hall : forallb (λ t, (0 <=? ContextTag t) && (ContextTag t <? 2 ^ 64) && IsContextTag (ContextTag t) &&
      (TagNumFromTag (ContextTag t) =? t) && (norm_tag (ContextTag t) =? ContextTag t)) (seqZ 0 256) = true)
    by (vm_compute; reflexivity).
  rewrite forallb_forall in Hall. specialize (Hall t).
  assert (Hin : In t (seqZ 0 256)) by (apply list_elem_of_In, elem_of_seqZ; lia).
  apply Hall in Hin. zbool. unfold in_u64. split_and!; try done; lia.
Qed.

Lemma context_stage_tag prof et t :
  0 <= t <= 0xFF → ∃ c1 c2, stage_tag kTLVType_Structure prof et (ContextTag t) = Some [c1; c2] ∧ is_bytes [c1; c2].
Proof.
  intros Ht. destruct (context_tag_parts t Ht) as (_&Hc&Hn&_). unfold IsContextTag in Hc. zbool.
  unfold stage_tag. rewrite Hn. unfold IsSpecialTag. rewrite (proj2 (Z.eqb_eq _ _)) by done.
  rewrite (proj2 (Z.leb_le _ _)) by (unfold kContextTagMaxNum; lia). do 2 eexists. split; [done|].
  repeat (apply Forall_cons_2; [apply u8_range|]). apply Forall_nil_2.
Qed.

Section Items.
Context `{TlvConfig}.

Lemma item_value_valid it :
  item_ok it → Z.of_nat (length (info_data (item_info it))) <= UINT32_MAX → valid_value (item_value it).
Proof.
  destruct it as [info|info]; unfold item_ok, vendor_ok, extension_ok; cbn [item_info item_value].
  - intros [_ Hi] Hl. destruct (info_type info); try done; cbn.
    + destruct Hi as [Ht _]. split; [done|]. intros _. split; [apply Ht|by apply text_last].
    + lia.
  - intros (_&_&_&_&Hi) Hl. destruct (info_type (ext_info info)); try done; cbn.
    + destruct Hi as [Ht _]. split; [done|]. intros _. split; [apply Ht|by apply text_last].
    + destruct Hi as [_ Hi]. solve_width.
Qed.

(** ** The size of the encoding *)

Lemma value_size_max et : (value_size et <= 8)%nat.
Proof.
  unfold value_size, TLVFieldSizeToBytes, GetTLVFieldSize. destruct (TLVTypeHasValue et); [|by apply Nat.leb_le].
  assert (Hr : 0 <= Z.land (u8 et) kTLVTypeSizeMask < 4).
  { change kTLVTypeSizeMask with (Z.ones 2). rewrite Z.land_ones by lia. apply Z.mod_pos_bound. lia. }
  assert (Hc : Z.land (u8 et) kTLVTypeSizeMask = 0 ∨ Z.land (u8 et) kTLVTypeSizeMask = 1 ∨
    Z.land (u8 et) kTLVTypeSizeMask = 2 ∨ Z.land (u8 et) kTLVTypeSizeMask = 3) by lia.
  destruct Hc as [-> | [-> | [-> | ->]]]; by apply Nat.leb_le.
Qed.

Lemma item_data_bytes it :
  item_ok it →
  is_bytes (match info_type (item_info it) with optionalQRCodeInfoTypeString => info_data (item_info it) | _ => [] end).
Proof.
  intros Hok. assert (Ht : info_type (item_info it) = optionalQRCodeInfoTypeString → text_ok (info_data (item_info it))).
  { intros E. destruct it as [info|info]; cbn in *; unfold vendor_ok, extension_ok in Hok; rewrite E in Hok; tauto. }
  destruct (info_type (item_info it)); try constructor. destruct (Ht eq_refl) as [Hc _].
  eapply Forall_impl; [exact Hc|]. cbn. tauto.
Qed.

Lemma item_encoded prof it :
  item_ok it → Z.of_nat (length (info_data (item_info it))) <= UINT32_MAX →
  ∃ bs, encode_value prof (item_value it) kTLVType_Structure (ContextTag (info_tag (item_info it))) = Some bs ∧
    Z.of_nat (length bs) <= dataItemSizeEstimate (item_info it) ∧ is_bytes bs.
Proof.
  intros Hok Hl. pose proof (item_tag_range it Hok) as Ht. pose proof (item_value_valid it Hok Hl) as Hv.
  destruct (value_type_ok _ Hv) as (Het&_&Hnc&_).
  destruct (context_stage_tag prof (value_type (item_value it)) _ Ht) as (c1&c2&Hst&Hbytes).
  assert (Henc : encode_value prof (item_value it) kTLVType_Structure (ContextTag (info_tag (item_info it))) =
    Some (([c1; c2] ++ stage_value (value_type (item_value it)) (value_field (item_value it))) ++ value_data (item_value it))).
  { assert (Hh : head_of kTLVType_Structure prof (value_type (item_value it)) (ContextTag (info_tag (item_info it)))
      (value_field (item_value it)) = Some ([c1; c2] ++ stage_value (value_type (item_value it)) (value_field (item_value it))))
      by (unfold head_of; by rewrite Hst).
    destruct (item_value it) eqn:E; cbn [encode_value]; rewrite ?Hh; try done.
    destruct it as [info|info]; cbn in E; by repeat case_match. }
  eexists. split; [exact Henc|]. rewrite !length_app, stage_value_length by done.
  pose proof (value_size_max (value_type (item_value it))). unfold dataItemSizeEstimate.
  assert (Hd : value_data (item_value it) = match info_type (item_info it) with
    | optionalQRCodeInfoTypeString => info_data (item_info it) | _ => [] end)
    by (destruct it as [info|info]; cbn; by destruct (info_type _)).
  split; [rewrite Hd; destruct (info_type (item_info it)); cbn [length]; lia|].
  apply is_bytes_app. split; [apply is_bytes_app; split; [done|by apply stage_value_bytes]|].
  rewrite Hd. by apply item_data_bytes.
Qed.

Fixpoint items_size (its : list item) : Z :=
  match its with
  | [] => 0
  | it :: its => dataItemSizeEstimate (item_info it) + items_size its
  end.

Lemma estimate_data it : Z.of_nat (length (info_data (item_info it))) <= dataItemSizeEstimate (item_info it) ∨
  info_type (item_info it) ≠ optionalQRCodeInfoTypeString.
Proof. unfold dataItemSizeEstimate. destruct (info_type (item_info it)); auto with lia. Qed.

Lemma item_data_small it :
  item_ok it → Z.of_nat (length (info_data (item_info it))) <= dataItemSizeEstimate (item_info it).
Proof.
  intros Hok. destruct (estimate_data it) as [|Hne]; [done|]. assert (Hd : info_data (item_info it) = []).
  { destruct it as [info|info]; cbn in *; unfold vendor_ok, extension_ok in Hok; destruct (info_type _); naive_solver. }
  rewrite Hd. unfold dataItemSizeEstimate. destruct (info_type _); cbn; lia.
Qed.

Lemma item_estimate_pos it : 0 <= dataItemSizeEstimate (item_info it).
Proof. unfold dataItemSizeEstimate. destruct (info_type _); lia. Qed.

Lemma items_size_pos its : 0 <= items_size its.
Proof. induction its as [|it its IH]; cbn; [lia|]. pose proof (item_estimate_pos it). lia. Qed.

Lemma items_encoded prof its :
  Forall item_ok its → items_size its <= UINT32_MAX →
  valid_list (map item_elem its) ∧
  ∃ bs, encode_list prof kTLVType_Structure (map item_elem its) = Some bs ∧ Z.of_nat (length bs) <= items_size its ∧ is_bytes bs.
Proof.
  intros Hok. induction Hok as [|it its Hit Hok IH]; intros Hsize; cbn [items_size map] in *.
  { split; [constructor|]. exists []. split; [done|]. split; [done|constructor]. }
  pose proof (item_estimate_pos it). pose proof (items_size_pos its). pose proof (item_data_small it Hit).
  destruct (IH ltac:(lia)) as [Hval (bs&Hbs&Hl&Hbb)].
  destruct (item_encoded prof it Hit ltac:(lia)) as (b&Hb&Hbl&Hbb1).
  pose proof (context_tag_parts _ (item_tag_range it Hit)) as (Htag&_).
  split; [constructor; [split; [done|]|done]; by apply item_value_valid; [|lia]|].
  exists (b ++ bs). cbn [item_elem encode_list]. rewrite Hb. cbn. rewrite Hbs. cbn. split; [done|].
  split; [rewrite length_app; lia|by apply is_bytes_app].
Qed.

(** ** The generator *)

Lemma put_list_app cs1 cs2 w : put_list (cs1 ++ cs2) w = wseq (put_list cs1) (put_list cs2) w.
Proof.
  revert w. induction cs1 as [|[tag v] cs1 IH]; intros w; [done|]. cbn [app put_list]. unfold wseq in *.
  destruct (put_value v tag w) as [err w']. by destruct err; rewrite ?IH.
Qed.

Lemma write_infos_put infos w :
  Forall vendor_ok infos → write_infos infos w = put_list (map item_elem (map IVendor infos)) w.
Proof.
  intros Hok. revert w. induction Hok as [|info infos [_ Hi] Hok IH]; intros w; [done|].
  cbn [write_infos map put_list item_elem item_info item_value]. unfold wseq.
  assert (writeTag (ContextTag (info_tag info)) info w =
    put_value (match info_type info with optionalQRCodeInfoTypeString => VString (info_data info) | _ => VInt (info_int32 info) end)
      (ContextTag (info_tag info)) w) as ->.
  { unfold writeTag. destruct (info_type info); try contradiction; [|reflexivity].
    destruct Hi as [Ht _]. rewrite c_str_text by done. reflexivity. }
  destruct (put_value _ _ w) as [err w']. by destruct err; rewrite ?IH.
Qed.

Lemma write_extensions_put infos w :
  Forall extension_ok infos → write_extensions infos w = put_list (map item_elem (map IExtension infos)) w.
Proof.
  intros Hok. revert w. induction Hok as [|info infos (_&_&_&_&Hi) Hok IH]; intros w; [done|].
  cbn [write_extensions map put_list item_elem item_info item_value]. unfold wseq.
  assert (writeTag_ext (ContextTag (info_tag (ext_info info))) info w =
    put_value (match info_type (ext_info info) with
      | optionalQRCodeInfoTypeString => VString (info_data (ext_info info)) | _ => VUInt (ext_uint32 info) end)
      (ContextTag (info_tag (ext_info info))) w) as ->.
  { unfold writeTag_ext, writeTag. destruct (info_type (ext_info info)); try contradiction; [|reflexivity].
    destruct Hi as [Ht _]. rewrite c_str_text by done. reflexivity. }
  destruct (put_value _ _ w) as [err w']. by destruct err; rewrite ?IH.
Qed.

(** The structure with the elements [cs], through a container writer. *)
Lemma open_put_close cs body n :
  valid_list cs → encode_list kProfileIdNotSpecified kTLVType_Structure cs = Some body →
  Z.of_nat (length body) + 2 <= n <= UINT32_MAX →
  ∃ inner inner' c root root',
    TLVWriter_OpenContainer AnonymousTag kTLVType_Structure TLVWriter_new (TLVWriter_Init n) = (CHIP_NO_ERROR, inner, root) ∧
    put_list cs inner = (CHIP_NO_ERROR, inner') ∧
    TLVWriter_CloseContainer inner' root = (CHIP_NO_ERROR, c, root') ∧
    TLVWriter_Finalize root' = (CHIP_NO_ERROR, root') ∧
    wOut root' = [0x15] ++ body ++ end_marker ∧ wLenWritten root' = Z.of_nat (length body) + 2.
Proof.
  intros Hcs Henc Hn. unfold UINT32_MAX in Hn. destruct (Init_ready n) as [Hr _]; [unfold UINT32_MAX; lia|].
  set (w0 := mkWriter kProfileIdNotSpecified [] n 0 (n - 1) 0 kTLVType_NotSpecified kExpectedInitializationCookie false true).
  set (inner := mkWriter kProfileIdNotSpecified [0x15] (n - 1) 0 (n - 2) 0 kTLVType_Structure kExpectedInitializationCookie false true).
  set (root := mkWriter kProfileIdNotSpecified [0x15] (n - 1) 1 (n - 1) 0 kTLVType_NotSpecified kExpectedInitializationCookie true true).
  assert (Hhead : TLVWriter_WriteElementHead kTLVType_Structure AnonymousTag 0 w0 = (CHIP_NO_ERROR, wappend [0x15] w0)).
  { apply WriteElementHead_fits; [|done|split; cbn; lia]. unfold writer_ready. cbn. split_and!; try done; solve_width. }
  assert (Hw0 : wappend [0x15] w0 = wset_containerOpen false root).
  { unfold wappend, w0, root, wset_containerOpen. cbn. by rewrite !u32_id by solve_width. }
  assert (Hopen : TLVWriter_OpenContainer AnonymousTag kTLVType_Structure TLVWriter_new (TLVWriter_Init n) =
    (CHIP_NO_ERROR, inner, root)).
  { assert (TLVWriter_Init n = wset_maxLen n w0) as ->.
    { unfold TLVWriter_Init, UINT32_MAX. rewrite (proj2 (Z.ltb_ge _ _)) by lia. by rewrite u32_id by solve_width. }
    unfold TLVWriter_OpenContainer. cbn [negb]. change (IsInitialized (wset_maxLen n w0)) with true.
    change (TLVTypeIsContainer kTLVType_Structure) with true. cbn [negb]. unfold write_container_head, kEndOfContainerMarkerSize.
    cbn [wCloseContainerReserved wset_maxLen wMaxLen w0 andb]. rewrite (proj2 (Z.leb_le _ _)) by lia. cbn [negb].
    rewrite (u32_id (n - 1)) by solve_width.
    change (wset_maxLen (n - 1) _) with w0. rewrite Hhead, Hw0. unfold root, inner. cbn.
    replace (n - 1 - 1) with (n - 2) by lia. by rewrite u32_id by solve_width. }
  assert (Hri : writer_ready inner) by (unfold writer_ready, inner; cbn; split_and!; try done; solve_width).
  assert (Hroom : writer_room inner (Z.of_nat (length body))) by (split; cbn; lia).
  exists inner, (wappend body inner), (TLVWriter_Init 0), root,
    (mkWriter kProfileIdNotSpecified ([0x15] ++ body ++ end_marker) (n - Z.of_nat (length body) - 2) (Z.of_nat (length body) + 2) n 0
       kTLVType_NotSpecified kExpectedInitializationCookie false true).
  split_and!; try done.
  - apply put_list_writes; try done. apply Forall_forall. intros c _. apply put_value_writes.
  - destruct (wappend_ready body inner Hri Hroom) as (_&Hrem&Hlen).
    unfold TLVWriter_CloseContainer. change (IsInitialized root) with true.
    change (TLVTypeIsContainer (wContainerType (wappend body inner))) with true.
    change (wContainerOpen (wappend body inner)) with false. cbn [negb]. rewrite Hrem, Hlen.
    cbn [wImplicitProfileId wOut wCloseContainerReserved wLenWritten wMaxLen wReservedSize wContainerType
      wInitializationCookie root inner wappend wRemainingLen]. unfold kEndOfContainerMarkerSize.
    rewrite (u32_id (n - 1 + 1)), (u32_id (1 + _)) by solve_width. rewrite Z.add_0_l.
    rewrite (WriteElementHead_fits _ _ _ end_marker); [|unfold writer_ready; cbn; split_and!; try done; solve_width|done|split; cbn; lia].
    unfold wappend. cbn [wImplicitProfileId wOut wCloseContainerReserved wLenWritten wMaxLen wReservedSize wContainerType
      wInitializationCookie wRemainingLen wContainerOpen]. change (Z.of_nat (length end_marker)) with 1.
    rewrite !u32_id by solve_width. rewrite <- app_assoc.
    replace (n - 1 - Z.of_nat (length body) - 1) with (n - Z.of_nat (length body) - 2) by lia.
    replace (1 + Z.of_nat (length body) + 1) with (Z.of_nat (length body) + 2) by lia.
    replace (n - 1 + 1) with n by lia. done.
Qed.

Lemma generateTLV_items sp n :
  Forall item_ok (items sp) → items sp ≠ [] → items_size (items sp) + 2 <= n <= UINT32_MAX →
  ∃ body, encode_list kProfileIdNotSpecified kTLVType_Structure (map item_elem (items sp)) = Some body ∧
    Z.of_nat (length body) <= items_size (items sp) ∧ is_bytes body ∧
    generateTLVFromOptionalData sp n = (CHIP_NO_ERROR, [0x15] ++ body ++ end_marker).
Proof.
  intros Hok Hne Hn. destruct (items_encoded kProfileIdNotSpecified (items sp) Hok ltac:(lia)) as [Hval (body&Henc&Hlen&Hbb)].
  exists body. split; [done|]. split; [done|]. split; [done|].
  destruct (open_put_close _ body n Hval Henc ltac:(lia)) as (inner&inner'&c&root&root'&Hopen&Hput&Hclose&Hfin&Hout&Hwritten).
  unfold items in Hok, Hne, Hput. apply Forall_app in Hok as [Hv He]. rewrite !Forall_map in Hv, He.
  rewrite map_app, put_list_app in Hput. unfold wseq in Hput.
  rewrite <- (write_infos_put (getAllOptionalVendorData sp)) in Hput by exact Hv.
  assert (Hw : wseq (write_infos (getAllOptionalVendorData sp)) (write_extensions (getAllOptionalExtensionData sp)) inner =
    (CHIP_NO_ERROR, inner')).
  { unfold wseq. destruct (write_infos _ _) as [err w]. destruct err; try done. by rewrite write_extensions_put. }
  unfold generateTLVFromOptionalData. rewrite Hopen, Hw, Hclose, Hfin, Hout, Hwritten.
  rewrite take_ge by (rewrite !length_app; cbn [length]; change (length end_marker) with 1%nat; lia).
  destruct (getAllOptionalVendorData sp); [|done]. by destruct (getAllOptionalExtensionData sp).
Qed.

(** ** The parser *)

Section OnItem.
Context (b : TLVReader) (ct c : Z) (it : item) (body rest : list Z) (n : Z).
Context (Hok : item_ok it) (Hc : c ∈ tag_controls)
  (Hdata : Z.of_nat (length (info_data (item_info it))) <= UINT32_MAX)
  (Hbody : value_body (rImplicitProfileId b) (item_value it) = Some body)
  (Hsmall : in_u32 (Z.of_nat (length (body ++ rest)))).

Let r := on_value b ct c (ContextTag (info_tag (item_info it))) (item_value it) (body ++ rest) n.
Let Hvalid : valid_value (item_value it) := item_value_valid it Hok Hdata.

Lemma Get_CharSpan_item s :
  item_value it = VString s → text_ok s → TLVReader_Get_CharSpan [] r = ROk s r.
Proof.
  intros Hs Ht. pose proof (Get_ByteSpan_value b ct c (ContextTag (info_tag (item_info it))) _ body rest n Hvalid Hc Hbody Hsmall s
    (or_introl Hs)) as Hget. fold r in Hget.
  assert (HET : ElementType r = value_type (VString s)) by (rewrite <- Hs; by apply ElementType_value).
  unfold TLVReader_Get_CharSpan. rewrite HET.
  replace (TLVTypeIsUTF8String (value_type (VString s))) with true by (cbn; unfold length_field; by repeat case_match).
  cbn [negb]. unfold TLVReader_Get_ByteSpan, rbind in Hget |- *.
  destruct (TLVReader_GetDataPtr r) as [[bytes|] r'| | |] eqn:E; try done.
  - assert (r' = r) as -> by (unfold TLVReader_GetDataPtr in E; by repeat case_match; simplify_eq).
    cbn in Hget. injection Hget as Hget. rewrite Hget, until_text by done.
    destruct Ht as [Hchars Hutf]. rewrite Hutf, andb_false_r. rewrite bool_decide_false by (by apply text_last).
    by rewrite andb_false_r.
  - assert (r' = r) as -> by (unfold TLVReader_GetDataPtr in E; by repeat case_match; simplify_eq).
    cbn in Hget. rewrite take_nil in Hget. by injection Hget as <-.
Qed.

Lemma Get_i32_item z :
  item_value it = VInt z → - 2 ^ 31 <= z <= 2 ^ 31 - 1 → get_from (λ r, TLVReader_Get_i32 r 0) r = ROk z r.
Proof.
  intros Hz Hr. unfold get_from, TLVReader_Get_i32, narrow.
  pose proof (Get_i64_value b ct c (ContextTag (info_tag (item_info it))) _ body rest n Hvalid Hc Hbody z 0 Hz) as Hget.
  fold r in Hget. rewrite Hget. rewrite !(proj2 (Z.leb_le _ _)) by lia. done.
Qed.

Lemma Get_u32_item z :
  item_value it = VUInt z → in_u32 z → get_from (λ r, TLVReader_Get_u32 r 0) r = ROk z r.
Proof.
  intros Hz Hr. assert (HET : ElementType r = value_type (VUInt z)) by (rewrite <- Hz; by apply ElementType_value).
  assert (HV : rElemLenOrVal r = z).
  { change (rElemLenOrVal r) with (value_read (item_value it)). rewrite value_read_unsigned by (done || by rewrite Hz). by rewrite Hz. }
  unfold get_from, TLVReader_Get_u32, narrow, TLVReader_Get_u64. rewrite HET, HV. unfold in_u32 in Hr.
  assert ((TLVElementType.UInt8 <=? value_type (VUInt z)) && (value_type (VUInt z) <=? TLVElementType.UInt64) = true) as ->
    by (cbn; by destruct (uint_elem_type_cases z) as [[-> _]|[[-> _]|[[-> _]| ->]]]).
  rewrite !(proj2 (Z.leb_le _ _)) by lia. done.
Qed.

Lemma retrieve_vendor info sp :
  it = IVendor info →
  is_info_type (TLVReader_GetType r) = true ∧ retrieve_element sp r = Returns (CHIP_NO_ERROR, item_add it sp).
Proof.
  intros E. pose proof (GetType_value b ct c (ContextTag (info_tag (item_info it))) _ body rest n Hvalid Hc Hbody) as Htype. fold r in Htype.
  destruct (context_tag_parts _ (item_tag_range it Hok)) as (_&Hctx&Hnum&_). pose proof (item_tag_range it Hok) as Ht.
  unfold retrieve_element. change (TLVReader_GetTag r) with (ContextTag (info_tag (item_info it))).
  rewrite Hctx, Hnum, u8_id by solve_width. cbn [negb].
  assert (Hinfo : item_info it = info) by (by rewrite E). assert (Hv : vendor_ok info) by (pose proof Hok as Hok2; by rewrite E in Hok2).
  assert (Hval : item_value it = item_value (IVendor info)) by (by rewrite E).
  assert (Hadd : item_add it sp = item_add (IVendor info) sp) by (by rewrite E).
  rewrite Hinfo, Hadd. destruct info as [tg ty dat z]. destruct Hv as [Htg Hv].
  cbn [info_tag info_type info_data info_int32 item_value] in Htg, Hv, Hval. cbn [info_tag].
  assert (Hcom : IsCommonTag tg = false) by (unfold IsCommonTag; apply Z.ltb_ge; lia).
  unfold getNumericTypeFor, IsVendorTag. rewrite Hcom. cbn [negb]. rewrite Htype, Hval.
  destruct ty; try contradiction; destruct Hv as [Hv Hz]; (split; [done|]);
    cbn [Z.eqb Pos.eqb kTLVType_UTF8String kTLVType_SignedInteger kTLVType_UnsignedInteger].
  - unfold with_reader, retrieveOptionalInfo, retrieveOptionalInfoString, rbind. cbv beta iota. rewrite (Get_CharSpan_item dat) by done.
    cbn [rret info_tag info_int32]. unfold addOptionalVendorData, IsVendorTag. cbn [info_tag]. by rewrite Hcom, Hz.
  - unfold with_reader, retrieveOptionalInfo, retrieveOptionalInfoInt32, rbind. cbv beta iota. rewrite (Get_i32_item z) by done.
    cbn [rret info_tag info_data]. unfold addOptionalVendorData, IsVendorTag. cbn [info_tag]. by rewrite Hcom, Hv.
Qed.

Lemma retrieve_extension info sp :
  it = IExtension info →
  is_info_type (TLVReader_GetType r) = true ∧ retrieve_element sp r = Returns (CHIP_NO_ERROR, item_add it sp).
Proof.
  intros E. pose proof (GetType_value b ct c (ContextTag (info_tag (item_info it))) _ body rest n Hvalid Hc Hbody) as Htype. fold r in Htype.
  destruct (context_tag_parts _ (item_tag_range it Hok)) as (_&Hctx&Hnum&_). pose proof (item_tag_range it Hok) as Ht.
  unfold retrieve_element. change (TLVReader_GetTag r) with (ContextTag (info_tag (item_info it))).
  rewrite Hctx, Hnum, u8_id by solve_width. cbn [negb].
  assert (Hinfo : item_info it = ext_info info) by (by rewrite E). assert (Hv : extension_ok info) by (pose proof Hok as Hok2; by rewrite E in Hok2).
  assert (Hval : item_value it = item_value (IExtension info)) by (by rewrite E).
  assert (Hadd : item_add it sp = item_add (IExtension info) sp) by (by rewrite E).
  rewrite Hinfo, Hadd. destruct info as [[tg ty dat z] i64 n32 n64].
  destruct Hv as (Htg&Hi32&Hi64&Hn64&Hv).
  cbn [ext_info ext_int64 ext_uint32 ext_uint64 info_tag info_type info_data info_int32 item_value] in Htg, Hi32, Hi64, Hn64, Hv, Hval.
  cbn [info_tag ext_info]. rewrite Htg, Hi32, Hi64, Hn64.
  rewrite Htype, Hval. destruct ty; try contradiction; destruct Hv as [Hv Hz]; (split; [done|]);
    cbn [Z.eqb Pos.eqb kTLVType_UTF8String kTLVType_SignedInteger kTLVType_UnsignedInteger].
  - unfold with_reader, retrieveOptionalInfo_ext, retrieveOptionalInfo, retrieveOptionalInfoString, rbind.
    change (IsCommonTag kSerialNumberTag) with true. cbv beta iota. rewrite (Get_CharSpan_item dat) by done. by rewrite Hz.
  - unfold with_reader, getNumericTypeFor. change (IsCommonTag kSerialNumberTag) with true. change (IsVendorTag kSerialNumberTag) with false.
    change (kSerialNumberTag =? kSerialNumberTag) with true. cbv iota.
    unfold retrieveOptionalInfo_ext, retrieveOptionalInfoUInt32, rbind. cbv beta iota. rewrite (Get_u32_item n32) by done. by rewrite Hv.
Qed.

Lemma retrieve_item sp :
  is_info_type (TLVReader_GetType r) = true ∧ retrieve_element sp r = Returns (CHIP_NO_ERROR, item_add it sp).
Proof.
  assert (Hcase : ∀ i, (∃ info, i = IVendor info) ∨ (∃ info, i = IExtension info)) by (intros []; eauto).
  destruct (Hcase it) as [[info E]|[info E]]; [by eapply retrieve_vendor|by eapply retrieve_extension].
Qed.

End OnItem.

(** The rest of the loop once an element has been taken: the items [its] are still
    to come. *)
Definition infos_rest (fuel : nat) (sp : SetupPayload) (r : TLVReader) : outcome (chip_error * SetupPayload) :=
  match TLVReader_Next r with
  | RErr CHIP_ERROR_END_OF_TLV _ => Returns (CHIP_NO_ERROR, sp)
  | res => with_reader res sp (λ _ r, infos_loop fuel sp r)
  end.

Lemma infos_rest_items its r b bs n sp fuel :
  Forall item_ok its → items_size its <= UINT32_MAX → rContainerOpen b = false →
  encode_list (rImplicitProfileId b) kTLVType_Structure (map item_elem its) = Some bs →
  between r b kTLVType_Structure (bs ++ end_marker) n → within_max b n (Z.of_nat (length (bs ++ end_marker))) →
  (length its <= fuel)%nat →
  infos_rest fuel sp r = Returns (CHIP_NO_ERROR, foldl (λ sp it, item_add it sp) sp its).
Proof.
  intros Hok. revert r bs n sp fuel.
  induction Hok as [|it its Hit Hok IH]; intros r bs n sp fuel Hsize Hopen Henc Hbt Hmax Hfuel; cbn [map items_size] in *.
  { injection Henc as <-. unfold infos_rest.
    destruct (Next_end r b kTLVType_Structure [] n) as (c&_&->); try done. unfold container_types. set_solver. }
  pose proof (item_estimate_pos it). pose proof (items_size_pos its). pose proof (item_data_small it Hit).
  cbn [item_elem encode_list] in Henc.
  destruct (encode_value _ (item_value it) _ _) as [b1|] eqn:Hb1; [|done]. cbn in Henc.
  destruct (encode_list _ _ (map item_elem its)) as [b2|] eqn:Hb2; [|done]. cbn in Henc. injection Henc as <-.
  rewrite <- app_assoc in Hbt, Hmax. destruct (within_split _ _ _ _ Hmax) as (Hm1&Hm2&_).
  destruct (context_tag_parts _ (item_tag_range it Hit)) as (Htag&_&_&Hnorm).
  pose proof (item_value_valid it Hit ltac:(lia)) as Hv.
  destruct (Next_value r b kTLVType_Structure _ (item_value it) b1 (b2 ++ end_marker) n Hv Htag Hb1 Hbt Hm1)
    as (c&body&k&Hc&Hbody&Hk&Hlen&Hnext).
  rewrite Hnorm in Hnext. unfold infos_rest. rewrite Hnext. cbn [with_reader].
  destruct fuel as [|fuel]; [cbn in Hfuel; lia|]. cbn [infos_loop].
  assert (Hmb : within_max b (n + k) (Z.of_nat (length body + length (b2 ++ end_marker)))).
  { destruct Hm1 as (?&?&?&?), Hm2 as (?&?&Hl&?). rewrite !length_app in *. split_and!; (lia || done). }
  assert (Hsm : in_u32 (Z.of_nat (length (body ++ b2 ++ end_marker)))).
  { destruct Hmb as (?&?&?&?). rewrite length_app. solve_width. }
  destruct (retrieve_item b kTLVType_Structure c it body (b2 ++ end_marker) (n + k) Hit Hc ltac:(lia) Hbody Hsm sp) as [-> ->].
  cbn [obind].
  change (infos_rest fuel (item_add it sp) (on_value b kTLVType_Structure c (ContextTag (info_tag (item_info it))) (item_value it)
    (body ++ b2 ++ end_marker) (n + k)) = Returns (CHIP_NO_ERROR, foldl (λ sp it, item_add it sp) sp (it :: its))).
  cbn [foldl]. apply (IH _ b2 (n + Z.of_nat (length b1))); try done; try lia; [|cbn in Hfuel; lia].
  replace (n + Z.of_nat (length b1)) with (n + k + Z.of_nat (length body)) by lia.
  apply Skip_value; try done. destruct Hmb as (?&?&?&?). split_and!; (lia || done).
Qed.

Lemma items_count prof its bs :
  Forall item_ok its → items_size its <= UINT32_MAX →
  encode_list prof kTLVType_Structure (map item_elem its) = Some bs → (length its <= length bs)%nat.
Proof.
  intros Hok Hsize Henc. destruct (items_encoded prof its Hok Hsize) as [Hval _].
  pose proof (heads_list_le _ _ _ _ Hval Henc) as Hh. enough (length its <= heads_list (map item_elem its))%nat by lia.
  clear. induction its as [|it its IH]; [cbn; lia|]. cbn [map item_elem heads_list length].
  assert (1 <= heads (item_value it))%nat by (destruct (item_value it); cbn; lia). lia.
Qed.

(** The first of some items is found, and enough bytes are left for the others. *)
Lemma first_item its r b bs tail n :
  Forall item_ok its → its ≠ [] → items_size its <= UINT32_MAX →
  encode_list (rImplicitProfileId b) kTLVType_Structure (map item_elem its) = Some bs →
  between r b kTLVType_Structure (bs ++ tail) n → within_max b n (Z.of_nat (length (bs ++ tail))) →
  ∃ r', TLVReader_Next r = ROk tt r' ∧ (length its <= S (length (input r')))%nat.
Proof.
  intros Hok Hne Hsize Henc Hbt Hmax. destruct its as [|it its]; [done|]. apply Forall_cons in Hok as [Hit Hok].
  cbn [items_size map] in *. pose proof (item_estimate_pos it). pose proof (items_size_pos its). pose proof (item_data_small it Hit).
  cbn [item_elem encode_list] in Henc.
  destruct (encode_value _ (item_value it) _ _) as [b1|] eqn:Hb1; [|done]. cbn in Henc.
  destruct (encode_list _ _ (map item_elem its)) as [b2|] eqn:Hb2; [|done]. cbn in Henc. injection Henc as <-.
  rewrite <- app_assoc in Hbt, Hmax. destruct (within_split _ _ _ _ Hmax) as (Hm1&_).
  destruct (context_tag_parts _ (item_tag_range it Hit)) as (Htag&_).
  pose proof (item_value_valid it Hit ltac:(lia)) as Hv.
  destruct (Next_value r b kTLVType_Structure _ (item_value it) b1 (b2 ++ tail) n Hv Htag Hb1 Hbt Hm1)
    as (c&body&k&Hc&Hbody&Hk&Hlen&Hnext).
  eexists. split; [exact Hnext|]. pose proof (items_count _ its b2 Hok ltac:(lia) Hb2).
  unfold input. cbn [point_bytes rReadPoint on_value elem_at rset_elem core_at length]. rewrite !length_app. lia.
Qed.

(** The parser on the TLV of the generator. *)
Lemma parseTLVFields_items its body sp :
  Forall item_ok its → its ≠ [] → items_size its + 2 <= UINT32_MAX → Z.of_nat (length body) <= items_size its →
  encode_list kProfileIdNotSpecified kTLVType_Structure (map item_elem its) = Some body →
  parseTLVFields sp ([0x15] ++ body ++ end_marker) =
    Returns (CHIP_NO_ERROR, foldl (λ sp it, item_add it sp) sp its).
Proof.
  intros Hok Hne Hsize Hlen Henc. set (tlv := [0x15] ++ body ++ end_marker).
  assert (Hl : Z.of_nat (length tlv) = Z.of_nat (length body) + 2).
  { unfold tlv. rewrite !length_app. cbn [length]. change (length end_marker) with 1%nat. lia. }
  destruct (items_encoded kProfileIdNotSpecified its Hok ltac:(lia)) as [Hval _].
  set (cont := VContainer kTLVType_Structure (map item_elem its)).
  assert (Hvc : valid_value cont) by (apply valid_container; split; [unfold container_types; set_solver|done]).
  assert (Hcont : encode_value kProfileIdNotSpecified cont kTLVType_NotSpecified AnonymousTag = Some tlv).
  { unfold cont. rewrite encode_container, Henc. done. }
  unfold UINT32_MAX in *. set (b := TLVReader_Init tlv).
  assert (Hb : b = core_at b kTLVType_NotSpecified (tlv ++ []) 0 ∧ rMaxLen b = Z.of_nat (length tlv)).
  { unfold b, TLVReader_Init, core_at, UINT32_MAX. rewrite (proj2 (Z.ltb_ge _ _)) by lia. rewrite u32_id by solve_width.
    cbn. by rewrite Nat2Z.id, take_ge, app_nil_r by done. }
  destruct Hb as [Hb Hmaxb].
  destruct (Next_value b b kTLVType_NotSpecified AnonymousTag cont tlv [] 0) as (c&cb&k&Hc&Hcb&Hk&Hclen&Hnext); try done.
  { rewrite Hb at 1. apply between_core. }
  { unfold within_max. rewrite Hmaxb. cbn [rLenRead b TLVReader_Init]. split_and!; solve_width. }
  assert (Hcb' : cb = body ++ end_marker) by (unfold cont in Hcb; cbn in Hcb; rewrite Henc in Hcb; by injection Hcb).
  assert (k = 1) as -> by (rewrite Hcb', length_app in Hclen; change (length end_marker) with 1%nat in Hclen; lia).
  subst cb. rewrite app_nil_r in Hnext.
  unfold parseTLVFields, UINT32_MAX. rewrite (proj2 (Z.leb_le _ _)) by lia. cbn [negb]. fold b. rewrite Hnext.
  cbn [with_reader].
  set (r1 := on_value b kTLVType_NotSpecified c (norm_tag AnonymousTag) cont (body ++ end_marker) (0 + 1)).
  assert (Htype : TLVReader_GetType r1 = kTLVType_Structure).
  { unfold TLVReader_GetType, r1. by rewrite ElementType_value by done. }
  assert (Hopen : openTLVContainer r1 kTLVType_Structure AnonymousTag = inr (core_at b kTLVType_Structure (body ++ end_marker) 1)).
  { unfold openTLVContainer. rewrite Htype. change (TLVReader_GetTag r1) with AnonymousTag.
    assert (HET : ElementType r1 = kTLVType_Structure) by (unfold r1; by rewrite ElementType_value by done).
    unfold TLVReader_GetLength, TLVReader_OpenContainer. rewrite HET. done. }
  rewrite Htype, Hopen. cbn [negb Z.eqb Pos.eqb kTLVType_Structure].
  set (inner := core_at b kTLVType_Structure (body ++ end_marker) 1).
  assert (Hmax1 : within_max b 1 (Z.of_nat (length (body ++ end_marker)))).
  { unfold within_max. rewrite Hmaxb, Hl, length_app. change (rLenRead b) with 0. change (length end_marker) with 1%nat.
    split_and!; solve_width. }
  assert (Hsz : items_size its <= UINT32_MAX) by (unfold UINT32_MAX; lia).
  destruct (first_item its inner b body end_marker 1) as (r2&Hnext2&Hfuel); try done.
  assert (Hrest : infos_rest (S (length (input r2))) sp inner = Returns (CHIP_NO_ERROR, foldl (λ sp it, item_add it sp) sp its)).
  { by apply (infos_rest_items its inner b body 1). }
  unfold infos_rest in Hrest. rewrite Hnext2 in Hrest |- *. cbn [with_reader] in Hrest |- *.
  unfold retrieveOptionalInfos. by rewrite Hrest.
Qed.

End Items.
