(* ===== verification/QrCodeThm.v ===== *)
(** * QR code: what is generated is parsed back

    Payloads as clients build them, the invariant of their optional data, and the round
    trip through the generator and the parser, with base 38 and TLV in between. *)

From stdpp Require Import sorting.
From S2P Require Import Prelude.
From S2P Require Import COutcome.
From S2P Require Import ChipError.
From S2P Require Import Endian.
From S2P Require Import TlvTypes.
From S2P Require Import TlvReader.
From S2P Require Import TlvElement.
From S2P Require Import SetupPayload.
From S2P Require Import ManualCode.
From S2P Require Import ManualCodeThm.
From S2P Require Import Base38.
From S2P Require Import QrCode.
From S2P Require Import QrBits.
From S2P Require Import QrTlv.

(** ** Ordered maps *)

Section OrderedMaps.
Context {A : Type} (key : A → Z) (P : A → Prop).

(** Keys ascend, and each value is filed under its own. *)
Definition map_wf (m : list (Z * A)) : Prop :=
  StronglySorted (λ p q, p.1 < q.1) m ∧ Forall (λ p, key p.2 = p.1 ∧ P p.2) m.

Lemma map_set_keys k (v : A) m (Q : Z → Prop) : Q k → Forall (λ p, Q p.1) m → Forall (λ p, Q p.1) (map_set k v m).
Proof.
  intros Hk Hm. induction Hm as [|[k' v'] m Hp Hm IH]; cbn [map_set]; [by repeat constructor|].
  repeat case_match; constructor; try done; by constructor.
Qed.

Lemma map_set_wf v m : map_wf m → P v → map_wf (map_set (key v) v m).
Proof.
  intros [Hs Hf] Hv. induction Hs as [|[k' v'] m Hs IH Hlt]; cbn [map_set].
  { split; [by repeat constructor|]. by repeat constructor. }
  apply Forall_cons in Hf as [Hp Hf]. specialize (IH Hf) as [IHs IHf].
  destruct (Z.ltb_spec (key v) k') as [Hk|Hk].
  { split; [|constructor; [done|by constructor]]. constructor; [by constructor|]. constructor; [done|].
    eapply Forall_impl; [exact Hlt|]. cbn. lia. }
  destruct (Z.eqb_spec (key v) k') as [Hk'|Hk'].
  { split; [|by constructor]. constructor; [done|]. eapply Forall_impl; [exact Hlt|]. cbn. lia. }
  split; [|by constructor]. constructor; [done|]. apply (map_set_keys _ _ _ (λ k, k' < k)); [cbn; lia|done].
Qed.

Lemma map_erase_sub k m (Q : Z * A → Prop) : Forall Q m → Forall Q (map_erase k m).
Proof.
  induction 1 as [|[k' v] m Hp Hm IH]; cbn [map_erase]; [constructor|]. case_match; [done|by constructor].
Qed.

Lemma map_erase_wf k m : map_wf m → map_wf (map_erase k m).
Proof.
  intros [Hs Hf]. split; [|by apply map_erase_sub]. clear Hf.
  induction Hs as [|[k' v] m Hs IH Hlt]; cbn [map_erase]; [constructor|]. case_match; [done|].
  constructor; [done|by apply map_erase_sub].
Qed.

Lemma map_set_last k (v : A) m : Forall (λ p, p.1 < k) m → map_set k v m = m ++ [(k, v)].
Proof.
  induction 1 as [|[k' v'] m Hp _ IH]; [done|]. cbn [map_set app fst] in *.
  rewrite (proj2 (Z.ltb_ge _ _)), (proj2 (Z.eqb_neq _ _)) by lia. by rewrite IH.
Qed.

(** Adding the values in order builds the map again. *)
Lemma map_rebuilt acc m :
  map_wf (acc ++ m) → foldl (λ m v, map_set (key v) v m) acc (map snd m) = acc ++ m.
Proof.
  revert acc. induction m as [|[k v] m IH]; intros acc [Hs Hf]; cbn [map foldl snd]; [by rewrite app_nil_r|].
  assert (key v = k) as -> by (apply Forall_app in Hf as [_ Hf]; by apply Forall_cons in Hf as [[? _] _]).
  assert (Hacc : Forall (λ p, p.1 < k) acc).
  { apply Forall_forall. intros p Hp.
    by eapply (StronglySorted_app_1_elem_of _ _ _ p (k, v) Hs); [|left]. }
  rewrite map_set_last by done. rewrite IH; by rewrite <- app_assoc.
Qed.

End OrderedMaps.

(** ** Payloads that clients build *)

Inductive built : SetupPayload → Prop :=
| built_new c : built (mkSetupPayload c [] [])
| built_contents f sp : built sp → built (set_contents f sp)
| built_vendor_string tag s sp : built sp → in_u8 tag → text_ok s → built (addOptionalVendorData_string tag s sp).2
| built_vendor_int tag z sp :
    built sp → in_u8 tag → - 2 ^ 31 <= z <= 2 ^ 31 - 1 → built (addOptionalVendorData_int tag z sp).2
| built_vendor_remove tag sp : built sp → built (removeOptionalVendorData tag sp).2
| built_serial_string s sp : built sp → text_ok s → built (addSerialNumber_string s sp).2
| built_serial_uint n sp : built sp → in_u32 n → built (addSerialNumber_uint n sp).2
| built_serial_remove sp : built sp → built (removeSerialNumber sp).2.

Definition payload_wf (sp : SetupPayload) : Prop :=
  map_wf info_tag vendor_ok (optionalVendorData sp) ∧
  map_wf (λ e, info_tag (ext_info e)) extension_ok (optionalExtensionData sp).

Lemma add_vendor_wf info sp :
  payload_wf sp → in_u8 (info_tag info) → (IsVendorTag (info_tag info) = true → vendor_ok info) →
  payload_wf (addOptionalVendorData info sp).2.
Proof.
  intros [Hv He] Ht Hok. unfold addOptionalVendorData. destruct (IsVendorTag (info_tag info)); [|done].
  split; [|done]. apply map_set_wf; auto.
Qed.

Lemma add_extension_wf info sp :
  payload_wf sp → extension_ok info → payload_wf (addOptionalExtensionData info sp).2.
Proof.
  intros [Hv He] Hok. unfold addOptionalExtensionData. destruct (IsCommonTag _); [|done].
  split; [done|]. by apply (map_set_wf (λ e, info_tag (ext_info e))).
Qed.

(** The optional data of a payload is kept in order, each piece under its own tag, vendor
    data under vendor tags and with a value of its type. *)
Lemma built_wf sp : built sp → payload_wf sp.
Proof.
  induction 1 as [c|f sp _ IH|tag s sp _ IH Ht Hs|tag z sp _ IH Ht Hz|tag sp _ [IHv IHe]|s sp _ IH Hs|n sp _ IH Hn|sp _ [IHv IHe]].
  - split; split; constructor.
  - done.
  - apply add_vendor_wf; try done. unfold vendor_ok, IsVendorTag, IsCommonTag. cbn. intros Hv. zbool. unfold in_u8 in Ht. split; [lia|done].
  - apply add_vendor_wf; try done. unfold vendor_ok, IsVendorTag, IsCommonTag. cbn. intros Hv. zbool. unfold in_u8 in Ht. split; [lia|done].
  - unfold removeOptionalVendorData. destruct (map_find _ _); [|done]. split; [by apply map_erase_wf|done].
  - by apply add_extension_wf.
  - by apply add_extension_wf.
  - unfold removeSerialNumber. destruct (map_find _ _); [|done]. split; [done|by apply map_erase_wf].
Qed.

Lemma wf_values {A} (key : A → Z) P m : map_wf key P m → Forall P (map snd m).
Proof. intros [_ Hf]. induction Hf as [|p m [_ Hp] _ IH]; cbn; by constructor. Qed.

Lemma items_ok sp : payload_wf sp → Forall item_ok (items sp).
Proof.
  intros [Hv He]. unfold items, getAllOptionalVendorData, getAllOptionalExtensionData.
  apply Forall_app. split; apply Forall_map; [by apply (wf_values _ _ _ Hv)|by apply (wf_values _ _ _ He)].
Qed.

Lemma fold_vendor infos sp :
  foldl (λ sp it, item_add it sp) sp (map IVendor infos) =
    set_vendor (foldl (λ m v, map_set (info_tag v) v m) (optionalVendorData sp) infos) sp.
Proof. revert sp. induction infos as [|info infos IH]; intros sp; cbn [map foldl]; [by destruct sp|by rewrite IH]. Qed.

Lemma fold_extension infos sp :
  foldl (λ sp it, item_add it sp) sp (map IExtension infos) =
    set_extension (foldl (λ m v, map_set (info_tag (ext_info v)) v m) (optionalExtensionData sp) infos) sp.
Proof. revert sp. induction infos as [|info infos IH]; intros sp; cbn [map foldl]; [by destruct sp|by rewrite IH]. Qed.

Lemma items_rebuilt sp :
  payload_wf sp → foldl (λ sp it, item_add it sp) (mkSetupPayload (contents sp) [] []) (items sp) = sp.
Proof.
  intros [Hv He]. unfold items, getAllOptionalVendorData, getAllOptionalExtensionData.
  rewrite foldl_app, fold_vendor, fold_extension. cbn [set_vendor optionalVendorData optionalExtensionData contents].
  rewrite (map_rebuilt info_tag vendor_ok [] _ Hv).
  rewrite (map_rebuilt (λ e, info_tag (ext_info e)) extension_ok [] _ He). by destruct sp.
Qed.

Lemma estimate_items sp : tlv_estimate sp = items_size (items sp) + 6.
Proof.
  unfold tlv_estimate, items, EstimateStructOverhead.
  assert (Hv : ∀ l a, fold_left (λ estimate data, estimate + dataItemSizeEstimate data) l a = a + items_size (map IVendor l)).
  { induction l as [|x l IH]; intros a; cbn [fold_left map items_size]; [lia|]. rewrite IH. cbn [item_info]. lia. }
  assert (He : ∀ l a, fold_left (λ estimate data, estimate + dataItemSizeEstimate (ext_info data)) l a =
    a + items_size (map IExtension l)).
  { induction l as [|x l IH]; intros a; cbn [fold_left map items_size]; [lia|]. rewrite IH. cbn [item_info]. lia. }
  rewrite Hv, He. clear Hv He. generalize (map IExtension (getAllOptionalExtensionData sp)).
  induction (map IVendor (getAllOptionalVendorData sp)) as [|it its IH]; intros l; cbn [items_size app]; [lia|].
  specialize (IH l). lia.
Qed.

(** ** Packing *)

(** Values within the widths of their C types. *)
Definition contents_widths (p : PayloadContents) : Prop :=
  in_u16 (vendorID p) ∧ in_u16 (productID p) ∧ 0 <= commissioningFlow p ∧
  match rendezvousInformation p with Some f => in_u8 f | None => True end ∧
  discriminator_ok (discriminator p) ∧ in_u32 (setUpPINCode p).

Lemma valid_fields p :
  contents_widths p → isValidQRCodePayload kProduce p = true →
  version p = 0 ∧ 0 <= commissioningFlow p < 4 ∧ mIsShortDiscriminator (discriminator p) = false ∧
  0 <= mDiscriminator (discriminator p) < 2 ^ 12 ∧ (∃ f, rendezvousInformation p = Some f ∧ in_u8 f) ∧
  0 < setUpPINCode p < 2 ^ 27.
Proof.
  intros (_&_&Hflow&Hr&Hd&Hpin) Hv. unfold isValidQRCodePayload, CheckPayloadCommonConstraints in Hv. zbool.
  match goal with H : mIsShortDiscriminator _ = false |- _ => rename H into Hs end.
  unfold discriminator_ok in Hd. rewrite Hs in Hd. unfold kLongBits in Hd.
  split_and!; try done; try lia.
  - destruct (rendezvousInformation p) as [f|]; [by exists f|done].
  - by apply valid_pin_range; [apply Hpin|].
  - by apply valid_pin_range; [apply Hpin|].
Qed.

Lemma payload_fields_ok p :
  contents_widths p → isValidQRCodePayload kProduce p = true → Forall field_ok (payload_fields p).
Proof.
  intros Hw Hv. destruct (valid_fields p Hw Hv) as (H1&H2&H3&H4&(f&Hf&Hf8)&H5). destruct Hw as (Hw1&Hw2&_).
  unfold payload_fields. rewrite H1, H3, Hf. unfold field_ok, kVersionFieldLengthInBits, kVendorIDFieldLengthInBits,
    kProductIDFieldLengthInBits, kCommissioningFlowFieldLengthInBits, kRendezvousInfoFieldLengthInBits,
    kPayloadDiscriminatorFieldLengthInBits, kLongBits, kSetupPINCodeFieldLengthInBits, kPaddingFieldLengthInBits.
  repeat (apply Forall_cons_2; [cbn [fst snd default from_option id]; solve_width|]). apply Forall_nil_2.
Qed.

Lemma pack_bytes l : pack (map (λ value, (value, 8)) l) = le_decode l ∧ pack_bits (map (λ value, (value, 8)) l) = Z.of_nat (length l) * 8.
Proof. induction l as [|b l [IH1 IH2]]; [done|]. cbn [map pack pack_bits le_decode length]. rewrite IH1, IH2. lia. Qed.

Lemma bytes_ok l : is_bytes l → Forall field_ok (map (λ value, (value, 8)) l).
Proof. intros Hl. apply Forall_map. eapply Forall_impl; [exact Hl|]. unfold in_u8, field_ok. cbn. lia. Qed.

Lemma zeros_decode n : is_bytes (replicate n 0) ∧ le_decode (replicate n 0) = 0.
Proof.
  induction n as [|n [IH1 IH2]]; [split; [constructor|done]|]. cbn [replicate le_decode].
  split; [constructor; [unfold in_u8; lia|done]|lia].
Qed.

(** The bits of a payload: its fields, and the TLV above them. *)
Lemma generateBitSet_spec p tlv :
  Forall field_ok (payload_fields p) → is_bytes tlv →
  let n := (11 + length tlv)%nat in
  ∃ bits, generateBitSet p (replicate n 0) tlv = Returns (CHIP_NO_ERROR, bits) ∧ is_bytes bits ∧ length bits = n ∧
    le_decode bits = pack (payload_fields p) + 2 ^ 88 * le_decode tlv.
Proof.
  intros Hf Ht n. destruct (zeros_decode n) as [Hz Hz0]. unfold generateBitSet.
  change kTotalPayloadDataSizeInBits with 88. rewrite length_replicate.
  rewrite (proj2 (Z.leb_le _ _)) by (unfold n; lia). cbn [negb].
  destruct (populate_fields_spec (payload_fields p) 88 (replicate n 0) 0) as (bits1&->&Hb1&Hl1&Hd1); try done.
  { rewrite length_replicate. unfold n. lia. } { by rewrite Hz0. }
  rewrite length_replicate in Hl1. rewrite Hz0, Z.mul_1_l, Z.add_0_l in Hd1. cbn [obind].
  change (0 + pack_bits (payload_fields p)) with 88.
  pose proof (pack_range _ Hf) as Hr. change (pack_bits (payload_fields p)) with 88 in Hr.
  unfold populateTLVBits. destruct (pack_bytes tlv) as [Hp Hpb].
  destruct (populate_fields_spec (map (λ value, (value, 8)) tlv) (88 + Z.of_nat (length tlv) * 8) bits1 88)
    as (bits&->&Hb&Hl&Hd); try done.
  { by apply bytes_ok. } { rewrite Hpb. lia. } { rewrite Hl1. unfold n. lia. } { by rewrite Hd1. }
  exists bits. cbn [obind]. split; [done|]. split; [done|]. split; [by rewrite Hl, Hl1|].
  by rewrite Hd, Hd1, Hp.
Qed.

(** ** Text *)

Lemma kCodes_chars c : c ∈ kCodes → c ≠ 0 ∧ c ≠ 37.
Proof.
  intros Hc. assert (Hall : Forall (λ c, c ≠ 0 ∧ c ≠ 37) kCodes) by (repeat (constructor; [lia|]); constructor).
  rewrite Forall_forall in Hall. by apply Hall.
Qed.

Lemma encode_chars_codes n v : Forall (λ c, c ∈ kCodes) (encode_chars n v).
Proof.
  revert v. induction n as [|n IH]; intros v; cbn [encode_chars]; constructor; [|apply IH].
  apply list_elem_of_In, nth_In. pose proof (Z.mod_pos_bound v kRadix ltac:(unfold kRadix; lia)).
  unfold kRadix in *. change (length kCodes) with 38%nat. lia.
Qed.

Lemma text_of_codes bytes text : text_of bytes text → Forall (λ c, c ∈ kCodes) text.
Proof.
  induction 1 as [|bytes _ _|bytes rest text _ _ _ IH]; [constructor|apply encode_chars_codes|].
  apply Forall_app. split; [apply encode_chars_codes|done].
Qed.

Lemma c_str_codes s : Forall (λ c, c ∈ kCodes) s → c_str s = s.
Proof.
  induction 1 as [|c s Hc _ IH]; [done|]. cbn [c_str]. by rewrite (proj2 (Z.eqb_neq _ _)), IH by (by apply kCodes_chars).
Qed.

Lemma ExtractPayload_code text :
  Forall (λ c, c ∈ kCodes) text → text ≠ [] → ExtractPayload (kQRCodePrefix ++ text) = text.
Proof.
  intros Hc Hne. assert (Hd : ∀ i, delimiter_indices text i = []).
  { clear Hne. induction Hc as [|c s Hc _ IH]; intros i; [done|]. cbn [delimiter_indices].
    by rewrite (proj2 (Z.eqb_neq _ _)), IH by (by apply kCodes_chars). }
  unfold ExtractPayload. cbn [kQRCodePrefix app delimiter_indices Z.eqb Pos.eqb]. rewrite Hd.
  cbn [find_segment drop]. unfold starts_with. cbn [kQRCodePrefix length take].
  rewrite bool_decide_true by done. destruct text as [|c text]; [done|]. done.
Qed.

(** ** Parsing *)

Section Parse.
Context `{TlvConfig} (p : PayloadContents) (tlv bits : list Z).
Context (Hw : contents_widths p) (Hvalid : isValidQRCodePayload kProduce p = true).
Context (Htlv : is_bytes tlv) (Hbits : is_bytes bits) (Hlen : length bits = (11 + length tlv)%nat)
  (Hval : le_decode bits = pack (payload_fields p) + 2 ^ 88 * le_decode tlv).

Lemma with_field i idx v n sp k :
  payload_fields p !! i = Some (v, n) → idx = pack_bits (take i (payload_fields p)) →
  with_bits bits idx n sp k = k v (idx + n).
Proof.
  intros Hi ->. pose proof (payload_fields_ok p Hw Hvalid) as Hf.
  rewrite <- (take_drop_middle _ _ _ Hi) in Hf. pose proof Hf as [H1 [Hv H2]%Forall_cons]%Forall_app.
  pose proof (pack_bits_nonneg _ H1). pose proof (pack_bits_nonneg _ H2). destruct Hv as [Hn Hv]. cbn [fst snd] in Hn, Hv.
  assert (H88 : pack_bits (payload_fields p) = 88) by done.
  assert (Hsum : ∀ l1 l2, pack_bits (l1 ++ l2) = pack_bits l1 + pack_bits l2).
  { induction l1 as [|[? ?] l1 IH]; intros l2; [done|]. cbn [app pack_bits]. rewrite IH. lia. }
  unfold with_bits. rewrite readBits_spec; try done; try lia.
  - cbn [obind]. rewrite Hval, <- H88, <- (take_drop_middle _ _ _ Hi). rewrite (take_drop_middle _ _ _ Hi) at 3.
    by rewrite pack_read.
  - rewrite Hlen. rewrite <- (take_drop_middle _ _ _ Hi), Hsum in H88. cbn [pack_bits] in H88. lia.
Qed.

Lemma populateTLV_bytes sp : tlv ≠ [] → populateTLV true sp bits 88 = parseTLVFields sp tlv.
Proof.
  intros Hne. unfold populateTLV. rewrite Hlen. assert (length tlv ≠ 0%nat) by (by destruct tlv).
  assert (Hn : (Z.of_nat (11 + length tlv) * 8 - 88 + 7) / 8 = Z.of_nat (length tlv)) by (Z.div_mod_to_equations; lia).
  rewrite Hn, (proj2 (Z.eqb_neq _ _)) by lia. cbn [negb].
  rewrite tlv_bytes_spec by (rewrite ?Hlen, ?Nat2Z.id; done || lia). cbn [obind].
  pose proof (pack_range _ (payload_fields_ok p Hw Hvalid)) as Hr. change (pack_bits (payload_fields p)) with 88 in Hr.
  rewrite Nat2Z.id, Hval, (Z.mul_comm (2 ^ 88)), Z.div_add, Z.div_small by lia.
  by rewrite Z.add_0_l, le_encode_decode.
Qed.

Lemma populateTLV_none sp : tlv = [] → populateTLV true sp bits 88 = Returns (CHIP_NO_ERROR, sp).
Proof. intros ->. unfold populateTLV. by rewrite Hlen. Qed.

(** The fields of the code, read into a new payload. *)
Lemma populatePayload_fields text :
  text_of bits text →
  QRCodeSetupPayloadParser_populatePayload true (kQRCodePrefix ++ text) SetupPayload_new =
    populateTLV true (mkSetupPayload p [] []) bits 88.
Proof.
  intros Ht. destruct (valid_fields p Hw Hvalid) as (H1&H2&H3&H4&(f&Hf&Hf8)&H5).
  assert (Htne : text ≠ []).
  { intros ->. apply text_of_nil in Ht. apply (f_equal length) in Ht. rewrite Hlen in Ht. cbn in Ht. lia. }
  unfold QRCodeSetupPayloadParser_populatePayload. rewrite ExtractPayload_code by (done || by eapply text_of_codes).
  assert (Hdec : base38Decode text = (CHIP_NO_ERROR, bits)) by (by apply (decode_loop_text bits text Ht)).
  destruct text as [|c0 text0]; [done|]. rewrite Hdec.
  rewrite (with_field 0 0 (version p)) by done.
  rewrite (with_field 1 _ (vendorID p)) by done.
  rewrite (with_field 2 _ (productID p)) by done.
  rewrite (with_field 3 _ (commissioningFlow p)) by done.
  rewrite (with_field 4 _ f) by (unfold payload_fields; by rewrite ?Hf).
  rewrite (with_field 5 _ (mDiscriminator (discriminator p))) by (unfold payload_fields; by rewrite ?H3).
  destruct Hw as (Hw1&Hw2&_&_&_&Hw6).
  rewrite (u16_id (mDiscriminator _)) by solve_width. rewrite SetLongValue_ok by done. cbn [obind].
  rewrite (with_field 6 _ (setUpPINCode p)) by done.
  rewrite (with_field 7 _ 0) by done. cbn [Z.eqb negb].
  rewrite !u8_id, !u16_id, u32_id by solve_width. unfold set_contents, SetupPayload_new. cbn [contents optionalVendorData optionalExtensionData].
  unfold spset_version, spset_vendorID, spset_productID, spset_flow, spset_rendezvous, spset_discriminator, spset_pin.
  cbn [version vendorID productID commissioningFlow rendezvousInformation discriminator setUpPINCode].
  replace (mkPayload _ _ _ _ _ _ _) with p; [done|].
  destruct p as [v0 v1 v2 v3 v4 [d s] v6]. cbn in *. by subst.
Qed.

End Parse.

(** ** The round trip *)

Section RoundTrip.
Context `{TlvConfig}.

(** The TLV of the generator, and what the parser makes of it. *)
Lemma tlv_roundtrip_items sp n :
  payload_wf sp → items_size (items sp) + 2 <= n <= UINT32_MAX →
  ∃ tlv, generateTLVFromOptionalData sp n = (CHIP_NO_ERROR, tlv) ∧ is_bytes tlv ∧
    (items sp = [] → tlv = []) ∧
    (items sp ≠ [] → tlv ≠ [] ∧ parseTLVFields (mkSetupPayload (contents sp) [] []) tlv = Returns (CHIP_NO_ERROR, sp)).
Proof.
  intros Hwf Hn. pose proof (items_ok sp Hwf) as Hok. destruct (decide (length (items sp) = 0%nat)) as [Hz|Hnz].
  - apply nil_length_inv in Hz. exists []. rewrite Hz. split; [|split; [constructor|done]].
    unfold items in Hz. apply app_eq_nil in Hz as [Hv He]. apply map_eq_nil in Hv, He.
    unfold generateTLVFromOptionalData. by rewrite Hv, He.
  - assert (Hne : items sp ≠ []) by (by intros E; rewrite E in Hnz).
    destruct (generateTLV_items sp n Hok Hne Hn) as (body&Henc&Hlen&Hbb&Hgen).
    exists ([0x15] ++ body ++ end_marker). split; [done|]. split.
    { repeat (apply is_bytes_app; split); [by repeat constructor|done|by repeat constructor]. }
    split; [done|]. intros _. split; [done|].
    rewrite (parseTLVFields_items (items sp)) by (done || lia). by rewrite items_rebuilt.
Qed.

(** C13: The QR code of a valid payload is parsed back into the same payload, its optional data
    included, if its texts are UTF-8 without NUL and without the separator 0x1F: the generator
    always finds room for the TLV of a payload that was built through its interface, up to 4 GB,
    the text is base 38 behind the prefix, and parsing it into a new payload gives all fields and
    all optional data back. (The reader cuts a text at a separator, and C ends it at a NUL.) *)
Theorem qr_code_roundtrip sp :
  built sp → contents_widths (contents sp) → isValidQRCodePayload kProduce (contents sp) = true →
  tlv_estimate sp <= UINT32_MAX →
  ∃ text, payloadBase38RepresentationWithAutoTLVBuffer false true sp = Returns (CHIP_NO_ERROR, text) ∧
    QRCodeSetupPayloadParser_populatePayload true text SetupPayload_new = Returns (CHIP_NO_ERROR, sp).
Proof.
  intros Hbuilt Hw Hvalid Hest. pose proof (built_wf sp Hbuilt) as Hwf. pose proof (estimate_items sp) as He.
  destruct (tlv_roundtrip_items sp (tlv_estimate sp) Hwf ltac:(lia)) as (tlv&Hgen&Hbytes&Hnil&Hcons).
  destruct (generateBitSet_spec (contents sp) tlv (payload_fields_ok _ Hw Hvalid) Hbytes) as (bits&Hbits&Hbb&Hlen&Hval).
  destruct (text_of_total bits Hbb) as [text Ht]. pose proof (text_of_codes _ _ Ht) as Hcodes.
  pose proof (text_of_length _ _ Ht) as Htl. rewrite Hlen in Htl.
  exists (kQRCodePrefix ++ text). split.
  - unfold payloadBase38RepresentationWithAutoTLVBuffer. rewrite (proj2 (Z.leb_le _ _)) by done. cbn [negb].
    unfold payloadBase38Representation. rewrite Hvalid, Hgen. cbn [negb orb].
    unfold payloadBase38RepresentationWithTLV. change kTotalPayloadDataSizeInBytes with 11.
    replace (Z.to_nat (11 + Z.of_nat (length tlv))) with (11 + length tlv)%nat by lia.
    rewrite Hbits. cbn [obind]. change (Z.of_nat (length kQRCodePrefix)) with 3.
    replace (11 + Z.of_nat (length tlv)) with (Z.of_nat (11 + length tlv)) by lia.
    rewrite (proj2 (Z.ltb_ge _ _)) by lia. rewrite (base38Encode_text bits text) by (done || lia). cbn [obind].
    do 2 f_equal. cbn [kQRCodePrefix app c_str Z.eqb]. by rewrite c_str_codes.
  - rewrite (populatePayload_fields (contents sp) tlv bits) by done.
    destruct (decide (length (items sp) = 0%nat)) as [Hz|Hnz].
    + apply nil_length_inv in Hz. rewrite (populateTLV_none (contents sp) tlv bits) by (done || auto).
      pose proof (items_rebuilt sp Hwf) as Hr. rewrite Hz in Hr. cbn in Hr. by rewrite Hr.
    + assert (Hne : items sp ≠ []) by (by intros E; rewrite E in Hnz). destruct (Hcons Hne) as [Htne Hparse].
      by rewrite (populateTLV_bytes (contents sp) tlv bits).
Qed.

End RoundTrip.

Definition example_contents : PayloadContents :=
  mkPayload 0 12 1 kStandard (Some 1) (mkDiscriminator 128 false) 2048.
Definition example_payload : SetupPayload :=
  (addSerialNumber_uint 123456789
    (addOptionalVendorData_int 0x83 (-65550)
      (addOptionalVendorData_string 0x82 [109; 121; 68; 97; 116; 97] (mkSetupPayload example_contents [] [])).2).2).2.

Lemma example_built : built example_payload.
Proof.
  apply built_serial_uint; [apply built_vendor_int; [apply built_vendor_string; [apply built_new|..]|..]|];
    try (unfold in_u8, in_u32; lia).
  split; [|reflexivity]. repeat (apply Forall_cons_2; [unfold in_u8, kUnicodeInformationSeparator1; lia|]). apply Forall_nil_2.
Qed.

Lemma qr_code_roundtrip_witness :
  ∃ text, @payloadBase38RepresentationWithAutoTLVBuffer default_config false true example_payload = Returns (CHIP_NO_ERROR, text) ∧
    @QRCodeSetupPayloadParser_populatePayload default_config true text SetupPayload_new = Returns (CHIP_NO_ERROR, example_payload).
Proof.
  apply (@qr_code_roundtrip default_config).
  - apply example_built.
  - unfold contents_widths, discriminator_ok, in_u16, in_u8, in_u32. vm_compute. repeat split; discriminate.
  - reflexivity.
  - vm_compute. discriminate.
Defined.
