(* ===== verification/QrTotal.v ===== *)
(** * QR code: the parser on arbitrary text

    The parser returns on every string: no access is outside its buffers, no assertion
    fails, and its loops end. *)

From S2P Require Import Prelude.
From S2P Require Import COutcome.
From S2P Require Import ChipError.
From S2P Require Import Endian.
From S2P Require Import TlvTypes.
From S2P Require Import TlvReader.
From S2P Require Import TlvTotal.
From S2P Require Import SetupPayload.
From S2P Require Import Base38.
From S2P Require Import QrCode.
From S2P Require Import QrBits.

(** [o] returns, with an error and a payload in [Q]. *)
Definition returns_with (Q : chip_error → SetupPayload → Prop) (o : outcome (chip_error * SetupPayload)) : Prop :=
  match o with Returns (err, sp) => Q err sp | Crashes _ => False end.

Lemma returns_with_mono (Q Q' : chip_error → SetupPayload → Prop) o :
  (∀ err sp, Q err sp → Q' err sp) → returns_with Q o → returns_with Q' o.
Proof. intros HQ. destruct o as [[err sp]|]; [apply HQ|done]. Qed.

(** ** Optional data *)

Section Optional.
Context `{TlvConfig} (data : list Z).

Lemma total_get {A} (f : TLVReader → chip_error * A) : total data (get_from f).
Proof. intros r Hr. unfold get_from. destruct (f r) as [err a]. destruct err; (split; [done|lia]). Qed.

Lemma total_retrieve info type : total data (retrieveOptionalInfo info type).
Proof.
  destruct type; try apply total_fail; (apply total_bind; [|intros; apply total_ret]);
    [apply total_CharSpan|apply total_get].
Qed.

Lemma total_retrieve_ext info type : total data (retrieveOptionalInfo_ext info type).
Proof.
  destruct type; try apply total_fail; (apply total_bind; [|intros; apply total_ret]);
    (apply total_retrieve || apply total_get).
Qed.

Definition same_contents (sp : SetupPayload) (_ : chip_error) (sp' : SetupPayload) : Prop := contents sp' = contents sp.

(** Behind a call of the reader that returns. *)
Lemma with_reader_returns {A} k r (res : rres A) sp f (Q : chip_error → SetupPayload → Prop) :
  returns_from data k r res → (∀ err, Q err sp) →
  (∀ a r', reads_from data r' → rLenRead r + k <= rLenRead r' → returns_with Q (f a r')) →
  returns_with Q (with_reader res sp f).
Proof.
  intros Hres HQ Hf. destruct res as [a r'|err r'| |]; cbn in *; try done.
  destruct Hres. by apply Hf.
Qed.

Lemma retrieve_element_returns sp r : reads_from data r → returns_with (same_contents sp) (retrieve_element sp r).
Proof.
  intros Hr. unfold retrieve_element. destruct (negb _); [done|]. destruct (IsCommonTag _).
  - eapply with_reader_returns; [by apply total_retrieve_ext|done|]. intros info r' _ _.
    unfold addOptionalExtensionData. by destruct (IsCommonTag _).
  - eapply with_reader_returns; [by apply total_retrieve|done|]. intros info r' _ _.
    unfold addOptionalVendorData. by destruct (IsVendorTag _).
Qed.

Lemma infos_loop_returns fuel sp r :
  reads_from data r → (Z.to_nat (rMaxLen r - rLenRead r) < fuel)%nat →
  returns_with (same_contents sp) (infos_loop fuel sp r).
Proof.
  revert sp r. induction fuel as [|fuel IH]; intros sp r Hr Hf; [lia|]. cbn [infos_loop].
  assert (Hstep : returns_with (same_contents sp)
    (if is_info_type (TLVReader_GetType r) then retrieve_element sp r else Returns (CHIP_NO_ERROR, sp))).
  { destruct (is_info_type _); [by apply retrieve_element_returns|done]. }
  destruct (if is_info_type _ then _ else _) as [[err sp1]|]; [|done]. cbn in Hstep |- *.
  destruct err; try done. pose proof (Next_total data r Hr) as Hn.
  destruct (TLVReader_Next r) as [u r1|e r1| |] eqn:En; cbn in Hn; try done.
  - destruct Hn as [Hr1 Hl1]. cbn [with_reader].
    assert (rMaxLen r1 = rMaxLen r) by (destruct Hr1 as (_&->&_), Hr as (_&->&_); done).
    pose proof Hr as (_&_&_&?&_). pose proof Hr1 as (_&_&_&?&_).
    eapply returns_with_mono; [|apply (IH sp1 r1 Hr1); lia]. unfold same_contents. intros _ sp2 ->. done.
  - destruct e; done.
Qed.

End Optional.

Section Parser.
Context `{TlvConfig}.

Lemma Init_reads data : Z.of_nat (length data) <= UINT32_MAX → reads_from data (TLVReader_Init data).
Proof.
  intros Hl. unfold reads_from, TLVReader_Init. rewrite (proj2 (Z.ltb_ge _ _)) by done. unfold UINT32_MAX in Hl.
  rewrite u32_id by solve_width. cbn. rewrite Nat2Z.id, take_ge by done. split_and!; solve_width || done.
Qed.

Lemma parseTLVFields_returns sp tlv : returns_with (same_contents sp) (parseTLVFields sp tlv).
Proof.
  unfold parseTLVFields. destruct (Z.leb_spec (Z.of_nat (length tlv)) UINT32_MAX) as [Hl|]; [|done]. cbn [negb].
  pose proof (Init_reads tlv Hl) as Hi. eapply with_reader_returns; [by apply (Next_total tlv)|done|].
  intros _ r Hr _. destruct (negb _); [done|]. destruct (openTLVContainer r _ _) as [err|inner] eqn:Ho; [done|].
  assert (Hin : reads_from tlv inner).
  { unfold openTLVContainer, TLVReader_OpenContainer in Ho. repeat case_match; simplify_eq. done. }
  eapply with_reader_returns; [by apply (Next_total tlv)|done|]. intros _ r2 Hr2 _.
  unfold retrieveOptionalInfos. pose proof (infos_loop_returns tlv (S (length (input r2))) sp r2 Hr2) as Hloop.
  rewrite (input_length tlv r2 Hr2) in Hloop |- *. specialize (Hloop ltac:(lia)).
  by destruct (infos_loop _ _ _) as [[err sp']|].
Qed.

(** ** Fields *)

Lemma decode_loop_bytes fuel text result err buf :
  is_bytes result → decode_loop fuel text result = (err, buf) → is_bytes buf.
Proof.
  revert text result. induction fuel as [|fuel IH]; intros text result Hr E; cbn [decode_loop] in E.
  { destruct text; by injection E as _ <-. }
  destruct text as [|c text]; [by injection E as _ <-|].
  destruct (if 5 <=? _ then _ else _) as [[n m]|]; [|by injection E as _ <-].
  destruct (decode_chars _ _) as [e|v]; [by injection E as _ <-|].
  assert (is_bytes (result ++ le_encode (Z.to_nat m) v)) by (apply is_bytes_app; split; [done|apply le_encode_bytes]).
  destruct (0 <? _); [by injection E as _ <-|]. by eapply IH.
Qed.

Lemma with_bits_returns buf idx n sp k (Q : chip_error → SetupPayload → Prop) :
  is_bytes buf → 0 <= idx → 0 <= n <= 27 → (∀ err, err ≠ CHIP_NO_ERROR → Q err sp) →
  (∀ dest, 0 <= dest < 2 ^ n → idx + n <= Z.of_nat (length buf) * 8 → returns_with Q (k dest (idx + n))) →
  returns_with Q (with_bits buf idx n sp k).
Proof.
  intros Hb Hi Hn HQ Hk. unfold with_bits. destruct (Z.le_gt_cases (idx + n) (Z.of_nat (length buf) * 8)).
  - rewrite readBits_spec by (done || lia). cbn [obind]. apply Hk; [|done]. apply Z.mod_pos_bound. lia.
  - unfold readBits. rewrite (proj2 (Z.ltb_lt _ _)) by lia. by apply HQ.
Qed.

(** Fields within their widths: what the generator could have packed. *)
Definition fields_fit (p : PayloadContents) : Prop :=
  0 <= version p < 8 ∧ in_u16 (vendorID p) ∧ in_u16 (productID p) ∧ 0 <= commissioningFlow p < 4 ∧
  (∃ f, rendezvousInformation p = Some f ∧ in_u8 f) ∧
  mIsShortDiscriminator (discriminator p) = false ∧ 0 <= mDiscriminator (discriminator p) < 4096 ∧
  0 <= setUpPINCode p < 2 ^ 27.

Lemma populateTLV_returns alloc sp buf :
  is_bytes buf → 88 <= Z.of_nat (length buf) * 8 → returns_with (same_contents sp) (populateTLV alloc sp buf 88).
Proof.
  intros Hb Hl. unfold populateTLV.
  assert (Hn : (Z.of_nat (length buf) * 8 - 88 + 7) / 8 = Z.of_nat (length buf) - 11) by (Z.div_mod_to_equations; lia).
  rewrite Hn. destruct (_ =? 0); [done|]. destruct (negb alloc); [done|].
  rewrite tlv_bytes_spec by (done || lia). apply parseTLVFields_returns.
Qed.

(** C14: The QR code parser returns on every string, with a payload whose fields are all
    set and within their widths when it reports success, or with an error: it reads
    nothing outside the decoded bytes, its assertion on the discriminator holds, and the
    loop over the optional data ends. *)
Theorem qr_parser_returns alloc text sp :
  ∃ err sp', QRCodeSetupPayloadParser_populatePayload alloc text sp = Returns (err, sp') ∧
    (err = CHIP_NO_ERROR → fields_fit (contents sp')).
Proof.
  enough (Hr : returns_with (λ err sp', err = CHIP_NO_ERROR → fields_fit (contents sp'))
    (QRCodeSetupPayloadParser_populatePayload alloc text sp)).
  { destruct (QRCodeSetupPayloadParser_populatePayload _ _ _) as [[err sp']|]; [|done]. by exists err, sp'. }
  unfold QRCodeSetupPayloadParser_populatePayload.
  destruct (ExtractPayload text) as [|c payload]; [done|].
  destruct (base38Decode (c :: payload)) as [err buf] eqn:Hdec.
  assert (Hb : is_bytes buf) by (eapply decode_loop_bytes; [|exact Hdec]; constructor).
  destruct err; try done.
  apply with_bits_returns; [done|lia|unfold kVersionFieldLengthInBits; lia|done|]. intros d1 Hd1 _.
  apply with_bits_returns; [done|done|unfold kVendorIDFieldLengthInBits; lia|done|]. intros d2 Hd2 _.
  apply with_bits_returns; [done|done|unfold kProductIDFieldLengthInBits; lia|done|]. intros d3 Hd3 _.
  apply with_bits_returns; [done|done|unfold kCommissioningFlowFieldLengthInBits; lia|done|]. intros d4 Hd4 _.
  apply with_bits_returns; [done|done|unfold kRendezvousInfoFieldLengthInBits; lia|done|]. intros d5 Hd5 _.
  apply with_bits_returns; [done|done|unfold kPayloadDiscriminatorFieldLengthInBits, kLongBits; lia|done|]. intros d6 Hd6 _.
  unfold kVersionFieldLengthInBits, kVendorIDFieldLengthInBits, kProductIDFieldLengthInBits, kCommissioningFlowFieldLengthInBits,
    kRendezvousInfoFieldLengthInBits, kPayloadDiscriminatorFieldLengthInBits, kLongBits in Hd1, Hd2, Hd3, Hd4, Hd5, Hd6.
  rewrite (u16_id d6) by solve_width. rewrite SetLongValue_ok by done. cbn [obind].
  apply with_bits_returns; [done|done|unfold kSetupPINCodeFieldLengthInBits; lia|done|]. intros d7 Hd7 _.
  unfold kSetupPINCodeFieldLengthInBits in Hd7.
  apply with_bits_returns; [done|done|unfold kPaddingFieldLengthInBits; lia|done|]. intros d8 Hd8 Hl.
  destruct (negb _); [done|].
  eapply returns_with_mono; [|apply (populateTLV_returns alloc _ buf Hb Hl)].
  intros err sp' Hsame _. rewrite Hsame. unfold set_contents, fields_fit. cbn.
  rewrite !u8_id, !u16_id, !u32_id by solve_width. split_and!; try solve_width; try done. exists d5. split; [done|solve_width].
Qed.

End Parser.
