(* ===== verification/RamStorage.v ===== *)
(** * RAM key-value buffer of the NXP platforms

    src/platform/nxp/common/ram_storage.c: settings kept in a RAM buffer as a
    sequence of packed blocks (key, key length, value length, value). The functions
    run under a mutex, so each is one atomic step here. Out-of-bounds accesses and
    failed assertions are explicit outcomes. *)

From S2P Require Import Prelude.
From S2P Require Import COutcome.

(** ** Data *)

Inductive rsError := RS_ERROR_NONE | RS_ERROR_NOT_FOUND | RS_ERROR_NO_BUFS | RS_ERROR_WRONG_ARG.

#[global] Instance rsError_eq_dec : EqDecision rsError.
Proof. solve_decision. Defined.

Definition KEY_BYTE_MAX_SIZE : Z := 28.

(** [sizeof(struct settingsBlock)], packed: 28 + 1 + 2. *)
Definition sizeof_settingsBlock : Z := 31.

Record settingsBlock := mkBlock { keyBytes : list Z; keyBytesLen : Z; length_ : Z }.

(** [pRamBuffer] holds all the bytes that are allocated. *)
Record ramBufferDescriptor := mkRamBuffer {
  ramBufferLen : Z; ramBufferMaxLen : Z; pRamBuffer : list Z }.

Definition decode_block (bs : list Z) : settingsBlock :=
  mkBlock (take 28 bs) (nth 28 bs 0) (nth 29 bs 0 + 256 * nth 30 bs 0).

Definition encode_block (b : settingsBlock) : list Z :=
  keyBytes b ++ [keyBytesLen b; length_ b mod 256; length_ b / 256].

Definition read_block (l : list Z) (i : Z) : outcome settingsBlock :=
  let+ bs := mem_read l i sizeof_settingsBlock in Returns (decode_block bs).

Definition block_matches (b : settingsBlock) (pAKey : list Z) (keySize : Z) : bool :=
  (keyBytesLen b =? keySize) &&
  bool_decide (take (Z.to_nat keySize) pAKey = take (Z.to_nat keySize) (keyBytes b)).

Section RamStorage.
(** [NDEBUG]: whether [assert] is compiled out. *)
Context (NDEBUG : bool).

(** ** Adding *)

Definition ramStorageAdd (pBuffer : ramBufferDescriptor) (pAKey : list Z) (keySize : Z)
    (aValue : list Z) (aValueLength : Z) : outcome (rsError * ramBufferDescriptor) :=
  let len := ramBufferLen pBuffer in
  let newBlockLength := u16 (sizeof_settingsBlock + aValueLength) in
  if len + newBlockLength <=? ramBufferMaxLen pBuffer then
    let keyField := take (Z.to_nat keySize) pAKey ++ replicate (28 - Z.to_nat keySize) 0 in
    let+ b1 := mem_write (pRamBuffer pBuffer) len
                 (encode_block (mkBlock keyField keySize aValueLength)) in
    let+ b2 := mem_write b1 (len + sizeof_settingsBlock) (take (Z.to_nat aValueLength) aValue) in
    let newLen := u16 (len + newBlockLength) in
    c_assert NDEBUG (newLen <=? ramBufferMaxLen pBuffer)
      (Returns (RS_ERROR_NONE, mkRamBuffer newLen (ramBufferMaxLen pBuffer) b2))
  else
    c_assert NDEBUG false (Returns (RS_ERROR_NO_BUFS, pBuffer)).

(** ** Reading *)

(** The bytes copied to [aValue], the error, and the length of the value. *)
Fixpoint get_loop (fuel : nat) (pBuffer : ramBufferDescriptor) (pAKey : list Z) (keySize aIndex : Z)
    (room : option Z) (i currentIndex : Z) : outcome (rsError * list Z * Z) :=
  match fuel with
  | O => Crashes NoReturn
  | S fuel' =>
      if i <? ramBufferLen pBuffer then
        let+ currentBlock := read_block (pRamBuffer pBuffer) i in
        c_assert NDEBUG (length_ currentBlock <=? ramBufferMaxLen pBuffer)
          (let next := u16 (i + sizeof_settingsBlock + length_ currentBlock) in
           if block_matches currentBlock pAKey keySize then
             if currentIndex =? aIndex then
               match room with
               | Some n =>
                   let readLength := if n <? length_ currentBlock then n else length_ currentBlock in
                   let+ d := mem_read (pRamBuffer pBuffer) (i + sizeof_settingsBlock) readLength in
                   Returns (RS_ERROR_NONE, d, length_ currentBlock)
               | None => Returns (RS_ERROR_NONE, [], length_ currentBlock)
               end
             else get_loop fuel' pBuffer pAKey keySize aIndex room next (currentIndex + 1)
           else get_loop fuel' pBuffer pAKey keySize aIndex room next currentIndex)
      else Returns (RS_ERROR_NOT_FOUND, [], 0)
  end.

(** [room] is the size [*aValueLength] of the caller's buffer, when the call passes
    one; the third component is the value written to [*aValueLength]. *)
Definition ramStorageGet (pBuffer : ramBufferDescriptor) (pAKey : list Z) (keySize aIndex : Z)
    (room : option Z) : outcome (rsError * list Z * Z) :=
  if keySize <=? KEY_BYTE_MAX_SIZE then
    get_loop (S (Z.to_nat (ramBufferLen pBuffer))) pBuffer pAKey keySize aIndex room 0 0
  else Returns (RS_ERROR_WRONG_ARG, [], 0).

(** ** Removing *)

(** The block of [currentBlockLength] bytes at [i] is removed by moving the bytes
    behind it down. *)
Definition remove_block (pBuffer : ramBufferDescriptor) (i currentBlockLength : Z)
    : outcome ramBufferDescriptor :=
  let len := ramBufferLen pBuffer in
  let nextBlockStart := u16 (i + currentBlockLength) in
  let+ buf := (if nextBlockStart <? len then
                 let+ moved := mem_read (pRamBuffer pBuffer) nextBlockStart (len - nextBlockStart) in
                 mem_write (pRamBuffer pBuffer) i moved
               else Returns (pRamBuffer pBuffer)) in
  c_assert NDEBUG (currentBlockLength <=? len)
    (Returns (mkRamBuffer (u16 (len - currentBlockLength)) (ramBufferMaxLen pBuffer) buf)).

Fixpoint delete_all_loop (fuel : nat) (pBuffer : ramBufferDescriptor) (pAKey : list Z) (keySize i : Z)
    : outcome ramBufferDescriptor :=
  match fuel with
  | O => Crashes NoReturn
  | S fuel' =>
      if i <? ramBufferLen pBuffer then
        let+ currentBlock := read_block (pRamBuffer pBuffer) i in
        let currentBlockLength := u16 (sizeof_settingsBlock + length_ currentBlock) in
        if block_matches currentBlock pAKey keySize then
          let+ b := remove_block pBuffer i currentBlockLength in
          delete_all_loop fuel' b pAKey keySize i
        else delete_all_loop fuel' pBuffer pAKey keySize (u16 (i + currentBlockLength))
      else Returns pBuffer
  end.

Definition ramStorageSet (pBuffer : ramBufferDescriptor) (pAKey : list Z) (keySize : Z)
    (aValue : list Z) (aValueLength : Z) : outcome (rsError * ramBufferDescriptor) :=
  c_assert NDEBUG (keySize <=? KEY_BYTE_MAX_SIZE)
    (if keySize <=? KEY_BYTE_MAX_SIZE then
       let+ b := delete_all_loop (S (Z.to_nat (ramBufferLen pBuffer))) pBuffer pAKey keySize 0 in
       ramStorageAdd b pAKey keySize aValue aValueLength
     else Returns (RS_ERROR_WRONG_ARG, pBuffer)).

Fixpoint delete_loop (fuel : nat) (pBuffer : ramBufferDescriptor) (pAKey : list Z) (keySize aIndex i currentIndex : Z)
    : outcome (rsError * ramBufferDescriptor) :=
  match fuel with
  | O => Crashes NoReturn
  | S fuel' =>
      if i <? ramBufferLen pBuffer then
        let+ currentBlock := read_block (pRamBuffer pBuffer) i in
        let currentBlockLength := u16 (sizeof_settingsBlock + length_ currentBlock) in
        if block_matches currentBlock pAKey keySize then
          if currentIndex =? aIndex then
            let+ b := remove_block pBuffer i currentBlockLength in Returns (RS_ERROR_NONE, b)
          else delete_loop fuel' pBuffer pAKey keySize aIndex (u16 (i + currentBlockLength)) (currentIndex + 1)
        else delete_loop fuel' pBuffer pAKey keySize aIndex (u16 (i + currentBlockLength)) currentIndex
      else Returns (RS_ERROR_NOT_FOUND, pBuffer)
  end.

Definition ramStorageDelete (pBuffer : ramBufferDescriptor) (pAKey : list Z) (keySize aIndex : Z)
    : outcome (rsError * ramBufferDescriptor) :=
  if keySize <=? KEY_BYTE_MAX_SIZE then
    delete_loop (S (Z.to_nat (ramBufferLen pBuffer))) pBuffer pAKey keySize aIndex 0 0
  else c_assert NDEBUG false (Returns (RS_ERROR_WRONG_ARG, pBuffer)).

(** ** Printing *)

(** The keys and value lengths printed. *)
Fixpoint dump_loop (fuel : nat) (pBuffer : ramBufferDescriptor) (i : Z) : outcome (list (list Z * Z)) :=
  match fuel with
  | O => Crashes NoReturn
  | S fuel' =>
      if i <? ramBufferLen pBuffer then
        let+ currentBlock := read_block (pRamBuffer pBuffer) i in
        let+ key := mem_read (pRamBuffer pBuffer) i (keyBytesLen currentBlock) in
        let+ rest := dump_loop fuel' pBuffer (u16 (i + sizeof_settingsBlock + length_ currentBlock)) in
        Returns ((key, length_ currentBlock) :: rest)
      else Returns []
  end.

Definition ramStorageDump (pBuffer : ramBufferDescriptor) : outcome (list (list Z * Z)) :=
  dump_loop (S (Z.to_nat (ramBufferLen pBuffer))) pBuffer 0.
End RamStorage.

(** ** Saving to the file system

    [FS_ReadBufferFromFile] and [FS_WriteBufferToFile] are the file system of the
    connectivity framework. *)

Class FileSystem := {
  fs : Type;
  FS_WriteBufferToFile : fs → list Z → list Z → Z * fs;
  FS_ReadBufferFromFile : fs → list Z → Z → Z * list Z
}.

Section Files.
Context `{FileSystem} (NDEBUG : bool).

Definition sizeof_bufferIdleWriteToFlash : Z := 4 * 5000.

Definition ramStorageSavetoFlash (f : fs) (file_name buffer : list Z) (buf_length : Z) : outcome (Z * fs) :=
  c_assert NDEBUG (buf_length <=? sizeof_bufferIdleWriteToFlash)
    (if buf_length <=? sizeof_bufferIdleWriteToFlash then
       let+ copy := mem_read buffer 0 buf_length in
       Returns (FS_WriteBufferToFile f file_name copy)
     else Crashes OutOfBounds).

Definition ramStorageReadFromFlash (f : fs) (file_name : list Z) (buf_length : Z) : Z * list Z :=
  FS_ReadBufferFromFile f file_name buf_length.
End Files.

(** ** The entries of a buffer *)

Record entry := mkEntry { e_key : list Z; e_val : list Z }.

Definition entry_ok (e : entry) : Prop :=
  (length (e_key e) <= 28)%nat ∧ 31 + Z.of_nat (length (e_val e)) < 65536.

Definition entry_block (e : entry) : settingsBlock :=
  mkBlock (e_key e ++ replicate (28 - length (e_key e)) 0) (Z.of_nat (length (e_key e)))
    (Z.of_nat (length (e_val e))).

Definition entry_bytes (e : entry) : list Z := encode_block (entry_block e) ++ e_val e.
Definition all_bytes (es : list entry) : list Z := concat (map entry_bytes es).
Definition all_size (es : list entry) : Z := Z.of_nat (length (all_bytes es)).

(** The buffer holds the entries [es], in this order. *)
Definition holds (b : ramBufferDescriptor) (es : list entry) : Prop :=
  ∃ rest, pRamBuffer b = all_bytes es ++ rest ∧ ramBufferLen b = all_size es ∧
    Z.of_nat (length (pRamBuffer b)) = ramBufferMaxLen b ∧ ramBufferMaxLen b < 65536 ∧
    Forall entry_ok es.

Definition has_key (k : list Z) (e : entry) : bool := bool_decide (e_key e = k).

Lemma encode_entry_length e : entry_ok e → length (encode_block (entry_block e)) = 31%nat.
Proof.
  intros [Hk _]. unfold encode_block. simpl. rewrite !length_app, length_replicate. simpl. lia.
Qed.

Lemma entry_bytes_length e : entry_ok e → Z.of_nat (length (entry_bytes e)) = 31 + Z.of_nat (length (e_val e)).
Proof. intros Hk. unfold entry_bytes. rewrite length_app, encode_entry_length by done. lia. Qed.

Lemma all_bytes_app es1 es2 : all_bytes (es1 ++ es2) = all_bytes es1 ++ all_bytes es2.
Proof. unfold all_bytes. by rewrite map_app, concat_app. Qed.

Lemma all_bytes_cons e es : all_bytes (e :: es) = entry_bytes e ++ all_bytes es.
Proof. done. Qed.

Lemma all_size_app es1 es2 : all_size (es1 ++ es2) = all_size es1 + all_size es2.
Proof. unfold all_size. rewrite all_bytes_app, length_app. lia. Qed.

Lemma all_size_cons e es :
  entry_ok e → all_size (e :: es) = 31 + Z.of_nat (length (e_val e)) + all_size es.
Proof.
  intros Hk. unfold all_size. rewrite all_bytes_cons, length_app, Nat2Z.inj_add.
  by rewrite entry_bytes_length.
Qed.

Lemma all_size_nonneg es : 0 <= all_size es.
Proof. unfold all_size. lia. Qed.

Lemma decode_encode_entry e :
  entry_ok e → decode_block (encode_block (entry_block e)) = entry_block e.
Proof.
  intros [Hk Hv]. unfold decode_block, encode_block, entry_block. simpl.
  set (kf := e_key e ++ _). assert (Hkf : length kf = 28%nat) by (unfold kf; rewrite length_app, length_replicate; lia).
  rewrite take_app_length' by done. do 3 (rewrite app_nth2, Hkf by (rewrite Hkf; lia)). simpl.
  f_equal. set (n := Z.of_nat (length (e_val e))) in *. rewrite (Z_div_mod_eq_full n 256) at 3. lia.
Qed.

Lemma read_block_entry pre e post :
  entry_ok e → read_block (all_bytes pre ++ entry_bytes e ++ post) (all_size pre) = Returns (entry_block e).
Proof.
  intros Hk. unfold read_block, all_size, entry_bytes. rewrite <- app_assoc.
  change sizeof_settingsBlock with (Z.of_nat 31). rewrite <- (encode_entry_length e Hk).
  rewrite mem_read_mid. simpl. by rewrite decode_encode_entry.
Qed.

Lemma block_matches_entry e k :
  entry_ok e → (length k <= 28)%nat →
  block_matches (entry_block e) k (Z.of_nat (length k)) = has_key k e.
Proof.
  intros [He _] Hk. unfold block_matches, has_key, entry_block. simpl. rewrite Nat2Z.id, (take_ge k) by lia.
  destruct (Z.eqb_spec (Z.of_nat (length (e_key e))) (Z.of_nat (length k))) as [El|Hne]; simpl.
  - apply bool_decide_ext. rewrite take_app_le by lia. rewrite take_ge by lia. done.
  - symmetry. apply bool_decide_eq_false_2. intros E. by rewrite E in Hne.
Qed.

(** ** Reading *)

Section Proofs.
Context (NDEBUG : bool).

(** The next block lies behind this one. *)
Lemma next_block pre e post (max : Z) :
  entry_ok e → all_size (pre ++ e :: post) <= max → max < 65536 →
  u16 (all_size pre + sizeof_settingsBlock + length_ (entry_block e)) = all_size (pre ++ [e]) ∧
  u16 (sizeof_settingsBlock + length_ (entry_block e)) = all_size [e] ∧
  u16 (all_size pre + all_size [e]) = all_size (pre ++ [e]) ∧
  length_ (entry_block e) <= max ∧ all_size pre < all_size (pre ++ e :: post).
Proof.
  intros Hk Hs Hm. change sizeof_settingsBlock with 31. simpl length_.
  assert (Ee : all_size [e] = 31 + Z.of_nat (length (e_val e)))
    by (rewrite all_size_cons by done; unfold all_size; simpl; lia).
  rewrite all_size_app, all_size_cons in Hs by done. rewrite !all_size_app, Ee, all_size_cons by done.
  pose proof (all_size_nonneg pre). pose proof (all_size_nonneg post).
  assert (all_size [] = 0) as E0 by done.
  rewrite !u16_id by solve_width. lia.
Qed.

(** What [ramStorageGet] returns for the value [v]: the bytes that fit the caller's
    buffer, and the full length. *)
Definition got (room : option Z) (v : list Z) : rsError * list Z * Z :=
  (RS_ERROR_NONE, match room with Some n => take (Z.to_nat n) v | None => [] end, Z.of_nat (length v)).

Definition nth_entry (k : list Z) (i : Z) (es : list entry) : option entry :=
  if 0 <=? i then List.filter (has_key k) es !! Z.to_nat i else None.

Lemma nth_entry_hit k i e es :
  has_key k e = true → nth_entry k i (e :: es) = if i =? 0 then Some e else nth_entry k (i - 1) es.
Proof.
  intros Hk. unfold nth_entry. simpl. rewrite Hk. destruct (Z.eqb_spec i 0) as [->|]; [done|].
  destruct (Z.leb_spec 0 i), (Z.leb_spec 0 (i - 1)); try lia; [|done].
  by replace (Z.to_nat i) with (S (Z.to_nat (i - 1))) by lia.
Qed.

Lemma nth_entry_miss k i e es : has_key k e = false → nth_entry k i (e :: es) = nth_entry k i es.
Proof. intros Hk. unfold nth_entry. simpl. by rewrite Hk. Qed.

Lemma get_loop_spec fuel b k aIndex room pre post cur rest :
  (length k <= 28)%nat → (∀ n, room = Some n → 0 <= n) →
  pRamBuffer b = all_bytes (pre ++ post) ++ rest → ramBufferLen b = all_size (pre ++ post) →
  Z.of_nat (length (pRamBuffer b)) = ramBufferMaxLen b → ramBufferMaxLen b < 65536 →
  Forall entry_ok post → (length post < fuel)%nat →
  get_loop NDEBUG fuel b k (Z.of_nat (length k)) aIndex room (all_size pre) cur =
  Returns (match nth_entry k (aIndex - cur) post with
           | Some e => got room (e_val e)
           | None => (RS_ERROR_NOT_FOUND, [], 0)
           end).
Proof.
  intros Hk Hroom Hb Hlen Hall Hmax Hok Hf. revert pre post cur Hb Hlen Hok Hf.
  induction fuel as [|fuel IH]; intros pre post cur Hb Hlen Hok Hf; [lia|]. cbn [get_loop]. rewrite Hlen.
  destruct post as [|e post].
  { rewrite app_nil_r, Z.ltb_irrefl. unfold nth_entry. by destruct (0 <=? _). }
  apply Forall_cons in Hok as [He Hok].
  assert (Hs : all_size (pre ++ e :: post) <= ramBufferMaxLen b)
    by (rewrite <- Hall, Hb, length_app; unfold all_size; lia).
  destruct (next_block pre e post _ He Hs Hmax) as (N1&_&_&N4&N5).
  rewrite (proj2 (Z.ltb_lt _ _) N5). rewrite Hb, all_bytes_app, all_bytes_cons, <- !app_assoc.
  rewrite (read_block_entry pre e _ He). cbn [obind]. unfold c_assert at 1.
  rewrite (proj2 (Z.leb_le _ _) N4). cbn [orb]. rewrite N1, block_matches_entry by done.
  assert (IH' : ∀ cur, get_loop NDEBUG fuel b k (Z.of_nat (length k)) aIndex room (all_size (pre ++ [e])) cur =
    Returns match nth_entry k (aIndex - cur) post with
            | Some e0 => got room (e_val e0) | None => (RS_ERROR_NOT_FOUND, [], 0) end).
  { intros cur'. apply (IH (pre ++ [e]) post); rewrite <- ?app_assoc; try done. simpl in Hf. lia. }
  destruct (has_key k e) eqn:Hkey; [|by rewrite IH', nth_entry_miss].
  rewrite nth_entry_hit by done. destruct (Z.eqb_spec cur aIndex) as [->|Hne].
  - rewrite Z.sub_diag, Z.eqb_refl. unfold got. destruct room as [n|]; [|done].
    specialize (Hroom n eq_refl). simpl length_.
    set (r := if n <? Z.of_nat (length (e_val e)) then n else _).
    assert (Er : r = Z.of_nat (length (take (Z.to_nat n) (e_val e)))).
    { unfold r. rewrite length_take. zcase; lia. }
    unfold entry_bytes. rewrite <- (take_drop (Z.to_nat n) (e_val e)) at 1. rewrite <- !app_assoc, app_assoc.
    rewrite Er. replace (all_size pre + sizeof_settingsBlock) with
      (Z.of_nat (length (all_bytes pre ++ encode_block (entry_block e))))
      by (rewrite length_app, encode_entry_length by done; unfold all_size; change sizeof_settingsBlock with 31; lia).
    by rewrite mem_read_mid.
  - destruct (Z.eqb_spec (aIndex - cur) 0); [lia|]. rewrite IH'.
    by replace (aIndex - (cur + 1)) with (aIndex - cur - 1) by lia.
Qed.

(** The number of entries is bounded by the bytes they take. *)
Lemma entries_fuel b es : holds b es → (length es < S (Z.to_nat (ramBufferLen b)))%nat.
Proof.
  intros (rest&_&->&_&_&Hok). unfold all_size. rewrite Nat2Z.id. induction Hok as [|e es He Hok IH]; [simpl; lia|].
  rewrite all_bytes_cons, length_app. pose proof (entry_bytes_length e He). simpl. lia.
Qed.

Lemma ramStorageGet_spec b es k aIndex room :
  holds b es → (length k <= 28)%nat → (∀ n, room = Some n → 0 <= n) →
  ramStorageGet NDEBUG b k (Z.of_nat (length k)) aIndex room =
  Returns (match nth_entry k aIndex es with
           | Some e => got room (e_val e)
           | None => (RS_ERROR_NOT_FOUND, [], 0)
           end).
Proof.
  intros Hh Hk Hroom. pose proof (entries_fuel b es Hh) as Hf. destruct Hh as (rest&Hb&Hl&Hall&Hmax&Hok).
  unfold ramStorageGet. change KEY_BYTE_MAX_SIZE with 28.
  destruct (Z.leb_spec (Z.of_nat (length k)) 28); [|lia].
  change 0 with (all_size []) at 1. rewrite (get_loop_spec _ b k aIndex room [] es 0 rest); try done.
  by rewrite Z.sub_0_r.
Qed.

(** ** Removing *)

Lemma holds_size b es : holds b es → all_size es <= ramBufferMaxLen b ∧ ramBufferMaxLen b < 65536.
Proof. intros (rest&Hb&_&<-&?&_). rewrite Hb, length_app. unfold all_size. split; [lia|]. by rewrite <- length_app, <- Hb. Qed.

Lemma remove_block_spec b pre e post :
  holds b (pre ++ e :: post) →
  ∃ b', remove_block NDEBUG b (all_size pre) (all_size [e]) = Returns b' ∧ holds b' (pre ++ post) ∧
    ramBufferMaxLen b' = ramBufferMaxLen b.
Proof.
  intros Hh. destruct (holds_size _ _ Hh) as [Hs Hmax]. destruct Hh as (rest&Hb&Hl&Hall&_&Hok).
  assert (Hok' := Hok). apply Forall_app in Hok' as [Hpre [He Hpost]%Forall_cons].
  destruct (next_block pre e post _ He Hs Hmax) as (_&_&N3&_).
  unfold remove_block. rewrite N3, Hl. rewrite Hb, all_bytes_app, all_bytes_cons, <- !app_assoc.
  assert (Esz : all_size (pre ++ e :: post) = all_size (pre ++ [e]) + all_size post)
    by (rewrite <- all_size_app, <- app_assoc; done).
  rewrite Esz. assert (Esz' : all_size (pre ++ post) = all_size (pre ++ [e]) + all_size post - all_size [e])
    by (rewrite !all_size_app; lia).
  assert (Hnew : ∃ rest', (if all_size (pre ++ [e]) <? all_size (pre ++ [e]) + all_size post then
      let+ moved := mem_read (all_bytes pre ++ entry_bytes e ++ all_bytes post ++ rest) (all_size (pre ++ [e]))
        (all_size (pre ++ [e]) + all_size post - all_size (pre ++ [e])) in
      mem_write (all_bytes pre ++ entry_bytes e ++ all_bytes post ++ rest) (all_size pre) moved
    else Returns (all_bytes pre ++ entry_bytes e ++ all_bytes post ++ rest)) =
    Returns (all_bytes (pre ++ post) ++ rest') ∧
    length (all_bytes (pre ++ post) ++ rest') = length (pRamBuffer b)).
  { destruct (Z.ltb_spec (all_size (pre ++ [e])) (all_size (pre ++ [e]) + all_size post)) as [_|Hz].
    - rewrite Z.add_simpl_l. assert (Er : mem_read (all_bytes pre ++ entry_bytes e ++ all_bytes post ++ rest)
          (all_size (pre ++ [e])) (all_size post) = Returns (all_bytes post)).
      { rewrite app_assoc. unfold all_size at 1. rewrite all_bytes_app, all_bytes_cons.
        change (all_bytes []) with (@nil Z). rewrite app_nil_r. apply mem_read_mid. }
      rewrite Er. cbn [obind]. unfold all_size. rewrite mem_write_at by (rewrite !length_app; lia).
      eexists. rewrite all_bytes_app, <- app_assoc. split; [reflexivity|].
      rewrite Hb, all_bytes_app, all_bytes_cons, !length_app, length_drop, !length_app. lia.
    - exists (entry_bytes e ++ rest). pose proof (all_size_nonneg post).
      assert (Hp : all_bytes post = []) by (apply length_zero_iff_nil; unfold all_size in *; lia).
      rewrite Hb, !all_bytes_app, all_bytes_cons, Hp, !app_nil_r, <- !app_assoc. simpl. done. }
  destruct Hnew as (rest'&->&Hlen). cbn [obind]. unfold c_assert.
  pose proof (all_size_nonneg post). pose proof (all_size_nonneg pre).
  rewrite (proj2 (Z.leb_le _ _)) by (rewrite all_size_app; lia). cbn [orb].
  eexists. split; [reflexivity|]. split; [|done].
  exists rest'. cbn [pRamBuffer ramBufferLen ramBufferMaxLen]. split_and!; try done.
  - rewrite <- Esz', u16_id; [done|]. pose proof (all_size_nonneg (pre ++ post)).
    pose proof (all_size_nonneg [e]). rewrite Esz in Hs. solve_width.
  - by rewrite Hlen.
  - by apply Forall_app.
Qed.

(** One round of a loop over the blocks at the block of [e]. *)
Lemma read_step b pre e post k :
  holds b (pre ++ e :: post) → (length k <= 28)%nat →
  (all_size pre <? ramBufferLen b) = true ∧
  read_block (pRamBuffer b) (all_size pre) = Returns (entry_block e) ∧
  u16 (sizeof_settingsBlock + length_ (entry_block e)) = all_size [e] ∧
  u16 (all_size pre + all_size [e]) = all_size (pre ++ [e]) ∧
  block_matches (entry_block e) k (Z.of_nat (length k)) = has_key k e.
Proof.
  intros Hh Hk. destruct (holds_size _ _ Hh) as [Hs Hmax]. destruct Hh as (rest&Hb&Hl&Hall&_&Hok).
  apply Forall_app in Hok as [_ [He _]%Forall_cons].
  destruct (next_block pre e post _ He Hs Hmax) as (_&N2&N3&_&N5).
  split_and!; [by apply Z.ltb_lt; rewrite Hl| |done|done|by apply block_matches_entry].
  rewrite Hb, all_bytes_app, all_bytes_cons, <- !app_assoc. by apply read_block_entry.
Qed.

Lemma end_step b pre : holds b (pre ++ []) → (all_size pre <? ramBufferLen b) = false.
Proof. intros (rest&_&Hl&_). rewrite Hl, app_nil_r. apply Z.ltb_irrefl. Qed.

Definition without (k : list Z) (es : list entry) : list entry := List.filter (λ e, negb (has_key k e)) es.

Lemma delete_all_loop_spec fuel b k pre post :
  holds b (pre ++ post) → (length k <= 28)%nat → (length post < fuel)%nat →
  ∃ b', delete_all_loop NDEBUG fuel b k (Z.of_nat (length k)) (all_size pre) = Returns b' ∧
    holds b' (pre ++ without k post) ∧ ramBufferMaxLen b' = ramBufferMaxLen b.
Proof.
  intros Hh Hk. revert b pre post Hh. induction fuel as [|fuel IH]; intros b pre post Hh Hf; [lia|].
  cbn [delete_all_loop]. destruct post as [|e post].
  { rewrite (end_step b pre Hh). by exists b. }
  destruct (read_step b pre e post k Hh Hk) as (->&->&N2&N3&N5). cbn [obind]. rewrite N2, N3, N5.
  unfold without. cbn [List.filter]. destruct (has_key k e); cbn [negb].
  - destruct (remove_block_spec b pre e post Hh) as (b1&->&Hh1&Hm1). cbn [obind].
    destruct (IH b1 pre post Hh1) as (b2&E&Hh2&Hm2); [simpl in Hf; lia|].
    exists b2. by rewrite Hm2, Hm1.
  - destruct (IH b (pre ++ [e]) post) as (b2&E&Hh2&Hm2); [by rewrite <- app_assoc|simpl in Hf; lia|].
    exists b2. by rewrite <- app_assoc in Hh2.
Qed.

(** Remove the entry of [k] with index [i]. *)
Fixpoint remove_nth (k : list Z) (i : Z) (es : list entry) : list entry :=
  match es with
  | [] => []
  | e :: es' =>
      if has_key k e then if i =? 0 then es' else e :: remove_nth k (i - 1) es'
      else e :: remove_nth k i es'
  end.

Lemma delete_loop_spec fuel b k aIndex pre post cur :
  holds b (pre ++ post) → (length k <= 28)%nat → (length post < fuel)%nat →
  ∃ b', delete_loop NDEBUG fuel b k (Z.of_nat (length k)) aIndex (all_size pre) cur =
      Returns (if bool_decide (is_Some (nth_entry k (aIndex - cur) post)) then RS_ERROR_NONE else RS_ERROR_NOT_FOUND, b') ∧
    holds b' (pre ++ remove_nth k (aIndex - cur) post) ∧ ramBufferMaxLen b' = ramBufferMaxLen b.
Proof.
  intros Hh Hk. revert b pre post cur Hh. induction fuel as [|fuel IH]; intros b pre post cur Hh Hf; [lia|].
  cbn [delete_loop]. destruct post as [|e post].
  { rewrite (end_step b pre Hh). exists b. split; [|done].
    rewrite bool_decide_eq_false_2; [done|]. unfold nth_entry. destruct (0 <=? _); by intros []. }
  destruct (read_step b pre e post k Hh Hk) as (->&->&N2&N3&N5). cbn [obind remove_nth]. rewrite N2, N3, N5.
  assert (IH' : ∀ cur', ∃ b', delete_loop NDEBUG fuel b k (Z.of_nat (length k)) aIndex (all_size (pre ++ [e])) cur' =
      Returns (if bool_decide (is_Some (nth_entry k (aIndex - cur') post)) then RS_ERROR_NONE else RS_ERROR_NOT_FOUND, b') ∧
    holds b' (pre ++ e :: remove_nth k (aIndex - cur') post) ∧ ramBufferMaxLen b' = ramBufferMaxLen b).
  { intros cur'. destruct (IH b (pre ++ [e]) post cur') as (b2&E&Hh2&Hm2);
      [by rewrite <- app_assoc|simpl in Hf; lia|]. exists b2. by rewrite <- app_assoc in Hh2. }
  destruct (has_key k e) eqn:Hkey; [|by rewrite nth_entry_miss].
  rewrite nth_entry_hit by done. destruct (Z.eqb_spec cur aIndex) as [->|Hne].
  - rewrite Z.sub_diag, Z.eqb_refl. destruct (remove_block_spec b pre e post Hh) as (b1&->&Hh1&Hm1).
    exists b1. by rewrite bool_decide_eq_true_2.
  - destruct (Z.eqb_spec (aIndex - cur) 0); [lia|].
    replace (aIndex - cur - 1) with (aIndex - (cur + 1)) by lia. apply IH'.
Qed.

(** ** Adding *)

Lemma ramStorageAdd_spec b es k v :
  holds b es → (length k <= 28)%nat → 31 + Z.of_nat (length v) < 65536 →
  if all_size es + (31 + Z.of_nat (length v)) <=? ramBufferMaxLen b then
    ∃ b', ramStorageAdd NDEBUG b k (Z.of_nat (length k)) v (Z.of_nat (length v)) = Returns (RS_ERROR_NONE, b') ∧
      holds b' (es ++ [mkEntry k v]) ∧ ramBufferMaxLen b' = ramBufferMaxLen b
  else
    ramStorageAdd NDEBUG b k (Z.of_nat (length k)) v (Z.of_nat (length v)) =
    (if NDEBUG then Returns (RS_ERROR_NO_BUFS, b) else Crashes AssertFailed).
Proof.
  intros Hh Hk Hv. destruct (holds_size _ _ Hh) as [Hs Hmax]. destruct Hh as (rest&Hb&Hl&Hall&_&Hok).
  set (e := mkEntry k v). assert (He : entry_ok e) by done.
  unfold ramStorageAdd. change sizeof_settingsBlock with 31. rewrite u16_id by solve_width. rewrite Hl.
  pose proof (all_size_nonneg es).
  destruct (Z.leb_spec (all_size es + (31 + Z.of_nat (length v))) (ramBufferMaxLen b)) as [Hfit|]; [|by unfold c_assert].
  rewrite !Nat2Z.id, (take_ge k), (take_ge v) by lia. fold (entry_block e).
  assert (Hrest : (31 + length v <= length rest)%nat).
  { rewrite Hb, length_app in Hall. unfold all_size in Hfit. lia. }
  pose proof (encode_entry_length e He) as Hel. change (mkBlock _ _ _) with (entry_block e).
  rewrite Hb. unfold all_size at 1. rewrite mem_write_at by lia. cbn [obind].
  replace (all_size es + 31) with (Z.of_nat (length (all_bytes es ++ encode_block (entry_block e))))
    by (rewrite length_app, Hel; unfold all_size; lia).
  rewrite app_assoc, mem_write_at by (rewrite length_drop; lia). cbn [obind].
  rewrite u16_id by solve_width. unfold c_assert. rewrite (proj2 (Z.leb_le _ _)) by done. cbn [orb].
  eexists. split; [reflexivity|]. split; [|done].
  exists (drop (length v) (drop (length (encode_block (entry_block e))) rest)).
  cbn [pRamBuffer ramBufferLen ramBufferMaxLen]. split_and!; try done.
  - rewrite all_bytes_app, all_bytes_cons. change (all_bytes []) with (@nil Z). unfold entry_bytes.
    by rewrite app_nil_r, <- !app_assoc.
  - rewrite all_size_app, all_size_cons by done. change (all_size []) with 0. simpl. lia.
  - rewrite <- Hall, Hb, !length_app, !length_drop, Hel. lia.
  - apply Forall_app. by rewrite Forall_singleton.
Qed.

Lemma ramStorageSet_spec b es k v :
  holds b es → (length k <= 28)%nat → 31 + Z.of_nat (length v) < 65536 →
  let es' := without k es in
  if all_size es' + (31 + Z.of_nat (length v)) <=? ramBufferMaxLen b then
    ∃ b', ramStorageSet NDEBUG b k (Z.of_nat (length k)) v (Z.of_nat (length v)) = Returns (RS_ERROR_NONE, b') ∧
      holds b' (es' ++ [mkEntry k v])
  else if NDEBUG then
    ∃ b', ramStorageSet NDEBUG b k (Z.of_nat (length k)) v (Z.of_nat (length v)) = Returns (RS_ERROR_NO_BUFS, b') ∧
      holds b' es'
  else ramStorageSet NDEBUG b k (Z.of_nat (length k)) v (Z.of_nat (length v)) = Crashes AssertFailed.
Proof.
  intros Hh Hk Hv es'. unfold ramStorageSet, c_assert. change KEY_BYTE_MAX_SIZE with 28.
  destruct (Z.leb_spec (Z.of_nat (length k)) 28); [|lia]. cbn [orb].
  destruct (delete_all_loop_spec _ b k [] es Hh Hk (entries_fuel b es Hh)) as (b1&E1&Hh1&Hm1).
  change (all_size []) with 0 in E1. rewrite E1. cbn [obind]. simpl app in Hh1. fold es' in Hh1.
  pose proof (ramStorageAdd_spec b1 es' k v Hh1 Hk Hv) as Ha. rewrite Hm1 in Ha.
  destruct (_ <=? _).
  - destruct Ha as (b2&->&Hh2&_). by exists b2.
  - rewrite Ha. destruct NDEBUG; [by exists b1|done].
Qed.

(** ** Keys *)

Lemma filter_without k k' es :
  List.filter (has_key k') (without k es) = if bool_decide (k' = k) then [] else List.filter (has_key k') es.
Proof.
  unfold without. induction es as [|e es IH]; [by case_bool_decide|]. cbn [List.filter].
  destruct (has_key k e) eqn:Ek; cbn [negb List.filter]; rewrite IH; unfold has_key in *.
  - apply bool_decide_eq_true in Ek. rewrite Ek. case_bool_decide as Hk; [done|].
    rewrite (bool_decide_eq_false_2 (k = k')); [done|]. intros ->. done.
  - apply bool_decide_eq_false in Ek. case_bool_decide as Hk; [|done]. subst.
    by rewrite (bool_decide_eq_false_2 (e_key e = k)).
Qed.

Lemma nth_entry_set k v k' i es :
  nth_entry k' i (without k es ++ [mkEntry k v]) =
  if bool_decide (k' = k) then if i =? 0 then Some (mkEntry k v) else None else nth_entry k' i es.
Proof.
  unfold nth_entry. rewrite List.filter_app, filter_without. simpl. unfold has_key at 2. simpl.
  case_bool_decide as Hk.
  - subst. rewrite bool_decide_eq_true_2 by done. simpl. destruct (Z.leb_spec 0 i), (Z.eqb_spec i 0); try lia; try done.
    + by subst.
    + by replace (Z.to_nat i) with (S (Z.to_nat (i - 1))) by lia.
  - rewrite bool_decide_eq_false_2 by done. by rewrite app_nil_r.
Qed.

(** ** Printing *)

Lemma dump_loop_spec fuel b pre post :
  holds b (pre ++ post) → (length post < fuel)%nat →
  dump_loop fuel b (all_size pre) = Returns (map (λ e, (e_key e, Z.of_nat (length (e_val e)))) post).
Proof.
  intros Hh. revert pre post Hh. induction fuel as [|fuel IH]; intros pre post Hh Hf; [lia|].
  cbn [dump_loop]. destruct post as [|e post]; [by rewrite (end_step b pre Hh)|].
  destruct (read_step b pre e post [] Hh) as (->&->&_&N3&_); [simpl; lia|]. cbn [obind].
  destruct (holds_size _ _ Hh) as [Hs Hmax]. assert (Hh' := Hh).
  destruct Hh' as (rest&Hb&_&_&_&[_ [He _]%Forall_cons]%Forall_app).
  destruct (next_block pre e post _ He Hs Hmax) as (N1&_).
  assert (Ek : mem_read (pRamBuffer b) (all_size pre) (keyBytesLen (entry_block e)) = Returns (e_key e)).
  { rewrite Hb, all_bytes_app, all_bytes_cons, <- !app_assoc. unfold entry_bytes, encode_block. simpl.
    rewrite <- !app_assoc. apply mem_read_mid. }
  rewrite Ek. cbn [obind]. rewrite N1, (IH (pre ++ [e]) post); [done|by rewrite <- app_assoc|simpl in Hf; lia].
Qed.

(** ** Properties *)

(** On a buffer with entries [es] and for a key of at most 28 bytes,
    ramStorageGet returns the value of the entry of the key with the given index,
    cut to the caller's buffer, and its full length, or RS_ERROR_NOT_FOUND; it
    never reads outside the buffer. *)
Theorem ramStorageGet_refines b es k aIndex room :
  holds b es → (length k <= 28)%nat → (∀ n, room = Some n → 0 <= n) →
  ramStorageGet NDEBUG b k (Z.of_nat (length k)) aIndex room =
  Returns (match nth_entry k aIndex es with
           | Some e => got room (e_val e)
           | None => (RS_ERROR_NOT_FOUND, [], 0)
           end).
Proof. apply ramStorageGet_spec. Qed.

(** C36: ramStorageSet replaces every entry of the key by one with the new value,
    when the value (of at most 65504 bytes) then fits the buffer. When it does not,
    the function still has removed the old entries: it fails an assertion, or,
    with assertions compiled out, returns RS_ERROR_NO_BUFS and the key is gone. *)
Theorem ramStorageSet_refines b es k v :
  holds b es → (length k <= 28)%nat → 31 + Z.of_nat (length v) < 65536 →
  let es' := without k es in
  if all_size es' + (31 + Z.of_nat (length v)) <=? ramBufferMaxLen b then
    ∃ b', ramStorageSet NDEBUG b k (Z.of_nat (length k)) v (Z.of_nat (length v)) = Returns (RS_ERROR_NONE, b') ∧
      holds b' (es' ++ [mkEntry k v])
  else if NDEBUG then
    ∃ b', ramStorageSet NDEBUG b k (Z.of_nat (length k)) v (Z.of_nat (length v)) = Returns (RS_ERROR_NO_BUFS, b') ∧
      holds b' es'
  else ramStorageSet NDEBUG b k (Z.of_nat (length k)) v (Z.of_nat (length v)) = Crashes AssertFailed.
Proof. apply ramStorageSet_spec. Qed.

(** Round trip: after ramStorageSet succeeded, ramStorageGet of that key returns
    the value set, with no second entry of the key, and of every other key what it
    returned before. *)
Theorem ramStorage_set_get b es k v :
  holds b es → (length k <= 28)%nat → 31 + Z.of_nat (length v) < 65536 →
  all_size (without k es) + (31 + Z.of_nat (length v)) <= ramBufferMaxLen b →
  ∃ b', ramStorageSet NDEBUG b k (Z.of_nat (length k)) v (Z.of_nat (length v)) = Returns (RS_ERROR_NONE, b') ∧
    ∀ k' i n, (length k' <= 28)%nat → 0 <= n →
      ramStorageGet NDEBUG b' k' (Z.of_nat (length k')) i (Some n) =
      if bool_decide (k' = k)
      then Returns (if i =? 0 then got (Some n) v else (RS_ERROR_NOT_FOUND, [], 0))
      else ramStorageGet NDEBUG b k' (Z.of_nat (length k')) i (Some n).
Proof.
  intros Hh Hk Hv Hfit. pose proof (ramStorageSet_spec b es k v Hh Hk Hv) as Hs. cbv zeta in Hs.
  rewrite (proj2 (Z.leb_le _ _) Hfit) in Hs. destruct Hs as (b'&E&Hh'). exists b'. split; [done|].
  intros k' i n Hk' Hn. rewrite (ramStorageGet_spec b' (without k es ++ [mkEntry k v])), (ramStorageGet_spec b es), nth_entry_set
    by (done || by intros ? [= <-]).
  case_bool_decide; [|done]. by destruct (i =? 0).
Qed.

(** ramStorageDelete removes exactly the entry of the key with the given index,
    or returns RS_ERROR_NOT_FOUND and changes nothing. *)
Theorem ramStorageDelete_refines b es k aIndex :
  holds b es → (length k <= 28)%nat →
  ∃ b', ramStorageDelete NDEBUG b k (Z.of_nat (length k)) aIndex =
      Returns (if bool_decide (is_Some (nth_entry k aIndex es)) then RS_ERROR_NONE else RS_ERROR_NOT_FOUND, b') ∧
    holds b' (remove_nth k aIndex es).
Proof.
  intros Hh Hk. unfold ramStorageDelete. change KEY_BYTE_MAX_SIZE with 28.
  destruct (Z.leb_spec (Z.of_nat (length k)) 28); [|lia].
  destruct (delete_loop_spec _ b k aIndex [] es 0 Hh Hk (entries_fuel b es Hh)) as (b'&E&Hh'&_).
  rewrite Z.sub_0_r in E, Hh'. by exists b'.
Qed.

(** A value of more than 65504 bytes wraps the 16-bit block length around, so
    the room check of ramStorageSet accepts it and the copy of the value runs past
    the end of the buffer. *)
Theorem ramStorageSet_overruns b es k v :
  holds b es → (length k <= 28)%nat → 65505 <= Z.of_nat (length v) < 65536 →
  all_size (without k es) + 31 <= ramBufferMaxLen b →
  ramStorageSet NDEBUG b k (Z.of_nat (length k)) v (Z.of_nat (length v)) = Crashes OutOfBounds.
Proof.
  intros Hh Hk Hv Hfit. unfold ramStorageSet, c_assert. change KEY_BYTE_MAX_SIZE with 28.
  destruct (Z.leb_spec (Z.of_nat (length k)) 28); [|lia]. cbn [orb].
  destruct (delete_all_loop_spec _ b k [] es Hh Hk (entries_fuel b es Hh)) as (b1&E1&Hh1&Hm1).
  change (all_size []) with 0 in E1. rewrite E1. cbn [obind]. simpl app in Hh1.
  set (es' := without k es) in *. destruct (holds_size _ _ Hh1) as [_ Hmax]. destruct Hh1 as (rest&Hb&Hl&Hall&_&_).
  unfold ramStorageAdd. change sizeof_settingsBlock with 31. rewrite Hl.
  assert (Ew : u16 (31 + Z.of_nat (length v)) = Z.of_nat (length v) - 65505) by wrap_lia. rewrite Ew, Hm1.
  destruct (Z.leb_spec (all_size es' + (Z.of_nat (length v) - 65505)) (ramBufferMaxLen b)) as [_|]; [|lia].
  set (kf := take _ k ++ _). assert (Hkf : length (encode_block (mkBlock kf (Z.of_nat (length k)) (Z.of_nat (length v)))) = 31%nat).
  { unfold encode_block, kf. simpl. rewrite !length_app, length_take, length_replicate. simpl. lia. }
  rewrite Hb, length_app in Hall. unfold all_size in Hfit. rewrite Hb. unfold all_size at 1.
  rewrite mem_write_at by lia. cbn [obind]. unfold mem_write at 1. rewrite Nat2Z.id, (take_ge v) by lia.
  rewrite !length_app, length_drop, Hkf. unfold all_size in *.
  destruct (Z.leb_spec (Z.of_nat (length (all_bytes es')) + 31 + Z.of_nat (length v))
    (Z.of_nat (length (all_bytes es') + (31 + (length rest - 31))))) as [|_]; [lia|].
  by rewrite andb_false_r.
Qed.
End Proofs.

(** ** Witnesses *)

Definition ram_empty : ramBufferDescriptor := mkRamBuffer 0 100 (replicate 100 0).

Lemma ram_empty_holds : holds ram_empty [].
Proof. exists (replicate 100 0). by split_and!. Qed.

Definition ram_entry : entry := mkEntry [1; 2] [7; 8; 9].
Definition ram_filled : ramBufferDescriptor :=
  mkRamBuffer 34 100 (entry_bytes ram_entry ++ replicate 66 0).

Lemma ram_filled_holds : holds ram_filled [ram_entry].
Proof.
  exists (replicate 66 0). split_and!; try done. apply Forall_singleton. split; [simpl; lia|by vm_compute].
Qed.

Lemma ramStorageGet_refines_witness :
  ramStorageGet false ram_filled [1; 2] 2 0 (Some 2) = Returns (RS_ERROR_NONE, [7; 8], 3).
Proof.
  apply (ramStorageGet_refines false ram_filled [ram_entry] [1; 2] 0 (Some 2) ram_filled_holds).
  - simpl. lia.
  - intros n [= <-]. lia.
Defined.

Lemma ramStorageSet_refines_witness :
  ∃ b', ramStorageSet false ram_filled [1; 2] 2 [4; 5] 2 = Returns (RS_ERROR_NONE, b') ∧
    holds b' [mkEntry [1; 2] [4; 5]].
Proof.
  apply (ramStorageSet_refines false ram_filled [ram_entry] [1; 2] [4; 5] ram_filled_holds); simpl; lia.
Defined.

Lemma ramStorage_set_get_witness :
  ∃ b', ramStorageSet true ram_empty [1] 1 [4; 5] 2 = Returns (RS_ERROR_NONE, b') ∧
    ramStorageGet true b' [1] 1 0 (Some 9) = Returns (RS_ERROR_NONE, [4; 5], 2).
Proof.
  destruct (ramStorage_set_get true ram_empty [] [1] [4; 5] ram_empty_holds ltac:(simpl; lia) ltac:(simpl; lia)
              ltac:(vm_compute; discriminate)) as (b'&E&Hget).
  exists b'. split; [exact E|]. apply (Hget [1] 0 9); simpl; lia.
Defined.

Lemma ramStorageDelete_refines_witness :
  ∃ b', ramStorageDelete false ram_filled [1; 2] 2 0 = Returns (RS_ERROR_NONE, b') ∧ holds b' [].
Proof.
  apply (ramStorageDelete_refines false ram_filled [ram_entry] [1; 2] 0 ram_filled_holds). simpl. lia.
Defined.

Lemma ramStorageSet_overruns_witness :
  ramStorageSet true ram_empty [1] 1 (replicate (Z.to_nat 65505) 0)
    (Z.of_nat (length (replicate (Z.to_nat 65505) 0))) = Crashes OutOfBounds.
Proof.
  apply (ramStorageSet_overruns true ram_empty [] [1] (replicate (Z.to_nat 65505) 0) ram_empty_holds).
  - simpl. lia.
  - rewrite length_replicate. lia.
  - vm_compute. discriminate.
Defined.
