(* ===== verification/Peer.v ===== *)
(** * GATT peer database of the ESP32 NimBLE port

    src/platform/ESP32/nimble/peer.c: the services, characteristics and descriptors
    discovered on each connected peer, kept in singly linked lists of blocks from
    memory pools, and the discovery that fills them. Lists of nodes are lists
    here, a pointer to a node is its index; the memory pools, the GATT procedures of
    the stack and its error codes are parameters. *)

From S2P Require Import Prelude.
From S2P Require Import COutcome.

(** ** The BLE stack *)

(** Error codes of host/ble_hs.h. *)
Class BleCodes := {
  BLE_HS_EDONE : Z; BLE_HS_EUNKNOWN : Z; BLE_HS_ENOMEM : Z;
  BLE_HS_ENOTCONN : Z; BLE_HS_EALREADY : Z; BLE_HS_EOS : Z }.

(** UUIDs of any size and their comparison. *)
Class BleUuid := { ble_uuid_t : Type; ble_uuid_cmp : ble_uuid_t → ble_uuid_t → Z }.

(** Memory pools of the operating-system layer. *)
Class OsMempool := {
  os_mempool : Type;
  os_mempool_init : Z → Z * os_mempool;
  os_memblock_get : os_mempool → option os_mempool;
  os_memblock_put : os_mempool → Z * os_mempool }.

(** ** Data *)

Section Data.
Context `{BleUuid}.

Record ble_gatt_dsc := mkDsc { dsc_handle : Z; dsc_uuid : ble_uuid_t }.
Record ble_gatt_chr := mkChr { def_handle : Z; val_handle : Z; chr_uuid : ble_uuid_t }.
Record ble_gatt_svc := mkSvc { start_handle : Z; end_handle : Z; svc_uuid : ble_uuid_t }.

Record peer_dsc := mkPeerDsc { dsc : ble_gatt_dsc }.
Record peer_chr := mkPeerChr { chr : ble_gatt_chr; dscs : list peer_dsc }.
Record peer_svc := mkPeerSvc { svc : ble_gatt_svc; chrs : list peer_chr }.

(** [cur_svc] holds the service the pointer was set to, whose fields do not change;
    [disc_cb] tells whether a callback is registered. *)
Record peer := mkPeer {
  conn_handle : Z; svcs : list peer_svc; disc_prev_chr_val : Z;
  cur_svc : option ble_gatt_svc; disc_cb : bool }.
End Data.

(** A discovery procedure that the module starts in the stack. *)
Inductive request :=
  | ble_gattc_disc_all_svcs (conn : Z)
  | ble_gattc_disc_all_chrs (conn start_h end_h : Z)
  | ble_gattc_disc_all_dscs (conn start_h end_h : Z).

(** What the module does that is visible outside: the procedures it starts and the
    calls of the user's callback with its status. *)
Inductive event := Started (r : request) | DiscComplete (conn rc : Z).

Section Peer.
Context `{BleCodes} `{BleUuid} `{OsMempool}.
(** [NDEBUG] is whether assertions are compiled out; [start] gives the status of
    starting a procedure after the events so far. *)
Context (NDEBUG : bool) (start : list event → request → Z).

Record pools := mkPools {
  peer_pool : os_mempool; peer_svc_pool : os_mempool;
  peer_chr_pool : os_mempool; peer_dsc_pool : os_mempool }.

Definition set_svc_pool (p : os_mempool) (ps : pools) : pools :=
  mkPools (peer_pool ps) p (peer_chr_pool ps) (peer_dsc_pool ps).
Definition set_chr_pool (p : os_mempool) (ps : pools) : pools :=
  mkPools (peer_pool ps) (peer_svc_pool ps) p (peer_dsc_pool ps).
Definition set_dsc_pool (p : os_mempool) (ps : pools) : pools :=
  mkPools (peer_pool ps) (peer_svc_pool ps) (peer_chr_pool ps) p.
Definition set_peer_pool (p : os_mempool) (ps : pools) : pools :=
  mkPools p (peer_svc_pool ps) (peer_chr_pool ps) (peer_dsc_pool ps).

Definition set_svcs (l : list peer_svc) (p : peer) : peer :=
  mkPeer (conn_handle p) l (disc_prev_chr_val p) (cur_svc p) (disc_cb p).
Definition set_prev_chr_val (v : Z) (p : peer) : peer :=
  mkPeer (conn_handle p) (svcs p) v (cur_svc p) (disc_cb p).
Definition set_cur_svc (s : ble_gatt_svc) (p : peer) : peer :=
  mkPeer (conn_handle p) (svcs p) (disc_prev_chr_val p) (Some s) (disc_cb p).
Definition set_disc_cb (c : bool) (p : peer) : peer :=
  mkPeer (conn_handle p) (svcs p) (disc_prev_chr_val p) (cur_svc p) c.
Definition set_chrs (l : list peer_chr) (s : peer_svc) : peer_svc := mkPeerSvc (svc s) l.
Definition set_dscs (l : list peer_dsc) (c : peer_chr) : peer_chr := mkPeerChr (chr c) l.

(** ** Searching a list

    [SLIST_FOREACH] up to the first node whose key is not smaller; the node in front
    of it, as its index. *)
Fixpoint find_prev_loop {A} (key : A → Z) (l : list A) (h : Z) (i : nat) (prev : option nat) : option nat :=
  match l with
  | [] => prev
  | x :: l' => if h <=? key x then prev else find_prev_loop key l' h (S i) (Some i)
  end.

(** The node behind [prev], when its key is [h]. *)
Definition node_after {A} (key : A → Z) (l : list A) (h : Z) (prev : option nat) : option nat :=
  let i := match prev with None => 0%nat | Some j => S j end in
  match l !! i with
  | Some x => if negb (key x =? h) then None else Some i
  | None => None
  end.

Definition peer_dsc_find_prev (c : peer_chr) (h : Z) : option nat :=
  find_prev_loop (λ d, dsc_handle (dsc d)) (dscs c) h 0 None.
Definition peer_dsc_find (c : peer_chr) (h : Z) : option nat * option nat :=
  let prev := peer_dsc_find_prev c h in
  (node_after (λ d, dsc_handle (dsc d)) (dscs c) h prev, prev).

Definition peer_chr_find_prev (s : peer_svc) (h : Z) : option nat :=
  find_prev_loop (λ c, val_handle (chr c)) (chrs s) h 0 None.
Definition peer_chr_find (s : peer_svc) (h : Z) : option nat * option nat :=
  let prev := peer_chr_find_prev s h in
  (node_after (λ c, val_handle (chr c)) (chrs s) h prev, prev).

Definition peer_svc_find_prev (p : peer) (h : Z) : option nat :=
  find_prev_loop (λ s, start_handle (svc s)) (svcs p) h 0 None.
Definition peer_svc_find (p : peer) (h : Z) : option nat * option nat :=
  let prev := peer_svc_find_prev p h in
  (node_after (λ s, start_handle (svc s)) (svcs p) h prev, prev).

Definition peer_svc_find_range (p : peer) (h : Z) : option nat :=
  fst <$> list_find (λ s, start_handle (svc s) <= h ∧ h <= end_handle (svc s)) (svcs p).

Definition peer_svc_find_uuid (p : peer) (uuid : ble_uuid_t) : option peer_svc :=
  snd <$> list_find (λ s, ble_uuid_cmp (svc_uuid (svc s)) uuid = 0) (svcs p).
Definition peer_chr_find_uuid (p : peer) (su cu : ble_uuid_t) : option peer_chr :=
  match peer_svc_find_uuid p su with
  | None => None
  | Some s => snd <$> list_find (λ c, ble_uuid_cmp (chr_uuid (chr c)) cu = 0) (chrs s)
  end.
Definition peer_dsc_find_uuid (p : peer) (su cu du : ble_uuid_t) : option peer_dsc :=
  match peer_chr_find_uuid p su cu with
  | None => None
  | Some c => snd <$> list_find (λ d, ble_uuid_cmp (dsc_uuid (dsc d)) du = 0) (dscs c)
  end.

(** ** Inserting

    A service is linked in behind [prev] with [SLIST_INSERT_AFTER]. *)
Definition insert_after {A} (prev : option nat) (x : A) (l : list A) : list A :=
  match prev with
  | None => x :: l
  | Some i => take (S i) l ++ x :: drop (S i) l
  end.

(** Characteristics and descriptors are linked in by [SLIST_NEXT(prev, next) = x],
    where the link of [x] itself was zeroed: the nodes behind [prev] are unlinked. *)
Definition link_after {A} (prev : option nat) (x : A) (l : list A) : list A :=
  match prev with
  | None => x :: l
  | Some i => take (S i) l ++ [x]
  end.

Record ctx := mkCtx { c_peer : peer; c_pools : pools; c_trace : list event }.
Definition set_peer (p : peer) (c : ctx) : ctx := mkCtx p (c_pools c) (c_trace c).
Definition set_pools (ps : pools) (c : ctx) : ctx := mkCtx (c_peer c) ps (c_trace c).
Definition emit (e : event) (c : ctx) : ctx := mkCtx (c_peer c) (c_pools c) (c_trace c ++ [e]).

Definition peer_svc_add (c : ctx) (gatt_svc : ble_gatt_svc) : Z * ctx :=
  let '(found, prev) := peer_svc_find (c_peer c) (start_handle gatt_svc) in
  match found with
  | Some _ => (0, c)
  | None =>
      match os_memblock_get (peer_svc_pool (c_pools c)) with
      | None => (BLE_HS_ENOMEM, c)
      | Some pool =>
          (0, set_peer (set_svcs (insert_after prev (mkPeerSvc gatt_svc []) (svcs (c_peer c))) (c_peer c))
                (set_pools (set_svc_pool pool (c_pools c)) c))
      end
  end.

Definition peer_chr_add (c : ctx) (svc_start_handle : Z) (gatt_chr : ble_gatt_chr) : outcome (Z * ctx) :=
  match fst (peer_svc_find (c_peer c) svc_start_handle) ≫= λ i, pair i <$> svcs (c_peer c) !! i with
  | None => c_assert NDEBUG false (Returns (BLE_HS_EUNKNOWN, c))
  | Some (i, s) =>
      let '(found, prev) := peer_chr_find s (def_handle gatt_chr) in
      match found with
      | Some _ => Returns (0, c)
      | None =>
          match os_memblock_get (peer_chr_pool (c_pools c)) with
          | None => Returns (BLE_HS_ENOMEM, c)
          | Some pool =>
              let s' := set_chrs (link_after prev (mkPeerChr gatt_chr []) (chrs s)) s in
              Returns (0, set_peer (set_svcs (<[i := s']> (svcs (c_peer c))) (c_peer c))
                            (set_pools (set_chr_pool pool (c_pools c)) c))
          end
      end
  end.

Definition peer_dsc_add (c : ctx) (chr_val_handle : Z) (gatt_dsc : ble_gatt_dsc) : outcome (Z * ctx) :=
  match peer_svc_find_range (c_peer c) chr_val_handle ≫= λ i, pair i <$> svcs (c_peer c) !! i with
  | None => c_assert NDEBUG false (Returns (BLE_HS_EUNKNOWN, c))
  | Some (i, s) =>
      match fst (peer_chr_find s chr_val_handle) ≫= λ j, pair j <$> chrs s !! j with
      | None => c_assert NDEBUG false (Returns (BLE_HS_EUNKNOWN, c))
      | Some (j, ch) =>
          let '(found, prev) := peer_dsc_find ch (dsc_handle gatt_dsc) in
          match found with
          | Some _ => Returns (0, c)
          | None =>
              match os_memblock_get (peer_dsc_pool (c_pools c)) with
              | None => Returns (BLE_HS_ENOMEM, c)
              | Some pool =>
                  let ch' := set_dscs (link_after prev (mkPeerDsc gatt_dsc) (dscs ch)) ch in
                  let s' := set_chrs (<[j := ch']> (chrs s)) s in
                  Returns (0, set_peer (set_svcs (<[i := s']> (svcs (c_peer c))) (c_peer c))
                                (set_pools (set_dsc_pool pool (c_pools c)) c))
              end
          end
      end
  end.

(** ** Discovery *)

Definition peer_disc_complete (c : ctx) (rc : Z) : ctx :=
  let c := set_peer (set_prev_chr_val 0 (c_peer c)) c in
  if disc_cb (c_peer c) then emit (DiscComplete (conn_handle (c_peer c)) rc) c else c.

Definition start_procedure (r : request) (c : ctx) : Z * ctx := (start (c_trace c) r, emit (Started r) c).

(** [next] is the characteristic behind this one in its service. *)
Definition chr_end_handle (s : peer_svc) (next : option peer_chr) : Z :=
  match next with
  | Some n => u16 (def_handle (chr n) - 1)
  | None => end_handle (svc s)
  end.
Definition chr_is_empty (s : peer_svc) (c : peer_chr) (next : option peer_chr) : bool :=
  chr_end_handle s next <=? val_handle (chr c).
Definition peer_svc_is_empty (s : peer_svc) : bool := end_handle (svc s) <=? start_handle (svc s).

(** The first characteristic of a service without descriptors, with its end handle. *)
Fixpoint next_chr_of (s : peer_svc) (l : list peer_chr) (prev_val : Z) : option (peer_chr * Z) :=
  match l with
  | [] => None
  | c :: l' =>
      if negb (chr_is_empty s c (head l')) && bool_decide (dscs c = []) && (prev_val <=? def_handle (chr c))
      then Some (c, chr_end_handle s (head l'))
      else next_chr_of s l' prev_val
  end.
Fixpoint next_undiscovered (l : list peer_svc) (prev_val : Z) : option (peer_chr * Z) :=
  match l with
  | [] => None
  | s :: l' =>
      match next_chr_of s (chrs s) prev_val with
      | Some r => Some r
      | None => next_undiscovered l' prev_val
      end
  end.

Definition peer_disc_dscs (c : ctx) : ctx :=
  match next_undiscovered (svcs (c_peer c)) (disc_prev_chr_val (c_peer c)) with
  | Some (ch, e) =>
      let '(rc, c1) := start_procedure (ble_gattc_disc_all_dscs (conn_handle (c_peer c)) (val_handle (chr ch)) e) c in
      let c2 := if negb (rc =? 0) then peer_disc_complete c1 rc else c1 in
      set_peer (set_prev_chr_val (val_handle (chr ch)) (c_peer c2)) c2
  | None => peer_disc_complete c 0
  end.

Definition peer_disc_chrs (c : ctx) : ctx :=
  match list_find (λ s, peer_svc_is_empty s = false ∧ chrs s = []) (svcs (c_peer c)) with
  | Some (_, s) =>
      let c1 := set_peer (set_cur_svc (svc s) (c_peer c)) c in
      let '(rc, c2) := start_procedure (ble_gattc_disc_all_chrs (conn_handle (c_peer c1))
                         (start_handle (svc s)) (end_handle (svc s))) c1 in
      if negb (rc =? 0) then peer_disc_complete c2 rc else c2
  | None => peer_disc_dscs c
  end.

(** The callbacks of the three procedures; [status] is [error->status]. *)
Definition finish (rc : Z) (c : ctx) : Z * ctx := (rc, if negb (rc =? 0) then peer_disc_complete c rc else c).

Definition peer_svc_disced (c : ctx) (conn status : Z) (service : ble_gatt_svc) : outcome (Z * ctx) :=
  c_assert NDEBUG (conn_handle (c_peer c) =? conn)
    (Returns
       (if status =? 0 then let '(rc, c') := peer_svc_add c service in finish rc c'
        else if status =? BLE_HS_EDONE then
          finish 0 (if 0 <? disc_prev_chr_val (c_peer c) then peer_disc_chrs c else c)
        else finish status c)).

Definition peer_chr_disced (c : ctx) (conn status : Z) (gatt_chr : ble_gatt_chr) : outcome (Z * ctx) :=
  c_assert NDEBUG (conn_handle (c_peer c) =? conn)
    (if status =? 0 then
       match cur_svc (c_peer c) with
       | None => Crashes OutOfBounds
       | Some s => let+ r := peer_chr_add c (start_handle s) gatt_chr in Returns (finish (fst r) (snd r))
       end
     else if status =? BLE_HS_EDONE then
       Returns (finish 0 (if 0 <? disc_prev_chr_val (c_peer c) then peer_disc_chrs c else c))
     else Returns (finish status c)).

Definition peer_dsc_disced (c : ctx) (conn status chr_val_handle : Z) (gatt_dsc : ble_gatt_dsc) : outcome (Z * ctx) :=
  c_assert NDEBUG (conn_handle (c_peer c) =? conn)
    (if status =? 0 then
       let+ r := peer_dsc_add c chr_val_handle gatt_dsc in Returns (finish (fst r) (snd r))
     else if status =? BLE_HS_EDONE then
       Returns (finish 0 (if 0 <? disc_prev_chr_val (c_peer c) then peer_disc_dscs c else c))
     else Returns (finish status c)).

(** ** Removing

    Every block of the lists goes back to its pool. *)
Fixpoint put_n (n : nat) (p : os_mempool) : os_mempool :=
  match n with O => p | S n' => put_n n' (snd (os_memblock_put p)) end.

Definition peer_chr_delete (c : peer_chr) (ps : pools) : pools :=
  let ps := set_dsc_pool (put_n (length (dscs c)) (peer_dsc_pool ps)) ps in
  set_chr_pool (snd (os_memblock_put (peer_chr_pool ps))) ps.

Definition peer_svc_delete (s : peer_svc) (ps : pools) : pools :=
  let ps := foldl (λ ps c, peer_chr_delete c ps) ps (chrs s) in
  set_svc_pool (snd (os_memblock_put (peer_svc_pool ps))) ps.

Definition delete_svcs (l : list peer_svc) (ps : pools) : pools :=
  foldl (λ ps s, peer_svc_delete s ps) ps l.

(** ** The peers

    [mem] tells which of the four areas of memory are allocated. *)
Record gatt_state := mkGatt { peers : list peer; g_pools : pools; g_trace : list event; mem : list bool }.

Definition peer_find (g : gatt_state) (conn : Z) : option (nat * peer) :=
  list_find (λ p, conn_handle p = conn) (peers g).

(** A callback of the stack for the peer with index [i]. *)
Definition on_peer (g : gatt_state) (i : nat) (f : ctx → outcome (Z * ctx)) : outcome (Z * gatt_state) :=
  match peers g !! i with
  | None => Crashes OutOfBounds
  | Some p =>
      let+ r := f (mkCtx p (g_pools g) (g_trace g)) in
      Returns (fst r, mkGatt (<[i := c_peer (snd r)]> (peers g)) (c_pools (snd r)) (c_trace (snd r)) (mem g))
  end.

Definition peer_disc_all (g : gatt_state) (conn : Z) (cb : bool) : Z * gatt_state :=
  match peer_find g conn with
  | None => (BLE_HS_ENOTCONN, g)
  | Some (i, p) =>
      let ps := delete_svcs (svcs p) (g_pools g) in
      let p' := set_disc_cb cb (set_prev_chr_val 1 (set_svcs [] p)) in
      let '(rc, c) := start_procedure (ble_gattc_disc_all_svcs conn) (mkCtx p' ps (g_trace g)) in
      (rc, mkGatt (<[i := p']> (peers g)) ps (c_trace c) (mem g))
  end.

Definition peer_delete (g : gatt_state) (conn : Z) : Z * gatt_state :=
  match peer_find g conn with
  | None => (BLE_HS_ENOTCONN, g)
  | Some (i, p) =>
      let ps := delete_svcs (svcs p) (g_pools g) in
      let '(rc, pool) := os_memblock_put (peer_pool ps) in
      (if negb (rc =? 0) then BLE_HS_EOS else 0,
       mkGatt (delete i (peers g)) (set_peer_pool pool ps) (g_trace g) (mem g))
  end.

Definition peer_add (g : gatt_state) (conn : Z) : Z * gatt_state :=
  match peer_find g conn with
  | Some _ => (BLE_HS_EALREADY, g)
  | None =>
      match os_memblock_get (peer_pool (g_pools g)) with
      | None => (BLE_HS_ENOMEM, g)
      | Some pool =>
          (0, mkGatt (mkPeer conn [] 0 None false :: peers g) (set_peer_pool pool (g_pools g)) (g_trace g) (mem g))
      end
  end.

(** ** Initialisation *)

Definition peer_free_mem (g : gatt_state) : gatt_state :=
  mkGatt (peers g) (g_pools g) (g_trace g) [false; false; false; false].

(** Allocate the [k]-th area and make it a pool of [n] blocks; [malloc k] is whether
    the allocation succeeds. *)
Definition init_pool (malloc : nat → bool) (k : nat) (n : Z) (set : os_mempool → pools → pools) (g : gatt_state)
    : Z * gatt_state :=
  if malloc k then
    let g := mkGatt (peers g) (g_pools g) (g_trace g) (<[k := true]> (mem g)) in
    let '(rc, pool) := os_mempool_init (u16 n) in
    let g := mkGatt (peers g) (set pool (g_pools g)) (g_trace g) (mem g) in
    if negb (rc =? 0) then (BLE_HS_EOS, g) else (0, g)
  else (BLE_HS_ENOMEM, g).

Definition peer_init (malloc : nat → bool) (g : gatt_state) (max_peers max_svcs max_chrs max_dscs : Z) : Z * gatt_state :=
  let fix run (l : list (nat * Z * (os_mempool → pools → pools))) (g : gatt_state) : Z * gatt_state :=
    match l with
    | [] => (0, g)
    | (k, n, set) :: l' =>
        let '(rc, g') := init_pool malloc k n set g in
        if negb (rc =? 0) then (rc, peer_free_mem g') else run l' g'
    end in
  run [(0%nat, max_peers, set_peer_pool); (1%nat, max_svcs, set_svc_pool);
       (2%nat, max_chrs, set_chr_pool); (3%nat, max_dscs, set_dsc_pool)] (peer_free_mem g).
End Peer.
