(* ===== verification/PeerSpec.v ===== *)
(** * GATT peer database: properties

    Order and uniqueness of the discovered services, the effect of reports of
    characteristics, the blocks given back to the pools, and the progress of
    discovery. *)

From stdpp Require Import sorting.
From S2P Require Import Prelude.
From S2P Require Import COutcome.
From S2P Require Import Peer.

(** What the module relies on of a memory pool: a number of free blocks. *)
Class MempoolLaws `{OsMempool} := {
  num_free : os_mempool → Z;
  get_some p p' : os_memblock_get p = Some p' → num_free p' = num_free p - 1;
  get_none p : os_memblock_get p = None ↔ num_free p <= 0;
  put_ok p : fst (os_memblock_put p) = 0 ∧ num_free (snd (os_memblock_put p)) = num_free p + 1 }.

(** ** Searching and linking *)

Section Lists.
Context {A : Type} (key : A → Z).

Definition pred_index (n : nat) : option nat := match n with O => None | S n' => Some n' end.

Lemma find_prev_from l h i :
  ∃ l1 l2, l = l1 ++ l2 ∧ Forall (λ x, key x < h) l1 ∧ (∀ x, head l2 = Some x → h <= key x) ∧
    ∀ prev, find_prev_loop key l h i prev =
      match length l1 with O => prev | S n => Some (i + n)%nat end.
Proof.
  revert i. induction l as [|x l IH]; intros i.
  { exists [], []. split_and!; done. }
  simpl. destruct (Z.leb_spec h (key x)).
  - exists [], (x :: l). split_and!; [done|by constructor| |done]. by intros y [= <-].
  - destruct (IH (S i)) as (l1&l2&->&F&Hh&E). exists (x :: l1), l2. split_and!; [done|by constructor|done|].
    intros prev. rewrite E. simpl. destruct (length l1); f_equal; lia.
Qed.

Lemma find_prev_split l h :
  ∃ l1 l2, l = l1 ++ l2 ∧ Forall (λ x, key x < h) l1 ∧ (∀ x, head l2 = Some x → h <= key x) ∧
    find_prev_loop key l h 0 None = pred_index (length l1).
Proof.
  destruct (find_prev_from l h 0) as (l1&l2&E&F&Hh&Ef). exists l1, l2. split_and!; [done..|].
  by rewrite Ef.
Qed.

Lemma node_after_split l1 l2 h :
  node_after key (l1 ++ l2) h (pred_index (length l1)) =
  match head l2 with Some x => if key x =? h then Some (length l1) else None | None => None end.
Proof.
  unfold node_after. replace (match pred_index (length l1) with None => 0%nat | Some j => S j end) with (length l1)
    by (by destruct (length l1)).
  rewrite lookup_app_r, Nat.sub_diag by lia. destruct l2 as [|x l2]; [done|]. simpl. by destruct (key x =? h).
Qed.

Lemma insert_after_split (l1 l2 : list A) x : insert_after (pred_index (length l1)) x (l1 ++ l2) = l1 ++ x :: l2.
Proof.
  destruct l1 as [|y l1]; [done|]. simpl length. cbn [pred_index insert_after].
  by rewrite take_app_length' , drop_app_length' by done.
Qed.

Lemma link_after_split (l1 l2 : list A) x : l1 ≠ [] → link_after (pred_index (length l1)) x (l1 ++ l2) = l1 ++ [x].
Proof.
  destruct l1 as [|y l1]; [done|]. intros _. simpl length. cbn [pred_index link_after].
  by rewrite take_app_length' by done.
Qed.

Lemma link_after_end (l : list A) x : link_after (pred_index (length l)) x l = l ++ [x].
Proof.
  destruct (decide (l = [])) as [->|Hn]; [done|]. rewrite <- (app_nil_r l) at 2. by apply link_after_split.
Qed.

(** The split at a key is unique. *)
Lemma split_unique l1 l2 h :
  Forall (λ x, key x < h) l1 → (∀ x, head l2 = Some x → h <= key x) →
  find_prev_loop key (l1 ++ l2) h 0 None = pred_index (length l1).
Proof.
  intros F Hh. destruct (find_prev_split (l1 ++ l2) h) as (a&b&Eab&Fa&Hb&->). f_equal.
  rewrite Forall_forall in F, Fa.
  destruct (Nat.lt_trichotomy (length a) (length l1)) as [Hlt|[|Hlt]]; [|done|].
  - destruct b as [|x b]; [apply (f_equal length) in Eab; rewrite !length_app in Eab; simpl in Eab; lia|].
    assert (Hx : (l1 ++ l2) !! length a = Some x) by (rewrite Eab; by rewrite list_lookup_middle).
    rewrite lookup_app_l in Hx by done. apply list_elem_of_lookup_2 in Hx.
    specialize (F x Hx). specialize (Hb x eq_refl). lia.
  - destruct l2 as [|x l2]; [apply (f_equal length) in Eab; rewrite !length_app in Eab; simpl in Eab; lia|].
    assert (Hx : (a ++ b) !! length l1 = Some x) by (rewrite <- Eab; by rewrite list_lookup_middle).
    rewrite lookup_app_l in Hx by done. apply list_elem_of_lookup_2 in Hx.
    specialize (Fa x Hx). specialize (Hh x eq_refl). lia.
Qed.

Definition sorted (l : list A) : Prop := StronglySorted (λ x y, key x < key y) l.

Lemma sorted_app l1 l2 :
  sorted (l1 ++ l2) ↔ sorted l1 ∧ sorted l2 ∧ ∀ x y, x ∈ l1 → y ∈ l2 → key x < key y.
Proof.
  unfold sorted. rewrite StronglySorted_app. naive_solver.
Qed.

Lemma sorted_insert l1 l2 x :
  sorted (l1 ++ l2) → Forall (λ y, key y < key x) l1 → (∀ y, head l2 = Some y → key x < key y) →
  sorted (l1 ++ x :: l2).
Proof.
  rewrite !sorted_app, Forall_forall. intros (S1&S2&Hc) F1 Hh.
  assert (F2 : ∀ y, y ∈ l2 → key x < key y).
  { destruct l2 as [|z l2]; [set_solver|]. specialize (Hh z eq_refl). intros y [->|Hy]%elem_of_cons; [done|].
    apply StronglySorted_inv in S2 as [_ F]. rewrite Forall_forall in F. specialize (F y Hy). lia. }
  split_and!; [done| |].
  - unfold sorted. constructor; [done|]. by apply Forall_forall.
  - intros a b Ha [->|Hb]%elem_of_cons; auto.
Qed.

(** In a sorted list the split point decides whether a key is present. *)
Lemma sorted_absent l1 l2 h :
  sorted (l1 ++ l2) → Forall (λ y, key y < h) l1 → (∀ y, head l2 = Some y → h <= key y ∧ key y ≠ h) →
  ∀ y, y ∈ l1 ++ l2 → key y ≠ h.
Proof.
  intros (_&S2&_)%sorted_app F1 Hh y [Hy|Hy]%elem_of_app; [rewrite Forall_forall in F1; specialize (F1 y Hy); lia|].
  destruct l2 as [|z l2]; [set_solver|]. destruct (Hh z eq_refl). apply elem_of_cons in Hy as [->|Hy]; [done|].
  apply StronglySorted_inv in S2 as [_ F]. rewrite Forall_forall in F. specialize (F y Hy). lia.
Qed.
End Lists.

Section Spec.
Context `{BleCodes} `{BleUuid} `{!OsMempool} `{!MempoolLaws}.
Context (NDEBUG : bool) (start : list event → request → Z).

Definition svc_key (s : peer_svc) : Z := start_handle (svc s).
Definition chr_key (c : peer_chr) : Z := val_handle (chr c).

Definition svcs_sorted (p : peer) : Prop := sorted svc_key (svcs p).

(** ** Services *)

Lemma peer_svc_add_spec c g :
  svcs_sorted (c_peer c) →
  if bool_decide (Exists (λ s, svc_key s = start_handle g) (svcs (c_peer c))) then peer_svc_add c g = (0, c)
  else if num_free (peer_svc_pool (c_pools c)) <=? 0 then peer_svc_add c g = (BLE_HS_ENOMEM, c)
  else ∃ l1 l2 pool, svcs (c_peer c) = l1 ++ l2 ∧
    peer_svc_add c g = (0, set_peer (set_svcs (l1 ++ mkPeerSvc g [] :: l2) (c_peer c))
                             (set_pools (set_svc_pool pool (c_pools c)) c)) ∧
    num_free pool = num_free (peer_svc_pool (c_pools c)) - 1 ∧
    sorted svc_key (l1 ++ mkPeerSvc g [] :: l2).
Proof.
  intros S. unfold peer_svc_add, peer_svc_find, peer_svc_find_prev.
  change (λ s, start_handle (svc s)) with svc_key. unfold svcs_sorted in S.
  destruct (find_prev_split svc_key (svcs (c_peer c)) (start_handle g)) as (l1&l2&El&F&Hh&->).
  rewrite El in *. rewrite node_after_split.
  assert (Habs : (∀ y, head l2 = Some y → svc_key y ≠ start_handle g) →
    ~ Exists (λ s, svc_key s = start_handle g) (l1 ++ l2)).
  { intros Hne Hex. apply Exists_exists in Hex as (s&Hs&Ek).
    eapply (sorted_absent svc_key l1 l2 (start_handle g)) in Hs; try done. intros y Hy. auto. }
  destruct (head l2) as [x|] eqn:Hx; [destruct (Z.eqb_spec (svc_key x) (start_handle g)) as [E|Hne]|].
  - rewrite bool_decide_eq_true_2; [done|]. apply Exists_exists. exists x.
    split; [|done]. destruct l2; simplify_eq/=. set_solver.
  - rewrite bool_decide_eq_false_2 by (apply Habs; by intros y [= <-]).
    rewrite insert_after_split. destruct (os_memblock_get _) as [pool|] eqn:Eg.
    + pose proof (get_some _ _ Eg). destruct (Z.leb_spec (num_free (peer_svc_pool (c_pools c))) 0) as [Hz|_].
      { apply get_none in Hz. congruence. }
      exists l1, l2, pool. split_and!; try done. apply sorted_insert; [done|done|].
      intros y Hy. specialize (Hh y). rewrite Hx in *. simplify_eq. unfold svc_key in *. simpl. specialize (Hh eq_refl). lia.
    + apply get_none in Eg. destruct (Z.leb_spec (num_free (peer_svc_pool (c_pools c))) 0); [done|lia].
  - rewrite bool_decide_eq_false_2 by (by apply Habs).
    rewrite insert_after_split. destruct (os_memblock_get _) as [pool|] eqn:Eg.
    + pose proof (get_some _ _ Eg). destruct (Z.leb_spec (num_free (peer_svc_pool (c_pools c))) 0) as [Hz|_].
      { apply get_none in Hz. congruence. }
      exists l1, l2, pool. split_and!; try done. apply sorted_insert; [done|done|by rewrite Hx].
    + apply get_none in Eg. destruct (Z.leb_spec (num_free (peer_svc_pool (c_pools c))) 0); [done|lia].
Qed.

Lemma peer_svc_find_sorted p i s :
  svcs_sorted p → svcs p !! i = Some s → fst (peer_svc_find p (svc_key s)) = Some i.
Proof.
  intros S Hi. unfold peer_svc_find, peer_svc_find_prev. change (λ s, start_handle (svc s)) with svc_key. simpl.
  unfold svcs_sorted in S. apply list_elem_of_split_length in Hi as (l1&l2&El&->). rewrite El in *.
  apply sorted_app in S as (_&_&Hc).
  assert (F : Forall (λ x, svc_key x < svc_key s) l1) by (apply Forall_forall; set_solver).
  rewrite split_unique, node_after_split by (done || by intros x [= <-]).
  simpl. by rewrite Z.eqb_refl.
Qed.

(** ** Characteristics *)

(** The characteristic is linked in behind those with a smaller value handle. *)
Lemma peer_chr_add_spec c i s g l1 l2 pool :
  svcs_sorted (c_peer c) → svcs (c_peer c) !! i = Some s → chrs s = l1 ++ l2 →
  Forall (λ x, chr_key x < def_handle g) l1 → (∀ x, head l2 = Some x → def_handle g < chr_key x) →
  os_memblock_get (peer_chr_pool (c_pools c)) = Some pool →
  peer_chr_add NDEBUG c (svc_key s) g =
  Returns (0, set_peer (set_svcs (<[i := set_chrs (link_after (pred_index (length l1)) (mkPeerChr g []) (l1 ++ l2)) s]>
                                    (svcs (c_peer c))) (c_peer c))
                (set_pools (set_chr_pool pool (c_pools c)) c)).
Proof.
  intros S Hi Ec F Hh Eg. unfold peer_chr_add. rewrite (peer_svc_find_sorted _ i s S Hi). simpl. rewrite Hi. simpl.
  unfold peer_chr_find, peer_chr_find_prev. change (λ c, val_handle (chr c)) with chr_key. rewrite Ec.
  rewrite split_unique, node_after_split by (done || (intros x Hx; specialize (Hh x Hx); lia)).
  destruct (head l2) as [x|] eqn:Hx; [|by rewrite Eg].
  specialize (Hh x eq_refl). destruct (Z.eqb_spec (chr_key x) (def_handle g)); [lia|]. by rewrite Eg.
Qed.

Lemma svcs_sorted_replace p i s l :
  svcs_sorted p → svcs p !! i = Some s → svcs_sorted (set_svcs (<[i := set_chrs l s]> (svcs p)) p).
Proof.
  unfold svcs_sorted. simpl. intros S Hi. apply list_elem_of_split_length in Hi as (l1&l2&El&->).
  rewrite El in *. rewrite (insert_app_r_alt l1), Nat.sub_diag by lia. simpl.
  apply sorted_app in S as (S1&S2&Hc). apply sorted_app. apply StronglySorted_inv in S2 as [S2 F].
  split_and!; [done|by constructor|]. intros x y Hx [->|Hy]%elem_of_cons; [|set_solver].
  apply (Hc x s); set_solver.
Qed.

(** The reports of one characteristic discovery, in sequence. *)
Fixpoint chr_reports (c : ctx) (conn : Z) (gs : list ble_gatt_chr) : outcome ctx :=
  match gs with
  | [] => Returns c
  | g :: gs' => let+ r := peer_chr_disced NDEBUG start c conn 0 g in chr_reports (snd r) conn gs'
  end.

(** Reports in the order of the handles on the peer, as the procedure makes them. *)
Definition in_order (gs : list ble_gatt_chr) : Prop := StronglySorted (λ a b, val_handle a < def_handle b) gs.

Lemma chr_reports_append gs c i s l :
  svcs_sorted (c_peer c) → svcs (c_peer c) !! i = Some s → cur_svc (c_peer c) = Some (svc s) →
  chrs s = (λ g, mkPeerChr g []) <$> l → in_order (l ++ gs) →
  Z.of_nat (length gs) <= num_free (peer_chr_pool (c_pools c)) →
  ∃ c', chr_reports c (conn_handle (c_peer c)) gs = Returns c' ∧
    svcs (c_peer c') = <[i := set_chrs ((λ g, mkPeerChr g []) <$> (l ++ gs)) s]> (svcs (c_peer c)) ∧
    c_trace c' = c_trace c ∧
    num_free (peer_chr_pool (c_pools c')) = num_free (peer_chr_pool (c_pools c)) - Z.of_nat (length gs).
Proof.
  revert c s l. induction gs as [|g gs IH]; intros c s l S Hi Hcur Hl Ho Hfree.
  { exists c. split_and!; try done; [|simpl; lia]. rewrite app_nil_r, <- Hl.
    rewrite list_insert_id; [done|]. rewrite Hi. by destruct s. }
  cbn [chr_reports]. unfold peer_chr_disced at 1. rewrite Z.eqb_refl. unfold c_assert. cbn [orb].
  rewrite Hcur. destruct (os_memblock_get (peer_chr_pool (c_pools c))) as [pool|] eqn:Eg.
  2:{ apply get_none in Eg. simpl in Hfree. lia. }
  pose proof (get_some _ _ Eg) as Hp. change (start_handle (svc s)) with (svc_key s).
  assert (F : Forall (λ x, chr_key x < def_handle g) (chrs s)).
  { rewrite Hl. apply Forall_fmap, Forall_forall. intros a Ha. simpl.
    unfold in_order in Ho. apply StronglySorted_app in Ho as (Hc&_). apply (Hc a g); set_solver. }
  rewrite (peer_chr_add_spec c i s g (chrs s) [] pool S Hi) by (done || by rewrite app_nil_r).
  cbn [obind fst snd]. rewrite app_nil_r, link_after_end. unfold finish. change (0 =? 0) with true. cbn [negb fst snd].
  set (c1 := set_peer _ _). set (s1 := set_chrs (chrs s ++ [mkPeerChr g []]) s) in *.
  destruct (IH c1 s1 (l ++ [g])) as (c'&E&Hs&Ht&Hn).
  - by apply svcs_sorted_replace.
  - simpl. by rewrite list_lookup_insert_eq by (by eapply lookup_lt_Some).
  - done.
  - simpl. by rewrite Hl, fmap_app.
  - by rewrite <- app_assoc.
  - simpl in Hfree |- *. lia.
  - exists c'. split; [exact E|]. split_and!.
    + rewrite Hs. simpl. rewrite list_insert_insert_eq, <- app_assoc. done.
    + done.
    + rewrite Hn. simpl. lia.
Qed.

(** ** What the discovery keeps *)

(** The handle of the peer stays, and so does the order of its services. *)
Definition keeps (c c' : ctx) : Prop :=
  conn_handle (c_peer c') = conn_handle (c_peer c) ∧ (svcs_sorted (c_peer c) → svcs_sorted (c_peer c')).

Lemma keeps_same c c' :
  conn_handle (c_peer c') = conn_handle (c_peer c) → svcs (c_peer c') = svcs (c_peer c) → keeps c c'.
Proof. intros E1 E2. split; [done|]. unfold svcs_sorted. by rewrite E2. Qed.

Lemma keeps_trans c1 c2 c3 : keeps c1 c2 → keeps c2 c3 → keeps c1 c3.
Proof. intros [E1 S1] [E2 S2]. split; [congruence|auto]. Qed.

Lemma disc_complete_same c rc :
  conn_handle (c_peer (peer_disc_complete c rc)) = conn_handle (c_peer c) ∧
  svcs (c_peer (peer_disc_complete c rc)) = svcs (c_peer c).
Proof. unfold peer_disc_complete. simpl. by destruct (disc_cb (c_peer c)). Qed.

Lemma disc_dscs_keeps c : keeps c (peer_disc_dscs start c).
Proof.
  unfold peer_disc_dscs. destruct (next_undiscovered _ _) as [[ch e]|]; [|by apply keeps_same; apply disc_complete_same].
  unfold start_procedure. destruct (negb _); [|by apply keeps_same].
  destruct (disc_complete_same (emit (Started (ble_gattc_disc_all_dscs (conn_handle (c_peer c)) (val_handle (chr ch)) e)) c)
              (start (c_trace c) (ble_gattc_disc_all_dscs (conn_handle (c_peer c)) (val_handle (chr ch)) e))) as [E1 E2].
  by apply keeps_same.
Qed.

Lemma disc_chrs_keeps c : keeps c (peer_disc_chrs start c).
Proof.
  unfold peer_disc_chrs. destruct (list_find _ _) as [[i s]|]; [|apply disc_dscs_keeps].
  unfold start_procedure. destruct (negb _); [|by apply keeps_same].
  eapply keeps_trans; [|apply keeps_same; apply disc_complete_same]. by apply keeps_same.
Qed.

Lemma finish_keeps c rc c' : keeps c c' → keeps c (snd (finish rc c')).
Proof.
  intros K. unfold finish. simpl. destruct (negb _); [|done].
  eapply keeps_trans; [exact K|]. apply keeps_same; apply disc_complete_same.
Qed.

Lemma svc_add_keeps c g : keeps c (snd (peer_svc_add c g)).
Proof.
  split.
  - unfold peer_svc_add. destruct (peer_svc_find _ _) as [[|] ?]; [done|]. by destruct (os_memblock_get _).
  - intros S. pose proof (peer_svc_add_spec c g S) as Hs. case_bool_decide; [by rewrite Hs|].
    destruct (_ <=? _); [by rewrite Hs|]. by destruct Hs as (l1&l2&pool&_&->&_&?).
Qed.

Lemma lookup_pair {A} (l : list A) (o : option nat) i x :
  (o ≫= λ i, pair i <$> l !! i) = Some (i, x) → l !! i = Some x.
Proof. destruct o as [j|]; [|done]. simpl. destruct (l !! j) eqn:E; [|done]. by intros [= <- <-]. Qed.

Lemma chr_add_keeps c h g rc c' : peer_chr_add NDEBUG c h g = Returns (rc, c') → keeps c c'.
Proof.
  unfold peer_chr_add, c_assert. destruct (_ ≫= _) as [[i s]|] eqn:Ei.
  2:{ destruct (_ || _); [|done]. by intros [= <- <-]. }
  apply lookup_pair in Ei. destruct (peer_chr_find s _) as [[|] prev]; [by intros [= <- <-]|].
  destruct (os_memblock_get _); intros [= <- <-]; [|done]. split; [done|]. intros S. by apply svcs_sorted_replace.
Qed.

Lemma dsc_add_keeps c h g rc c' : peer_dsc_add NDEBUG c h g = Returns (rc, c') → keeps c c'.
Proof.
  unfold peer_dsc_add, c_assert. destruct (peer_svc_find_range _ _ ≫= _) as [[i s]|] eqn:Ei.
  2:{ destruct (_ || _); [|done]. by intros [= <- <-]. }
  apply lookup_pair in Ei. destruct (fst (peer_chr_find s h) ≫= _) as [[j ch]|].
  2:{ destruct (_ || _); [|done]. by intros [= <- <-]. }
  destruct (peer_dsc_find ch _) as [[|] prev]; [by intros [= <- <-]|].
  destruct (os_memblock_get _); intros [= <- <-]; [|done]. split; [done|]. intros S. by apply svcs_sorted_replace.
Qed.

Lemma svc_disced_keeps c conn st g r :
  peer_svc_disced NDEBUG start c conn st g = Returns r → keeps c (snd r).
Proof.
  unfold peer_svc_disced, c_assert. destruct (_ || _); [|done]. intros [= <-].
  destruct (st =? 0).
  - pose proof (svc_add_keeps c g) as K. destruct (peer_svc_add c g) as [rc c']. by apply finish_keeps.
  - destruct (st =? _); apply finish_keeps; [|done]. destruct (_ <? _); [apply disc_chrs_keeps|done].
Qed.

Lemma chr_disced_keeps c conn st g r :
  peer_chr_disced NDEBUG start c conn st g = Returns r → keeps c (snd r).
Proof.
  unfold peer_chr_disced, c_assert. destruct ((_ =? conn) || _); [|done]. destruct (st =? 0).
  - destruct (cur_svc _) as [s|]; [|done]. destruct (peer_chr_add _ _ _ _) as [[rc c']|] eqn:E; [|done].
    intros [= <-]. apply finish_keeps. by eapply chr_add_keeps.
  - destruct (st =? _); intros [= <-]; apply finish_keeps; [|done].
    destruct (_ <? _); [apply disc_chrs_keeps|done].
Qed.

Lemma dsc_disced_keeps c conn st h g r :
  peer_dsc_disced NDEBUG start c conn st h g = Returns r → keeps c (snd r).
Proof.
  unfold peer_dsc_disced, c_assert. destruct ((_ =? conn) || _); [|done]. destruct (st =? 0).
  - destruct (peer_dsc_add _ _ _ _) as [[rc c']|] eqn:E; [|done].
    intros [= <-]. apply finish_keeps. by eapply dsc_add_keeps.
  - destruct (st =? _); intros [= <-]; apply finish_keeps; [|done].
    destruct (_ <? _); [apply disc_dscs_keeps|done].
Qed.

(** ** Reachable states *)

Inductive step : gatt_state → gatt_state → Prop :=
  | step_add g conn : step g (snd (peer_add g conn))
  | step_delete g conn : step g (snd (peer_delete g conn))
  | step_disc_all g conn cb : step g (snd (peer_disc_all start g conn cb))
  | step_svc g i conn st s r :
      on_peer g i (λ c, peer_svc_disced NDEBUG start c conn st s) = Returns r → step g (snd r)
  | step_chr g i conn st ch r :
      on_peer g i (λ c, peer_chr_disced NDEBUG start c conn st ch) = Returns r → step g (snd r)
  | step_dsc g i conn st h d r :
      on_peer g i (λ c, peer_dsc_disced NDEBUG start c conn st h d) = Returns r → step g (snd r).

Definition well_formed (g : gatt_state) : Prop :=
  NoDup (conn_handle <$> peers g) ∧ Forall svcs_sorted (peers g).

Lemma replace_peer_wf (l : list peer) i p p' :
  l !! i = Some p → conn_handle p' = conn_handle p → svcs_sorted p' →
  NoDup (conn_handle <$> l) → Forall svcs_sorted l →
  NoDup (conn_handle <$> <[i := p']> l) ∧ Forall svcs_sorted (<[i := p']> l).
Proof.
  intros Hi Ec S ND F. split; [|by apply Forall_insert].
  rewrite list_fmap_insert, Ec, list_insert_id; [done|]. by rewrite list_lookup_fmap, Hi.
Qed.

Lemma on_peer_wf g i f r :
  (∀ c x, f c = Returns x → keeps c (snd x)) → well_formed g → on_peer g i f = Returns r → well_formed (snd r).
Proof.
  intros Hf [ND F]. unfold on_peer. destruct (peers g !! i) as [p|] eqn:Hi; [|done].
  destruct (f _) as [x|] eqn:E; [|done]. intros [= <-]. destruct (Hf _ _ E) as [Ec Hs].
  eapply replace_peer_wf; try done. apply Hs. by eapply Forall_lookup_1.
Qed.

Lemma gatt_step_wf g g' : step g g' → well_formed g → well_formed g'.
Proof.
  intros St W. destruct St.
  - unfold peer_add, peer_find. destruct (list_find _ _) as [?|] eqn:E; [done|].
    destruct (os_memblock_get _); [|done]. destruct W as [ND F]. split; simpl.
    + apply NoDup_cons. split; [|done]. intros (p&->&Hp)%list_elem_of_fmap.
      apply list_find_None in E. rewrite Forall_forall in E. by apply (E p Hp).
    + constructor; [constructor|done].
  - unfold peer_delete, peer_find. destruct (list_find _ _) as [[i p]|] eqn:E; [|done].
    destruct (os_memblock_put _). destruct W as [ND F]. split; simpl.
    + rewrite list_fmap_delete. by eapply sublist_NoDup; [|apply sublist_delete].
    + by apply Forall_delete.
  - unfold peer_disc_all, peer_find. destruct (list_find _ _) as [[i p]|] eqn:E; [|done].
    apply list_find_Some in E as (Hi&_&_). destruct W as [ND F]. simpl.
    eapply replace_peer_wf; try done. constructor.
  - eapply on_peer_wf; [|exact W|eassumption]. intros c x. apply svc_disced_keeps.
  - eapply on_peer_wf; [|exact W|eassumption]. intros c x. apply chr_disced_keeps.
  - eapply on_peer_wf; [|exact W|eassumption]. intros c x. apply dsc_disced_keeps.
Qed.

(** ** Giving the blocks back *)

(** Equality of tuples of numbers, by components. *)
Ltac pair_lia := repeat match goal with |- (_, _) = (_, _) => f_equal end; lia.

Definition held_chrs (l : list peer_svc) : nat := sum_list (length ∘ chrs <$> l).
Definition held_dscs (l : list peer_svc) : nat :=
  sum_list ((λ s, sum_list (length ∘ dscs <$> chrs s)) <$> l).

Lemma put_n_free n p : num_free (put_n n p) = num_free p + Z.of_nat n.
Proof.
  revert p. induction n as [|n IH]; intros p; simpl; [lia|]. rewrite IH. destruct (put_ok p) as [_ ->]. lia.
Qed.

(** The blocks in the four pools. *)
Definition free_blocks (ps : pools) : Z * Z * Z * Z :=
  (num_free (peer_pool ps), num_free (peer_svc_pool ps), num_free (peer_chr_pool ps), num_free (peer_dsc_pool ps)).

Definition add_blocks (b : Z * Z * Z * Z) (np ns nc nd : Z) : Z * Z * Z * Z :=
  let '(p, s, c, d) := b in (p + np, s + ns, c + nc, d + nd).

Lemma chrs_delete_free l ps :
  free_blocks (foldl (λ ps c, peer_chr_delete c ps) ps l) =
  add_blocks (free_blocks ps) 0 0 (Z.of_nat (length l)) (Z.of_nat (sum_list (length ∘ dscs <$> l))).
Proof.
  revert ps. induction l as [|c l IH]; intros ps; [unfold free_blocks, add_blocks; simpl; pair_lia|].
  change (sum_list (length ∘ dscs <$> c :: l)) with (length (dscs c) + sum_list (length ∘ dscs <$> l))%nat.
  cbn [foldl length]. rewrite IH. unfold free_blocks, add_blocks.
  cbn [peer_pool peer_svc_pool peer_chr_pool peer_dsc_pool peer_chr_delete set_chr_pool set_dsc_pool]. destruct (put_ok (peer_chr_pool ps)) as [_ ->].
  rewrite put_n_free. pair_lia.
Qed.

Lemma delete_svcs_free l ps :
  free_blocks (delete_svcs l ps) =
  add_blocks (free_blocks ps) 0 (Z.of_nat (length l)) (Z.of_nat (held_chrs l)) (Z.of_nat (held_dscs l)).
Proof.
  revert ps. unfold delete_svcs. induction l as [|s l IH]; intros ps.
  { unfold free_blocks, add_blocks, held_chrs, held_dscs. simpl. pair_lia. }
  change (held_chrs (s :: l)) with (length (chrs s) + held_chrs l)%nat.
  change (held_dscs (s :: l)) with (sum_list (length ∘ dscs <$> chrs s) + held_dscs l)%nat.
  cbn [foldl length]. rewrite IH. pose proof (chrs_delete_free (chrs s) ps) as E. unfold peer_svc_delete.
  set (ps' := foldl _ _ _) in *. unfold free_blocks, add_blocks in *.
  cbn [peer_pool peer_svc_pool peer_chr_pool peer_dsc_pool set_svc_pool]. injection E as E1 E2 E3 E4.
  destruct (put_ok (peer_svc_pool ps')) as [_ ->]. rewrite E1, E2, E3, E4. pair_lia.
Qed.

(** ** Properties *)

(** peer_svc_add keeps the services of a peer in strictly increasing order of
    their start handle: a service already known changes nothing, without a free
    block BLE_HS_ENOMEM is returned and nothing changes, and otherwise the service is
    added, in its place and with no characteristics, and one block is taken. *)
Theorem peer_svc_add_inserts c g :
  svcs_sorted (c_peer c) →
  if bool_decide (Exists (λ s, svc_key s = start_handle g) (svcs (c_peer c))) then peer_svc_add c g = (0, c)
  else if num_free (peer_svc_pool (c_pools c)) <=? 0 then peer_svc_add c g = (BLE_HS_ENOMEM, c)
  else ∃ c', peer_svc_add c g = (0, c') ∧ svcs_sorted (c_peer c') ∧
    svcs (c_peer c') ≡ₚ mkPeerSvc g [] :: svcs (c_peer c) ∧
    num_free (peer_svc_pool (c_pools c')) = num_free (peer_svc_pool (c_pools c)) - 1.
Proof.
  intros S. pose proof (peer_svc_add_spec c g S) as Hs. case_bool_decide; [done|]. destruct (_ <=? _); [done|].
  destruct Hs as (l1&l2&pool&El&->&Hp&Hsrt). eexists. split_and!; [done|exact Hsrt| |exact Hp].
  simpl. rewrite El. symmetry. apply Permutation_middle.
Qed.

(** When the characteristics of the current service are reported in the order of
    their handles, and the pool has blocks for them, the handler links them into the
    service in that order, none lost. *)
Theorem chr_reports_collected gs c i s :
  svcs_sorted (c_peer c) → svcs (c_peer c) !! i = Some s → cur_svc (c_peer c) = Some (svc s) → chrs s = [] →
  in_order gs → Z.of_nat (length gs) <= num_free (peer_chr_pool (c_pools c)) →
  ∃ c', chr_reports c (conn_handle (c_peer c)) gs = Returns c' ∧
    svcs (c_peer c') = <[i := set_chrs ((λ g, mkPeerChr g []) <$> gs) s]> (svcs (c_peer c)) ∧
    c_trace c' = c_trace c ∧
    num_free (peer_chr_pool (c_pools c')) = num_free (peer_chr_pool (c_pools c)) - Z.of_nat (length gs).
Proof. intros. by apply (chr_reports_append gs c i s []). Qed.

(** A characteristic that is reported again, or out of order, behind at least one
    other of its service unlinks all characteristics that follow its place: they are
    lost from the service and their blocks are never given back. *)
Theorem chr_add_unlinks c i s g l1 l2 pool :
  svcs_sorted (c_peer c) → svcs (c_peer c) !! i = Some s → chrs s = l1 ++ l2 → l1 ≠ [] →
  Forall (λ x, chr_key x < def_handle g) l1 → (∀ x, head l2 = Some x → def_handle g < chr_key x) →
  os_memblock_get (peer_chr_pool (c_pools c)) = Some pool →
  ∃ c', peer_chr_add NDEBUG c (svc_key s) g = Returns (0, c') ∧
    svcs (c_peer c') = <[i := set_chrs (l1 ++ [mkPeerChr g []]) s]> (svcs (c_peer c)) ∧
    num_free (peer_chr_pool (c_pools c')) = num_free (peer_chr_pool (c_pools c)) - 1.
Proof.
  intros S Hi Ec Hn F Hh Eg. rewrite (peer_chr_add_spec c i s g l1 l2 pool S Hi Ec F Hh Eg).
  rewrite link_after_split by done. eexists. split; [done|]. split; [done|]. by apply get_some.
Qed.

(** peer_delete of a connected peer removes it, returns 0 and gives every block
    that its lists hold back to the pool it came from. *)
Theorem peer_delete_frees g conn i p :
  peer_find g conn = Some (i, p) →
  ∃ g', peer_delete g conn = (0, g') ∧ peers g' = delete i (peers g) ∧
    free_blocks (g_pools g') =
    add_blocks (free_blocks (g_pools g)) 1 (Z.of_nat (length (svcs p))) (Z.of_nat (held_chrs (svcs p)))
      (Z.of_nat (held_dscs (svcs p))).
Proof.
  intros Hf. unfold peer_delete. rewrite Hf. pose proof (delete_svcs_free (svcs p) (g_pools g)) as E.
  set (ps := delete_svcs _ _) in *. destruct (put_ok (peer_pool ps)) as [E1 E2].
  destruct (os_memblock_put (peer_pool ps)) as [rc pool]. simpl in E1, E2. subst rc.
  eexists. split; [done|]. split; [done|]. unfold free_blocks, add_blocks in *. simpl. rewrite E2.
  injection E as -> -> -> ->. pair_lia.
Qed.

(** C38: In every state reachable from an empty table by connections, disconnections,
    starts of discovery and callbacks of the stack, in any order and with any
    arguments, no two peers have the same connection handle and the services of each
    peer are in strictly increasing order of their start handle. *)
Theorem peers_well_formed g0 g : peers g0 = [] → rtc step g0 g → well_formed g.
Proof.
  intros H0' R. assert (W : well_formed g0) by (split; rewrite H0'; constructor).
  clear H0'. induction R as [|g1 g2 g3 St _ IH]; [done|]. apply IH. by eapply gatt_step_wf.
Qed.

(** The callbacks at the end of [n] characteristic discoveries without any report. *)
Fixpoint chr_done (n : nat) (c : ctx) (g : ble_gatt_chr) : outcome ctx :=
  match n with
  | O => Returns c
  | S n' => let+ r := peer_chr_disced NDEBUG start c (conn_handle (c_peer c)) BLE_HS_EDONE g in chr_done n' (snd r) g
  end.

(** When the discovery of the characteristics of a service reports none, the
    module starts the same discovery again, and again after each end without a
    report: descriptors are never discovered and the user's callback is never
    called. *)
Theorem empty_service_repeats n c g i s :
  BLE_HS_EDONE ≠ 0 → (∀ tr r, start tr r = 0) → 0 < disc_prev_chr_val (c_peer c) →
  list_find (λ s, peer_svc_is_empty s = false ∧ chrs s = []) (svcs (c_peer c)) = Some (i, s) →
  ∃ c', chr_done n c g = Returns c' ∧ svcs (c_peer c') = svcs (c_peer c) ∧
    c_trace c' = c_trace c ++ replicate n (Started (ble_gattc_disc_all_chrs (conn_handle (c_peer c))
                                              (start_handle (svc s)) (end_handle (svc s)))).
Proof.
  intros He Hst Hp Hf. revert c Hp Hf. induction n as [|n IH]; intros c Hp Hf.
  { exists c. by rewrite app_nil_r. }
  cbn [chr_done]. unfold peer_chr_disced at 1. rewrite Z.eqb_refl. unfold c_assert. cbn [orb].
  destruct (Z.eqb_spec BLE_HS_EDONE 0) as [|_]; [done|]. rewrite Z.eqb_refl.
  rewrite (proj2 (Z.ltb_lt _ _) Hp). unfold peer_disc_chrs. rewrite Hf. unfold start_procedure. rewrite Hst.
  cbn [obind finish snd negb Z.eqb]. set (c1 := emit _ _).
  destruct (IH c1) as (c'&E&Hs&Ht); [done|done|]. exists c'. split_and!; [done|done|].
  rewrite Ht. simpl. by rewrite <- app_assoc.
Qed.
End Spec.

(** ** Witnesses

    Pools are counters, UUIDs are numbers, and every procedure starts. *)

Definition demo_codes : BleCodes := {|
  BLE_HS_EDONE := 14; BLE_HS_EUNKNOWN := 17; BLE_HS_ENOMEM := 6;
  BLE_HS_ENOTCONN := 7; BLE_HS_EALREADY := 2; BLE_HS_EOS := 11 |}.
Definition demo_uuid : BleUuid := {| ble_uuid_t := Z; ble_uuid_cmp := Z.sub |}.
Definition demo_pool : OsMempool := {|
  os_mempool := Z; os_mempool_init n := (0, n);
  os_memblock_get n := if n <=? 0 then None else Some (n - 1);
  os_memblock_put n := (0, n + 1) |}.

#[local] Existing Instance demo_codes.
#[local] Existing Instance demo_uuid.
#[local] Existing Instance demo_pool.

#[local] Instance demo_pool_laws : MempoolLaws.
Proof.
  refine {| num_free := λ p : os_mempool, p |}; simpl.
  - intros p p'. zcase; [done|]. by intros [= <-].
  - intros p. zcase; split; (done || lia).
  - done.
Defined.

Definition always_starts (tr : list event) (r : request) : Z := 0.

Definition svc_at (a b : Z) : ble_gatt_svc := mkSvc a b 0.
Definition chr_at (d : Z) : ble_gatt_chr := mkChr d (d + 1) 0.

Definition demo_ctx (l : list peer_svc) : ctx :=
  mkCtx (mkPeer 5 l 1 (Some (svc_at 1 9)) true) (mkPools 1 4 4 4) [].

Lemma one_sorted s : svcs_sorted (c_peer (demo_ctx [s])).
Proof. repeat constructor. Qed.

Lemma peer_svc_add_inserts_witness :
  ∃ c', peer_svc_add (demo_ctx [mkPeerSvc (svc_at 10 19) []]) (svc_at 1 9) = (0, c') ∧ svcs_sorted (c_peer c') ∧
    svcs (c_peer c') ≡ₚ [mkPeerSvc (svc_at 1 9) []; mkPeerSvc (svc_at 10 19) []] ∧
    num_free (peer_svc_pool (c_pools c')) = 3.
Proof.
  assert (W := peer_svc_add_inserts (demo_ctx [mkPeerSvc (svc_at 10 19) []]) (svc_at 1 9) (one_sorted _)).
  rewrite bool_decide_eq_false_2 in W; [exact W|]. by intros [|?%Exists_nil]%Exists_cons.
Defined.

Lemma chr_reports_collected_witness :
  ∃ c', chr_reports false always_starts (demo_ctx [mkPeerSvc (svc_at 1 9) []]) 5 [chr_at 2; chr_at 4] = Returns c' ∧
    svcs (c_peer c') = [mkPeerSvc (svc_at 1 9) [mkPeerChr (chr_at 2) []; mkPeerChr (chr_at 4) []]] ∧
    c_trace c' = [] ∧ num_free (peer_chr_pool (c_pools c')) = 2.
Proof.
  refine (chr_reports_collected false always_starts [chr_at 2; chr_at 4] (demo_ctx [mkPeerSvc (svc_at 1 9) []]) 0
           (mkPeerSvc (svc_at 1 9) []) _ _ _ _ _ _); try done.
  - apply one_sorted.
  - repeat constructor.
Defined.

Lemma chr_add_unlinks_witness :
  ∃ c', peer_chr_add false
      (demo_ctx [mkPeerSvc (svc_at 1 9) [mkPeerChr (chr_at 2) []; mkPeerChr (chr_at 4) []; mkPeerChr (chr_at 6) []]])
      1 (chr_at 4) = Returns (0, c') ∧
    svcs (c_peer c') = [mkPeerSvc (svc_at 1 9) [mkPeerChr (chr_at 2) []; mkPeerChr (chr_at 4) []]] ∧
    num_free (peer_chr_pool (c_pools c')) = 3.
Proof.
  refine (chr_add_unlinks false
    (demo_ctx [mkPeerSvc (svc_at 1 9) [mkPeerChr (chr_at 2) []; mkPeerChr (chr_at 4) []; mkPeerChr (chr_at 6) []]])
    0 (mkPeerSvc (svc_at 1 9) [mkPeerChr (chr_at 2) []; mkPeerChr (chr_at 4) []; mkPeerChr (chr_at 6) []]) (chr_at 4)
    [mkPeerChr (chr_at 2) []] [mkPeerChr (chr_at 4) []; mkPeerChr (chr_at 6) []] 3 _ _ _ _ _ _ _); try done.
  - apply one_sorted.
  - by apply Forall_singleton.
  - intros x [= <-]. done.
Defined.

Definition demo_gatt : gatt_state :=
  mkGatt [mkPeer 5 [mkPeerSvc (svc_at 1 9) [mkPeerChr (chr_at 2) [mkPeerDsc (mkDsc 4 0)]]] 0 None false]
    (mkPools 0 0 0 0) [] [].

Lemma peer_delete_frees_witness :
  ∃ g', peer_delete demo_gatt 5 = (0, g') ∧ peers g' = [] ∧ free_blocks (g_pools g') = (1, 1, 1, 1).
Proof.
  exact (peer_delete_frees demo_gatt 5 0 (mkPeer 5 [mkPeerSvc (svc_at 1 9)
    [mkPeerChr (chr_at 2) [mkPeerDsc (mkDsc 4 0)]]] 0 None false) eq_refl).
Defined.

Definition no_peers : gatt_state := mkGatt [] (mkPools 1 0 0 0) [] [].

Lemma peers_well_formed_witness :
  well_formed (snd (peer_add no_peers 5)).
Proof.
  apply (peers_well_formed false always_starts no_peers); [done|].
  apply rtc_once. constructor.
Defined.

Lemma empty_service_repeats_witness :
  ∃ c', chr_done false always_starts 3 (demo_ctx [mkPeerSvc (svc_at 1 9) []]) (chr_at 2) = Returns c' ∧
    svcs (c_peer c') = [mkPeerSvc (svc_at 1 9) []] ∧
    c_trace c' = replicate 3 (Started (ble_gattc_disc_all_chrs 5 1 9)).
Proof.
  by refine (empty_service_repeats false always_starts 3 (demo_ctx [mkPeerSvc (svc_at 1 9) []]) (chr_at 2) 0
           (mkPeerSvc (svc_at 1 9) []) _ _ _ _).
Defined.
