(* ===== verification/Btp.v ===== *)
(** * Bluetooth transport protocol: the engine

    [BtpEngine] (src/src/ble/BtpEngine.cpp and .h) cuts messages into fragments that fit in a
    GATT characteristic, puts the fragments received together again, and keeps the sequence
    numbers of both directions with their acknowledgements.

    The fields for receiving and for sending are two records. [mAppState] is only printed
    and left out. Handles of packet buffers are chains as in [PacketBuffer], the null handle
    the empty one; an access through a null handle crashes. A fragment that is sent is what
    the head of [mTxBuf] holds after [HandleCharacteristicSend]. *)

From S2P Require Import Prelude.
From S2P Require Import COutcome.
From S2P Require Import ChipError.
From S2P Require Import BufferReader.
From S2P Require Import PacketBuffer.

(** Build arguments: the size of a new reassembly buffer with its reserve, and the headroom
    that the layers below ask for. *)
Class BtpConfig := {
  kMaxSize : Z;
  kDefaultHeaderReserve : Z;
  CHIP_CONFIG_BLE_PKT_RESERVED_SIZE : Z
}.

Definition kTransferProtocolHeaderFlagsSize : Z := 1.
Definition kTransferProtocolSequenceNumSize : Z := 1.
Definition kTransferProtocolAckSize : Z := 1.
Definition kTransferProtocolMsgLenSize : Z := 2.
Definition kTransferProtocolMaxHeaderSize : Z :=
  kTransferProtocolHeaderFlagsSize + kTransferProtocolAckSize + kTransferProtocolSequenceNumSize + kTransferProtocolMsgLenSize.
Definition kTransferProtocolMidFragmentMaxHeaderSize : Z :=
  kTransferProtocolHeaderFlagsSize + kTransferProtocolAckSize + kTransferProtocolSequenceNumSize.
Definition kTransferProtocolStandaloneAckHeaderSize : Z :=
  kTransferProtocolHeaderFlagsSize + kTransferProtocolAckSize + kTransferProtocolSequenceNumSize.

Definition sDefaultFragmentSize : Z := 20.
Definition sMaxFragmentSize : Z := 244.

Inductive State_t := kState_Idle | kState_InProgress | kState_Complete | kState_Error.

#[export] Instance State_t_eq_dec : EqDecision State_t.
Proof. solve_decision. Defined.

(** [HeaderFlags]: the masks. *)
Definition kStartMessage : Z := 0x01.
Definition kContinueMessage : Z := 0x02.
Definition kEndMessage : Z := 0x04.
Definition kFragmentAck : Z := 0x08.

(** [BitFlags::Has] and [Set]. *)
Definition Has (flags flag : Z) : bool := negb (Z.land flags flag =? 0).
Definition SetFlag (flags flag : Z) : Z := Z.lor flags flag.

Record BtpRx := mkRx {
  mRxState : State_t;
  mRxLength : Z;
  mRxBuf : list pbuf;
  mRxNextSeqNum : Z;
  mRxNewestUnackedSeqNum : Z;
  mRxOldestUnackedSeqNum : Z;
  mRxFragmentSize : Z;
  mRxCharCount : Z;
  mRxPacketCount : Z
}.

Record BtpTx := mkTx {
  mTxState : State_t;
  mTxLength : Z;
  mTxBuf : list pbuf;
  mTxNextSeqNum : Z;
  mTxNewestUnackedSeqNum : Z;
  mTxOldestUnackedSeqNum : Z;
  mExpectingAck : bool;
  mTxFragmentSize : Z;
  mTxCharCount : Z;
  mTxPacketCount : Z
}.

Definition set_mRxState (v : State_t) r := mkRx v (mRxLength r) (mRxBuf r) (mRxNextSeqNum r) (mRxNewestUnackedSeqNum r) (mRxOldestUnackedSeqNum r) (mRxFragmentSize r) (mRxCharCount r) (mRxPacketCount r).
Definition set_mRxLength (v : Z) r := mkRx (mRxState r) v (mRxBuf r) (mRxNextSeqNum r) (mRxNewestUnackedSeqNum r) (mRxOldestUnackedSeqNum r) (mRxFragmentSize r) (mRxCharCount r) (mRxPacketCount r).
Definition set_mRxBuf (v : list pbuf) r := mkRx (mRxState r) (mRxLength r) v (mRxNextSeqNum r) (mRxNewestUnackedSeqNum r) (mRxOldestUnackedSeqNum r) (mRxFragmentSize r) (mRxCharCount r) (mRxPacketCount r).
Definition set_mRxNextSeqNum (v : Z) r := mkRx (mRxState r) (mRxLength r) (mRxBuf r) v (mRxNewestUnackedSeqNum r) (mRxOldestUnackedSeqNum r) (mRxFragmentSize r) (mRxCharCount r) (mRxPacketCount r).
Definition set_mRxNewestUnackedSeqNum (v : Z) r := mkRx (mRxState r) (mRxLength r) (mRxBuf r) (mRxNextSeqNum r) v (mRxOldestUnackedSeqNum r) (mRxFragmentSize r) (mRxCharCount r) (mRxPacketCount r).
Definition set_mRxOldestUnackedSeqNum (v : Z) r := mkRx (mRxState r) (mRxLength r) (mRxBuf r) (mRxNextSeqNum r) (mRxNewestUnackedSeqNum r) v (mRxFragmentSize r) (mRxCharCount r) (mRxPacketCount r).
Definition set_mRxFragmentSize (v : Z) r := mkRx (mRxState r) (mRxLength r) (mRxBuf r) (mRxNextSeqNum r) (mRxNewestUnackedSeqNum r) (mRxOldestUnackedSeqNum r) v (mRxCharCount r) (mRxPacketCount r).
Definition set_mRxCharCount (v : Z) r := mkRx (mRxState r) (mRxLength r) (mRxBuf r) (mRxNextSeqNum r) (mRxNewestUnackedSeqNum r) (mRxOldestUnackedSeqNum r) (mRxFragmentSize r) v (mRxPacketCount r).
Definition set_mRxPacketCount (v : Z) r := mkRx (mRxState r) (mRxLength r) (mRxBuf r) (mRxNextSeqNum r) (mRxNewestUnackedSeqNum r) (mRxOldestUnackedSeqNum r) (mRxFragmentSize r) (mRxCharCount r) v.

Definition set_mTxState (v : State_t) t := mkTx v (mTxLength t) (mTxBuf t) (mTxNextSeqNum t) (mTxNewestUnackedSeqNum t) (mTxOldestUnackedSeqNum t) (mExpectingAck t) (mTxFragmentSize t) (mTxCharCount t) (mTxPacketCount t).
Definition set_mTxLength (v : Z) t := mkTx (mTxState t) v (mTxBuf t) (mTxNextSeqNum t) (mTxNewestUnackedSeqNum t) (mTxOldestUnackedSeqNum t) (mExpectingAck t) (mTxFragmentSize t) (mTxCharCount t) (mTxPacketCount t).
Definition set_mTxBuf (v : list pbuf) t := mkTx (mTxState t) (mTxLength t) v (mTxNextSeqNum t) (mTxNewestUnackedSeqNum t) (mTxOldestUnackedSeqNum t) (mExpectingAck t) (mTxFragmentSize t) (mTxCharCount t) (mTxPacketCount t).
Definition set_mTxNextSeqNum (v : Z) t := mkTx (mTxState t) (mTxLength t) (mTxBuf t) v (mTxNewestUnackedSeqNum t) (mTxOldestUnackedSeqNum t) (mExpectingAck t) (mTxFragmentSize t) (mTxCharCount t) (mTxPacketCount t).
Definition set_mTxNewestUnackedSeqNum (v : Z) t := mkTx (mTxState t) (mTxLength t) (mTxBuf t) (mTxNextSeqNum t) v (mTxOldestUnackedSeqNum t) (mExpectingAck t) (mTxFragmentSize t) (mTxCharCount t) (mTxPacketCount t).
Definition set_mTxOldestUnackedSeqNum (v : Z) t := mkTx (mTxState t) (mTxLength t) (mTxBuf t) (mTxNextSeqNum t) (mTxNewestUnackedSeqNum t) v (mExpectingAck t) (mTxFragmentSize t) (mTxCharCount t) (mTxPacketCount t).
Definition set_mExpectingAck (v : bool) t := mkTx (mTxState t) (mTxLength t) (mTxBuf t) (mTxNextSeqNum t) (mTxNewestUnackedSeqNum t) (mTxOldestUnackedSeqNum t) v (mTxFragmentSize t) (mTxCharCount t) (mTxPacketCount t).
Definition set_mTxFragmentSize (v : Z) t := mkTx (mTxState t) (mTxLength t) (mTxBuf t) (mTxNextSeqNum t) (mTxNewestUnackedSeqNum t) (mTxOldestUnackedSeqNum t) (mExpectingAck t) v (mTxCharCount t) (mTxPacketCount t).
Definition set_mTxCharCount (v : Z) t := mkTx (mTxState t) (mTxLength t) (mTxBuf t) (mTxNextSeqNum t) (mTxNewestUnackedSeqNum t) (mTxOldestUnackedSeqNum t) (mExpectingAck t) (mTxFragmentSize t) v (mTxPacketCount t).
Definition set_mTxPacketCount (v : Z) t := mkTx (mTxState t) (mTxLength t) (mTxBuf t) (mTxNextSeqNum t) (mTxNewestUnackedSeqNum t) (mTxOldestUnackedSeqNum t) (mExpectingAck t) (mTxFragmentSize t) (mTxCharCount t) v.

Record BtpEngine := mkBtp {
  rx : BtpRx;
  tx : BtpTx
}.

Definition on_rx (f : BtpRx → BtpRx) (e : BtpEngine) : BtpEngine := mkBtp (f (rx e)) (tx e).
Definition on_tx (f : BtpTx → BtpTx) (e : BtpEngine) : BtpEngine := mkBtp (rx e) (f (tx e)).

(** ** Sequence numbers *)

Definition IncSeqNum (a_seq_num : Z) : Z := u8 (Z.land 0xff (a_seq_num + 1)).

Definition DidReceiveData (rx_flags : Z) : bool :=
  Has rx_flags kStartMessage || Has rx_flags kContinueMessage || Has rx_flags kEndMessage.

Definition GetAndIncrementNextTxSeqNum (t : BtpTx) : Z * BtpTx :=
  let ret := mTxNextSeqNum t in
  let t := if mExpectingAck t then t
           else set_mTxOldestUnackedSeqNum (mTxNextSeqNum t) (set_mExpectingAck true t) in
  let t := set_mTxNewestUnackedSeqNum (mTxNextSeqNum t) t in
  (ret, set_mTxNextSeqNum (IncSeqNum (mTxNextSeqNum t)) t).

Definition GetAndRecordRxAckSeqNum (r : BtpRx) : Z * BtpRx :=
  let ret := mRxNewestUnackedSeqNum r in
  let r := set_mRxNewestUnackedSeqNum (mRxNextSeqNum r) r in
  (ret, set_mRxOldestUnackedSeqNum (mRxNextSeqNum r) r).

Definition HasUnackedData (r : BtpRx) : bool := negb (mRxOldestUnackedSeqNum r =? mRxNextSeqNum r).

Definition IsValidAck (ack_num : Z) (t : BtpTx) : bool :=
  if negb (mExpectingAck t) then false
  else if mTxOldestUnackedSeqNum t <=? mTxNewestUnackedSeqNum t
  then (ack_num <=? mTxNewestUnackedSeqNum t) && (mTxOldestUnackedSeqNum t <=? ack_num)
  else (ack_num <=? mTxNewestUnackedSeqNum t) || (mTxOldestUnackedSeqNum t <=? ack_num).

Definition HandleAckReceived (ack_num : Z) (t : BtpTx) : chip_error * BtpTx :=
  if negb (IsValidAck ack_num t) then (BLE_ERROR_INVALID_ACK, t)
  else if mTxNewestUnackedSeqNum t =? ack_num
  then (CHIP_NO_ERROR, set_mExpectingAck false (set_mTxOldestUnackedSeqNum ack_num t))
  else (CHIP_NO_ERROR, set_mTxOldestUnackedSeqNum (IncSeqNum ack_num) t).

Section Engine.
Context `{PbufConfig} `{BtpConfig}.

(** ** Initialisation *)

Definition Init (expect_first_ack : bool) (e : BtpEngine) : outcome BtpEngine :=
  let+ _ := Free (mRxBuf (rx e)) in
  let+ _ := Free (mTxBuf (tx e)) in
  Returns (mkBtp
    (mkRx kState_Idle (mRxLength (rx e)) [] (if expect_first_ack then 0 else 1) 0 0 sDefaultFragmentSize 0 0)
    (mkTx kState_Idle (mTxLength (tx e)) [] (if expect_first_ack then 1 else 0) 0 0 expect_first_ack
       sDefaultFragmentSize 0 0)).

Definition SetTxFragmentSize (size : Z) : BtpEngine → BtpEngine := on_tx (set_mTxFragmentSize size).
Definition SetRxFragmentSize (size : Z) : BtpEngine → BtpEngine := on_rx (set_mRxFragmentSize size).

(** ** Receiving *)

(** The state of the engine, what is left in the handle [data], and the values of
    [receivedAck] and [didReceiveAck]. *)
Record rx_result := mkRxResult {
  res_err : chip_error;
  res_engine : BtpEngine;
  res_data : list pbuf;
  res_ack : Z;
  res_did : bool
}.

(** The label [exit]. *)
Definition rx_exit (err : chip_error) (e : BtpEngine) (data : list pbuf) (receivedAck : Z) (didReceiveAck : bool)
    : outcome rx_result :=
  if decide (err = CHIP_NO_ERROR) then Returns (mkRxResult err e data receivedAck didReceiveAck)
  else
    let e := on_rx (set_mRxState kState_Error) e in
    match data with
    | [] => Returns (mkRxResult err e [] receivedAck didReceiveAck)
    | _ =>
        match mRxBuf (rx e) with
        | [] => Returns (mkRxResult err (on_rx (set_mRxBuf data) e) [] receivedAck didReceiveAck)
        | buf =>
            let+ buf' := AddToEnd buf data in
            Returns (mkRxResult err (on_rx (set_mRxBuf buf') e) [] receivedAck didReceiveAck)
        end
    end.

(** The acknowledgement, if there is one. *)
Definition rx_ack (didReceiveAck : bool) (e : BtpEngine) (reader : Reader) (receivedAck : Z)
    : chip_error * BtpEngine * Reader * Z :=
  if didReceiveAck then
    match Reader_Read8 reader with
    | (None, reader) => (mStatus reader, e, reader, receivedAck)
    | (Some ack, reader) =>
        let '(err, t) := HandleAckReceived ack (tx e) in (err, mkBtp (rx e) t, reader, ack)
    end
  else (CHIP_NO_ERROR, e, reader, receivedAck).

(** The fragment is put behind what is in the reassembly buffer. *)
Definition rx_append (e : BtpEngine) (data : list pbuf) : outcome (chip_error * BtpEngine) :=
  match mRxBuf (rx e) with
  | [] => Crashes OutOfBounds
  | buf =>
      let+ buf := AddToEnd buf data in
      match buf with
      | [] => Crashes OutOfBounds
      | b :: rest =>
          let+ buf := CompactHead b rest in
          let e := on_rx (set_mRxBuf buf) e in
          Returns (if HasChainedBuffer (drop 1 buf) then CHIP_ERROR_INBOUND_MESSAGE_TOO_BIG else CHIP_NO_ERROR, e)
      end
  end.

(** The last fragment: padding is cut off and the length is compared. *)
Definition rx_end (rx_flags : Z) (e : BtpEngine) : outcome (chip_error * BtpEngine) :=
  if Has rx_flags kEndMessage then
    match mRxBuf (rx e) with
    | [] => Crashes OutOfBounds
    | b :: _ =>
        if kUINT16_MAX <? DataLength b then Returns (CHIP_ERROR_MESSAGE_TOO_LONG, e)
        else
          let padding := u16 (DataLength b) - mRxLength (rx e) in
          let buf := if 0 <? padding then (SetDataLength (mRxLength (rx e)) 0 (mRxBuf (rx e))).1 else mRxBuf (rx e) in
          let e := on_rx (set_mRxBuf buf) e in
          match buf with
          | [] => Crashes OutOfBounds
          | b :: _ =>
              if negb (DataLength b =? mRxLength (rx e)) then Returns (BLE_ERROR_REASSEMBLER_MISSING_DATA, e)
              else Returns (CHIP_NO_ERROR,
                on_rx (λ r, set_mRxPacketCount (u16 (mRxPacketCount r + 1)) (set_mRxState kState_Complete r)) e)
          end
    end
  else Returns (CHIP_NO_ERROR, e).

Section Alloc.
Context (MemoryAlloc : Z → option (list Z)).

(** From the fragment being appended to the end of the function. *)
Definition rx_finish (rx_flags : Z) (e : BtpEngine) (data : list pbuf) (receivedAck : Z) (didReceiveAck : bool)
    : outcome rx_result :=
  let+ (err, e) := rx_append e data in
  if decide (err = CHIP_NO_ERROR) then
    let+ (err, e) := rx_end rx_flags e in rx_exit err e [] receivedAck didReceiveAck
  else rx_exit err e [] receivedAck didReceiveAck.

(** The reassembler; [b :: rest] is [data] behind the header of the fragment. *)
Definition rx_reassemble (rx_flags : Z) (e : BtpEngine) (b : pbuf) (rest : list pbuf) (receivedAck : Z)
    (didReceiveAck : bool) : outcome rx_result :=
  match mRxState (rx e) with
  | kState_Idle =>
      let+ bytes := mem_read (pb_mem b) (Start b) (DataLength b) in
      if negb (Has rx_flags kStartMessage)
      then rx_exit BLE_ERROR_INVALID_BTP_HEADER_FLAGS e (b :: rest) receivedAck didReceiveAck
      else
        match Reader_Read16 (Reader_new bytes) with
        | (None, startReader) => rx_exit (mStatus startReader) e (b :: rest) receivedAck didReceiveAck
        | (Some len, startReader) =>
            let e := on_rx (λ r, set_mRxState kState_InProgress (set_mRxLength len r)) e in
            let data := ConsumeHead (u16 (OctetsRead startReader)) b :: rest in
            let+ _ := Free (mRxBuf (rx e)) in
            let e := on_rx (set_mRxBuf (New MemoryAlloc kMaxSize kDefaultHeaderReserve)) e in
            match mRxBuf (rx e) with
            | [] => rx_exit CHIP_ERROR_NO_MEMORY e data receivedAck didReceiveAck
            | _ => rx_finish rx_flags e data receivedAck didReceiveAck
            end
        end
  | kState_InProgress =>
      if Has rx_flags kStartMessage then rx_exit BLE_ERROR_INVALID_BTP_HEADER_FLAGS e (b :: rest) receivedAck didReceiveAck
      else if negb (Has rx_flags kContinueMessage || Has rx_flags kEndMessage)
      then rx_exit BLE_ERROR_INVALID_BTP_HEADER_FLAGS e (b :: rest) receivedAck didReceiveAck
      else rx_finish rx_flags e (b :: rest) receivedAck didReceiveAck
  | _ => rx_exit BLE_ERROR_REASSEMBLER_INCORRECT_STATE e (b :: rest) receivedAck didReceiveAck
  end.

(** From the sequence number on; [reader] is behind the acknowledgement. *)
Definition rx_sequence (rx_flags : Z) (e : BtpEngine) (reader : Reader) (b : pbuf) (rest : list pbuf)
    (receivedAck : Z) (didReceiveAck : bool) : outcome rx_result :=
  match Reader_Read8 reader with
  | (None, reader) => rx_exit (mStatus reader) e (b :: rest) receivedAck didReceiveAck
  | (Some seq, reader) =>
      let e := on_rx (set_mRxNewestUnackedSeqNum seq) e in
      if negb (mRxNewestUnackedSeqNum (rx e) =? mRxNextSeqNum (rx e))
      then rx_exit BLE_ERROR_INVALID_BTP_SEQUENCE_NUMBER e (b :: rest) receivedAck didReceiveAck
      else
        let e := on_rx (λ r, set_mRxNextSeqNum (IncSeqNum (mRxNextSeqNum r)) r) e in
        if negb (DidReceiveData rx_flags) then rx_exit CHIP_NO_ERROR e (b :: rest) receivedAck didReceiveAck
        else if mRxFragmentSize (rx e) <? OctetsRead reader
        then rx_exit BLE_ERROR_REASSEMBLER_INCORRECT_STATE e (b :: rest) receivedAck didReceiveAck
        else
          match (SetDataLength (Z.min (DataLength b) (mRxFragmentSize (rx e))) 0 (b :: rest)).1 with
          | [] => Crashes OutOfBounds
          | b :: rest =>
              rx_reassemble rx_flags e (ConsumeHead (u16 (OctetsRead reader)) b) rest receivedAck didReceiveAck
          end
  end.

Definition HandleCharacteristicReceived (data : list pbuf) (receivedAck : Z) (didReceiveAck : bool) (e : BtpEngine)
    : outcome rx_result :=
  match data with
  | [] => rx_exit CHIP_ERROR_INVALID_ARGUMENT e data receivedAck didReceiveAck
  | b :: rest =>
      let+ bytes := mem_read (pb_mem b) (Start b) (DataLength b) in
      let e := on_rx (λ r, set_mRxCharCount (u16 (mRxCharCount r + 1)) r) e in
      match Reader_Read8 (Reader_new bytes) with
      | (None, reader) => rx_exit (mStatus reader) e data receivedAck didReceiveAck
      | (Some rx_flags, reader) =>
          let didReceiveAck := Has rx_flags kFragmentAck in
          let '(err, e, reader, receivedAck) := rx_ack didReceiveAck e reader receivedAck in
          if decide (err = CHIP_NO_ERROR) then rx_sequence rx_flags e reader b rest receivedAck didReceiveAck
          else rx_exit err e data receivedAck didReceiveAck
      end
  end.

End Alloc.

Definition TakeRxPacket (e : BtpEngine) : list pbuf * BtpEngine :=
  let e' := if decide (mRxState (rx e) = kState_Complete) then on_rx (set_mRxState kState_Idle) e else e in
  (mRxBuf (rx e'), on_rx (set_mRxBuf []) e').

(** ** Sending *)

(** [characteristic[i] = v] for a pointer into the buffer. *)
Definition put_byte (characteristic i v : Z) (b : pbuf) : outcome pbuf :=
  let+ m := mem_write (pb_mem b) (characteristic + i) [v] in Returns (pbset_mem m b).

(** The acknowledgement number, if one is sent, and the flag for it. *)
Definition tx_ack (send_ack : bool) (characteristic headerFlags cursor : Z) (e : BtpEngine) (b : pbuf)
    : outcome (Z * Z * BtpEngine * pbuf) :=
  if send_ack then
    let '(n, r) := GetAndRecordRxAckSeqNum (rx e) in
    let+ b := put_byte characteristic cursor n b in
    Returns (SetFlag headerFlags kFragmentAck, u8 (cursor + 1), mkBtp r (tx e), b)
  else Returns (headerFlags, cursor, e, b).

Definition tx_seq (characteristic cursor : Z) (e : BtpEngine) (b : pbuf) : outcome (Z * BtpEngine * pbuf) :=
  let '(n, t) := GetAndIncrementNextTxSeqNum (tx e) in
  let+ b := put_byte characteristic cursor n b in
  Returns (u8 (cursor + 1), mkBtp (rx e) t, b).

(** The length of the fragment, whether it is the last one, and the flags. *)
Definition tx_length (characteristic headerFlags cursor : Z) (e : BtpEngine) (bs : list pbuf) : outcome BtpEngine :=
  let t := tx e in
  let '(headerFlags, t, bs) :=
    if mTxLength t + cursor <=? mTxFragmentSize t then
      (SetFlag headerFlags kEndMessage,
       set_mTxPacketCount (u16 (mTxPacketCount t + 1)) (set_mTxState kState_Complete (set_mTxLength 0 t)),
       (SetDataLength (u16 (mTxLength t + cursor)) 0 bs).1)
    else
      (headerFlags, set_mTxLength (u16 (mTxLength t + cursor - mTxFragmentSize t)) t,
       (SetDataLength (mTxFragmentSize t) 0 bs).1) in
  match bs with
  | [] => Crashes OutOfBounds
  | b :: rest =>
      let+ b := put_byte characteristic 0 headerFlags b in
      Returns (mkBtp (rx e) (set_mTxBuf (b :: rest) t))
  end.

(** The first fragment of the message in [b :: rest]. *)
Definition tx_first (send_ack : bool) (e : BtpEngine) (b : pbuf) (rest : list pbuf) : outcome (bool * BtpEngine) :=
  let e := on_tx (λ t, set_mTxState kState_InProgress (set_mTxBuf (b :: rest) t)) e in
  if kUINT16_MAX <? DataLength b then Returns (false, e)
  else
    let e := on_tx (set_mTxLength (u16 (DataLength b))) e in
    let header_size := if send_ack then kTransferProtocolMaxHeaderSize
                       else kTransferProtocolMaxHeaderSize - kTransferProtocolAckSize in
    let+ (ok, b) := EnsureReservedSize (u16 (header_size + CHIP_CONFIG_BLE_PKT_RESERVED_SIZE)) b in
    if negb ok then
      let+ _ := Free (b :: rest) in
      Returns (false, on_tx (λ t, set_mTxBuf [] (set_mTxState kState_Error t)) e)
    else
      let characteristic := Start b - header_size in
      let b := SetStart characteristic b in
      let+ (headerFlags, cursor, e, b) := tx_ack send_ack characteristic kStartMessage 1 e b in
      let+ (cursor, e, b) := tx_seq characteristic cursor e b in
      let+ b := put_byte characteristic cursor (u8 (Z.land (mTxLength (tx e)) 0xff)) b in
      let cursor := u8 (cursor + 1) in
      let+ b := put_byte characteristic cursor (u8 (Z.shiftr (mTxLength (tx e)) 8)) b in
      let cursor := u8 (cursor + 1) in
      let+ e := tx_length characteristic headerFlags cursor e (b :: rest) in
      Returns (true, e).

(** A further fragment. *)
Definition tx_next (send_ack : bool) (e : BtpEngine) : outcome (bool * BtpEngine) :=
  match mTxBuf (tx e) with
  | [] => Crashes OutOfBounds
  | b :: rest =>
      let header_size := if send_ack then kTransferProtocolMidFragmentMaxHeaderSize
                         else kTransferProtocolMidFragmentMaxHeaderSize - kTransferProtocolAckSize in
      let characteristic := Start b + mTxFragmentSize (tx e) - header_size in
      let b := SetStart characteristic b in
      let+ (headerFlags, cursor, e, b) := tx_ack send_ack characteristic kContinueMessage 1 e b in
      let+ (cursor, e, b) := tx_seq characteristic cursor e b in
      let+ e := tx_length characteristic headerFlags cursor e (b :: rest) in
      Returns (true, e)
  end.

Definition HandleCharacteristicSend (data : list pbuf) (send_ack : bool) (e : BtpEngine) : outcome (bool * BtpEngine) :=
  let e := on_tx (λ t, set_mTxCharCount (u16 (mTxCharCount t + 1)) t) e in
  if send_ack && negb (HasUnackedData (rx e)) then Returns (false, e)
  else
    match mTxState (tx e), data with
    | kState_Idle, [] => Returns (false, e)
    | kState_Idle, b :: rest => let+ _ := Free (mTxBuf (tx e)) in tx_first send_ack e b rest
    | kState_InProgress, [] => tx_next send_ack e
    | kState_InProgress, _ => Returns (false, e)
    | _, _ => Returns (false, e)
    end.

Definition TakeTxPacket (e : BtpEngine) : list pbuf * BtpEngine :=
  let e' := if decide (mTxState (tx e) = kState_Complete) then on_tx (set_mTxState kState_Idle) e else e in
  (mTxBuf (tx e'), on_tx (set_mTxBuf []) e').

(** A fragment without payload that acknowledges; the packet is not null. *)
Definition EncodeStandAloneAck (b : pbuf) (rest : list pbuf) (e : BtpEngine) : outcome (chip_error * BtpEngine * list pbuf) :=
  let+ (ok, b) := EnsureReservedSize CHIP_CONFIG_BLE_PKT_RESERVED_SIZE b in
  if negb ok then Returns (CHIP_ERROR_NO_MEMORY, e, b :: rest)
  else if MaxDataLength b <? kTransferProtocolStandaloneAckHeaderSize then Returns (CHIP_ERROR_NO_MEMORY, e, b :: rest)
  else
    let characteristic := Start b in
    let+ b := put_byte characteristic 0 kFragmentAck b in
    let '(ack, r) := GetAndRecordRxAckSeqNum (rx e) in
    let+ b := put_byte characteristic 1 ack b in
    let '(seq, t) := GetAndIncrementNextTxSeqNum (tx e) in
    let+ b := put_byte characteristic 2 seq b in
    Returns (CHIP_NO_ERROR, mkBtp r t, (SetDataLength kTransferProtocolStandaloneAckHeaderSize 0 (b :: rest)).1).

End Engine.
