(* ===== verification/BtpWindow.v ===== *)
(** * Bluetooth transport protocol: sequence numbers

    The sequence numbers of a direction are the residues modulo 256 of the number of the
    fragment. The sender's fields stand for the numbers of the fragments that are sent and not
    acknowledged, the receiver's for those that it has received and not acknowledged, as long
    as they are at most 255. *)

From S2P Require Import Prelude.
From S2P Require Import COutcome.
From S2P Require Import ChipError.
From S2P Require Import Btp.

Lemma IncSeqNum_u8 n : IncSeqNum (u8 n) = u8 (n + 1).
Proof. unfold IncSeqNum. rewrite Z.land_comm. change 0xff with (2 ^ 8 - 1). rewrite land_mod by lia. wrap_lia. Qed.

(** The fields that are not about sequence numbers. *)
Definition same_message (t t' : BtpTx) : Prop :=
  mTxState t' = mTxState t ∧ mTxLength t' = mTxLength t ∧ mTxBuf t' = mTxBuf t ∧ mTxFragmentSize t' = mTxFragmentSize t.

Definition same_reassembly (r r' : BtpRx) : Prop :=
  mRxState r' = mRxState r ∧ mRxLength r' = mRxLength r ∧ mRxBuf r' = mRxBuf r ∧ mRxFragmentSize r' = mRxFragmentSize r.

(** ** The sender *)

(** Fragments number [p] to [n - 1] are not acknowledged; [n] is the next one. *)
Definition tx_at (p n : Z) (t : BtpTx) : Prop :=
  mTxNextSeqNum t = u8 n ∧
  if p <? n then mExpectingAck t = true ∧ mTxOldestUnackedSeqNum t = u8 p ∧ mTxNewestUnackedSeqNum t = u8 (n - 1)
  else mExpectingAck t = false.

Definition outstanding (t : BtpTx) : Z :=
  if mExpectingAck t then u8 (mTxNewestUnackedSeqNum t - mTxOldestUnackedSeqNum t) + 1 else 0.

Lemma outstanding_at p n t : tx_at p n t → p <= n <= p + 256 → outstanding t = n - p.
Proof.
  intros [_ Ht] Hn. unfold outstanding. destruct (Z.ltb_spec p n).
  - destruct Ht as (->&->&->). wrap_lia.
  - rewrite Ht. lia.
Qed.

Lemma send_at p n t :
  tx_at p n t → p <= n → ∃ t', GetAndIncrementNextTxSeqNum t = (u8 n, t') ∧ tx_at p (n + 1) t' ∧
    same_message t t'.
Proof.
  intros [Hn Ht] Hpn. unfold GetAndIncrementNextTxSeqNum. rewrite Hn. unfold tx_at.
  rewrite (proj2 (Z.ltb_lt p (n + 1))) by lia. destruct (Z.ltb_spec p n).
  - destruct Ht as (He&Ho&_). rewrite He. eexists. split; [done|]. cbn. rewrite Hn, IncSeqNum_u8. split_and!; try done. f_equal. lia.
  - rewrite Ht. eexists. split; [done|]. cbn. rewrite Hn, IncSeqNum_u8. split_and!; try done; f_equal; lia.
Qed.

(** The numbers that are accepted are those of the fragments not acknowledged, also when
    they wrap around. *)
Lemma IsValidAck_at p n t a :
  tx_at p n t → p <= n <= p + 256 → in_u8 a →
  IsValidAck a t = true ↔ ∃ x, p <= x < n ∧ a = u8 x.
Proof.
  intros [_ Ht] Hn Ha. unfold IsValidAck. destruct (Z.ltb_spec p n); [|rewrite Ht; split; [done|intros (x&?&_); lia]].
  destruct Ht as (->&->&->). cbn [negb]. split.
  - intros Hv. exists (p + u8 (a - p)). destruct (Z.leb_spec (u8 p) (u8 (n - 1))); zbool.
    + wrap_lia.
    + apply orb_prop in Hv as [?|?]; zbool; wrap_lia.
  - intros (x&Hx&->). destruct (Z.leb_spec (u8 p) (u8 (n - 1))).
    + apply andb_true_intro. split; apply Z.leb_le; wrap_lia.
    + apply orb_true_intro. destruct (Z.leb_spec (u8 x) (u8 (n - 1))); [by left|right]. apply Z.leb_le. wrap_lia.
Qed.

Lemma ack_at p n t x :
  tx_at p n t → p <= x < n → n <= p + 256 →
  ∃ t', HandleAckReceived (u8 x) t = (CHIP_NO_ERROR, t') ∧ tx_at (x + 1) n t' ∧
    same_message t t'.
Proof.
  intros Ht Hx Hn. unfold HandleAckReceived.
  rewrite (proj2 (IsValidAck_at p n t (u8 x) Ht ltac:(lia) (u8_range x))) by eauto. cbn [negb].
  destruct Ht as [Hnx Ht]. rewrite (proj2 (Z.ltb_lt p n)) in Ht by lia. destruct Ht as (He&Ho&Hw). unfold tx_at. rewrite Hw.
  destruct (Z.eqb_spec (u8 (n - 1)) (u8 x)).
  - assert (x = n - 1) as -> by wrap_lia. eexists. split; [done|]. cbn.
    replace (n - 1 + 1) with n by lia. rewrite Z.ltb_irrefl. done.
  - assert (x ≠ n - 1) by congruence. eexists. split; [done|]. cbn. rewrite (proj2 (Z.ltb_lt (x + 1) n)) by lia.
    rewrite IncSeqNum_u8. done.
Qed.

(** ** The receiver *)

(** Fragments up to number [n - 1] are received and those up to [k - 1] acknowledged. *)
Definition rx_at (k n : Z) (r : BtpRx) : Prop :=
  mRxNextSeqNum r = u8 n ∧ mRxOldestUnackedSeqNum r = u8 k ∧ (k < n → mRxNewestUnackedSeqNum r = u8 (n - 1)).

Lemma HasUnackedData_at k n r : rx_at k n r → k <= n <= k + 255 → HasUnackedData r = (k <? n).
Proof.
  intros (Hn&Ho&_) Hk. unfold HasUnackedData. rewrite Hn, Ho. destruct (Z.ltb_spec k n).
  - rewrite negb_true_iff, Z.eqb_neq. wrap_lia.
  - replace n with k by lia. by rewrite Z.eqb_refl.
Qed.

Lemma record_at k n r :
  rx_at k n r → k < n → ∃ r', GetAndRecordRxAckSeqNum r = (u8 (n - 1), r') ∧ rx_at n n r' ∧
    same_reassembly r r'.
Proof.
  intros (Hn&Ho&Hw) Hk. unfold GetAndRecordRxAckSeqNum. rewrite (Hw Hk). eexists. split; [done|].
  unfold rx_at. split_and!; try done. cbn. intros. lia.
Qed.

(** ** The unacknowledged fragments as a queue *)

(** The numbers sent and not acknowledged, in order. *)
Definition unacked_is (q : list Z) (t : BtpTx) : Prop :=
  ∃ p, q = (λ i, u8 (p + Z.of_nat i)) <$> seq 0 (length q) ∧ tx_at p (p + Z.of_nat (length q)) t.

(** An acknowledgement takes all fragments up to the one it names; nothing, when there is
    no such fragment. *)
Fixpoint acknowledge (a : Z) (q : list Z) : option (list Z) :=
  match q with
  | [] => None
  | x :: q => if x =? a then Some q else acknowledge a q
  end.

Definition seqs (p : Z) (n : nat) : list Z := (λ i, u8 (p + Z.of_nat i)) <$> seq 0 n.

Lemma seqs_cons p n : seqs p (S n) = u8 p :: seqs (p + 1) n.
Proof.
  unfold seqs. cbn [seq fmap list_fmap]. rewrite Z.add_0_r. f_equal. rewrite <- fmap_S_seq, <- list_fmap_compose.
  apply list_fmap_ext. intros i x _. cbn. f_equal. lia.
Qed.

Lemma seqs_snoc p n : seqs p (S n) = seqs p n ++ [u8 (p + Z.of_nat n)].
Proof. unfold seqs. by rewrite seq_S, fmap_app. Qed.

Lemma seqs_length p n : length (seqs p n) = n.
Proof. unfold seqs. by rewrite length_fmap, length_seq. Qed.

Lemma acknowledge_seqs p n a :
  in_u8 a → (n <= 256)%nat →
  match acknowledge a (seqs p n) with
  | Some q => ∃ x, p <= x < p + Z.of_nat n ∧ a = u8 x ∧ q = seqs (x + 1) (Z.to_nat (p + Z.of_nat n - (x + 1)))
  | None => ∀ x, p <= x < p + Z.of_nat n → a ≠ u8 x
  end.
Proof.
  intros Ha. revert p. induction n as [|n IH]; intros p Hn; [cbn; lia|].
  rewrite seqs_cons. cbn [acknowledge]. destruct (Z.eqb_spec (u8 p) a) as [<-|Hne].
  - exists p. split_and!; [lia|lia|done|]. f_equal. lia.
  - specialize (IH (p + 1) ltac:(lia)). destruct (acknowledge a (seqs (p + 1) n)) as [q|].
    + destruct IH as (x&Hx&->&->). exists x. split_and!; [lia|lia|done|]. f_equal. lia.
    + intros x Hx. destruct (decide (x = p)) as [->|]; [congruence|]. apply IH. lia.
Qed.

Lemma unacked_seqs q t : unacked_is q t ↔ ∃ p n, q = seqs p n ∧ tx_at p (p + Z.of_nat n) t.
Proof.
  split.
  - intros (p&Hq&Ht). exists p, (length q). by split.
  - intros (p&n&->&Ht). exists p. rewrite seqs_length. by split.
Qed.

(** The sender keeps the queue of the fragments that are sent and not acknowledged, also
    when the 8-bit sequence numbers wrap around: an acknowledgement of one of them takes it
    and all older ones from the queue, any other number is refused and changes nothing, and
    a new fragment is put at the end, for at most 256 outstanding fragments. *)
Theorem ack_queue_refines q t :
  unacked_is q t → (length q <= 256)%nat →
  (∀ a, in_u8 a →
     match acknowledge a q with
     | Some q' => ∃ t', HandleAckReceived a t = (CHIP_NO_ERROR, t') ∧ unacked_is q' t'
     | None => HandleAckReceived a t = (BLE_ERROR_INVALID_ACK, t)
     end) ∧
  ∃ t', GetAndIncrementNextTxSeqNum t = (mTxNextSeqNum t, t') ∧ unacked_is (q ++ [mTxNextSeqNum t]) t'.
Proof.
  intros (p&n&->&Ht)%unacked_seqs. rewrite seqs_length. intros Hn. split.
  - intros a Ha. pose proof (acknowledge_seqs p n a Ha Hn) as Hack. destruct (acknowledge a (seqs p n)) as [q'|].
    + destruct Hack as (x&Hx&->&->). destruct (ack_at p (p + Z.of_nat n) t x Ht) as (t'&E&Ht'&_); [lia..|].
      exists t'. split; [done|]. apply unacked_seqs. eexists _, _. split; [done|].
      by replace (x + 1 + _) with (p + Z.of_nat n) by lia.
    + unfold HandleAckReceived. destruct (IsValidAck a t) eqn:E; [|done].
      apply (IsValidAck_at p (p + Z.of_nat n) t a Ht) in E as (x&Hx&Hax); [|lia|done]. by destruct (Hack x Hx).
  - destruct (send_at p (p + Z.of_nat n) t Ht) as (t'&E&Ht'&_); [lia|]. destruct Ht as [Hnx _]. rewrite Hnx. exists t'.
    split; [done|]. apply unacked_seqs. exists p, (S n). rewrite seqs_snoc. split; [done|].
    by replace (p + Z.of_nat (S n)) with (p + Z.of_nat n + 1) by lia.
Qed.

(** Three fragments whose numbers wrap around. *)
Definition wrapped_tx : BtpTx := mkTx kState_Idle 0 [] 1 0 254 true sDefaultFragmentSize 0 0.

Lemma ack_queue_refines_witness :
  acknowledge 255 [254; 255; 0] = Some [0] ∧
  ∃ t', HandleAckReceived 255 wrapped_tx = (CHIP_NO_ERROR, t') ∧ unacked_is [0] t'.
Proof.
  assert (Hq : unacked_is [254; 255; 0] wrapped_tx) by (exists 254; split; [done|repeat split]).
  split; [done|].
  exact (proj1 (ack_queue_refines [254; 255; 0] wrapped_tx Hq ltac:(cbn; lia)) 255 ltac:(solve_width)).
Defined.
