(* ===== verification/BtpSend.v ===== *)
(** * Bluetooth transport protocol: sending

    Fragments and their bytes, and what the engine sends: the next piece of the message, with
    the header written over the bytes in front of it in the buffer. *)

From S2P Require Import Prelude.
From S2P Require Import COutcome.
From S2P Require Import ChipError.
From S2P Require Import PacketBuffer.
From S2P Require Import PacketBufferSpec.
From S2P Require Import Btp.
From S2P Require Import BtpWindow.

(** ** Fragments *)

Inductive frag_kind := FStart (len : Z) | FContinue | FAckOnly.

#[export] Instance frag_kind_eq_dec : EqDecision frag_kind.
Proof. solve_decision. Defined.

Record fragment := mkFrag {
  fr_kind : frag_kind;
  fr_end : bool;
  fr_ack : option Z;
  fr_seq : Z;
  fr_data : list Z
}.

Definition frag_flags (f : fragment) : Z :=
  let flags := match fr_kind f with FStart _ => kStartMessage | FContinue => kContinueMessage | FAckOnly => 0 end in
  let flags := match fr_ack f with Some _ => SetFlag flags kFragmentAck | None => flags end in
  if fr_end f then SetFlag flags kEndMessage else flags.

Definition frag_head (f : fragment) : list Z :=
  frag_flags f :: match fr_ack f with Some a => [a] | None => [] end ++
  fr_seq f :: match fr_kind f with FStart len => [len mod 256; len / 256] | _ => [] end.

Definition encode (f : fragment) : list Z := frag_head f ++ fr_data f.

(** The size of the header of a fragment with data. *)
Definition head_size (first send_ack : bool) : Z := (if first then 4 else 2) + (if send_ack then 1 else 0).

(** The next fragment of size [size] from the bytes [R] that are left. *)
Definition cut (first : bool) (size : Z) (ack : option Z) (seq : Z) (R : list Z) : fragment :=
  let h := head_size first (bool_decide (is_Some ack)) in
  mkFrag (if first then FStart (Z.of_nat (length R)) else FContinue) (Z.of_nat (length R) + h <=? size) ack seq
    (take (Z.to_nat (size - h)) R).

(** What is left behind it, if anything. *)
Definition left_over (first send_ack : bool) (size : Z) (R : list Z) : option (list Z) :=
  let h := head_size first send_ack in
  if Z.of_nat (length R) + h <=? size then None else Some (drop (Z.to_nat (size - h)) R).

Section Send.
Context `{PbufBounds} `{BtpConfig}.

(** ** Single buffers *)

Definition sbuf (mem : list Z) (payload len ref : Z) : pbuf := mkPbuf mem payload len len ref.

Lemma sbuf_start mem p l r : Start (sbuf mem p l r) = p.
Proof. done. Qed.

Lemma single_wf_inv b : wf_chain [b] → wf_buf b ∧ b = sbuf (pb_mem b) (pb_payload b) (pb_len b) (pb_ref b).
Proof.
  intros (Hb&_&Ht&_)%wf_chain_cons. split; [done|]. destruct b as [m p tl l r]. unfold sbuf.
  change (chain_len []) with 0 in Ht. cbn in *. f_equal. lia.
Qed.

Lemma SetDataLength_single n mem p l r :
  wf_buf (sbuf mem p l r) → 0 <= n <= Z.of_nat (length mem) - p →
  (SetDataLength n 0 [sbuf mem p l r]).1 = [sbuf mem p n r].
Proof.
  intros Hb Hn. cbn [SetDataLength fst]. rewrite MaxDataLength_wf by done. unfold AllocSize. cbn [pb_mem pb_payload sbuf].
  rewrite (proj2 (Z.ltb_ge _ n)) by lia. cbn. rewrite size_t_small; [unfold pbset_tot_len, pbset_len, sbuf; cbn; do 2 f_equal; lia|].
  unfold wf_buf, AllocSize in Hb. cbn in Hb. pose proof max_alloc_bound. unfold kUINT16_MAX in *. lia.
Qed.

Lemma SetStart_single n mem p l r :
  wf_buf (sbuf mem p l r) → 0 <= n <= p + l →
  SetStart n (sbuf mem p l r) = sbuf mem n (p + l - n) r.
Proof.
  intros Hb Hn. pose proof Hb as (Hb1&Hb2&Hb3&Hb4&_). unfold AllocSize in Hb3, Hb4. cbn in Hb1, Hb2, Hb3, Hb4.
  pose proof max_alloc_bound. unfold kUINT16_MAX in *.
  unfold SetStart. rewrite MaxDataLength_wf by done. unfold AllocSize, Start. cbn [pb_mem pb_payload pb_len pb_tot_len pb_ref sbuf].
  rewrite (proj2 (Z.ltb_ge n 0)) by lia. rewrite (proj2 (Z.ltb_ge _ n)) by lia.
  assert ((if (0 <? n - p) && (l <? n - p) then l else n - p) = n - p) as -> by (repeat zcase; cbn; lia).
  rewrite !size_t_small by lia. unfold sbuf. f_equal; lia.
Qed.

(** ** Header bytes *)

Lemma put_byte_at A X c n i v b :
  pb_mem b = A ++ X → c = Z.of_nat (length A) → n = Z.of_nat i → (i < length X)%nat →
  put_byte c n v b = Returns (pbset_mem (A ++ <[i := v]> X) b).
Proof.
  intros Hm -> -> Hi. unfold put_byte. rewrite Hm.
  rewrite <- (take_drop i X) at 1. rewrite app_assoc.
  replace (Z.of_nat (length A) + Z.of_nat i) with (Z.of_nat (length (A ++ take i X)))
    by (rewrite length_app, length_take; lia).
  rewrite mem_write_at by (rewrite length_drop; cbn; lia). cbn [obind]. do 2 f_equal. rewrite <- app_assoc. f_equal.
  rewrite insert_take_drop by done. cbn [length app]. by rewrite drop_drop, Nat.add_1_r.
Qed.

(** ** The state of the sender *)

(** What is left of the message, in memory behind the fragment sent last. *)
Definition tx_holds (rem : option (list Z)) (t : BtpTx) : Prop :=
  match rem with
  | None => (mTxState t = kState_Idle ∧ mTxBuf t = []) ∨ (mTxState t = kState_Complete ∧ ∃ b, mTxBuf t = [b])
  | Some R =>
      mTxState t = kState_InProgress ∧ mTxLength t = Z.of_nat (length R) ∧ Z.of_nat (length R) <= kUINT16_MAX ∧
      ∃ A D U r, let mem := A ++ D ++ R ++ U in let b := sbuf mem (Z.of_nat (length A)) (Z.of_nat (length D)) r in
        mTxBuf t = [b] ∧ wf_buf b ∧ Z.of_nat (length D) = mTxFragmentSize t
  end.

(** The fragment that is sent: the data in the head of [mTxBuf]. *)
Definition sent_bytes (e : BtpEngine) : list Z :=
  match mTxBuf (tx e) with b :: _ => buf_data b | [] => [] end.

(** The fields with sequence numbers. *)
Definition same_numbers (t t' : BtpTx) : Prop :=
  mTxNextSeqNum t' = mTxNextSeqNum t ∧ mTxNewestUnackedSeqNum t' = mTxNewestUnackedSeqNum t ∧
  mTxOldestUnackedSeqNum t' = mTxOldestUnackedSeqNum t ∧ mExpectingAck t' = mExpectingAck t ∧
  mTxFragmentSize t' = mTxFragmentSize t.

Lemma same_numbers_at p n t t' : same_numbers t t' → tx_at p n t → tx_at p n t'.
Proof. intros (Hn&Hw&Ho&He&_). unfold tx_at. by rewrite Hn, Hw, Ho, He. Qed.

Lemma sbuf_wf mem p l r :
  0 <= p → 0 <= l → p + l <= Z.of_nat (length mem) → Z.of_nat (length mem) <= kMaxAllocSize → 1 <= r <= kUINT16_MAX →
  wf_buf (sbuf mem p l r).
Proof. unfold wf_buf, AllocSize. cbn. auto. Qed.

Lemma slice_mid A X Y n : (n <= length X)%nat → slice (A ++ X ++ Y) (Z.of_nat (length A)) (Z.of_nat n) = take n X.
Proof.
  intros Hn. unfold slice. rewrite !Nat2Z.id, drop_app_length. apply take_app_le. done.
Qed.

(** The end of both ways of sending: the length and the flags. *)
Lemma tx_length_step A x X R U l r flags e :
  let h := Z.of_nat (length (x :: X)) in let F := mTxFragmentSize (tx e) in
  let b := sbuf (A ++ (x :: X) ++ R ++ U) (Z.of_nat (length A)) l r in
  wf_buf b → mTxState (tx e) = kState_InProgress → mTxLength (tx e) = Z.of_nat (length R) → in_u16 F → h <= F →
  Z.of_nat (length R) <= kUINT16_MAX →
  ∃ t, tx_length (Z.of_nat (length A)) flags h e [b] = Returns (mkBtp (rx e) t) ∧ same_numbers (tx e) t ∧
    let last := Z.of_nat (length R) + h <=? F in
    tx_holds (if last then None else Some (drop (Z.to_nat (F - h)) R)) t ∧
    sent_bytes (mkBtp (rx e) t) =
      (if last then SetFlag flags kEndMessage else flags) :: X ++ take (Z.to_nat (F - h)) R.
Proof.
  intros h F b Hb Hst Hlen HF Hh HR. pose proof Hb as (Hb1&Hb2&Hb3&Hb4&Hb5). unfold AllocSize in Hb3, Hb4. cbn [pb_mem pb_payload pb_len sbuf b] in *.
  rewrite !length_app in Hb3, Hb4. unfold tx_length. fold F. rewrite Hlen.
  destruct (Z.leb_spec (Z.of_nat (length R) + h) F) as [Hlast|Hmore].
  - rewrite u16_id by solve_width. unfold b. rewrite SetDataLength_single by (try done; rewrite !length_app; lia). cbn zeta.
    rewrite (put_byte_at A ((x :: X) ++ R ++ U) _ _ 0) by (done || cbn; lia). cbn [obind app insert list_insert].
    eexists. split; [done|]. split; [done|]. split; [right; cbn; eauto|].
    unfold sent_bytes. cbn [tx mTxBuf set_mTxBuf]. unfold buf_data. cbn [pb_mem pb_payload pb_len pbset_mem sbuf].
    replace (Z.of_nat (length R) + h) with (Z.of_nat (length ((SetFlag flags kEndMessage :: X) ++ R)))
      by (rewrite length_app; cbn [length] in *; lia).
    change (SetFlag flags kEndMessage :: X ++ R ++ U) with ((SetFlag flags kEndMessage :: X) ++ R ++ U).
    rewrite app_assoc with (l := _ :: X).
    rewrite slice_mid by done. rewrite firstn_all. cbn [app]. do 2 f_equal. rewrite take_ge by lia. done.
  - unfold b. rewrite SetDataLength_single by (try done; rewrite !length_app; lia). cbn zeta.
    rewrite (put_byte_at A ((x :: X) ++ R ++ U) _ _ 0) by (done || cbn; lia). cbn [obind app insert list_insert].
    eexists. split; [done|]. split; [done|].
    set (k := Z.to_nat (F - h)). assert (k <= length R)%nat by (unfold k; lia).
    assert (F = Z.of_nat (length ((flags :: X) ++ take k R))) as HFl
      by (rewrite length_app, length_take; unfold k; cbn [length] in *; lia).
    assert (Hmem : flags :: X ++ R ++ U = ((flags :: X) ++ take k R) ++ drop k R ++ U)
      by (rewrite <- !app_assoc; cbn; do 2 f_equal; by rewrite app_assoc, take_drop).
    split.
    + unfold kUINT16_MAX in *. cbn. rewrite length_drop, u16_id by solve_width. split_and!; try done; [unfold k; lia|unfold kUINT16_MAX, k; lia|].
      exists A, ((flags :: X) ++ take k R), U, r. rewrite <- HFl. split_and!; [|apply sbuf_wf; rewrite ?length_app, ?length_drop; try done; try lia|done].
      * unfold pbset_mem, sbuf. cbn [pb_mem pb_payload pb_tot_len pb_len pb_ref]. do 2 f_equal. f_equal. exact Hmem.
      * unfold k. rewrite length_take. cbn [length] in *. unfold k in *. lia.
      * rewrite length_take. cbn [length] in *. unfold k in *. lia.
    + unfold sent_bytes. cbn [tx mTxBuf set_mTxBuf]. unfold buf_data. cbn [pb_mem pb_payload pb_len pbset_mem sbuf].
      rewrite Hmem. fold F. rewrite HFl at 1. rewrite slice_mid by done. by rewrite firstn_all.
Qed.

(** ** Both ways of sending *)

Definition ack_of (send_ack : bool) (n : Z) : option Z := if send_ack then Some (u8 (n - 1)) else None.

(** Fragments received up to [n - 1], acknowledged now if told so. *)
Definition acked (send_ack : bool) (k n : Z) (r r' : BtpRx) : Prop :=
  rx_at (if send_ack then n else k) n r' ∧ same_reassembly r r'.

Lemma tx_ack_step send_ack k n A x y X l r flags e :
  rx_at k n (rx e) → (send_ack = true → k < n) →
  ∃ e' y', tx_ack send_ack (Z.of_nat (length A)) flags 1 e (sbuf (A ++ x :: y :: X) (Z.of_nat (length A)) l r) =
    Returns (match ack_of send_ack n with Some _ => SetFlag flags kFragmentAck | None => flags end,
             if send_ack then 2 else 1, e', sbuf (A ++ x :: y' :: X) (Z.of_nat (length A)) l r) ∧
    y' = match ack_of send_ack n with Some a => a | None => y end ∧ tx e' = tx e ∧ acked send_ack k n (rx e) (rx e').
Proof.
  intros Hr Hk. unfold tx_ack, acked. destruct send_ack; cbn [ack_of].
  - destruct (record_at k n (rx e) Hr (Hk eq_refl)) as (r'&->&Hr'&Hs).
    rewrite (put_byte_at A (x :: y :: X) _ _ 1) by (done || cbn; lia). cbn [obind].
    eexists (mkBtp r' (tx e)), _. split_and!; try done; apply Hs.
  - eexists e, _. split_and!; done.
Qed.

Lemma tx_seq_step p q i A X l r e :
  tx_at p q (tx e) → p <= q → (i < length X)%nat → (i < 10)%nat →
  ∃ e', tx_seq (Z.of_nat (length A)) (Z.of_nat i) e (sbuf (A ++ X) (Z.of_nat (length A)) l r) =
    Returns (Z.of_nat (S i), e', sbuf (A ++ <[i := u8 q]> X) (Z.of_nat (length A)) l r) ∧
    rx e' = rx e ∧ tx_at p (q + 1) (tx e') ∧ same_message (tx e) (tx e').
Proof.
  intros Ht Hpq Hi Hi'. unfold tx_seq. destruct (send_at p q (tx e) Ht Hpq) as (t'&->&Ht'&Hs).
  rewrite (put_byte_at A X _ _ i) by done. cbn [obind]. rewrite u8_id by solve_width.
  eexists (mkBtp (rx e) t'). split_and!; try apply Hs; try done. do 3 f_equal. lia.
Qed.

(** What sending one fragment [f] does, [rem] being left of the message. *)
Definition sends (send_ack : bool) (k n p q : Z) (f : fragment) (rem : option (list Z)) (e e' : BtpEngine) : Prop :=
  acked send_ack k n (rx e) (rx e') ∧ tx_at p (q + 1) (tx e') ∧ mTxFragmentSize (tx e') = mTxFragmentSize (tx e) ∧
  tx_holds rem (tx e') ∧ sent_bytes e' = encode f.

Lemma low_byte n : 0 <= n <= kUINT16_MAX → u8 (Z.land n 0xff) = n mod 256.
Proof. intros. change 0xff with (2 ^ 8 - 1). rewrite land_mod by lia. wrap_lia. Qed.

Lemma high_byte n : 0 <= n <= kUINT16_MAX → u8 (Z.shiftr n 8) = n / 256.
Proof. unfold kUINT16_MAX. intros. rewrite Z.shiftr_div_pow2 by lia. wrap_lia. Qed.

(** The bytes of the header up to the sequence number, behind the flags. *)
Definition head_bytes (send_ack : bool) (n q : Z) : list Z :=
  match ack_of send_ack n with Some a => [a] | None => [] end ++ [u8 q].

Lemma tx_header_step {B} (K : Z → Z → BtpEngine → pbuf → outcome B) send_ack k n p q A x X Y l r flags e :
  rx_at k n (rx e) → (send_ack = true → k < n) → tx_at p q (tx e) → p <= q →
  length X = length (head_bytes send_ack n q) →
  ∃ e', (let+ (fl, c, e, b) := tx_ack send_ack (Z.of_nat (length A)) flags 1 e
           (sbuf (A ++ (x :: X) ++ Y) (Z.of_nat (length A)) l r) in
         let+ (c, e, b) := tx_seq (Z.of_nat (length A)) c e b in K fl c e b) =
    K (match ack_of send_ack n with Some _ => SetFlag flags kFragmentAck | None => flags end)
      (Z.of_nat (length (x :: head_bytes send_ack n q))) e'
      (sbuf (A ++ (x :: head_bytes send_ack n q) ++ Y) (Z.of_nat (length A)) l r) ∧
    acked send_ack k n (rx e) (rx e') ∧ tx_at p (q + 1) (tx e') ∧ same_message (tx e) (tx e').
Proof.
  intros Hr Hk Ht Hpq HX. destruct X as [|y X]; [by destruct send_ack|]. cbn [app].
  destruct (tx_ack_step send_ack k n A x y (X ++ Y) l r flags e Hr Hk) as (e1&y1&->&Hy1&Ht1&Hr1).
  cbn [obind]. destruct send_ack; cbn [ack_of head_bytes] in *.
  - destruct X as [|z [|? ?]]; [done| |done].
    destruct (tx_seq_step p q 2 A (x :: y1 :: z :: Y) l r e1) as (e2&E2&Hr2&Ht2&Hs2); [by rewrite Ht1|done|cbn; lia|lia|].
    cbn [app]. change (Z.of_nat 2) with 2 in E2. rewrite E2. exists e2. cbn [obind]. rewrite Ht1 in Hs2.
    split_and!; try (rewrite Hr2; apply Hr1); try done. by rewrite Hy1.
  - destruct X; [|done].
    destruct (tx_seq_step p q 1 A (x :: y1 :: Y) l r e1) as (e2&E2&Hr2&Ht2&Hs2); [by rewrite Ht1|done|cbn; lia|lia|].
    cbn [app]. change (Z.of_nat 1) with 1 in E2. rewrite E2. exists e2. cbn [obind]. rewrite Ht1 in Hs2.
    split_and!; try (rewrite Hr2; apply Hr1); done.
Qed.

Lemma head_bytes_length send_ack n q : Z.of_nat (length (head_bytes send_ack n q)) = head_size false send_ack - 1.
Proof. by destruct send_ack. Qed.

(** The flags before it is known whether the fragment is the last one. *)
Definition start_flags (first send_ack : bool) : Z :=
  let flags := if first then kStartMessage else kContinueMessage in
  if send_ack then SetFlag flags kFragmentAck else flags.

Lemma start_flags_ack (first send_ack : bool) n :
  match ack_of send_ack n with
  | Some _ => SetFlag (if first then kStartMessage else kContinueMessage) kFragmentAck
  | None => if first then kStartMessage else kContinueMessage
  end = start_flags first send_ack.
Proof. by destruct send_ack. Qed.

Definition len_bytes (first : bool) (R : list Z) : list Z :=
  if first then [Z.of_nat (length R) mod 256; Z.of_nat (length R) / 256] else [].

Lemma encode_cut first send_ack size n q R :
  encode (cut first size (ack_of send_ack n) (u8 q) R) =
  (if Z.of_nat (length R) + head_size first send_ack <=? size
   then SetFlag (start_flags first send_ack) kEndMessage else start_flags first send_ack) ::
  (head_bytes send_ack n q ++ len_bytes first R) ++ take (Z.to_nat (size - head_size first send_ack)) R.
Proof. by destruct send_ack, first. Qed.

(** The buffer is set up with the header in front of what is left: the fragment is sent. *)
Lemma tx_emit first send_ack k n p q A x R U l r e0 e :
  let X := head_bytes send_ack n q ++ len_bytes first R in let F := mTxFragmentSize (tx e) in
  let b := sbuf (A ++ (x :: X) ++ R ++ U) (Z.of_nat (length A)) l r in
  wf_buf b → mTxState (tx e) = kState_InProgress → mTxLength (tx e) = Z.of_nat (length R) →
  sDefaultFragmentSize <= F → in_u16 F → Z.of_nat (length R) <= kUINT16_MAX → mTxFragmentSize (tx e0) = F →
  acked send_ack k n (rx e0) (rx e) → tx_at p (q + 1) (tx e) →
  ∃ e', (let+ e := tx_length (Z.of_nat (length A)) (start_flags first send_ack) (head_size first send_ack) e [b] in
         Returns (true, e)) = Returns (true, e') ∧
    sends send_ack k n p q (cut first F (ack_of send_ack n) (u8 q) R) (left_over first send_ack F R) e0 e'.
Proof.
  intros X F b Hb Hst Hlen HF HF' HR HF0 Hr Ht. unfold sDefaultFragmentSize in HF.
  assert (Hh : Z.of_nat (length (x :: X)) = head_size first send_ack) by (by destruct first, send_ack).
  destruct (tx_length_step A x X R U l r (start_flags first send_ack) e) as (t&E&Hsn&Hh1&Hb1); try done.
  { rewrite Hh. fold F. unfold head_size; destruct first, send_ack; lia. }
  rewrite Hh in E, Hh1, Hb1. fold b in E. rewrite E. cbn [obind]. eexists. split; [done|].
  split_and!; [apply Hr..|by eapply same_numbers_at| |exact Hh1|by rewrite Hb1, encode_cut].
  destruct Hsn as (_&_&_&_&Hsn). cbn [tx]. by rewrite Hsn, HF0.
Qed.

Lemma tx_next_step send_ack k n p q R e :
  rx_at k n (rx e) → (send_ack = true → k < n) → tx_at p q (tx e) → p <= q → tx_holds (Some R) (tx e) →
  sDefaultFragmentSize <= mTxFragmentSize (tx e) → in_u16 (mTxFragmentSize (tx e)) →
  ∃ e', tx_next send_ack e = Returns (true, e') ∧
    sends send_ack k n p q (cut false (mTxFragmentSize (tx e)) (ack_of send_ack n) (u8 q) R)
      (left_over false send_ack (mTxFragmentSize (tx e)) R) e e'.
Proof.
  intros Hr Hk Ht Hpq (Hst&Hlen&HR&A&D&U&r&Hbuf&Hb&HD) HF HF'. unfold sDefaultFragmentSize in HF.
  unfold tx_next. rewrite Hbuf. set (F := mTxFragmentSize (tx e)) in *. rewrite sbuf_start.
  assert (Hh : ∃ h, (if send_ack then kTransferProtocolMidFragmentMaxHeaderSize
    else kTransferProtocolMidFragmentMaxHeaderSize - kTransferProtocolAckSize) = h ∧ h = head_size false send_ack ∧ 2 <= h <= 3)
    by (by destruct send_ack; eexists).
  destruct Hh as (h&->&Hh&Hh'). pose proof (head_bytes_length send_ack n q) as HHl.
  (* the fragment sent before ends in the bytes that the header overwrites *)
  destruct (split_at D (Z.to_nat (F - h)) (Z.to_nat h)) as (D0&X&D1&->&HD0&HX); [lia|].
  rewrite !length_app in HD. destruct D1; [|cbn in HD; lia]. rewrite app_nil_r in *.
  destruct X as [|x X]; [cbn in HX; lia|]. rewrite <- (app_assoc D0), (app_assoc A) in Hb |- *.
  replace (Z.of_nat (length A) + F - h) with (Z.of_nat (length (A ++ D0))) by (rewrite length_app; lia).
  rewrite SetStart_single by (try done; rewrite !length_app; lia).
  set (l := _ + _ - _). assert (l = h) as -> by (unfold l; rewrite !length_app; lia).
  pose proof Hb as (_&_&Hb3&Hb4&Hb5). unfold AllocSize in Hb3, Hb4. cbn [pb_mem pb_payload pb_len pb_ref sbuf] in Hb3, Hb4, Hb5.
  rewrite !length_app in Hb3, Hb4.
  edestruct (tx_header_step (λ fl c e b, let+ e0 := tx_length (Z.of_nat (length (A ++ D0))) fl c e [b] in Returns (true, e0))
    send_ack k n p q (A ++ D0) x X (R ++ U) h r kContinueMessage e) as (e2&->&Hr2&Ht2&Hs1&Hs2&_&Hs4); try done.
  { cbn [length] in HX. lia. }
  pose proof (start_flags_ack false send_ack n) as Hfl. cbn iota in Hfl. rewrite Hfl.
  destruct (tx_emit false send_ack k n p q (A ++ D0) x R U h r e e2) as (e'&E&He').
  all: rewrite ?Hs1, ?Hs2, ?Hs4; try done.
  { apply sbuf_wf; rewrite ?length_app; cbn [length len_bytes] in *; rewrite ?length_app; try done; cbn [length] in *; lia. }
  cbn [len_bytes] in E. rewrite app_nil_r in E. replace (Z.of_nat (length (x :: head_bytes send_ack n q))) with (head_size false send_ack)
    by (cbn [length]; lia). rewrite E. rewrite Hs4 in He'. eauto.
Qed.

(** The two bytes of the length, behind the sequence number. *)
Lemma put_length A Hd z1 z2 Y l r n :
  0 <= n <= kUINT16_MAX → (length Hd < 10)%nat → let c := Z.of_nat (length Hd) in
  (let+ b := put_byte (Z.of_nat (length A)) c (u8 (Z.land n 0xff))
     (sbuf (A ++ Hd ++ z1 :: z2 :: Y) (Z.of_nat (length A)) l r) in
   put_byte (Z.of_nat (length A)) (u8 (c + 1)) (u8 (Z.shiftr n 8)) b) =
  Returns (sbuf (A ++ (Hd ++ [n mod 256; n / 256]) ++ Y) (Z.of_nat (length A)) l r).
Proof.
  intros Hn Hl c. rewrite low_byte, high_byte by done.
  rewrite (put_byte_at A (Hd ++ z1 :: z2 :: Y) _ _ (length Hd)) by (done || rewrite length_app; cbn; lia).
  rewrite insert_app_r_alt, Nat.sub_diag by lia. cbn [insert list_insert]. cbn [obind]. rewrite u8_id by solve_width.
  rewrite (put_byte_at A ((Hd ++ [n mod 256]) ++ z2 :: Y) _ _ (length (Hd ++ [n mod 256]))).
  - rewrite insert_app_r_alt, Nat.sub_diag by lia. cbn [insert list_insert]. unfold pbset_mem, sbuf. cbn. by rewrite <- !app_assoc.
  - cbn. by rewrite <- app_assoc.
  - done.
  - rewrite length_app. cbn. unfold c. lia.
  - rewrite (length_app (Hd ++ _)). cbn. lia.
Qed.

(** There is room for a header of [h] bytes in front of the data. *)
Lemma make_room h b :
  wf_chain [b] → 0 <= h → 0 <= CHIP_CONFIG_BLE_PKT_RESERVED_SIZE →
  h + CHIP_CONFIG_BLE_PKT_RESERVED_SIZE + pb_len b <= AllocSize b →
  ∃ b' A X U l r, EnsureReservedSize (u16 (h + CHIP_CONFIG_BLE_PKT_RESERVED_SIZE)) b = Returns (true, b') ∧
    Start b' - h = Z.of_nat (length A) ∧ Z.of_nat (length X) = h ∧
    let b1 := sbuf (A ++ X ++ buf_data b ++ U) (Z.of_nat (length A)) l r in
    SetStart (Start b' - h) b' = b1 ∧ wf_buf b1.
Proof.
  intros Hwf Hh Hres Hroom. destruct (single_wf_inv b Hwf) as [Hb Hbs].
  pose proof (buf_data_length b Hb) as Hbl. pose proof max_alloc_bound. pose proof Hb as (Hb1&Hb2&Hb3&Hb4&Hb5).
  unfold kUINT16_MAX in *. assert (Hu : in_u16 (h + CHIP_CONFIG_BLE_PKT_RESERVED_SIZE)) by solve_width.
  rewrite u16_id by done. destruct (EnsureReservedSize_step b _ Hb Hu) as (b'&->&Hb'&Hd'&Hl'&Ht'&Ha'&Hr'&Hp').
  rewrite bool_decide_true by lia. specialize (Hp' ltac:(lia)).
  destruct (single_wf_inv b') as [_ Hbs']. { apply single_wf; [done|]. rewrite Ht', Hl', Hbs. done. }
  destruct (wf_lay b' Hb') as (A&U&Hm&HA&HD). rewrite Hd' in Hm, HD.
  destruct (split_at A (Z.to_nat (Z.of_nat (length A) - h)) (Z.to_nat h)) as (A1&X&A2&->&HA1&HX); [lia|].
  rewrite !length_app in HA, HA1. destruct A2; [|cbn in *; lia]. rewrite app_nil_r, <- app_assoc in Hm. cbn [length] in *.
  assert (HAl : Start b' - h = Z.of_nat (length A1)) by (unfold Start; lia).
  exists b', A1, X, U, (pb_len b' + h), (pb_ref b'). split_and!; [done|done|lia| |].
  - rewrite HAl. rewrite Hbs' at 1. rewrite SetStart_single by (try (by rewrite <- Hbs'); lia). rewrite <- Hm. f_equal. lia.
  - rewrite <- Hm. apply sbuf_wf; fold (AllocSize b'); unfold wf_buf, kUINT16_MAX in *; lia.
Qed.

Lemma tx_first_step send_ack k n p q b e :
  rx_at k n (rx e) → (send_ack = true → k < n) → tx_at p q (tx e) → p <= q → wf_chain [b] →
  sDefaultFragmentSize <= mTxFragmentSize (tx e) → in_u16 (mTxFragmentSize (tx e)) → 0 <= CHIP_CONFIG_BLE_PKT_RESERVED_SIZE →
  head_size true send_ack + CHIP_CONFIG_BLE_PKT_RESERVED_SIZE + pb_len b <= AllocSize b →
  ∃ e', tx_first send_ack e b [] = Returns (true, e') ∧
    sends send_ack k n p q (cut true (mTxFragmentSize (tx e)) (ack_of send_ack n) (u8 q) (buf_data b))
      (left_over true send_ack (mTxFragmentSize (tx e)) (buf_data b)) e e'.
Proof.
  intros Hr Hk Ht Hpq Hwf HF HF' Hres Hroom. destruct (single_wf_inv b Hwf) as [Hb _].
  pose proof (buf_data_length b Hb) as Hbl. pose proof max_alloc_bound. pose proof Hb as (Hb1&Hb2&Hb3&Hb4&_).
  assert (Hb16 : 0 <= pb_len b <= kUINT16_MAX) by lia.
  unfold tx_first, DataLength. rewrite (proj2 (Z.ltb_ge _ _)) by lia.
  assert (Hh : ∃ h, (if send_ack then kTransferProtocolMaxHeaderSize
    else kTransferProtocolMaxHeaderSize - kTransferProtocolAckSize) = h ∧ h = head_size true send_ack)
    by (by destruct send_ack; eexists).
  destruct Hh as (h&->&Hh). rewrite <- Hh in Hroom. pose proof (head_bytes_length send_ack n q) as HHl.
  assert (Hh2 : head_size false send_ack = h - 2 ∧ 4 <= h) by (rewrite Hh; by destruct send_ack).
  destruct (make_room h b Hwf ltac:(lia) Hres Hroom) as (b'&A&X&U&l&r&->&HA&HX&Hset&Hwfb). cbn [obind negb].
  rewrite Hset, HA. set (m := buf_data b) in *. rewrite (u16_id (pb_len b)) by (unfold kUINT16_MAX in *; solve_width).
  destruct (split_at X 1 (length (head_bytes send_ack n q))) as (X0&X1&X2&->&HX0&HX1); [lia|].
  rewrite !length_app in HX. destruct X0 as [|x [|]]; [done| |done]. destruct X2 as [|z1 [|z2 [|]]]; cbn [length] in HX; try lia.
  assert (Hmem : ([x] ++ X1 ++ [z1; z2]) ++ m ++ U = (x :: X1) ++ z1 :: z2 :: m ++ U)
    by (rewrite <- !app_assoc; done). rewrite Hmem in *. clear Hset.
  set (e1 := on_tx _ (on_tx _ e)).
  edestruct (tx_header_step (λ fl c e b,
      let+ b := put_byte (Z.of_nat (length A)) c (u8 (Z.land (mTxLength (tx e)) 0xff)) b in
      let+ b := put_byte (Z.of_nat (length A)) (u8 (c + 1)) (u8 (Z.shiftr (mTxLength (tx e)) 8)) b in
      let+ e := tx_length (Z.of_nat (length A)) fl (u8 (u8 (c + 1) + 1)) e [b] in Returns (true, e))
    send_ack k n p q A x X1 (z1 :: z2 :: m ++ U) l r kStartMessage e1) as (e2&->&Hr2&Ht2&Hs1&Hs2&_&Hs4); try done.
  cbn beta. rewrite Hs2. change (mTxLength (tx e1)) with (pb_len b).
  pose proof (put_length A (x :: head_bytes send_ack n q) z1 z2 (m ++ U) l r (pb_len b) Hb16
    ltac:(cbn [length]; destruct send_ack; cbn; lia)) as Hput.
  cbn zeta in Hput. destruct (put_byte _ _ (u8 (Z.land _ _)) _) as [b2|]; cbn [obind] in Hput |- *; [|done].
  rewrite Hput. cbn [obind].
  pose proof (start_flags_ack true send_ack n) as Hfl. cbn iota in Hfl. rewrite Hfl.
  replace (u8 (u8 (_ + 1) + 1)) with (head_size true send_ack) by (by destruct send_ack).
  rewrite <- Hbl.
  destruct (tx_emit true send_ack k n p q A x m U l r e e2) as (e'&E&He').
  all: rewrite ?Hs1, ?Hs2, ?Hs4; try done.
  all: change (mTxFragmentSize (tx e1)) with (mTxFragmentSize (tx e)) in *; try done; try lia.
  - unfold sbuf, wf_buf, AllocSize in Hwfb |- *. cbn [pb_mem pb_payload pb_len pb_ref len_bytes] in Hwfb |- *.
    rewrite !length_app in Hwfb. cbn [length] in *. rewrite !length_app in *. cbn [length]. rewrite !length_app. cbn [length]. lia.
  - rewrite Hs4 in He'. eauto.
Qed.

(** ** The functions *)

Lemma send_first send_ack k n p q b e :
  rx_at k n (rx e) → k <= n <= k + 255 → (send_ack = true → k < n) → tx_at p q (tx e) → p <= q →
  mTxState (tx e) = kState_Idle → mTxBuf (tx e) = [] → wf_chain [b] →
  sDefaultFragmentSize <= mTxFragmentSize (tx e) → in_u16 (mTxFragmentSize (tx e)) → 0 <= CHIP_CONFIG_BLE_PKT_RESERVED_SIZE →
  head_size true send_ack + CHIP_CONFIG_BLE_PKT_RESERVED_SIZE + pb_len b <= AllocSize b →
  ∃ e', HandleCharacteristicSend [b] send_ack e = Returns (true, e') ∧
    sends send_ack k n p q (cut true (mTxFragmentSize (tx e)) (ack_of send_ack n) (u8 q) (buf_data b))
      (left_over true send_ack (mTxFragmentSize (tx e)) (buf_data b)) e e'.
Proof.
  intros Hr Hkn Hk Ht Hpq Hst Hbuf Hwf HF HF' Hres Hroom. unfold HandleCharacteristicSend.
  set (e1 := on_tx _ e). change (rx e1) with (rx e). rewrite (HasUnackedData_at k n) by done.
  assert (send_ack && negb (k <? n) = false) as ->
    by (destruct send_ack; [rewrite (proj2 (Z.ltb_lt k n)) by auto|]; done).
  change (mTxState (tx e1)) with (mTxState (tx e)). change (mTxBuf (tx e1)) with (mTxBuf (tx e)). rewrite Hst, Hbuf. cbn [Free obind].
  apply (tx_first_step send_ack k n p q b e1); done.
Qed.

Lemma send_next send_ack k n p q R e :
  rx_at k n (rx e) → k <= n <= k + 255 → (send_ack = true → k < n) → tx_at p q (tx e) → p <= q → tx_holds (Some R) (tx e) →
  sDefaultFragmentSize <= mTxFragmentSize (tx e) → in_u16 (mTxFragmentSize (tx e)) →
  ∃ e', HandleCharacteristicSend [] send_ack e = Returns (true, e') ∧
    sends send_ack k n p q (cut false (mTxFragmentSize (tx e)) (ack_of send_ack n) (u8 q) R)
      (left_over false send_ack (mTxFragmentSize (tx e)) R) e e'.
Proof.
  intros Hr Hkn Hk Ht Hpq Hh HF HF'. unfold HandleCharacteristicSend.
  set (e1 := on_tx _ e). change (rx e1) with (rx e). rewrite (HasUnackedData_at k n) by done.
  assert (send_ack && negb (k <? n) = false) as ->
    by (destruct send_ack; [rewrite (proj2 (Z.ltb_lt k n)) by auto|]; done).
  change (mTxState (tx e1)) with (mTxState (tx e)). pose proof Hh as (->&_).
  apply (tx_next_step send_ack k n p q R e1); done.
Qed.

(** A fragment that only acknowledges. *)
Definition ack_frag (n q : Z) : fragment := mkFrag FAckOnly false (ack_of true n) (u8 q) [].

Lemma send_alone k n p q b e :
  rx_at k n (rx e) → k < n → tx_at p q (tx e) → p <= q → wf_chain [b] →
  CHIP_CONFIG_BLE_PKT_RESERVED_SIZE <= pb_payload b → pb_payload b + 3 <= AllocSize b →
  ∃ e' b', EncodeStandAloneAck b [] e = Returns (CHIP_NO_ERROR, e', [b']) ∧ buf_data b' = encode (ack_frag n q) ∧
    acked true k n (rx e) (rx e') ∧ tx_at p (q + 1) (tx e') ∧ same_message (tx e) (tx e').
Proof.
  intros Hr Hk Ht Hpq Hwf Hres Hroom. destruct (single_wf_inv b Hwf) as [Hb Hbs].
  unfold EncodeStandAloneAck, EnsureReservedSize. rewrite ReservedSize_wf by done.
  rewrite (proj2 (Z.leb_le _ _)) by done. cbn [obind negb]. rewrite MaxDataLength_wf by done.
  change kTransferProtocolStandaloneAckHeaderSize with (Z.of_nat 3). rewrite (proj2 (Z.ltb_ge _ _)) by lia. cbn zeta.
  pose proof Hb as (Hb1&Hb2&Hb3&Hb4&Hb5).
  destruct (split_at (pb_mem b) (Z.to_nat (pb_payload b)) 3) as (A&X&U&Hm&HA&HX); [unfold AllocSize in *; lia|].
  destruct X as [|x0 [|x1 [|x2 [|]]]]; try done. cbn [app] in Hm.
  assert (HS : Start b = Z.of_nat (length A)) by (unfold Start; lia). rewrite HS.
  rewrite (put_byte_at A (x0 :: x1 :: x2 :: U) _ _ 0) by (done || cbn; lia). cbn [obind insert list_insert].
  destruct (record_at k n (rx e) Hr Hk) as (r'&->&Hr'&Hrs).
  rewrite (put_byte_at A (kFragmentAck :: x1 :: x2 :: U) _ _ 1) by (done || cbn; lia). cbn [obind insert list_insert].
  destruct (send_at p q (tx e) Ht Hpq) as (t'&->&Ht'&Hts).
  rewrite (put_byte_at A (kFragmentAck :: u8 (n - 1) :: x2 :: U) _ _ 2) by (done || cbn; lia). cbn [obind insert list_insert].
  rewrite Hbs. unfold pbset_mem. cbn [sbuf pb_mem pb_payload pb_tot_len pb_len pb_ref].
  set (mem := A ++ _). fold (sbuf mem (pb_payload b) (pb_len b) (pb_ref b)).
  assert (Hml : Z.of_nat (length mem) = AllocSize b)
    by (unfold mem, AllocSize; rewrite Hm, !length_app; cbn; lia).
  rewrite SetDataLength_single; [|apply sbuf_wf; rewrite ?Hml; done|rewrite Hml; lia].
  eexists _, _. split; [done|]. split; [|done]. unfold buf_data. cbn [sbuf pb_mem pb_payload pb_len].
  replace (pb_payload b) with (Z.of_nat (length A)) by lia.
  unfold mem. change (kFragmentAck :: u8 (n - 1) :: u8 q :: U) with ([kFragmentAck; u8 (n - 1); u8 q] ++ U).
  by rewrite slice_mid by (cbn; lia).
Qed.

End Send.
