(* ===== verification/BtpReceive.v ===== *)
(** * Bluetooth transport protocol: receiving

    What the engine does with a fragment that was sent to it, and with any bytes at all. *)

From S2P Require Import Prelude.
From S2P Require Import COutcome.
From S2P Require Import ChipError.
From S2P Require Import Endian.
From S2P Require Import BufferReader.
From S2P Require Import PacketBuffer.
From S2P Require Import PacketBufferSpec.
From S2P Require Import Btp.
From S2P Require Import BtpWindow.
From S2P Require Import BtpSend.

Section Receive.
Context `{PbufBounds} `{BtpConfig}.
Context (MemoryAlloc : Z → option (list Z)).

(** ** The reassembler *)

(** The length announced and the bytes received of the message that is being received. *)
Definition rx_holds (st : option (Z * list Z)) (r : BtpRx) : Prop :=
  match st with
  | None => mRxState r = kState_Idle ∧ mRxBuf r = []
  | Some (len, acc) =>
      mRxState r = kState_InProgress ∧ mRxLength r = len ∧
      ∃ b, mRxBuf r = [b] ∧ wf_chain [b] ∧ AllocSize b = kMaxSize + kDefaultHeaderReserve ∧ buf_data b = acc
  end.

(** A whole message is there. *)
Definition rx_done (m : list Z) (r : BtpRx) : Prop :=
  mRxState r = kState_Complete ∧ ∃ b, mRxBuf r = [b] ∧ wf_chain [b] ∧ buf_data b = m.

Definition rx_after (last : bool) (len : Z) (acc : list Z) (r : BtpRx) : Prop :=
  if last then rx_done acc r else rx_holds (Some (len, acc)) r.

Definition same_rx_numbers (r r' : BtpRx) : Prop :=
  mRxNextSeqNum r' = mRxNextSeqNum r ∧ mRxNewestUnackedSeqNum r' = mRxNewestUnackedSeqNum r ∧
  mRxOldestUnackedSeqNum r' = mRxOldestUnackedSeqNum r ∧ mRxFragmentSize r' = mRxFragmentSize r.

Lemma same_rx_at k n r r' : same_rx_numbers r r' → rx_at k n r → rx_at k n r'.
Proof. intros (Hn&Hw&Ho&_). unfold rx_at. by rewrite Hn, Hw, Ho. Qed.

Lemma rx_exit_ok e data a did : rx_exit CHIP_NO_ERROR e data a did = Returns (mkRxResult CHIP_NO_ERROR e data a did).
Proof. done. Qed.

Lemma AddToEnd_pair b d :
  wf_chain [b] → wf_chain [d] → ∃ b', AddToEnd [b] [d] = Returns [b'; d] ∧ wf_chain [b'; d] ∧
    buf_data b' = buf_data b ∧ AllocSize b' = AllocSize b ∧ pb_len b' = pb_len b.
Proof.
  intros Hb Hd. pose proof max_alloc_bound. pose proof size_pow. unfold kUINT16_MAX in *.
  assert (Hlb : chain_len [b] <= 65535 ∧ chain_len [d] <= 65535).
  { split; [destruct (single_wf_inv b Hb) as [Hw _]|destruct (single_wf_inv d Hd) as [Hw _]];
      rewrite chain_len_cons by done; change (chain_len []) with 0; unfold wf_buf in Hw; lia. }
  assert (Hl : chain_len [b] + chain_len [d] < 2 ^ SIZE_BITS) by lia.
  cbn [AddToEnd]. rewrite (wf_chain_tot d []) by done. rewrite add_loop_step by done. cbn [map app].
  eexists. split; [done|]. destruct (wf_chain_app [b] [d] Hb Hd Hl) as [Hw _]. done.
Qed.

(** A fragment that fits is put behind what is there. *)
Lemma rx_append_step e len acc d :
  rx_holds (Some (len, acc)) (rx e) → wf_chain [d] → pb_ref d = 1 →
  Z.of_nat (length acc) + pb_len d <= kMaxSize + kDefaultHeaderReserve →
  Z.of_nat (length acc) < kMaxSize + kDefaultHeaderReserve →
  ∃ b, rx_append e [d] = Returns (CHIP_NO_ERROR, on_rx (set_mRxBuf [b]) e) ∧
    rx_holds (Some (len, acc ++ buf_data d)) (set_mRxBuf [b] (rx e)).
Proof.
  intros (Hst&Hlen&b&Hbuf&Hwf&Ha&<-) Hd Hr Hfit Hroom. unfold rx_append. rewrite Hbuf.
  destruct (single_wf_inv b Hwf) as [Hb _]. pose proof (buf_data_length b Hb) as Hbl.
  destruct (AddToEnd_pair b d Hwf Hd) as (b1&->&Hw1&Hd1&Ha1&Hl1). cbn [obind].
  destruct (CompactHead_pair b1 d Hw1 Hr) as (b2&->&Hw2&Hd2&_&Ha2&_); [lia..|]. cbn [obind].
  exists b2. split; [done|]. split_and!; try done. exists b2. split_and!; try done; [lia|by rewrite Hd2, Hd1].
Qed.

Lemma rx_finish_step flags e len acc d a did :
  rx_holds (Some (len, acc)) (rx e) → wf_chain [d] → pb_ref d = 1 →
  Z.of_nat (length acc) + pb_len d <= kMaxSize + kDefaultHeaderReserve →
  Z.of_nat (length acc) < kMaxSize + kDefaultHeaderReserve →
  (Has flags kEndMessage = true → Z.of_nat (length (acc ++ buf_data d)) = len) →
  ∃ r, rx_finish flags e [d] a did = Returns (mkRxResult CHIP_NO_ERROR (mkBtp r (tx e)) [] a did) ∧
    same_rx_numbers (rx e) r ∧ rx_after (Has flags kEndMessage) len (acc ++ buf_data d) r.
Proof.
  intros Hh Hd Hr Hfit Hroom Hend. unfold rx_finish.
  destruct (rx_append_step e len acc d Hh Hd Hr Hfit Hroom) as (b&->&Hh'). cbn [obind]. rewrite decide_True by done.
  unfold rx_end. destruct (Has flags kEndMessage) eqn:Hfl.
  - specialize (Hend eq_refl). destruct Hh' as (Hst&Hlen&b'&Hbuf&Hwf&Ha&Hbd). injection Hbuf as <-.
    destruct (single_wf_inv b Hwf) as [Hb _]. pose proof (buf_data_length b Hb) as Hbl. rewrite Hbd, Hend in Hbl.
    pose proof max_alloc_bound. unfold kUINT16_MAX in *. pose proof Hb as (Hb1&Hb2&Hb3&Hb4&_).
    cbn [rx mRxBuf set_mRxBuf on_rx mRxLength] in Hlen |- *. unfold DataLength. unfold kUINT16_MAX. rewrite (proj2 (Z.ltb_ge _ _)) by lia.
    rewrite u16_id by solve_width. rewrite (proj2 (Z.ltb_ge _ _)) by lia.
    cbn [rx mRxBuf set_mRxBuf on_rx mRxLength obind]. rewrite (proj2 (Z.eqb_eq _ _)) by lia. cbn [negb obind].
    rewrite rx_exit_ok. eexists. split; [done|]. split; [done|]. split; [done|]. by exists b.
  - cbn [obind]. rewrite rx_exit_ok. eexists. split; [done|]. split; [done|]. exact Hh'.
Qed.

(** ** Fragments *)

(** The bounds of the build, and an allocator that has memory for a reassembly buffer. *)
Context (max_size_pos : 0 < kMaxSize) (reserve_pos : in_u16 kDefaultHeaderReserve)
  (max_size_bound : kMaxSize + kDefaultHeaderReserve <= kMaxAllocSize).
Context (alloc_ok : ∀ n, 0 <= n <= kMaxAllocSize → ∃ m, MemoryAlloc n = Some m ∧ Z.of_nat (length m) = n).

Lemma New_ok avail reserved :
  0 <= avail → in_u16 reserved → avail + reserved <= kMaxAllocSize →
  ∃ m, New MemoryAlloc avail reserved = [sbuf m reserved 0 1] ∧ Z.of_nat (length m) = avail + reserved ∧
    wf_chain [sbuf m reserved 0 1].
Proof.
  intros Ha Hr Hs. destruct (alloc_ok (avail + reserved)) as (m&Hm&Hl); [solve_width|].
  pose proof max_alloc_bound. pose proof structure_bound. pose proof size_pow. unfold New, kUINT16_MAX, kUINT32_MAX in *.
  rewrite (proj2 (Z.ltb_ge _ avail)) by solve_width. rewrite !u64_id by solve_width.
  rewrite (proj2 (Z.ltb_ge (2 ^ SIZE_BITS - 1) _)) by solve_width. rewrite (proj2 (Z.ltb_ge _ (avail + reserved))) by lia. rewrite Hm.
  exists m. split_and!; [done|done|]. apply single_wf; [|done]. apply sbuf_wf; unfold kUINT16_MAX; solve_width.
Qed.

(** What the reassembler has after a fragment with data that it accepts. *)
Definition accept (st : option (Z * list Z)) (f : fragment) : option (Z * list Z) :=
  match fr_kind f, st with
  | FStart len, None => Some (len, fr_data f)
  | FContinue, Some (len, acc) => Some (len, acc ++ fr_data f)
  | _, _ => None
  end.

(** The length of the message fits in its two bytes, a fragment that continues has data, and
    the last one completes the message. *)
Definition sound (st : option (Z * list Z)) (f : fragment) : Prop :=
  match accept st f with
  | Some (len, acc) =>
      in_u16 len ∧ Z.of_nat (length acc) <= kMaxSize + kDefaultHeaderReserve ∧
      (fr_end f = true → Z.of_nat (length acc) = len) ∧ (fr_kind f = FContinue → fr_data f ≠ [])
  | None => False
  end.

Lemma frag_has_start f : Has (frag_flags f) kStartMessage = match fr_kind f with FStart _ => true | _ => false end.
Proof. destruct f as [[] [] [] ? ?]; done. Qed.
Lemma frag_has_continue f : Has (frag_flags f) kContinueMessage = match fr_kind f with FContinue => true | _ => false end.
Proof. destruct f as [[] [] [] ? ?]; done. Qed.
Lemma frag_has_end f : Has (frag_flags f) kEndMessage = fr_end f.
Proof. destruct f as [[] [] [] ? ?]; done. Qed.
Lemma frag_has_ack f : Has (frag_flags f) kFragmentAck = bool_decide (is_Some (fr_ack f)).
Proof. destruct f as [[] [] [] ? ?]; done. Qed.

Definition kind_bytes (f : fragment) : list Z :=
  match fr_kind f with FStart len => [len mod 256; len / 256] | _ => [] end.

Lemma consume_single n b :
  wf_chain [b] → 0 <= n <= pb_len b →
  wf_chain [ConsumeHead n b] ∧ buf_data (ConsumeHead n b) = drop (Z.to_nat n) (buf_data b) ∧
  pb_ref (ConsumeHead n b) = pb_ref b.
Proof.
  intros Hwf Hn. destruct (single_wf_inv b Hwf) as [Hb _]. pose proof (buf_data_length b Hb) as Hbl.
  pose proof (ConsumeHead_step b [] n Hwf ltac:(lia)) as Hst. rewrite Z.min_l in Hst by lia.
  destruct (head_step_chain _ _ _ _ Hwf Hst) as [Hw _].
  { rewrite length_drop. change (chain_len []) with 0. pose proof size_pow. pose proof max_alloc_bound.
    unfold wf_buf, kUINT16_MAX in *. lia. }
  split_and!; [done|apply Hst|]. unfold ConsumeHead. by cbn.
Qed.

Lemma read_length len D :
  in_u16 len → Z.of_nat (length (len mod 256 :: len / 256 :: D)) <= 0xFFFF →
  ∃ rd, Reader_Read16 (Reader_new (len mod 256 :: len / 256 :: D)) = (Some len, rd) ∧ OctetsRead rd = 2.
Proof.
  intros Hlen HD. set (buf := _ :: _ :: D) in *. pose proof (RawRead_at buf 0 2 _ (Reader_new_at _) HD) as Hrd.
  rewrite (proj2 (Z.ltb_ge _ _)) in Hrd by (unfold buf; cbn [length]; lia). destruct Hrd as (rd&E&_&_&Hor&_&_).
  exists rd. split; [|exact Hor]. unfold Reader_Read16. rewrite E. do 2 f_equal. unfold buf. rewrite drop_0. cbn [take le_decode].
  change (2 ^ 8) with 256. rewrite take_0. cbn [le_decode]. pose proof (Z.div_mod len 256 ltac:(lia)). lia.
Qed.

Lemma rx_reassemble_step f e b st len acc a did :
  wf_chain [b] → pb_ref b = 1 → buf_data b = kind_bytes f ++ fr_data f → rx_holds st (rx e) →
  sound st f → accept st f = Some (len, acc) →
  ∃ r, rx_reassemble MemoryAlloc (frag_flags f) e b [] a did = Returns (mkRxResult CHIP_NO_ERROR (mkBtp r (tx e)) [] a did) ∧
    same_rx_numbers (rx e) r ∧ rx_after (fr_end f) len acc r.
Proof.
  intros Hwf Href Hbd Hh Hs Hacc. unfold sound in Hs. rewrite Hacc in Hs. destruct Hs as (Hlen&Hcap&Hend&Hne).
  destruct (single_wf_inv b Hwf) as [Hb _]. pose proof (buf_data_length b Hb) as Hbl.
  unfold rx_reassemble, accept, kind_bytes in *. destruct (fr_kind f) as [l| |] eqn:Ek; [| |done].
  - destruct st; [done|]. injection Hacc as -> <-. destruct Hh as [Hst Hbuf]. rewrite Hst.
    unfold Start, DataLength. rewrite (read_data b (pb_len b)) by (done || unfold wf_buf in Hb; lia). cbn [obind].
    rewrite take_ge by lia. rewrite frag_has_start, Ek. cbn [negb]. rewrite Hbd in Hbl |- *. cbn [app] in Hbl |- *.
    pose proof max_alloc_bound. unfold kUINT16_MAX in *. pose proof Hb as (Hb1&Hb2&Hb3&Hb4&_).
    destruct (read_length len (fr_data f)) as (rd&->&Hor); [done|lia|]. rewrite Hor.
    change (u16 2) with 2. cbn zeta. cbn [rx on_rx mRxBuf set_mRxState set_mRxLength].
    rewrite Hbuf. cbn [Free obind].
    destruct (New_ok kMaxSize kDefaultHeaderReserve) as (m&->&Hm&Hmw); [lia|done|done|].
    cbn [rx on_rx mRxBuf set_mRxBuf].
    destruct (consume_single 2 b Hwf) as (Hcw&Hcd&Hcr); [cbn [length] in Hbl; lia|]. rewrite Hbd in Hcd. cbn [Z.to_nat Pos.to_nat Pos.iter_op app drop] in Hcd.
    change (drop (Z.to_nat 2) (len mod 256 :: len / 256 :: fr_data f)) with (fr_data f) in Hcd.
    destruct (single_wf_inv _ Hcw) as [Hcb _]. pose proof (buf_data_length _ Hcb) as Hcl. rewrite Hcd in Hcl.
    edestruct (rx_finish_step (frag_flags f) (on_rx (set_mRxBuf [sbuf m kDefaultHeaderReserve 0 1])
      (on_rx (λ r, set_mRxState kState_InProgress (set_mRxLength len r)) e)) len [] (ConsumeHead 2 b) a did)
      as (r&E&Hsn&Haf).
    { split_and!; try done. eexists. split_and!; [done|done|unfold AllocSize; cbn; lia|]. unfold buf_data, slice. cbn. by rewrite take_0. }
    { done. } { by rewrite Hcr. } { cbn [length]. lia. } { cbn [length]. solve_width. }
    { rewrite frag_has_end, Hcd. exact Hend. }
    exists r. rewrite Hcd, frag_has_end in Haf. done.
  - destruct st as [[l0 acc0]|]; [|done]. injection Hacc as -> <-. cbn [app] in Hbd. pose proof Hh as (->&_).
    rewrite frag_has_start, frag_has_continue, Ek. cbn [orb negb].
    specialize (Hne eq_refl). rewrite length_app in Hcap. assert (length (fr_data f) ≠ 0%nat) by (by destruct (fr_data f)).
    destruct (rx_finish_step (frag_flags f) e len acc0 b a did) as (r&E&Hsn&Haf); try done; try (rewrite Hbd in Hbl; lia).
    { by rewrite frag_has_end, Hbd. }
    exists r. by rewrite <- frag_has_end, <- Hbd.
Qed.

Lemma Read8_at buffer k x r :
  reads_at buffer k r → Z.of_nat (length buffer) <= 0xFFFF → buffer !! k = Some x →
  ∃ r', Reader_Read8 r = (Some x, r') ∧ reads_at buffer (k + 1) r'.
Proof.
  intros Hr Hl Hk. pose proof (lookup_lt_Some _ _ _ Hk). pose proof (RawRead_at buffer k 1 r Hr Hl) as Hrd.
  rewrite (proj2 (Z.ltb_ge _ _)) in Hrd by lia. destruct Hrd as (r'&E&Hr'). exists r'. split; [|done].
  unfold Reader_Read8. rewrite E. do 2 f_equal. rewrite (drop_S _ _ _ Hk). cbn. rewrite take_0. cbn. lia.
Qed.

(** An acknowledgement of a fragment between [p] and [q], which is then the oldest one but
    for [p'], or none. *)
Definition acks (ack : option Z) (p q p' : Z) : Prop :=
  match ack with Some a => a = u8 (p' - 1) ∧ p < p' <= q | None => p' = p end.

Lemma rx_ack_step f e rd a0 p q p' :
  reads_at (encode f) 1 rd → Z.of_nat (length (encode f)) <= 0xFFFF → tx_at p q (tx e) → q <= p + 256 → acks (fr_ack f) p q p' →
  ∃ t rd' a, rx_ack (bool_decide (is_Some (fr_ack f))) e rd a0 = (CHIP_NO_ERROR, mkBtp (rx e) t, rd', a) ∧
    tx_at p' q t ∧ same_message (tx e) t ∧
    reads_at (encode f) (if bool_decide (is_Some (fr_ack f)) then 2 else 1) rd'.
Proof.
  intros Hrd Hl Ht Hq Hack. unfold rx_ack. destruct (fr_ack f) as [a|] eqn:Ef.
  - destruct Hack as [-> Hp']. rewrite bool_decide_true by eauto.
    destruct (Read8_at (encode f) 1 (u8 (p' - 1)) rd Hrd Hl) as (rd'&->&Hrd').
    { unfold encode, frag_head. by rewrite Ef. }
    destruct (ack_at p q (tx e) (p' - 1) Ht) as (t&->&Ht'&Hs); [lia..|]. replace (p' - 1 + 1) with p' in Ht' by lia.
    exists t, rd', (u8 (p' - 1)). split_and!; done.
  - rewrite bool_decide_false by (by intros [? ?]). cbn in Hack. subst p'. exists (tx e), rd, a0. destruct e. split_and!; done.
Qed.

Lemma DidReceiveData_frag f : fr_kind f ≠ FAckOnly → DidReceiveData (frag_flags f) = true.
Proof. destruct f as [[] [] [] ? ?]; done. Qed.

Lemma DidReceiveData_ack f : fr_kind f = FAckOnly → fr_end f = false → DidReceiveData (frag_flags f) = false.
Proof. destruct f as [[] [] [] ? ?]; done. Qed.

(** What a fragment with the expected number does. *)
Definition receives (f : fragment) (st : option (Z * list Z)) (k n p q : Z) (e e' : BtpEngine) : Prop :=
  tx_at p q (tx e') ∧ same_message (tx e) (tx e') ∧ rx_at k (n + 1) (rx e') ∧
  mRxFragmentSize (rx e') = mRxFragmentSize (rx e) ∧
  match accept st f with
  | Some (len, acc) => rx_after (fr_end f) len acc (rx e')
  | None => rx_holds st (rx e')
  end.

Lemma rx_sequence_step f e b st k n p q rd a :
  wf_chain [b] → pb_ref b = 1 → buf_data b = encode f → Z.of_nat (length (encode f)) <= mRxFragmentSize (rx e) →
  in_u16 (mRxFragmentSize (rx e)) → rx_at k n (rx e) → k <= n → tx_at p q (tx e) → fr_seq f = u8 n → rx_holds st (rx e) →
  match fr_kind f with FAckOnly => fr_end f = false | _ => sound st f end →
  reads_at (encode f) (if bool_decide (is_Some (fr_ack f)) then 2 else 1) rd →
  ∃ e' data', rx_sequence MemoryAlloc (frag_flags f) e rd b [] a (bool_decide (is_Some (fr_ack f))) =
    Returns (mkRxResult CHIP_NO_ERROR e' data' a (bool_decide (is_Some (fr_ack f)))) ∧ receives f st k n p q e e'.
Proof.
  intros Hwf Href Hbd Hfs Hfs' Hr Hkn Ht Hseq Hh Hs Hrd. destruct (single_wf_inv b Hwf) as [Hb Hbs].
  pose proof (buf_data_length b Hb) as Hbl. unfold rx_sequence. set (c := if bool_decide _ then 2%nat else 1%nat) in *.
  destruct (Read8_at (encode f) c (u8 n) rd Hrd ltac:(solve_width)) as (rd'&->&Hrd').
  { unfold c, encode, frag_head. rewrite <- Hseq. by destruct (fr_ack f). }
  cbn zeta. destruct Hr as (Hr1&Hr2&Hr3).
  set (e1 := on_rx (set_mRxNewestUnackedSeqNum (u8 n)) e).
  change (mRxNewestUnackedSeqNum (rx e1)) with (u8 n). change (mRxNextSeqNum (rx e1)) with (mRxNextSeqNum (rx e)).
  rewrite Hr1, Z.eqb_refl. cbn [negb]. set (e2 := on_rx _ e1).
  assert (Hr' : rx_at k (n + 1) (rx e2)).
  { unfold e2, e1, rx_at. cbn. rewrite Hr1, IncSeqNum_u8. split_and!; try done. intros _. f_equal. lia. }
  assert (Hsm : same_reassembly (rx e) (rx e2)) by done. change (tx e) with (tx e2) in Ht.
  destruct (decide (fr_kind f = FAckOnly)) as [Ek|Ek].
  { rewrite Ek in Hs. rewrite DidReceiveData_ack by done. cbn [negb]. rewrite rx_exit_ok. eexists _, _. split; [done|].
    split_and!; try done. unfold accept. rewrite Ek. by destruct st as [[? ?]|]. }
  rewrite DidReceiveData_frag by done. cbn [negb]. destruct Hrd' as (_&_&Hor&_&_).
  assert (Hcl : (c + 1 + length (kind_bytes f) + length (fr_data f) = length (encode f))%nat).
  { unfold c, encode, frag_head, kind_bytes. destruct (fr_ack f); cbn; rewrite length_app; lia. }
  unfold OctetsRead. rewrite Hor. change (mRxFragmentSize (rx e2)) with (mRxFragmentSize (rx e)).
  rewrite (proj2 (Z.ltb_ge _ _)) by lia. unfold DataLength. rewrite Z.min_l by (rewrite Hbd in Hbl; lia).
  assert ((SetDataLength (pb_len b) 0 [b]).1 = [b]) as ->.
  { rewrite Hbs at 2. rewrite SetDataLength_single by (rewrite <- ?Hbs; try done; unfold wf_buf, AllocSize in Hb; lia). by rewrite <- Hbs. }
  rewrite u16_id by solve_width.
  destruct (consume_single (Z.of_nat (c + 1)) b Hwf) as (Hcw&Hcd&Hcr); [rewrite Hbd in Hbl; lia|].
  assert (sound st f) as Hs2 by (by destruct (fr_kind f)). destruct (accept st f) as [[len acc]|] eqn:Eacc.
  2:{ unfold sound in Hs2. by rewrite Eacc in Hs2. }
  destruct (rx_reassemble_step f e2 (ConsumeHead (Z.of_nat (c + 1)) b) st len acc a (bool_decide (is_Some (fr_ack f))))
    as (r&E&Hsn&Haf); try done.
  { rewrite Hcd, Hbd, Nat2Z.id. unfold c, encode, frag_head, kind_bytes. by destruct (fr_ack f). }
  rewrite E. eexists _, _. split; [done|]. split_and!; try done; cbn [rx tx]; [by eapply same_rx_at|apply Hsn|by rewrite Eacc].
Qed.

(** A fragment that was sent to this engine is accepted. *)
Lemma receive_step f e b st k n p q p' a0 did0 :
  wf_chain [b] → pb_ref b = 1 → buf_data b = encode f → Z.of_nat (length (encode f)) <= mRxFragmentSize (rx e) →
  in_u16 (mRxFragmentSize (rx e)) → rx_at k n (rx e) → k <= n → tx_at p q (tx e) → q <= p + 256 → acks (fr_ack f) p q p' →
  fr_seq f = u8 n → rx_holds st (rx e) →
  match fr_kind f with FAckOnly => fr_end f = false | _ => sound st f end →
  ∃ e' data' a, HandleCharacteristicReceived MemoryAlloc [b] a0 did0 e =
    Returns (mkRxResult CHIP_NO_ERROR e' data' a (bool_decide (is_Some (fr_ack f)))) ∧ receives f st k n p' q e e'.
Proof.
  intros Hwf Href Hbd Hfs Hfs' Hr Hkn Ht Hq Hack Hseq Hh Hs. destruct (single_wf_inv b Hwf) as [Hb _].
  pose proof (buf_data_length b Hb) as Hbl. unfold HandleCharacteristicReceived. unfold Start, DataLength.
  rewrite (read_data b (pb_len b)) by (done || unfold wf_buf in Hb; lia). rewrite take_ge by lia. cbn [obind]. rewrite Hbd.
  set (e1 := on_rx _ e). assert (Hl : Z.of_nat (length (encode f)) <= 0xFFFF) by solve_width.
  destruct (Read8_at (encode f) 0 (frag_flags f) _ (Reader_new_at _) Hl eq_refl) as (rd&->&Hrd). rewrite frag_has_ack.
  destruct (rx_ack_step f e1 rd a0 p q p' Hrd Hl Ht Hq Hack) as (t&rd'&a&->&Ht'&Hsm&Hrd'). cbn iota. rewrite decide_True by done.
  destruct (rx_sequence_step f (mkBtp (rx e1) t) b st k n p' q rd' a) as (e'&data'&->&Hrc); try done.
  exists e', data', a. split; [done|]. destruct Hrc as (?&Hsm'&?&?&?). split_and!; try done.
  unfold same_message in *. change (tx e1) with (tx e) in *. cbn [tx] in *. destruct Hsm as (?&?&?&?), Hsm' as (?&?&?&?). split_and!; congruence.
Qed.

End Receive.
