(* ===== verification/BtpSafe.v ===== *)
(** * Bluetooth transport protocol: any bytes from the peer

    The receiver on arbitrary characteristics: it returns, stays inside its buffers, and
    either accepts the fragment or goes to its error state. *)

From S2P Require Import Prelude.
From S2P Require Import COutcome.
From S2P Require Import ChipError.
From S2P Require Import Endian.
From S2P Require Import BufferReader.
From S2P Require Import PacketBuffer.
From S2P Require Import PacketBufferSpec.
From S2P Require Import PacketBufferThm.
From S2P Require Import Btp.
From S2P Require Import BtpWindow.
From S2P Require Import BtpSend.
From S2P Require Import BtpReceive.

Section Safe.
Context `{PbufBounds} `{BtpConfig}.
Context (MemoryAlloc : Z → option (list Z)).
Context (alloc_size_ok : ∀ n m, MemoryAlloc n = Some m → Z.of_nat (length m) = n).
Context (max_size_pos : 0 <= kMaxSize) (reserve_pos : in_u16 kDefaultHeaderReserve).

(** The reassembly buffer is well-formed, and one buffer while a message is received. *)
Definition rx_wf (r : BtpRx) : Prop :=
  wf_chain (mRxBuf r) ∧ (mRxState r = kState_InProgress → ∃ b, mRxBuf r = [b]) ∧
  in_u16 (mRxLength r) ∧ in_u16 (mRxFragmentSize r).

(** A characteristic: bytes in buffers that no one else holds. *)
Definition characteristic_ok (data : list pbuf) : Prop :=
  wf_chain data ∧ Forall (λ b, pb_ref b = 1) data ∧ is_bytes (chain_data data).

Definition rx_good (e : BtpEngine) (res : rx_result) : Prop :=
  rx_wf (rx (res_engine res)) ∧ wf_chain (res_data res) ∧ same_rx_numbers (rx e) (rx (res_engine res)) ∧
  (res_err res ≠ CHIP_NO_ERROR → mRxState (rx (res_engine res)) = kState_Error).

Lemma same_rx_trans r1 r2 r3 : same_rx_numbers r1 r2 → same_rx_numbers r2 r3 → same_rx_numbers r1 r3.
Proof. unfold same_rx_numbers. intros (?&?&?&?) (?&?&?&?). split_and!; congruence. Qed.

Lemma exit_error err e data a did :
  err ≠ CHIP_NO_ERROR → wf_chain (mRxBuf (rx e)) → in_u16 (mRxLength (rx e)) → in_u16 (mRxFragmentSize (rx e)) →
  wf_chain data → chain_len (mRxBuf (rx e)) + chain_len data < 2 ^ SIZE_BITS →
  ∃ res, rx_exit err e data a did = Returns res ∧ rx_good e res ∧ res_err res = err.
Proof.
  intros Herr Hb Hl Hf Hd Hlen. unfold rx_exit. rewrite decide_False by done.
  pose proof wf_null as Hnull. destruct data as [|d data].
  { eexists. split; [done|]. split; [|done]. split_and!; try done. }
  cbn [rx on_rx mRxBuf set_mRxState]. destruct (mRxBuf (rx e)) as [|b buf] eqn:Eb.
  { eexists. split; [done|]. split; [|done]. split_and!; try done. }
  destruct (AddToEnd_step (b :: buf) (d :: data)) as (bs&->&Hw&_); [done|done|by right|done|].
  eexists. split; [done|]. split; [|done]. split_and!; try done.
Qed.

Lemma exit_good err e data a did :
  rx_wf (rx e) → wf_chain data → chain_len (mRxBuf (rx e)) + chain_len data < 2 ^ SIZE_BITS →
  ∃ res, rx_exit err e data a did = Returns res ∧ rx_good e res ∧ res_err res = err.
Proof.
  intros (Hb&Hs&Hl&Hf) Hd Hlen. destruct (decide (err = CHIP_NO_ERROR)) as [->|Herr]; [|by apply exit_error].
  rewrite rx_exit_ok. eexists. split; [done|]. split; [|done]. split_and!; try done.
Qed.

Lemma append_safe e data b :
  mRxBuf (rx e) = [b] → wf_chain [b] → characteristic_ok data → data ≠ [] → chain_len [b] + chain_len data < 2 ^ SIZE_BITS →
  ∃ err buf, rx_append e data = Returns (err, on_rx (set_mRxBuf buf) e) ∧ wf_chain buf ∧
    (err = CHIP_NO_ERROR → ∃ b', buf = [b']).
Proof.
  intros Hbuf Hb (Hd&Hrefs&_) Hne Hlen. unfold rx_append. rewrite Hbuf. destruct data as [|d data]; [done|].
  cbn [AddToEnd]. rewrite (wf_chain_tot d data) by done. rewrite add_loop_step by done. cbn [map app obind].
  destruct (wf_chain_app [b] (d :: data) Hb Hd Hlen) as [Hw _]. cbn [map app] in Hw.
  destruct (CompactHead_step _ _ Hw) as [[_ []]|(b'&rest&->&Hw'&_)]; [done|]. cbn [obind drop].
  eexists _, (b' :: rest). split; [done|]. split; [done|]. unfold HasChainedBuffer. rewrite drop_0.
  destruct (decide (rest = [])) as [->|]; [by eauto|]. rewrite bool_decide_false by done. done.
Qed.

Lemma end_safe flags e b :
  mRxBuf (rx e) = [b] → wf_chain [b] → in_u16 (mRxLength (rx e)) → in_u16 (mRxFragmentSize (rx e)) →
  ∃ err e', rx_end flags e = Returns (err, e') ∧ rx_wf (rx e') ∧ same_rx_numbers (rx e) (rx e').
Proof.
  intros Hbuf Hwf Hl Hf. destruct (single_wf_inv b Hwf) as [Hb Hbs]. pose proof max_alloc_bound. pose proof Hb as (Hb1&Hb2&Hb3&Hb4&_).
  unfold rx_end. destruct (Has flags kEndMessage); cycle 1.
  { eexists _, e. split; [done|]. split; [|done]. split_and!; [by rewrite Hbuf|eauto|done|done]. }
  rewrite Hbuf. unfold DataLength, kUINT16_MAX in *. rewrite (proj2 (Z.ltb_ge _ _)) by lia. rewrite u16_id by solve_width.
  cbn zeta. destruct (Z.ltb_spec 0 (pb_len b - mRxLength (rx e))).
  - assert ((SetDataLength (mRxLength (rx e)) 0 [b]).1 = [sbuf (pb_mem b) (pb_payload b) (mRxLength (rx e)) (pb_ref b)]) as ->.
    { rewrite Hbs at 1. apply SetDataLength_single; [by rewrite <- Hbs|]. unfold AllocSize in *. solve_width. }
    cbn [rx on_rx mRxLength set_mRxBuf sbuf pb_len]. rewrite Z.eqb_refl. cbn [negb]. eexists _, _. split; [done|].
    split; [|done]. split_and!; try done. cbn. apply single_wf; [|done]. apply sbuf_wf; unfold AllocSize, kUINT16_MAX in *; try solve_width; apply Hb.
  - cbn [rx on_rx mRxLength set_mRxBuf]. destruct (negb _); eexists _, _; (split; [done|]); (split; [|done]); split_and!; try done.
    intros _. by exists b.
Qed.

Lemma finish_safe flags e b data a did :
  mRxBuf (rx e) = [b] → rx_wf (rx e) → characteristic_ok data → data ≠ [] → chain_len [b] + chain_len data < 2 ^ SIZE_BITS →
  ∃ res, rx_finish flags e data a did = Returns res ∧ rx_good e res.
Proof.
  intros Hbuf (Hw&_&Hl&Hf) Hd Hne Hlen. rewrite Hbuf in Hw. unfold rx_finish.
  destruct (append_safe e data b Hbuf Hw Hd Hne Hlen) as (err&buf&->&Hwb&Hone). cbn [obind].
  pose proof wf_null as Hnull. destruct (decide (err = CHIP_NO_ERROR)) as [->|Herr].
  - destruct (Hone eq_refl) as (b'&->).
    destruct (end_safe flags (on_rx (set_mRxBuf [b']) e) b') as (err2&e2&->&Hwf2&Hsn2); try done. cbn [obind].
    destruct (exit_good err2 e2 [] a did Hwf2 Hnull) as (res&->&Hg&_).
    { destruct Hwf2 as ((_&_&Hcl)&_). change (chain_len []) with 0. lia. }
    exists res. split; [done|]. destruct Hg as (?&?&Hsn&?). split; [done|]. split; [done|]. split; [by eapply same_rx_trans|done].
  - unfold rx_exit. rewrite decide_False by done. eexists. split; [done|]. split_and!; try done.
Qed.

Lemma Free_live bs : Forall wf_buf bs → ∃ bs', Free bs = Returns bs'.
Proof.
  induction 1 as [|b bs Hb _ IH]; cbn [Free]; [by eauto|]. unfold verify_or_die.
  rewrite (proj2 (Z.ltb_lt _ _)) by (unfold wf_buf in Hb; lia). destruct (_ =? 0); by eauto.
Qed.

Lemma consume_safe n b rest :
  characteristic_ok (b :: rest) → 0 <= n →
  characteristic_ok (ConsumeHead n b :: rest) ∧ chain_len (ConsumeHead n b :: rest) <= chain_len (b :: rest).
Proof.
  intros (Hwf&Hr&Hby) Hn. pose proof (proj1 (wf_chain_cons b rest) Hwf) as (Hb&_&_&Hs). pose proof (buf_data_length b Hb) as Hbl.
  destruct (head_step_chain _ _ _ rest Hwf (ConsumeHead_step b rest n Hwf Hn)) as [Hw Hd]; [rewrite length_drop; lia|].
  split.
  - apply Forall_cons in Hr as [Hr1 Hr2]. rewrite chain_data_cons, is_bytes_app in Hby. destruct Hby.
    split_and!; [done|by apply Forall_cons|]. rewrite Hd, is_bytes_app. split; [by apply Forall_drop|done].
  - unfold chain_len. rewrite Hd, chain_data_cons, !length_app, length_drop. lia.
Qed.

Lemma reassemble_safe flags e b rest a did :
  rx_wf (rx e) → characteristic_ok (b :: rest) → chain_len (mRxBuf (rx e)) + chain_len (b :: rest) < 2 ^ SIZE_BITS →
  chain_len (b :: rest) <= kUINT32_MAX - kUINT16_MAX →
  ∃ res, rx_reassemble MemoryAlloc flags e b rest a did = Returns res ∧ rx_good e res.
Proof.
  intros Hwf Hd Hlen Hlen2. pose proof Hwf as (Hwb&Hone&Hl&Hf). unfold rx_reassemble.
  assert (Hexit : ∀ err, ∃ res, rx_exit err e (b :: rest) a did = Returns res ∧ rx_good e res).
  { intros err. destruct (exit_good err e (b :: rest) a did Hwf (proj1 Hd) Hlen) as (res&E&Hg&_). eauto. }
  destruct (mRxState (rx e)) eqn:Est; [| |apply Hexit..].
  - pose proof Hd as (Hdw&_&Hby). pose proof (proj1 (wf_chain_cons b rest) Hdw) as (Hb&_). unfold Start, DataLength.
    pose proof (buf_data_length b Hb) as Hbl. pose proof max_alloc_bound. unfold kUINT16_MAX, kUINT32_MAX in *.
    pose proof Hb as (Hb1&Hb2&Hb3&Hb4&_).
    rewrite read_data by (done || lia). cbn [obind]. rewrite take_ge by lia. destruct (negb _); [apply Hexit|].
    pose proof (RawRead_at (buf_data b) 0 2 _ (Reader_new_at _) ltac:(lia)) as Hrd. unfold Reader_Read16.
    destruct (Z.ltb_spec (Z.of_nat (length (buf_data b))) (Z.of_nat 0 + Z.of_nat 2)); [rewrite Hrd; apply Hexit|].
    destruct Hrd as (rd&->&_&_&Hor&_&_). set (len := le_decode _). assert (Hlen' : in_u16 len).
    { rewrite chain_data_cons, is_bytes_app in Hby. destruct Hby as [Hby _].
      pose proof (le_decode_range (take 2 (drop 0 (buf_data b))) ltac:(by apply Forall_take, Forall_drop)) as Hr.
      rewrite drop_0, length_take, Nat.min_l in Hr by lia. exact Hr. }
    unfold OctetsRead. rewrite Hor. change (u16 (Z.of_nat (0 + 2))) with 2. cbn zeta. cbn [rx on_rx mRxBuf set_mRxState set_mRxLength].
    destruct (Free_live (mRxBuf (rx e)) (proj1 Hwb)) as (?&->). cbn [obind].
    destruct (consume_safe 2 b rest Hd ltac:(lia)) as [Hcd Hcl]. pose proof size_pow.
    destruct (New_step MemoryAlloc alloc_size_ok kMaxSize kDefaultHeaderReserve max_size_pos reserve_pos) as [->|(m&Hm&->&Hmw)].
    + cbn [rx on_rx mRxBuf set_mRxBuf]. edestruct exit_error as (res&E&Hg&_); cycle 6; [by eauto|done|apply wf_null|done|done|apply Hcd|].
      cbn. change (chain_len []) with 0. pose proof (chain_len_nonneg (mRxBuf (rx e))). lia.
    + cbn [rx on_rx mRxBuf set_mRxBuf]. edestruct finish_safe as (res&E&Hg); cycle 5; [by exists res|done| |exact Hcd|done|].
      * split_and!; try done; [by apply single_wf|eauto].
      * change (chain_len [mkPbuf m kDefaultHeaderReserve 0 0 1]) with 0. lia.
  - destruct (Hone eq_refl) as (b0&Hb0). repeat (case_match; [apply Hexit|]).
    rewrite Hb0 in Hlen. by apply (finish_safe _ _ b0).
Qed.

(** The engine is well-formed after the call; it is in its error state, or the fragment had
    the sequence number that was expected and the next one is expected now. *)
Definition receives_safely (e : BtpEngine) (res : rx_result) : Prop :=
  rx_wf (rx (res_engine res)) ∧ wf_chain (res_data res) ∧
  (res_err res ≠ CHIP_NO_ERROR → mRxState (rx (res_engine res)) = kState_Error) ∧
  (res_err res = CHIP_NO_ERROR → mRxNextSeqNum (rx (res_engine res)) = IncSeqNum (mRxNextSeqNum (rx e)) ∧
     mRxNewestUnackedSeqNum (rx (res_engine res)) = mRxNextSeqNum (rx e)).

Lemma shorten_safe n b rest :
  characteristic_ok (b :: rest) → 0 <= n <= pb_len b →
  ∃ b', (SetDataLength n 0 (b :: rest)).1 = b' :: rest ∧ characteristic_ok (b' :: rest) ∧
    chain_len (b' :: rest) <= chain_len (b :: rest).
Proof.
  intros (Hwf&Hr&Hby) Hn. pose proof (proj1 (wf_chain_cons b rest) Hwf) as (Hb&Hwr&Ht&Hs). pose proof (chain_len_nonneg rest).
  pose proof Hb as (Hb1&Hb2&Hb3&Hb4&Hb5). cbn [SetDataLength fst]. rewrite MaxDataLength_wf by done. rewrite (proj2 (Z.ltb_ge _ n)) by lia.
  rewrite size_t_id by lia. eexists. split; [done|]. set (b' := pbset_tot_len _ _).
  assert (Hb' : wf_buf b') by (unfold wf_buf, AllocSize in *; cbn; lia).
  assert (Hd' : buf_data b' = take (Z.to_nat n) (buf_data b)).
  { unfold buf_data, slice. cbn. rewrite take_take, Nat.min_l by lia. done. }
  split; [split_and!|].
  - apply (head_replaced b); try done; cbn; lia.
  - apply Forall_cons in Hr as [? ?]. by apply Forall_cons.
  - rewrite chain_data_cons, is_bytes_app in Hby. rewrite chain_data_cons, is_bytes_app, Hd'. destruct Hby. split; [by apply Forall_take|done].
  - rewrite !chain_len_cons by done. cbn. lia.
Qed.

Lemma sequence_safe flags e rd b rest a did k :
  rx_wf (rx e) → characteristic_ok (b :: rest) → chain_len (mRxBuf (rx e)) + chain_len (b :: rest) < 2 ^ SIZE_BITS →
  chain_len (b :: rest) <= kUINT32_MAX - kUINT16_MAX → reads_at (buf_data b) k rd →
  ∃ res, rx_sequence MemoryAlloc flags e rd b rest a did = Returns res ∧ receives_safely e res.
Proof.
  intros Hwf Hd Hlen Hlen2 Hrd. pose proof (proj1 (wf_chain_cons b rest) (proj1 Hd)) as (Hb&_).
  pose proof (buf_data_length b Hb) as Hbl. pose proof Hb as (Hb1&Hb2&Hb3&Hb4&_). pose proof max_alloc_bound. unfold kUINT16_MAX in *.
  unfold rx_sequence.
  assert (Hbad : ∀ err e', err ≠ CHIP_NO_ERROR → rx_wf (rx e') → mRxBuf (rx e') = mRxBuf (rx e) →
    ∃ res, rx_exit err e' (b :: rest) a did = Returns res ∧ receives_safely e res).
  { intros err e' Herr Hwf' Hbuf. destruct (exit_good err e' (b :: rest) a did Hwf' (proj1 Hd)) as (res&->&(?&?&?&?)&Hre); [by rewrite Hbuf|].
    exists res. split; [done|]. split_and!; try done; intros; congruence. }
  pose proof (RawRead_at (buf_data b) k 1 rd Hrd ltac:(lia)) as Hrd'. unfold Reader_Read8.
  destruct (Z.ltb_spec (Z.of_nat (length (buf_data b))) (Z.of_nat k + Z.of_nat 1)).
  { rewrite Hrd'. by apply Hbad. }
  destruct Hrd' as (rd'&->&Hk&_&Hor&_&_). set (sq := le_decode _). cbn zeta.
  set (e1 := on_rx (set_mRxNewestUnackedSeqNum sq) e).
  destruct (Z.eqb_spec (mRxNewestUnackedSeqNum (rx e1)) (mRxNextSeqNum (rx e1))) as [Heq|]; cbn [negb]; [|by apply Hbad].
  set (e2 := on_rx _ e1). destruct (negb (DidReceiveData flags)).
  { rewrite rx_exit_ok. eexists. split; [done|]. split_and!; [done|apply Hd|done|done]. }
  destruct (Z.ltb_spec (mRxFragmentSize (rx e2)) (OctetsRead rd')); [by apply Hbad|].
  destruct (shorten_safe (Z.min (DataLength b) (mRxFragmentSize (rx e2))) b rest Hd) as (b'&->&Hd'&Hl').
  { unfold DataLength. destruct Hwf as (_&_&_&Hf). change (mRxFragmentSize (rx e2)) with (mRxFragmentSize (rx e)). solve_width. }
  destruct (consume_safe (u16 (OctetsRead rd')) b' rest Hd') as [Hc Hcl]; [pose proof (u16_range (OctetsRead rd')); solve_width|].
  destruct (reassemble_safe flags e2 (ConsumeHead (u16 (OctetsRead rd')) b') rest a did) as (res&->&Hg1&Hg2&Hg3&Hg4); try done.
  { change (mRxBuf (rx e2)) with (mRxBuf (rx e)). lia. } { unfold kUINT16_MAX. lia. }
  exists res. split; [done|]. split_and!; try done. intros _. destruct Hg3 as (Hn1&Hn2&_). split; [by rewrite Hn1|rewrite Hn2; exact Heq].
Qed.

Lemma rx_ack_safe buffer k did e rd a :
  reads_at buffer k rd → Z.of_nat (length buffer) <= 0xFFFF →
  ∃ err t rd' a', rx_ack did e rd a = (err, mkBtp (rx e) t, rd', a') ∧ (err = CHIP_NO_ERROR → ∃ k', reads_at buffer k' rd').
Proof.
  intros Hrd Hl. unfold rx_ack. destruct did; [|exists CHIP_NO_ERROR, (tx e), rd, a; destruct e; eauto].
  pose proof (RawRead_at buffer k 1 rd Hrd Hl) as Hr. unfold Reader_Read8. destruct (_ <? _).
  - rewrite Hr. exists CHIP_ERROR_BUFFER_TOO_SMALL, (tx e), (fail_read rd), a. by destruct e.
  - destruct Hr as (rd'&->&Hrd'). destruct (HandleAckReceived _ _) as [err t]. eauto 10.
Qed.

(** C27: Whatever bytes the peer writes, receiving them returns, without an access outside a
    buffer or a failed check; a fragment is accepted only with the sequence number that was
    expected, and otherwise the engine is in its error state. *)
Theorem receive_any_bytes e data a did :
  rx_wf (rx e) → characteristic_ok data → chain_len (mRxBuf (rx e)) + chain_len data < 2 ^ SIZE_BITS →
  chain_len data <= kUINT32_MAX - kUINT16_MAX →
  ∃ res, HandleCharacteristicReceived MemoryAlloc data a did e = Returns res ∧ receives_safely e res.
Proof.
  intros Hwf Hd Hlen Hlen2. unfold HandleCharacteristicReceived.
  assert (Hbad : ∀ err e', err ≠ CHIP_NO_ERROR → rx_wf (rx e') → mRxBuf (rx e') = mRxBuf (rx e) → ∀ a did,
    ∃ res, rx_exit err e' data a did = Returns res ∧ receives_safely e res).
  { intros err e' Herr Hwf' Hbuf a' did'. destruct (exit_good err e' data a' did' Hwf' (proj1 Hd)) as (res&->&(?&?&?&?)&Hre); [by rewrite Hbuf|].
    exists res. split; [done|]. split_and!; try done; intros; congruence. }
  destruct data as [|b rest]; [by apply Hbad|].
  pose proof (proj1 (wf_chain_cons b rest) (proj1 Hd)) as (Hb&_). pose proof (buf_data_length b Hb) as Hbl.
  pose proof Hb as (Hb1&Hb2&Hb3&Hb4&_). pose proof max_alloc_bound. unfold Start, DataLength, kUINT16_MAX in *.
  rewrite read_data by (done || lia). cbn [obind]. rewrite take_ge by lia. set (e1 := on_rx _ e).
  pose proof (RawRead_at (buf_data b) 0 1 _ (Reader_new_at _) ltac:(lia)) as Hrd. unfold Reader_Read8. destruct (_ <? _).
  { rewrite Hrd. by apply Hbad. }
  destruct Hrd as (rd&->&Hrd). set (flags := le_decode _).
  destruct (rx_ack_safe (buf_data b) (0 + 1) (Has flags kFragmentAck) e1 rd a Hrd ltac:(lia)) as (err&t&rd'&a'&->&Hrd').
  cbn iota. destruct (decide (err = CHIP_NO_ERROR)) as [->|]; [|by apply Hbad]. destruct (Hrd' eq_refl) as (k&Hk).
  apply (sequence_safe flags (mkBtp (rx e1) t) rd' b rest a' (Has flags kFragmentAck) k); done.
Qed.

End Safe.

(** ** A run *)

Definition ble_config : BtpConfig :=
  {| kMaxSize := 1534; kDefaultHeaderReserve := 49; CHIP_CONFIG_BLE_PKT_RESERVED_SIZE := 0 |}.

Definition uninitialised : BtpEngine :=
  mkBtp (mkRx kState_Error 0 [] 0 0 0 0 0 0) (mkTx kState_Error 0 [] 0 0 0 false 0 0 0).

(** A connection on the side that waits for the first fragment. *)
Definition fresh_engine : BtpEngine :=
  mkBtp (mkRx kState_Idle 0 [] 0 0 0 20 0 0) (mkTx kState_Idle 0 [] 1 0 0 true 20 0 0).

Lemma fresh_engine_init : Init true uninitialised = Returns fresh_engine.
Proof. reflexivity. Qed.

(** All flags, an acknowledgement, a sequence number, and one byte too few. *)
Definition odd_bytes : list pbuf := [mkPbuf [0xFF; 0; 0; 9] 0 4 4 1].

Lemma receive_any_bytes_witness :
  ∃ res, @HandleCharacteristicReceived host_config ble_config calloc odd_bytes 0 false fresh_engine = Returns res ∧
    @receives_safely host_config fresh_engine res.
Proof.
  apply (@receive_any_bytes host_config host_bounds ble_config calloc calloc_size ltac:(done) ltac:(done) fresh_engine odd_bytes 0 false).
  - split_and!; try done.
  - split_and!; [|repeat constructor|repeat constructor; done].
    apply (@single_wf host_config host_bounds); [|done]. unfold wf_buf, AllocSize, kUINT16_MAX. cbn. lia.
  - vm_compute. done.
  - vm_compute. done.
Defined.
