(* ===== verification/BtpLink.v ===== *)
(** * Bluetooth transport protocol: two engines on a link

    Two engines exchange characteristics over a link that keeps their order. Both sides send
    messages and acknowledgements as they like, as long as at most 255 fragments are not
    acknowledged; characteristics wait in the link until they are delivered. *)

From S2P Require Import Prelude.
From S2P Require Import COutcome.
From S2P Require Import ChipError.
From S2P Require Import PacketBuffer.
From S2P Require Import PacketBufferSpec.
From S2P Require Import PacketBufferThm.
From S2P Require Import Btp.
From S2P Require Import BtpWindow.
From S2P Require Import BtpSend.
From S2P Require Import BtpReceive.
From S2P Require Import BtpSafe.

(** ** The system *)

(** One side: its engine, the characteristics it has sent that are not delivered, and the
    messages that it has sent and received. *)
Record side := mkSide {
  sd_btp : BtpEngine;
  sd_out : list (list Z);
  sd_sent : list (list Z);
  sd_got : list (list Z)
}.

Definition link := bool → side.

Definition upd {A} (s : bool) (x : A) (l : bool → A) : bool → A := λ s', if eqb s' s then x else l s'.

Lemma upd_same {A} s (x : A) l : upd s x l s = x.
Proof. unfold upd. by rewrite eqb_reflx. Qed.

Lemma upd_other {A} s s' (x : A) l : s' ≠ s → upd s x l s' = l s'.
Proof. unfold upd. by destruct s, s'. Qed.

Inductive action :=
| ASend (s send_ack : bool) (m : list Z)  (** the first fragment of a message *)
| ANext (s send_ack : bool)               (** a further fragment *)
| AConfirm (s : bool)                     (** the last fragment is confirmed *)
| AAck (s : bool)                         (** an acknowledgement on its own *)
| ADeliver (s : bool).                    (** to this side *)

Section Link.
Context `{PbufBounds} `{BtpConfig}.
Context (MemoryAlloc : Z → option (list Z)).

(** The window is open, and an acknowledgement is sent only when there is something to
    acknowledge. *)
Definition may_send (send_ack : bool) (e : BtpEngine) : bool :=
  (outstanding (tx e) <? 255) && implb send_ack (HasUnackedData (rx e)).

Definition fresh_message (m : list Z) : list pbuf :=
  match NewWithData MemoryAlloc m 0 kDefaultHeaderReserve with Returns bs => bs | Crashes _ => [] end.

(** A side has sent a fragment. *)
Definition has_sent (s : bool) (e : BtpEngine) (bytes : list Z) (ms : list (list Z)) (l : link) : link :=
  let x := l s in upd s (mkSide e (sd_out x ++ [bytes]) (sd_sent x ++ ms) (sd_got x)) l.

(** The engine after a characteristic, with a whole message taken out of it. *)
Definition hand_over (e : BtpEngine) : BtpEngine * list (list Z) :=
  if decide (mRxState (rx e) = kState_Complete)
  then let '(buf, e) := TakeRxPacket e in (e, [chain_data buf]) else (e, []).

(** [None] when a function of an engine fails; an action that is not possible in the state
    of the engine changes nothing. *)
Definition act (a : action) (l : link) : option link :=
  match a with
  | ASend s send_ack m =>
      let e := sd_btp (l s) in
      if bool_decide (mTxState (tx e) = kState_Idle) && may_send send_ack e && (Z.of_nat (length m) <=? kMaxSize) then
        match HandleCharacteristicSend (fresh_message m) send_ack e with
        | Returns (true, e') => Some (has_sent s e' (sent_bytes e') [m] l)
        | _ => None
        end
      else Some l
  | ANext s send_ack =>
      let e := sd_btp (l s) in
      if bool_decide (mTxState (tx e) = kState_InProgress) && may_send send_ack e then
        match HandleCharacteristicSend [] send_ack e with
        | Returns (true, e') => Some (has_sent s e' (sent_bytes e') [] l)
        | _ => None
        end
      else Some l
  | AConfirm s =>
      let x := l s in
      if bool_decide (mTxState (tx (sd_btp x)) = kState_Complete)
      then Some (upd s (mkSide (TakeTxPacket (sd_btp x)).2 (sd_out x) (sd_sent x) (sd_got x)) l) else Some l
  | AAck s =>
      let e := sd_btp (l s) in
      if may_send true e then
        match New MemoryAlloc kTransferProtocolStandaloneAckHeaderSize kDefaultHeaderReserve with
        | b :: rest =>
            match EncodeStandAloneAck b rest e with
            | Returns (CHIP_NO_ERROR, e', b' :: _) => Some (has_sent s e' (buf_data b') [] l)
            | _ => None
            end
        | [] => None
        end
      else Some l
  | ADeliver s =>
      let x := l s in let y := l (negb s) in
      match sd_out y with
      | [] => Some l
      | bytes :: out =>
          match NewWithData MemoryAlloc bytes 0 0 with
          | Returns data =>
              match HandleCharacteristicReceived MemoryAlloc data 0 false (sd_btp x) with
              | Returns res =>
                  if decide (res_err res = CHIP_NO_ERROR) then
                    let '(e, ms) := hand_over (res_engine res) in
                    Some (upd s (mkSide e (sd_out x) (sd_sent x) (sd_got x ++ ms))
                      (upd (negb s) (mkSide (sd_btp y) out (sd_sent y) (sd_got y)) l))
                  else None
              | Crashes _ => None
              end
          | Crashes _ => None
          end
      end
  end.

Fixpoint acts (l : link) (actions : list action) : option link :=
  match actions with
  | [] => Some l
  | a :: actions => match act a l with Some l' => acts l' actions | None => None end
  end.

(** A connection: both sides are initialised, [true] being the one that has answered the
    handshake, and use the fragment size that was agreed. *)
Definition connect (size : Z) (e1 e2 : BtpEngine) : option link :=
  match Init false e1, Init true e2 with
  | Returns e1, Returns e2 =>
      let setup (e : BtpEngine) := SetTxFragmentSize size (SetRxFragmentSize size e) in
      Some (λ s : bool, mkSide (setup (if s then e2 else e1)) [] [] [])
  | _, _ => None
  end.

(** ** The fragments in flight *)

(** The messages that come out of what the receiver has, the fragments in flight and what
    the sender has left. *)
Inductive stream : option (Z * list Z) → list fragment → option (list Z) → list (list Z) → Prop :=
| stream_end : stream None [] None []
| stream_part len acc R :
    R ≠ [] → in_u16 len → Z.of_nat (length (acc ++ R)) = len → len <= kMaxSize + kDefaultHeaderReserve →
    stream (Some (len, acc)) [] (Some R) [acc ++ R]
| stream_ack st f fs rem ms :
    fr_kind f = FAckOnly → fr_end f = false → stream st fs rem ms → stream st (f :: fs) rem ms
| stream_more st f fs rem ms len acc :
    sound st f → accept st f = Some (len, acc) → fr_end f = false → stream (Some (len, acc)) fs rem ms →
    stream st (f :: fs) rem ms
| stream_last st f fs rem ms len acc :
    sound st f → accept st f = Some (len, acc) → fr_end f = true → stream None fs rem ms →
    stream st (f :: fs) rem (acc :: ms).

Lemma stream_snoc_ack st fs rem ms f :
  fr_kind f = FAckOnly → fr_end f = false → stream st fs rem ms → stream st (fs ++ [f]) rem ms.
Proof. intros Hk He. induction 1; cbn; eauto using stream. Qed.

Lemma take_more (F h : Z) (R : list Z) : R ≠ [] → h < F → take (Z.to_nat (F - h)) R ≠ [].
Proof. intros HR Hh. destruct R; [done|]. by destruct (Z.to_nat (F - h)) eqn:E; [lia|]. Qed.

Lemma head_size_range first b : 2 <= head_size first b <= 5.
Proof. destruct first, b; done. Qed.

(** The next piece of a message, if it fits and is not the last one or is. *)
Lemma stream_snoc_first st fs ms size ack sq m :
  sDefaultFragmentSize <= size → in_u16 (Z.of_nat (length m)) → Z.of_nat (length m) <= kMaxSize + kDefaultHeaderReserve →
  stream st fs None ms →
  stream st (fs ++ [cut true size ack sq m]) (left_over true (bool_decide (is_Some ack)) size m) (ms ++ [m]).
Proof.
  intros HF Hm Hcap Hs. remember None as rem eqn:Er.
  induction Hs as [| |st f fs rem ms Hk He Hs IH|st f fs rem ms len acc Hsd Hac He Hs IH|st f fs rem ms len acc Hsd Hac He Hs IH];
    subst; try done; cbn [app].
  - unfold left_over. set (h := head_size true _). pose proof (head_size_range true (bool_decide (is_Some ack))) as Hh. fold h in Hh.
    unfold sDefaultFragmentSize in HF. set (f := cut true size ack sq m).
    assert (Hacc : accept None f = Some (Z.of_nat (length m), take (Z.to_nat (size - h)) m)) by done.
    destruct (Z.leb_spec (Z.of_nat (length m) + h) size) as [Hl|Hl].
    + rewrite take_ge in Hacc by lia. eapply stream_last; [| |unfold f, cut; cbn; apply Z.leb_le; fold h; lia|constructor]; [|exact Hacc].
      unfold sound. rewrite Hacc. split_and!; try done.
    + eapply stream_more; [|exact Hacc|unfold f, cut; cbn; apply Z.leb_gt; fold h; lia|].
      * unfold sound. rewrite Hacc. split_and!; try done; [rewrite length_take; lia|].
        unfold f, cut. cbn. rewrite (proj2 (Z.leb_gt _ _)) by (fold h; lia). done.
      * cbn [app]. replace [m] with [take (Z.to_nat (size - h)) m ++ drop (Z.to_nat (size - h)) m] by (by rewrite take_drop).
        apply stream_part; rewrite ?take_drop; try done.
        intros Hn%(f_equal length). rewrite length_drop in Hn. cbn in Hn. lia.
  - apply stream_ack; auto.
  - eapply stream_more; eauto.
  - eapply stream_last; eauto.
Qed.

Lemma stream_snoc_next st fs ms size ack sq R :
  sDefaultFragmentSize <= size → stream st fs (Some R) ms →
  stream st (fs ++ [cut false size ack sq R]) (left_over false (bool_decide (is_Some ack)) size R) ms.
Proof.
  intros HF Hs. remember (Some R) as rem eqn:Er.
  induction Hs as [|len acc R' HR Hlen Hl Hcap|st f fs rem ms Hk He Hs IH|st f fs rem ms len acc Hsd Hac He Hs IH|st f fs rem ms len acc Hsd Hac He Hs IH];
    subst; try done; cbn [app].
  - injection Er as ->. unfold left_over. set (h := head_size false _).
    pose proof (head_size_range false (bool_decide (is_Some ack))) as Hh. fold h in Hh.
    unfold sDefaultFragmentSize in HF. set (f := cut false size ack sq R). set (T := take (Z.to_nat (size - h)) R).
    assert (Hacc : accept (Some (Z.of_nat (length (acc ++ R)), acc)) f = Some (Z.of_nat (length (acc ++ R)), acc ++ T)) by done.
    assert (HT : T ≠ []) by (apply take_more; [done|lia]).
    destruct (Z.leb_spec (Z.of_nat (length R) + h) size) as [Hlt|Hlt].
    + assert (T = R) as HTR by (unfold T; apply take_ge; lia). rewrite HTR in Hacc, HT.
      eapply stream_last; [|exact Hacc|unfold f, cut; cbn; apply Z.leb_le; fold h; lia|constructor].
      unfold sound. rewrite Hacc. split_and!; try done. change (fr_data f) with T. by rewrite HTR.
    + eapply stream_more; [|exact Hacc|unfold f, cut; cbn; apply Z.leb_gt; fold h; lia|].
      * unfold sound. rewrite Hacc. rewrite !length_app in *. split_and!; try done; [unfold T; rewrite length_take; lia|].
        unfold f, cut. cbn. rewrite (proj2 (Z.leb_gt _ _)) by (fold h; lia). done.
      * assert (HD : acc ++ R = (acc ++ T) ++ drop (Z.to_nat (size - h)) R) by (by rewrite <- app_assoc; unfold T; rewrite take_drop).
        rewrite HD. apply stream_part; rewrite <- ?HD; try done.
        intros Hn%(f_equal length). rewrite length_drop in Hn. cbn in Hn. lia.
  - apply stream_ack; auto.
  - eapply stream_more; eauto.
  - eapply stream_last; eauto.
Qed.

(** ** The invariant *)

Context (max_size_pos : 0 < kMaxSize) (reserve_pos : in_u16 kDefaultHeaderReserve)
  (max_size_bound : kMaxSize + kDefaultHeaderReserve <= kMaxAllocSize)
  (headroom : 0 <= CHIP_CONFIG_BLE_PKT_RESERVED_SIZE <= kDefaultHeaderReserve - kTransferProtocolMaxHeaderSize).
Context (alloc_ok : ∀ n, 0 <= n <= kMaxAllocSize → ∃ m, MemoryAlloc n = Some m ∧ Z.of_nat (length m) = n).
Context (size : Z) (size_range : sDefaultFragmentSize <= size <= sMaxFragmentSize) (size_fits : size <= kMaxSize).

(** The fragments number [n] to [q - 1]. *)
Fixpoint numbered (n : Z) (fs : list fragment) (q : Z) : Prop :=
  match fs with
  | [] => n = q
  | f :: fs => fr_seq f = u8 n ∧ numbered (n + 1) fs q
  end.

(** The acknowledgements in the fragments, from [p] up to [k]. *)
Fixpoint ack_line (p : Z) (fs : list fragment) (k : Z) : Prop :=
  match fs with
  | [] => p = k
  | f :: fs => ∃ p', acks (fr_ack f) p k p' ∧ ack_line p' fs k
  end.

Lemma numbered_snoc n fs q f : numbered n fs q → fr_seq f = u8 q → numbered n (fs ++ [f]) (q + 1).
Proof.
  revert n. induction fs as [|g fs IH]; cbn; intros n; [by intros -> ->|]. intros [-> Hn] Hf. auto.
Qed.

Lemma numbered_le n fs q : numbered n fs q → n <= q.
Proof. revert n. induction fs as [|f fs IH]; cbn; intros n; [lia|]. intros [_ Hn]. specialize (IH _ Hn). lia. Qed.

Lemma acks_weaken a p k k' p' : acks a p k p' → k <= k' → acks a p k' p'.
Proof. unfold acks. destruct a; [|done]. intros [? ?] ?. split; [done|lia]. Qed.

Lemma ack_line_le p fs k : ack_line p fs k → p <= k.
Proof.
  revert p. induction fs as [|f fs IH]; cbn; intros p; [lia|]. intros (p'&Ha&Hl). specialize (IH p' Hl).
  unfold acks in Ha. destruct (fr_ack f); lia.
Qed.

(** A fragment that acknowledges all that was received up to [n - 1], or nothing. *)
Lemma ack_line_snoc p fs k n send_ack f :
  ack_line p fs k → fr_ack f = ack_of send_ack n → (send_ack = true → k < n) →
  ack_line p (fs ++ [f]) (if send_ack then n else k).
Proof.
  intros Hl Hf Hk. revert p Hl. induction fs as [|g fs IH]; cbn; intros p Hl.
  - subst p. rewrite Hf. destruct send_ack; cbn; [exists n; split; [split; [done|specialize (Hk eq_refl); lia]|done]|by exists k].
  - destruct Hl as (p'&Ha&Hl). exists p'. split; [|by apply IH]. apply (acks_weaken _ _ k); [done|].
    destruct send_ack; [specialize (Hk eq_refl)|]; lia.
Qed.

(** From side [x] to side [y]: [p], [k], [n] and [q] count the fragments acknowledged at the
    sender, acknowledged by the receiver, received, and sent. *)
Definition dir_at (p k n q : Z) (st : option (Z * list Z)) (rem : option (list Z)) (ms : list (list Z))
    (fs fs' : list fragment) (x y : side) : Prop :=
  p <= k <= n ∧ n <= q <= p + 255 ∧ tx_at p q (tx (sd_btp x)) ∧ rx_at k n (rx (sd_btp y)) ∧
  numbered n fs q ∧ ack_line p fs' k ∧ tx_holds rem (tx (sd_btp x)) ∧ rx_holds st (rx (sd_btp y)) ∧
  stream st fs rem ms ∧ sd_sent x = sd_got y ++ ms ∧
  mTxFragmentSize (tx (sd_btp x)) = size ∧ mRxFragmentSize (rx (sd_btp y)) = size.

Definition dir_ok (fs fs' : list fragment) (x y : side) : Prop :=
  ∃ p k n q st rem ms, dir_at p k n q st rem ms fs fs' x y.

Definition in_flight (fs : list fragment) (x : side) : Prop :=
  sd_out x = encode <$> fs ∧ Forall (λ f, Z.of_nat (length (encode f)) <= size) fs.

Definition link_ok (l : link) : Prop :=
  ∃ fs : bool → list fragment, ∀ s, in_flight (fs s) (l s) ∧ dir_ok (fs s) (fs (negb s)) (l s) (l (negb s)).

Lemma both_sides (P : bool → Prop) s : P s → P (negb s) → ∀ s', P s'.
Proof. by destruct s; intros ? ? []. Qed.

Lemma link_ok_intro (fs : bool → list fragment) s l :
  in_flight (fs s) (l s) → in_flight (fs (negb s)) (l (negb s)) →
  dir_ok (fs s) (fs (negb s)) (l s) (l (negb s)) → dir_ok (fs (negb s)) (fs s) (l (negb s)) (l s) → link_ok l.
Proof. intros. exists fs. apply (both_sides _ s); [done|]. by rewrite negb_involutive. Qed.

Ltac fn_simpl := repeat (rewrite upd_same || rewrite upd_other by done).

(** A side sends a fragment. *)
Lemma link_sent s l fs p k n q st rem ms p2 k2 n2 q2 st2 rem2 ms2 send_ack f rem' ms' e' :
  in_flight (fs s) (l s) → in_flight (fs (negb s)) (l (negb s)) →
  dir_at p k n q st rem ms (fs s) (fs (negb s)) (l s) (l (negb s)) →
  dir_at p2 k2 n2 q2 st2 rem2 ms2 (fs (negb s)) (fs s) (l (negb s)) (l s) →
  q - p < 255 → (send_ack = true → k2 < n2) →
  acked send_ack k2 n2 (rx (sd_btp (l s))) (rx e') → tx_at p (q + 1) (tx e') → mTxFragmentSize (tx e') = size →
  tx_holds rem' (tx e') → fr_seq f = u8 q → fr_ack f = ack_of send_ack n2 → Z.of_nat (length (encode f)) <= size →
  stream st (fs s ++ [f]) rem' (ms ++ ms') →
  link_ok (has_sent s e' (encode f) ms' l).
Proof.
  intros [Ho Hs] Hfl2 (Hpk&Hnq&Ht&Hr&Hnum&Hal&Hth&Hrh&Hstr&Hsent&HtF&HrF)
    (Hpk2&Hnq2&Ht2&Hr2&Hnum2&Hal2&Hth2&Hrh2&Hstr2&Hsent2&HtF2&HrF2) Hwin Hk [Hr' Hsame] Ht' HF' Hth' Hseq Hack Hlen Hstr'.
  assert (negb s ≠ s) by (by destruct s). unfold has_sent.
  apply (link_ok_intro (upd s (fs s ++ [f]) fs) s); fn_simpl; try done.
  - split; cbn; [by rewrite fmap_app, Ho|]. apply Forall_app. split; [done|]. by repeat constructor.
  - exists p, k, n, (q + 1), st, rem', (ms ++ ms'). split_and!; cbn; try done; try lia; [by apply numbered_snoc|].
    by rewrite Hsent, app_assoc.
  - exists p2, (if send_ack then n2 else k2), n2, q2, st2, rem2, ms2. destruct Hsame as (Hs1&Hs2&Hs3&Hs4).
    split_and!; cbn; try done; try (destruct send_ack; lia).
    + by apply ack_line_snoc.
    + destruct st2 as [[? ?]|]; cbn in Hrh2 |- *; rewrite Hs1, Hs3; [by rewrite Hs2|done].
Qed.

(** ** Every action keeps the invariant *)

Lemma NewWithData_ok d reserved :
  in_u16 reserved → Z.of_nat (length d) + reserved <= kMaxAllocSize →
  ∃ b, NewWithData MemoryAlloc d 0 reserved = Returns [b] ∧ wf_chain [b] ∧ buf_data b = d ∧ pb_ref b = 1 ∧
    pb_len b = Z.of_nat (length d) ∧ AllocSize b = Z.of_nat (length d) + reserved.
Proof.
  intros Hr Hl. pose proof max_alloc_bound. pose proof size_pow. unfold kUINT16_MAX in *. unfold NewWithData. rewrite Z.add_0_r, size_t_small by solve_width.
  destruct (New_ok MemoryAlloc alloc_ok (Z.of_nat (length d)) reserved) as (m&->&Hm&Hw); [lia|done|lia|].
  destruct (single_wf_inv _ Hw) as [Hb _].
  destruct (append_data (sbuf m reserved 0 1) d Hb) as (m'&Hwr&Hb'&Hd'&Ha'); [unfold AllocSize; cbn; lia|].
  cbn in Hwr. rewrite Z.add_0_r in Hwr. cbn [sbuf pb_mem pb_payload pb_ref]. rewrite Hwr. cbn [obind].
  eexists. split; [done|]. cbn in Hb', Hd', Ha'. split_and!; try done.
  - by apply single_wf.
  - etransitivity; [exact Ha'|]. unfold AllocSize. cbn. lia.
Qed.

Lemma ack_of_some send_ack n : bool_decide (is_Some (ack_of send_ack n)) = send_ack.
Proof. by destruct send_ack. Qed.

Lemma encode_cut_length first send_ack n q R :
  Z.of_nat (length (encode (cut first size (ack_of send_ack n) (u8 q) R))) <= size.
Proof.
  rewrite encode_cut. unfold sDefaultFragmentSize in size_range. destruct first, send_ack; cbn [head_size head_bytes ack_of len_bytes length app];
    rewrite length_take; unfold head_size; lia.
Qed.

Lemma may_send_at send_ack p q k n e :
  may_send send_ack e = true → tx_at p q (tx e) → rx_at k n (rx e) → p <= q <= p + 256 → k <= n <= k + 255 →
  q - p < 255 ∧ (send_ack = true → k < n).
Proof.
  intros Hm Ht Hr Hpq Hkn. apply andb_prop in Hm as [Hw Ha]. rewrite (outstanding_at p q) in Hw by done. apply Z.ltb_lt in Hw.
  split; [done|]. intros ->. cbn in Ha. rewrite (HasUnackedData_at k n) in Ha by done. by apply Z.ltb_lt.
Qed.

Lemma idle_holds rem t : tx_holds rem t → mTxState t = kState_Idle → rem = None ∧ mTxBuf t = [].
Proof.
  destruct rem; cbn; [intros (Hs&_) ?; congruence|]. intros [[_ ?]|[Hs _]] Hi; [done|congruence].
Qed.

Lemma progress_holds rem t : tx_holds rem t → mTxState t = kState_InProgress → ∃ R, rem = Some R.
Proof. destruct rem as [R|]; cbn; [by exists R|]. intros [[Hs _]|[Hs _]] Hi; congruence. Qed.

Lemma act_send s send_ack m l : link_ok l → ∃ l', act (ASend s send_ack m) l = Some l' ∧ link_ok l'.
Proof.
  intros Hok. cbn [act]. destruct (bool_decide _ && _ && _) eqn:Hg; [|by exists l].
  apply andb_prop in Hg as [[Hidle Hmay]%andb_prop Hm]. apply bool_decide_eq_true in Hidle. apply Z.leb_le in Hm.
  destruct Hok as (fs&Hok). destruct (Hok s) as [Hf1 (p&k&n&q&st&rem&ms&Hd1)].
  destruct (Hok (negb s)) as [Hf2 (p2&k2&n2&q2&st2&rem2&ms2&Hd2)]. rewrite negb_involutive in Hd2.
  pose proof Hd1 as (Hpk&Hnq&Ht&_&_&_&Hth&_&Hstr&_&HtF&_). pose proof Hd2 as (Hpk2&Hnq2&_&Hr2&_).
  destruct (may_send_at send_ack p q k2 n2 _ Hmay Ht Hr2) as [Hwin Hk2]; [lia..|].
  destruct (idle_holds rem _ Hth Hidle) as [-> Hbuf]. pose proof max_alloc_bound. unfold sDefaultFragmentSize, sMaxFragmentSize, kUINT16_MAX in *.
  unfold fresh_message. destruct (NewWithData_ok m kDefaultHeaderReserve reserve_pos) as (b&->&Hwb&Hbd&_&Hbl&Hba); [lia|].
  destruct (send_first send_ack k2 n2 p q b (sd_btp (l s))) as (e'&->&Hr'&Ht'&HF'&Hth'&Hsb); try done; try lia.
  { rewrite HtF. unfold sDefaultFragmentSize. lia. } { rewrite HtF. solve_width. }
  { rewrite Hba, Hbl. change kTransferProtocolMaxHeaderSize with 5 in headroom.
    pose proof (head_size_range true send_ack). lia. }
  eexists. split; [done|]. rewrite Hsb, Hbd, HtF in *.
  eapply (link_sent s l fs); try done; [apply encode_cut_length|].
  pose proof (stream_snoc_first st (fs s) ms size (ack_of send_ack n2) (u8 q) m) as Hsn. rewrite ack_of_some in Hsn.
  apply Hsn; try done; [unfold sDefaultFragmentSize; lia|solve_width|solve_width].
Qed.

Lemma act_next s send_ack l : link_ok l → ∃ l', act (ANext s send_ack) l = Some l' ∧ link_ok l'.
Proof.
  intros Hok. cbn [act]. destruct (bool_decide _ && _) eqn:Hg; [|by exists l].
  apply andb_prop in Hg as [Hprog Hmay]. apply bool_decide_eq_true in Hprog.
  destruct Hok as (fs&Hok). destruct (Hok s) as [Hf1 (p&k&n&q&st&rem&ms&Hd1)].
  destruct (Hok (negb s)) as [Hf2 (p2&k2&n2&q2&st2&rem2&ms2&Hd2)]. rewrite negb_involutive in Hd2.
  pose proof Hd1 as (Hpk&Hnq&Ht&_&_&_&Hth&_&Hstr&_&HtF&_). pose proof Hd2 as (Hpk2&Hnq2&_&Hr2&_).
  destruct (may_send_at send_ack p q k2 n2 _ Hmay Ht Hr2) as [Hwin Hk2]; [lia..|].
  destruct (progress_holds rem _ Hth Hprog) as [R ->]. unfold sDefaultFragmentSize, sMaxFragmentSize in *.
  destruct (send_next send_ack k2 n2 p q R (sd_btp (l s))) as (e'&->&Hr'&Ht'&HF'&Hth'&Hsb); try done; try lia.
  { rewrite HtF. unfold sDefaultFragmentSize. lia. } { rewrite HtF. solve_width. }
  eexists. split; [done|]. rewrite Hsb, HtF in *.
  eapply (link_sent s l fs); try done; [apply encode_cut_length|]. rewrite app_nil_r.
  pose proof (stream_snoc_next st (fs s) ms size (ack_of send_ack n2) (u8 q) R) as Hsn. rewrite ack_of_some in Hsn.
  apply Hsn; [unfold sDefaultFragmentSize; lia|done].
Qed.

Lemma act_ack s l : link_ok l → ∃ l', act (AAck s) l = Some l' ∧ link_ok l'.
Proof.
  intros Hok. cbn [act]. destruct (may_send true _) eqn:Hmay; [|by exists l].
  destruct Hok as (fs&Hok). destruct (Hok s) as [Hf1 (p&k&n&q&st&rem&ms&Hd1)].
  destruct (Hok (negb s)) as [Hf2 (p2&k2&n2&q2&st2&rem2&ms2&Hd2)]. rewrite negb_involutive in Hd2.
  pose proof Hd1 as (Hpk&Hnq&Ht&_&_&_&Hth&_&Hstr&_&HtF&_). pose proof Hd2 as (Hpk2&Hnq2&_&Hr2&_).
  destruct (may_send_at true p q k2 n2 _ Hmay Ht Hr2) as [Hwin Hk2]; [lia..|].
  change kTransferProtocolStandaloneAckHeaderSize with 3. change kTransferProtocolMaxHeaderSize with 5 in headroom.
  unfold sDefaultFragmentSize, sMaxFragmentSize in *.
  destruct (New_ok MemoryAlloc alloc_ok 3 kDefaultHeaderReserve) as (m&->&Hm&Hw); [lia|done|lia|].
  destruct (send_alone k2 n2 p q (sbuf m kDefaultHeaderReserve 0 1) (sd_btp (l s))) as (e'&b'&->&Hbd&Hr'&Ht'&Hsm); try done; auto.
  { lia. } { cbn. lia. } { unfold AllocSize. cbn. lia. }
  eexists. split; [done|]. rewrite Hbd. destruct Hsm as (Hs1&Hs2&Hs3&Hs4).
  eapply (link_sent s l fs p k n q st rem ms p2 k2 n2 q2 st2 rem2 ms2 true (ack_frag n2 q) rem []); try done.
  - by rewrite Hs4.
  - destruct rem; cbn in Hth |- *; rewrite ?Hs1, ?Hs2, ?Hs3, ?Hs4; done.
  - cbn. lia.
  - rewrite app_nil_r. by apply stream_snoc_ack.
Qed.

Lemma act_confirm s l : link_ok l → ∃ l', act (AConfirm s) l = Some l' ∧ link_ok l'.
Proof.
  intros (fs&Hok). cbn [act]. destruct (bool_decide _) eqn:Hg; [|exists l; split; [done|by exists fs]].
  apply bool_decide_eq_true in Hg. eexists. split; [done|].
  destruct (Hok s) as [Hf1 (p&k&n&q&st&rem&ms&Hd1)]. destruct (Hok (negb s)) as [Hf2 Hd2]. rewrite negb_involutive in Hd2.
  destruct Hd1 as (Hpk&Hnq&Ht&Hr&Hnum&Hal&Hth&Hrh&Hstr&Hsent&HtF&HrF).
  assert (negb s ≠ s) by (by destruct s). unfold TakeTxPacket. rewrite decide_True by done. cbn [snd].
  apply (link_ok_intro fs s); fn_simpl; try done.
  exists p, k, n, q, st, rem, ms. split_and!; try done; try lia. cbn.
  destruct rem; cbn in Hth |- *; [destruct Hth; congruence|by left].
Qed.

Lemma sound_kind st f : sound st f → match fr_kind f with FAckOnly => fr_end f = false | _ => sound st f end.
Proof. intros Hs. destruct (fr_kind f) eqn:Ek; try done. unfold sound, accept in Hs. rewrite Ek in Hs. by destruct st. Qed.

(** What comes out of the fragment at the front. *)
Lemma deliver_stream st f fs rem ms :
  stream st (f :: fs) rem ms →
  match fr_kind f with FAckOnly => fr_end f = false | _ => sound st f end ∧
  ∀ e, match accept st f with Some (len, acc) => rx_after (fr_end f) len acc (rx e) | None => rx_holds st (rx e) end →
  ∃ e' ms1 ms2 st', hand_over e = (e', ms1) ∧ ms = ms1 ++ ms2 ∧ rx_holds st' (rx e') ∧ stream st' fs rem ms2 ∧
    tx e' = tx e ∧ same_rx_numbers (rx e) (rx e').
Proof.
  assert (Hbusy : ∀ st r, rx_holds st r → mRxState r ≠ kState_Complete).
  { intros st0 r Hh. destruct st0 as [[? ?]|]; destruct Hh as [-> _]; done. }
  inversion 1 as [| |? ? ? ? ? Hk He Hs|? ? ? ? ? len acc Hsd Hac He Hs|? ? ? ? ms0 len acc Hsd Hac He Hs]; subst; unfold hand_over.
  - rewrite Hk. split; [done|]. intros e He'. replace (accept st f) with (@None (Z * list Z)) in He'
      by (unfold accept; rewrite Hk; by destruct st as [[? ?]|]).
    rewrite decide_False by eauto. by exists e, [], ms, st.
  - split; [by apply sound_kind|]. intros e He'. rewrite Hac, He in He'.
    change (rx_holds (Some (len, acc)) (rx e)) in He'. rewrite decide_False by eauto. by eexists e, [], ms, _.
  - split; [by apply sound_kind|]. intros e He'. rewrite Hac, He in He'.
    destruct He' as (Hst&b&Hbuf&Hw&Hbd). rewrite decide_True by done. unfold TakeRxPacket. rewrite decide_True by done.
    cbn [rx on_rx mRxBuf set_mRxState]. rewrite Hbuf. eexists (on_rx (set_mRxBuf []) (on_rx (set_mRxState kState_Idle) e)), [acc], ms0, None. split_and!; try done.
    unfold chain_data. cbn. by rewrite app_nil_r, Hbd.
Qed.

Lemma act_deliver s l : link_ok l → ∃ l', act (ADeliver s) l = Some l' ∧ link_ok l'.
Proof.
  intros (fs&Hok). cbn [act]. destruct (Hok s) as [Hf1 (p&k&n&q&st&rem&ms&Hd1)].
  destruct (Hok (negb s)) as [[Ho2 Hl2] (p2&k2&n2&q2&st2&rem2&ms2&Hd2)]. rewrite negb_involutive in Hd2. rewrite Ho2.
  destruct (fs (negb s)) as [|f fs2] eqn:Efs; [exists l; split; [done|by exists fs]|]. cbn [fmap list_fmap].
  destruct Hd1 as (Hpk&Hnq&Ht&Hr&Hnum&Hal&Hth&Hrh&Hstr&Hsent&HtF&HrF).
  destruct Hd2 as (Hpk2&Hnq2&Ht2&Hr2&Hnum2&Hal2&Hth2&Hrh2&Hstr2&Hsent2&HtF2&HrF2).
  cbn in Hnum2, Hal. destruct Hnum2 as [Hseq Hnum2], Hal as (p'&Hack&Hal). pose proof (ack_line_le _ _ _ Hal).
  apply Forall_cons in Hl2 as [Hlf Hl2]. destruct (deliver_stream _ _ _ _ _ Hstr2) as [Hsound Hover].
  unfold sDefaultFragmentSize, sMaxFragmentSize in *.
  destruct (NewWithData_ok (encode f) 0) as (b&->&Hwb&Hbd&Hbr&_&_); [solve_width|solve_width|].
  pose proof (numbered_le _ _ _ Hnum2) as Hnq2'.
  destruct (receive_step MemoryAlloc max_size_pos reserve_pos max_size_bound alloc_ok f (sd_btp (l s)) b st2 k2 n2 p q p' 0 false)
    as (e1&data'&a&->&Ht1&Hsm1&Hr1&HF1&Hh1); try done; try lia.
  { rewrite HrF2. solve_width. } { apply (acks_weaken _ _ k); [done|lia]. }
  cbn [res_err res_engine]. rewrite decide_True by done.
  destruct (Hover e1 Hh1) as (e2&ms1&ms3&st'&->&->&Hh2&Hstr3&Htx&Hsn). eexists. split; [done|].
  assert (negb s ≠ s) by (by destruct s). assert (s ≠ negb s) by (by destruct s).
  destruct Hsm1 as (Hm1&Hm2&Hm3&Hm4).
  apply (link_ok_intro (upd (negb s) fs2 fs) s); fn_simpl; try done.
  - exists p', k, n, q, st, rem, ms. split_and!; cbn; try done; rewrite ?Htx; try done; try (unfold acks in Hack; destruct (fr_ack f); lia).
    destruct rem; cbn in Hth |- *; rewrite ?Hm1, ?Hm2, ?Hm3, ?Hm4; done.
  - exists p2, k2, (n2 + 1), q2, st', rem2, ms3. split_and!; cbn; try done; try lia.
    + by eapply same_rx_at.
    + by rewrite Hsent2, app_assoc.
    + destruct Hsn as (_&_&_&->). by rewrite HF1.
Qed.

Lemma act_ok a l : link_ok l → ∃ l', act a l = Some l' ∧ link_ok l'.
Proof. destruct a; eauto using act_send, act_next, act_confirm, act_ack, act_deliver. Qed.

Lemma connect_ok e1 e2 l : connect size e1 e2 = Some l → link_ok l.
Proof.
  unfold connect, Init. repeat (destruct (Free _); [|done]). cbn [obind]. intros [= <-].
  apply (link_ok_intro (λ _, []) true); cbn [negb]; try (by split; [|constructor]).
  - exists 0, 0, 1, 1, None, None, []. split_and!; try done; try lia; try (by left). constructor.
  - exists 0, 0, 0, 0, None, None, []. split_and!; try done; try lia; try (by left). constructor.
Qed.

(** C22: Two engines connected by a link that keeps the order of characteristics understand
    each other: whatever the sides send and acknowledge and whenever characteristics are
    delivered, no call fails, the messages received are those sent, whole and in order, and
    all of them once nothing is in flight. *)
Theorem btp_link_delivers e1 e2 l0 actions :
  connect size e1 e2 = Some l0 →
  ∃ l, acts l0 actions = Some l ∧ ∀ s,
    sd_got (l s) `prefix_of` sd_sent (l (negb s)) ∧
    (sd_out (l (negb s)) = [] → mTxState (tx (sd_btp (l (negb s)))) ≠ kState_InProgress →
     sd_got (l s) = sd_sent (l (negb s))).
Proof.
  intros Hok%connect_ok. assert (Hrun : ∃ l, acts l0 actions = Some l ∧ link_ok l).
  { revert l0 Hok. induction actions as [|a actions IH]; intros l0 Hok; [by exists l0|].
    destruct (act_ok a l0 Hok) as (l1&E&Hok1). cbn [acts]. rewrite E. by apply IH. }
  destruct Hrun as (l&E&fs&Hl). exists l. split; [done|]. intros s. destruct (Hl (negb s)) as [[Ho _] (p&k&n&q&st&rem&ms&Hd)].
  rewrite negb_involutive in Hd. destruct Hd as (_&_&_&_&_&_&Hth&_&Hstr&Hsent&_). split; [by exists ms|].
  intros Hout Hst. rewrite Ho in Hout. apply fmap_nil_inv in Hout. rewrite Hout in Hstr. inversion Hstr; subst.
  - by rewrite Hsent, app_nil_r.
  - by destruct Hth.
Qed.

End Link.

(** ** A run *)

Definition thirty_bytes : list Z := (λ i, Z.of_nat i) <$> seq 100 30.

Lemma calloc_ok n : 0 <= n <= 64000 → ∃ m, calloc n = Some m ∧ Z.of_nat (length m) = n.
Proof.
  intros Hn. unfold calloc. rewrite (proj2 (Z.ltb_ge _ _)) by lia. eexists. split; [done|]. rewrite length_replicate. lia.
Qed.

(** The answer to the handshake is acknowledged, and a message needs two fragments. *)
Lemma btp_link_delivers_witness :
  ∃ l0 l, connect 20 uninitialised uninitialised = Some l0 ∧
    @acts host_config ble_config calloc l0
      [ASend false true thirty_bytes; ADeliver true; ANext false false; AAck true; ADeliver true; ADeliver false] = Some l ∧
    sd_got (l true) = [thirty_bytes] ∧ sd_got (l true) `prefix_of` sd_sent (l false).
Proof.
  eexists. destruct (@btp_link_delivers host_config host_bounds ble_config calloc ltac:(done) ltac:(done) ltac:(done)
    ltac:(done) calloc_ok 20 ltac:(done) ltac:(done) uninitialised uninitialised _
    [ASend false true thirty_bytes; ADeliver true; ANext false false; AAck true; ADeliver true; ADeliver false] eq_refl)
    as (l&E&Hl). exists l. split; [reflexivity|]. split; [exact E|]. split; [|apply (Hl true)].
  revert E. vm_compute. by intros [= <-].
Defined.
