(* ===== verification/AccessTypes.v ===== *)
(** * Access control: identifiers and requests

    Node identifiers (src/src/lib/core/NodeId.h, GroupId.h), CASE authenticated tags
    (CASEAuthTag.h), cluster and device type identifiers (DataModelTypes.h), and the data of
    a request (src/src/access). *)

From S2P Require Import Prelude.

(** ** Node identifiers *)

Definition kUndefinedNodeId : Z := 0.
Definition kMinGroupNodeId : Z := 0xFFFFFFFFFFFF0000.
Definition kMaskGroupId : Z := 0xFFFF.
Definition kMinCASEAuthTag : Z := 0xFFFFFFFD00000000.
Definition kMaxCASEAuthTag : Z := 0xFFFFFFFDFFFFFFFF.
Definition kMaskCASEAuthTag : Z := 0xFFFFFFFF.
Definition kMaxOperationalNodeId : Z := 0xFFFFFFEFFFFFFFFF.

Definition IsOperationalNodeId (aNodeId : Z) : bool :=
  negb (aNodeId =? kUndefinedNodeId) && (aNodeId <=? kMaxOperationalNodeId).
Definition IsGroupId (aNodeId : Z) : bool := kMinGroupNodeId <=? aNodeId.
Definition IsCASEAuthTag (aNodeId : Z) : bool := (kMinCASEAuthTag <=? aNodeId) && (aNodeId <=? kMaxCASEAuthTag).
Definition GroupIdFromNodeId (aNodeId : Z) : Z := u16 (Z.land aNodeId kMaskGroupId).

Definition kUndefinedGroupId : Z := 0.
Definition IsValidGroupId (aGroupId : Z) : bool := negb (aGroupId =? kUndefinedGroupId).

(** ** CASE authenticated tags *)

Definition kUndefinedCAT : Z := 0.
Definition kTagIdentifierMask : Z := 0xFFFF0000.
Definition kTagIdentifierShift : Z := 16.
Definition kTagVersionMask : Z := 0xFFFF.

Definition CASEAuthTagFromNodeId (aNodeId : Z) : Z := u32 (Z.land aNodeId kMaskCASEAuthTag).
Definition GetCASEAuthTagIdentifier (aCAT : Z) : Z := u16 (Z.shiftr (Z.land aCAT kTagIdentifierMask) kTagIdentifierShift).
Definition GetCASEAuthTagVersion (aCAT : Z) : Z := u16 (Z.land aCAT kTagVersionMask).

(** The loop of [CATValues::CheckSubjectAgainstCATs] over the tags of the certificate. *)
Fixpoint check_cats (catFromSubject : Z) (values : list Z) : bool :=
  match values with
  | [] => false
  | catFromNoc :: values =>
      if negb (catFromNoc =? kUndefinedCAT) &&
         (GetCASEAuthTagIdentifier catFromNoc =? GetCASEAuthTagIdentifier catFromSubject) &&
         (0 <? GetCASEAuthTagVersion catFromSubject) &&
         (GetCASEAuthTagVersion catFromSubject <=? GetCASEAuthTagVersion catFromNoc)
      then true else check_cats catFromSubject values
  end.

Definition CheckSubjectAgainstCATs (subject : Z) (values : list Z) : bool :=
  if IsCASEAuthTag subject then check_cats (CASEAuthTagFromNodeId subject) values else false.

(** ** Clusters, endpoints and device types *)

Definition kUndefinedFabricIndex : Z := 0.
Definition kInvalidEndpointId : Z := 0xFFFF.
Definition kMaxVendorId : Z := 0xFFF4.

Definition ExtractIdFromMEI (aMEI : Z) : Z := u16 (Z.land aMEI 0xFFFF).
Definition ExtractVendorFromMEI (aMEI : Z) : Z := u16 (Z.shiftr (Z.land aMEI 0xFFFF0000) 16).
Definition IsValidVendorId (aVendorId : Z) : bool := aVendorId <=? kMaxVendorId.

Definition IsValidClusterId (aClusterId : Z) : bool :=
  let id := ExtractIdFromMEI aClusterId in
  let vendor := ExtractVendorFromMEI aClusterId in
  IsValidVendorId vendor &&
  (((vendor =? 0) && (id <=? 0x7FFF)) || ((1 <=? vendor) && (0xFC00 <=? id) && (id <=? 0xFFFE))).

Definition IsValidDeviceTypeId (aDeviceTypeId : Z) : bool :=
  let id := Z.land aDeviceTypeId 0xFFFF in
  let vendor := Z.land aDeviceTypeId 0xFFFF0000 in
  (vendor <=? 0xFFFE0000) && (id <=? 0xBFFF).

Definition IsValidEndpointId (aEndpointId : Z) : bool := negb (aEndpointId =? kInvalidEndpointId).

(** ** Requests *)

Inductive Privilege := kView | kProxyView | kOperate | kManage | kAdminister.
Inductive AuthMode := kNone | kPase | kCase | kGroup.
Inductive RequestType :=
  kRequestTypeUnknown | kAttributeReadRequest | kAttributeWriteRequest | kCommandInvokeRequest | kEventReadRequest.

#[export] Instance Privilege_eq_dec : EqDecision Privilege.
Proof. solve_decision. Defined.
#[export] Instance AuthMode_eq_dec : EqDecision AuthMode.
Proof. solve_decision. Defined.
#[export] Instance RequestType_eq_dec : EqDecision RequestType.
Proof. solve_decision. Defined.

Record SubjectDescriptor := mkSubject {
  sd_fabricIndex : Z;
  sd_authMode : AuthMode;
  sd_subject : Z;
  sd_cats : list Z;
  sd_isCommissioning : bool
}.

Record RequestPath := mkPath {
  rp_cluster : Z;
  rp_endpoint : Z;
  rp_requestType : RequestType;
  rp_entityId : option Z
}.

(** [Entry::Target]; a field is meaningful under its flag. *)
Record Target := mkTarget {
  tg_flags : Z;
  tg_cluster : Z;
  tg_endpoint : Z;
  tg_deviceType : Z
}.

#[export] Instance Target_eq_dec : EqDecision Target.
Proof. solve_decision. Defined.

Definition kCluster : Z := Z.shiftl 1 0.
Definition kEndpoint : Z := Z.shiftl 1 1.
Definition kDeviceType : Z := Z.shiftl 1 2.

Definition Target_new : Target := mkTarget 0 0 0 0.

Definition has_flag (t : Target) (flag : Z) : bool := ctrue (Z.land (tg_flags t) flag).

(** ** Rules of the check *)

Definition CheckRequestPrivilegeAgainstEntryPrivilege (requestPrivilege entryPrivilege : Privilege) : bool :=
  match entryPrivilege with
  | kView => bool_decide (requestPrivilege = kView)
  | kProxyView => bool_decide (requestPrivilege = kProxyView) || bool_decide (requestPrivilege = kView)
  | kOperate => bool_decide (requestPrivilege = kOperate) || bool_decide (requestPrivilege = kView)
  | kManage =>
      bool_decide (requestPrivilege = kManage) || bool_decide (requestPrivilege = kOperate) ||
      bool_decide (requestPrivilege = kView)
  | kAdminister =>
      bool_decide (requestPrivilege = kAdminister) || bool_decide (requestPrivilege = kManage) ||
      bool_decide (requestPrivilege = kOperate) || bool_decide (requestPrivilege = kView) ||
      bool_decide (requestPrivilege = kProxyView)
  end.

Definition IsValidCaseNodeId (aNodeId : Z) : bool :=
  if IsOperationalNodeId aNodeId then true
  else if IsCASEAuthTag aNodeId && negb (GetCASEAuthTagVersion (CASEAuthTagFromNodeId aNodeId) =? 0) then true
  else false.

Definition IsValidGroupNodeId (aNodeId : Z) : bool := IsGroupId aNodeId && IsValidGroupId (GroupIdFromNodeId aNodeId).
