(* ===== verification/AccessControl.v ===== *)
(** * Access control

    [AccessControl] (src/src/access/AccessControl.cpp and .h): the check of a request against
    the access control list, the validation of entries, and the changes of the list with the
    listeners that are told of them.

    The list itself is kept by a delegate, an object of an abstract class: [AclDelegate] is
    its interface. Objects of the classes [Entry] and [EntryIterator] are known by their
    addresses; which delegate object they use, and so what they show, is part of the state
    [S] of the delegate. *)

From S2P Require Import Prelude.
From S2P Require Import COutcome.
From S2P Require Import ChipError.
From S2P Require Import AccessTypes.

(** ** The delegate *)

Class AclDelegate (S : Type) := {
  d_Init : S → chip_error * S;
  d_Finish : S → S;
  d_GetMaxEntriesPerFabric : S → chip_error * Z;
  d_GetEntryCount : Z → S → chip_error * Z;
  (** error, index, fabric index *)
  d_CreateEntry : Z → option Z → S → outcome (chip_error * Z * option Z * S);
  d_ReadEntry : Z → Z → option Z → S → outcome (chip_error * S);
  d_UpdateEntry : Z → Z → option Z → S → outcome (chip_error * S);
  d_DeleteEntry : Z → option Z → S → outcome (chip_error * S);
  d_Entries : Z → option Z → S → outcome (chip_error * S);
  d_Check : SubjectDescriptor → RequestPath → Privilege → S → chip_error;
  (** objects of the class [EntryIterator] *)
  it_construct : Z → S → S;
  it_destroy : Z → S → outcome S;
  it_Next : Z → Z → S → outcome (chip_error * S);
  (** objects of the class [Entry] *)
  en_construct : Z → S → S;
  en_destroy : Z → S → outcome S;
  en_HasDefaultDelegate : Z → S → bool;
  en_GetAuthMode : Z → S → outcome (chip_error * AuthMode);
  en_GetFabricIndex : Z → S → outcome (chip_error * Z);
  en_GetPrivilege : Z → S → outcome (chip_error * Privilege);
  en_GetSubjectCount : Z → S → outcome (chip_error * Z);
  en_GetSubject : Z → Z → S → outcome (chip_error * Z);
  en_GetTargetCount : Z → S → outcome (chip_error * Z);
  en_GetTarget : Z → Z → Target → S → outcome (chip_error * Target)
}.

(** [AccessRestrictionProvider], when the build has one. *)
Record restriction_provider := mkProvider {
  arp_CheckForCommissioning : SubjectDescriptor → RequestPath → chip_error;
  arp_Check : SubjectDescriptor → RequestPath → chip_error
}.

Inductive ChangeType := kAdded | kRemoved | kUpdated.

(** A call of [OnEntryChanged]: the listener, the arguments, and the entry if one is given. *)
Record notification := mkNotification {
  nt_listener : Z;
  nt_subject : option SubjectDescriptor;
  nt_fabric : Z;
  nt_index : Z;
  nt_entry : option Z;
  nt_change : ChangeType
}.

(** [mDelegate] set or null, the list of listeners from [mEntryListener] on, and the calls
    made to them, in order. *)
Record AccessControl := mkAC {
  ac_initialized : bool;
  ac_listeners : list Z;
  ac_notified : list notification
}.

(** [ReturnErrorOnFailure]. *)
Definition or_return {A B} (g : outcome (chip_error * A)) (k : A → outcome (chip_error + B)) : outcome (chip_error + B) :=
  let+ (err, v) := g in if decide (err = CHIP_NO_ERROR) then k v else Returns (inl err).
Notation "'let!' x ':=' g 'in' k" := (or_return g (λ x, k)) (at level 10, x pattern, g at level 100, k at level 200).

Section Access.
Context {S : Type} `{AclDelegate S}.

(** ** The check *)

(** The subject is matched by one of the subjects from number [i] on, of [n] that are left. *)
Fixpoint check_subjects (subjectDescriptor : SubjectDescriptor) (authMode : AuthMode) (entry : Z) (n : nat) (i : Z) (s : S)
    : outcome (chip_error + bool) :=
  match n with
  | O => Returns (inr false)
  | Datatypes.S n =>
      let! subject := en_GetSubject entry i s in
      let next := check_subjects subjectDescriptor authMode entry n (i + 1) s in
      if IsOperationalNodeId subject then
        if negb (bool_decide (authMode = kCase)) then Returns (inl CHIP_ERROR_INCORRECT_STATE)
        else if subject =? sd_subject subjectDescriptor then Returns (inr true) else next
      else if IsCASEAuthTag subject then
        if negb (bool_decide (authMode = kCase)) then Returns (inl CHIP_ERROR_INCORRECT_STATE)
        else if CheckSubjectAgainstCATs subject (sd_cats subjectDescriptor) then Returns (inr true) else next
      else if IsGroupId subject then
        if negb (bool_decide (authMode = kGroup)) then Returns (inl CHIP_ERROR_INCORRECT_STATE)
        else if subject =? sd_subject subjectDescriptor then Returns (inr true) else next
      else Returns (inl CHIP_ERROR_INCORRECT_STATE)
  end.

Section Resolver.
(** [mDeviceTypeResolver->IsDeviceTypeOnEndpoint]. *)
Context (IsDeviceTypeOnEndpoint : Z → Z → bool).

Definition target_matches (requestPath : RequestPath) (target : Target) : bool :=
  if has_flag target kCluster && negb (tg_cluster target =? rp_cluster requestPath) then false
  else if has_flag target kEndpoint && negb (tg_endpoint target =? rp_endpoint requestPath) then false
  else if has_flag target kDeviceType && negb (IsDeviceTypeOnEndpoint (tg_deviceType target) (rp_endpoint requestPath))
  then false
  else true.

Fixpoint check_targets (requestPath : RequestPath) (entry : Z) (n : nat) (i : Z) (s : S) : outcome (chip_error + bool) :=
  match n with
  | O => Returns (inr false)
  | Datatypes.S n =>
      let! target := en_GetTarget entry i Target_new s in
      if target_matches requestPath target then Returns (inr true) else check_targets requestPath entry n (i + 1) s
  end.

(** The body of the loop: an error to return, access allowed, or the next entry. *)
Definition check_entry (subjectDescriptor : SubjectDescriptor) (requestPath : RequestPath) (requestPrivilege : Privilege)
    (entry : Z) (s : S) : outcome (chip_error + bool) :=
  let! authMode := en_GetAuthMode entry s in
  if negb (bool_decide (authMode = kCase) || bool_decide (authMode = kGroup)) then Returns (inl CHIP_ERROR_INCORRECT_STATE)
  else if negb (bool_decide (authMode = sd_authMode subjectDescriptor)) then Returns (inr false)
  else
    let! privilege := en_GetPrivilege entry s in
    if negb (CheckRequestPrivilegeAgainstEntryPrivilege requestPrivilege privilege) then Returns (inr false)
    else
      let! subjectCount := en_GetSubjectCount entry s in
      let! subjectMatched :=
        (let+ r := (if 0 <? subjectCount
                    then check_subjects subjectDescriptor authMode entry (Z.to_nat subjectCount) 0 s
                    else Returns (inr true)) in
         Returns (match r with inl err => (err, false) | inr b => (CHIP_NO_ERROR, b) end)) in
      if negb subjectMatched then Returns (inr false)
      else
        let! targetCount := en_GetTargetCount entry s in
        if 0 <? targetCount then check_targets requestPath entry (Z.to_nat targetCount) 0 s else Returns (inr true).

Fixpoint check_loop (fuel : nat) (subjectDescriptor : SubjectDescriptor) (requestPath : RequestPath)
    (requestPrivilege : Privilege) (iterator entry : Z) (s : S) : outcome (chip_error * S) :=
  match fuel with
  | O => Crashes NoReturn
  | Datatypes.S fuel =>
      let+ (err, s) := it_Next iterator entry s in
      if decide (err = CHIP_NO_ERROR) then
        let+ r := check_entry subjectDescriptor requestPath requestPrivilege entry s in
        match r with
        | inl err => Returns (err, s)
        | inr true => Returns (CHIP_NO_ERROR, s)
        | inr false => check_loop fuel subjectDescriptor requestPath requestPrivilege iterator entry s
        end
      else Returns (CHIP_ERROR_ACCESS_DENIED, s)
  end.

(** [iterator] and [entry] are the addresses of the local objects. *)
Definition CheckACL (fuel : nat) (subjectDescriptor : SubjectDescriptor) (requestPath : RequestPath)
    (requestPrivilege : Privilege) (iterator entry : Z) (s : S) : outcome (chip_error * S) :=
  let result := d_Check subjectDescriptor requestPath requestPrivilege s in
  if negb (bool_decide (result = CHIP_ERROR_NOT_IMPLEMENTED)) then Returns (result, s)
  else if bool_decide (sd_authMode subjectDescriptor = kPase) then Returns (CHIP_NO_ERROR, s)
  else
    let s := it_construct iterator s in
    let+ (err, s) := d_Entries iterator (Some (sd_fabricIndex subjectDescriptor)) s in
    if decide (err = CHIP_NO_ERROR) then
      let s := en_construct entry s in
      let+ (err, s) := check_loop fuel subjectDescriptor requestPath requestPrivilege iterator entry s in
      let+ s := en_destroy entry s in
      let+ s := it_destroy iterator s in
      Returns (err, s)
    else
      let+ s := it_destroy iterator s in
      Returns (err, s).

(** [CHIP_CONFIG_USE_ACCESS_RESTRICTIONS], and [mAccessRestrictionProvider]. *)
Context (use_restrictions : bool) (mAccessRestrictionProvider : option restriction_provider).

Definition IsAccessRestrictionListSupported : bool :=
  if use_restrictions then match mAccessRestrictionProvider with Some _ => true | None => false end else false.

Definition CheckARL (subjectDescriptor : SubjectDescriptor) (requestPath : RequestPath) : chip_error :=
  if bool_decide (rp_requestType requestPath = kRequestTypeUnknown) then CHIP_ERROR_INVALID_ARGUMENT
  else
    match mAccessRestrictionProvider with
    | None => CHIP_NO_ERROR
    | Some provider =>
        if sd_isCommissioning subjectDescriptor then arp_CheckForCommissioning provider subjectDescriptor requestPath
        else arp_Check provider subjectDescriptor requestPath
    end.

Definition Check (fuel : nat) (subjectDescriptor : SubjectDescriptor) (requestPath : RequestPath)
    (requestPrivilege : Privilege) (iterator entry : Z) (ac : AccessControl) (s : S) : outcome (chip_error * S) :=
  if negb (ac_initialized ac) then Returns (CHIP_ERROR_INCORRECT_STATE, s)
  else
    let+ (result, s) := CheckACL fuel subjectDescriptor requestPath requestPrivilege iterator entry s in
    if use_restrictions && bool_decide (result = CHIP_NO_ERROR) then Returns (CheckARL subjectDescriptor requestPath, s)
    else Returns (result, s).

End Resolver.

(** ** Valid entries *)

Fixpoint valid_subjects (authMode : AuthMode) (entry : Z) (n : nat) (i : Z) (s : S) : outcome (chip_error + bool) :=
  match n with
  | O => Returns (inr true)
  | Datatypes.S n =>
      let! subject := en_GetSubject entry i s in
      let kIsCase := bool_decide (authMode = kCase) in
      let kIsGroup := bool_decide (authMode = kGroup) in
      if (kIsCase && IsValidCaseNodeId subject) || (kIsGroup && IsValidGroupNodeId subject)
      then valid_subjects authMode entry n (i + 1) s else Returns (inr false)
  end.

Definition valid_target (target : Target) : bool :=
  let kHasCluster := has_flag target kCluster in
  let kHasEndpoint := has_flag target kEndpoint in
  let kHasDeviceType := has_flag target kDeviceType in
  (kHasCluster || kHasEndpoint || kHasDeviceType) && negb (kHasEndpoint && kHasDeviceType) &&
  (negb kHasCluster || IsValidClusterId (tg_cluster target)) &&
  (negb kHasEndpoint || IsValidEndpointId (tg_endpoint target)) &&
  (negb kHasDeviceType || IsValidDeviceTypeId (tg_deviceType target)).

Fixpoint valid_targets (entry : Z) (n : nat) (i : Z) (s : S) : outcome (chip_error + bool) :=
  match n with
  | O => Returns (inr true)
  | Datatypes.S n =>
      let! target := en_GetTarget entry i Target_new s in
      if valid_target target then valid_targets entry n (i + 1) s else Returns (inr false)
  end.

(** An error of a getter makes the entry invalid. *)
Definition IsValid (entry : Z) (s : S) : outcome bool :=
  let+ r :=
    (let! authMode := en_GetAuthMode entry s in
     let! fabricIndex := en_GetFabricIndex entry s in
     let! privilege := en_GetPrivilege entry s in
     let! subjectCount := en_GetSubjectCount entry s in
     let! targetCount := en_GetTargetCount entry s in
     if fabricIndex =? kUndefinedFabricIndex then Returns (inr false)
     else if negb (bool_decide (authMode = kCase)) && negb (bool_decide (authMode = kGroup)) then Returns (inr false)
     else if negb (bool_decide (authMode = kCase)) && bool_decide (privilege = kAdminister) then Returns (inr false)
     else
       let! ok := (let+ r := valid_subjects authMode entry (Z.to_nat subjectCount) 0 s in
                   Returns (match r with inl err => (err, false) | inr b => (CHIP_NO_ERROR, b) end)) in
       if negb ok then Returns (inr false) else valid_targets entry (Z.to_nat targetCount) 0 s) in
  Returns (match r with inl _ => false | inr b => b end).

(** ** Listeners *)

Definition AddEntryListener (listener : Z) (ac : AccessControl) : AccessControl :=
  if bool_decide (listener ∈ ac_listeners ac) then ac
  else mkAC (ac_initialized ac) (ac_listeners ac ++ [listener]) (ac_notified ac).

Fixpoint unlink (listener : Z) (ls : list Z) : list Z :=
  match ls with [] => [] | l :: ls => if l =? listener then ls else l :: unlink listener ls end.

Definition RemoveEntryListener (listener : Z) (ac : AccessControl) : AccessControl :=
  mkAC (ac_initialized ac) (unlink listener (ac_listeners ac)) (ac_notified ac).

Definition NotifyEntryChanged (subjectDescriptor : option SubjectDescriptor) (fabric index : Z) (entry : option Z)
    (changeType : ChangeType) (ac : AccessControl) : AccessControl :=
  mkAC (ac_initialized ac) (ac_listeners ac)
    (ac_notified ac ++ map (λ l, mkNotification l subjectDescriptor fabric index entry changeType) (ac_listeners ac)).

(** ** Changes of the list *)

Definition AccessControl_Init (delegate : bool) (ac : AccessControl) (s : S) : chip_error * AccessControl * S :=
  if ac_initialized ac then (CHIP_ERROR_INCORRECT_STATE, ac, s)
  else if negb delegate then (CHIP_ERROR_INVALID_ARGUMENT, ac, s)
  else
    let '(retval, s) := d_Init s in
    (retval, mkAC (bool_decide (retval = CHIP_NO_ERROR)) (ac_listeners ac) (ac_notified ac), s).

Definition AccessControl_Finish (ac : AccessControl) (s : S) : AccessControl * S :=
  if negb (ac_initialized ac) then (ac, s) else (mkAC false (ac_listeners ac) (ac_notified ac), d_Finish s).

Definition CreateEntry (subjectDescriptor : option SubjectDescriptor) (fabric entry : Z) (ac : AccessControl) (s : S)
    : outcome (chip_error * option Z * AccessControl * S) :=
  if negb (ac_initialized ac) then Returns (CHIP_ERROR_INCORRECT_STATE, None, ac, s)
  else
    let '(err, count) := d_GetEntryCount fabric s in
    if negb (bool_decide (err = CHIP_NO_ERROR)) then Returns (err, None, ac, s)
    else
      let '(err, maxCount) := d_GetMaxEntriesPerFabric s in
      if negb (bool_decide (err = CHIP_NO_ERROR)) then Returns (err, None, ac, s)
      else if maxCount <? count + 1 then Returns (CHIP_ERROR_BUFFER_TOO_SMALL, None, ac, s)
      else
        let+ valid := IsValid entry s in
        if negb valid then Returns (CHIP_ERROR_INVALID_ARGUMENT, None, ac, s)
        else
          let+ (err, i, fabric', s) := d_CreateEntry entry (Some fabric) s in
          if negb (bool_decide (err = CHIP_NO_ERROR)) then Returns (err, None, ac, s)
          else
            Returns (CHIP_NO_ERROR, Some i,
              NotifyEntryChanged subjectDescriptor (default fabric fabric') i (Some entry) kAdded ac, s).

Definition ReadEntry (fabric index entry : Z) (ac : AccessControl) (s : S) : outcome (chip_error * S) :=
  if negb (ac_initialized ac) then Returns (CHIP_ERROR_INCORRECT_STATE, s) else d_ReadEntry index entry (Some fabric) s.

Definition UpdateEntry (subjectDescriptor : option SubjectDescriptor) (fabric index entry : Z) (ac : AccessControl) (s : S)
    : outcome (chip_error * AccessControl * S) :=
  if negb (ac_initialized ac) then Returns (CHIP_ERROR_INCORRECT_STATE, ac, s)
  else
    let+ valid := IsValid entry s in
    if negb valid then Returns (CHIP_ERROR_INVALID_ARGUMENT, ac, s)
    else
      let+ (err, s) := d_UpdateEntry index entry (Some fabric) s in
      if negb (bool_decide (err = CHIP_NO_ERROR)) then Returns (err, ac, s)
      else Returns (CHIP_NO_ERROR, NotifyEntryChanged subjectDescriptor fabric index (Some entry) kUpdated ac, s).

(** [entry] is the address of the local object. *)
Definition DeleteEntry (subjectDescriptor : option SubjectDescriptor) (fabric index entry : Z) (ac : AccessControl) (s : S)
    : outcome (chip_error * AccessControl * S) :=
  if negb (ac_initialized ac) then Returns (CHIP_ERROR_INCORRECT_STATE, ac, s)
  else
    let s := en_construct entry s in
    let+ (p, s) :=
      (if bool_decide (ac_listeners ac = []) then Returns (None, s)
       else
         let+ (err, s) := ReadEntry fabric index entry ac s in
         Returns (if bool_decide (err = CHIP_NO_ERROR) then Some entry else None, s)) in
    let+ (err, s) := d_DeleteEntry index (Some fabric) s in
    if negb (bool_decide (err = CHIP_NO_ERROR)) then
      let+ s := en_destroy entry s in Returns (err, ac, s)
    else
      let p := if en_HasDefaultDelegate entry s then None else p in
      let ac := NotifyEntryChanged subjectDescriptor fabric index p kRemoved ac in
      let+ s := en_destroy entry s in
      Returns (CHIP_NO_ERROR, ac, s).

(** The loop of [DeleteAllEntriesForFabric], with the entries left and the first error. *)
Fixpoint delete_all (aclCount : nat) (fabricIndex entry : Z) (stickyError : chip_error) (ac : AccessControl) (s : S)
    : outcome (chip_error * AccessControl * S) :=
  match aclCount with
  | O => Returns (stickyError, ac, s)
  | Datatypes.S n =>
      let+ (err, ac, s) := DeleteEntry None fabricIndex (Z.of_nat n) entry ac s in
      delete_all n fabricIndex entry (if decide (stickyError = CHIP_NO_ERROR) then err else stickyError) ac s
  end.

Definition DeleteAllEntriesForFabric (fabricIndex entry : Z) (ac : AccessControl) (s : S)
    : outcome (chip_error * AccessControl * S) :=
  if negb (ac_initialized ac) then Returns (CHIP_ERROR_INCORRECT_STATE, ac, s)
  else
    match d_GetEntryCount fabricIndex s with
    | (CHIP_NO_ERROR, aclCount) => delete_all (Z.to_nat aclCount) fabricIndex entry CHIP_NO_ERROR ac s
    | _ => Returns (CHIP_NO_ERROR, ac, s)
    end.

End Access.
