(* ===== verification/AccessSpec.v ===== *)
(** * Access control: the decision

    What the entries of the access control list grant, what a delegate promises, and that the
    check of a request decides as the entries say. *)

From S2P Require Import Prelude.
From S2P Require Import COutcome.
From S2P Require Import ChipError.
From S2P Require Import AccessTypes.
From S2P Require Import AccessControl.

(** ** Entries *)

Record acl_entry := mkEntry {
  ae_fabric : Z;
  ae_authMode : AuthMode;
  ae_privilege : Privilege;
  ae_subjects : list Z;
  ae_targets : list Target
}.

(** A subject of an entry is the subject of the request, or a tag that the request holds in
    the same or a later version. *)
Definition subject_matches (sd : SubjectDescriptor) (subject : Z) : bool :=
  if IsCASEAuthTag subject then CheckSubjectAgainstCATs subject (sd_cats sd) else subject =? sd_subject sd.

(** An entry without subjects is for all subjects, one without targets for all targets. *)
Definition grants (on_endpoint : Z → Z → bool) (sd : SubjectDescriptor) (rp : RequestPath) (pr : Privilege) (e : acl_entry) : bool :=
  bool_decide (ae_authMode e = sd_authMode sd) &&
  CheckRequestPrivilegeAgainstEntryPrivilege pr (ae_privilege e) &&
  (bool_decide (ae_subjects e = []) || existsb (subject_matches sd) (ae_subjects e)) &&
  (bool_decide (ae_targets e = []) || existsb (target_matches on_endpoint rp) (ae_targets e)).

Definition valid_subject (authMode : AuthMode) (subject : Z) : bool :=
  (bool_decide (authMode = kCase) && IsValidCaseNodeId subject) || (bool_decide (authMode = kGroup) && IsValidGroupNodeId subject).

(** What an entry must be to be stored. *)
Definition entry_ok (e : acl_entry) : bool :=
  negb (ae_fabric e =? kUndefinedFabricIndex) &&
  (bool_decide (ae_authMode e = kCase) || (bool_decide (ae_authMode e = kGroup) && negb (bool_decide (ae_privilege e = kAdminister)))) &&
  forallb (valid_subject (ae_authMode e)) (ae_subjects e) && forallb valid_target (ae_targets e).

(** ** What a delegate promises *)

Section Shows.
Context {S : Type} `{AclDelegate S}.

(** The object [en] shows the entry [e]. *)
Definition shows (en : Z) (e : acl_entry) (s : S) : Prop :=
  en_GetAuthMode en s = Returns (CHIP_NO_ERROR, ae_authMode e) ∧
  en_GetFabricIndex en s = Returns (CHIP_NO_ERROR, ae_fabric e) ∧
  en_GetPrivilege en s = Returns (CHIP_NO_ERROR, ae_privilege e) ∧
  en_GetSubjectCount en s = Returns (CHIP_NO_ERROR, Z.of_nat (length (ae_subjects e))) ∧
  (∀ i x, ae_subjects e !! i = Some x → en_GetSubject en (Z.of_nat i) s = Returns (CHIP_NO_ERROR, x)) ∧
  en_GetTargetCount en s = Returns (CHIP_NO_ERROR, Z.of_nat (length (ae_targets e))) ∧
  (∀ i t, ae_targets e !! i = Some t → en_GetTarget en (Z.of_nat i) Target_new s = Returns (CHIP_NO_ERROR, t)).

End Shows.

(** The entries of a fabric can be iterated over: [at_entry s f it en k s'] says that in [s']
    the iterator [it], made in [s], has given [k] entries of fabric [f], the last one to the
    object [en]. *)
Class AclLaws (S : Type) `{AclDelegate S} := {
  entries_of : Z → S → list acl_entry;
  ready : Z → Z → S → Prop;
  at_entry : S → Z → Z → Z → nat → S → Prop;
  law_check sd rp pr s : d_Check sd rp pr s = CHIP_ERROR_NOT_IMPLEMENTED;
  law_begin f it en s :
    ready it en s → ∃ s', d_Entries it (Some f) (it_construct it s) = Returns (CHIP_NO_ERROR, s') ∧
      at_entry s f it en 0 (en_construct en s');
  law_next f it en k s s1 e :
    at_entry s f it en k s1 → entries_of f s !! k = Some e →
    ∃ s2, it_Next it en s1 = Returns (CHIP_NO_ERROR, s2) ∧ at_entry s f it en (Datatypes.S k) s2 ∧ shows en e s2;
  law_last f it en k s s1 :
    at_entry s f it en k s1 → entries_of f s !! k = None →
    ∃ s2, it_Next it en s1 = Returns (CHIP_ERROR_SENTINEL, s2) ∧ at_entry s f it en k s2;
  law_end f it en k s s1 :
    at_entry s f it en k s1 →
    ∃ s2 s3, en_destroy en s1 = Returns s2 ∧ it_destroy it s2 = Returns s3 ∧ ready it en s3 ∧
      ∀ g, entries_of g s3 = entries_of g s
}.

(** ** Reading an entry *)

Section Check.
Context {S : Type} `{AclLaws S}.

Lemma or_return_ok {A B} (g : outcome (chip_error * A)) v (k : A → outcome (chip_error + B)) :
  g = Returns (CHIP_NO_ERROR, v) → or_return g k = k v.
Proof. by intros ->. Qed.

(** A node identifier has one kind. *)
Lemma operational_not_tag x : IsOperationalNodeId x = true → IsCASEAuthTag x = false.
Proof.
  unfold IsOperationalNodeId, IsCASEAuthTag, kMaxOperationalNodeId, kMinCASEAuthTag. intros Ho. zbool.
  rewrite (proj2 (Z.leb_gt _ _)) by lia. done.
Qed.

Lemma group_not_tag x : IsGroupId x = true → IsCASEAuthTag x = false ∧ IsOperationalNodeId x = false.
Proof.
  unfold IsGroupId, IsCASEAuthTag, IsOperationalNodeId, kMinGroupNodeId, kMaxCASEAuthTag, kMaxOperationalNodeId.
  intros Hg. zbool. rewrite (proj2 (Z.leb_gt x 0xFFFFFFFDFFFFFFFF)), (proj2 (Z.leb_gt x 0xFFFFFFEFFFFFFFFF)) by lia.
  by rewrite !andb_false_r.
Qed.

Lemma check_subjects_spec sd am en l s i n :
  (∀ k x, l !! k = Some x → en_GetSubject en (i + Z.of_nat k) s = Returns (CHIP_NO_ERROR, x)) → n = length l →
  forallb (valid_subject am) l = true →
  check_subjects sd am en n i s = Returns (inr (existsb (subject_matches sd) l)).
Proof.
  revert i n. induction l as [|x l IH]; intros i n Hg -> Hv; [done|].
  cbn [forallb] in Hv. apply andb_prop in Hv as [Hx Hv]. cbn [length check_subjects].
  rewrite (or_return_ok _ x) by (specialize (Hg O x eq_refl); by rewrite Z.add_0_r in Hg).
  assert (Hnext : check_subjects sd am en (length l) (i + 1) s = Returns (inr (existsb (subject_matches sd) l))).
  { apply IH; try done. intros k y Hk. specialize (Hg (Datatypes.S k) y Hk). rewrite <- Hg. f_equal. lia. }
  cbn zeta. rewrite Hnext. cbn [existsb]. unfold valid_subject in Hx.
  change (subject_matches sd x) with (if IsCASEAuthTag x then CheckSubjectAgainstCATs x (sd_cats sd) else x =? sd_subject sd).
  apply orb_prop in Hx as [[Ham Hok]%andb_prop|[Ham Hok]%andb_prop]; apply bool_decide_eq_true in Ham; subst am.
  - unfold IsValidCaseNodeId in Hok. rewrite bool_decide_true by done. cbn [negb].
    destruct (IsOperationalNodeId x) eqn:Ho.
    + rewrite (operational_not_tag x Ho). by destruct (x =? sd_subject sd).
    + destruct (IsCASEAuthTag x); [|done]. by destruct (CheckSubjectAgainstCATs x (sd_cats sd)).
  - unfold IsValidGroupNodeId in Hok. apply andb_prop in Hok as [Hg' _]. destruct (group_not_tag x Hg') as [-> ->].
    rewrite Hg', bool_decide_true by done. cbn [negb]. by destruct (x =? sd_subject sd).
Qed.

Lemma check_targets_spec on_endpoint rp en l s i n :
  (∀ k t, l !! k = Some t → en_GetTarget en (i + Z.of_nat k) Target_new s = Returns (CHIP_NO_ERROR, t)) → n = length l →
  check_targets on_endpoint rp en n i s = Returns (inr (existsb (target_matches on_endpoint rp) l)).
Proof.
  revert i n. induction l as [|t l IH]; intros i n Hg ->; [done|]. cbn [length check_targets existsb].
  rewrite (or_return_ok _ t) by (specialize (Hg O t eq_refl); by rewrite Z.add_0_r in Hg).
  destruct (target_matches on_endpoint rp t); [done|]. apply IH; [|done].
  intros k y Hk. specialize (Hg (Datatypes.S k) y Hk). rewrite <- Hg. f_equal. lia.
Qed.

(** A valid entry is decided on without an error. *)
Lemma check_entry_spec on_endpoint sd rp pr en e s :
  shows en e s → entry_ok e = true → check_entry on_endpoint sd rp pr en s = Returns (inr (grants on_endpoint sd rp pr e)).
Proof.
  intros (Ha&Hf&Hp&Hsc&Hs&Htc&Ht) Hok. unfold entry_ok in Hok.
  apply andb_prop in Hok as [[[_ Ham]%andb_prop Hsv]%andb_prop _].
  unfold check_entry, grants. rewrite (or_return_ok _ _ _ Ha).
  assert (bool_decide (ae_authMode e = kCase) || bool_decide (ae_authMode e = kGroup) = true) as ->.
  { apply orb_prop in Ham as [->|[-> _]%andb_prop]; [done|apply orb_true_r]. }
  cbn [negb]. destruct (bool_decide (ae_authMode e = sd_authMode sd)); cbn [negb andb]; [|done].
  rewrite (or_return_ok _ _ _ Hp). destruct (CheckRequestPrivilegeAgainstEntryPrivilege pr (ae_privilege e)); cbn [negb andb]; [|done].
  rewrite (or_return_ok _ _ _ Hsc).
  assert ((if 0 <? Z.of_nat (length (ae_subjects e))
    then check_subjects sd (ae_authMode e) en (Z.to_nat (Z.of_nat (length (ae_subjects e)))) 0 s else Returns (inr true)) =
    Returns (inr (bool_decide (ae_subjects e = []) || existsb (subject_matches sd) (ae_subjects e)))) as ->.
  { destruct (ae_subjects e) as [|x l] eqn:El; [done|]. rewrite <- El in *. rewrite (proj2 (Z.ltb_lt _ _)) by (rewrite El; cbn; lia).
    rewrite Nat2Z.id, (check_subjects_spec sd _ en (ae_subjects e) s 0 _) by done. rewrite bool_decide_false by (by rewrite El). done. }
  cbn [obind]. rewrite (or_return_ok _ _ _ eq_refl). destruct (bool_decide (ae_subjects e = []) || _); cbn [negb andb]; [|done].
  rewrite (or_return_ok _ _ _ Htc).
  destruct (ae_targets e) as [|t l] eqn:El; [done|]. rewrite <- El in *. rewrite (proj2 (Z.ltb_lt _ _)) by (rewrite El; cbn; lia).
  rewrite Nat2Z.id, (check_targets_spec on_endpoint rp en (ae_targets e) s 0 _) by done. rewrite bool_decide_false by (by rewrite El). done.
Qed.

Lemma valid_subjects_spec am en l s i n :
  (∀ k x, l !! k = Some x → en_GetSubject en (i + Z.of_nat k) s = Returns (CHIP_NO_ERROR, x)) → n = length l →
  valid_subjects am en n i s = Returns (inr (forallb (valid_subject am) l)).
Proof.
  revert i n. induction l as [|x l IH]; intros i n Hg ->; [done|]. cbn [length valid_subjects forallb].
  rewrite (or_return_ok _ x) by (specialize (Hg O x eq_refl); by rewrite Z.add_0_r in Hg).
  cbn zeta. fold (valid_subject am x). destruct (valid_subject am x); [|done]. apply IH; [|done].
  intros k y Hk. specialize (Hg (Datatypes.S k) y Hk). rewrite <- Hg. f_equal. lia.
Qed.

Lemma valid_targets_spec en l s i n :
  (∀ k t, l !! k = Some t → en_GetTarget en (i + Z.of_nat k) Target_new s = Returns (CHIP_NO_ERROR, t)) → n = length l →
  valid_targets en n i s = Returns (inr (forallb valid_target l)).
Proof.
  revert i n. induction l as [|t l IH]; intros i n Hg ->; [done|]. cbn [length valid_targets forallb].
  rewrite (or_return_ok _ t) by (specialize (Hg O t eq_refl); by rewrite Z.add_0_r in Hg).
  destruct (valid_target t); [|done]. apply IH; [|done].
  intros k y Hk. specialize (Hg (Datatypes.S k) y Hk). rewrite <- Hg. f_equal. lia.
Qed.

(** The validation computes [entry_ok] of the entry shown. *)
Lemma IsValid_spec en e s : shows en e s → IsValid en s = Returns (entry_ok e).
Proof.
  intros (Ha&Hf&Hp&Hsc&Hs&Htc&Ht). unfold IsValid, entry_ok.
  rewrite (or_return_ok _ _ _ Ha), (or_return_ok _ _ _ Hf), (or_return_ok _ _ _ Hp), (or_return_ok _ _ _ Hsc), (or_return_ok _ _ _ Htc).
  destruct (ae_fabric e =? kUndefinedFabricIndex); [done|]. cbn [negb andb].
  rewrite (valid_subjects_spec _ en (ae_subjects e) s 0) by (done || by rewrite Nat2Z.id). cbn [obind].
  rewrite (valid_targets_spec en (ae_targets e) s 0) by (done || by rewrite Nat2Z.id).
  rewrite (or_return_ok (Returns (CHIP_NO_ERROR, _)) _ _ eq_refl).
  destruct (bool_decide (ae_authMode e = kCase)), (bool_decide (ae_authMode e = kGroup)), (bool_decide (ae_privilege e = kAdminister));
    cbn [negb andb orb]; try done; by destruct (forallb (valid_subject _) _).
Qed.

(** ** The check *)

Lemma check_loop_spec on_endpoint sd rp pr f it en s fuel :
  ∀ k s1, at_entry s f it en k s1 → Forall (λ e, entry_ok e = true) (entries_of f s) →
  (k <= length (entries_of f s) < k + fuel)%nat →
  ∃ k' s2, check_loop on_endpoint fuel sd rp pr it en s1 =
    Returns (if existsb (grants on_endpoint sd rp pr) (drop k (entries_of f s)) then CHIP_NO_ERROR else CHIP_ERROR_ACCESS_DENIED, s2) ∧
    at_entry s f it en k' s2.
Proof.
  induction fuel as [|fuel IH]; intros k s1 Hat Hok Hfuel.
  { lia. }
  cbn [check_loop]. destruct (entries_of f s !! k) as [e|] eqn:Ek.
  - destruct (law_next f it en k s s1 e Hat Ek) as (s2&->&Hat2&Hsh). cbn [obind]. rewrite decide_True by done.
    pose proof (Forall_lookup_1 _ _ _ _ Hok Ek) as He. cbn beta in He.
    rewrite (check_entry_spec on_endpoint sd rp pr en e s2 Hsh He). cbn [obind]. rewrite (drop_S _ _ _ Ek). cbn [existsb].
    destruct (grants on_endpoint sd rp pr e); [by exists (Datatypes.S k), s2|]. apply lookup_lt_Some in Ek. apply IH; [done|done|lia].
  - destruct (law_last f it en k s s1 Hat Ek) as (s2&->&Hat2). cbn [obind]. rewrite decide_False by done.
    exists k, s2. split; [|done]. apply lookup_ge_None in Ek. by rewrite drop_ge by lia.
Qed.

(** The check of a request decides exactly as the entries of the fabric of its subject
    say: it is allowed in a session of commissioning, or if one entry of that fabric grants the
    privilege to the subject on the target; otherwise it is denied. It returns with fuel for
    one step more than there are entries, and leaves the list as it was. *)
Theorem check_decides on_endpoint fuel sd rp pr it en s :
  ready it en s → Forall (λ e, entry_ok e = true) (entries_of (sd_fabricIndex sd) s) →
  (length (entries_of (sd_fabricIndex sd) s) < fuel)%nat →
  ∃ s', CheckACL on_endpoint fuel sd rp pr it en s =
    Returns (if bool_decide (sd_authMode sd = kPase) || existsb (grants on_endpoint sd rp pr) (entries_of (sd_fabricIndex sd) s)
             then CHIP_NO_ERROR else CHIP_ERROR_ACCESS_DENIED, s') ∧
    ready it en s' ∧ ∀ g, entries_of g s' = entries_of g s.
Proof.
  intros Hr Hok Hfuel. unfold CheckACL. rewrite law_check. rewrite bool_decide_true by done. cbn [negb].
  destruct (bool_decide (sd_authMode sd = kPase)); [by exists s|]. cbn [orb].
  destruct (law_begin (sd_fabricIndex sd) it en s Hr) as (s1&->&Hat). cbn [obind]. rewrite decide_True by done.
  destruct (check_loop_spec on_endpoint sd rp pr _ it en s fuel 0 _ Hat Hok) as (k&s2&->&Hat2); [lia|]. rewrite drop_0. cbn [obind].
  destruct (law_end _ it en k s s2 Hat2) as (s3&s4&->&E4&Hr4&Hsame). cbn [obind]. rewrite E4. cbn [obind]. by exists s4.
Qed.

End Check.

(** ** What the decision means *)

(** Privileges: each includes viewing, and administering includes all. *)
Lemma view_included pr : CheckRequestPrivilegeAgainstEntryPrivilege kView pr = true.
Proof. by destruct pr. Qed.

Lemma administer_includes pr : CheckRequestPrivilegeAgainstEntryPrivilege pr kAdminister = true.
Proof. by destruct pr. Qed.

(** Only an entry for a CASE session grants the privilege to administer. *)
Lemma administer_needs_case on_endpoint sd rp e :
  entry_ok e = true → grants on_endpoint sd rp kAdminister e = true → sd_authMode sd = kCase.
Proof.
  unfold entry_ok, grants. intros Hok Hg.
  apply andb_prop in Hok as [[[_ Ham]%andb_prop _]%andb_prop _]. apply andb_prop in Hg as [[[Ha Hp]%andb_prop _]%andb_prop _].
  apply bool_decide_eq_true in Ha. rewrite <- Ha. apply orb_prop in Ham as [Hc|[Hgr Hn]%andb_prop]; [by apply bool_decide_eq_true in Hc|].
  destruct (ae_privilege e); try done.
Qed.
