(* ===== verification/AclStorage.v ===== *)
(** * The access control list in memory

    The delegate of src/src/access/examples/ExampleAccessControlDelegate.cpp, in its default
    configuration (fast copy, no flexible copy). Entries are stored in the array [acl]; an
    [Entry] object shows one of them, or one in a pool of its own, through an [EntryDelegate]
    from a pool that points to the storage; iterators likewise. The pointers are part of the
    state, since deleting an entry moves those behind it and corrects the pointers. *)

From S2P Require Import Prelude.
From S2P Require Import COutcome.
From S2P Require Import ChipError.
From S2P Require Import AccessTypes.
From S2P Require Import AccessControl.

(** ** Subjects and targets *)

(** [SubjectStorage] is its field [mNode]. *)
Definition subject_IsEmpty (mNode : Z) : bool := mNode =? kUndefinedNodeId.
Definition subject_IsValid (node : Z) : bool := negb (node =? kUndefinedNodeId).

Definition subject_Get (mNode : Z) : chip_error * Z :=
  if negb (subject_IsEmpty mNode) then (CHIP_NO_ERROR, mNode) else (CHIP_ERROR_SENTINEL, kUndefinedNodeId).

Definition subject_Set (node mNode : Z) : chip_error * Z :=
  if negb (subject_IsEmpty mNode) then
    if subject_IsValid node then (CHIP_NO_ERROR, node) else (CHIP_ERROR_INVALID_ARGUMENT, mNode)
  else (CHIP_ERROR_SENTINEL, mNode).

Definition subject_Add (node mNode : Z) : chip_error * Z :=
  if subject_IsValid node then (CHIP_NO_ERROR, node) else (CHIP_ERROR_INVALID_ARGUMENT, mNode).

Definition kClusterEmpty : Z := 0xFFFFFFFF.
Definition kClusterIdMask : Z := 0x0000FFFF.
Definition kClusterIdMaxStd : Z := 0x00007FFF.
Definition kClusterIdMinMs : Z := 0x0000FC00.
Definition kClusterIdMaxMs : Z := 0x0000FFFE.
Definition kClusterVendorMask : Z := 0xFFFF0000.
Definition kClusterVendorMax : Z := 0xFFFE0000.
Definition kDeviceTypeEmpty : Z := 0xFFFFFFFF.
Definition kDeviceTypeIdMask : Z := 0x0000FFFF.
Definition kDeviceTypeIdMax : Z := 0x0000BFFF.
Definition kDeviceTypeVendorMask : Z := 0xFFFF0000.
Definition kDeviceTypeVendorMax : Z := 0xFFFE0000.
Definition kEndpointMagic : Z := 0x0000EEEE.
Definition kEndpointShift : Z := 16.

Record TargetStorage := mkTS {
  mCluster : Z;
  mDeviceType : Z
}.

Definition target_IsEmpty (t : TargetStorage) : bool := (mCluster t =? kClusterEmpty) && (mDeviceType t =? kDeviceTypeEmpty).
Definition target_Clear : TargetStorage := mkTS kClusterEmpty kDeviceTypeEmpty.

Definition IsValidCluster (cluster : Z) : bool :=
  let id := Z.land cluster kClusterIdMask in
  let vendor := Z.land cluster kClusterVendorMask in
  ((id <=? kClusterIdMaxStd) || ((kClusterIdMinMs <=? id) && (id <=? kClusterIdMaxMs))) && (vendor <=? kClusterVendorMax).

Definition IsValidDeviceType (deviceType : Z) : bool :=
  let id := Z.land deviceType kDeviceTypeIdMask in
  let vendor := Z.land deviceType kDeviceTypeVendorMask in
  (id <=? kDeviceTypeIdMax) && (vendor <=? kDeviceTypeVendorMax).

Definition target_IsValid (target : Target) : bool :=
  let kNotAll := Z.lor kEndpoint kDeviceType in
  let kAtLeastOne := Z.lor kNotAll kCluster in
  let kNone := u32 (Z.lnot kAtLeastOne) in
  (Z.land (tg_flags target) kNone =? 0) && negb (Z.land (tg_flags target) kAtLeastOne =? 0) &&
  negb (Z.land (tg_flags target) kNotAll =? kNotAll) &&
  negb (has_flag target kCluster && negb (IsValidCluster (tg_cluster target))) &&
  negb (has_flag target kDeviceType && negb (IsValidDeviceType (tg_deviceType target))).

(** [target] before the call: fields without a flag keep their values. *)
Definition target_Decode (t : TargetStorage) (target : Target) : Target :=
  let '(f1, cluster) := if negb (mCluster t =? kClusterEmpty) then (kCluster, mCluster t) else (0, tg_cluster target) in
  if negb (mDeviceType t =? kDeviceTypeEmpty) then
    if Z.land (mDeviceType t) kDeviceTypeIdMask =? kEndpointMagic
    then mkTarget (Z.lor f1 kEndpoint) cluster (u16 (Z.shiftr (mDeviceType t) kEndpointShift)) (tg_deviceType target)
    else mkTarget (Z.lor f1 kDeviceType) cluster (tg_endpoint target) (mDeviceType t)
  else mkTarget f1 cluster (tg_endpoint target) (tg_deviceType target).

Definition target_Encode (target : Target) : TargetStorage :=
  mkTS (if has_flag target kCluster then tg_cluster target else kClusterEmpty)
    (if has_flag target kEndpoint then Z.lor (u32 (Z.shiftl (tg_endpoint target) kEndpointShift)) kEndpointMagic
     else if has_flag target kDeviceType then tg_deviceType target else kDeviceTypeEmpty).

Definition target_Get (t : TargetStorage) (target : Target) : chip_error * Target :=
  if negb (target_IsEmpty t) then (CHIP_NO_ERROR, target_Decode t target) else (CHIP_ERROR_SENTINEL, target).

Definition target_Set (target : Target) (t : TargetStorage) : chip_error * TargetStorage :=
  if negb (target_IsEmpty t) then
    if target_IsValid target then (CHIP_NO_ERROR, target_Encode target) else (CHIP_ERROR_INVALID_ARGUMENT, t)
  else (CHIP_ERROR_SENTINEL, t).

Definition target_Add (target : Target) (t : TargetStorage) : chip_error * TargetStorage :=
  if target_IsValid target then (CHIP_NO_ERROR, target_Encode target) else (CHIP_ERROR_INVALID_ARGUMENT, t).

(** ** Entries *)

Record EntryStorage := mkES {
  mInUse : bool;
  mFabricIndex : Z;
  mAuthMode : AuthMode;
  mPrivilege : Privilege;
  mSubjects : list Z;
  mTargets : list TargetStorage
}.

Definition set_mInUse v e := mkES v (mFabricIndex e) (mAuthMode e) (mPrivilege e) (mSubjects e) (mTargets e).
Definition set_mFabricIndex v e := mkES (mInUse e) v (mAuthMode e) (mPrivilege e) (mSubjects e) (mTargets e).
Definition set_mAuthMode v e := mkES (mInUse e) (mFabricIndex e) v (mPrivilege e) (mSubjects e) (mTargets e).
Definition set_mPrivilege v e := mkES (mInUse e) (mFabricIndex e) (mAuthMode e) v (mSubjects e) (mTargets e).
Definition set_mSubjects v e := mkES (mInUse e) (mFabricIndex e) (mAuthMode e) (mPrivilege e) v (mTargets e).
Definition set_mTargets v e := mkES (mInUse e) (mFabricIndex e) (mAuthMode e) (mPrivilege e) (mSubjects e) v.

Definition storage_Clear (e : EntryStorage) : EntryStorage :=
  mkES false kUndefinedFabricIndex kPase kView (map (λ _, kUndefinedNodeId) (mSubjects e)) (map (λ _, target_Clear) (mTargets e)).

(** A pointer into [acl] or into the pool. *)
Inductive storage_ptr := PAcl (i : nat) | PPool (i : nat).

#[export] Instance storage_ptr_eq_dec : EqDecision storage_ptr.
Proof. solve_decision. Defined.

Record EntryDelegate := mkED {
  ed_mEntry : option Z;
  ed_mStorage : option storage_ptr
}.

(** [eid_mStorage]: null, or the index into [acl], its end included. *)
Record EntryIteratorDelegate := mkEID {
  eid_mInUse : bool;
  eid_mFabricFiltered : bool;
  eid_mFabricIndex : Z;
  eid_mStorage : option nat
}.

(** The arrays, and the objects of the classes [Entry] and [EntryIterator] by address, with
    the element of the pool that is their delegate, or none for the default delegate. *)
Record acs := mkAcs {
  acl : list EntryStorage;
  storage_pool : list EntryStorage;
  delegate_pool : list EntryDelegate;
  iterator_pool : list EntryIteratorDelegate;
  entry_objs : gmap Z (option nat);
  iterator_objs : gmap Z (option nat)
}.

Definition with_acl v s := mkAcs v (storage_pool s) (delegate_pool s) (iterator_pool s) (entry_objs s) (iterator_objs s).
Definition with_storage_pool v s := mkAcs (acl s) v (delegate_pool s) (iterator_pool s) (entry_objs s) (iterator_objs s).
Definition with_delegate_pool v s := mkAcs (acl s) (storage_pool s) v (iterator_pool s) (entry_objs s) (iterator_objs s).
Definition with_iterator_pool v s := mkAcs (acl s) (storage_pool s) (delegate_pool s) v (entry_objs s) (iterator_objs s).
Definition with_entry_objs v s := mkAcs (acl s) (storage_pool s) (delegate_pool s) (iterator_pool s) v (iterator_objs s).
Definition with_iterator_objs v s := mkAcs (acl s) (storage_pool s) (delegate_pool s) (iterator_pool s) (entry_objs s) v.

(** The first element that satisfies [p]. *)
Fixpoint first_index {A} (p : A → bool) (l : list A) : option nat :=
  match l with
  | [] => None
  | x :: l => if p x then Some O else S <$> first_index p l
  end.

Definition storage_at (p : storage_ptr) (s : acs) : option EntryStorage :=
  match p with PAcl i => acl s !! i | PPool i => storage_pool s !! i end.

Definition store (p : storage_ptr) (e : EntryStorage) (s : acs) : acs :=
  match p with
  | PAcl i => with_acl (<[i := e]> (acl s)) s
  | PPool i => with_storage_pool (<[i := e]> (storage_pool s)) s
  end.

Definition InPool (p : storage_ptr) : bool := match p with PPool _ => true | PAcl _ => false end.

Definition FindUnusedInAcl (s : acs) : option nat := first_index (λ e, negb (mInUse e)) (acl s).

(** The loop of [ConvertIndex] towards an absolute index; the result is that of the entry
    found, or the number of entries of [acl]. *)
Fixpoint to_absolute (size index fabricIndex absoluteIndex relativeIndex : Z) (l : list EntryStorage) : Z :=
  match l with
  | [] => size
  | e :: l =>
      if negb (mInUse e) then size
      else if mFabricIndex e =? fabricIndex then
        if index =? relativeIndex then absoluteIndex
        else to_absolute size index fabricIndex (absoluteIndex + 1) (relativeIndex + 1) l
      else to_absolute size index fabricIndex (absoluteIndex + 1) relativeIndex l
  end.

(** The same towards a relative index. *)
Fixpoint to_relative (size index fabricIndex absoluteIndex relativeIndex : Z) (l : list EntryStorage) : Z :=
  match l with
  | [] => size
  | e :: l =>
      if negb (mInUse e) then size
      else if mFabricIndex e =? fabricIndex then
        if index =? absoluteIndex then relativeIndex
        else to_relative size index fabricIndex (absoluteIndex + 1) (relativeIndex + 1) l
      else to_relative size index fabricIndex (absoluteIndex + 1) relativeIndex l
  end.

Inductive ConvertDirection := kAbsoluteToRelative | kRelativeToAbsolute.

Definition ConvertIndex (index fabricIndex : Z) (direction : ConvertDirection) (s : acs) : Z :=
  let size := Z.of_nat (length (acl s)) in
  match direction with
  | kAbsoluteToRelative => to_relative size index fabricIndex 0 0 (acl s)
  | kRelativeToAbsolute => to_absolute size index fabricIndex 0 0 (acl s)
  end.

Definition FindUsedInAcl (index : Z) (fabricIndex : option Z) (s : acs) : option nat :=
  let index := match fabricIndex with Some f => ConvertIndex index f kRelativeToAbsolute s | None => index end in
  if index <? Z.of_nat (length (acl s)) then
    match acl s !! Z.to_nat index with
    | Some e => if mInUse e then Some (Z.to_nat index) else None
    | None => None
    end
  else None.

(** [EntryStorage::Find]. *)
Definition storage_Find (candidate : option storage_ptr) (s : acs) : option storage_ptr :=
  match candidate with
  | Some (PPool i) => Some (PPool i)
  | _ => PPool <$> first_index (λ e, negb (mInUse e)) (storage_pool s)
  end.

Definition storage_Init (p : storage_ptr) (s : acs) : outcome acs :=
  match storage_at p s with
  | None => Crashes OutOfBounds
  | Some e => Returns (if negb (mInUse e) then store p (set_mInUse true (storage_Clear e)) s else s)
  end.

Definition storage_Release (p : storage_ptr) (s : acs) : outcome acs :=
  match storage_at p s with
  | None => Crashes OutOfBounds
  | Some e => Returns (if InPool p then store p (set_mInUse false e) s else s)
  end.

(** ** Delegates of entries *)

(** [EntryDelegate::Find]; the candidate is the delegate that the entry uses. *)
Definition delegate_Find (candidate : option nat) (s : acs) : option nat :=
  match candidate with
  | Some i => Some i
  | None => first_index (λ d, bool_decide (ed_mStorage d = None)) (delegate_pool s)
  end.

Definition delegate_Release (i : nat) (s : acs) : outcome acs :=
  match delegate_pool s !! i with
  | Some (mkED entry (Some p)) =>
      let+ s := storage_Release p s in
      Returns (with_delegate_pool (<[i := mkED entry None]> (delegate_pool s)) s)
  | _ => Crashes OutOfBounds
  end.

(** [Entry::SetDelegate] with an element of the pool, or [ResetDelegate]. *)
Definition entry_SetDelegate (entry : Z) (delegate : option nat) (s : acs) : outcome acs :=
  match entry_objs s !! entry with
  | None => Crashes OutOfBounds
  | Some old =>
      let+ s := match old with None => Returns s | Some j => delegate_Release j s end in
      Returns (with_entry_objs (<[entry := delegate]> (entry_objs s)) s)
  end.

Definition delegate_Init (i : nat) (entry : Z) (p : storage_ptr) (s : acs) : outcome acs :=
  let+ s := entry_SetDelegate entry (Some i) s in
  let+ s := storage_Init p s in
  Returns (with_delegate_pool (<[i := mkED (Some entry) (Some p)]> (delegate_pool s)) s).

(** The pointer to the storage, for an entry with a delegate from the pool. *)
Definition entry_ptr (entry : Z) (s : acs) : option storage_ptr :=
  match entry_objs s !! entry with
  | Some (Some i) => match delegate_pool s !! i with Some d => ed_mStorage d | None => None end
  | _ => None
  end.

(** A getter of an entry: that of the default delegate is not implemented. *)
Definition entry_get {A} (dflt : A) (f : EntryStorage → chip_error * A) (entry : Z) (s : acs) : outcome (chip_error * A) :=
  match entry_objs s !! entry with
  | None => Crashes OutOfBounds
  | Some None => Returns (CHIP_ERROR_NOT_IMPLEMENTED, dflt)
  | Some (Some _) =>
      match entry_ptr entry s with
      | Some p => match storage_at p s with Some e => Returns (f e) | None => Crashes OutOfBounds end
      | None => Crashes OutOfBounds
      end
  end.

(** The number of elements in front of the first empty one. *)
Fixpoint count_used {A} (empty : A → bool) (l : list A) : Z :=
  match l with [] => 0 | x :: l => if empty x then 0 else 1 + count_used empty l end.

Definition GetAuthMode := entry_get kNone (λ e, (CHIP_NO_ERROR, mAuthMode e)).
Definition GetFabricIndex := entry_get kUndefinedFabricIndex (λ e, (CHIP_NO_ERROR, mFabricIndex e)).
Definition GetPrivilege := entry_get kView (λ e, (CHIP_NO_ERROR, mPrivilege e)).
Definition GetSubjectCount := entry_get 0 (λ e, (CHIP_NO_ERROR, count_used subject_IsEmpty (mSubjects e))).
Definition GetTargetCount := entry_get 0 (λ e, (CHIP_NO_ERROR, count_used target_IsEmpty (mTargets e))).

Definition GetSubject (entry index : Z) : acs → outcome (chip_error * Z) :=
  entry_get kUndefinedNodeId (λ e,
    match mSubjects e !! Z.to_nat index with Some n => subject_Get n | None => (CHIP_ERROR_SENTINEL, kUndefinedNodeId) end) entry.

Definition GetTarget (entry index : Z) (target : Target) : acs → outcome (chip_error * Target) :=
  entry_get target (λ e,
    match mTargets e !! Z.to_nat index with Some t => target_Get t target | None => (CHIP_ERROR_SENTINEL, target) end) entry.

(** [EnsureStorageInPool] of delegate [i]. *)
Definition EnsureStorageInPool (i : nat) (s : acs) : outcome (chip_error * acs) :=
  match delegate_pool s !! i with
  | Some (mkED entry (Some p)) =>
      if InPool p then Returns (CHIP_NO_ERROR, s)
      else
        match storage_Find None s, storage_at p s with
        | Some p', Some e =>
            Returns (CHIP_NO_ERROR,
              with_delegate_pool (<[i := mkED entry (Some p')]> (delegate_pool s)) (store p' e s))
        | None, _ => Returns (CHIP_ERROR_BUFFER_TOO_SMALL, s)
        | _, None => Crashes OutOfBounds
        end
  | _ => Crashes OutOfBounds
  end.

(** A setter of an entry. *)
Definition entry_set (f : EntryStorage → chip_error * EntryStorage) (entry : Z) (s : acs) : outcome (chip_error * acs) :=
  match entry_objs s !! entry with
  | None => Crashes OutOfBounds
  | Some None => Returns (CHIP_ERROR_NOT_IMPLEMENTED, s)
  | Some (Some i) =>
      let+ (err, s) := EnsureStorageInPool i s in
      if decide (err = CHIP_NO_ERROR) then
        match entry_ptr entry s with
        | Some p =>
            match storage_at p s with
            | Some e => let '(err, e') := f e in Returns (err, store p e' s)
            | None => Crashes OutOfBounds
            end
        | None => Crashes OutOfBounds
        end
      else Returns (err, s)
  end.

Definition SetAuthMode (v : AuthMode) := entry_set (λ e, (CHIP_NO_ERROR, set_mAuthMode v e)).
Definition SetFabricIndex (v : Z) := entry_set (λ e, (CHIP_NO_ERROR, set_mFabricIndex v e)).
Definition SetPrivilege (v : Privilege) := entry_set (λ e, (CHIP_NO_ERROR, set_mPrivilege v e)).

Definition SetSubject (index subject : Z) := entry_set (λ e,
  match mSubjects e !! Z.to_nat index with
  | Some n => let '(err, n') := subject_Set subject n in (err, set_mSubjects (<[Z.to_nat index := n']> (mSubjects e)) e)
  | None => (CHIP_ERROR_SENTINEL, e)
  end).

Definition AddSubject (subject : Z) := entry_set (λ e,
  let count := Z.to_nat (count_used subject_IsEmpty (mSubjects e)) in
  match mSubjects e !! count with
  | Some n => let '(err, n') := subject_Add subject n in (err, set_mSubjects (<[count := n']> (mSubjects e)) e)
  | None => (CHIP_ERROR_BUFFER_TOO_SMALL, e)
  end).

(** [memmove] of the elements behind [index] over it, and the last one cleared if all were in
    use. *)
Definition remove_at {A} (empty : A) (index count : nat) (l : list A) : list A :=
  let n := (Nat.min count (length l - 1) - index)%nat in
  let moved := take index l ++ take n (drop (S index) l) ++ drop (index + n) l in
  if bool_decide (count = length l) then <[(length l - 1)%nat := empty]> moved else moved.

Definition RemoveSubject (index : Z) := entry_set (λ e,
  let count := count_used subject_IsEmpty (mSubjects e) in
  if index <? count
  then (CHIP_NO_ERROR, set_mSubjects (remove_at kUndefinedNodeId (Z.to_nat index) (Z.to_nat count) (mSubjects e)) e)
  else (CHIP_ERROR_SENTINEL, e)).

Definition SetTarget (index : Z) (target : Target) := entry_set (λ e,
  match mTargets e !! Z.to_nat index with
  | Some t => let '(err, t') := target_Set target t in (err, set_mTargets (<[Z.to_nat index := t']> (mTargets e)) e)
  | None => (CHIP_ERROR_SENTINEL, e)
  end).

Definition AddTarget (target : Target) := entry_set (λ e,
  let count := Z.to_nat (count_used target_IsEmpty (mTargets e)) in
  match mTargets e !! count with
  | Some t => let '(err, t') := target_Add target t in (err, set_mTargets (<[count := t']> (mTargets e)) e)
  | None => (CHIP_ERROR_BUFFER_TOO_SMALL, e)
  end).

Definition RemoveTarget (index : Z) := entry_set (λ e,
  let count := count_used target_IsEmpty (mTargets e) in
  if index <? count
  then (CHIP_NO_ERROR, set_mTargets (remove_at target_Clear (Z.to_nat index) (Z.to_nat count) (mTargets e)) e)
  else (CHIP_ERROR_SENTINEL, e)).

(** ** Iterators *)

Definition iterator_Find (candidate : option nat) (s : acs) : option nat :=
  match candidate with
  | Some i => Some i
  | None => first_index (λ d, negb (eid_mInUse d)) (iterator_pool s)
  end.

Definition iterator_Release (i : nat) (s : acs) : outcome acs :=
  match iterator_pool s !! i with
  | Some (mkEID _ filtered fabric storage) =>
      Returns (with_iterator_pool (<[i := mkEID false filtered fabric storage]> (iterator_pool s)) s)
  | None => Crashes OutOfBounds
  end.

Definition iterator_Init (i : nat) (iterator : Z) (fabricIndex : option Z) (s : acs) : outcome acs :=
  match iterator_objs s !! iterator, iterator_pool s !! i with
  | Some old, Some d =>
      let+ s := match old with None => Returns s | Some j => iterator_Release j s end in
      let s := with_iterator_objs (<[iterator := Some i]> (iterator_objs s)) s in
      Returns (with_iterator_pool
        (<[i := mkEID true (bool_decide (is_Some fabricIndex)) (default (eid_mFabricIndex d) fabricIndex) None]>
           (iterator_pool s)) s)
  | _, _ => Crashes OutOfBounds
  end.

(** The loop of [Next] from storage [i] on: the next entry to show, or none. *)
Fixpoint next_used (d : EntryIteratorDelegate) (i : nat) (l : list EntryStorage) : option nat :=
  match l with
  | [] => None
  | e :: l =>
      if negb (mInUse e) then None
      else if eid_mFabricFiltered d && negb (mFabricIndex e =? eid_mFabricIndex d) then next_used d (S i) l
      else Some i
  end.

Definition iterator_Next (iterator entry : Z) (s : acs) : outcome (chip_error * acs) :=
  match iterator_objs s !! iterator with
  | None => Crashes OutOfBounds
  | Some None => Returns (CHIP_ERROR_SENTINEL, s)
  | Some (Some i) =>
      match iterator_pool s !! i with
      | None => Crashes OutOfBounds
      | Some d =>
          let start := match eid_mStorage d with None => O | Some j => Nat.min (S j) (length (acl s)) end in
          let put p s := with_iterator_pool
            (<[i := mkEID (eid_mInUse d) (eid_mFabricFiltered d) (eid_mFabricIndex d) (Some p)]> (iterator_pool s)) s in
          match next_used d start (drop start (acl s)) with
          | None => Returns (CHIP_ERROR_SENTINEL, put (length (acl s)) s)
          | Some j =>
              let s := put j s in
              match entry_objs s !! entry with
              | None => Crashes OutOfBounds
              | Some old =>
                  match delegate_Find old s with
                  | Some k => let+ s := delegate_Init k entry (PAcl j) s in Returns (CHIP_NO_ERROR, s)
                  | None => Returns (CHIP_ERROR_BUFFER_TOO_SMALL, s)
                  end
              end
          end
      end
  end.

(** ** The delegate of access control *)

Definition acl_Init (s : acs) : chip_error * acs := (CHIP_NO_ERROR, with_acl (map storage_Clear (acl s)) s).

Section Config.
(** [CHIP_CONFIG_EXAMPLE_ACCESS_CONTROL_MAX_ENTRIES_PER_FABRIC]. *)
Context (kEntriesPerFabric : Z).

Definition acl_GetMaxEntriesPerFabric (s : acs) : chip_error * Z := (CHIP_NO_ERROR, kEntriesPerFabric).
Definition acl_GetMaxEntryCount (s : acs) : chip_error * Z := (CHIP_NO_ERROR, Z.of_nat (length (acl s))).

Fixpoint count_fabric (fabric : Z) (l : list EntryStorage) : Z :=
  match l with
  | [] => 0
  | e :: l => if negb (mInUse e) then 0 else (if mFabricIndex e =? fabric then 1 else 0) + count_fabric fabric l
  end.

Definition acl_GetEntryCount (fabric : Z) (s : acs) : chip_error * Z := (CHIP_NO_ERROR, count_fabric fabric (acl s)).
Definition acl_GetEntryCount_all (s : acs) : chip_error * Z := (CHIP_NO_ERROR, count_used (λ e, negb (mInUse e)) (acl s)).

Definition acl_PrepareEntry (entry : Z) (s : acs) : outcome (chip_error * acs) :=
  match entry_objs s !! entry with
  | None => Crashes OutOfBounds
  | Some old =>
      match delegate_Find old s with
      | Some i =>
          match delegate_pool s !! i with
          | None => Crashes OutOfBounds
          | Some d =>
              match storage_Find (ed_mStorage d) s with
              | Some p => let+ s := delegate_Init i entry p s in Returns (CHIP_NO_ERROR, s)
              | None => Returns (CHIP_ERROR_BUFFER_TOO_SMALL, s)
              end
          end
      | None => Returns (CHIP_ERROR_BUFFER_TOO_SMALL, s)
      end
  end.

(** [Copy] into storage [i] of the list. Without flexible copy, an entry with another delegate
    ends in [VerifyOrDie]. *)
Definition acl_Copy (entry : Z) (i : nat) (s : acs) : outcome (chip_error * acs) :=
  match entry_objs s !! entry with
  | None => Crashes OutOfBounds
  | Some None => Crashes AssertFailed
  | Some (Some _) =>
      match entry_ptr entry s with
      | Some p =>
          match storage_at p s with
          | Some e => Returns (CHIP_NO_ERROR, store (PAcl i) e s)
          | None => Crashes OutOfBounds
          end
      | None => Crashes OutOfBounds
      end
  end.

Definition acl_CreateEntry (entry : Z) (fabricIndex : option Z) (s : acs) : outcome (chip_error * Z * option Z * acs) :=
  match FindUnusedInAcl s with
  | None => Returns (CHIP_ERROR_BUFFER_TOO_SMALL, 0, fabricIndex, s)
  | Some i =>
      let+ (err, s) := acl_Copy entry i s in
      if decide (err = CHIP_NO_ERROR) then
        match acl s !! i with
        | None => Crashes OutOfBounds
        | Some e =>
            match fabricIndex with
            | Some _ => Returns (err, ConvertIndex (Z.of_nat i) (mFabricIndex e) kAbsoluteToRelative s, Some (mFabricIndex e), s)
            | None => Returns (err, Z.of_nat i, None, s)
            end
        end
      else Returns (err, 0, fabricIndex, s)
  end.

Definition acl_ReadEntry (index entry : Z) (fabricIndex : option Z) (s : acs) : outcome (chip_error * acs) :=
  match FindUsedInAcl index fabricIndex s with
  | None => Returns (CHIP_ERROR_SENTINEL, s)
  | Some i =>
      match entry_objs s !! entry with
      | None => Crashes OutOfBounds
      | Some old =>
          match delegate_Find old s with
          | Some k => let+ s := delegate_Init k entry (PAcl i) s in Returns (CHIP_NO_ERROR, s)
          | None => Returns (CHIP_ERROR_BUFFER_TOO_SMALL, s)
          end
      end
  end.

Definition acl_UpdateEntry (index entry : Z) (fabricIndex : option Z) (s : acs) : outcome (chip_error * acs) :=
  match FindUsedInAcl index fabricIndex s with
  | None => Returns (CHIP_ERROR_SENTINEL, s)
  | Some i => acl_Copy entry i s
  end.

(** ** Deleting *)

(** [FixBeforeDelete] of delegate [i] for storage [PAcl j]; the result of the copy is not
    looked at. *)
Definition FixBeforeDelete (j i : nat) (s : acs) : outcome acs :=
  match delegate_pool s !! i with
  | Some d =>
      if bool_decide (ed_mStorage d = Some (PAcl j)) then let+ (_, s) := EnsureStorageInPool i s in Returns s
      else Returns s
  | None => Crashes OutOfBounds
  end.

(** [FixAfterDelete] of delegate [i]. A pointer into the pool is not between two pointers into
    the list. *)
Definition FixAfterDelete (j i : nat) (s : acs) : outcome acs :=
  match delegate_pool s !! i with
  | Some (mkED entry (Some (PAcl k))) =>
      if bool_decide (k = j) then
        match entry with Some en => entry_SetDelegate en None s | None => Crashes OutOfBounds end
      else if bool_decide (j < k)%nat && bool_decide (k < length (acl s))%nat
      then Returns (with_delegate_pool (<[i := mkED entry (Some (PAcl (k - 1)))]> (delegate_pool s)) s)
      else Returns s
  | Some _ => Returns s
  | None => Crashes OutOfBounds
  end.

Definition iterator_FixAfterDelete (j size : nat) (d : EntryIteratorDelegate) : EntryIteratorDelegate :=
  match eid_mStorage d with
  | Some k =>
      if bool_decide (j <= k)%nat && bool_decide (k < size)%nat
      then mkEID (eid_mInUse d) (eid_mFabricFiltered d) (eid_mFabricIndex d) (if bool_decide (k = O) then None else Some (k - 1)%nat)
      else d
  | None => d
  end.

(** A loop over the pool of delegates. *)
Fixpoint for_delegates (f : nat → acs → outcome acs) (i n : nat) (s : acs) : outcome acs :=
  match n with
  | O => Returns s
  | S n => let+ s := f i s in for_delegates f (S i) n s
  end.

(** Each storage from the deleted one on is overwritten by the next one, and the last one in
    use cleared. *)
Fixpoint shift_down (l : list EntryStorage) : list EntryStorage :=
  match l with
  | [] => []
  | e :: l' =>
      match l' with
      | n :: _ => if mInUse n then n :: shift_down l' else storage_Clear e :: l'
      | [] => [storage_Clear e]
      end
  end.

Definition acl_DeleteEntry (index : Z) (fabricIndex : option Z) (s : acs) : outcome (chip_error * acs) :=
  match FindUsedInAcl index fabricIndex s with
  | None => Returns (CHIP_ERROR_SENTINEL, s)
  | Some i =>
      let+ s := for_delegates (FixBeforeDelete i) 0 (length (delegate_pool s)) s in
      let s := with_acl (take i (acl s) ++ shift_down (drop i (acl s))) s in
      (* [storage = acl + index], with the index that was passed in *)
      let j := Z.to_nat index in
      let+ s := for_delegates (FixAfterDelete j) 0 (length (delegate_pool s)) s in
      Returns (CHIP_NO_ERROR, with_iterator_pool (map (iterator_FixAfterDelete j (length (acl s))) (iterator_pool s)) s)
  end.

Definition acl_Entries (iterator : Z) (fabricIndex : option Z) (s : acs) : outcome (chip_error * acs) :=
  match iterator_objs s !! iterator with
  | None => Crashes OutOfBounds
  | Some old =>
      match iterator_Find old s with
      | Some i => let+ s := iterator_Init i iterator fabricIndex s in Returns (CHIP_NO_ERROR, s)
      | None => Returns (CHIP_ERROR_BUFFER_TOO_SMALL, s)
      end
  end.

(** ** Objects *)

Definition entry_construct (entry : Z) (s : acs) : acs := with_entry_objs (<[entry := None]> (entry_objs s)) s.

Definition entry_destroy (entry : Z) (s : acs) : outcome acs :=
  match entry_objs s !! entry with
  | None => Crashes OutOfBounds
  | Some old =>
      let+ s := match old with None => Returns s | Some i => delegate_Release i s end in
      Returns (with_entry_objs (delete entry (entry_objs s)) s)
  end.

Definition entry_HasDefaultDelegate (entry : Z) (s : acs) : bool := bool_decide (entry_objs s !! entry = Some None).

Definition iterator_construct (iterator : Z) (s : acs) : acs :=
  with_iterator_objs (<[iterator := None]> (iterator_objs s)) s.

Definition iterator_destroy (iterator : Z) (s : acs) : outcome acs :=
  match iterator_objs s !! iterator with
  | None => Crashes OutOfBounds
  | Some old =>
      let+ s := match old with None => Returns s | Some i => iterator_Release i s end in
      Returns (with_iterator_objs (delete iterator (iterator_objs s)) s)
  end.

#[export] Instance acl_delegate : AclDelegate acs := {
  d_Init := acl_Init;
  d_Finish s := s;
  d_GetMaxEntriesPerFabric := acl_GetMaxEntriesPerFabric;
  d_GetEntryCount := acl_GetEntryCount;
  d_CreateEntry := acl_CreateEntry;
  d_ReadEntry := acl_ReadEntry;
  d_UpdateEntry := acl_UpdateEntry;
  d_DeleteEntry := acl_DeleteEntry;
  d_Entries := acl_Entries;
  d_Check _ _ _ _ := CHIP_ERROR_NOT_IMPLEMENTED;
  it_construct := iterator_construct;
  it_destroy := iterator_destroy;
  it_Next := iterator_Next;
  en_construct := entry_construct;
  en_destroy := entry_destroy;
  en_HasDefaultDelegate := entry_HasDefaultDelegate;
  en_GetAuthMode := GetAuthMode;
  en_GetFabricIndex := GetFabricIndex;
  en_GetPrivilege := GetPrivilege;
  en_GetSubjectCount := GetSubjectCount;
  en_GetSubject := GetSubject;
  en_GetTargetCount := GetTargetCount;
  en_GetTarget := GetTarget
}.

End Config.

(** ** Targets in storage

    A target of an entry is stored in two words; an endpoint is marked by the low half of the
    second one. Nothing of a valid target is lost. *)

(** Only the three flags that there are. *)
Lemma valid_flags x :
  0 <= x < 2 ^ 32 → Z.land x (u32 (Z.lnot (Z.lor (Z.lor kEndpoint kDeviceType) kCluster))) = 0 → 0 <= x < 8.
Proof.
  intros Hr H. change (u32 (Z.lnot (Z.lor (Z.lor kEndpoint kDeviceType) kCluster))) with (Z.shiftl (Z.ones 29) 3) in H.
  assert (Hx : Z.shiftr (Z.land x (Z.shiftl (Z.ones 29) 3)) 3 = 0) by (by rewrite H).
  rewrite Z.shiftr_land, (Z.shiftr_shiftl_l _ 3 3), Z.shiftl_0_r, Z.land_ones, Z.shiftr_div_pow2 in Hx by lia.
  rewrite Z.mod_small in Hx; [|split; [apply Z.div_pos; lia|apply Z.div_lt_upper_bound; lia]].
  apply Z.div_small_iff in Hx; lia.
Qed.

Lemma endpoint_word e :
  0 <= e < 2 ^ 16 →
  let w := Z.lor (u32 (Z.shiftl e kEndpointShift)) kEndpointMagic in
  (w =? kDeviceTypeEmpty) = false ∧ (Z.land w kDeviceTypeIdMask =? kEndpointMagic) = true ∧ u16 (Z.shiftr w kEndpointShift) = e.
Proof.
  intros He w. assert (w = 0xEEEE + e * 2 ^ 16) as ->.
  { unfold w, u32, kEndpointShift. rewrite Z.mod_small by (rewrite Z.shiftl_mul_pow2; lia). rewrite Z.add_comm. by apply lor_shiftl_add. }
  unfold kDeviceTypeEmpty, kEndpointShift, kEndpointMagic, u16. split_and!.
  - apply Z.eqb_neq. lia.
  - apply Z.eqb_eq. change kDeviceTypeIdMask with (2 ^ 16 - 1). rewrite land_mod, Z.mod_add by lia. done.
  - rewrite Z.shiftr_div_pow2, Z.div_add by lia. change (0xEEEE / 2 ^ 16) with 0. rewrite Z.add_0_l. by apply Z.mod_small.
Qed.

Lemma valid_cluster_stored c : IsValidCluster c = true → (c =? kClusterEmpty) = false.
Proof. intros Hc. destruct (Z.eqb_spec c kClusterEmpty) as [->|]; [by vm_compute in Hc|done]. Qed.

Lemma valid_device_type_stored d :
  IsValidDeviceType d = true → (d =? kDeviceTypeEmpty) = false ∧ (Z.land d kDeviceTypeIdMask =? kEndpointMagic) = false.
Proof.
  unfold IsValidDeviceType. cbn zeta. intros [Hd _]%andb_prop. split.
  - destruct (Z.eqb_spec d kDeviceTypeEmpty) as [->|]; [by vm_compute in Hd|done].
  - destruct (Z.eqb_spec (Z.land d kDeviceTypeIdMask) kEndpointMagic) as [Em|]; [rewrite Em in Hd; by vm_compute in Hd|done].
Qed.

(** A target as it is read: a field without its flag is not set. *)
Definition target_norm (t : Target) : Target :=
  mkTarget (tg_flags t) (if has_flag t kCluster then tg_cluster t else 0)
    (if has_flag t kEndpoint then tg_endpoint t else 0) (if has_flag t kDeviceType then tg_deviceType t else 0).

(** What is stored of a valid target is that target: the two words give its flags and the
    fields under them, and are not those of an empty place. *)
Theorem target_encode_decode t :
  target_IsValid t = true → 0 <= tg_flags t < 2 ^ 32 → 0 <= tg_endpoint t < 2 ^ 16 →
  target_Get (target_Encode t) Target_new = (CHIP_NO_ERROR, target_norm t).
Proof.
  intros Hv Hf He. unfold target_IsValid in Hv.
  apply andb_prop in Hv as [[[[Hnone%Z.eqb_eq Hone]%andb_prop Hboth]%andb_prop Hc]%andb_prop Hd].
  pose proof (valid_flags _ Hf Hnone) as Hfl. destruct (endpoint_word _ He) as (HE1&HE2&HE3).
  destruct t as [fl c e d]. cbn [tg_flags tg_cluster tg_endpoint tg_deviceType] in *.
  assert (HC : has_flag (mkTarget fl c e d) kCluster = true → (c =? kClusterEmpty) = false).
  { intros E. rewrite E in Hc. apply valid_cluster_stored. by destruct (IsValidCluster c). }
  assert (HD : has_flag (mkTarget fl c e d) kDeviceType = true → (d =? kDeviceTypeEmpty) = false ∧ (Z.land d kDeviceTypeIdMask =? kEndpointMagic) = false).
  { intros E. rewrite E in Hd. apply valid_device_type_stored. by destruct (IsValidDeviceType d). }
  unfold target_Get, target_IsEmpty, target_Decode, target_Encode, target_norm.
  set (w := Z.lor (u32 (Z.shiftl e kEndpointShift)) kEndpointMagic) in *. cbn [mCluster mDeviceType tg_flags tg_cluster tg_endpoint tg_deviceType].
  assert (fl = 0 ∨ fl = 1 ∨ fl = 2 ∨ fl = 3 ∨ fl = 4 ∨ fl = 5 ∨ fl = 6 ∨ fl = 7) as Hcase by lia.
  destruct Hcase as [->|[->|[->|[->|[->|[->|[->| ->]]]]]]]; try done;
    repeat match goal with |- context [has_flag (mkTarget ?a ?x ?y ?z) ?b] =>
      let v := eval vm_compute in (ctrue (Z.land a b)) in change (has_flag (mkTarget a x y z) b) with v in * end;
    try (specialize (HC eq_refl)); try (destruct (HD eq_refl) as [HD1 HD2]); fold w;
    repeat (rewrite ?HC, ?HD1, ?HD2, ?HE1, ?HE2, ?HE3, ?Z.eqb_refl; cbn [negb andb]); done.
Qed.

Lemma target_encode_decode_witness :
  target_Get (target_Encode (mkTarget (Z.lor kCluster kEndpoint) 6 0xFFFE 0)) Target_new =
    (CHIP_NO_ERROR, mkTarget (Z.lor kCluster kEndpoint) 6 0xFFFE 0).
Proof. apply (target_encode_decode (mkTarget (Z.lor kCluster kEndpoint) 6 0xFFFE 0)); by vm_compute. Defined.
