(* ===== verification/AclInv.v ===== *)
(** * The access control list in memory: invariant

    Every [Entry] object with a delegate of the pool owns it, the delegate points to storage in
    use, and storage of the pool has one owner. The primitives on objects keep this. *)

From S2P Require Import Prelude.
From S2P Require Import COutcome.
From S2P Require Import ChipError.
From S2P Require Import AccessTypes.
From S2P Require Import AccessControl.
From S2P Require Import AccessSpec.
From S2P Require Import AclStorage.

(** ** The entries stored *)

Definition view (e : EntryStorage) : acl_entry :=
  mkEntry (mFabricIndex e) (mAuthMode e) (mPrivilege e)
    (take (Z.to_nat (count_used subject_IsEmpty (mSubjects e))) (mSubjects e))
    ((λ t, target_Decode t Target_new) <$> take (Z.to_nat (count_used target_IsEmpty (mTargets e))) (mTargets e)).

(** The entries up to the first that is not in use. *)
Fixpoint used (l : list EntryStorage) : list EntryStorage :=
  match l with [] => [] | e :: l => if mInUse e then e :: used l else [] end.

(** No entry in use is behind one that is not. *)
Definition tidy (l : list EntryStorage) : Prop :=
  ∃ a b, l = a ++ b ∧ Forall (λ e, mInUse e = true) a ∧ Forall (λ e, mInUse e = false) b.

Lemma used_app a b : Forall (λ e, mInUse e = true) a → used (a ++ b) = a ++ used b.
Proof. induction 1 as [|e a He _ IH]; cbn; [done|]. by rewrite He, IH. Qed.

Lemma used_all a : Forall (λ e, mInUse e = true) a → used a = a.
Proof. intros Ha. rewrite <- (app_nil_r a) at 1. by rewrite used_app, app_nil_r. Qed.

Lemma used_free b : Forall (λ e, mInUse e = false) b → used b = [].
Proof. by destruct 1 as [|e b He _]; cbn; [|rewrite He]. Qed.

Lemma tidy_used l : tidy l → ∃ b, l = used l ++ b ∧ Forall (λ e, mInUse e = true) (used l) ∧ Forall (λ e, mInUse e = false) b.
Proof. intros (a&b&->&Ha&Hb). exists b. rewrite used_app, used_free, app_nil_r by done. done. Qed.

Lemma used_lookup l i e : tidy l → (used l !! i = Some e ↔ l !! i = Some e ∧ mInUse e = true).
Proof.
  intros (b&Hl&Ha&Hb)%tidy_used. split.
  - intros Hi. split; [rewrite Hl; by apply lookup_app_l_Some|]. by eapply (Forall_lookup_1 _ _ _ _ Ha).
  - intros [Hi He]. rewrite Hl in Hi. apply lookup_app_Some in Hi as [Hi|[_ Hi]]; [done|].
    pose proof (Forall_lookup_1 _ _ _ _ Hb Hi) as Hf. cbn in Hf. congruence.
Qed.

Definition entries_in (f : Z) (l : list EntryStorage) : list acl_entry := view <$> filter (λ e, mFabricIndex e = f) (used l).

(** ** Objects and their delegates *)

Definition objs_ok (s : acs) : Prop :=
  (∀ en i, entry_objs s !! en = Some (Some i) → ∃ p, delegate_pool s !! i = Some (mkED (Some en) (Some p))) ∧
  (∀ i eo p, delegate_pool s !! i = Some (mkED eo (Some p)) →
     ∃ en e, eo = Some en ∧ entry_objs s !! en = Some (Some i) ∧ storage_at p s = Some e ∧ mInUse e = true) ∧
  (∀ i j eo eo' k, delegate_pool s !! i = Some (mkED eo (Some (PPool k))) →
     delegate_pool s !! j = Some (mkED eo' (Some (PPool k))) → i = j).

(** The same but for the object [en], which owns nothing. *)
Definition detached (en : Z) (s : acs) : Prop :=
  (∀ en' i, en' ≠ en → entry_objs s !! en' = Some (Some i) → ∃ p, delegate_pool s !! i = Some (mkED (Some en') (Some p))) ∧
  (∀ i eo p, delegate_pool s !! i = Some (mkED eo (Some p)) →
     ∃ en' e, eo = Some en' ∧ en' ≠ en ∧ entry_objs s !! en' = Some (Some i) ∧ storage_at p s = Some e ∧ mInUse e = true) ∧
  (∀ i j eo eo' k, delegate_pool s !! i = Some (mkED eo (Some (PPool k))) →
     delegate_pool s !! j = Some (mkED eo' (Some (PPool k))) → i = j).

Definition iters_ok (s : acs) : Prop :=
  (∀ it i, iterator_objs s !! it = Some (Some i) → ∃ d, iterator_pool s !! i = Some d ∧ eid_mInUse d = true) ∧
  (∀ it it' i, iterator_objs s !! it = Some (Some i) → iterator_objs s !! it' = Some (Some i) → it = it').

Definition list_ok (l : list EntryStorage) : Prop := tidy l ∧ Forall (λ e, entry_ok (view e) = true) (used l).

Definition good (s : acs) : Prop := list_ok (acl s) ∧ objs_ok s ∧ iters_ok s.

(** What an operation on objects of the class [Entry] leaves alone. *)
Definition same_rest (s s' : acs) : Prop :=
  acl s' = acl s ∧ iterator_pool s' = iterator_pool s ∧ iterator_objs s' = iterator_objs s ∧
  length (storage_pool s') = length (storage_pool s) ∧ length (delegate_pool s') = length (delegate_pool s).

Lemma same_rest_refl s : same_rest s s.
Proof. by repeat split. Qed.

Lemma same_rest_trans s1 s2 s3 : same_rest s1 s2 → same_rest s2 s3 → same_rest s1 s3.
Proof. unfold same_rest. intros (?&?&?&?&?) (?&?&?&?&?). repeat split; congruence. Qed.

Lemma storage_at_same_acl s s' i : acl s' = acl s → storage_at (PAcl i) s' = storage_at (PAcl i) s.
Proof. intros E. cbn. by rewrite E. Qed.

(** ** Giving a delegate back *)

Definition release_old (old : option nat) (s : acs) : outcome acs :=
  match old with None => Returns s | Some j => delegate_Release j s end.

Lemma release_detaches en old s :
  objs_ok s → entry_objs s !! en = Some old →
  ∃ s1, release_old old s = Returns s1 ∧ detached en s1 ∧ same_rest s s1 ∧ entry_objs s1 = entry_objs s ∧
    (∀ j, old = Some j → ∃ d, delegate_pool s1 !! j = Some d ∧ ed_mStorage d = None) ∧
    (∀ j, old ≠ Some j → delegate_pool s1 !! j = delegate_pool s !! j) ∧
    (∀ k e, storage_pool s !! k = Some e → ∃ e', storage_pool s1 !! k = Some e' ∧
       (mInUse e = false → mInUse e' = false) ∧ (∀ j, old = Some j → entry_ptr en s = Some (PPool k) → mInUse e' = false)).
Proof.
  intros (He&Hd&Hp) Hen. destruct old as [j|]; cbn [release_old].
  2:{ exists s. split; [done|]. split; [|split; [apply same_rest_refl|]].
      - split_and!; [by eauto| |done]. intros i eo p Hi. destruct (Hd i eo p Hi) as (en'&e&->&Ho&Hs&Hu).
        exists en', e. split_and!; try done. congruence.
      - split_and!; try done. intros k e Hk. exists e. by split_and!. }
  destruct (He en j Hen) as (p&Hj). unfold delegate_Release. rewrite Hj. unfold storage_Release.
  destruct (Hd j (Some en) p Hj) as (en0&e0&[= <-]&_&Hst&Hu). rewrite Hst. cbn [obind].
  set (s0 := if InPool p then store p (set_mInUse false e0) s else s).
  assert (Hs0 : acl s0 = acl s ∧ delegate_pool s0 = delegate_pool s ∧ entry_objs s0 = entry_objs s ∧
    iterator_pool s0 = iterator_pool s ∧ iterator_objs s0 = iterator_objs s ∧ length (storage_pool s0) = length (storage_pool s)).
  { unfold s0. destruct p; cbn; split_and!; try done. by rewrite length_insert. }
  destruct Hs0 as (Ha&Hdp&Heo&Hip&Hio&Hlen). eexists. split; [done|]. cbn [delegate_pool entry_objs with_delegate_pool].
  rewrite Hdp, Heo. assert (Hjl := lookup_lt_Some _ _ _ Hj).
  assert (Hdet : ∀ i eo q, <[j := mkED (Some en) None]> (delegate_pool s) !! i = Some (mkED eo (Some q)) → i ≠ j ∧ delegate_pool s !! i = Some (mkED eo (Some q))).
  { intros i eo q Hi. apply list_lookup_insert_Some in Hi as [(_&[= ]&_)|[Hne Hi]]. by split. }
  split; [split_and!|split; [split_and!|split_and!]].
  - intros en' i Hne Ho. cbn in Ho. rewrite Heo in Ho. destruct (He en' i Ho) as (q&Hq).
    assert (i ≠ j) by congruence. exists q. cbn. by rewrite list_lookup_insert_ne by done.
  - intros i eo q Hi. cbn in Hi. destruct (Hdet i eo q Hi) as [Hne Hi'].
    destruct (Hd i eo q Hi') as (en'&e&->&Ho&Hs&Hu'). exists en', e. cbn. rewrite Heo. split_and!; try done; [congruence|].
    unfold s0. destruct q as [a|a]; cbn.
    + by destruct p.
    + destruct p as [b|b]; cbn; [done|]. rewrite list_lookup_insert_ne; [done|]. intros ->. apply Hne. eapply Hp; eassumption.
  - intros i i' eo eo' k Hi Hi'. cbn in Hi, Hi'. apply Hdet in Hi as [_ Hi]. apply Hdet in Hi' as [_ Hi']. by eapply Hp.
  - done.
  - done.
  - done.
  - done.
  - cbn. by rewrite length_insert.
  - done.
  - intros j' [= <-]. eexists. split; [by apply list_lookup_insert_eq|done].
  - intros j' Hne. apply list_lookup_insert_ne. congruence.
  - intros k e Hk. cbn. unfold s0. destruct p as [b|b]; cbn.
    + exists e. split_and!; try done. intros j' [= <-] Hptr. unfold entry_ptr in Hptr. rewrite Hen, Hj in Hptr. done.
    + destruct (decide (b = k)) as [->|Hne].
      * eexists. split; [by apply list_lookup_insert_eq, (lookup_lt_Some _ _ _ Hk)|]. by split_and!.
      * exists e. rewrite list_lookup_insert_ne by done. split_and!; try done.
        intros j' [= <-] Hptr. unfold entry_ptr in Hptr. rewrite Hen, Hj in Hptr. cbn in Hptr. congruence.
Qed.

(** ** Taking a delegate *)

Lemma detached_default en v s :
  detached en s → (v = <[en := None]> (entry_objs s) ∨ v = delete en (entry_objs s)) → objs_ok (with_entry_objs v s).
Proof.
  intros (He&Hd&Hp) Hv.
  assert (Hne : ∀ en', en' ≠ en → v !! en' = entry_objs s !! en').
  { intros en' Hn. destruct Hv as [->| ->]; [by rewrite lookup_insert_ne|by rewrite lookup_delete_ne]. }
  assert (Hen : v !! en = Some None ∨ v !! en = None).
  { destruct Hv as [->| ->]; [left; apply lookup_insert_eq|right; apply lookup_delete_eq]. }
  split_and!; cbn; [| |done].
  - intros en' i Ho. destruct (decide (en' = en)) as [->|Hn]; [destruct Hen; congruence|]. rewrite Hne in Ho by done. eauto.
  - intros i eo p Hi. destruct (Hd i eo p Hi) as (en'&e&->&Hn&Ho&Hs). exists en', e. by rewrite Hne.
Qed.

Lemma attach_ok en i d p e s :
  detached en s → delegate_pool s !! i = Some d → ed_mStorage d = None → storage_at p s = Some e → mInUse e = true →
  (∀ j eo, InPool p = true → delegate_pool s !! j ≠ Some (mkED eo (Some p))) →
  objs_ok (with_delegate_pool (<[i := mkED (Some en) (Some p)]> (delegate_pool s)) (with_entry_objs (<[en := Some i]> (entry_objs s)) s)).
Proof.
  intros (He&Hd&Hp) Hi Hfree Hs Hu Hshare. pose proof (lookup_lt_Some _ _ _ Hi).
  assert (Hold : ∀ j eo q, delegate_pool s !! j = Some (mkED eo (Some q)) → j ≠ i).
  { intros j eo q Hj ->. rewrite Hi in Hj. injection Hj as ->. done. }
  split_and!; cbn.
  - intros en' j Ho. apply lookup_insert_Some in Ho as [[<- [= <-]]|[Hn Ho]].
    + exists p. by apply list_lookup_insert_eq.
    + destruct (He en' j) as (q&Hq); [done|done|]. exists q. rewrite list_lookup_insert_ne; [done|]. intros ->. by eapply Hold.
  - intros j eo q Hj. apply list_lookup_insert_Some in Hj as [(<-&[= <- <-]&_)|[Hn Hj]].
    + exists en, e. split_and!; try done. apply lookup_insert_eq.
    + destruct (Hd j eo q Hj) as (en'&e'&->&Hn'&Ho&Hs'). exists en', e'. split_and!; try done; [by rewrite lookup_insert_ne|apply Hs'..].
  - intros j j' eo eo' k Hj Hj'.
    apply list_lookup_insert_Some in Hj as [(->&Ej&_)|[Hn Hj]]; apply list_lookup_insert_Some in Hj' as [(->&Ej'&_)|[Hn' Hj']].
    + done.
    + injection Ej as _ ->. by destruct (Hshare j' eo' eq_refl).
    + injection Ej' as _ ->. by destruct (Hshare j eo eq_refl).
    + by eapply Hp.
Qed.

(** Storage of the pool that is not in use has no owner, and can be written. *)
Lemma free_unowned en s k e i eo :
  detached en s → storage_pool s !! k = Some e → mInUse e = false → delegate_pool s !! i ≠ Some (mkED eo (Some (PPool k))).
Proof. intros (_&Hd&_) Hk Hu Hi. destruct (Hd _ _ _ Hi) as (?&e'&_&_&_&Hs&Hu'). cbn in Hs. congruence. Qed.

Lemma detached_store en s k e e' :
  detached en s → storage_pool s !! k = Some e → mInUse e = false → detached en (store (PPool k) e' s).
Proof.
  intros Hdet Hk Hu. pose proof (λ i eo, free_unowned en s k e i eo Hdet Hk Hu) as Hno. destruct Hdet as (He&Hd&Hp).
  split_and!; [done| |done]. intros i eo p Hi. cbn in Hi. destruct (Hd i eo p Hi) as (en'&e1&->&Hn&Ho&Hs&Hu').
  exists en', e1. split_and!; try done. destruct p as [a|a]; [done|]. cbn. rewrite list_lookup_insert_ne; [done|].
  intros ->. by eapply Hno.
Qed.

Lemma first_index_Some {A} (p : A → bool) l i :
  first_index p l = Some i → (∃ x, l !! i = Some x ∧ p x = true) ∧ ∀ j y, (j < i)%nat → l !! j = Some y → p y = false.
Proof.
  revert i. induction l as [|x l IH]; intros i; cbn; [done|]. destruct (p x) eqn:Ep.
  - intros [= <-]. split; [by exists x|lia].
  - destruct (first_index p l) as [j|]; [|done]. intros [= <-]. destruct (IH j eq_refl) as [(y&Hy&Hp) Hb]. split; [by exists y|].
    intros [|n] z Hn Hz; [cbn in Hz; congruence|]. by apply (Hb n); [lia|].
Qed.

Lemma first_index_None {A} (p : A → bool) l : first_index p l = None → Forall (λ x, p x = false) l.
Proof.
  induction l as [|x l IH]; cbn; [by constructor|]. destruct (p x) eqn:Ep; [done|].
  destruct (first_index p l); [done|]. intros _. constructor; auto.
Qed.

(** Storage that the object [en] may be given: an entry of the list, or storage of the pool
    that is its own or not in use. *)
Inductive may_show (en : Z) (s : acs) : storage_ptr → Prop :=
  | show_acl i e : acl s !! i = Some e → mInUse e = true → may_show en s (PAcl i)
  | show_own k e : storage_pool s !! k = Some e → entry_ptr en s = Some (PPool k) → may_show en s (PPool k)
  | show_free k e : storage_pool s !! k = Some e → mInUse e = false → may_show en s (PPool k).

(** [EntryDelegate::Init] of the delegate that [Find] gives. *)
Lemma delegate_Init_ok en old i p s :
  objs_ok s → entry_objs s !! en = Some old → delegate_Find old s = Some i → may_show en s p →
  ∃ s', delegate_Init i en p s = Returns s' ∧ objs_ok s' ∧ same_rest s s' ∧
    entry_objs s' = <[en := Some i]> (entry_objs s) ∧ entry_ptr en s' = Some p.
Proof.
  intros Hok Hen Hfind Hp. destruct (release_detaches en old s Hok Hen) as (s1&Hrel&Hdet&Hrest&Heo&Hown&Hother&Hpool).
  unfold delegate_Init, entry_SetDelegate. rewrite Hen. change (match old with None => _ | Some j => _ end) with (release_old old s).
  rewrite Hrel. cbn [obind].
  assert (∃ d, delegate_pool s1 !! i = Some d ∧ ed_mStorage d = None) as (d&Hd&Hfree).
  { destruct old as [j|]; cbn in Hfind; [injection Hfind as ->; by apply Hown|].
    apply first_index_Some in Hfind as [(d&Hd&Hf) _]. exists d. rewrite Hother by done. by apply bool_decide_eq_true in Hf. }
  pose proof (lookup_lt_Some _ _ _ Hd) as Hil. destruct Hrest as (Ha&Hip&Hio&Hls&Hld).
  set (eo := <[en := Some i]> (entry_objs s1)).
  assert (∃ s2 e, storage_Init p (with_entry_objs eo s1) = Returns (with_entry_objs eo s2) ∧ detached en s2 ∧ same_rest s1 s2 ∧
    entry_objs s2 = entry_objs s1 ∧ delegate_pool s2 = delegate_pool s1 ∧ storage_at p s2 = Some e ∧ mInUse e = true ∧
    (∀ j eo', InPool p = true → delegate_pool s2 !! j ≠ Some (mkED eo' (Some p)))) as (s2&e&Hinit&Hdet2&Hrest2&Heo2&Hdp2&Hst&Hu&Hno).
  { unfold storage_Init.
    assert (Hk : ∀ k e, p = PPool k → storage_pool s1 !! k = Some e → mInUse e = false →
      ∃ s2 e', Returns (if negb (mInUse e) then store p (set_mInUse true (storage_Clear e)) (with_entry_objs eo s1) else with_entry_objs eo s1) =
        Returns (with_entry_objs eo s2) ∧ detached en s2 ∧ same_rest s1 s2 ∧
        entry_objs s2 = entry_objs s1 ∧ delegate_pool s2 = delegate_pool s1 ∧ storage_at p s2 = Some e' ∧ mInUse e' = true ∧
        (∀ j eo', InPool p = true → delegate_pool s2 !! j ≠ Some (mkED eo' (Some p)))).
    { intros k e -> Hk Hu. rewrite Hu. cbn [negb]. exists (store (PPool k) (set_mInUse true (storage_Clear e)) s1). eexists.
      split; [done|]. split; [by eapply detached_store|]. split; [by split_and!; cbn; rewrite ?length_insert|].
      split_and!; try done; [cbn; by apply list_lookup_insert_eq, (lookup_lt_Some _ _ _ Hk)|done|].
      intros j eo' _. exact (free_unowned en s1 k e j eo' Hdet Hk Hu). }
    destruct Hp as [a e He Hu|k e Hke Hptr|k e Hke Hu]; cbn [storage_at].
    - cbn [acl with_entry_objs]. rewrite Ha, He, Hu. cbn [negb]. exists s1, e. split_and!; try done. cbn. by rewrite Ha.
    - destruct (Hpool k e Hke) as (e'&He'&_&Hf). cbn [storage_pool with_entry_objs]. rewrite He'. apply (Hk k e'); try done.
      destruct old as [j|]; [by apply (Hf j)|]. unfold entry_ptr in Hptr. by rewrite Hen in Hptr.
    - destruct (Hpool k e Hke) as (e'&He'&Hf&_). cbn [storage_pool with_entry_objs]. rewrite He'. apply (Hk k e'); auto. }
  rewrite Hinit. cbn [obind delegate_pool with_entry_objs]. eexists. split; [done|]. rewrite Hdp2.
  split; [|split; [|split]].
  - unfold eo. rewrite <- Hdp2, <- Heo2. eapply attach_ok; try done; by rewrite Hdp2.
  - eapply same_rest_trans; [|eapply same_rest_trans]; [|exact Hrest2|]; [by split_and!|]. split_and!; cbn; try done.
    by rewrite length_insert, Hdp2.
  - cbn. unfold eo. by rewrite Heo.
  - unfold entry_ptr. cbn. unfold eo. rewrite lookup_insert_eq. by rewrite list_lookup_insert_eq.
Qed.

(** The delegate of an object is given back when the object is destroyed, or set to the
    default delegate. *)
Lemma release_with en old v s :
  objs_ok s → entry_objs s !! en = Some old →
  (v = <[en := None]> (entry_objs s) ∨ v = delete en (entry_objs s)) →
  ∃ s1, release_old old s = Returns s1 ∧ objs_ok (with_entry_objs v s1) ∧ same_rest s (with_entry_objs v s1) ∧ entry_objs s1 = entry_objs s ∧
    (is_Some (delegate_Find old s) → is_Some (delegate_Find None (with_entry_objs v s1))) ∧
    (∀ j, old = Some j → ∃ d, delegate_pool s1 !! j = Some d ∧ ed_mStorage d = None) ∧
    (∀ j, old ≠ Some j → delegate_pool s1 !! j = delegate_pool s !! j).
Proof.
  intros Hok Hen Hv. destruct (release_detaches en old s Hok Hen) as (s1&Hrel&Hdet&Hrest&Heo&Hown&Hother&_).
  exists s1. split; [done|]. split; [apply (detached_default en); by rewrite ?Heo|]. split; [done|]. split; [done|].
  split; [|done]. intros [i Hi]. cbn. destruct (first_index _ (delegate_pool s1)) eqn:Ef; [done|]. exfalso. apply first_index_None in Ef.
  destruct old as [j|].
  - destruct (Hown j eq_refl) as (d&Hd&Hf). pose proof (Forall_lookup_1 _ _ _ _ Ef Hd) as Hx. cbn in Hx.
    by rewrite Hf, bool_decide_true in Hx.
  - cbn in Hi. apply first_index_Some in Hi as [(d&Hd&Hf) _]. rewrite <- (Hother i) in Hd by done.
    pose proof (Forall_lookup_1 _ _ _ _ Ef Hd) as Hx. cbn in Hx. congruence.
Qed.

Lemma entry_destroy_ok en old s :
  objs_ok s → entry_objs s !! en = Some old →
  ∃ s', entry_destroy en s = Returns s' ∧ objs_ok s' ∧ same_rest s s' ∧ entry_objs s' = delete en (entry_objs s) ∧
    (is_Some (delegate_Find old s) → is_Some (delegate_Find None s')).
Proof.
  intros Hok Hen. destruct (release_with en old (delete en (entry_objs s)) s Hok Hen) as (s1&Hrel&Hok1&Hrest&Heo&Hf&_); [by right|].
  unfold entry_destroy. rewrite Hen. change (match old with None => _ | Some j => _ end) with (release_old old s).
  rewrite Hrel. cbn [obind]. eexists. split; [done|]. rewrite Heo. by split_and!.
Qed.

Lemma entry_reset_ok en old s :
  objs_ok s → entry_objs s !! en = Some old →
  ∃ s', entry_SetDelegate en None s = Returns s' ∧ objs_ok s' ∧ same_rest s s' ∧ entry_objs s' = <[en := None]> (entry_objs s) ∧
    (∀ j, old = Some j → ∃ d, delegate_pool s' !! j = Some d ∧ ed_mStorage d = None) ∧
    (∀ j, old ≠ Some j → delegate_pool s' !! j = delegate_pool s !! j).
Proof.
  intros Hok Hen. destruct (release_with en old (<[en := None]> (entry_objs s)) s Hok Hen) as (s1&Hrel&Hok1&Hrest&Heo&Hf&Hown&Hother); [by left|].
  unfold entry_SetDelegate. rewrite Hen. change (match old with None => _ | Some j => _ end) with (release_old old s).
  rewrite Hrel. cbn [obind]. eexists. split; [done|]. rewrite Heo. by split_and!.
Qed.

Lemma entry_construct_ok en s : objs_ok s → entry_objs s !! en = None → objs_ok (entry_construct en s).
Proof.
  intros (He&Hd&Hp) Hen. split_and!; cbn; [| |done].
  - intros en' i Ho. apply lookup_insert_Some in Ho as [[_ [=]]|[_ Ho]]. by apply He.
  - intros i eo p Hi. destruct (Hd i eo p Hi) as (en'&e&->&Ho&Hs). exists en', e. split_and!; try done; [|apply Hs..].
    rewrite lookup_insert_ne; [done|congruence].
Qed.

