(* ===== verification/AclShow.v ===== *)
(** * The access control list in memory: iteration

    What an [Entry] object shows, what an iterator gives, and that the delegate keeps the
    promises of [AclLaws]. *)

From S2P Require Import Prelude.
From S2P Require Import COutcome.
From S2P Require Import ChipError.
From S2P Require Import AccessTypes.
From S2P Require Import AccessControl.
From S2P Require Import AccessSpec.
From S2P Require Import AclStorage.
From S2P Require Import AclInv.

(** ** What an object shows *)

Lemma count_used_bound {A} (empty : A → bool) l : 0 <= count_used empty l <= Z.of_nat (length l).
Proof. induction l as [|x l IH]; cbn -[Z.of_nat]; [lia|]. destruct (empty x); lia. Qed.

Lemma count_used_lookup {A} (empty : A → bool) l i x :
  take (Z.to_nat (count_used empty l)) l !! i = Some x → l !! i = Some x ∧ empty x = false.
Proof.
  revert i. induction l as [|y l IH]; intros i; cbn [count_used]; [by destruct i|]. pose proof (count_used_bound empty l).
  destruct (empty y) eqn:Ey; [by rewrite take_0|]. rewrite Z2Nat.inj_add by lia. cbn.
  destruct i as [|i]; cbn; [by intros [= <-]|apply IH].
Qed.

Lemma length_take_used {A} (empty : A → bool) l : Z.of_nat (length (take (Z.to_nat (count_used empty l)) l)) = count_used empty l.
Proof. pose proof (count_used_bound empty l). rewrite length_take. lia. Qed.

Section Config.
Context (kEntriesPerFabric : Z).

Lemma entry_get_ok {A} (dflt : A) f en p e s :
  entry_ptr en s = Some p → storage_at p s = Some e → entry_get dflt f en s = Returns (f e).
Proof.
  intros Hp He. unfold entry_get. pose proof Hp as Hp'. unfold entry_ptr in Hp'. destruct (entry_objs s !! en) as [[i|]|]; [|done..].
  by rewrite Hp, He.
Qed.

Lemma ptr_shows en p e s : entry_ptr en s = Some p → storage_at p s = Some e → shows (H := acl_delegate kEntriesPerFabric) en (view e) s.
Proof.
  intros Hp He. unfold shows. cbn [en_GetAuthMode en_GetFabricIndex en_GetPrivilege en_GetSubjectCount en_GetSubject en_GetTargetCount en_GetTarget acl_delegate].
  unfold GetAuthMode, GetFabricIndex, GetPrivilege, GetSubjectCount, GetTargetCount, GetSubject, GetTarget.
  split_and!; intros; erewrite entry_get_ok by done; cbn [ae_fabric ae_authMode ae_privilege ae_subjects ae_targets view]; try done.
  - by rewrite length_take_used.
  - cbn in H. apply count_used_lookup in H as [Hx He']. rewrite Nat2Z.id, Hx. unfold subject_Get. by rewrite He'.
  - by rewrite length_fmap, length_take_used.
  - cbn in H. apply list_lookup_fmap_Some in H as (t'&->&Ht). apply count_used_lookup in Ht as [Hx He'].
    rewrite Nat2Z.id, Hx. unfold target_Get. by rewrite He'.
Qed.

(** ** What an iterator gives *)

Lemma tidy_app a b : tidy (a ++ b) → tidy a ∧ tidy b ∧ used (a ++ b) = used a ++ used b.
Proof.
  intros (u&v&E&Hu&Hv). destruct (decide (length a <= length u)%nat) as [Hle|Hgt].
  - assert (a = take (length a) u) as Ha.
    { rewrite <- (take_app_le u v), <- E by done. by rewrite take_app_length. }
    assert (b = drop (length a) u ++ v) as Hb.
    { rewrite <- drop_app_le, <- E by done. by rewrite drop_app_length. }
    assert (Forall (λ e, mInUse e = true) a) by (rewrite Ha; by apply Forall_take).
    split; [by exists a, []; rewrite app_nil_r|]. split; [exists (drop (length a) u), v; split_and!; [done|by apply Forall_drop|done]|].
    by rewrite used_app, (used_all a) by done.
  - assert (a = u ++ take (length a - length u) v) as Ha.
    { rewrite <- take_app_ge, <- E by lia. by rewrite take_app_length. }
    assert (Hb : Forall (λ e, mInUse e = false) b).
    { assert (b = drop (length a - length u) v) as ->; [|by apply Forall_drop].
      rewrite <- drop_app_ge, <- E by lia. by rewrite drop_app_length. }
    assert (Hv' : Forall (λ e, mInUse e = false) (take (length a - length u) v)) by (by apply Forall_take).
    split; [by exists u, (take (length a - length u) v)|]. split; [by exists [], b|].
    rewrite (used_free b), app_nil_r, E, used_app, (used_free v), app_nil_r by done.
    rewrite Ha. by rewrite used_app, used_free, app_nil_r by done.
Qed.

Section Next.
Context (d : EntryIteratorDelegate) (Hfilter : eid_mFabricFiltered d = true).

Lemma next_used_Some i l j :
  next_used d i l = Some j →
  ∃ a e b, l = a ++ e :: b ∧ j = (i + length a)%nat ∧ mInUse e = true ∧ mFabricIndex e = eid_mFabricIndex d ∧
    filter (λ e, mFabricIndex e = eid_mFabricIndex d) (used a) = [].
Proof.
  revert i. induction l as [|e l IH]; intros i; cbn; [done|]. destruct (mInUse e) eqn:Eu; cbn; [|done]. rewrite Hfilter. cbn.
  destruct (Z.eqb_spec (mFabricIndex e) (eid_mFabricIndex d)) as [Ef|Ef]; cbn.
  - intros [= <-]. exists [], e, l. split_and!; done || cbn; lia.
  - intros Hn. destruct (IH _ Hn) as (a&e'&b&->&->&Hu&Hf&Ha). exists (e :: a), e', b. split_and!; try done; [cbn; lia|].
    cbn. rewrite Eu. by rewrite filter_cons_False.
Qed.

Lemma next_used_None i l : next_used d i l = None → filter (λ e, mFabricIndex e = eid_mFabricIndex d) (used l) = [].
Proof.
  revert i. induction l as [|e l IH]; intros i; cbn [next_used used]; [done|]. destruct (mInUse e); cbn [negb]; [|done]. rewrite Hfilter.
  destruct (Z.eqb_spec (mFabricIndex e) (eid_mFabricIndex d)); cbn [negb andb]; [done|]. intros Hn. rewrite filter_cons_False by done. eauto.
Qed.

End Next.

(** Where the next step of an iterator begins, and how many entries are in front of it. *)
Definition next_start (d : EntryIteratorDelegate) (l : list EntryStorage) : nat :=
  match eid_mStorage d with None => O | Some j => Nat.min (S j) (length l) end.

Definition given (f : Z) (d : EntryIteratorDelegate) (l : list EntryStorage) : nat :=
  length (filter (λ e, mFabricIndex e = f) (used (take (next_start d l) l))).

Lemma entries_in_split f l n : tidy l → entries_in f l = entries_in f (take n l) ++ entries_in f (drop n l).
Proof.
  intros Ht. unfold entries_in. rewrite <- fmap_app, <- filter_app. do 2 f_equal. rewrite <- (take_drop n l) in Ht.
  apply tidy_app in Ht as (_&_&<-). by rewrite take_drop.
Qed.

Lemma entries_in_app f a b : tidy (a ++ b) → entries_in f (a ++ b) = entries_in f a ++ entries_in f b.
Proof. intros Ht. rewrite (entries_in_split f (a ++ b) (length a) Ht). by rewrite take_app_length, drop_app_length. Qed.

Lemma given_entries f d l : given f d l = length (entries_in f (take (next_start d l) l)).
Proof. unfold given, entries_in. by rewrite length_fmap. Qed.

(** The next step gives the entry of the fabric behind those given, or none. *)
Lemma next_gives f d l e :
  tidy l → eid_mFabricFiltered d = true → eid_mFabricIndex d = f → entries_in f l !! given f d l = Some e →
  ∃ j e', next_used d (next_start d l) (drop (next_start d l) l) = Some j ∧ l !! j = Some e' ∧ mInUse e' = true ∧ view e' = e ∧
    given f (mkEID (eid_mInUse d) (eid_mFabricFiltered d) f (Some j)) l = S (given f d l).
Proof.
  intros Ht Hff <- He. set (n := next_start d l) in *. rewrite (entries_in_split _ l n Ht) in He.
  rewrite given_entries in He. fold n in He. rewrite lookup_app_r, Nat.sub_diag in He by lia.
  destruct (next_used d n (drop n l)) as [j|] eqn:En.
  2:{ apply next_used_None in En; [|done]. unfold entries_in in He. by rewrite En in He. }
  apply next_used_Some in En as (a&e'&b&Hd&->&Hu&Hf&Ha); [|done]. exists (n + length a)%nat, e'. split; [done|].
  assert (Hnl : (n <= length l)%nat).
  { unfold n, next_start. destruct (eid_mStorage d); lia. }
  assert (Hlk : l !! (n + length a)%nat = Some e').
  { rewrite <- lookup_drop, Hd. by rewrite lookup_app_r, Nat.sub_diag by lia. }
  assert (Ht2 : tidy (a ++ e' :: b)).
  { rewrite <- Hd. rewrite <- (take_drop n l) in Ht. by apply tidy_app in Ht as (_&?&_). }
  split; [done|]. split; [done|]. split.
  - rewrite Hd, entries_in_app in He by done. unfold entries_in in He at 1. rewrite Ha in He. cbn in He.
    unfold entries_in in He. cbn in He. rewrite Hu, filter_cons_True in He by done. by injection He.
  - rewrite !given_entries. fold n. unfold next_start. cbn [eid_mStorage].
    pose proof (lookup_lt_Some _ _ _ Hlk) as Hlt. rewrite Nat.min_l by lia.
    assert (E : take (S (n + length a)) l = take n l ++ a ++ [e']).
    { rewrite <- (take_drop n l) at 1. rewrite take_app_ge by (rewrite length_take; lia). f_equal.
      rewrite length_take, Nat.min_l by lia. rewrite Hd. replace (S (n + length a) - n)%nat with (length a + 1)%nat by lia.
      by rewrite take_app_add. }
    assert (Ht3 : tidy (take (S (n + length a)) l)).
    { rewrite <- (take_drop (S (n + length a)) l) in Ht. by apply tidy_app in Ht as (?&_&_). }
    rewrite E in Ht3 |- *. rewrite entries_in_app, length_app by done. apply tidy_app in Ht3 as (_&Ht3&_).
    rewrite entries_in_app, length_app by done. unfold entries_in at 2. rewrite Ha. unfold entries_in at 2. cbn.
    rewrite Hu, filter_cons_True by done. cbn. lia.
Qed.

Lemma next_ends f d l :
  tidy l → eid_mFabricFiltered d = true → eid_mFabricIndex d = f → entries_in f l !! given f d l = None →
  next_used d (next_start d l) (drop (next_start d l) l) = None ∧
  given f (mkEID (eid_mInUse d) (eid_mFabricFiltered d) f (Some (length l))) l = given f d l.
Proof.
  intros Ht Hff <- He. set (n := next_start d l) in *. apply lookup_ge_None in He.
  pose proof (entries_in_split (eid_mFabricIndex d) l n Ht) as Hs. rewrite given_entries in He. fold n in He. split.
  - destruct (next_used d n (drop n l)) as [j|] eqn:En; [|done]. exfalso.
    apply next_used_Some in En as (a&e'&b&Hd&->&Hu&Hf&_); [|done].
    rewrite Hd, entries_in_app in Hs.
    2:{ rewrite <- Hd. rewrite <- (take_drop n l) in Ht. by apply tidy_app in Ht as (_&?&_). }
    rewrite Hs, !length_app in He. unfold entries_in at 3 in He. cbn in He. rewrite Hu, filter_cons_True in He by done. cbn in He. lia.
  - rewrite !given_entries. fold n. unfold next_start. cbn [eid_mStorage]. rewrite Nat.min_r by lia. rewrite take_ge by lia.
    rewrite Hs in He |- *. rewrite length_app in He |- *. lia.
Qed.

(** ** Iterator objects *)

Lemma iterator_construct_ok it s : iters_ok s → iterator_objs s !! it = None → iters_ok (iterator_construct it s).
Proof.
  intros (Hi&Hu) Hn. split; cbn.
  - intros it' i Ho. apply lookup_insert_Some in Ho as [[_ [=]]|[_ Ho]]. by eapply Hi.
  - intros it1 it2 i H1 H2. apply lookup_insert_Some in H1 as [[_ [=]]|[_ H1]]. apply lookup_insert_Some in H2 as [[_ [=]]|[_ H2]]. by eapply Hu.
Qed.

(** The object [it] is given iterator [i] of the pool, in use, in place of its own. *)
Lemma iters_put it i d s :
  iters_ok s → (i < length (iterator_pool s))%nat → eid_mInUse d = true →
  (∀ it', iterator_objs s !! it' = Some (Some i) → it' = it) →
  iters_ok (with_iterator_pool (<[i := d]> (iterator_pool s)) (with_iterator_objs (<[it := Some i]> (iterator_objs s)) s)).
Proof.
  intros (Hi&Hu) Hlt Hd Hmine. split; cbn.
  - intros it' j Ho. apply lookup_insert_Some in Ho as [[<- [= <-]]|[Hn Ho]]; [exists d; split; [by apply list_lookup_insert_eq|done]|].
    destruct (Hi it' j Ho) as (d'&Hd'&Hu'). destruct (decide (i = j)) as [->|Hij]; [by destruct (Hn (eq_sym (Hmine it' Ho)))|].
    exists d'. by rewrite list_lookup_insert_ne.
  - intros it1 it2 j H1 H2. apply lookup_insert_Some in H1 as [[<- [= <-]]|[Hn1 H1]]; apply lookup_insert_Some in H2 as [[<- E2]|[Hn2 H2]]; try done.
    + symmetry. by apply Hmine.
    + injection E2 as ->. by apply Hmine.
    + by eapply Hu.
Qed.

Lemma iters_move it i d d' s :
  iters_ok s → iterator_objs s !! it = Some (Some i) → iterator_pool s !! i = Some d → eid_mInUse d' = eid_mInUse d →
  iters_ok (with_iterator_pool (<[i := d']> (iterator_pool s)) s).
Proof.
  intros Hok Hit Hd Hu. destruct (proj1 Hok it i Hit) as (d0&Hd0&Hu0). assert (d0 = d) as -> by congruence.
  assert (s = with_iterator_objs (<[it := Some i]> (iterator_objs s)) s) as E.
  { rewrite insert_id by done. by destruct s. }
  rewrite E at 2. apply iters_put; [done|by eapply lookup_lt_Some|congruence|]. intros it' Ho. by eapply (proj2 Hok).
Qed.

Lemma acl_Entries_ok it old i fabric s :
  iters_ok s → iterator_objs s !! it = Some old → iterator_Find old s = Some i →
  ∃ d s', acl_Entries it fabric s = Returns (CHIP_NO_ERROR, s') ∧ iters_ok s' ∧
    s' = with_iterator_pool (iterator_pool s') (with_iterator_objs (<[it := Some i]> (iterator_objs s)) s) ∧
    length (iterator_pool s') = length (iterator_pool s) ∧
    iterator_pool s' !! i = Some d ∧ eid_mStorage d = None ∧ eid_mFabricFiltered d = bool_decide (is_Some fabric) ∧
    (∀ f, fabric = Some f → eid_mFabricIndex d = f).
Proof.
  intros Hok Hit Hfind. unfold acl_Entries. rewrite Hit, Hfind. unfold iterator_Init. rewrite Hit.
  assert (∃ d, iterator_pool s !! i = Some d ∧ (old = None → eid_mInUse d = false)) as (d&Hd&Hfree).
  { destruct old as [j|]; cbn in Hfind; [injection Hfind as ->; destruct (proj1 Hok it i Hit) as (d&Hd&_); by exists d|].
    apply first_index_Some in Hfind as [(d&Hd&Hf) _]. exists d. split; [done|]. intros _. by destruct (eid_mInUse d). }
  pose proof (lookup_lt_Some _ _ _ Hd) as Hlt. rewrite Hd.
  assert (∃ pool, match old with None => Returns s | Some j => iterator_Release j s end = Returns (with_iterator_pool pool s) ∧
    length pool = length (iterator_pool s) ∧ ∀ d', <[i := d']> pool = <[i := d']> (iterator_pool s)) as (pool&->&Hlen&Hpool).
  { destruct old as [j|]; [|exists (iterator_pool s); split; [by destruct s|done]].
    cbn in Hfind. injection Hfind as ->. unfold iterator_Release. rewrite Hd. destruct d as [a b c e].
    eexists. split; [done|]. split; [by rewrite length_insert|]. intros d'. by rewrite list_insert_insert_eq. }
  cbn [obind]. eexists _, _. split; [done|]. cbn [iterator_pool with_iterator_pool with_iterator_objs]. rewrite Hpool. cbn.
  split; [|split_and!].
  - refine (iters_put it i _ s Hok Hlt _ _); [done|]. intros it' Ho. destruct old as [j|].
    + cbn in Hfind. injection Hfind as ->. by eapply (proj2 Hok).
    + destruct (proj1 Hok it' i Ho) as (d'&Hd'&Hu'). rewrite Hd in Hd'. injection Hd' as <-. by rewrite Hfree in Hu'.
  - done.
  - by rewrite length_insert.
  - by apply list_lookup_insert_eq.
  - done.
  - done.
  - by intros f ->.
Qed.

Lemma iterator_destroy_ok it i s :
  iters_ok s → iterator_objs s !! it = Some (Some i) →
  ∃ s', iterator_destroy it s = Returns s' ∧ iters_ok s' ∧
    s' = with_iterator_pool (iterator_pool s') (with_iterator_objs (delete it (iterator_objs s)) s) ∧
    length (iterator_pool s') = length (iterator_pool s) ∧ is_Some (iterator_Find None s').
Proof.
  intros Hok Hit. destruct (proj1 Hok it i Hit) as (d&Hd&Hu). pose proof (lookup_lt_Some _ _ _ Hd) as Hlt.
  unfold iterator_destroy. rewrite Hit. unfold iterator_Release. rewrite Hd. destruct d as [a b c e]. cbn [obind].
  eexists. split; [done|]. cbn. split; [|split_and!; [done|by rewrite length_insert|]].
  - split; cbn.
    + intros it' j Ho. apply lookup_delete_Some in Ho as [Hn Ho]. destruct (proj1 Hok it' j Ho) as (d'&Hd'&Hu').
      exists d'. rewrite list_lookup_insert_ne; [done|]. intros ->. apply Hn. by eapply (proj2 Hok).
    + intros it1 it2 j H1 H2. apply lookup_delete_Some in H1 as [_ H1]. apply lookup_delete_Some in H2 as [_ H2]. by eapply (proj2 Hok).
  - destruct (first_index _ _) eqn:Ef; [done|]. apply first_index_None in Ef.
    assert (Hx : <[i:={| eid_mInUse := false; eid_mFabricFiltered := b; eid_mFabricIndex := c; eid_mStorage := e |}]> (iterator_pool s) !! i =
      Some {| eid_mInUse := false; eid_mFabricFiltered := b; eid_mFabricIndex := c; eid_mStorage := e |}) by (by apply list_lookup_insert_eq).
    by apply (Forall_lookup_1 _ _ _ _ Ef) in Hx.
Qed.

End Config.

(** ** The promises of the delegate

    The delegate is an instance of [AclLaws]: an iterator over a fabric gives its entries in
    order. *)

Lemma next_used_in_use d i l j : next_used d i l = Some j → ∃ e, (i <= j)%nat ∧ l !! (j - i)%nat = Some e ∧ mInUse e = true.
Proof.
  revert i. induction l as [|e l IH]; intros i; cbn [next_used]; [done|]. destruct (mInUse e) eqn:Eu; cbn [negb]; [|done].
  destruct (_ && _).
  - intros (e'&Hle&He&Hu)%IH. exists e'. split_and!; [lia| |done]. by replace (j - i)%nat with (S (j - S i)) by lia.
  - intros [= <-]. exists e. by rewrite Nat.sub_diag.
Qed.

(** [Next]: the iterator moves to the entry [next_used], which the object then shows. *)
Lemma iterator_Next_ok it en i d old s :
  objs_ok s → iters_ok s → iterator_objs s !! it = Some (Some i) → iterator_pool s !! i = Some d → entry_objs s !! en = Some old →
  let put p := mkEID (eid_mInUse d) (eid_mFabricFiltered d) (eid_mFabricIndex d) (Some p) in
  let r := next_used d (next_start d (acl s)) (drop (next_start d (acl s)) (acl s)) in
  let d' := put (default (length (acl s)) r) in
  ∃ err s', iterator_Next it en s = Returns (err, s') ∧ objs_ok s' ∧ iters_ok s' ∧ acl s' = acl s ∧
    iterator_objs s' = iterator_objs s ∧ iterator_pool s' = <[i := d']> (iterator_pool s) ∧
    length (delegate_pool s') = length (delegate_pool s) ∧ length (storage_pool s') = length (storage_pool s) ∧
    match r with
    | None => err = CHIP_ERROR_SENTINEL ∧ s' = with_iterator_pool (<[i := d']> (iterator_pool s)) s
    | Some j =>
        match delegate_Find old s with
        | None => err = CHIP_ERROR_BUFFER_TOO_SMALL ∧ s' = with_iterator_pool (<[i := d']> (iterator_pool s)) s
        | Some k => err = CHIP_NO_ERROR ∧ entry_ptr en s' = Some (PAcl j) ∧ entry_objs s' = <[en := Some k]> (entry_objs s)
        end
    end.
Proof.
  intros Hob Hit Hi Hd Hen put r d'. unfold iterator_Next. rewrite Hi, Hd. cbn zeta.
  change (match eid_mStorage d with None => O | Some j => _ end) with (next_start d (acl s)). fold r.
  assert (Hit' : iters_ok (with_iterator_pool (<[i := d']> (iterator_pool s)) s)) by (by eapply iters_move).
  destruct r as [j|] eqn:Er; cbn [default] in d'.
  2:{ eexists _, _. split; [done|]. by split_and!. }
  unfold r in Er. cbn [entry_objs with_iterator_pool]. rewrite Hen.
  change (delegate_Find old (with_iterator_pool _ s)) with (delegate_Find old s).
  destruct (delegate_Find old s) as [k|] eqn:Ef.
  2:{ eexists _, _. split; [done|]. by split_and!. }
  destruct (next_used_in_use _ _ _ _ Er) as (e&Hle&He&Hu). rewrite lookup_drop in He.
  replace (next_start d (acl s) + (j - next_start d (acl s)))%nat with j in He by lia.
  destruct (delegate_Init_ok en old k (PAcl j) (with_iterator_pool (<[i := d']> (iterator_pool s)) s)) as (s'&Hinit&Hok&(Ha&Hip&Hio&Hls&Hld)&Heo&Hptr);
    [done|done|done|by eapply show_acl|].
  exists CHIP_NO_ERROR, s'. change (mkEID _ _ _ (Some j)) with d'. rewrite Hinit. cbn [obind].
  split; [done|]. split; [done|]. split; [|by split_and!].
  destruct Hit' as [H1 H2]. split; [|rewrite Hio; exact H2]. rewrite Hio, Hip. exact H1.
Qed.

(** ** The promises *)

Section Config.
Context (kEntriesPerFabric : Z).

Definition acl_ready (it en : Z) (s : acs) : Prop :=
  good s ∧ iterator_objs s !! it = None ∧ entry_objs s !! en = None ∧
  is_Some (delegate_Find None s) ∧ is_Some (iterator_Find None s).

Definition acl_at (s : acs) (f it en : Z) (k : nat) (s1 : acs) : Prop :=
  good s1 ∧ acl s1 = acl s ∧
  (∃ i d, iterator_objs s1 !! it = Some (Some i) ∧ iterator_pool s1 !! i = Some d ∧
     eid_mFabricFiltered d = true ∧ eid_mFabricIndex d = f ∧ given f d (acl s) = k) ∧
  ∃ old, entry_objs s1 !! en = Some old ∧ is_Some (delegate_Find old s1).

Lemma acl_law_begin f it en s :
  acl_ready it en s → ∃ s', acl_Entries it (Some f) (iterator_construct it s) = Returns (CHIP_NO_ERROR, s') ∧
    acl_at s f it en 0 (entry_construct en s').
Proof.
  intros ((Hl&Hob&Hit)&Hi&He&Hdel&[i Hfree]).
  destruct (acl_Entries_ok it None i (Some f) (iterator_construct it s)) as (d&s'&->&Hit'&Es'&Hlen&Hd&Hst&Hff&Hf);
    [by apply iterator_construct_ok|apply lookup_insert_eq|done|].
  exists s'. split; [done|]. rewrite Es' in *. cbn in Hd, Hit'. split_and!.
  - split; [done|]. split; [|done]. apply entry_construct_ok; [exact Hob|exact He].
  - done.
  - exists i, d. cbn. rewrite lookup_insert_eq. split_and!; try done; [by apply Hf|].
    unfold given, next_start. rewrite Hst. by rewrite take_0.
  - exists None. cbn. split; [apply lookup_insert_eq|exact Hdel].
Qed.

Lemma acl_law_next f it en k s s1 e :
  acl_at s f it en k s1 → entries_in f (acl s) !! k = Some e →
  ∃ s2, iterator_Next it en s1 = Returns (CHIP_NO_ERROR, s2) ∧ acl_at s f it en (S k) s2 ∧
    shows (H := acl_delegate kEntriesPerFabric) en e s2.
Proof.
  intros ((Hl&Hob&Hit)&Ha&(i&d&Hi&Hd&Hff&Hf&<-)&old&Hen&[kd Hfind]) Hk. rewrite <- Ha in Hk.
  destruct (next_gives f d (acl s1) e) as (j&e'&Hj&He'&Hu&Hv&Hgiven); [apply Hl|done..|].
  destruct (iterator_Next_ok it en i d old s1) as (err&s2&->&Hob2&Hit2&Ha2&Hio2&Hip2&_&_&Hcase); [done..|].
  rewrite Hj, Hfind in Hcase. destruct Hcase as (->&Hptr&Heo). exists s2. split; [done|]. split.
  - split; [|split; [congruence|split]].
    + split; [by rewrite Ha2|done].
    + rewrite Hio2, Hip2, Hj. cbn [default]. eexists i, _. split; [done|]. split; [apply list_lookup_insert_eq; by eapply lookup_lt_Some|].
      cbn. rewrite Hf, <- Ha. by split_and!.
    + exists (Some kd). rewrite Heo. by rewrite lookup_insert_eq.
  - rewrite <- Hv. eapply ptr_shows; [exact Hptr|]. cbn. by rewrite Ha2.
Qed.

Lemma acl_law_last f it en k s s1 :
  acl_at s f it en k s1 → entries_in f (acl s) !! k = None →
  ∃ s2, iterator_Next it en s1 = Returns (CHIP_ERROR_SENTINEL, s2) ∧ acl_at s f it en k s2.
Proof.
  intros ((Hl&Hob&Hit)&Ha&(i&d&Hi&Hd&Hff&Hf&<-)&old&Hen&Hfind) Hk. rewrite <- Ha in Hk.
  destruct (next_ends f d (acl s1)) as (Hj&Hgiven); [apply Hl|done..|].
  destruct (iterator_Next_ok it en i d old s1) as (err&s2&->&Hob2&Hit2&Ha2&Hio2&Hip2&_&_&Hcase); [done..|].
  rewrite Hj in Hcase. destruct Hcase as (->&Es). exists s2. split; [done|]. split; [|split; [congruence|split]].
  - split; [by rewrite Ha2|done].
  - rewrite Hio2, Hip2, Hj. cbn [default]. eexists i, _. split; [done|]. split; [apply list_lookup_insert_eq; by eapply lookup_lt_Some|].
    cbn. rewrite Hf, <- Ha. by split_and!.
  - exists old. by rewrite Es.
Qed.

Lemma acl_law_end f it en k s s1 :
  acl_at s f it en k s1 →
  ∃ s2 s3, entry_destroy en s1 = Returns s2 ∧ iterator_destroy it s2 = Returns s3 ∧ acl_ready it en s3 ∧
    ∀ g, entries_in g (acl s3) = entries_in g (acl s).
Proof.
  intros ((Hl&Hob&Hit)&Ha&(i&d&Hi&Hd&_)&old&Hen&Hfind).
  destruct (entry_destroy_ok en old s1 Hob Hen) as (s2&E2&Hob2&(Ha2&Hip2&Hio2&_&_)&Heo2&Hfree2).
  assert (Hit2 : iters_ok s2) by (destruct Hit; split; by rewrite ?Hio2, ?Hip2).
  destruct (iterator_destroy_ok it i s2) as (s3&E3&Hit3&Es3&_&Hfree3); [done|by rewrite Hio2|].
  exists s2, s3. split; [done|]. split; [done|]. rewrite Es3 in *. split.
  - split; [split; [cbn; by rewrite Ha2|by split]|]. cbn. rewrite lookup_delete_eq, Heo2, lookup_delete_eq. split_and!; auto.
  - intros g. cbn. by rewrite Ha2, Ha.
Qed.

#[export] Instance acl_laws : AclLaws acs (H := acl_delegate kEntriesPerFabric) := {
  entries_of f s := entries_in f (acl s);
  ready := acl_ready;
  at_entry := acl_at;
  law_check _ _ _ _ := eq_refl;
  law_begin := acl_law_begin;
  law_next := acl_law_next;
  law_last := acl_law_last;
  law_end := acl_law_end
}.

End Config.
