(* ===== verification/AclOps.v ===== *)
(** * The access control list in memory: finding and changing entries

    Indices relative to a fabric, the setters of an entry, and the operations that create,
    read and update entries. *)

From S2P Require Import Prelude.
From S2P Require Import COutcome.
From S2P Require Import ChipError.
From S2P Require Import AccessTypes.
From S2P Require Import AccessControl.
From S2P Require Import AccessSpec.
From S2P Require Import AclStorage.
From S2P Require Import AclInv.
From S2P Require Import AclShow.

(** ** Indices *)

Definition in_fabric (f : Z) (l : list EntryStorage) : Z := Z.of_nat (length (filter (λ e, mFabricIndex e = f) l)).

Lemma in_fabric_cons f e l : in_fabric f (e :: l) = (if mFabricIndex e =? f then 1 else 0) + in_fabric f l.
Proof.
  unfold in_fabric. destruct (Z.eqb_spec (mFabricIndex e) f); [rewrite filter_cons_True by done; cbn; lia|by rewrite filter_cons_False].
Qed.

Lemma in_fabric_entries f l : in_fabric f (used l) = Z.of_nat (length (entries_in f l)).
Proof. unfold in_fabric, entries_in. by rewrite length_fmap. Qed.

Lemma to_absolute_spec size idx f l : ∀ abs rel, rel <= idx →
  (∃ a x b, l = a ++ x :: b ∧ Forall (λ e, mInUse e = true) a ∧ mInUse x = true ∧ mFabricIndex x = f ∧
     idx = rel + in_fabric f a ∧ to_absolute size idx f abs rel l = abs + Z.of_nat (length a)) ∨
  (to_absolute size idx f abs rel l = size ∧ rel + in_fabric f (used l) <= idx).
Proof.
  induction l as [|e l IH]; intros abs rel Hle; cbn [to_absolute used].
  { right. split; [done|]. unfold in_fabric. cbn. lia. }
  destruct (mInUse e) eqn:Eu; cbn [negb]; [|right; split; [done|]; unfold in_fabric; cbn; lia].
  assert (Hstep : ∀ rel', rel' = rel + (if mFabricIndex e =? f then 1 else 0) → rel' <= idx →
    (∃ a x b, e :: l = a ++ x :: b ∧ Forall (λ e, mInUse e = true) a ∧ mInUse x = true ∧ mFabricIndex x = f ∧
       idx = rel + in_fabric f a ∧ to_absolute size idx f (abs + 1) rel' l = abs + Z.of_nat (length a)) ∨
    (to_absolute size idx f (abs + 1) rel' l = size ∧ rel + in_fabric f (e :: used l) <= idx)).
  { intros rel' -> Hle'. destruct (IH (abs + 1) _ Hle') as [(a&x&b&->&Ha&Hx&Hf&Hi&Et)|[Et Hn]].
    - left. exists (e :: a), x, b. rewrite in_fabric_cons, Et. cbn [length]. split_and!; try done; [by constructor|lia..].
    - right. rewrite in_fabric_cons. split; [done|lia]. }
  destruct (Z.eqb_spec (mFabricIndex e) f) as [Ef|Ef].
  - destruct (Z.eqb_spec idx rel) as [->|Hne].
    + left. exists [], e, l. split_and!; try done; unfold in_fabric; cbn; lia.
    + apply Hstep; lia.
  - apply Hstep; lia.
Qed.

Lemma to_relative_spec size f x b a : ∀ abs rel,
  Forall (λ e, mInUse e = true) a → mInUse x = true → mFabricIndex x = f →
  to_relative size (abs + Z.of_nat (length a)) f abs rel (a ++ x :: b) = rel + in_fabric f a.
Proof.
  induction a as [|e a IH]; intros abs rel Ha Hx Hf; cbn [to_relative app length].
  - rewrite Hx, Hf, Z.eqb_refl. cbn. by rewrite Z.add_0_r, Z.eqb_refl, Z.add_0_r.
  - inversion_clear Ha as [|?? He Ha']. rewrite He. cbn [negb]. rewrite in_fabric_cons.
    destruct (Z.eqb_spec (abs + Z.of_nat (S (length a))) abs) as [|_]; [lia|].
    replace (abs + Z.of_nat (S (length a))) with ((abs + 1) + Z.of_nat (length a)) by lia.
    destruct (mFabricIndex e =? f); rewrite IH by done; lia.
Qed.

(** An index relative to a fabric names the entry with that many of the fabric in front. *)
Lemma FindUsedInAcl_Some idx f s i :
  0 <= idx → FindUsedInAcl idx (Some f) s = Some i →
  ∃ a x b, acl s = a ++ x :: b ∧ Forall (λ e, mInUse e = true) a ∧ mInUse x = true ∧ mFabricIndex x = f ∧
    i = length a ∧ idx = in_fabric f a.
Proof.
  intros Hi. unfold FindUsedInAcl, ConvertIndex.
  destruct (to_absolute_spec (Z.of_nat (length (acl s))) idx f (acl s) 0 0) as [(a&x&b&Ea&Ha&Hx&Hf&Hidx&->)|[-> _]]; [lia| |].
  - rewrite Z.add_0_l. rewrite Nat2Z.id. destruct (_ <? _); [|done]. rewrite Ea, list_lookup_middle by done. rewrite Hx.
    intros [= <-]. by exists a, x, b.
  - by rewrite Z.ltb_irrefl.
Qed.

Lemma FindUsedInAcl_None idx f s :
  0 <= idx → FindUsedInAcl idx (Some f) s = None → Z.of_nat (length (entries_in f (acl s))) <= idx.
Proof.
  intros Hi. unfold FindUsedInAcl, ConvertIndex.
  destruct (to_absolute_spec (Z.of_nat (length (acl s))) idx f (acl s) 0 0) as [(a&x&b&Ea&Ha&Hx&Hf&Hidx&->)|[-> Hn]]; [lia| |].
  - rewrite Z.add_0_l, Nat2Z.id. rewrite (proj2 (Z.ltb_lt _ _)) by (rewrite Ea, length_app; cbn; lia).
    by rewrite Ea, list_lookup_middle, Hx.
  - intros _. rewrite in_fabric_entries in Hn. lia.
Qed.

Lemma count_fabric_spec f l : count_fabric f l = in_fabric f (used l).
Proof. induction l as [|e l IH]; cbn [count_fabric used]; [done|]. destruct (mInUse e); cbn [negb]; [|done]. by rewrite in_fabric_cons, IH. Qed.

(** ** The entries of a changed list *)

Lemma tidy_split a x b : tidy (a ++ x :: b) → mInUse x = true → Forall (λ e, mInUse e = true) a ∧ tidy b ∧ ∀ e, mInUse e = true → tidy (a ++ e :: b).
Proof.
  intros Ht Hx. assert (Htb : tidy b).
  { apply tidy_app in Ht as (_&Ht&_). change (x :: b) with ([x] ++ b) in Ht. by apply tidy_app in Ht as (_&?&_). }
  assert (Hua : Forall (λ e, mInUse e = true) a).
  { destruct Ht as (u&v&E&Hu&Hv). destruct (decide (length u <= length a)%nat) as [Hle|Hgt].
    - assert (Hl : v !! (length a - length u)%nat = Some x) by (rewrite <- lookup_app_r, <- E by done; by apply list_lookup_middle).
      apply (Forall_lookup_1 _ _ _ _ Hv) in Hl. cbn in Hl. congruence.
    - apply (f_equal (take (length a))) in E. rewrite take_app_length, take_app_le in E by lia. rewrite E. by apply Forall_take. }
  split; [done|]. split; [done|].
  intros e He. destruct Htb as (u&v&->&Huu&Hv). exists (a ++ e :: u), v. rewrite <- app_assoc. split_and!; [done| |done].
  apply Forall_app; split; [done|by constructor].
Qed.

Lemma entries_in_cons f e l : mInUse e = true → entries_in f (e :: l) = (if mFabricIndex e =? f then [view e] else []) ++ entries_in f l.
Proof.
  intros He. unfold entries_in. cbn [used]. rewrite He. destruct (Z.eqb_spec (mFabricIndex e) f).
  - by rewrite filter_cons_True by done.
  - by rewrite filter_cons_False by done.
Qed.

Lemma entries_in_free f b : Forall (λ e, mInUse e = false) b → entries_in f b = [].
Proof. intros Hb. unfold entries_in. by rewrite used_free. Qed.

(** ** The list and the objects *)

(** The list may change as long as what was in use stays so where a delegate points. *)
Lemma objs_ok_acl l s :
  objs_ok s →
  (∀ i eo k e, delegate_pool s !! i = Some (mkED eo (Some (PAcl k))) → acl s !! k = Some e → mInUse e = true →
     ∃ e', l !! k = Some e' ∧ mInUse e' = true) →
  objs_ok (with_acl l s).
Proof.
  intros (He&Hd&Hp) Hl. split_and!; [done| |done]. intros i eo p Hi. cbn in Hi. destruct (Hd i eo p Hi) as (en&e&->&Ho&Hs&Hu).
  destruct p as [k|k]; [|by exists en, e]. destruct (Hl i _ k e Hi Hs Hu) as (e'&He'&Hu'). by exists en, e'.
Qed.

Lemma objs_ok_insert i e s : objs_ok s → mInUse e = true → objs_ok (with_acl (<[i := e]> (acl s)) s).
Proof.
  intros Hok He. apply objs_ok_acl; [done|]. intros _ _ k e0 _ Hk Hu. destruct (decide (i = k)) as [->|Hne].
  - exists e. split; [|done]. apply list_lookup_insert_eq. by eapply lookup_lt_Some.
  - exists e0. by rewrite list_lookup_insert_ne.
Qed.

Lemma objs_store_free k e e' s :
  objs_ok s → storage_pool s !! k = Some e → mInUse e = false → objs_ok (store (PPool k) e' s).
Proof.
  intros (He&Hd&Hp) Hk Hu. split_and!; [done| |done]. intros i eo p Hi. cbn in Hi.
  destruct (Hd i eo p Hi) as (en&e1&->&Ho&Hs&Hu'). exists en, e1. split_and!; try done.
  destruct p as [a|a]; [done|]. cbn in Hs |- *. rewrite list_lookup_insert_ne; [done|]. congruence.
Qed.

(** A delegate may point to other storage in use, of the pool only if it has no owner. *)
Lemma objs_repoint i eo p p' e s :
  objs_ok s → delegate_pool s !! i = Some (mkED eo (Some p)) → storage_at p' s = Some e → mInUse e = true →
  (∀ j eo', InPool p' = true → delegate_pool s !! j ≠ Some (mkED eo' (Some p'))) →
  objs_ok (with_delegate_pool (<[i := mkED eo (Some p')]> (delegate_pool s)) s).
Proof.
  intros (He&Hd&Hp) Hi Hs Hu Hno. pose proof (lookup_lt_Some _ _ _ Hi) as Hlt. split_and!; cbn.
  - intros en j Ho. destruct (He en j Ho) as (q&Hq). destruct (decide (i = j)) as [->|Hne].
    + exists p'. rewrite list_lookup_insert_eq by done. congruence.
    + exists q. by rewrite list_lookup_insert_ne.
  - intros j eo' q Hj. apply list_lookup_insert_Some in Hj as [(->&[= <- <-]&_)|[Hne Hj]].
    + destruct (Hd j eo p Hi) as (en&_&->&Ho&_). by exists en, e.
    + by apply Hd.
  - intros j j' eo1 eo2 k Hj Hj'.
    apply list_lookup_insert_Some in Hj as [(->&Ej&_)|[Hn Hj]]; apply list_lookup_insert_Some in Hj' as [(->&Ej'&_)|[Hn' Hj']].
    + done.
    + injection Ej as _ ->. by destruct (Hno j' eo2 eq_refl).
    + injection Ej' as _ ->. by destruct (Hno j eo1 eq_refl).
    + by eapply Hp.
Qed.

(** ** Copies in the pool *)

(** An entry that is shown keeps its delegate and what it holds, but moves to the pool. *)
Lemma EnsureStorageInPool_ok en i p e s :
  objs_ok s → entry_objs s !! en = Some (Some i) → entry_ptr en s = Some p → storage_at p s = Some e → mInUse e = true →
  ∃ err s', EnsureStorageInPool i s = Returns (err, s') ∧ objs_ok s' ∧ same_rest s s' ∧ entry_objs s' = entry_objs s ∧
    (∀ j, j ≠ i → delegate_pool s' !! j = delegate_pool s !! j) ∧
    ((err = CHIP_NO_ERROR ∧ ∃ k, entry_ptr en s' = Some (PPool k) ∧ storage_pool s' !! k = Some e) ∨
     (err = CHIP_ERROR_BUFFER_TOO_SMALL ∧ s' = s)).
Proof.
  intros Hok Ho Hptr Hs Hu. destruct (proj1 Hok en i Ho) as (q&Hi). assert (q = p) as -> by (unfold entry_ptr in Hptr; rewrite Ho, Hi in Hptr; cbn in Hptr; congruence).
  unfold EnsureStorageInPool. rewrite Hi. destruct p as [a|k]; cbn [InPool].
  2:{ eexists _, s. split; [done|]. split; [done|]. split; [apply same_rest_refl|]. split_and!; try done. left. split; [done|]. by exists k. }
  cbn [storage_Find]. destruct (first_index _ (storage_pool s)) as [k|] eqn:Ef; cbn [fmap option_fmap option_map].
  2:{ eexists _, s. split; [done|]. split; [done|]. split; [apply same_rest_refl|]. split_and!; try done. by right. }
  apply first_index_Some in Ef as [(e0&Hk&Hf) _]. apply negb_true_iff in Hf. rewrite Hs.
  pose proof (lookup_lt_Some _ _ _ Hk) as Hkl. pose proof (lookup_lt_Some _ _ _ Hi) as Hil.
  eexists _, _. split; [done|]. split; [|split; [split_and!; cbn; by rewrite ?length_insert|split_and!]].
  - change (delegate_pool s) with (delegate_pool (store (PPool k) e s)). eapply objs_repoint; [by eapply objs_store_free|done| |done|].
    + cbn. by apply list_lookup_insert_eq.
    + intros j eo' _ Hj. cbn in Hj. destruct (proj1 (proj2 Hok) _ _ _ Hj) as (?&e1&_&_&Hs1&Hu1). cbn in Hs1. congruence.
  - done.
  - intros j Hj. cbn. by apply list_lookup_insert_ne.
  - left. split; [done|]. exists k. unfold entry_ptr. cbn. rewrite Ho. by rewrite !list_lookup_insert_eq.
Qed.

(** The pointer of an object with a delegate of the pool. *)
Lemma owned_ptr en i s :
  objs_ok s → entry_objs s !! en = Some (Some i) → ∃ p e, entry_ptr en s = Some p ∧ storage_at p s = Some e ∧ mInUse e = true.
Proof.
  intros (He&Hd&_) Ho. destruct (He en i Ho) as (p&Hi). destruct (Hd _ _ _ Hi) as (_&e&_&_&Hs&Hu). exists p, e.
  unfold entry_ptr. by rewrite Ho, Hi.
Qed.

Lemma ptr_in_use en p e s : objs_ok s → entry_ptr en s = Some p → storage_at p s = Some e → mInUse e = true.
Proof.
  intros Hob Hp He. pose proof Hp as Hp'. unfold entry_ptr in Hp'. destruct (entry_objs s !! en) as [[i|]|] eqn:Ho; [|done..].
  destruct (owned_ptr en i s Hob Ho) as (q&e'&Hq&Hs&Hu). congruence.
Qed.

(** A setter acts on a copy that only the object owns; the list is left as it is. *)
Lemma entry_set_ok f en i p e s :
  objs_ok s → entry_objs s !! en = Some (Some i) → entry_ptr en s = Some p → storage_at p s = Some e → mInUse e = true →
  mInUse (snd (f e)) = true →
  ∃ err s', entry_set f en s = Returns (err, s') ∧ objs_ok s' ∧ same_rest s s' ∧ entry_objs s' = entry_objs s ∧
    ((err = fst (f e) ∧ ∃ k, entry_ptr en s' = Some (PPool k) ∧ storage_pool s' !! k = Some (snd (f e))) ∨
     (err = CHIP_ERROR_BUFFER_TOO_SMALL ∧ s' = s)).
Proof.
  intros Hok Ho Hptr Hs Hu Hf. unfold entry_set. rewrite Ho.
  destruct (EnsureStorageInPool_ok en i p e s) as (err&s1&->&Hok1&Hrest&Heo&_&Hcase); [done..|]. cbn [obind].
  destruct Hcase as [(->&k&Hptr1&Hk)|(->&->)].
  2:{ rewrite decide_False by done. eexists _, _. split; [done|]. split_and!; try done; [by right]. }
  rewrite decide_True, Hptr1 by done. cbn [storage_at]. rewrite Hk. destruct (f e) as [err e'] eqn:Ef. cbn [fst snd] in *.
  pose proof (lookup_lt_Some _ _ _ Hk) as Hkl. eexists _, _. split; [done|]. split; [|split; [|split]].
  - destruct Hok1 as (He&Hd&Hp). split_and!; [done| |done]. intros j eo q Hj. cbn in Hj.
    destruct (Hd j eo q Hj) as (en'&e1&->&Ho'&Hs'&Hu'). destruct q as [a|a]; [by exists en', e1|].
    destruct (decide (k = a)) as [->|Hne]; [exists en', e'; cbn; by rewrite list_lookup_insert_eq|].
    exists en', e1. cbn. by rewrite list_lookup_insert_ne.
  - eapply same_rest_trans; [exact Hrest|]. split_and!; cbn; by rewrite ?length_insert.
  - done.
  - left. split; [done|]. exists k. split; [exact Hptr1|]. cbn. by apply list_lookup_insert_eq.
Qed.

Lemma acl_PrepareEntry_ok en old s :
  objs_ok s → entry_objs s !! en = Some old →
  ∃ err s', acl_PrepareEntry en s = Returns (err, s') ∧ objs_ok s' ∧ same_rest s s' ∧
    ((err = CHIP_NO_ERROR ∧ ∃ i k, entry_objs s' = <[en := Some i]> (entry_objs s) ∧ entry_ptr en s' = Some (PPool k)) ∨
     (err = CHIP_ERROR_BUFFER_TOO_SMALL ∧ s' = s)).
Proof.
  intros Hok Ho. unfold acl_PrepareEntry. rewrite Ho.
  assert (Hsmall : ∃ err s', Returns (CHIP_ERROR_BUFFER_TOO_SMALL, s) = Returns (err, s') ∧ objs_ok s' ∧ same_rest s s' ∧
    ((err = CHIP_NO_ERROR ∧ ∃ i k, entry_objs s' = <[en := Some i]> (entry_objs s) ∧ entry_ptr en s' = Some (PPool k)) ∨
     (err = CHIP_ERROR_BUFFER_TOO_SMALL ∧ s' = s))).
  { eexists _, s. split; [done|]. split_and!; try done; [by right]. }
  destruct (delegate_Find old s) as [i|] eqn:Ef; [|done].
  assert (∃ d, delegate_pool s !! i = Some d ∧ ∀ q, ed_mStorage d = Some q → entry_ptr en s = Some q) as (d&Hd&Hown).
  { destruct old as [j|]; cbn in Ef.
    - injection Ef as ->. destruct (proj1 Hok en i Ho) as (p&Hi). eexists. split; [done|]. intros q [= <-]. unfold entry_ptr. by rewrite Ho, Hi.
    - apply first_index_Some in Ef as [(d&Hd&Hf) _]. apply bool_decide_eq_true in Hf. exists d. split; [done|]. by rewrite Hf. }
  rewrite Hd. destruct (storage_Find (ed_mStorage d) s) as [p|] eqn:Es; [|done].
  assert (∃ k, p = PPool k ∧ may_show en s p) as (k&->&Hmay).
  { assert (Hfree : PPool <$> first_index (λ e, negb (mInUse e)) (storage_pool s) = Some p → ∃ k, p = PPool k ∧ may_show en s p).
    { destruct (first_index _ (storage_pool s)) as [k|] eqn:Ek; cbn; [|done]. intros [= <-]. exists k. split; [done|].
      apply first_index_Some in Ek as [(e&He&Hu) _]. eapply show_free; [done|]. by apply negb_true_iff. }
    destruct (ed_mStorage d) as [[a|k]|] eqn:Ed; cbn in Es; [by apply Hfree| |by apply Hfree].
    injection Es as <-. exists k. split; [done|]. specialize (Hown _ eq_refl).
    destruct d as [eo st]. cbn in Ed. subst st. destruct (proj1 (proj2 Hok) _ _ _ Hd) as (_&e&_&_&Hs&_). by eapply show_own. }
  destruct (delegate_Init_ok en old i (PPool k) s) as (s'&->&Hok'&Hrest&Heo&Hptr); [done..|]. cbn [obind].
  eexists _, s'. split; [done|]. split_and!; try done; try apply Hrest. left. split; [done|]. by exists i, k.
Qed.

(** ** Storing entries *)

Lemma acl_Copy_ok en p e i s :
  entry_ptr en s = Some p → storage_at p s = Some e → acl_Copy en i s = Returns (CHIP_NO_ERROR, store (PAcl i) e s).
Proof.
  intros Hp He. unfold acl_Copy. pose proof Hp as Hp'. unfold entry_ptr in Hp'. destruct (entry_objs s !! en) as [[j|]|]; [|done..].
  by rewrite Hp, He.
Qed.

(** The first storage of the list that is not in use is behind all that are. *)
Lemma FindUnusedInAcl_ok s i :
  tidy (acl s) → FindUnusedInAcl s = Some i →
  ∃ u x v, acl s = u ++ x :: v ∧ i = length u ∧ Forall (λ e, mInUse e = true) u ∧ Forall (λ e, mInUse e = false) (x :: v).
Proof.
  intros (u&b&Ea&Hu&Hb) [(x&Hx&Hf) Hbefore]%first_index_Some. apply negb_true_iff in Hf. rewrite Ea in Hx. exists u.
  assert (i = length u) as ->.
  { apply lookup_app_Some in Hx as [Hx|[Hge Hx]].
    - apply (Forall_lookup_1 _ _ _ _ Hu) in Hx. cbn in Hx. congruence.
    - destruct (decide (i = length u)) as [->|Hne]; [done|]. destruct b as [|y b]; [done|].
      assert (Hy : negb (mInUse y) = false) by (apply (Hbefore (length u)); [lia|]; by rewrite Ea, list_lookup_middle).
      inversion Hb; subst. destruct (mInUse y); done. }
  destruct b as [|y b]; [rewrite app_nil_r in Hx; apply lookup_lt_Some in Hx; lia|]. exists y, b. by split_and!.
Qed.

Lemma list_ok_split a x b : list_ok (a ++ x :: b) → mInUse x = true →
  Forall (λ e, mInUse e = true) a ∧ tidy b ∧ Forall (λ e, entry_ok (view e) = true) a ∧ entry_ok (view x) = true ∧
  Forall (λ e, entry_ok (view e) = true) (used b).
Proof.
  intros (Ht&Hv) Hx. destruct (tidy_split a x b Ht Hx) as (Ha&Hb&_). rewrite used_app in Hv by done. cbn in Hv. rewrite Hx in Hv.
  apply Forall_app in Hv as [Hva Hv]. inversion Hv; subst. by split_and!.
Qed.

Lemma list_ok_join a b : Forall (λ e, mInUse e = true) a → tidy b → Forall (λ e, entry_ok (view e) = true) a →
  Forall (λ e, entry_ok (view e) = true) (used b) → list_ok (a ++ b) ∧ ∀ f, entries_in f (a ++ b) = entries_in f a ++ entries_in f b.
Proof.
  intros Ha (u&v&->&Hu&Hv) Hva Hvb.
  assert (Ht : tidy (a ++ u ++ v)) by (exists (a ++ u), v; rewrite <- app_assoc; split_and!; [done|by apply Forall_app|done]).
  split; [|intros f; by apply entries_in_app]. split; [done|]. rewrite used_app by done. by apply Forall_app.
Qed.

(** Entry [x] replaced by [e]. *)
Lemma list_ok_replace a x b e : list_ok (a ++ x :: b) → mInUse x = true → mInUse e = true → entry_ok (view e) = true →
  list_ok (a ++ e :: b) ∧ ∀ f, entries_in f (a ++ e :: b) = entries_in f a ++ (if mFabricIndex e =? f then [view e] else []) ++ entries_in f b.
Proof.
  intros Hl Hx He Hv. destruct (list_ok_split a x b Hl Hx) as (Ha&(u&v&->&Hu&Hw)&Hva&_&Hvb).
  destruct (list_ok_join a (e :: u ++ v)) as [H1 H2]; [done| |done| |].
  - exists (e :: u), v. split_and!; [done|by constructor|done].
  - cbn [used]. rewrite He. by constructor.
  - split; [done|]. intros f. by rewrite H2, entries_in_cons.
Qed.

Lemma list_ok_add u x v e : list_ok (u ++ x :: v) → Forall (λ e, mInUse e = true) u → Forall (λ e, mInUse e = false) (x :: v) →
  mInUse e = true → entry_ok (view e) = true →
  list_ok (u ++ e :: v) ∧ ∀ f, entries_in f (u ++ e :: v) = entries_in f (u ++ x :: v) ++ (if mFabricIndex e =? f then [view e] else []).
Proof.
  intros (Ht&Hval) Hu Hf He Hv. rewrite used_app, used_free, app_nil_r in Hval by done. inversion Hf as [|?? Hx Hfv]; subst.
  destruct (list_ok_join u (e :: v)) as [H1 H2]; [done| |done| |].
  - exists [e], v. split_and!; [done|by constructor|done].
  - cbn [used]. rewrite He, used_free by done. by constructor.
  - split; [done|]. intros f. rewrite H2, entries_in_cons, (entries_in_app f u (x :: v)) by done.
    by rewrite (entries_in_free f v), (entries_in_free f (x :: v)), !app_nil_r.
Qed.

Lemma acl_CreateEntry_ok en p e fabric s :
  good s → entry_ptr en s = Some p → storage_at p s = Some e → mInUse e = true → entry_ok (view e) = true →
  (FindUnusedInAcl s = None → acl_CreateEntry en (Some fabric) s = Returns (CHIP_ERROR_BUFFER_TOO_SMALL, 0, Some fabric, s)) ∧
  (FindUnusedInAcl s ≠ None →
   ∃ s', acl_CreateEntry en (Some fabric) s =
     Returns (CHIP_NO_ERROR, Z.of_nat (length (entries_in (mFabricIndex e) (acl s))), Some (mFabricIndex e), s') ∧ good s' ∧
     (∀ f, entries_in f (acl s') = entries_in f (acl s) ++ (if mFabricIndex e =? f then [view e] else [])) ∧ s' = with_acl (acl s') s ∧
     length (acl s') = length (acl s)).
Proof.
  intros (Hl&Hob&Hit) Hp He Hu Hv. unfold acl_CreateEntry. split; [by intros ->|]. intros Hroom.
  destruct (FindUnusedInAcl s) as [i|] eqn:Ef; [|done]. rewrite (acl_Copy_ok en p e i s Hp He). cbn [obind]. rewrite decide_True by done.
  destruct (FindUnusedInAcl_ok s i (proj1 Hl) Ef) as (u&x&v&Ea&->&Hus&Hfree). cbn [store acl with_acl].
  pose proof (objs_ok_insert (length u) e s Hob Hu) as Hob'.
  rewrite Ea, insert_app_r_alt, Nat.sub_diag in Hob' |- * by lia. cbn in Hob' |- *. rewrite list_lookup_middle by done.
  rewrite Ea in Hl. destruct (list_ok_add u x v e Hl Hus Hfree Hu Hv) as [Hl' Hent].
  exists (with_acl (u ++ e :: v) s). split; [|split; [by split|split; [exact Hent|split; [done|]]]].
  - do 4 f_equal. unfold ConvertIndex. cbn. pose proof (to_relative_spec (Z.of_nat (length (u ++ e :: v))) (mFabricIndex e) e v u 0 0 Hus Hu eq_refl) as Hr.
    rewrite !Z.add_0_l in Hr. rewrite Hr. rewrite entries_in_app, (entries_in_free _ (x :: v)), app_nil_r by (done || apply Hl).
    by rewrite <- in_fabric_entries, used_all.
  - cbn. by rewrite !length_app.
Qed.

Lemma acl_UpdateEntry_ok en p e fabric idx s :
  good s → entry_ptr en s = Some p → storage_at p s = Some e → mInUse e = true → entry_ok (view e) = true → 0 <= idx →
  (Z.of_nat (length (entries_in fabric (acl s))) <= idx → acl_UpdateEntry idx en (Some fabric) s = Returns (CHIP_ERROR_SENTINEL, s)) ∧
  (idx < Z.of_nat (length (entries_in fabric (acl s))) →
   ∃ s', acl_UpdateEntry idx en (Some fabric) s = Returns (CHIP_NO_ERROR, s') ∧ good s' ∧ s' = with_acl (acl s') s ∧
     length (acl s') = length (acl s) ∧
     (mFabricIndex e = fabric → entries_in fabric (acl s') = <[Z.to_nat idx := view e]> (entries_in fabric (acl s))) ∧
     (∀ f, f ≠ fabric → f ≠ mFabricIndex e → entries_in f (acl s') = entries_in f (acl s))).
Proof.
  intros (Hl&Hob&Hit) Hp He Hu Hv Hidx. unfold acl_UpdateEntry. destruct (FindUsedInAcl idx (Some fabric) s) as [i|] eqn:Ef.
  2:{ split; [done|]. apply FindUsedInAcl_None in Ef; lia. }
  apply FindUsedInAcl_Some in Ef as (a&x&b&Ea&Ha&Hx&Hf&->&Ei); [|done]. rewrite (acl_Copy_ok en p e (length a) s Hp He).
  assert (Hlen : Z.of_nat (length (entries_in fabric (acl s))) = in_fabric fabric a + 1 + in_fabric fabric (used b)).
  { rewrite <- in_fabric_entries, Ea, used_app by done. cbn [used]. rewrite Hx. unfold in_fabric. rewrite filter_app, length_app, filter_cons_True by done. cbn. lia. }
  split; [unfold in_fabric in *; lia|]. intros _. cbn [store]. pose proof (objs_ok_insert (length a) e s Hob Hu) as Hob'.
  rewrite Ea in Hob' |- *. rewrite insert_app_r_alt, Nat.sub_diag in Hob' |- * by lia. cbn in Hob' |- *. rewrite Ea in Hl.
  destruct (list_ok_replace a x b e Hl Hx Hu Hv) as [Hl' Hent]. destruct (list_ok_replace a x b x Hl Hx Hx) as [_ Hent0]; [by apply (list_ok_split a x b)|].
  exists (with_acl (a ++ e :: b) s). split; [done|]. split; [by split|]. cbn [acl with_acl]. split; [done|]. split; [by rewrite !length_app|]. split.
  - intros Hfe. rewrite Hent, Hent0, Hf, Hfe, Z.eqb_refl, Ei. unfold in_fabric. rewrite Nat2Z.id.
    assert (length (filter (λ e0, mFabricIndex e0 = fabric) a) = length (entries_in fabric a)) as ->.
    { unfold entries_in. by rewrite length_fmap, used_all. }
    rewrite insert_app_r_alt, Nat.sub_diag by lia. done.
  - intros f H1 H2. rewrite Hent, Hent0. destruct (Z.eqb_spec (mFabricIndex x) f), (Z.eqb_spec (mFabricIndex e) f); congruence || done.
Qed.
