(* ===== verification/AclDelete.v ===== *)
(** * The access control list in memory: deleting entries

    Deleting moves the entries behind the deleted one, and corrects the delegates and the
    iterators that point into the list. *)

From S2P Require Import Prelude.
From S2P Require Import COutcome.
From S2P Require Import ChipError.
From S2P Require Import AccessTypes.
From S2P Require Import AccessControl.
From S2P Require Import AccessSpec.
From S2P Require Import AclStorage.
From S2P Require Import AclInv.
From S2P Require Import AclShow.
From S2P Require Import AclOps.

(** ** The list *)

Lemma shift_down_spec b : ∀ x, tidy b →
  ∃ y v, b = used b ++ v ∧ Forall (λ e, mInUse e = false) v ∧ shift_down (x :: b) = used b ++ storage_Clear y :: v.
Proof.
  induction b as [|n b IH]; intros x Ht.
  { exists x, []. by split_and!. }
  cbn [shift_down used]. destruct (mInUse n) eqn:En.
  - change (n :: b) with ([n] ++ b) in Ht. apply tidy_app in Ht as (_&Ht&_). destruct (IH n Ht) as (y&v&Eb&Hv&Es).
    exists y, v. cbn [app]. rewrite <- Eb. split_and!; [done|done|]. f_equal. exact Es.
  - exists x, (n :: b). split_and!; try done. destruct (tidy_used _ Ht) as (r&Er&_&Hr). cbn in Er. rewrite En in Er. cbn in Er. by rewrite Er.
Qed.

(** The entry [x] taken out: what is in use afterwards is in front of the last one. *)
Lemma delete_list a x b :
  list_ok (a ++ x :: b) → mInUse x = true →
  let l := a ++ shift_down (x :: b) in
  list_ok l ∧ length l = length (a ++ x :: b) ∧ (∀ f, entries_in f l = entries_in f a ++ entries_in f b) ∧
  (∀ k, (k < length a + length (used b))%nat → ∃ e, l !! k = Some e ∧ mInUse e = true) ∧
  (∀ k e, (a ++ x :: b) !! k = Some e → mInUse e = true → (k <= length a + length (used b))%nat).
Proof.
  intros Hl Hx l. destruct (list_ok_split a x b Hl Hx) as (Ha&Hb&Hva&_&Hvb).
  destruct (shift_down_spec b x Hb) as (y&v&Eb&Hv&Es).
  assert (Hub : Forall (λ e, mInUse e = true) (used b)) by (by destruct (tidy_used b Hb) as (?&_&?&_)).
  assert (Hfree : Forall (λ e, mInUse e = false) (storage_Clear y :: v)) by (by constructor).
  assert (Hus : used (used b ++ storage_Clear y :: v) = used b).
  { rewrite used_app by done. by rewrite (used_free _ Hfree), app_nil_r. }
  assert (Hlist : l = a ++ used b ++ storage_Clear y :: v) by (unfold l; by rewrite Es).
  destruct (list_ok_join a (used b ++ storage_Clear y :: v)) as [Hok Hent]; [done|by exists (used b), (storage_Clear y :: v)|done|by rewrite Hus|].
  rewrite Hlist. split_and!.
  - done.
  - rewrite !length_app. cbn [length]. rewrite Eb at 2. rewrite length_app. lia.
  - intros f. rewrite Hent. f_equal. unfold entries_in. by rewrite Hus.
  - intros k Hk. rewrite app_assoc. assert (Hk' : (k < length (a ++ used b))%nat) by (rewrite length_app; lia).
    destruct (lookup_lt_is_Some_2 _ _ Hk') as (e&He). exists e. split; [by apply lookup_app_l_Some|].
    assert (Hall : Forall (λ e, mInUse e = true) (a ++ used b)) by (by apply Forall_app). by apply (Forall_lookup_1 _ _ _ _ Hall He).
  - intros k e Hk Hu. destruct (decide (k <= length a + length (used b))%nat); [done|]. exfalso.
    rewrite Eb in Hk. change (x :: used b ++ v) with ([x] ++ used b ++ v) in Hk. rewrite !app_assoc in Hk.
    rewrite lookup_app_r in Hk by (rewrite !length_app; cbn; lia). apply (Forall_lookup_1 _ _ _ _ Hv) in Hk. cbn in Hk. congruence.
Qed.

(** ** The loops over the delegates *)

Lemma for_delegates_inv (P : nat → acs → Prop) f n :
  ∀ i s, (∀ j s, (i <= j < i + n)%nat → P j s → ∃ s', f j s = Returns s' ∧ P (S j) s') → P i s →
  ∃ s', for_delegates f i n s = Returns s' ∧ P (i + n)%nat s'.
Proof.
  induction n as [|n IH]; intros i s Hstep Hi; cbn [for_delegates].
  - exists s. by rewrite Nat.add_0_r.
  - destruct (Hstep i s) as (s1&->&H1); [lia|done|]. cbn [obind].
    destruct (IH (S i) s1) as (s'&->&H'); [intros j s0 Hj; apply Hstep; lia|done|]. exists s'. by rewrite <- Nat.add_succ_comm.
Qed.

Lemma FixBeforeDelete_ok j i s :
  objs_ok s → (i < length (delegate_pool s))%nat →
  ∃ s', FixBeforeDelete j i s = Returns s' ∧ objs_ok s' ∧ same_rest s s' ∧ entry_objs s' = entry_objs s.
Proof.
  intros Hok Hi. unfold FixBeforeDelete. destruct (lookup_lt_is_Some_2 _ _ Hi) as ([eo st]&Hd). rewrite Hd.
  destruct (bool_decide_reflect (ed_mStorage (mkED eo st) = Some (PAcl j))) as [Est|]; [|exists s; by split_and!].
  cbn in Est. subst st. destruct (proj1 (proj2 Hok) _ _ _ Hd) as (en&e&->&Ho&Hs&Hu).
  destruct (EnsureStorageInPool_ok en i (PAcl j) e s) as (err&s'&->&Hok'&Hrest&Heo&_); [done|done| |done..|].
  { unfold entry_ptr. by rewrite Ho, Hd. }
  cbn [obind]. by exists s'.
Qed.

Lemma fix_before_all j s :
  objs_ok s → ∃ s', for_delegates (FixBeforeDelete j) 0 (length (delegate_pool s)) s = Returns s' ∧ objs_ok s' ∧ same_rest s s' ∧
    entry_objs s' = entry_objs s.
Proof.
  intros Hok. destruct (for_delegates_inv (λ _ s', objs_ok s' ∧ same_rest s s' ∧ entry_objs s' = entry_objs s)
    (FixBeforeDelete j) (length (delegate_pool s)) 0 s) as (s'&Hs'&H'); [|by split_and!|by exists s'].
  intros i s1 Hi (Hok1&Hrest&Heo). destruct (FixBeforeDelete_ok j i s1 Hok1) as (s2&->&Hok2&Hrest2&Heo2).
  { destruct Hrest as (_&_&_&_&->). lia. }
  exists s2. split_and!; [done|done| |congruence]. by eapply same_rest_trans.
Qed.

(** A delegate that points into the list gives it up. *)
Lemma objs_ok_reset en i k s :
  objs_ok s → delegate_pool s !! i = Some (mkED (Some en) (Some (PAcl k))) →
  objs_ok (with_entry_objs (<[en := None]> (entry_objs s)) (with_delegate_pool (<[i := mkED (Some en) None]> (delegate_pool s)) s)) ∧
  entry_objs s !! en = Some (Some i).
Proof.
  intros Hok Hi. destruct (proj1 (proj2 Hok) _ _ _ Hi) as (en0&e&[= <-]&Ho&Hs&_).
  destruct (entry_reset_ok en (Some i) s Hok Ho) as (s'&Es&Hok'&_). split; [|done].
  unfold entry_SetDelegate, delegate_Release, storage_Release in Es. rewrite Ho, Hi, Hs in Es. cbn in Es. by injection Es as <-.
Qed.

Section FixAfter.
(** The list [old] of before, with [m] the last entry in use, of the same length as the list;
    [j] is not behind [m]. *)
Context (old : list EntryStorage) (m j : nat).
Hypothesis Hold : ∀ k, (k <= m)%nat → ∃ e, old !! k = Some e ∧ mInUse e = true.
Hypothesis Hlast : ∀ k e, old !! k = Some e → mInUse e = true → (k <= m)%nat.
Hypothesis Hj : (j <= m)%nat.

Definition fixed (n : nat) (s0 s : acs) : Prop :=
  objs_ok (with_acl old s) ∧ same_rest s0 s ∧ (∀ en, is_Some (entry_objs s !! en) ↔ is_Some (entry_objs s0 !! en)) ∧
  ∀ i eo k, (i < n)%nat → delegate_pool s !! i = Some (mkED eo (Some (PAcl k))) → (k < m)%nat.

Lemma FixAfterDelete_ok s0 s i :
  length (acl s0) = length old → (i < length (delegate_pool s0))%nat → fixed i s0 s →
  ∃ s', FixAfterDelete j i s = Returns s' ∧ fixed (S i) s0 s'.
Proof.
  intros Hlen Hi (Hok&Hrest&Hdom&Hptr). destruct Hrest as (Ha&Hip&Hio&Hls&Hld).
  destruct (lookup_lt_is_Some_2 (delegate_pool s) i ltac:(lia)) as ([eo st]&Hd). unfold FixAfterDelete. rewrite Hd.
  assert (Hsame : (∀ k, st = Some (PAcl k) → (k < m)%nat) → fixed (S i) s0 s).
  { intros Hst. split_and!; try done. intros i' eo' k Hi' Hd'.
    destruct (decide (i' = i)) as [->|]; [rewrite Hd in Hd'; injection Hd' as _ ->; by apply Hst|eapply (Hptr i'); [lia|done]]. }
  destruct st as [[k|k]|]; [|by exists s; split; [done|apply Hsame]..].
  destruct (proj1 (proj2 Hok) i eo (PAcl k) Hd) as (en&e&->&Ho&Hs&Hu). cbn in Ho, Hs. pose proof (Hlast k e Hs Hu) as Hkm.
  destruct (Hold k Hkm) as (e0&He0&_). pose proof (lookup_lt_Some _ _ _ He0) as Hkl. pose proof (lookup_lt_Some _ _ _ Hd) as Hil.
  destruct (bool_decide_reflect (k = j)) as [->|Hne].
  { destruct (lookup_lt_is_Some_2 (acl s) j) as (e1&He1); [congruence|].
    unfold entry_SetDelegate, delegate_Release, storage_Release. rewrite Ho, Hd. cbn [storage_at]. rewrite He1. cbn [obind InPool].
    eexists. split; [done|]. destruct (objs_ok_reset en i j (with_acl old s) Hok Hd) as [Hok' _]. split_and!.
    - exact Hok'.
    - split_and!; try done. cbn. by rewrite length_insert.
    - cbn. intros en'. rewrite <- Hdom. destruct (decide (en' = en)) as [->|]; [rewrite lookup_insert_eq, Ho; split; by eexists|by rewrite lookup_insert_ne].
    - cbn. intros i' eo' k Hi' Hd'. apply list_lookup_insert_Some in Hd' as [(_&[=]&_)|[Hn Hd']]. eapply (Hptr i'); [lia|done]. }
  destruct (bool_decide_reflect (j < k)%nat) as [Hlt|Hge]; cbn [andb].
  2:{ exists s. split; [done|]. apply Hsame. intros k' [= <-]. lia. }
  rewrite bool_decide_true by congruence. eexists. split; [done|]. destruct (Hold (k - 1)) as (e2&He2&Hu2); [lia|]. split_and!.
  - by apply (objs_repoint i (Some en) (PAcl k) (PAcl (k - 1)) e2 (with_acl old s)).
  - split_and!; try done. cbn. by rewrite length_insert.
  - exact Hdom.
  - cbn. intros i' eo' k' Hi' Hd'. apply list_lookup_insert_Some in Hd' as [(_&[= _ <-]&_)|[Hn Hd']]; [lia|]. eapply (Hptr i'); [lia|done].
Qed.

Lemma fix_after_all s :
  length (acl s) = length old → objs_ok (with_acl old s) →
  ∃ s', for_delegates (FixAfterDelete j) 0 (length (delegate_pool s)) s = Returns s' ∧ fixed (length (delegate_pool s)) s s'.
Proof.
  intros Hlen Hok. apply (for_delegates_inv (λ n, fixed n s) (FixAfterDelete j) (length (delegate_pool s)) 0 s).
  - intros i s1 Hi H1. apply FixAfterDelete_ok; [done|lia|done].
  - split_and!; try done. lia.
Qed.

End FixAfter.

Lemma iters_ok_map g s :
  iters_ok s → (∀ d, eid_mInUse (g d) = eid_mInUse d) → iters_ok (with_iterator_pool (map g (iterator_pool s)) s).
Proof.
  intros (H1&H2) Hg. split; [|exact H2]. intros it i Ho. destruct (H1 it i Ho) as (d&Hd&Hu). exists (g d). cbn.
  change (map g) with (fmap (M := list) g). by rewrite list_lookup_fmap, Hd, Hg.
Qed.

(** [DeleteEntry]: no entry at the index, or the list without it. *)
Lemma acl_DeleteEntry_ok idx fabric s :
  good s → 0 <= idx →
  (Z.of_nat (length (entries_in fabric (acl s))) <= idx → acl_DeleteEntry idx (Some fabric) s = Returns (CHIP_ERROR_SENTINEL, s)) ∧
  (idx < Z.of_nat (length (entries_in fabric (acl s))) →
   ∃ s', acl_DeleteEntry idx (Some fabric) s = Returns (CHIP_NO_ERROR, s') ∧ good s' ∧ length (acl s') = length (acl s) ∧
     entries_in fabric (acl s') = delete (Z.to_nat idx) (entries_in fabric (acl s)) ∧
     (∀ f, f ≠ fabric → entries_in f (acl s') = entries_in f (acl s)) ∧
     (∀ en, is_Some (entry_objs s' !! en) ↔ is_Some (entry_objs s !! en)) ∧ iterator_objs s' = iterator_objs s ∧
     length (iterator_pool s') = length (iterator_pool s)).
Proof.
  intros (Hl&Hob&Hit) Hidx. unfold acl_DeleteEntry. destruct (FindUsedInAcl idx (Some fabric) s) as [i|] eqn:Ef.
  2:{ split; [done|]. apply FindUsedInAcl_None in Ef; lia. }
  apply FindUsedInAcl_Some in Ef as (a&x&b&Ea&Ha&Hx&Hf&->&Ei); [|done].
  rewrite Ea in Hl. destruct (delete_list a x b Hl Hx) as (Hl'&Hlen&Hent&Huse&Hlast).
  assert (Hent0 : ∀ f, entries_in f (acl s) = entries_in f a ++ (if mFabricIndex x =? f then [view x] else []) ++ entries_in f b).
  { rewrite Ea. apply (list_ok_replace a x b x Hl Hx Hx). by apply (list_ok_split a x b). }
  assert (Hina : idx = Z.of_nat (length (entries_in fabric a))) by (by rewrite <- in_fabric_entries, used_all).
  split; [rewrite Hent0, Hf, Z.eqb_refl, !length_app; cbn; lia|]. intros _.
  destruct (fix_before_all (length a) s Hob) as (s1&->&Hob1&(Ha1&Hip1&Hio1&_&_)&Heo1). cbn [obind].
  rewrite Ha1, Ea, take_app_length, drop_app_length. set (l := a ++ shift_down (x :: b)) in *.
  set (m := (length a + length (used b))%nat) in *.
  assert (Hm : ∀ k, (k <= m)%nat → ∃ e, (a ++ x :: b) !! k = Some e ∧ mInUse e = true).
  { intros k Hk. destruct (list_ok_split a x b Hl Hx) as (_&Hb&_). destruct (tidy_used b Hb) as (r&Eb&Hub&_).
    assert (Hall : Forall (λ e, mInUse e = true) (a ++ x :: used b)) by (apply Forall_app; split; [done|by constructor]).
    assert (Hk' : (k < length (a ++ x :: used b))%nat) by (rewrite length_app; cbn; lia).
    destruct (lookup_lt_is_Some_2 _ _ Hk') as (e&He). exists e. split; [|by apply (Forall_lookup_1 _ _ _ _ Hall He)].
    rewrite Eb. change (a ++ x :: used b ++ r) with (a ++ (x :: used b) ++ r). rewrite app_assoc. by apply lookup_app_l_Some. }
  assert (Hjm : (Z.to_nat idx <= m)%nat).
  { rewrite Hina, Nat2Z.id. unfold entries_in. rewrite length_fmap. pose proof (length_filter (λ e, mFabricIndex e = fabric) (used a)) as Hle.
    rewrite used_all in Hle |- * by done. unfold m. lia. }
  destruct (fix_after_all (a ++ x :: b) m (Z.to_nat idx) Hm Hlast Hjm (with_acl l s1)) as (s2&->&Hob2&(Ha2&Hip2&Hio2&_&Hld2)&Hdom&Hptr);
    [by cbn|rewrite <- Ea, <- Ha1; by destruct s1|]. cbn [obind]. cbn in Ha2, Hip2, Hio2, Hdom, Hptr, Hld2.
  assert (Hob3 : objs_ok (with_acl l s2)).
  { apply (objs_ok_acl l) in Hob2; [exact Hob2|]. cbn. intros i eo k e Hi _ _. apply Huse. apply (Hptr i eo k); [|done].
    apply lookup_lt_Some in Hi. lia. }
  eexists. split; [done|]. rewrite Ha2. rewrite Ea in Hent0. cbn [acl with_iterator_pool]. split; [|split_and!].
  - split; [cbn; by rewrite Ha2|]. split; [rewrite <- Ha2 in Hob3; destruct s2; exact Hob3|].
    apply iters_ok_map; [destruct Hit as [H1 H2]; split; by rewrite ?Hio2, ?Hip2, ?Hio1, ?Hip1|].
    intros d. unfold iterator_FixAfterDelete. destruct (eid_mStorage d) as [k|]; [|done]. by destruct (_ && _).
  - by rewrite Ha2.
  - rewrite Ha2, Hent, Hent0, Hf, Z.eqb_refl, Hina, Nat2Z.id. symmetry. apply delete_middle.
  - intros f Hne. rewrite Ha2, Hent, Hent0. destruct (Z.eqb_spec (mFabricIndex x) f); [congruence|done].
  - intros en. rewrite <- Heo1. apply Hdom.
  - cbn. congruence.
  - cbn. rewrite length_map. congruence.
Qed.
