(* ===== verification/AclThm.v ===== *)
(** * Access control on the list in memory

    The operations of [AccessControl] with the delegate that keeps the list in memory: what
    they do to the entries of a fabric. *)

From S2P Require Import Prelude.
From S2P Require Import COutcome.
From S2P Require Import ChipError.
From S2P Require Import AccessTypes.
From S2P Require Import AccessControl.
From S2P Require Import AccessSpec.
From S2P Require Import AclStorage.
From S2P Require Import AclInv.
From S2P Require Import AclShow.
From S2P Require Import AclOps.
From S2P Require Import AclDelete.

(** All storage of the list is in use. *)
Definition full (s : acs) : bool := forallb mInUse (acl s).

Lemma full_spec s : if full s then FindUnusedInAcl s = None else FindUnusedInAcl s ≠ None.
Proof.
  unfold full, FindUnusedInAcl. induction (acl s) as [|e l IH]; cbn; [done|]. destruct (mInUse e); cbn; [|done].
  destruct (forallb mInUse l); [by rewrite IH|]. by destruct (first_index _ l).
Qed.

(** Which objects of the class [Entry] there are. *)
Definition same_objects (s s' : acs) : Prop := ∀ en, is_Some (entry_objs s' !! en) ↔ is_Some (entry_objs s !! en).

Lemma same_objects_trans s1 s2 s3 : same_objects s1 s2 → same_objects s2 s3 → same_objects s1 s3.
Proof. intros H1 H2 en. by rewrite (H2 en), (H1 en). Qed.

Lemma same_objects_insert en v s s' : entry_objs s' = <[en := v]> (entry_objs s) → is_Some (entry_objs s !! en) → same_objects s s'.
Proof.
  intros E Hs en'. rewrite E. destruct (decide (en' = en)) as [->|]; [|by rewrite lookup_insert_ne]. rewrite lookup_insert_eq. split; [done|by eexists].
Qed.

Section Config.
Context (kEntriesPerFabric : Z).
Notation CreateEntry := (CreateEntry (H := acl_delegate kEntriesPerFabric)).
Notation ReadEntry := (ReadEntry (H := acl_delegate kEntriesPerFabric)).
Notation UpdateEntry := (UpdateEntry (H := acl_delegate kEntriesPerFabric)).
Notation DeleteEntry := (DeleteEntry (H := acl_delegate kEntriesPerFabric)).
Notation DeleteAllEntriesForFabric := (DeleteAllEntriesForFabric (H := acl_delegate kEntriesPerFabric)).

(** A valid entry is stored when there is room. *)
Lemma create_entry_room sd fabric en p e ac s :
  good s → ac_initialized ac = true → entry_ptr en s = Some p → storage_at p s = Some e → entry_ok (view e) = true → full s = false →
  Z.of_nat (length (entries_in fabric (acl s))) < kEntriesPerFabric →
  let index := Z.of_nat (length (entries_in (mFabricIndex e) (acl s))) in
  ∃ s', CreateEntry sd fabric en ac s =
    Returns (CHIP_NO_ERROR, Some index, NotifyEntryChanged sd (mFabricIndex e) index (Some en) kAdded ac, s') ∧
    good s' ∧ (∀ f, entries_in f (acl s') = entries_in f (acl s) ++ (if mFabricIndex e =? f then [view e] else [])) ∧
    s' = with_acl (acl s') s.
Proof.
  intros Hg Hi Hp He Hok Hroom Hmax index. unfold AccessControl.CreateEntry. rewrite Hi.
  cbn [negb d_GetEntryCount d_GetMaxEntriesPerFabric d_CreateEntry acl_delegate].
  unfold acl_GetEntryCount, acl_GetMaxEntriesPerFabric. rewrite !bool_decide_true by done. cbn [negb].
  rewrite count_fabric_spec, in_fabric_entries, (proj2 (Z.ltb_ge _ _)) by lia.
  rewrite (IsValid_spec en (view e) s) by (by eapply ptr_shows). cbn [obind]. rewrite Hok. cbn [negb].
  pose proof (ptr_in_use en p e s (proj1 (proj2 Hg)) Hp He) as Hu. pose proof (full_spec s) as Hf. rewrite Hroom in Hf.
  destruct (acl_CreateEntry_ok en p e fabric s Hg Hp He Hu Hok) as [_ Hstore]. destruct (Hstore Hf) as (s'&->&Hg'&Hent&Es&_).
  exists s'. by split_and!.
Qed.

(** C30: Creating an entry on the list in memory: only with room for it, in the fabric and in
    the list, and only a valid entry; it is then the last one of its fabric, at the index that
    is returned, the other fabrics are as before, and the listeners are told. The limit is that
    of the fabric passed in, the place that of the fabric of the entry. *)
Theorem create_entry_refines sd fabric en p e ac s :
  good s → ac_initialized ac = true → entry_ptr en s = Some p → storage_at p s = Some e →
  ∃ s', CreateEntry sd fabric en ac s = Returns
    (if kEntriesPerFabric <? Z.of_nat (length (entries_in fabric (acl s))) + 1 then (CHIP_ERROR_BUFFER_TOO_SMALL, None, ac, s)
     else if negb (entry_ok (view e)) then (CHIP_ERROR_INVALID_ARGUMENT, None, ac, s)
     else if full s then (CHIP_ERROR_BUFFER_TOO_SMALL, None, ac, s)
     else let index := Z.of_nat (length (entries_in (mFabricIndex e) (acl s))) in
       (CHIP_NO_ERROR, Some index, NotifyEntryChanged sd (mFabricIndex e) index (Some en) kAdded ac, s')) ∧
    (Z.of_nat (length (entries_in fabric (acl s))) < kEntriesPerFabric → entry_ok (view e) = true → full s = false →
     good s' ∧ ∀ f, entries_in f (acl s') = entries_in f (acl s) ++ (if mFabricIndex e =? f then [view e] else [])).
Proof.
  intros Hg Hi Hp He. destruct (Z.ltb_spec kEntriesPerFabric (Z.of_nat (length (entries_in fabric (acl s))) + 1)) as [Hmax|Hmax];
    [|destruct (entry_ok (view e)) eqn:Hok; [destruct (full s) eqn:Hf|]]; cbn [negb].
  3:{ destruct (create_entry_room sd fabric en p e ac s) as (s'&->&Hg'&Hent&_); [done..|lia|]. by exists s'. }
  all: exists s; split; [|done || lia].
  all: unfold AccessControl.CreateEntry; rewrite Hi; cbn [negb d_GetEntryCount d_GetMaxEntriesPerFabric d_CreateEntry acl_delegate];
    unfold acl_GetEntryCount, acl_GetMaxEntriesPerFabric; rewrite !bool_decide_true by done; cbn [negb];
    rewrite count_fabric_spec, in_fabric_entries.
  1: by rewrite (proj2 (Z.ltb_lt _ _)) by lia.
  all: rewrite (proj2 (Z.ltb_ge _ _)) by lia; rewrite (IsValid_spec en (view e) s) by (by eapply ptr_shows); cbn [obind]; rewrite Hok; try done.
  pose proof (full_spec s) as Hnone. rewrite Hf in Hnone. pose proof (ptr_in_use en p e s (proj1 (proj2 Hg)) Hp He) as Hu.
  by rewrite (proj1 (acl_CreateEntry_ok en p e fabric s Hg Hp He Hu Hok)).
Qed.

(** Updating an entry replaces it in place, if the new entry is valid and the index one of
    the fabric; other fabrics than those of the two entries are as before. *)
Theorem update_entry_refines sd fabric index en p e ac s :
  good s → ac_initialized ac = true → entry_ptr en s = Some p → storage_at p s = Some e → 0 <= index →
  ∃ s', UpdateEntry sd fabric index en ac s = Returns
    (if negb (entry_ok (view e)) then (CHIP_ERROR_INVALID_ARGUMENT, ac, s)
     else if Z.of_nat (length (entries_in fabric (acl s))) <=? index then (CHIP_ERROR_SENTINEL, ac, s)
     else (CHIP_NO_ERROR, NotifyEntryChanged sd fabric index (Some en) kUpdated ac, s')) ∧
    (entry_ok (view e) = true → index < Z.of_nat (length (entries_in fabric (acl s))) →
     good s' ∧ (mFabricIndex e = fabric → entries_in fabric (acl s') = <[Z.to_nat index := view e]> (entries_in fabric (acl s))) ∧
     ∀ f, f ≠ fabric → f ≠ mFabricIndex e → entries_in f (acl s') = entries_in f (acl s)).
Proof.
  intros Hg Hi Hp He Hidx. unfold AccessControl.UpdateEntry. rewrite Hi. cbn [negb d_UpdateEntry acl_delegate].
  rewrite (IsValid_spec en (view e) s) by (by eapply ptr_shows). cbn [obind].
  pose proof (ptr_in_use en p e s (proj1 (proj2 Hg)) Hp He) as Hu.
  destruct (entry_ok (view e)) eqn:Hok; cbn [negb]; [|by exists s].
  destruct (acl_UpdateEntry_ok en p e fabric index s Hg Hp He Hu Hok Hidx) as [Hnone Hsome].
  destruct (Z.leb_spec (Z.of_nat (length (entries_in fabric (acl s)))) index) as [Hle|Hlt].
  - rewrite Hnone by done. exists s. split; [done|]. lia.
  - destruct (Hsome Hlt) as (s'&->&Hg'&_&_&H1&H2). exists s'. by split.
Qed.

(** ** Reading and deleting *)

Lemma read_entry_ok fabric index en old s :
  good s → entry_objs s !! en = Some old → 0 <= index →
  ∃ err s', acl_ReadEntry index en (Some fabric) s = Returns (err, s') ∧ good s' ∧ same_rest s s' ∧ same_objects s s' ∧
    match entries_in fabric (acl s) !! Z.to_nat index, delegate_Find old s with
    | Some e, Some _ => err = CHIP_NO_ERROR ∧ shows (H := acl_delegate kEntriesPerFabric) en e s'
    | None, _ => err = CHIP_ERROR_SENTINEL ∧ s' = s
    | Some _, None => err = CHIP_ERROR_BUFFER_TOO_SMALL ∧ s' = s
    end.
Proof.
  intros (Hl&Hob&Hit) Ho Hidx. unfold acl_ReadEntry. destruct (FindUsedInAcl index (Some fabric) s) as [i|] eqn:Ef.
  2:{ apply FindUsedInAcl_None in Ef; [|done]. rewrite lookup_ge_None_2 by lia. eexists _, s. by split_and!. }
  apply FindUsedInAcl_Some in Ef as (a&x&b&Ea&Ha&Hx&Hf&->&Ei); [|done]. rewrite Ho.
  assert (Hlk : entries_in fabric (acl s) !! Z.to_nat index = Some (view x)).
  { rewrite Ea in Hl. destruct (list_ok_replace a x b x Hl Hx Hx) as [_ Hent]; [by apply (list_ok_split a x b)|].
    rewrite Ea, Hent, Hf, Z.eqb_refl, Ei. rewrite <- (used_all a Ha), in_fabric_entries, (used_all a Ha), Nat2Z.id. cbn [app]. by apply list_lookup_middle. }
  rewrite Hlk. destruct (delegate_Find old s) as [k|] eqn:Ek; [|eexists _, s; by split_and!].
  destruct (delegate_Init_ok en old k (PAcl (length a)) s) as (s'&->&Hob'&Hrest&Heo&Hptr); [done|done|done| |].
  { eapply show_acl; [|exact Hx]. by rewrite Ea, list_lookup_middle. }
  cbn [obind]. eexists _, s'. split; [done|]. destruct Hrest as (Ha'&Hip&Hio&Hls&Hld). split; [|split; [by split_and!|split]].
  - split; [by rewrite Ha'|]. split; [done|]. destruct Hit as [H1 H2]. split; by rewrite ?Hio, ?Hip.
  - eapply same_objects_insert; [done|]. by eexists.
  - split; [done|]. eapply ptr_shows; [done|]. cbn. by rewrite Ha', Ea, list_lookup_middle.
Qed.

Lemma entry_construct_good en s : good s → entry_objs s !! en = None → good (entry_construct en s).
Proof. intros (Hl&Hob&Hit) Ho. split; [done|]. split; [by apply entry_construct_ok|done]. Qed.

Lemma entry_destroy_good en s :
  good s → is_Some (entry_objs s !! en) →
  ∃ s', entry_destroy en s = Returns s' ∧ good s' ∧ same_rest s s' ∧ entry_objs s' = delete en (entry_objs s).
Proof.
  intros (Hl&Hob&Hit) [old Ho]. destruct (entry_destroy_ok en old s Hob Ho) as (s'&->&Hob'&Hrest&Heo&_). exists s'. split; [done|].
  destruct Hrest as (Ha&Hip&Hio&Hls&Hld). split; [|split; [by split_and!|done]].
  split; [by rewrite Ha|]. split; [done|]. destruct Hit as [H1 H2]. split; by rewrite ?Hio, ?Hip.
Qed.

(** The entry for the listeners is read first; that of no index is not found. *)
Lemma delete_entry_ok sd fabric index en ac s :
  good s → ac_initialized ac = true → entry_objs s !! en = None → 0 <= index →
  ∃ q s', DeleteEntry sd fabric index en ac s = Returns
    (if Z.of_nat (length (entries_in fabric (acl s))) <=? index then (CHIP_ERROR_SENTINEL, ac, s')
     else (CHIP_NO_ERROR, NotifyEntryChanged sd fabric index q kRemoved ac, s')) ∧
    good s' ∧ (∀ f, entries_in f (acl s') = if f =? fabric then delete (Z.to_nat index) (entries_in f (acl s)) else entries_in f (acl s)) ∧
    (q = None ∨ q = Some en) ∧ same_objects s s' ∧ iterator_objs s' = iterator_objs s.
Proof.
  intros Hg Hi Hen Hidx. unfold AccessControl.DeleteEntry. rewrite Hi. cbn [negb en_construct d_DeleteEntry en_destroy acl_delegate].
  set (s0 := entry_construct en s). assert (Hg0 : good s0) by (by apply entry_construct_good).
  assert (Ho0 : entry_objs s0 !! en = Some None) by apply lookup_insert_eq.
  assert (∃ q s1, (if bool_decide (ac_listeners ac = []) then Returns (None, s0)
    else let+ (err, s1) := ReadEntry fabric index en ac s0 in Returns (if bool_decide (err = CHIP_NO_ERROR) then Some en else None, s1)) = Returns (q, s1) ∧
    good s1 ∧ acl s1 = acl s ∧ same_objects s0 s1 ∧ iterator_objs s1 = iterator_objs s ∧ (q = None ∨ q = Some en)) as (q&s1&->&Hg1&Ha1&Hob1&Hio1&Hq).
  { case_bool_decide; [eexists _, s0; split_and!; auto; done|]. unfold AccessControl.ReadEntry. rewrite Hi. cbn [negb d_ReadEntry acl_delegate].
    destruct (read_entry_ok fabric index en None s0 Hg0 Ho0 Hidx) as (err&s1&->&Hg1&(Ha&_&Hio&_)&Hob&_). cbn [obind].
    eexists _, s1. split_and!; try done. case_bool_decide; auto. }
  cbn [obind]. destruct (acl_DeleteEntry_ok index fabric s1 Hg1 Hidx) as [Hnone Hsome]. rewrite Ha1 in Hnone, Hsome.
  assert (Hend : ∀ s2, good s2 → same_objects s1 s2 → iterator_objs s2 = iterator_objs s →
    ∃ s', entry_destroy en s2 = Returns s' ∧ good s' ∧ acl s' = acl s2 ∧ same_objects s s' ∧ iterator_objs s' = iterator_objs s).
  { intros s2 Hg2 Hob2 Hio2. destruct (entry_destroy_good en s2 Hg2) as (s'&->&Hg'&(Ha&_&Hio&_)&Heo); [apply Hob2, Hob1; by rewrite Ho0|].
    exists s'. split_and!; [done|done|done| |congruence]. intros en'. rewrite Heo. destruct (decide (en' = en)) as [->|Hn].
    - rewrite lookup_delete_eq, Hen. done.
    - rewrite lookup_delete_ne by done. rewrite (Hob2 en'), (Hob1 en'). unfold s0. cbn. by rewrite lookup_insert_ne. }
  destruct (Z.leb_spec (Z.of_nat (length (entries_in fabric (acl s)))) index) as [Hle|Hlt].
  - rewrite Hnone by done. cbn [obind]. rewrite bool_decide_false by done. cbn [negb].
    destruct (Hend s1 Hg1 (λ _, iff_refl _) Hio1) as (s'&->&Hg'&Ha'&Hob'&Hio'). cbn [obind]. exists None, s'. split_and!; try done; [|by left].
    intros f. rewrite Ha', Ha1. destruct (Z.eqb_spec f fabric) as [->|]; [|done]. symmetry.
    rewrite delete_take_drop, take_ge, drop_ge, app_nil_r by lia. done.
  - destruct (Hsome Hlt) as (s2&->&Hg2&_&Hdel&Hkeep&Hob2&Hio2&_). cbn [obind]. rewrite bool_decide_true by done. cbn [negb].
    destruct (Hend s2 Hg2 Hob2) as (s'&->&Hg'&Ha'&Hob'&Hio'); [congruence|]. cbn [obind]. eexists _, s'. split; [done|]. split_and!; try done.
    + intros f. rewrite Ha'. destruct (Z.eqb_spec f fabric) as [->|]; [done|by apply Hkeep].
    + destruct (en_HasDefaultDelegate en s2); [by left|done].
Qed.

(** ** Deleting all entries of a fabric *)

(** The loop from the last index down empties the fabric. *)
Lemma delete_all_ok fabric en n : ∀ ac s,
  good s → ac_initialized ac = true → entry_objs s !! en = None → length (entries_in fabric (acl s)) = n →
  ∃ ac' s', delete_all (H := acl_delegate kEntriesPerFabric) n fabric en CHIP_NO_ERROR ac s = Returns (CHIP_NO_ERROR, ac', s') ∧
    good s' ∧ (∀ f, entries_in f (acl s') = if f =? fabric then [] else entries_in f (acl s)) ∧
    ac_initialized ac' = true ∧ same_objects s s' ∧ iterator_objs s' = iterator_objs s.
Proof.
  induction n as [|n IH]; intros ac s Hg Hi Hen Hlen; cbn [delete_all].
  - exists ac, s. split_and!; try done. intros f. destruct (Z.eqb_spec f fabric) as [->|]; [by apply nil_length_inv|done].
  - destruct (delete_entry_ok None fabric (Z.of_nat n) en ac s Hg Hi Hen) as (q&s1&->&Hg1&Hent&_&Hob&Hio); [lia|].
    rewrite (proj2 (Z.leb_gt _ _)) by lia. cbn [obind]. rewrite decide_True by done.
    destruct (IH (NotifyEntryChanged None fabric (Z.of_nat n) q kRemoved ac) s1 Hg1 Hi) as (ac'&s'&->&Hg'&Hent'&Hi'&Hob'&Hio').
    + destruct (entry_objs s1 !! en) eqn:E; [|done]. exfalso. specialize (Hob en). rewrite E, Hen in Hob. by apply (is_Some_None (A := option nat)), Hob.
    + rewrite Hent, Z.eqb_refl, delete_take_drop, Nat2Z.id, drop_ge, app_nil_r, length_take by lia. lia.
    + exists ac', s'. split_and!; try done; [|by eapply same_objects_trans|congruence].
      intros f. rewrite Hent', Hent. by destruct (f =? fabric).
Qed.

(** C31: Deleting the entries of a fabric succeeds, and leaves none of it and all of the other
    fabrics. *)
Theorem delete_all_refines fabric en ac s :
  good s → ac_initialized ac = true → entry_objs s !! en = None →
  ∃ ac' s', DeleteAllEntriesForFabric fabric en ac s = Returns (CHIP_NO_ERROR, ac', s') ∧ good s' ∧
    ∀ f, entries_in f (acl s') = if f =? fabric then [] else entries_in f (acl s).
Proof.
  intros Hg Hi Hen. unfold AccessControl.DeleteAllEntriesForFabric. rewrite Hi. cbn [negb d_GetEntryCount acl_delegate].
  unfold acl_GetEntryCount. rewrite count_fabric_spec, in_fabric_entries, Nat2Z.id.
  destruct (delete_all_ok fabric en _ ac s Hg Hi Hen eq_refl) as (ac'&s'&->&Hg'&Hent&_). by exists ac', s'.
Qed.

(** An entry that was created is deleted again by the index that was returned: every
    fabric then has the entries that it had. *)
Theorem create_delete_roundtrip sd sd' en tmp p e ac s :
  good s → ac_initialized ac = true → entry_ptr en s = Some p → storage_at p s = Some e → entry_ok (view e) = true → full s = false →
  Z.of_nat (length (entries_in (mFabricIndex e) (acl s))) < kEntriesPerFabric → entry_objs s !! tmp = None →
  ∃ index ac1 s1 ac2 s2, CreateEntry sd (mFabricIndex e) en ac s = Returns (CHIP_NO_ERROR, Some index, ac1, s1) ∧
    DeleteEntry sd' (mFabricIndex e) index tmp ac1 s1 = Returns (CHIP_NO_ERROR, ac2, s2) ∧
    good s2 ∧ ∀ f, entries_in f (acl s2) = entries_in f (acl s).
Proof.
  intros Hg Hi Hp He Hok Hf Hmax Htmp.
  destruct (create_entry_room sd _ en p e ac s Hg Hi Hp He Hok Hf Hmax) as (s1&Hc&Hg1&Hent1&Es1).
  set (index := Z.of_nat (length (entries_in (mFabricIndex e) (acl s)))) in *.
  set (ac1 := NotifyEntryChanged sd (mFabricIndex e) index (Some en) kAdded ac) in *.
  destruct (delete_entry_ok sd' (mFabricIndex e) index tmp ac1 s1) as (q&s2&Hd&Hg2&Hent2&_); [done|done|by rewrite Es1|lia|].
  rewrite Hent1, Z.eqb_refl, length_app, (proj2 (Z.leb_gt _ _)) in Hd by (cbn; lia).
  eexists index, ac1, s1, _, s2. split; [exact Hc|]. split; [exact Hd|]. split; [done|]. intros f. rewrite Hent2.
  destruct (Z.eqb_spec f (mFabricIndex e)) as [->|Hne].
  - rewrite Hent1, Z.eqb_refl. unfold index. rewrite Nat2Z.id, delete_middle. apply app_nil_r.
  - rewrite Hent1. destruct (Z.eqb_spec (mFabricIndex e) f); [congruence|apply app_nil_r].
Qed.

End Config.
