(* ===== verification/AclReach.v ===== *)
(** * Access control: runs

    The states that the operations of access control reach on the list in memory, from the
    cleared list on: every operation on objects that exist returns, and the check of a request
    decides as the entries stored say if the pools have free objects for it. Also what deleting an entry does to other objects. *)

From S2P Require Import Prelude.
From S2P Require Import COutcome.
From S2P Require Import ChipError.
From S2P Require Import AccessTypes.
From S2P Require Import AccessControl.
From S2P Require Import AccessSpec.
From S2P Require Import AclStorage.
From S2P Require Import AclInv.
From S2P Require Import AclShow.
From S2P Require Import AclOps.
From S2P Require Import AclDelete.
From S2P Require Import AclThm.

(** ** Operations *)

Inductive setter :=
  | SAuthMode (v : AuthMode) | SFabricIndex (v : Z) | SPrivilege (v : Privilege)
  | SSubject (i v : Z) | SAddSubject (v : Z) | SRemoveSubject (i : Z)
  | STarget (i : Z) (t : Target) | SAddTarget (t : Target) | SRemoveTarget (i : Z).

Definition run_setter (c : setter) : Z → acs → outcome (chip_error * acs) :=
  match c with
  | SAuthMode v => SetAuthMode v | SFabricIndex v => SetFabricIndex v | SPrivilege v => SetPrivilege v
  | SSubject i v => SetSubject i v | SAddSubject v => AddSubject v | SRemoveSubject i => RemoveSubject i
  | STarget i t => SetTarget i t | SAddTarget t => AddTarget t | SRemoveTarget i => RemoveTarget i
  end.

Inductive acl_op :=
  | OConstruct (en : Z) | ODestroy (en : Z) | OPrepare (en : Z) | OSet (c : setter) (en : Z)
  | ORead (fabric index en : Z)
  | OCreate (sd : option SubjectDescriptor) (fabric en : Z)
  | OUpdate (sd : option SubjectDescriptor) (fabric index en : Z)
  | ODelete (sd : option SubjectDescriptor) (fabric index tmp : Z)
  | ODeleteAll (fabric tmp : Z)
  | OIterator (it : Z) | OIteratorDone (it : Z) | OEntries (it : Z) (fabric : option Z) | ONext (it en : Z)
  | OListen (listener : Z) | OUnlisten (listener : Z).

(** The objects that an operation is called on exist, those that it makes do not, and indices
    are not negative. *)
Definition live (op : acl_op) (s : acs) : Prop :=
  match op with
  | OConstruct en => entry_objs s !! en = None
  | ODestroy en | OPrepare en | OSet _ en | OCreate _ _ en => is_Some (entry_objs s !! en)
  | ORead _ index en | OUpdate _ _ index en => is_Some (entry_objs s !! en) ∧ 0 <= index
  | ODelete _ _ index tmp => entry_objs s !! tmp = None ∧ 0 <= index
  | ODeleteAll _ tmp => entry_objs s !! tmp = None
  | OIterator it => iterator_objs s !! it = None
  | OIteratorDone it | OEntries it _ => is_Some (iterator_objs s !! it)
  | ONext it en => is_Some (iterator_objs s !! it) ∧ is_Some (entry_objs s !! en)
  | OListen _ | OUnlisten _ => True
  end.

Section Config.
Context (kEntriesPerFabric : Z).

Definition exec (op : acl_op) (st : AccessControl * acs) : outcome (AccessControl * acs) :=
  let '(ac, s) := st in
  match op with
  | OConstruct en => Returns (ac, entry_construct en s)
  | ODestroy en => let+ s := entry_destroy en s in Returns (ac, s)
  | OPrepare en => let+ (_, s) := acl_PrepareEntry en s in Returns (ac, s)
  | OSet c en => let+ (_, s) := run_setter c en s in Returns (ac, s)
  | ORead fabric index en => let+ (_, s) := ReadEntry (H := acl_delegate kEntriesPerFabric) fabric index en ac s in Returns (ac, s)
  | OCreate sd fabric en => let+ (_, _, ac, s) := CreateEntry (H := acl_delegate kEntriesPerFabric) sd fabric en ac s in Returns (ac, s)
  | OUpdate sd fabric index en => let+ (_, ac, s) := UpdateEntry (H := acl_delegate kEntriesPerFabric) sd fabric index en ac s in Returns (ac, s)
  | ODelete sd fabric index tmp => let+ (_, ac, s) := DeleteEntry (H := acl_delegate kEntriesPerFabric) sd fabric index tmp ac s in Returns (ac, s)
  | ODeleteAll fabric tmp => let+ (_, ac, s) := DeleteAllEntriesForFabric (H := acl_delegate kEntriesPerFabric) fabric tmp ac s in Returns (ac, s)
  | OIterator it => Returns (ac, iterator_construct it s)
  | OIteratorDone it => let+ s := iterator_destroy it s in Returns (ac, s)
  | OEntries it fabric => let+ (_, s) := acl_Entries it fabric s in Returns (ac, s)
  | ONext it en => let+ (_, s) := iterator_Next it en s in Returns (ac, s)
  | OListen listener => Returns (AddEntryListener listener ac, s)
  | OUnlisten listener => Returns (RemoveEntryListener listener ac, s)
  end.

Inductive reach (st0 : AccessControl * acs) : AccessControl * acs → Prop :=
  | reach_start : reach st0 st0
  | reach_step op ac s st' : reach st0 (ac, s) → live op s → exec op (ac, s) = Returns st' → reach st0 st'.

(** ** Every operation keeps the invariant *)

Definition inv (st : AccessControl * acs) : Prop := ac_initialized (fst st) = true ∧ good (snd st).

Lemma good_rest s s' : good s → objs_ok s' → same_rest s s' → good s'.
Proof.
  intros (Hl&_&[H1 H2]) Hob (Ha&Hip&Hio&_). split; [by rewrite Ha|]. split; [done|]. split; by rewrite ?Hio, ?Hip.
Qed.

Lemma setter_in_use c en s i :
  objs_ok s → entry_objs s !! en = Some (Some i) → ∃ err s', run_setter c en s = Returns (err, s') ∧ objs_ok s' ∧ same_rest s s'.
Proof.
  intros Hob Ho. destruct (owned_ptr en i s Hob Ho) as (p&e&Hp&He&Hu).
  assert (∃ f, run_setter c = entry_set f ∧ mInUse (snd (f e)) = mInUse e) as (f&->&Hf).
  { destruct c; eexists; (split; [reflexivity|]); cbn;
      repeat case_match; simplify_eq/=; done. }
  destruct (entry_set_ok f en i p e s) as (err&s'&->&Hob'&Hrest&_); [done..|congruence|]. by exists err, s'.
Qed.

Lemma set_keeps c en ac s : inv (ac, s) → is_Some (entry_objs s !! en) → ∃ st', exec (OSet c en) (ac, s) = Returns st' ∧ inv st'.
Proof.
  intros [Hi Hg] [[i|] Ho]; cbn [exec].
  - destruct (setter_in_use c en s i) as (err&s'&->&Hob&Hrest); [apply Hg|done|]. exists (ac, s'). split; [done|]. split; [done|]. by eapply good_rest.
  - assert (run_setter c en s = Returns (CHIP_ERROR_NOT_IMPLEMENTED, s)) as ->.
    { destruct c; cbn; unfold SetAuthMode, SetFabricIndex, SetPrivilege, SetSubject, AddSubject, RemoveSubject, SetTarget, AddTarget, RemoveTarget, entry_set; by rewrite Ho. }
    by exists (ac, s).
Qed.

(** An entry with the default delegate is not valid. *)
Lemma default_invalid en s : entry_objs s !! en = Some None → IsValid (H := acl_delegate kEntriesPerFabric) en s = Returns false.
Proof. intros Ho. unfold IsValid. cbn. unfold GetAuthMode, entry_get. by rewrite Ho. Qed.

Lemma IsValid_returns en s :
  objs_ok s → is_Some (entry_objs s !! en) →
  ∃ b, IsValid (H := acl_delegate kEntriesPerFabric) en s = Returns b ∧
    (b = true → ∃ p e, entry_ptr en s = Some p ∧ storage_at p s = Some e ∧ mInUse e = true ∧ entry_ok (view e) = true).
Proof.
  intros Hob [[i|] Ho]; [|exists false; split; [by apply default_invalid|done]].
  destruct (owned_ptr en i s Hob Ho) as (p&e&Hp&He&Hu). exists (entry_ok (view e)).
  split; [apply IsValid_spec; by eapply ptr_shows|]. intros Hok. by exists p, e.
Qed.

Lemma create_keeps sd fabric en ac s :
  inv (ac, s) → is_Some (entry_objs s !! en) → ∃ st', exec (OCreate sd fabric en) (ac, s) = Returns st' ∧ inv st'.
Proof.
  intros [Hi Hg] Ho. cbn in Hi, Hg. cbn [exec]. unfold CreateEntry. rewrite Hi. cbn [negb d_GetEntryCount d_GetMaxEntriesPerFabric d_CreateEntry acl_delegate].
  unfold acl_GetEntryCount, acl_GetMaxEntriesPerFabric. rewrite !bool_decide_true by done. cbn [negb]. destruct (_ <? _); [by exists (ac, s)|].
  destruct (IsValid_returns en s) as (b&->&Hb); [apply Hg|done|]. cbn [obind]. destruct b; cbn [negb]; [|by exists (ac, s)].
  destruct (Hb eq_refl) as (p&e&Hp&He&Hu&Hok). destruct (acl_CreateEntry_ok en p e fabric s Hg Hp He Hu Hok) as [Hnone Hsome].
  destruct (FindUnusedInAcl s); [|rewrite Hnone by done; by exists (ac, s)].
  destruct Hsome as (s'&->&Hg'&_); [done|]. cbn [obind]. rewrite bool_decide_true by done. by eexists (_, s').
Qed.

Lemma update_keeps sd fabric index en ac s :
  inv (ac, s) → is_Some (entry_objs s !! en) → 0 <= index → ∃ st', exec (OUpdate sd fabric index en) (ac, s) = Returns st' ∧ inv st'.
Proof.
  intros [Hi Hg] Ho Hidx. cbn in Hi, Hg. cbn [exec]. unfold UpdateEntry. rewrite Hi. cbn [negb d_UpdateEntry acl_delegate].
  destruct (IsValid_returns en s) as (b&->&Hb); [apply Hg|done|]. cbn [obind]. destruct b; cbn [negb]; [|by exists (ac, s)].
  destruct (Hb eq_refl) as (p&e&Hp&He&Hu&Hok). destruct (acl_UpdateEntry_ok en p e fabric index s Hg Hp He Hu Hok Hidx) as [Hnone Hsome].
  destruct (Z.le_gt_cases (Z.of_nat (length (entries_in fabric (acl s)))) index) as [Hle|Hlt].
  - rewrite Hnone by done. by exists (ac, s).
  - destruct Hsome as (s'&->&Hg'&_); [lia|]. cbn [obind]. rewrite bool_decide_true by done. by eexists (_, s').
Qed.

Lemma iterator_destroy_default it s :
  iters_ok s → iterator_objs s !! it = Some None → iters_ok (with_iterator_objs (delete it (iterator_objs s)) s).
Proof.
  intros [H1 H2] _. split; cbn.
  - intros it' i Ho. apply lookup_delete_Some in Ho as [_ Ho]. by eapply H1.
  - intros it1 it2 i Ho1 Ho2. apply lookup_delete_Some in Ho1 as [_ Ho1]. apply lookup_delete_Some in Ho2 as [_ Ho2]. by eapply H2.
Qed.

Lemma iterator_keeps op ac s :
  inv (ac, s) → live op s → match op with OIterator _ | OIteratorDone _ | OEntries _ _ | ONext _ _ => True | _ => False end →
  ∃ st', exec op (ac, s) = Returns st' ∧ inv st'.
Proof.
  intros [Hi (Hl&Hob&Hit)] Hlive Hop. destruct op as [| | | | | | | | |it|it|it fabric|it en| |]; try done; cbn [exec]; cbn in Hlive.
  - eexists. split; [done|]. split; [done|]. split; [done|]. split; [done|]. by apply iterator_construct_ok.
  - destruct Hlive as [[i|] Ho].
    + destruct (iterator_destroy_ok it i s Hit Ho) as (s'&->&Hit'&Es&_). exists (ac, s'). split; [done|]. rewrite Es in Hit' |- *. by split.
    + unfold iterator_destroy. rewrite Ho. cbn [obind]. eexists. split; [done|]. split; [done|]. split; [done|]. split; [done|]. by apply iterator_destroy_default.
  - destruct Hlive as [old Ho]. destruct (iterator_Find old s) as [i|] eqn:Ef.
    + destruct (acl_Entries_ok it old i fabric s Hit Ho Ef) as (d&s'&->&Hit'&Es&_). exists (ac, s'). split; [done|]. rewrite Es in Hit' |- *. by split.
    + unfold acl_Entries. rewrite Ho, Ef. by exists (ac, s).
  - destruct Hlive as [[[i|] Hoi] [old Hoe]].
    + destruct (proj1 Hit it i Hoi) as (d&Hd&_). destruct (iterator_Next_ok it en i d old s) as (err&s'&->&Hob'&Hit'&Ha&_); [done..|].
      exists (ac, s'). split; [done|]. split; [done|]. split; [cbn; by rewrite Ha|done].
    + unfold iterator_Next. rewrite Hoi. by exists (ac, s).
Qed.

Lemma exec_keeps op ac s : inv (ac, s) → live op s → ∃ st', exec op (ac, s) = Returns st' ∧ inv st'.
Proof.
  intros Hinv Hlive. pose proof Hinv as [Hi Hg]. cbn in Hi, Hg.
  destruct op as [en|en|en|c en|f i en|sd f en|sd f i en|sd f i tmp|f tmp|it|it|it fb|it en|l|l]; cbn in Hlive;
    try (by apply iterator_keeps); cbn [exec].
  - eexists. split; [done|]. split; [done|]. by apply entry_construct_good.
  - destruct (entry_destroy_good en s Hg Hlive) as (s'&->&Hg'&_). by exists (ac, s').
  - destruct Hlive as [old Ho]. destruct (acl_PrepareEntry_ok en old s) as (err&s'&->&Hob&Hrest&_); [apply Hg|done|].
    exists (ac, s'). split; [done|]. split; [done|]. by eapply good_rest.
  - by apply set_keeps.
  - destruct Hlive as [[old Ho] Hidx]. unfold ReadEntry. rewrite Hi. cbn [negb d_ReadEntry acl_delegate].
    destruct (read_entry_ok kEntriesPerFabric f i en old s Hg Ho Hidx) as (err&s'&->&Hg'&_). by exists (ac, s').
  - by apply create_keeps.
  - destruct Hlive. by apply update_keeps.
  - destruct Hlive as [Ho Hidx]. destruct (delete_entry_ok kEntriesPerFabric sd f i tmp ac s Hg Hi Ho Hidx) as (q&s'&->&Hg'&_).
    destruct (_ <=? _); by eexists (_, s').
  - unfold DeleteAllEntriesForFabric. rewrite Hi. cbn [negb d_GetEntryCount acl_delegate]. unfold acl_GetEntryCount.
    rewrite count_fabric_spec, in_fabric_entries, Nat2Z.id.
    destruct (delete_all_ok kEntriesPerFabric f tmp _ ac s Hg Hi Hlive eq_refl) as (ac'&s'&->&Hg'&_&Hi'&_). by exists (ac', s').
  - eexists. split; [done|]. split; [|done]. cbn. unfold AddEntryListener. by case_bool_decide.
  - by eexists.
Qed.

(** ** The start *)

(** The arrays as the program has them at its start: [n] entries with [ns] subjects and [nt]
    targets each, and the pools. *)
Definition empty_storage (ns nt : nat) : EntryStorage :=
  mkES false kUndefinedFabricIndex kPase kView (replicate ns kUndefinedNodeId) (replicate nt target_Clear).

Definition acl_start (n ns nt storages delegates iterators : nat) : acs :=
  mkAcs (replicate n (empty_storage ns nt)) (replicate storages (empty_storage ns nt))
    (replicate delegates (mkED None None)) (replicate iterators (mkEID false false kUndefinedFabricIndex None)) ∅ ∅.

(** After [AccessControl::Init]. *)
Definition started (n ns nt storages delegates iterators : nat) : AccessControl * acs :=
  let '(_, ac, s) := AccessControl_Init (H := acl_delegate kEntriesPerFabric) true (mkAC false [] []) (acl_start n ns nt storages delegates iterators) in (ac, s).

Lemma started_inv n ns nt storages delegates iterators : inv (started n ns nt storages delegates iterators).
Proof.
  split; [done|]. unfold started. cbn.
  assert (Hfree : Forall (λ e, mInUse e = false) (map storage_Clear (replicate n (empty_storage ns nt)))) by (by apply Forall_map, Forall_replicate).
  split; [|split].
  - split; [by exists [], (map storage_Clear (replicate n (empty_storage ns nt)))|]. cbn. by rewrite used_free.
  - split_and!; cbn; [done| |].
    + intros i eo p Hi. apply lookup_replicate in Hi as [[=] _].
    + intros i j eo eo' k Hi. apply lookup_replicate in Hi as [[=] _].
  - by split.
Qed.

Lemma reach_inv st0 st : inv st0 → reach st0 st → inv st.
Proof.
  intros H0. induction 1 as [|op ac s st' _ IH Hlive He]; [done|]. destruct (exec_keeps op ac s IH Hlive) as (st2&He2&Hinv). congruence.
Qed.

Lemma inv_good ac s : inv (ac, s) → good s.
Proof. by intros [_ ?]. Qed.

Lemma inv_entries ac s f : inv (ac, s) → Forall (λ e, entry_ok e = true) (entries_in f (acl s)).
Proof.
  intros [_ ((_&Hok)&_)]. cbn in Hok. unfold entries_in. apply Forall_fmap.
  rewrite Forall_forall in Hok |- *. intros e [_ He]%list_elem_of_filter. by apply Hok.
Qed.

(** C8: Access control on the list in memory is safe: from the cleared list, whatever sequence
    of operations is called on objects that exist, each returns (no assertion fails and no
    access is outside an array), and every entry stored is valid. *)
Theorem acl_reachable_valid n ns nt storages delegates iterators ac s :
  reach (started n ns nt storages delegates iterators) (ac, s) →
  (∀ f, Forall (λ e, entry_ok e = true) (entries_in f (acl s))) ∧
  ∀ op, live op s → ∃ st', exec op (ac, s) = Returns st'.
Proof.
  intros Hr. pose proof (reach_inv _ _ (started_inv n ns nt storages delegates iterators) Hr) as Hinv. split.
  - intros f. by eapply inv_entries.
  - intros op Hlive. destruct (exec_keeps op ac s Hinv Hlive) as (st'&?&_). by exists st'.
Qed.

(** C4: In every state that is reached and whose pools have a free delegate and a free iterator, the
    check of a request decides exactly as the entries stored for the fabric of its subject say:
    it is denied unless the session is that of commissioning or one of these entries grants the
    privilege to the subject on the target, and then the restrictions decide, if the build has
    them. It returns, with fuel for one step more than the list has entries, and leaves all
    entries as they are. *)
Theorem reachable_check_exact on_endpoint restrict provider n ns nt storages delegates iterators ac s fuel sd rp pr it en :
  reach (started n ns nt storages delegates iterators) (ac, s) →
  iterator_objs s !! it = None → entry_objs s !! en = None → is_Some (delegate_Find None s) → is_Some (iterator_Find None s) →
  (length (acl s) < fuel)%nat →
  ∃ s', Check (H := acl_delegate kEntriesPerFabric) on_endpoint restrict provider fuel sd rp pr it en ac s =
    Returns (if bool_decide (sd_authMode sd = kPase) || existsb (grants on_endpoint sd rp pr) (entries_in (sd_fabricIndex sd) (acl s))
             then (if restrict then CheckARL provider sd rp else CHIP_NO_ERROR) else CHIP_ERROR_ACCESS_DENIED, s') ∧
    good s' ∧ ∀ f, entries_in f (acl s') = entries_in f (acl s).
Proof.
  intros Hr Hit Hen Hd Hi Hfuel. pose proof (reach_inv _ _ (started_inv n ns nt storages delegates iterators) Hr) as Hinv.
  destruct (check_decides (H0 := acl_laws kEntriesPerFabric) on_endpoint fuel sd rp pr it en s) as (s'&Hc&Hready&Hsame).
  - split; [apply Hinv|done].
  - by eapply inv_entries.
  - cbn. unfold entries_in. rewrite length_fmap. pose proof (length_filter (λ e, mFabricIndex e = sd_fabricIndex sd) (used (acl s))).
    destruct (tidy_used (acl s)) as (b&Eb&_); [apply Hinv|]. apply (f_equal length) in Eb. rewrite length_app in Eb. lia.
  - exists s'. cbn in Hsame, Hc. split; [|by split; [apply Hready|]]. unfold Check. destruct Hinv as [Hinit _]. cbn in Hinit. rewrite Hinit, Hc. cbn [negb obind].
    destruct (_ || _); [|by rewrite andb_false_r]. rewrite bool_decide_true, andb_true_r by done. by destruct restrict.
Qed.

End Config.

(** ** Runs of operations *)

#[export] Instance live_dec op s : Decision (live op s).
Proof. destruct op; cbn; apply _. Defined.

Definition run_op (k : Z) (op : acl_op) (st : AccessControl * acs) : option (AccessControl * acs) :=
  if decide (live op (snd st)) then match exec k op st with Returns st' => Some st' | Crashes _ => None end else None.

Definition run (k : Z) (ops : list acl_op) (st : AccessControl * acs) : option (AccessControl * acs) :=
  foldl (λ o op, o ≫= run_op k op) (Some st) ops.

Lemma run_reach k ops st0 st : run k ops st0 = Some st → reach k st0 st.
Proof.
  unfold run. revert st. induction ops as [|op ops IH] using rev_ind; intros st.
  - intros [= <-]. constructor.
  - rewrite foldl_app. cbn. destruct (foldl _ (Some st0) ops) as [[ac s]|]; cbn; [|done]. unfold run_op. cbn [snd].
    destruct (decide (live op s)) as [Hl|]; [|done]. destruct (exec k op (ac, s)) eqn:Ee; [|done]. intros [= <-].
    eapply reach_step; [by apply IH|exact Hl|exact Ee].
Qed.

(** An entry for a node, on a cluster, in a fabric; built in object 1. *)
Definition add_entry (fabric node : Z) : list acl_op :=
  [OConstruct 1; OPrepare 1; OSet (SAuthMode kCase) 1; OSet (SFabricIndex fabric) 1; OSet (SPrivilege kOperate) 1;
   OSet (SAddSubject node) 1; OSet (SAddTarget (mkTarget kCluster 6 0 0)) 1; OCreate None fabric 1; ODestroy 1].

Definition two_fabrics : list acl_op := add_entry 1 0x1111 ++ add_entry 2 0x2222.

Definition node_entry (fabric node : Z) : acl_entry := mkEntry fabric kCase kOperate [node] [mkTarget kCluster 6 0 0].

Definition start4 : AccessControl * acs := started 4 4 2 2 2 2 2.

Definition node_request (fabric node : Z) : SubjectDescriptor := mkSubject fabric kCase node [] false.

(** Deleting the entry of fabric 2 corrects the delegates and iterators by its index in the
    fabric: object 5, which shows the entry of fabric 1, loses it, and iterator 7 gives it a
    second time. The entry itself is still stored. *)
Theorem delete_corrects_wrong_entry :
  ∃ st st1 st2, run 4 (two_fabrics ++ [OConstruct 5; OIterator 7; OEntries 7 None; ONext 7 5]) start4 = Some st ∧
    shows (H := acl_delegate 4) 5 (node_entry 1 0x1111) (snd st) ∧
    exec 4 (ODelete None 2 0 9) st = Returns st1 ∧ entries_in 1 (acl (snd st1)) = [node_entry 1 0x1111] ∧
    entry_objs (snd st1) !! 5 = Some None ∧
    exec 4 (ONext 7 5) st1 = Returns st2 ∧ shows (H := acl_delegate 4) 5 (node_entry 1 0x1111) (snd st2).
Proof.
  eexists _, _, _. split; [vm_compute; reflexivity|]. split; [by split_and!; [..|intros [|[|i]] x [= <-]| |intros [|[|i]] x [= <-]]|].
  split; [vm_compute; reflexivity|]. split; [by vm_compute|]. split; [by vm_compute|]. split; [vm_compute; reflexivity|].
  by split_and!; [..|intros [|[|i]] x [= <-]| |intros [|[|i]] x [= <-]].
Qed.

(** ** Examples *)

(** Object 1 with an entry of fabric 2 that is not stored. *)
Definition prepared : AccessControl * acs :=
  default start4 (run 4 (two_fabrics ++ take 7 (add_entry 2 0x3333)) start4).

Lemma prepared_reach : reach 4 (started 4 4 2 2 2 2 2) (fst prepared, snd prepared).
Proof. rewrite <- surjective_pairing. apply (run_reach 4 (two_fabrics ++ take 7 (add_entry 2 0x3333))). by vm_compute. Qed.

Lemma prepared_good : good (snd prepared).
Proof. exact (inv_good _ _ (reach_inv 4 _ _ (started_inv 4 4 2 2 2 2 2) prepared_reach)). Qed.

Definition shown : EntryStorage := mkES true 2 kCase kOperate [0x3333; 0] [mkTS 6 kDeviceTypeEmpty; target_Clear].

Lemma create_entry_refines_witness :
  ∃ s', CreateEntry (H := acl_delegate 4) None 2 1 (fst prepared) (snd prepared) =
    Returns (CHIP_NO_ERROR, Some 1, NotifyEntryChanged None 2 1 (Some 1) kAdded (fst prepared), s') ∧
    entries_in 2 (acl s') = [node_entry 2 0x2222; node_entry 2 0x3333].
Proof.
  destruct (create_entry_refines 4 None 2 1 (PPool 0) shown (fst prepared) (snd prepared) prepared_good) as (s'&Hc&Hs);
    [by vm_compute|by vm_compute|by vm_compute|]. exists s'. split; [exact Hc|]. rewrite (proj2 (Hs ltac:(by vm_compute) eq_refl eq_refl)). by vm_compute.
Defined.

Lemma update_entry_refines_witness :
  ∃ s', UpdateEntry (H := acl_delegate 4) None 2 0 1 (fst prepared) (snd prepared) =
    Returns (CHIP_NO_ERROR, NotifyEntryChanged None 2 0 (Some 1) kUpdated (fst prepared), s') ∧
    entries_in 2 (acl s') = [node_entry 2 0x3333].
Proof.
  destruct (update_entry_refines 4 None 2 0 1 (PPool 0) shown (fst prepared) (snd prepared) prepared_good) as (s'&Hc&Hs);
    [by vm_compute|by vm_compute|by vm_compute|lia|]. exists s'. split; [exact Hc|]. rewrite (proj1 (proj2 (Hs eq_refl ltac:(by vm_compute))) eq_refl). by vm_compute.
Defined.

Lemma delete_all_refines_witness :
  ∃ ac' s', DeleteAllEntriesForFabric (H := acl_delegate 4) 1 9 (fst prepared) (snd prepared) = Returns (CHIP_NO_ERROR, ac', s') ∧
    entries_in 1 (acl s') = [] ∧ entries_in 2 (acl s') = [node_entry 2 0x2222].
Proof.
  destruct (delete_all_refines 4 1 9 (fst prepared) (snd prepared) prepared_good eq_refl eq_refl) as (ac'&s'&Hd&_&Hs).
  exists ac', s'. split; [exact Hd|]. rewrite !Hs. split; by vm_compute.
Defined.

Lemma create_delete_roundtrip_witness :
  ∃ index ac1 s1 ac2 s2, CreateEntry (H := acl_delegate 4) None 2 1 (fst prepared) (snd prepared) = Returns (CHIP_NO_ERROR, Some index, ac1, s1) ∧
    DeleteEntry (H := acl_delegate 4) None 2 index 9 ac1 s1 = Returns (CHIP_NO_ERROR, ac2, s2) ∧
    entries_in 2 (acl s2) = [node_entry 2 0x2222].
Proof.
  destruct (create_delete_roundtrip 4 None None 1 9 (PPool 0) shown (fst prepared) (snd prepared) prepared_good eq_refl)
    as (i&ac1&s1&ac2&s2&H1&H2&_&Hs); [by vm_compute..|]. exists i, ac1, s1, ac2, s2. split; [exact H1|]. split; [exact H2|]. rewrite Hs. by vm_compute.
Defined.

Lemma acl_reachable_valid_witness : ∃ st', exec 4 (ODelete None 1 0 9) (fst prepared, snd prepared) = Returns st'.
Proof. apply (acl_reachable_valid 4 4 2 2 2 2 2 (fst prepared) (snd prepared) prepared_reach). split; [by vm_compute|lia]. Defined.

(** The node of the entry of fabric 1 may invoke a command of its cluster; in fabric 2 it may
    not. *)
Lemma reachable_check_exact_witness :
  ∃ s1 s2,
    Check (H := acl_delegate 4) (λ _ _, false) false None 5 (node_request 1 0x1111) (mkPath 6 1 kCommandInvokeRequest None) kOperate 8 9
      (fst prepared) (snd prepared) = Returns (CHIP_NO_ERROR, s1) ∧
    Check (H := acl_delegate 4) (λ _ _, false) false None 5 (node_request 2 0x1111) (mkPath 6 1 kCommandInvokeRequest None) kOperate 8 9
      (fst prepared) (snd prepared) = Returns (CHIP_ERROR_ACCESS_DENIED, s2).
Proof.
  destruct (reachable_check_exact 4 (λ _ _, false) false None 4 2 2 2 2 2 (fst prepared) (snd prepared) 5 (node_request 1 0x1111)
    (mkPath 6 1 kCommandInvokeRequest None) kOperate 8 9 prepared_reach) as (s1&H1&_); [by vm_compute|by vm_compute|eexists; by vm_compute|eexists; by vm_compute|vm_compute; lia|].
  destruct (reachable_check_exact 4 (λ _ _, false) false None 4 2 2 2 2 2 (fst prepared) (snd prepared) 5 (node_request 2 0x1111)
    (mkPath 6 1 kCommandInvokeRequest None) kOperate 8 9 prepared_reach) as (s2&H2&_); [by vm_compute|by vm_compute|eexists; by vm_compute|eexists; by vm_compute|vm_compute; lia|].
  exists s1, s2. split; [exact H1|exact H2].
Defined.
