(* ===== verification/PersistCounter.v ===== *)
(** * Counters that survive a restart

    [PersistedCounter] (src/src/lib/support/PersistedCounter.h) over
    [MonotonicallyIncreasingCounter] (CHIPCounter.h), and the counters of outgoing group
    messages, [GroupOutgoingCounters] (src/src/transport/GroupPeerMessageCounter.cpp). Both
    keep the value to begin with after a restart in a key-value store, some way ahead of the
    value in use. Numbers are stored as on a little-endian host. *)

From stdpp Require Import strings.
From S2P Require Import Prelude.
From S2P Require Import ChipError.
From S2P Require Import Endian.

(** ** The store *)

(** [PersistentStorageDelegate]. Reading gives the error, the contents of the buffer
    afterwards and the size; the buffer has [size] bytes before. *)
Class KvStore (S : Type) := {
  SyncGetKeyValue : string → list Z → S → chip_error * list Z * Z;
  SyncSetKeyValue : string → list Z → S → chip_error * S
}.

(** What is documented of a store that works: a value is found with its size after it was
    written, one that was not written is not found. That the size is left alone then is what
    [ReadStartValue] relies on. *)
Class KvLaws (S : Type) `{KvStore S} := {
  kv_lookup : string → S → option (list Z);
  kv_get_found k buf v s :
    kv_lookup k s = Some v → length v = length buf → SyncGetKeyValue k buf s = (CHIP_NO_ERROR, v, Z.of_nat (length buf));
  kv_get_absent k buf s :
    kv_lookup k s = None → SyncGetKeyValue k buf s = (CHIP_ERROR_PERSISTED_STORAGE_VALUE_NOT_FOUND, buf, Z.of_nat (length buf));
  kv_set k v s :
    ∃ s', SyncSetKeyValue k v s = (CHIP_NO_ERROR, s') ∧
      ∀ k', kv_lookup k' s' = if decide (k' = k) then Some v else kv_lookup k' s
}.

(** ** Persisted counters *)

Section Counter.
Context {S : Type} `{KvStore S}.
(** [sizeof(T)]; [T] is not narrower than [int]. [GetInitialCounterValue]. *)
Context (sizeof : nat) (GetInitialCounterValue : Z).

Definition wrap (z : Z) : Z := z mod 2 ^ (8 * Z.of_nat sizeof).
Definition max_T : Z := 2 ^ (8 * Z.of_nat sizeof) - 1.

(** [mKey] is none when it is not initialized; [mStorage] is set or null. *)
Record PersistedCounter := mkPC {
  mCounterValue : Z;
  mStorage : bool;
  mKey : option string;
  mEpoch : Z;
  mNextEpoch : Z
}.

Definition PersistedCounter_new : PersistedCounter := mkPC 0 false None 0 0.

Definition set_value v c := mkPC v (mStorage c) (mKey c) (mEpoch c) (mNextEpoch c).
Definition set_next v c := mkPC (mCounterValue c) (mStorage c) (mKey c) (mEpoch c) v.

Definition PersistNextEpochStart (aStartValue : Z) (key : string) (c : PersistedCounter) (s : S) : chip_error * PersistedCounter * S :=
  let c := set_next aStartValue c in
  let '(err, s) := SyncSetKeyValue key (le_encode sizeof aStartValue) s in
  (err, c, s).

Definition ReadStartValue (key : string) (s : S) : chip_error * Z :=
  let '(err, valueLE, size) := SyncGetKeyValue key (le_encode sizeof GetInitialCounterValue) s in
  let err := if decide (err = CHIP_ERROR_PERSISTED_STORAGE_VALUE_NOT_FOUND) then CHIP_NO_ERROR else err in
  if decide (err = CHIP_NO_ERROR) then
    if size =? Z.of_nat sizeof then (CHIP_NO_ERROR, le_decode valueLE) else (CHIP_ERROR_INCORRECT_STATE, 0)
  else (err, 0).

Definition PersistedCounter_Init (aStorage : bool) (aKey : option string) (aEpoch : Z) (c : PersistedCounter) (s : S)
    : chip_error * PersistedCounter * S :=
  match aStorage, aKey with
  | true, Some key =>
      if aEpoch <=? 0 then (CHIP_ERROR_INVALID_INTEGER_VALUE, c, s)
      else
        let c := mkPC (mCounterValue c) true (Some key) aEpoch (mNextEpoch c) in
        let '(err, startValue) := ReadStartValue key s in
        if decide (err = CHIP_NO_ERROR) then
          let '(err, c, s) := PersistNextEpochStart (wrap (startValue + aEpoch)) key c s in
          if decide (err = CHIP_NO_ERROR) then (CHIP_NO_ERROR, set_value startValue c, s) else (err, c, s)
        else (err, c, s)
  | _, _ => (CHIP_ERROR_INVALID_ARGUMENT, c, s)
  end.

Definition PersistAndVerifyNextEpochStart (refEpoch : Z) (key : string) (c : PersistedCounter) (s : S)
    : chip_error * PersistedCounter * S :=
  let '(err, c, s) := PersistNextEpochStart (wrap (refEpoch + mEpoch c)) key c s in
  if decide (err = CHIP_NO_ERROR) then
    if wrap (mCounterValue c + mEpoch c) =? mNextEpoch c then (CHIP_NO_ERROR, c, s) else (CHIP_ERROR_INTERNAL, c, s)
  else (err, c, s).

(** The result of the write is not looked at. *)
Definition AdvanceBy (value : Z) (c : PersistedCounter) (s : S) : chip_error * PersistedCounter * S :=
  match mStorage c, mKey c with
  | true, Some key =>
      if value =? 0 then (CHIP_NO_ERROR, c, s)
      else
        let shouldDoEpochUpdate := (mNextEpoch c <=? wrap (mCounterValue c + value)) || (max_T - value <? mCounterValue c) in
        let c := set_value (wrap (mCounterValue c + value)) c in
        if shouldDoEpochUpdate then
          let '(_, c, s) := PersistAndVerifyNextEpochStart (mCounterValue c) key c s in (CHIP_NO_ERROR, c, s)
        else (CHIP_NO_ERROR, c, s)
  | _, _ => (CHIP_ERROR_INCORRECT_STATE, c, s)
  end.

Definition Advance (c : PersistedCounter) (s : S) : chip_error * PersistedCounter * S :=
  match mStorage c, mKey c with
  | true, Some key =>
      let c := set_value (wrap (mCounterValue c + 1)) c in
      if mNextEpoch c <=? mCounterValue c then PersistAndVerifyNextEpochStart (mNextEpoch c) key c s else (CHIP_NO_ERROR, c, s)
  | _, _ => (CHIP_ERROR_INCORRECT_STATE, c, s)
  end.

(** ** Runs with restarts *)

Inductive counter_op := OAdvance | OAdvanceBy (n : Z).

Definition counter_exec (op : counter_op) (c : PersistedCounter) (s : S) : chip_error * PersistedCounter * S :=
  match op with OAdvance => Advance c s | OAdvanceBy n => AdvanceBy n c s end.

(** The value is used at the start and after each operation; no value is used once an error
    was returned. *)
Fixpoint counter_ops (ops : list counter_op) (c : PersistedCounter) (s : S) : chip_error * list Z * S :=
  match ops with
  | [] => (CHIP_NO_ERROR, [mCounterValue c], s)
  | op :: ops =>
      let '(err, c', s) := counter_exec op c s in
      if decide (err = CHIP_NO_ERROR) then let '(err, vs, s) := counter_ops ops c' s in (err, mCounterValue c :: vs, s)
      else (err, [mCounterValue c], s)
  end.

Definition session (key : string) (epoch : Z) (ops : list counter_op) (s : S) : chip_error * list Z * S :=
  let '(err, c, s) := PersistedCounter_Init true (Some key) epoch PersistedCounter_new s in
  if decide (err = CHIP_NO_ERROR) then counter_ops ops c s else (err, [], s).

(** Restarts: each session begins with what the store has. *)
Fixpoint sessions (key : string) (epoch : Z) (l : list (list counter_op)) (s : S) : chip_error * list Z * S :=
  match l with
  | [] => (CHIP_NO_ERROR, [], s)
  | ops :: l =>
      let '(err, vs, s) := session key epoch ops s in
      if decide (err = CHIP_NO_ERROR) then let '(err, ws, s) := sessions key epoch l s in (err, vs ++ ws, s)
      else (err, vs, s)
  end.

End Counter.

(** ** Counters of outgoing group messages *)

Definition GROUP_MSG_COUNTER_MIN_INCREMENT : Z := 1000.
Definition kMessageCounterRandomInitMask : Z := 0x0FFFFFFF.
Definition GroupDataCounter : string := "g/gdc".
Definition GroupControlCounter : string := "g/gcc".

Section Group.
Context {S : Type} `{KvStore S}.

Record GroupOutgoingCounters := mkGOC {
  mGroupDataCounter : Z;
  mGroupControlCounter : Z;
  goc_mStorage : bool
}.

(** One of the counters at the start: what is stored, or a random number if nothing is. The
    first [size] bytes of [temp] are the buffer; the size that was read is not looked at, but
    it is the one of the next buffer. The result has [temp] and [size] afterwards. *)
Definition read_group_counter (key : string) (rand : Z) (temp : list Z) (size : Z) (s : S) : chip_error * Z * list Z * Z :=
  let '(err, buf, size') := SyncGetKeyValue key (take (Z.to_nat size) temp) s in
  let temp := buf ++ drop (length buf) temp in
  if decide (err = CHIP_ERROR_PERSISTED_STORAGE_VALUE_NOT_FOUND)
  then (CHIP_NO_ERROR, u32 (Z.land rand kMessageCounterRandomInitMask + 1), temp, size')
  else if decide (err = CHIP_NO_ERROR) then (CHIP_NO_ERROR, le_decode temp, temp, size') else (err, 0, temp, size').

(** [rand1], [rand2]: the results of [GetRandU32]; [temp]: what the variable holds before it is
    set. *)
Definition GroupOutgoingCounters_Init (storage : bool) (rand1 rand2 temp : Z) (g : GroupOutgoingCounters) (s : S)
    : chip_error * GroupOutgoingCounters * S :=
  if negb storage then (CHIP_ERROR_INVALID_ARGUMENT, g, s)
  else
    let g := mkGOC (mGroupDataCounter g) (mGroupControlCounter g) true in
    let '(err, v, temp, size) := read_group_counter GroupControlCounter rand1 (le_encode 4 temp) 4 s in
    if decide (err = CHIP_NO_ERROR) then
      let g := mkGOC (mGroupDataCounter g) v true in
      let '(err, w, _, _) := read_group_counter GroupDataCounter rand2 temp size s in
      if decide (err = CHIP_NO_ERROR) then
        let g := mkGOC w (mGroupControlCounter g) true in
        let '(err, s) := SyncSetKeyValue GroupControlCounter (le_encode 4 (u32 (mGroupControlCounter g + GROUP_MSG_COUNTER_MIN_INCREMENT))) s in
        if decide (err = CHIP_NO_ERROR) then
          let '(err, s) := SyncSetKeyValue GroupDataCounter (le_encode 4 (u32 (mGroupDataCounter g + GROUP_MSG_COUNTER_MIN_INCREMENT))) s in
          (err, g, s)
        else (err, g, s)
      else (err, g, s)
    else (err, g, s).

Definition GetCounter (isControl : bool) (g : GroupOutgoingCounters) : Z :=
  if isControl then mGroupControlCounter g else mGroupDataCounter g.

Definition group_key (isControl : bool) : string := if isControl then GroupControlCounter else GroupDataCounter.

Definition IncrementCounter (isControl : bool) (g : GroupOutgoingCounters) (s : S) : chip_error * GroupOutgoingCounters * S :=
  let g := if isControl then mkGOC (mGroupDataCounter g) (u32 (mGroupControlCounter g + 1)) (goc_mStorage g)
           else mkGOC (u32 (mGroupDataCounter g + 1)) (mGroupControlCounter g) (goc_mStorage g) in
  let value := GetCounter isControl g in
  if negb (goc_mStorage g) then (CHIP_ERROR_PERSISTED_STORAGE_VALUE_NOT_FOUND, g, s)
  else
    let '(err, temp, _) := SyncGetKeyValue (group_key isControl) (le_encode 4 0) s in
    if decide (err = CHIP_NO_ERROR) then
      if le_decode temp =? value then
        let '(err, s) := SyncSetKeyValue (group_key isControl) (le_encode 4 (u32 (value + GROUP_MSG_COUNTER_MIN_INCREMENT))) s in
        (err, g, s)
      else (CHIP_NO_ERROR, g, s)
    else (err, g, s).

(** Messages: each takes the counter of its kind and then increments it. *)
Fixpoint group_sends (ops : list bool) (g : GroupOutgoingCounters) (s : S) : chip_error * list (bool * Z) * S :=
  match ops with
  | [] => (CHIP_NO_ERROR, [], s)
  | k :: ops =>
      let '(err, g', s) := IncrementCounter k g s in
      if decide (err = CHIP_NO_ERROR) then let '(err, vs, s) := group_sends ops g' s in (err, (k, GetCounter k g) :: vs, s)
      else (err, [(k, GetCounter k g)], s)
  end.

Definition group_session (rand : Z * Z) (ops : list bool) (s : S) : chip_error * list (bool * Z) * S :=
  let '(err, g, s) := GroupOutgoingCounters_Init true (fst rand) (snd rand) 0 (mkGOC 0 0 false) s in
  if decide (err = CHIP_NO_ERROR) then group_sends ops g s else (err, [], s).

Fixpoint group_sessions (l : list ((Z * Z) * list bool)) (s : S) : chip_error * list (bool * Z) * S :=
  match l with
  | [] => (CHIP_NO_ERROR, [], s)
  | (rand, ops) :: l =>
      let '(err, vs, s) := group_session rand ops s in
      if decide (err = CHIP_NO_ERROR) then let '(err, ws, s) := group_sessions l s in (err, vs ++ ws, s)
      else (err, vs, s)
  end.

End Group.

(** ** Stores *)

(** A store in memory. *)
#[export] Instance map_store : KvStore (gmap string (list Z)) := {
  SyncGetKeyValue k buf s :=
    match s !! k with
    | Some v =>
        if bool_decide (length v <= length buf)%nat then (CHIP_NO_ERROR, v ++ drop (length v) buf, Z.of_nat (length v))
        else (CHIP_ERROR_BUFFER_TOO_SMALL, take (length buf) v, Z.of_nat (length buf))
    | None => (CHIP_ERROR_PERSISTED_STORAGE_VALUE_NOT_FOUND, buf, Z.of_nat (length buf))
    end;
  SyncSetKeyValue k v s := (CHIP_NO_ERROR, <[k := v]> s)
}.

#[export] Instance map_laws : KvLaws (gmap string (list Z)).
Proof.
  refine {| kv_lookup k (s : gmap string (list Z)) := s !! k |}; cbn.
  - intros k buf v s -> Hl. rewrite bool_decide_true by lia. by rewrite drop_ge, app_nil_r, Hl by lia.
  - by intros k buf s ->.
  - intros k v s. eexists. split; [done|]. intros k'. destruct (decide (k' = k)) as [->|]; [apply lookup_insert_eq|by apply lookup_insert_ne].
Defined.

(** The same with writes that fail as the list says. *)
#[export] Instance faulty_store : KvStore (gmap string (list Z) * list bool) := {
  SyncGetKeyValue k buf s := SyncGetKeyValue k buf (fst s);
  SyncSetKeyValue k v s :=
    match s with
    | (m, true :: fails) => (CHIP_ERROR_INTERNAL, (m, fails))
    | (m, fails) => (CHIP_NO_ERROR, (<[k := v]> m, tail fails))
    end
}.
