(* ===== verification/PersistThm.v ===== *)
(** * Counters that survive a restart: no value is used twice

    On a store whose writes work, the values that a persisted counter and the counters of
    outgoing group messages give increase over all restarts; what happens when one write
    fails. *)

From stdpp Require Import strings sorting.
From S2P Require Import Prelude.
From S2P Require Import ChipError.
From S2P Require Import Endian.
From S2P Require Import PeerCounter.
From S2P Require Import PersistCounter.

(** ** Increasing lists *)

Lemma increasing_app (a b : list Z) n :
  StronglySorted Z.lt a → StronglySorted Z.lt b → Forall (λ v, v < n) a → Forall (λ v, n <= v) b → StronglySorted Z.lt (a ++ b).
Proof.
  intros Ha Hb Hn Hm. induction Ha as [|x a Ha IH Hx]; [done|]. inversion Hn; subst. cbn. constructor; [by apply IH|].
  apply Forall_app. split; [done|]. eapply Forall_impl; [exact Hm|]. cbn. lia.
Qed.

Section Counter.
Context {S : Type} `{KvLaws S}.
Context (sizeof : nat) (initial : Z) (key : string) (epoch : Z).
Hypothesis Hepoch : 0 < epoch.

Definition weight (op : counter_op) : Z := match op with OAdvance => 1 | OAdvanceBy n => n end.
Definition total (ops : list counter_op) : Z := foldr (λ op t, weight op + t) 0 ops.

Lemma total_nonneg ops : Forall (λ op, 0 < weight op) ops → 0 <= total ops.
Proof. induction 1; cbn; [done|]. unfold total in *. lia. Qed.

(** The store has the value of the next start, which is ahead of the value in use. *)
Definition counter_ok (c : PersistedCounter) (s : S) : Prop :=
  mStorage c = true ∧ mKey c = Some key ∧ mEpoch c = epoch ∧ 0 <= mCounterValue c < mNextEpoch c ∧
  mNextEpoch c <= mCounterValue c + epoch ∧ kv_lookup key s = Some (le_encode sizeof (mNextEpoch c)).

Lemma wrap_small z : 0 <= z < 2 ^ (8 * Z.of_nat sizeof) → wrap sizeof z = z.
Proof. apply Z.mod_small. Qed.

Lemma persist_ok ref c s :
  mEpoch c = epoch → 0 <= ref → ref + epoch < 2 ^ (8 * Z.of_nat sizeof) → mCounterValue c = ref →
  ∃ s', PersistAndVerifyNextEpochStart sizeof ref key c s = (CHIP_NO_ERROR, set_next (ref + epoch) c, s') ∧
    kv_lookup key s' = Some (le_encode sizeof (ref + epoch)).
Proof.
  intros He Hr Hw Hv. unfold PersistAndVerifyNextEpochStart, PersistNextEpochStart. rewrite He, wrap_small by lia.
  destruct (kv_set key (le_encode sizeof (ref + epoch)) s) as (s'&->&Hl). cbn. rewrite Hv, He, wrap_small, Z.eqb_refl by lia.
  exists s'. split; [done|]. by rewrite Hl, decide_True.
Qed.

Lemma counter_exec_ok op c s :
  counter_ok c s → 0 < weight op → mCounterValue c + weight op + epoch < 2 ^ (8 * Z.of_nat sizeof) →
  ∃ c' s', counter_exec sizeof op c s = (CHIP_NO_ERROR, c', s') ∧ counter_ok c' s' ∧ mCounterValue c' = mCounterValue c + weight op.
Proof.
  intros (Hs&Hk&He&Hv&Hn&Hl) Hop Hw. destruct op as [|n]; cbn [counter_exec weight] in *.
  - unfold Advance. rewrite Hs, Hk, wrap_small by lia. cbn [set_value mNextEpoch mCounterValue].
    destruct (Z.leb_spec (mNextEpoch c) (mCounterValue c + 1)) as [Hle|Hlt].
    + destruct (persist_ok (mNextEpoch c) (set_value (mCounterValue c + 1) c) s) as (s'&->&Hl'); cbn; [done|lia..|].
      eexists _, s'. split; [done|]. unfold counter_ok. cbn. split_and!; try done; lia.
    + eexists _, s. split; [done|]. unfold counter_ok. cbn. split_and!; try done; lia.
  - unfold AdvanceBy. rewrite Hs, Hk, (proj2 (Z.eqb_neq _ _)), wrap_small by lia. cbn [set_value mCounterValue].
    unfold max_T. rewrite (proj2 (Z.ltb_ge (2 ^ (8 * Z.of_nat sizeof) - 1 - n) _)), orb_false_r by lia.
    destruct (Z.leb_spec (mNextEpoch c) (mCounterValue c + n)) as [Hle|Hlt].
    + destruct (persist_ok (mCounterValue c + n) (set_value (mCounterValue c + n) c) s) as (s'&->&Hl'); cbn; [done|lia..|].
      eexists _, s'. split; [done|]. unfold counter_ok. cbn. split_and!; try done; lia.
    + eexists _, s. split; [done|]. unfold counter_ok. cbn. split_and!; try done; lia.
Qed.

(** The values of a session: increasing, and in front of the next start. *)
Definition values_ok (from : Z) (vs : list Z) (next limit : Z) : Prop :=
  StronglySorted Z.lt vs ∧ Forall (λ v, from <= v < next) vs ∧ from <= next <= limit.

Lemma counter_ops_ok ops : ∀ c s,
  counter_ok c s → Forall (λ op, 0 < weight op) ops → mCounterValue c + total ops + epoch < 2 ^ (8 * Z.of_nat sizeof) →
  ∃ vs s' next, counter_ops sizeof ops c s = (CHIP_NO_ERROR, vs, s') ∧ kv_lookup key s' = Some (le_encode sizeof next) ∧
    values_ok (mCounterValue c) vs next (mCounterValue c + total ops + epoch).
Proof.
  induction ops as [|op ops IH]; intros c s Hok Hw Hb; cbn [counter_ops].
  - destruct Hok as (Hs&Hk&He&Hv&Hn&Hl). eexists _, s, (mNextEpoch c). split; [done|]. split; [done|]. split_and!; [repeat constructor|repeat constructor; lia|lia|cbn; lia].
  - inversion_clear Hw as [|?? Hop Hops]. cbn [total foldr] in Hb. fold (total ops) in Hb. pose proof (total_nonneg ops Hops).
    destruct (counter_exec_ok op c s Hok Hop) as (c'&s1&->&Hok'&Hv'); [lia|]. rewrite decide_True by done.
    destruct (IH c' s1 Hok' Hops) as (vs&s'&next&->&Hl&Hs&Hf&Hn1&Hn2); [lia|]. eexists _, s', next. split; [done|]. split; [done|].
    split_and!; [|constructor|..].
    + constructor; [done|]. eapply Forall_impl; [exact Hf|]. cbn. lia.
    + lia.
    + eapply Forall_impl; [exact Hf|]. cbn. lia.
    + lia.
    + cbn [total foldr]. fold (total ops). lia.
Qed.

(** What the next session begins with. *)
Definition starts (v : Z) (s : S) : Prop :=
  0 <= v < 2 ^ (8 * Z.of_nat sizeof) ∧
  (kv_lookup key s = Some (le_encode sizeof v) ∨ kv_lookup key s = None ∧ v = initial).

Lemma session_ok ops v s :
  starts v s → Forall (λ op, 0 < weight op) ops → v + total ops + epoch < 2 ^ (8 * Z.of_nat sizeof) →
  ∃ vs s' next, session sizeof initial key epoch ops s = (CHIP_NO_ERROR, vs, s') ∧ starts next s' ∧ values_ok v vs next (v + total ops + epoch).
Proof.
  intros (Hv&Hst) Hw Hb. pose proof (total_nonneg ops Hw). unfold session, PersistedCounter_Init. rewrite (proj2 (Z.leb_gt _ _)) by lia.
  assert (ReadStartValue sizeof initial key s = (CHIP_NO_ERROR, v)) as ->.
  { unfold ReadStartValue. destruct Hst as [Hst|[Hst ->]].
    - rewrite (kv_get_found key _ _ s Hst) by (by rewrite !le_encode_length). cbn -[Z.of_nat].
      by rewrite le_encode_length, Z.eqb_refl, le_decode_encode, Z.mod_small.
    - rewrite (kv_get_absent key _ s Hst). cbn -[Z.of_nat].
      by rewrite le_encode_length, Z.eqb_refl, le_decode_encode, Z.mod_small. }
  rewrite decide_True by done. unfold PersistNextEpochStart. rewrite wrap_small by lia.
  destruct (kv_set key (le_encode sizeof (v + epoch)) s) as (s1&->&Hl). rewrite !decide_True by done.
  match goal with |- context [counter_ops _ _ ?c _] => set (c0 := c) end.
  assert (Hv0 : mCounterValue c0 = v) by done.
  destruct (counter_ops_ok ops c0 s1) as (vs&s'&next&->&Hl'&Hok); [|done|rewrite Hv0; lia|].
  { unfold counter_ok. cbn. split_and!; try done; try lia. by rewrite Hl, decide_True. }
  rewrite Hv0 in Hok. eexists vs, s', next. split; [done|]. split; [|done]. destruct Hok as (_&_&Hn1&Hn2). split; [lia|by left].
Qed.

Definition total_all (l : list (list counter_op)) : Z := foldr (λ ops t, total ops + epoch + t) 0 l.

Lemma total_all_nonneg l : Forall (Forall (λ op, 0 < weight op)) l → 0 <= total_all l.
Proof. induction 1 as [|ops l Hops _ IH]; cbn; [done|]. pose proof (total_nonneg ops Hops). unfold total_all in *. lia. Qed.

Lemma sessions_ok l : ∀ v s,
  starts v s → Forall (Forall (λ op, 0 < weight op)) l → v + total_all l < 2 ^ (8 * Z.of_nat sizeof) →
  ∃ vs s', sessions sizeof initial key epoch l s = (CHIP_NO_ERROR, vs, s') ∧ StronglySorted Z.lt vs ∧ Forall (λ x, v <= x) vs.
Proof.
  induction l as [|ops l IH]; intros v s Hst Hw Hb; cbn [sessions].
  { eexists [], s. split_and!; [done|constructor|constructor]. }
  inversion_clear Hw as [|?? Hops Hl]. cbn [total_all foldr] in Hb. fold (total_all l) in Hb. pose proof (total_all_nonneg l Hl).
  destruct (session_ok ops v s Hst Hops) as (vs&s1&next&->&Hst1&Hso&Hf&Hn); [lia|]. rewrite decide_True by done.
  destruct (IH next s1 Hst1 Hl) as (ws&s'&->&Hso'&Hf'); [lia|]. eexists _, s'. split; [done|]. split.
  - apply (increasing_app vs ws next); [done|done| |done]. eapply Forall_impl; [exact Hf|]. cbn. lia.
  - apply Forall_app. split; (eapply Forall_impl; [eassumption|]); cbn; lia.
Qed.

(** C32: On a store whose calls never fail, a persisted counter never gives a value twice: over any
    number of restarts, with any advances by positive numbers in between, no call fails and the
    values used increase, as long as the first value, all the advances and one epoch for each
    session together stay below 2^32 or 2^64, the range of the type. (Already when the next epoch
    would leave the range, before the value does, an advance may fail.) *)
Theorem persisted_counter_increases l v s :
  starts v s → Forall (Forall (λ op, 0 < weight op)) l → v + total_all l < 2 ^ (8 * Z.of_nat sizeof) →
  ∃ vs s', sessions sizeof initial key epoch l s = (CHIP_NO_ERROR, vs, s') ∧ StronglySorted Z.lt vs.
Proof. intros Hst Hw Hb. destruct (sessions_ok l v s Hst Hw Hb) as (vs&s'&?&?&_). by exists vs, s'. Qed.

End Counter.

Lemma persisted_counter_increases_witness :
  ∃ vs s', sessions 4 0 "c" 2 [[OAdvance; OAdvance; OAdvance]; [OAdvanceBy 5]; []] (∅ : gmap string (list Z)) = (CHIP_NO_ERROR, vs, s') ∧
    StronglySorted Z.lt vs.
Proof.
  apply (persisted_counter_increases 4 0 "c" 2 eq_refl _ 0).
  - split; [by vm_compute|]. by right.
  - repeat constructor.
  - by vm_compute.
Defined.

(** ** Outgoing group messages *)

Section Group.
Context {S : Type} `{KvLaws S}.

Definition group_ok (g : GroupOutgoingCounters) (s : S) : Prop :=
  goc_mStorage g = true ∧
  ∀ k, ∃ p, kv_lookup (group_key k) s = Some (le_encode 4 p) ∧ 0 <= GetCounter k g < p ∧ p <= GetCounter k g + GROUP_MSG_COUNTER_MIN_INCREMENT.

Lemma group_key_inj k k' : group_key k = group_key k' → k = k'.
Proof. by destruct k, k'. Qed.

Lemma decode4 z : 0 <= z < 2 ^ 32 → le_decode (le_encode 4 z) = z.
Proof. intros Hz. rewrite le_decode_encode. by apply Z.mod_small. Qed.

Lemma increment_ok k g s :
  group_ok g s → GetCounter k g + 1 + GROUP_MSG_COUNTER_MIN_INCREMENT < 2 ^ 32 →
  ∃ g' s', IncrementCounter k g s = (CHIP_NO_ERROR, g', s') ∧ group_ok g' s' ∧ GetCounter k g' = GetCounter k g + 1 ∧
    GetCounter (negb k) g' = GetCounter (negb k) g.
Proof.
  intros (Hst&Hk) Hb. destruct (Hk k) as (p&Hl&Hv&Hp). unfold GROUP_MSG_COUNTER_MIN_INCREMENT in *. unfold IncrementCounter.
  set (g' := if k then _ else _). assert (Hg : GetCounter k g' = GetCounter k g + 1 ∧ GetCounter (negb k) g' = GetCounter (negb k) g ∧ goc_mStorage g' = true).
  { unfold g'. destruct k; cbn [GetCounter mGroupControlCounter mGroupDataCounter negb] in *; split_and!; try done; unfold u32; rewrite Z.mod_small; lia. }
  destruct Hg as (Hg1&Hg2&Hg3). cbn zeta. rewrite Hg3, (kv_get_found _ _ _ s Hl) by done. cbn [negb]. rewrite decide_True, decode4, Hg1 by (done || lia).
  destruct (Z.eqb_spec p (GetCounter k g + 1)) as [->|Hne].
  - destruct (kv_set (group_key k) (le_encode 4 (u32 (GetCounter k g + 1 + 1000))) s) as (s'&E&Hl'). unfold GROUP_MSG_COUNTER_MIN_INCREMENT. rewrite E.
    exists g', s'. split; [done|]. split; [|done]. split; [done|]. intros k'. rewrite Hl'. destruct (decide (k' = k)) as [->|Hn].
    + rewrite decide_True by done. eexists. split; [done|]. unfold u32, GROUP_MSG_COUNTER_MIN_INCREMENT. rewrite Z.mod_small by lia. lia.
    + rewrite decide_False by (by intros ?%group_key_inj). assert (k' = negb k) as -> by (by destruct k, k'). rewrite Hg2. apply Hk.
  - exists g', s. split; [done|]. split; [|done]. split; [done|]. intros k'. destruct (decide (k' = k)) as [->|Hn].
    + exists p. rewrite Hg1. unfold GROUP_MSG_COUNTER_MIN_INCREMENT. split; [done|lia].
    + assert (k' = negb k) as -> by (by destruct k, k'). rewrite Hg2. apply Hk.
Qed.

(** The values used for messages of a kind. *)
Definition of_kind (k : bool) (vs : list (bool * Z)) : list Z := snd <$> filter (λ x, fst x = k) vs.

Lemma of_kind_cons k j v vs : of_kind k ((j, v) :: vs) = if bool_decide (j = k) then v :: of_kind k vs else of_kind k vs.
Proof. unfold of_kind. case_bool_decide; [by rewrite filter_cons_True|by rewrite filter_cons_False]. Qed.

Lemma of_kind_app k vs ws : of_kind k (vs ++ ws) = of_kind k vs ++ of_kind k ws.
Proof. unfold of_kind. by rewrite filter_app, fmap_app. Qed.

Lemma group_sends_ok ops : ∀ g s,
  group_ok g s → (∀ k, GetCounter k g + Z.of_nat (length ops) + GROUP_MSG_COUNTER_MIN_INCREMENT < 2 ^ 32) →
  ∃ vs s', group_sends ops g s = (CHIP_NO_ERROR, vs, s') ∧
    ∀ k, ∃ next, kv_lookup (group_key k) s' = Some (le_encode 4 next) ∧ StronglySorted Z.lt (of_kind k vs) ∧
      Forall (λ v, GetCounter k g <= v < next) (of_kind k vs) ∧
      GetCounter k g < next <= GetCounter k g + Z.of_nat (length ops) + GROUP_MSG_COUNTER_MIN_INCREMENT.
Proof.
  induction ops as [|j ops IH]; intros g s Hok Hb; cbn [group_sends].
  - eexists [], s. split; [done|]. intros k. destruct (proj2 Hok k) as (p&Hl&Hv&Hp). exists p. cbn. split_and!; [done|constructor|constructor|lia|lia].
  - destruct (increment_ok j g s Hok) as (g'&s1&->&Hok'&Hj&Hn); [specialize (Hb j); cbn [length] in Hb; lia|]. rewrite decide_True by done.
    assert (Hg : ∀ k, GetCounter k g <= GetCounter k g' <= GetCounter k g + 1).
    { intros k. destruct (decide (k = j)) as [->|Hne]; [lia|]. assert (k = negb j) as -> by (by destruct k, j). lia. }
    destruct (IH g' s1 Hok') as (vs&s'&->&Hvs); [intros k; specialize (Hb k); specialize (Hg k); cbn [length] in Hb; lia|].
    eexists _, s'. split; [done|]. intros k. destruct (Hvs k) as (next&Hl&Hso&Hf&Hnx). exists next. specialize (Hg k). cbn [length].
    split; [done|]. rewrite of_kind_cons. case_bool_decide as Ejk.
    + subst k. split_and!; [constructor; [done|]|constructor; [lia|]|lia|lia].
      * eapply Forall_impl; [exact Hf|]. cbn. lia.
      * eapply Forall_impl; [exact Hf|]. cbn. lia.
    + split_and!; [done| |lia|lia]. eapply Forall_impl; [exact Hf|]. cbn. lia.
Qed.

(** The value that a session begins with. *)
Definition group_starts (k : bool) (rand v : Z) (s : S) : Prop :=
  0 <= v < 2 ^ 32 ∧
  (kv_lookup (group_key k) s = Some (le_encode 4 v) ∨
   kv_lookup (group_key k) s = None ∧ v = u32 (Z.land rand kMessageCounterRandomInitMask + 1)).

Lemma read_group_ok k rand v temp s :
  group_starts k rand v s → length temp = 4%nat →
  ∃ temp', read_group_counter (group_key k) rand temp 4 s = (CHIP_NO_ERROR, v, temp', 4) ∧ length temp' = 4%nat.
Proof.
  intros (Hv&Hst) Hlen. unfold read_group_counter. change (Z.to_nat 4) with 4%nat. rewrite take_ge by lia. destruct Hst as [Hl|[Hl ->]].
  - rewrite (kv_get_found _ temp _ s Hl) by done. rewrite Hlen, drop_ge, app_nil_r by (by rewrite Hlen). cbn -[le_encode le_decode]. rewrite decode4 by done.
    by eexists.
  - rewrite (kv_get_absent _ temp s Hl). rewrite drop_ge, app_nil_r, Hlen by lia. by exists temp.
Qed.

Lemma group_session_ok rand ops (v : bool → Z) s :
  (∀ k, group_starts k (if k then fst rand else snd rand) (v k) s) →
  (∀ k, v k + Z.of_nat (length ops) + GROUP_MSG_COUNTER_MIN_INCREMENT < 2 ^ 32) →
  ∃ vs s' (next : bool → Z), group_session rand ops s = (CHIP_NO_ERROR, vs, s') ∧
    ∀ k, kv_lookup (group_key k) s' = Some (le_encode 4 (next k)) ∧ StronglySorted Z.lt (of_kind k vs) ∧
      Forall (λ x, v k <= x < next k) (of_kind k vs) ∧ v k < next k <= v k + Z.of_nat (length ops) + GROUP_MSG_COUNTER_MIN_INCREMENT.
Proof.
  intros Hst Hb. unfold group_session, GroupOutgoingCounters_Init. cbn [negb].
  destruct (read_group_ok true _ _ (le_encode 4 0) s (Hst true) eq_refl) as (t1&R1&Ht1).
  destruct (read_group_ok false _ _ t1 s (Hst false) Ht1) as (t2&R2&_). cbn [group_key] in R1, R2. cbv beta iota in R1, R2.
  rewrite R1, decide_True, R2, decide_True by done. cbn [mGroupControlCounter mGroupDataCounter].
  destruct (Hst true) as [Hv1 _], (Hst false) as [Hv2 _]. pose proof (Hb true) as Hb1. pose proof (Hb false) as Hb2. unfold GROUP_MSG_COUNTER_MIN_INCREMENT in *.
  unfold u32. rewrite !Z.mod_small by lia.
  destruct (kv_set GroupControlCounter (le_encode 4 (v true + 1000)) s) as (s1&->&Hl1). rewrite !decide_True by done.
  destruct (kv_set GroupDataCounter (le_encode 4 (v false + 1000)) s1) as (s2&->&Hl2). rewrite !decide_True by done.
  assert (Hok : group_ok (mkGOC (v false) (v true) true) s2).
  { split; [done|]. intros k. exists (v k + 1000). unfold GROUP_MSG_COUNTER_MIN_INCREMENT. rewrite Hl2, Hl1. destruct k; cbn; (split; [done|lia]). }
  destruct (group_sends_ok ops (mkGOC (v false) (v true) true) s2 Hok) as (vs&s'&->&Hvs).
  { intros k. unfold GROUP_MSG_COUNTER_MIN_INCREMENT. destruct k; cbn; lia. }
  assert (Hg : ∀ k, GetCounter k (mkGOC (v false) (v true) true) = v k) by (by intros []).
  destruct (Hvs true) as (n1&H1). destruct (Hvs false) as (n2&H2). rewrite Hg in H1, H2.
  exists vs, s', (λ k : bool, if k then n1 else n2). split; [done|]. by intros [].
Qed.

Definition sends_all (l : list ((Z * Z) * list bool)) : Z :=
  foldr (λ x t, Z.of_nat (length (snd x)) + GROUP_MSG_COUNTER_MIN_INCREMENT + t) 0 l.

Lemma sends_all_nonneg l : 0 <= sends_all l.
Proof. induction l; cbn; [done|]. unfold sends_all, GROUP_MSG_COUNTER_MIN_INCREMENT in *. lia. Qed.

Lemma group_sessions_ok l : ∀ (v : bool → Z) s,
  (∀ k, group_starts k (match l with [] => 0 | (rand, _) :: _ => if k then fst rand else snd rand end) (v k) s) →
  (∀ k, v k + sends_all l < 2 ^ 32) →
  ∃ vs s', group_sessions l s = (CHIP_NO_ERROR, vs, s') ∧
    ∀ k, StronglySorted Z.lt (of_kind k vs) ∧ Forall (λ x, v k <= x < v k + sends_all l) (of_kind k vs).
Proof.
  induction l as [|[rand ops] l IH]; intros v s Hst Hb; cbn [group_sessions].
  { eexists [], s. split; [done|]. intros k. split; constructor. }
  cbn [sends_all foldr snd] in Hb |- *. fold (sends_all l) in Hb |- *. pose proof (sends_all_nonneg l) as Hn.
  destruct (group_session_ok rand ops v s Hst) as (vs&s1&next&->&Hvs); [intros k; specialize (Hb k); lia|]. rewrite decide_True by done.
  destruct (IH next s1) as (ws&s'&->&Hws).
  { intros k. destruct (Hvs k) as (Hl&_&_&Hx). destruct (Hst k) as [Hv _]. specialize (Hb k). split; [lia|by left]. }
  { intros k. destruct (Hvs k) as (_&_&_&Hx). specialize (Hb k). lia. }
  eexists _, s'. split; [done|]. intros k. rewrite of_kind_app. destruct (Hvs k) as (_&Hso&Hf&Hx), (Hws k) as [Hso' Hf']. split.
  - apply (increasing_app _ _ (next k)); [done|done| |]; (eapply Forall_impl; [eassumption|]); cbn; lia.
  - apply Forall_app. split; (eapply Forall_impl; [eassumption|]); cbn; lia.
Qed.

End Group.

(** ** The receiver of group messages *)

Import PeerMessageCounter.

Lemma receive_later m c :
  0 <= mMaxCounter m → mMaxCounter m < c < 2 ^ 32 → c - mMaxCounter m < 2 ^ 31 →
  ∃ m', receive_group m c = (true, m') ∧ mMaxCounter m' = c.
Proof.
  intros Hm Hc Hd. assert (Hcl : ClassifyWithRollover m c = FutureCounter).
  { unfold ClassifyWithRollover, u32. rewrite Z.mod_small by lia. unfold futureCounterWindow. change (Z.shiftl 1 31 - 1) with (2 ^ 31 - 1).
    rewrite (proj2 (Z.leb_le 1 _)), (proj2 (Z.leb_le _ (2 ^ 31 - 1))) by lia. done. }
  unfold receive_group, VerifyGroup, CommitWithRollover. rewrite Hcl. cbn. eexists. split; [done|]. by destruct (_ <? _).
Qed.

Lemma receive_increasing base cs : ∀ m,
  0 <= base → base <= mMaxCounter m → StronglySorted Z.lt cs → Forall (λ c, mMaxCounter m < c < 2 ^ 32 ∧ c < base + 2 ^ 31) cs →
  ∃ m', run receive_group m cs = (cs, m').
Proof.
  induction cs as [|c cs IH]; intros m Hb Hm Hso Hf; cbn [run]; [by eexists|]. inversion_clear Hso as [|?? Hso' Hlt]. inversion_clear Hf as [|?? Hc Hf'].
  destruct (receive_later m c) as (m1&->&Hm1); [lia..|]. destruct (IH m1) as (m'&->); [done|lia|done| |by exists m'].
  rewrite Forall_forall in Hlt, Hf' |- *. intros x Hx. specialize (Hlt x Hx). specialize (Hf' x Hx). lia.
Qed.

(** C25: On a store whose writes never fail, and as long as fewer than 2^31 values pass and the counter
    stays below 2^32: with any number of restarts of a sender and messages of both kinds in
    between, no call fails, the counters of each kind increase, and a receiver that trusts the
    first one accepts all that follow in order. *)
Theorem group_restarts_accepted {S : Type} `{KvLaws S} l (v : bool → Z) (s : S) :
  (∀ k, group_starts k (match l with [] => 0 | (rand, _) :: _ => if k then fst rand else snd rand end) (v k) s) →
  (∀ k, v k + sends_all l < 2 ^ 32) → sends_all l < 2 ^ 31 →
  ∃ vs s', group_sessions l s = (CHIP_NO_ERROR, vs, s') ∧
    ∀ k, StronglySorted Z.lt (of_kind k vs) ∧
      match of_kind k vs with [] => True | c :: cs => ∃ m', run receive_group (mkSynced c 0) cs = (cs, m') end.
Proof.
  intros Hst Hb Hw. destruct (group_sessions_ok l v s Hst Hb) as (vs&s'&E&Hvs). exists vs, s'. split; [done|]. intros k.
  destruct (Hvs k) as [Hso Hf]. split; [done|]. specialize (Hb k). destruct (Hst k) as [Hv _]. destruct (of_kind k vs) as [|c cs]; [done|].
  inversion_clear Hso as [|?? Hso' Hlt]. inversion_clear Hf as [|?? Hc Hf']. apply (receive_increasing (v k)); cbn; [lia|lia|done|].
  rewrite Forall_forall in Hlt, Hf' |- *. intros x Hx. specialize (Hlt x Hx). specialize (Hf' x Hx). lia.
Qed.

Lemma group_restarts_accepted_witness :
  ∃ vs s', group_sessions [((5, 6), [true; false; true]); ((7, 8), [true])] (∅ : gmap string (list Z)) = (CHIP_NO_ERROR, vs, s') ∧
    ∀ k, StronglySorted Z.lt (of_kind k vs) ∧
      match of_kind k vs with [] => True | c :: cs => ∃ m', run receive_group (mkSynced c 0) cs = (cs, m') end.
Proof.
  apply (group_restarts_accepted _ (λ k : bool, if k then 6 else 7)).
  - intros []; (split; [by vm_compute|by right]).
  - by intros [].
  - by vm_compute.
Defined.

(** ** When a write fails *)

(** [AdvanceBy] does not report the failed write of the next start: the counter falls back
    behind a value in use when the device restarts. *)
Lemma advance_by_write_fails :
  ∃ s', sessions 4 0 "c" 2 [[OAdvanceBy 5]; []] (∅ : gmap string (list Z), [false; true]) = (CHIP_NO_ERROR, [0; 5; 2], s').
Proof. eexists. by vm_compute. Qed.

(** Once the counter has passed the value stored, which one failed write is enough for, it is
    not stored any more, and no error is returned. *)
Lemma increment_not_stored {S : Type} `{KvLaws S} k g (s : S) p :
  goc_mStorage g = true → kv_lookup (group_key k) s = Some (le_encode 4 p) → 0 <= p <= PersistCounter.GetCounter k g →
  PersistCounter.GetCounter k g + 1 < 2 ^ 32 → ∃ g', IncrementCounter k g s = (CHIP_NO_ERROR, g', s) ∧ PersistCounter.GetCounter k g' = PersistCounter.GetCounter k g + 1.
Proof.
  intros Hs Hl Hp Hb. unfold IncrementCounter. set (g' := if k then _ else _).
  assert (Hg : PersistCounter.GetCounter k g' = PersistCounter.GetCounter k g + 1 ∧ goc_mStorage g' = true).
  { unfold g'. destruct k; cbn [PersistCounter.GetCounter mGroupControlCounter mGroupDataCounter] in *; (split; [|done]); unfold u32; rewrite Z.mod_small; lia. }
  destruct Hg as [Hg1 Hg2]. cbn zeta. rewrite Hg2, (kv_get_found _ _ _ s Hl) by done. cbn [negb]. rewrite decide_True, decode4, Hg1 by (done || lia).
  rewrite (proj2 (Z.eqb_neq _ _)) by lia. by exists g'.
Qed.
