(* ===== verification/GroupPeers.v ===== *)
(** * The senders of group messages

    [GroupPeerTable] (src/src/transport/GroupPeerMessageCounter.cpp): for each fabric the
    senders of control and of data messages with their counters. The arrays have no holes:
    what is removed is filled with the last element in use. A counter is given to the caller
    by its place in the table. *)

From S2P Require Import Prelude.
From S2P Require Import COutcome.
From S2P Require Import ChipError.
From S2P Require Import AccessTypes.
From S2P Require Import PeerCounter.
Import PeerMessageCounter.

Record GroupSender := mkGS { gs_mNodeId : Z; gs_msgCounter : state }.

Definition GroupSender_new : GroupSender := mkGS kUndefinedNodeId NotSynced.

Record GroupFabric := mkGF {
  gf_mFabricIndex : Z;
  gf_mControlPeerCount : Z;
  gf_mDataPeerCount : Z;
  gf_mDataGroupSenders : list GroupSender;
  gf_mControlGroupSenders : list GroupSender
}.

(** A place of a counter: the fabric, the kind of senders and the sender. *)
Record slot := mkSlot { sl_fabric : nat; sl_control : bool; sl_sender : nat }.

Definition senders (isControl : bool) (g : GroupFabric) : list GroupSender :=
  if isControl then gf_mControlGroupSenders g else gf_mDataGroupSenders g.

Definition peer_count (isControl : bool) (g : GroupFabric) : Z :=
  if isControl then gf_mControlPeerCount g else gf_mDataPeerCount g.

(** The senders of a kind and their number changed. *)
Definition set_senders (isControl : bool) (l : list GroupSender) (count : Z) (g : GroupFabric) : GroupFabric :=
  if isControl then mkGF (gf_mFabricIndex g) count (gf_mDataPeerCount g) (gf_mDataGroupSenders g) l
  else mkGF (gf_mFabricIndex g) (gf_mControlPeerCount g) count l (gf_mControlGroupSenders g).

Definition counter_at (p : slot) (t : list GroupFabric) : option state :=
  g ← t !! sl_fabric p; n ← senders (sl_control p) g !! sl_sender p; Some (gs_msgCounter n).

(** ** Finding and adding *)

(** The loop over the senders of a fabric: the place of the node, or the first free one. *)
Fixpoint find_sender (nodeId : Z) (i : nat) (l : list GroupSender) : option (nat * bool) :=
  match l with
  | [] => None
  | n :: l =>
      if gs_mNodeId n =? kUndefinedNodeId then Some (i, true)
      else if gs_mNodeId n =? nodeId then Some (i, false)
      else find_sender nodeId (S i) l
  end.

(** [node.mNodeId = nodeId], and the number of senders increased. *)
Definition take_sender (isControl : bool) (nodeId : Z) (i : nat) (g : GroupFabric) : outcome GroupFabric :=
  match senders isControl g !! i with
  | Some n =>
      Returns (set_senders isControl (<[i := mkGS nodeId (gs_msgCounter n)]> (senders isControl g)) (u8 (peer_count isControl g + 1)) g)
  | None => Crashes OutOfBounds
  end.

Fixpoint find_or_add (fabricIndex nodeId : Z) (isControl : bool) (i : nat) (t : list GroupFabric)
    : outcome (chip_error * option slot * list GroupFabric) :=
  match t with
  | [] => Returns (CHIP_ERROR_TOO_MANY_PEER_NODES, None, [])
  | g :: t =>
      if gf_mFabricIndex g =? kUndefinedFabricIndex then
        let g := mkGF fabricIndex (gf_mControlPeerCount g) (gf_mDataPeerCount g) (gf_mDataGroupSenders g) (gf_mControlGroupSenders g) in
        let+ g := take_sender isControl nodeId 0 g in
        Returns (CHIP_NO_ERROR, Some (mkSlot i isControl 0), g :: t)
      else if fabricIndex =? gf_mFabricIndex g then
        match find_sender nodeId 0 (senders isControl g) with
        | Some (j, true) =>
            let+ g := take_sender isControl nodeId j g in
            Returns (CHIP_NO_ERROR, Some (mkSlot i isControl j), g :: t)
        | Some (j, false) => Returns (CHIP_NO_ERROR, Some (mkSlot i isControl j), g :: t)
        | None => Returns (CHIP_ERROR_TOO_MANY_PEER_NODES, None, g :: t)
        end
      else
        let+ (err, p, t) := find_or_add fabricIndex nodeId isControl (S i) t in
        Returns (err, p, g :: t)
  end.

Definition FindOrAddPeer (fabricIndex nodeId : Z) (isControl : bool) (t : list GroupFabric)
    : outcome (chip_error * option slot * list GroupFabric) :=
  if (fabricIndex =? kUndefinedFabricIndex) || (nodeId =? kUndefinedNodeId) then Returns (CHIP_ERROR_INVALID_ARGUMENT, None, t)
  else find_or_add fabricIndex nodeId isControl 0 t.

(** ** Removing *)

(** The loop from the end down to behind [lo]: the last element that [used] holds of. *)
Fixpoint last_used {A} (used : A → bool) (lo i : nat) (l : list A) : option nat :=
  match i with
  | O => None
  | S i' =>
      if bool_decide (lo < i)%nat then
        match l !! i with
        | Some x => if used x then Some i else last_used used lo i' l
        | None => last_used used lo i' l
        end
      else None
  end.

(** [l[i]] moved to [hole]. *)
Definition fill {A} (empty : A) (used : A → bool) (hole : nat) (l : list A) : list A :=
  match last_used used hole (length l - 1) l with
  | Some i => match l !! i with Some x => <[i := empty]> (<[hole := x]> l) | None => l end
  | None => l
  end.

Definition sender_used (n : GroupSender) : bool := negb (gs_mNodeId n =? kUndefinedNodeId).

(** The loop over [peerIndex], of which [n] steps are left. *)
Fixpoint compact_peers (n peerIndex : nat) (l : list GroupSender) : list GroupSender :=
  match n with
  | O => l
  | S n =>
      let l := match l !! peerIndex with
               | Some x => if sender_used x then l else fill GroupSender_new sender_used peerIndex l
               | None => l
               end in
      compact_peers n (S peerIndex) l
  end.

Definition CompactPeers (l : list GroupSender) : list GroupSender := compact_peers (length l) 0 l.

Fixpoint find_node (nodeId : Z) (l : list GroupSender) : option nat :=
  match l with [] => None | n :: l => if gs_mNodeId n =? nodeId then Some O else S <$> find_node nodeId l end.

(** The list afterwards, or none if the node is not in it. *)
Definition RemoveSpecificPeer (nodeId : Z) (l : list GroupSender) : option (list GroupSender) :=
  match find_node nodeId l with
  | Some i =>
      match l !! i with
      | Some n => Some (CompactPeers (<[i := mkGS kUndefinedNodeId (Reset (gs_msgCounter n))]> l))
      | None => None
      end
  | None => None
  end.

Fixpoint find_fabric (fabricIndex : Z) (t : list GroupFabric) : option nat :=
  match t with [] => None | g :: t => if fabricIndex =? gf_mFabricIndex g then Some O else S <$> find_fabric fabricIndex t end.

Section Config.
(** [CHIP_CONFIG_MAX_GROUP_DATA_PEERS] and [CHIP_CONFIG_MAX_GROUP_CONTROL_PEERS]. *)
Context (max_data max_control : nat).

Definition GroupFabric_new : GroupFabric :=
  mkGF kUndefinedFabricIndex 0 0 (replicate max_data GroupSender_new) (replicate max_control GroupSender_new).

Definition fabric_used (g : GroupFabric) : bool := negb (gf_mFabricIndex g =? kUndefinedFabricIndex).

Definition RemoveAndCompactFabric (tableIndex : nat) (t : list GroupFabric) : list GroupFabric :=
  if bool_decide (length t <= tableIndex)%nat then t
  else fill GroupFabric_new fabric_used tableIndex (<[tableIndex := GroupFabric_new]> t).

Definition RemovePeer (fabricIndex nodeId : Z) (isControl : bool) (t : list GroupFabric) : chip_error * list GroupFabric :=
  if (fabricIndex =? kUndefinedFabricIndex) || (nodeId =? kUndefinedNodeId) then (CHIP_ERROR_INVALID_ARGUMENT, t)
  else
    match find_fabric fabricIndex t with
    | Some it =>
        match t !! it with
        | Some g =>
            match RemoveSpecificPeer nodeId (senders isControl g) with
            | Some l =>
                let g := set_senders isControl l (u8 (peer_count isControl g - 1)) g in
                let t := <[it := g]> t in
                (CHIP_NO_ERROR,
                 if (gf_mDataPeerCount g =? 0) && (gf_mControlPeerCount g =? 0) then RemoveAndCompactFabric it t else t)
            | None => (CHIP_ERROR_NOT_FOUND, t)
            end
        | None => (CHIP_ERROR_NOT_FOUND, t)
        end
    | None => (CHIP_ERROR_NOT_FOUND, t)
    end.

Definition FabricRemoved (fabricIndex : Z) (t : list GroupFabric) : chip_error * list GroupFabric :=
  if fabricIndex =? kUndefinedFabricIndex then (CHIP_ERROR_INVALID_ARGUMENT, t)
  else
    match find_fabric fabricIndex t with
    | Some it => (CHIP_NO_ERROR, RemoveAndCompactFabric it t)
    | None => (CHIP_ERROR_NOT_FOUND, t)
    end.

End Config.
