(* ===== verification/GroupPeersThm.v ===== *)
(** * The senders of group messages: a map of counters

    The table without holes implements a map from fabric, kind and node to a counter: finding
    gives the counter of that sender and of no other, removing takes out that sender and no
    other. *)

From S2P Require Import Prelude.
From S2P Require Import COutcome.
From S2P Require Import ChipError.
From S2P Require Import AccessTypes.
From S2P Require Import PeerCounter.
From S2P Require Import GroupPeers.
Import PeerMessageCounter.

(** ** Arrays without holes *)

Section Compact.
Context {A : Type} (empty : A) (used : A → bool).
Hypothesis Hempty : used empty = false.

Lemma last_used_Some lo i l j x :
  l !! j = Some x → used x = true → (lo < j <= i)%nat → (∀ m y, (j < m <= i)%nat → l !! m = Some y → used y = false) →
  last_used used lo i l = Some j.
Proof.
  intros Hj Hx. induction i as [|i IH]; intros Hle Hafter; [lia|]. cbn [last_used]. rewrite bool_decide_true by lia.
  destruct (decide (j = S i)) as [->|Hne]; [by rewrite Hj, Hx|].
  assert (IH' : last_used used lo i l = Some j) by (apply IH; [lia|]; intros m y Hm; apply Hafter; lia).
  destruct (l !! S i) as [y|] eqn:Ey; [|done]. by rewrite (Hafter (S i) y) by (done || lia).
Qed.

Lemma last_used_None lo i l : (∀ m y, (lo < m <= i)%nat → l !! m = Some y → used y = false) → last_used used lo i l = None.
Proof.
  induction i as [|i IH]; intros Hno; [done|]. cbn [last_used]. case_bool_decide; [|done].
  assert (IH' : last_used used lo i l = None) by (apply IH; intros m y Hm; apply Hno; lia).
  destruct (l !! S i) as [y|] eqn:Ey; [|done]. by rewrite (Hno (S i) y) by (done || lia).
Qed.

Lemma lookup_free (a : list A) k m y : (a ++ replicate k empty) !! m = Some y → (length a <= m)%nat → used y = false.
Proof. intros Hm Hl. rewrite lookup_app_r in Hm by done. apply lookup_replicate in Hm as [-> _]. done. Qed.

Lemma insert_mid (a b : list A) x y : <[length a := y]> (a ++ x :: b) = a ++ y :: b.
Proof. by rewrite insert_app_r_alt, Nat.sub_diag by lia. Qed.

(** A hole is filled with the last element in use behind it, if there is one. *)
Lemma fill_last a e b x k :
  used x = true → fill empty used (length a) (a ++ e :: b ++ x :: replicate k empty) = a ++ x :: b ++ replicate (S k) empty.
Proof.
  intros Hx. set (l := a ++ e :: b ++ x :: replicate k empty).
  assert (Hl : l = (a ++ e :: b ++ [x]) ++ replicate k empty) by (unfold l; by rewrite <- app_assoc; cbn; rewrite <- app_assoc).
  assert (Hj : l !! (length a + S (length b))%nat = Some x).
  { unfold l. rewrite lookup_app_r by lia. replace (length a + S (length b) - length a)%nat with (S (length b)) by lia. by apply (list_lookup_middle b). }
  unfold fill. rewrite (last_used_Some _ _ l (length a + S (length b)) x Hj Hx).
  - rewrite Hj. unfold l. rewrite insert_mid. change (a ++ x :: b ++ x :: replicate k empty) with (a ++ (x :: b) ++ x :: replicate k empty).
    rewrite app_assoc. replace (length a + S (length b))%nat with (length (a ++ x :: b)) by (by rewrite length_app).
    rewrite insert_mid, <- app_assoc. done.
  - rewrite Hl, length_app, length_replicate, length_app. cbn. rewrite length_app. cbn. lia.
  - intros m y Hm Hy. rewrite Hl in Hy. eapply lookup_free; [exact Hy|]. rewrite length_app. cbn. rewrite length_app. cbn. lia.
Qed.

Lemma fill_none a k : fill empty used (length a) (a ++ empty :: replicate k empty) = a ++ empty :: replicate k empty.
Proof.
  unfold fill. rewrite last_used_None; [done|]. intros m y Hm Hy. change (empty :: replicate k empty) with (replicate (S k) empty) in Hy.
  eapply lookup_free; [exact Hy|lia].
Qed.

End Compact.

(** ** Senders *)

Definition senders_wf (l : list GroupSender) : Prop :=
  ∃ a k, l = a ++ replicate k GroupSender_new ∧ Forall (λ n, gs_mNodeId n ≠ kUndefinedNodeId) a ∧ NoDup (gs_mNodeId <$> a).

Definition sender_map (l : list GroupSender) : gmap Z state :=
  list_to_map ((λ n, (gs_mNodeId n, gs_msgCounter n)) <$> filter (λ n, gs_mNodeId n ≠ kUndefinedNodeId) l).

Definition in_use (l : list GroupSender) : nat := length (filter (λ n, gs_mNodeId n ≠ kUndefinedNodeId) l).

Lemma filter_senders a k :
  Forall (λ n, gs_mNodeId n ≠ kUndefinedNodeId) a → filter (λ n, gs_mNodeId n ≠ kUndefinedNodeId) (a ++ replicate k GroupSender_new) = a.
Proof.
  intros Ha. rewrite filter_app. assert (filter (λ n, gs_mNodeId n ≠ kUndefinedNodeId) (replicate k GroupSender_new) = []) as ->.
  { induction k; [done|]. cbn [replicate]. rewrite filter_cons_False; [done|]. cbn. by intros []. }
  rewrite app_nil_r. induction Ha as [|n a Hn _ IH]; [done|]. by rewrite filter_cons_True, IH.
Qed.

Definition smap (a : list GroupSender) : gmap Z state := list_to_map ((λ n, (gs_mNodeId n, gs_msgCounter n)) <$> a).

Lemma sender_map_used a k :
  Forall (λ n, gs_mNodeId n ≠ kUndefinedNodeId) a →
  sender_map (a ++ replicate k GroupSender_new) = smap a ∧ in_use (a ++ replicate k GroupSender_new) = length a.
Proof. intros Ha. unfold sender_map, in_use, smap. by rewrite filter_senders. Qed.

Lemma smap_keys a : ((λ n, (gs_mNodeId n, gs_msgCounter n)) <$> a).*1 = gs_mNodeId <$> a.
Proof. rewrite <- list_fmap_compose. done. Qed.

Lemma smap_absent a n : n ∉ (gs_mNodeId <$> a) → smap a !! n = None.
Proof. intros Hn. apply not_elem_of_list_to_map_1. by rewrite smap_keys. Qed.

Lemma smap_perm a b : NoDup (gs_mNodeId <$> a) → a ≡ₚ b → smap a = smap b.
Proof. intros Hn Hp. apply list_to_map_proper; [by rewrite smap_keys|]. by rewrite Hp. Qed.

Lemma smap_cons x a : smap (x :: a) = <[gs_mNodeId x := gs_msgCounter x]> (smap a).
Proof. done. Qed.

Lemma smap_size a : NoDup (gs_mNodeId <$> a) → size (smap a) = length a.
Proof.
  induction a as [|x a IH]; intros Hn; [done|]. cbn in Hn. apply NoDup_cons in Hn as [Hx Hn].
  rewrite smap_cons, map_size_insert_None by (by apply smap_absent). cbn. by rewrite IH.
Qed.

(** Around one sender. *)
Lemma smap_split a1 x a2 :
  NoDup (gs_mNodeId <$> a1 ++ x :: a2) →
  smap (a1 ++ x :: a2) !! gs_mNodeId x = Some (gs_msgCounter x) ∧ smap (a1 ++ a2) = delete (gs_mNodeId x) (smap (a1 ++ x :: a2)) ∧
  NoDup (gs_mNodeId <$> a1 ++ a2).
Proof.
  intros Hn. assert (Hp : a1 ++ x :: a2 ≡ₚ x :: a1 ++ a2) by (symmetry; apply Permutation_middle).
  rewrite (smap_perm _ _ Hn Hp), smap_cons. rewrite Hp in Hn. cbn in Hn. apply NoDup_cons in Hn as [Hx Hn].
  rewrite lookup_insert_eq, delete_insert_id by (by apply smap_absent). done.
Qed.

Lemma find_sender_spec n k a : n ≠ kUndefinedNodeId → Forall (λ x, gs_mNodeId x ≠ kUndefinedNodeId) a → ∀ i,
  (∃ a1 x a2, a = a1 ++ x :: a2 ∧ gs_mNodeId x = n ∧ find_sender n i (a ++ replicate k GroupSender_new) = Some ((i + length a1)%nat, false)) ∨
  ((n ∉ (gs_mNodeId <$> a)) ∧ find_sender n i (a ++ replicate k GroupSender_new) = match k with O => None | S _ => Some ((i + length a)%nat, true) end).
Proof.
  intros Hn Ha. induction Ha as [|x a Hx Ha IH]; intros i; cbn [app find_sender].
  - right. split; [by apply not_elem_of_nil|]. destruct k; cbn; [done|]. by rewrite Nat.add_0_r.
  - rewrite (proj2 (Z.eqb_neq _ _) Hx). destruct (Z.eqb_spec (gs_mNodeId x) n) as [Hxn|Hxn].
    + left. exists [], x, a. by rewrite Nat.add_0_r.
    + destruct (IH (S i)) as [(a1&y&a2&->&Hy&->)|[Hni ->]].
      * left. exists (x :: a1), y, a2. split_and!; try done. cbn [length]. do 2 f_equal. lia.
      * right. split; [cbn; apply not_elem_of_cons; split; [congruence|done]|]. destruct k; [done|]. cbn [length]. do 2 f_equal. lia.
Qed.

Lemma find_node_spec n k a : n ≠ kUndefinedNodeId →
  (∃ a1 x a2, a = a1 ++ x :: a2 ∧ gs_mNodeId x = n ∧ find_node n (a ++ replicate k GroupSender_new) = Some (length a1)) ∨
  ((n ∉ (gs_mNodeId <$> a)) ∧ find_node n (a ++ replicate k GroupSender_new) = None).
Proof.
  intros Hn. induction a as [|x a IH]; cbn [app find_node].
  - right. split; [by apply not_elem_of_nil|]. induction k; [done|]. cbn [replicate find_node]. rewrite (proj2 (Z.eqb_neq _ _)) by (cbn; congruence). by rewrite IHk.
  - destruct (Z.eqb_spec (gs_mNodeId x) n) as [Hxn|Hxn].
    + left. by exists [], x, a.
    + destruct IH as [(a1&y&a2&->&Hy&->)|[Hni ->]].
      * left. by exists (x :: a1), y, a2.
      * right. split; [cbn; apply not_elem_of_cons; split; [congruence|done]|done].
Qed.

Lemma used_sender x : gs_mNodeId x ≠ kUndefinedNodeId → sender_used x = true.
Proof. intros Hx. unfold sender_used. by rewrite (proj2 (Z.eqb_neq _ _) Hx). Qed.

Lemma compact_peers_done a k : Forall (λ n, gs_mNodeId n ≠ kUndefinedNodeId) a →
  ∀ m i, compact_peers m i (a ++ replicate k GroupSender_new) = a ++ replicate k GroupSender_new.
Proof.
  intros Ha m. induction m as [|m IH]; intros i; [done|]. cbn [compact_peers].
  destruct ((a ++ replicate k GroupSender_new) !! i) as [x|] eqn:Ex; [|apply IH]. destruct (sender_used x) eqn:Eu; [apply IH|].
  apply lookup_app_Some in Ex as [Ex|[Hge Ex]].
  { rewrite (used_sender x) in Eu by (by apply (Forall_lookup_1 _ _ _ _ Ha Ex)). done. }
  apply lookup_replicate in Ex as [_ Hlt].
  assert (E : a ++ replicate k GroupSender_new = (a ++ replicate (i - length a) GroupSender_new) ++ GroupSender_new :: replicate (k - (i - length a) - 1) GroupSender_new).
  { rewrite <- app_assoc. f_equal. change (GroupSender_new :: replicate ?n _) with (replicate (S n) GroupSender_new). rewrite <- replicate_add. f_equal. lia. }
  assert (Hi : i = length (a ++ replicate (i - length a) GroupSender_new)) by (rewrite length_app, length_replicate; lia).
  pose proof (fill_none GroupSender_new sender_used eq_refl (a ++ replicate (i - length a) GroupSender_new) (k - (i - length a) - 1)) as Hf.
  rewrite <- Hi, <- E in Hf. rewrite Hf. apply IH.
Qed.

Lemma compact_skip a r m : Forall (λ n, gs_mNodeId n ≠ kUndefinedNodeId) a → ∀ p,
  compact_peers (length a + m) (length p) (p ++ a ++ r) = compact_peers m (length (p ++ a)) (p ++ a ++ r).
Proof.
  induction 1 as [|x a Hx Ha IH]; intros p; [by rewrite app_nil_r|]. cbn [length Nat.add compact_peers app].
  rewrite list_lookup_middle by done. rewrite used_sender by done.
  specialize (IH (p ++ [x])). rewrite <- !app_assoc in IH. cbn [app] in IH. rewrite length_app in IH. cbn in IH. rewrite Nat.add_1_r in IH. exact IH.
Qed.

(** The hole that a removed sender leaves is filled, or is the first free place. *)
Lemma CompactPeers_hole a1 a2 k :
  Forall (λ n, gs_mNodeId n ≠ kUndefinedNodeId) (a1 ++ a2) →
  ∃ a, CompactPeers (a1 ++ GroupSender_new :: a2 ++ replicate k GroupSender_new) = a ++ replicate (S k) GroupSender_new ∧ a ≡ₚ a1 ++ a2.
Proof.
  intros [H1 H2]%Forall_app. unfold CompactPeers.
  set (l := a1 ++ GroupSender_new :: a2 ++ replicate k GroupSender_new).
  assert (Hlen : length l = (length a1 + S (length (a2 ++ replicate k GroupSender_new)))%nat) by (unfold l; by rewrite length_app).
  rewrite Hlen. pose proof (compact_skip a1 (GroupSender_new :: a2 ++ replicate k GroupSender_new) (S (length (a2 ++ replicate k GroupSender_new))) H1 []) as Hskip.
  cbn [app length] in Hskip. fold l in Hskip. rewrite Hskip. cbn [compact_peers]. unfold l at 1. rewrite list_lookup_middle by done. cbn [sender_used gs_mNodeId].
  change (sender_used GroupSender_new) with false. cbv iota.
  destruct (list_eq_nil_dec a2) as [->|Hne]; [|].
  - unfold l. cbn [app]. rewrite fill_none by done. exists a1. rewrite app_nil_r. split; [|done].
    change (GroupSender_new :: replicate k GroupSender_new) with (replicate (S k) GroupSender_new). by apply compact_peers_done.
  - destruct (exists_last Hne) as (b&x&->). unfold l. rewrite <- app_assoc. cbn [app]. rewrite (fill_last GroupSender_new sender_used eq_refl).
    2:{ apply Forall_app in H2 as [_ H2]. inversion H2; subst. by apply used_sender. }
    apply Forall_app in H2 as [Hb Hx]. exists (a1 ++ x :: b). split.
    + change (a1 ++ x :: b ++ replicate (S k) GroupSender_new) with (a1 ++ (x :: b) ++ replicate (S k) GroupSender_new). rewrite app_assoc.
      apply compact_peers_done. apply Forall_app. split; [done|]. constructor; [by inversion Hx|done].
    + apply Permutation_app_head. rewrite (Permutation_app_comm b [x]). done.
Qed.

(** ** One list of senders *)

Lemma take_sender_ok n l :
  senders_wf l → n ≠ kUndefinedNodeId →
  match find_sender n 0 l with
  | Some (j, false) => ∃ x, l !! j = Some x ∧ gs_mNodeId x = n ∧ sender_map l !! n = Some (gs_msgCounter x)
  | Some (j, true) =>
      l !! j = Some GroupSender_new ∧ sender_map l !! n = None ∧ senders_wf (<[j := mkGS n NotSynced]> l) ∧
      sender_map (<[j := mkGS n NotSynced]> l) = <[n := NotSynced]> (sender_map l) ∧ in_use (<[j := mkGS n NotSynced]> l) = S (in_use l)
  | None => sender_map l !! n = None ∧ size (sender_map l) = length l
  end.
Proof.
  intros (a&k&->&Ha&Hnd) Hn. destruct (sender_map_used a k Ha) as [Hm Hu]. rewrite Hm, Hu.
  destruct (find_sender_spec n k a Hn Ha 0) as [(a1&x&a2&->&Hx&->)|[Hni ->]].
  - exists x. split; [rewrite <- app_assoc; by apply list_lookup_middle|]. split; [done|]. rewrite <- Hx. by apply smap_split.
  - destruct k as [|k]; [split; [by apply smap_absent|by rewrite app_nil_r, smap_size]|]. cbn [Nat.add replicate]. split; [by apply list_lookup_middle|]. split; [by apply smap_absent|].
    rewrite insert_mid. change (a ++ mkGS n NotSynced :: replicate k GroupSender_new) with (a ++ [mkGS n NotSynced] ++ replicate k GroupSender_new).
    rewrite app_assoc. assert (Ha' : Forall (λ x, gs_mNodeId x ≠ kUndefinedNodeId) (a ++ [mkGS n NotSynced])) by (apply Forall_app; split; [done|by repeat constructor]).
    assert (Hnd' : NoDup (gs_mNodeId <$> a ++ [mkGS n NotSynced])).
    { rewrite fmap_app. cbn. apply NoDup_app. split_and!; [done| |apply NoDup_singleton]. intros y Hy ->%list_elem_of_singleton. done. }
    destruct (sender_map_used (a ++ [mkGS n NotSynced]) k Ha') as [Hm' Hu']. split_and!.
    + by exists (a ++ [mkGS n NotSynced]), k.
    + rewrite Hm'. rewrite (smap_perm _ (mkGS n NotSynced :: a) Hnd'); [done|]. symmetry. apply Permutation_cons_append.
    + rewrite Hu', length_app. cbn. lia.
Qed.

Lemma RemoveSpecificPeer_ok n l :
  senders_wf l → n ≠ kUndefinedNodeId →
  match RemoveSpecificPeer n l with
  | Some l' => is_Some (sender_map l !! n) ∧ senders_wf l' ∧ length l' = length l ∧ sender_map l' = delete n (sender_map l) ∧ in_use l = S (in_use l')
  | None => sender_map l !! n = None
  end.
Proof.
  intros (a&k&->&Ha&Hnd) Hn. destruct (sender_map_used a k Ha) as [Hm Hu]. rewrite Hm, Hu. unfold RemoveSpecificPeer.
  destruct (find_node_spec n k a Hn) as [(a1&x&a2&->&Hx&->)|[Hni ->]]; [|by apply smap_absent].
  assert (Hl : ((a1 ++ x :: a2) ++ replicate k GroupSender_new) = a1 ++ x :: a2 ++ replicate k GroupSender_new) by (by rewrite <- app_assoc).
  rewrite Hl, list_lookup_middle, insert_mid by done.
  assert (mkGS kUndefinedNodeId (Reset (gs_msgCounter x)) = GroupSender_new) as -> by (by destruct (gs_msgCounter x)).
  assert (Ha' : Forall (λ n, gs_mNodeId n ≠ kUndefinedNodeId) (a1 ++ a2)).
  { apply Forall_app in Ha as [H1 H2]. inversion H2; subst. by apply Forall_app. }
  destruct (CompactPeers_hole a1 a2 k Ha') as (b&->&Hb). destruct (smap_split a1 x a2 Hnd) as (Hlk&Hdel&Hnd').
  assert (Hbu : Forall (λ n, gs_mNodeId n ≠ kUndefinedNodeId) b) by (by rewrite Hb).
  destruct (sender_map_used b (S k) Hbu) as [Hmb Hub]. assert (Hndb : NoDup (gs_mNodeId <$> b)) by (by rewrite Hb). split_and!.
  - rewrite <- Hx. by eexists.
  - by exists b, (S k).
  - rewrite !length_app, !length_replicate. apply Permutation_length in Hb. rewrite length_app in Hb. cbn. rewrite length_app, length_replicate. lia.
  - rewrite Hmb, (smap_perm b (a1 ++ a2) Hndb Hb), Hdel. by rewrite Hx.
  - rewrite Hub, (Permutation_length Hb), !length_app. cbn. lia.
Qed.

(** ** The table *)

Section Table.
Context (max_data max_control : nat).
(** There is room for a sender of each kind, and the numbers of senders fit in a byte. *)
Hypothesis Hdata : (0 < max_data < 256)%nat.
Hypothesis Hcontrol : (0 < max_control < 256)%nat.

Definition max_senders (c : bool) : nat := if c then max_control else max_data.

Definition fabric_wf (g : GroupFabric) : Prop :=
  gf_mFabricIndex g ≠ kUndefinedFabricIndex ∧
  (∀ c, senders_wf (senders c g) ∧ length (senders c g) = max_senders c ∧ peer_count c g = Z.of_nat (in_use (senders c g))) ∧
  (0 < in_use (senders true g) + in_use (senders false g))%nat.

Definition table_wf (t : list GroupFabric) : Prop :=
  ∃ u k, t = u ++ replicate k (GroupFabric_new max_data max_control) ∧ Forall fabric_wf u ∧ NoDup (gf_mFabricIndex <$> u).

Definition fmap_of (u : list GroupFabric) : gmap Z GroupFabric := list_to_map ((λ g, (gf_mFabricIndex g, g)) <$> u).

(** The counters of the senders of a fabric and a kind. *)
Definition peers_in (m : gmap Z GroupFabric) (f : Z) (c : bool) : gmap Z state :=
  match m !! f with Some g => sender_map (senders c g) | None => ∅ end.

Definition peers (t : list GroupFabric) (f : Z) (c : bool) : gmap Z state :=
  peers_in (fmap_of (filter (λ g, gf_mFabricIndex g ≠ kUndefinedFabricIndex) t)) f c.

Lemma peers_used u k f c :
  Forall (λ g, gf_mFabricIndex g ≠ kUndefinedFabricIndex) u →
  peers (u ++ replicate k (GroupFabric_new max_data max_control)) f c = peers_in (fmap_of u) f c.
Proof.
  intros Hu. unfold peers. do 2 f_equal. rewrite filter_app.
  assert (filter (λ g, gf_mFabricIndex g ≠ kUndefinedFabricIndex) (replicate k (GroupFabric_new max_data max_control)) = []) as ->.
  { induction k; [done|]. cbn [replicate]. rewrite filter_cons_False; [done|]. cbn. by intros []. }
  rewrite app_nil_r. induction Hu as [|g u Hg _ IH]; [done|]. by rewrite filter_cons_True, IH.
Qed.

Lemma fmap_keys u : ((λ g, (gf_mFabricIndex g, g)) <$> u).*1 = gf_mFabricIndex <$> u.
Proof. by rewrite <- list_fmap_compose. Qed.

Lemma fmap_absent u f : f ∉ (gf_mFabricIndex <$> u) → fmap_of u !! f = None.
Proof. intros Hf. apply not_elem_of_list_to_map_1. by rewrite fmap_keys. Qed.

Lemma fmap_perm u v : NoDup (gf_mFabricIndex <$> u) → u ≡ₚ v → fmap_of u = fmap_of v.
Proof. intros Hn Hp. apply list_to_map_proper; [by rewrite fmap_keys|]. by rewrite Hp. Qed.

Lemma fmap_mid u1 g u2 :
  NoDup (gf_mFabricIndex <$> u1 ++ g :: u2) →
  fmap_of (u1 ++ g :: u2) = <[gf_mFabricIndex g := g]> (fmap_of (u1 ++ u2)) ∧ fmap_of (u1 ++ u2) !! gf_mFabricIndex g = None ∧
  NoDup (gf_mFabricIndex <$> u1 ++ u2).
Proof.
  intros Hn. assert (Hp : u1 ++ g :: u2 ≡ₚ g :: u1 ++ u2) by (symmetry; apply Permutation_middle).
  rewrite (fmap_perm _ _ Hn Hp). rewrite Hp in Hn. cbn in Hn. apply NoDup_cons in Hn as [Hx Hn].
  split; [done|]. split; [by apply fmap_absent|done].
Qed.

(** One fabric changed. *)
Lemma peers_mid u1 g u2 f c :
  NoDup (gf_mFabricIndex <$> u1 ++ g :: u2) →
  peers_in (fmap_of (u1 ++ g :: u2)) f c = if decide (f = gf_mFabricIndex g) then sender_map (senders c g) else peers_in (fmap_of (u1 ++ u2)) f c.
Proof.
  intros Hn. destruct (fmap_mid u1 g u2 Hn) as (->&_&_). unfold peers_in. case_decide as E.
  - by rewrite E, lookup_insert_eq.
  - by rewrite lookup_insert_ne.
Qed.

Lemma senders_set c c' l n g : senders c' (set_senders c l n g) = if bool_decide (c' = c) then l else senders c' g.
Proof. by destruct c, c'. Qed.
Lemma count_set c c' l n g : peer_count c' (set_senders c l n g) = if bool_decide (c' = c) then n else peer_count c' g.
Proof. by destruct c, c'. Qed.
Lemma index_set c l n g : gf_mFabricIndex (set_senders c l n g) = gf_mFabricIndex g.
Proof. by destruct c. Qed.

Lemma in_use_le l : (in_use l <= length l)%nat.
Proof. apply length_filter. Qed.

(** A sender added to a fabric, at a place that is free. *)
Lemma take_sender_fabric c n j g :
  gf_mFabricIndex g ≠ kUndefinedFabricIndex → n ≠ kUndefinedNodeId →
  (∀ c, senders_wf (senders c g) ∧ length (senders c g) = max_senders c ∧ peer_count c g = Z.of_nat (in_use (senders c g))) →
  find_sender n 0 (senders c g) = Some (j, true) →
  ∃ g', take_sender c n j g = Returns g' ∧ fabric_wf g' ∧ gf_mFabricIndex g' = gf_mFabricIndex g ∧ sender_map (senders c g) !! n = None ∧
    (∀ c', sender_map (senders c' g') = if bool_decide (c' = c) then <[n := NotSynced]> (sender_map (senders c g)) else sender_map (senders c' g)) ∧
    (∃ x, senders c g' !! j = Some x ∧ gs_msgCounter x = NotSynced).
Proof.
  intros Hf Hn Hg Hfind. destruct (Hg c) as (Hwf&Hlen&Hcount). pose proof (take_sender_ok n (senders c g) Hwf Hn) as Ht. rewrite Hfind in Ht.
  destruct Ht as (Hj&Habs&Hwf'&Hmap&Huse). unfold take_sender. rewrite Hj. cbn [gs_msgCounter GroupSender_new].
  set (l' := <[j := mkGS n NotSynced]> (senders c g)) in *. eexists. split; [done|].
  assert (Hl' : length l' = max_senders c) by (unfold l'; by rewrite length_insert).
  assert (Hu8 : u8 (peer_count c g + 1) = Z.of_nat (in_use l')).
  { rewrite Hcount, Huse. unfold u8. rewrite Z.mod_small; [lia|]. pose proof (in_use_le l'). unfold max_senders in Hl'. destruct c; lia. }
  assert (Hx : l' !! j = Some (mkGS n NotSynced)) by (apply list_lookup_insert_eq; by eapply lookup_lt_Some). clearbody l'.
  split; [split; [|split]|split_and!].
  - by rewrite index_set.
  - intros c'. rewrite senders_set, count_set. case_bool_decide as E; [subst c'; by split_and!|apply Hg].
  - rewrite !senders_set. destruct c; [rewrite (bool_decide_true (true = true)) by done|rewrite (bool_decide_true (false = false)) by done]; lia.
  - apply index_set.
  - done.
  - intros c'. rewrite senders_set. by case_bool_decide.
  - rewrite senders_set, bool_decide_true by done. by exists (mkGS n NotSynced).
Qed.

Lemma used_fabrics u : Forall fabric_wf u → Forall (λ g, gf_mFabricIndex g ≠ kUndefinedFabricIndex) u.
Proof. intros Hu. eapply Forall_impl; [exact Hu|]. by intros g [? _]. Qed.

(** The loop over the fabrics: up to the fabric, or to the first free place. *)
Lemma find_or_add_spec f n c k u : f ≠ kUndefinedFabricIndex → Forall (λ g, gf_mFabricIndex g ≠ kUndefinedFabricIndex) u → ∀ i,
  (∃ u1 g u2, u = u1 ++ g :: u2 ∧ gf_mFabricIndex g = f ∧
     find_or_add f n c i (u ++ replicate k (GroupFabric_new max_data max_control)) =
       let+ (err, p, t) := find_or_add f n c (i + length u1) (g :: u2 ++ replicate k (GroupFabric_new max_data max_control)) in
       Returns (err, p, u1 ++ t)) ∨
  ((f ∉ (gf_mFabricIndex <$> u)) ∧
     find_or_add f n c i (u ++ replicate k (GroupFabric_new max_data max_control)) =
       let+ (err, p, t) := find_or_add f n c (i + length u) (replicate k (GroupFabric_new max_data max_control)) in
       Returns (err, p, u ++ t)).
Proof.
  intros Hf Hu. induction Hu as [|g u Hg Hu IH]; intros i.
  - right. split; [by apply not_elem_of_nil|]. cbn [app length]. rewrite Nat.add_0_r. by destruct (find_or_add _ _ _ _ _) as [[[??]?]|].
  - destruct (decide (f = gf_mFabricIndex g)) as [->|Hne].
    + left. exists [], g, u. split_and!; try done. rewrite Nat.add_0_r. cbn [app]. by destruct (find_or_add _ _ _ _ _) as [[[??]?]|].
    + assert (Hstep : ∀ t, find_or_add f n c i (g :: t) = let+ (err, p, t) := find_or_add f n c (S i) t in Returns (err, p, g :: t)).
      { intros t. cbn [find_or_add]. by rewrite (proj2 (Z.eqb_neq _ _) Hg), (proj2 (Z.eqb_neq _ _) Hne). }
      cbn [app]. rewrite Hstep. destruct (IH (S i)) as [(u1&g'&u2&->&Hg'&->)|[Hni ->]].
      * left. exists (g :: u1), g', u2. split_and!; try done. cbn [length app]. replace (i + S (length u1))%nat with (S i + length u1)%nat by lia.
        by destruct (find_or_add f n c (S i + length u1) _) as [[[??]?]|].
      * right. split; [cbn; by apply not_elem_of_cons|]. cbn [length app]. replace (i + S (length u))%nat with (S i + length u)%nat by lia.
        by destruct (find_or_add f n c (S i + length u) _) as [[[??]?]|].
Qed.

Lemma table_wf_mid u1 g u2 k :
  Forall fabric_wf (u1 ++ u2) → fabric_wf g → NoDup (gf_mFabricIndex <$> u1 ++ g :: u2) →
  table_wf (u1 ++ g :: u2 ++ replicate k (GroupFabric_new max_data max_control)).
Proof.
  intros [H1 H2]%Forall_app Hg Hn. exists (u1 ++ g :: u2), k. rewrite <- app_assoc. split_and!; [done| |done].
  apply Forall_app. split; [done|by constructor].
Qed.

Lemma same_index u1 g g' u2 : gf_mFabricIndex g' = gf_mFabricIndex g → gf_mFabricIndex <$> u1 ++ g' :: u2 = (gf_mFabricIndex <$> u1 ++ g :: u2).
Proof. intros E. rewrite !fmap_app. cbn. by rewrite E. Qed.

(** A new fabric with one sender. *)
Lemma new_fabric_ok f n c :
  f ≠ kUndefinedFabricIndex → n ≠ kUndefinedNodeId →
  let g := mkGF f 0 0 (replicate max_data GroupSender_new) (replicate max_control GroupSender_new) in
  ∃ g', take_sender c n 0 g = Returns g' ∧ fabric_wf g' ∧ gf_mFabricIndex g' = f ∧
    (∀ c', sender_map (senders c' g') = if bool_decide (c' = c) then {[n := NotSynced]} else ∅) ∧
    (∃ x, senders c g' !! 0%nat = Some x ∧ gs_msgCounter x = NotSynced).
Proof.
  intros Hf Hn g.
  assert (Hrep : ∀ m, senders_wf (replicate m GroupSender_new) ∧ sender_map (replicate m GroupSender_new) = ∅ ∧ in_use (replicate m GroupSender_new) = O).
  { intros m. split; [exists [], m; split_and!; [done|constructor|constructor]|]. apply (sender_map_used [] m). constructor. }
  assert (Hg : ∀ c, senders_wf (senders c g) ∧ length (senders c g) = max_senders c ∧ peer_count c g = Z.of_nat (in_use (senders c g))).
  { intros []; cbn [senders peer_count g gf_mControlGroupSenders gf_mDataGroupSenders gf_mControlPeerCount gf_mDataPeerCount];
      destruct (Hrep max_data) as (?&_&E1), (Hrep max_control) as (?&_&E2); rewrite ?E1, ?E2; (split; [done|]); (split; [apply length_replicate|done]). }
  destruct (take_sender_fabric c n 0 g Hf Hn Hg) as (g'&Ht&Hwf&Hi&_&Hmap&Hx).
  { destruct c; cbn [senders g gf_mControlGroupSenders gf_mDataGroupSenders]; [destruct max_control|destruct max_data]; by (lia || cbn). }
  exists g'. split_and!; try done. intros c'. rewrite Hmap.
  assert (Hem : ∀ c, sender_map (senders c g) = ∅) by (intros []; apply Hrep). rewrite !Hem. by case_bool_decide.
Qed.

(** No room for one more sender: all places of the kind are taken, or the fabric is not in the
    table and all places of fabrics are taken by others. *)
Definition no_room (f : Z) (c : bool) (t : list GroupFabric) : Prop :=
  size (peers t f c) = max_senders c ∨ ∀ g, g ∈ t → gf_mFabricIndex g ≠ kUndefinedFabricIndex ∧ gf_mFabricIndex g ≠ f.

(** What finding gives: a place of the counter of the sender, which it had or which is new;
    all others as they were; or no room for a sender that is not there. *)
Definition found (f n : Z) (c : bool) (t : list GroupFabric) (r : chip_error * option slot * list GroupFabric) : Prop :=
  let '(err, p, t') := r in
  table_wf t' ∧
  ((err = CHIP_NO_ERROR ∧ (∃ q, p = Some q ∧ counter_at q t' = peers t' f c !! n) ∧
    ∀ f' c', peers t' f' c' = if decide (f' = f ∧ c' = c) then <[n := default NotSynced (peers t f c !! n)]> (peers t f c) else peers t f' c') ∨
   (err = CHIP_ERROR_TOO_MANY_PEER_NODES ∧ p = None ∧ t' = t ∧ peers t f c !! n = None ∧ no_room f c t)).

Lemma find_in_fabric n c u1 g u2 k :
  Forall fabric_wf (u1 ++ g :: u2) → NoDup (gf_mFabricIndex <$> u1 ++ g :: u2) → n ≠ kUndefinedNodeId →
  ∃ r, (let+ (err, p, t) := find_or_add (gf_mFabricIndex g) n c (length u1) (g :: u2 ++ replicate k (GroupFabric_new max_data max_control)) in
    Returns (err, p, u1 ++ t)) = Returns r ∧ found (gf_mFabricIndex g) n c ((u1 ++ g :: u2) ++ replicate k (GroupFabric_new max_data max_control)) r.
Proof.
  intros Hu Hnd Hn. pose proof (used_fabrics _ Hu) as Hidx.
  assert (Hf : gf_mFabricIndex g ≠ kUndefinedFabricIndex) by (apply Forall_app in Hidx as [_ Hi2]; by inversion Hi2).
  cbn [find_or_add]. rewrite (proj2 (Z.eqb_neq _ _) Hf), Z.eqb_refl. apply Forall_app in Hu as [Hu1 Hu2]. inversion_clear Hu2 as [|?? Hg Hu2'].
  assert (Hpe : ∀ f' c', peers ((u1 ++ g :: u2) ++ replicate k (GroupFabric_new max_data max_control)) f' c' =
    if decide (f' = gf_mFabricIndex g) then sender_map (senders c' g) else peers_in (fmap_of (u1 ++ u2)) f' c').
  { intros f' c'. rewrite peers_used by done. by apply peers_mid. }
  destruct Hg as (Hg0&Hg1&Hg2). pose proof (take_sender_ok n (senders c g) (proj1 (Hg1 c)) Hn) as Ht.
  destruct (find_sender n 0 (senders c g)) as [[j [|]]|] eqn:Ej.
  - destruct (take_sender_fabric c n j g Hf Hn Hg1 Ej) as (g'&->&Hwf&Hi&Habs&Hmap&x&Hx&Hxc). cbn [obind].
    assert (Hnd' : NoDup (gf_mFabricIndex <$> u1 ++ g' :: u2)) by (by rewrite (same_index u1 g g' u2 Hi)).
    eexists (_, _, _). split; [done|]. split; [apply table_wf_mid; [by apply Forall_app|done|done]|]. left. split; [done|].
    assert (Hpe' : ∀ f' c', peers (u1 ++ g' :: u2 ++ replicate k (GroupFabric_new max_data max_control)) f' c' =
      if decide (f' = gf_mFabricIndex g) then sender_map (senders c' g') else peers_in (fmap_of (u1 ++ u2)) f' c').
    { intros f' c'. change (u1 ++ g' :: u2 ++ ?r) with (u1 ++ (g' :: u2) ++ r). rewrite app_assoc, peers_used.
      - rewrite peers_mid by done. by rewrite Hi.
      - apply Forall_app in Hidx as [? Hi2]. inversion Hi2; subst. apply Forall_app. split; [done|]. constructor; [congruence|done]. }
    split.
    + eexists. split; [done|]. rewrite Hpe', decide_True, Hmap, bool_decide_true, lookup_insert_eq by done. unfold counter_at. cbn [sl_fabric sl_control sl_sender].
      rewrite list_lookup_middle by done. cbn. rewrite Hx. cbn. by rewrite Hxc.
    + intros f' c'. rewrite Hpe', !Hpe, Hmap. rewrite (decide_True (P := gf_mFabricIndex g = gf_mFabricIndex g)) by done. rewrite Habs. cbn.
      destruct (decide (f' = gf_mFabricIndex g)) as [->|]; [|by rewrite decide_False by naive_solver].
      case_bool_decide; [subst; by rewrite decide_True|by rewrite decide_False by naive_solver].
  - destruct Ht as (x&Hx&Hxn&Hxm). cbn [obind]. change (u1 ++ g :: u2 ++ ?r) with (u1 ++ (g :: u2) ++ r). rewrite app_assoc.
    eexists (_, _, _). split; [done|]. split; [exists (u1 ++ g :: u2), k; split_and!; try done; apply Forall_app; split; [done|by constructor]|].
    left. split; [done|]. split.
    + eexists. split; [done|]. rewrite Hpe, decide_True, Hxm by done. unfold counter_at. cbn [sl_fabric sl_control sl_sender].
      rewrite <- app_assoc. cbn [app]. rewrite list_lookup_middle by done. cbn. by rewrite Hx.
    + intros f' c'. case_decide as E; [|done]. destruct E as [-> ->]. rewrite Hpe, decide_True, Hxm by done. cbn. by rewrite insert_id.
  - cbn [obind]. change (u1 ++ g :: u2 ++ ?r) with (u1 ++ (g :: u2) ++ r). rewrite app_assoc.
    eexists (_, _, _). split; [done|]. split; [exists (u1 ++ g :: u2), k; split_and!; try done; apply Forall_app; split; [done|by constructor]|].
    destruct Ht as [Ht Hsize]. right. split_and!; try done; [by rewrite Hpe, decide_True|]. left. rewrite Hpe, decide_True by done.
    rewrite Hsize. apply Hg1.
Qed.

Lemma find_new_fabric f n c u k :
  Forall fabric_wf u → NoDup (gf_mFabricIndex <$> u) → f ≠ kUndefinedFabricIndex → n ≠ kUndefinedNodeId → f ∉ (gf_mFabricIndex <$> u) →
  ∃ r, (let+ (err, p, t) := find_or_add f n c (length u) (replicate k (GroupFabric_new max_data max_control)) in Returns (err, p, u ++ t)) = Returns r ∧
    found f n c (u ++ replicate k (GroupFabric_new max_data max_control)) r.
Proof.
  intros Hu Hnd Hf Hn Hni. pose proof (used_fabrics _ Hu) as Hidx.
  assert (Hpe : ∀ f' c', peers (u ++ replicate k (GroupFabric_new max_data max_control)) f' c' = peers_in (fmap_of u) f' c') by (intros; by apply peers_used).
  assert (Hnone : ∀ c', peers_in (fmap_of u) f c' = ∅) by (intros c'; unfold peers_in; by rewrite (fmap_absent u f Hni)).
  destruct k as [|k]; cbn [replicate find_or_add].
  - cbn [obind]. eexists (_, _, _). split; [done|]. split; [by exists u, O|]. right. split_and!; try done; [by rewrite Hpe, Hnone|]. right. intros g Hg. rewrite app_nil_r in Hg.
    split; [exact (proj1 (Forall_forall _ _) Hidx g Hg)|]. intros <-. by apply Hni, list_elem_of_fmap_2.
  - cbn [gf_mFabricIndex GroupFabric_new gf_mControlPeerCount gf_mDataPeerCount gf_mDataGroupSenders gf_mControlGroupSenders]. rewrite Z.eqb_refl.
    destruct (new_fabric_ok f n c Hf Hn) as (g'&->&Hwf&Hi&Hmap&x&Hx&Hxc). cbn [obind].
    assert (Hnd' : NoDup (gf_mFabricIndex <$> u ++ [g'])).
    { rewrite fmap_app. apply NoDup_app. split_and!; [done| |apply NoDup_singleton]. cbn. intros y Hy ->%list_elem_of_singleton. by rewrite Hi in Hy. }
    pose proof (table_wf_mid u g' [] k) as Hwf'. rewrite app_nil_r in Hwf'.
    eexists (_, _, _). split; [done|]. split; [by apply Hwf'|]. left. split; [done|].
    assert (Hpe' : ∀ f' c', peers (u ++ g' :: replicate k (GroupFabric_new max_data max_control)) f' c' =
      if decide (f' = f) then sender_map (senders c' g') else peers_in (fmap_of u) f' c').
    { intros f' c'. change (u ++ g' :: ?r) with (u ++ [g'] ++ r). rewrite app_assoc, peers_used.
      - rewrite peers_mid, Hi by done. by rewrite app_nil_r.
      - apply Forall_app. split; [done|]. constructor; [congruence|constructor]. }
    split.
    + eexists. split; [done|]. rewrite Hpe', decide_True, Hmap, bool_decide_true, lookup_singleton_eq by done. unfold counter_at. cbn [sl_fabric sl_control sl_sender].
      rewrite list_lookup_middle by done. cbn. rewrite Hx. cbn. by rewrite Hxc.
    + intros f' c'. rewrite Hpe', !Hpe, Hnone, Hmap. destruct (decide (f' = f)) as [->|]; [|by rewrite decide_False by naive_solver].
      rewrite Hnone. case_bool_decide; [subst; by rewrite decide_True|by rewrite decide_False by naive_solver].
Qed.

(** C33: For a fabric and a node that are defined, finding a sender of group messages gives the
    place of the counter of that fabric, kind and node: the one it had, or a new one that is
    not synchronized. Every other sender of every fabric keeps its counter. It fails only when
    the sender is not in the table and there is no room for it: all places of its kind in the
    fabric are taken, or the fabric has no place and all places of fabrics are taken. Then
    nothing is changed. *)
Theorem find_or_add_refines f n c t :
  table_wf t → f ≠ kUndefinedFabricIndex → n ≠ kUndefinedNodeId → ∃ r, FindOrAddPeer f n c t = Returns r ∧ found f n c t r.
Proof.
  intros (u&k&->&Hu&Hnd) Hf Hn. unfold FindOrAddPeer. rewrite (proj2 (Z.eqb_neq _ _) Hf), (proj2 (Z.eqb_neq _ _) Hn). cbn [orb].
  destruct (find_or_add_spec f n c k u Hf (used_fabrics u Hu) 0) as [(u1&g&u2&->&<-&->)|[Hni ->]]; cbn [Nat.add].
  - by apply find_in_fabric.
  - by apply find_new_fabric.
Qed.

(** ** Removing *)

Lemma find_fabric_spec f k u : f ≠ kUndefinedFabricIndex →
  (∃ u1 g u2, u = u1 ++ g :: u2 ∧ gf_mFabricIndex g = f ∧
     find_fabric f (u ++ replicate k (GroupFabric_new max_data max_control)) = Some (length u1)) ∨
  ((f ∉ (gf_mFabricIndex <$> u)) ∧ find_fabric f (u ++ replicate k (GroupFabric_new max_data max_control)) = None).
Proof.
  intros Hf. induction u as [|g u IH]; cbn [app find_fabric].
  - right. split; [by apply not_elem_of_nil|]. induction k as [|k IHk]; [done|]. cbn [replicate find_fabric]. rewrite (proj2 (Z.eqb_neq _ _)) by (cbn; congruence). by rewrite IHk.
  - destruct (Z.eqb_spec f (gf_mFabricIndex g)) as [->|Hne].
    + left. by exists [], g, u.
    + destruct IH as [(u1&g'&u2&->&Hg'&->)|[Hni ->]].
      * left. by exists (g :: u1), g', u2.
      * right. split; [cbn; by apply not_elem_of_cons|done].
Qed.

(** The fabric [g] taken out of the table. *)
Lemma RemoveAndCompactFabric_ok u1 g u2 k :
  Forall fabric_wf (u1 ++ u2) → NoDup (gf_mFabricIndex <$> u1 ++ g :: u2) →
  ∃ t, RemoveAndCompactFabric max_data max_control (length u1) (u1 ++ g :: u2 ++ replicate k (GroupFabric_new max_data max_control)) = t ∧
    table_wf t ∧ ∀ f c, peers t f c = peers_in (fmap_of (u1 ++ u2)) f c.
Proof.
  intros Hu Hnd. eexists. split; [done|]. unfold RemoveAndCompactFabric. rewrite bool_decide_false by (rewrite length_app; cbn; lia). rewrite insert_mid.
  destruct (fmap_mid u1 g u2 Hnd) as (_&_&Hnd').
  assert (Hdone : ∀ v, v ≡ₚ u1 ++ u2 → table_wf (v ++ replicate (S k) (GroupFabric_new max_data max_control)) ∧
    ∀ f c, peers (v ++ replicate (S k) (GroupFabric_new max_data max_control)) f c = peers_in (fmap_of (u1 ++ u2)) f c).
  { intros v Hv. assert (Hwv : Forall fabric_wf v) by (by rewrite Hv). assert (Hnv : NoDup (gf_mFabricIndex <$> v)) by (by rewrite Hv).
    split; [by exists v, (S k)|]. intros f c. rewrite peers_used by (by apply used_fabrics). by rewrite (fmap_perm v (u1 ++ u2) Hnv Hv). }
  destruct (list_eq_nil_dec u2) as [->|Hne].
  - cbn [app]. rewrite fill_none by done. apply (Hdone u1). by rewrite app_nil_r.
  - destruct (exists_last Hne) as (b&x&->). rewrite <- app_assoc. cbn [app]. rewrite (fill_last (GroupFabric_new max_data max_control) fabric_used eq_refl).
    2:{ apply Forall_app in Hu as [_ Hu]. apply Forall_app in Hu as [_ Hx]. inversion Hx as [|?? [Hi _]]; subst. unfold fabric_used. by rewrite (proj2 (Z.eqb_neq _ _) Hi). }
    change (u1 ++ x :: b ++ ?r) with (u1 ++ (x :: b) ++ r). rewrite app_assoc. apply Hdone. apply Permutation_app_head. by rewrite (Permutation_app_comm b [x]).
Qed.

Lemma empty_sender_map l : senders_wf l → in_use l = O → sender_map l = ∅.
Proof. intros (a&k&->&Ha&_) Hu. destruct (sender_map_used a k Ha) as [-> Hl]. rewrite Hl in Hu. by apply nil_length_inv in Hu as ->. Qed.

Lemma peers_table u1 g u2 k f c :
  Forall fabric_wf (u1 ++ g :: u2) → NoDup (gf_mFabricIndex <$> u1 ++ g :: u2) →
  peers (u1 ++ g :: u2 ++ replicate k (GroupFabric_new max_data max_control)) f c =
    if decide (f = gf_mFabricIndex g) then sender_map (senders c g) else peers_in (fmap_of (u1 ++ u2)) f c.
Proof.
  intros Hu Hnd. change (u1 ++ g :: u2 ++ ?r) with (u1 ++ (g :: u2) ++ r). rewrite app_assoc, peers_used by (by apply used_fabrics). by apply peers_mid.
Qed.

(** A sender taken out of a fabric. *)
Lemma remove_sender_fabric n c g l :
  fabric_wf g → n ≠ kUndefinedNodeId → RemoveSpecificPeer n (senders c g) = Some l →
  let g' := set_senders c l (u8 (peer_count c g - 1)) g in
  is_Some (sender_map (senders c g) !! n) ∧ gf_mFabricIndex g' = gf_mFabricIndex g ∧
  (∀ c', sender_map (senders c' g') = if bool_decide (c' = c) then delete n (sender_map (senders c g)) else sender_map (senders c' g)) ∧
  (∀ c', senders_wf (senders c' g') ∧ length (senders c' g') = max_senders c' ∧ peer_count c' g' = Z.of_nat (in_use (senders c' g'))).
Proof.
  intros (Hi&Hg&_) Hn Hr g'. destruct (Hg c) as (Hwf&Hlen&Hcount). pose proof (RemoveSpecificPeer_ok n (senders c g) Hwf Hn) as Ho. rewrite Hr in Ho.
  destruct Ho as (Hsome&Hwf'&Hlen'&Hmap&Huse). split_and!; [done|apply index_set|..].
  - intros c'. unfold g'. rewrite senders_set. by case_bool_decide.
  - intros c'. unfold g'. rewrite senders_set, count_set. case_bool_decide; [subst c'|apply Hg]. split_and!; [done|congruence|].
    rewrite Hcount, Huse. unfold u8. rewrite Z.mod_small; [lia|]. pose proof (in_use_le l). unfold max_senders in *. destruct c; lia.
Qed.

(** Removing a sender of group messages removes the counter of that fabric, kind and node
    and no other one, whichever senders and fabrics are moved to fill the holes; a sender that
    is not in the table is not found, and nothing is changed. *)
Theorem remove_peer_refines f n c t :
  table_wf t → f ≠ kUndefinedFabricIndex → n ≠ kUndefinedNodeId →
  ∃ err t', RemovePeer max_data max_control f n c t = (err, t') ∧ table_wf t' ∧
    ((err = CHIP_NO_ERROR ∧ is_Some (peers t f c !! n)) ∨ (err = CHIP_ERROR_NOT_FOUND ∧ peers t f c !! n = None ∧ t' = t)) ∧
    ∀ f' c', peers t' f' c' = if decide (f' = f ∧ c' = c) then delete n (peers t f c) else peers t f' c'.
Proof.
  intros (u&k&->&Hu&Hnd) Hf Hn. unfold RemovePeer. rewrite (proj2 (Z.eqb_neq _ _) Hf), (proj2 (Z.eqb_neq _ _) Hn). cbn [orb].
  assert (Habs : ∀ t, table_wf t → peers t f c !! n = None →
    ∃ err t', (CHIP_ERROR_NOT_FOUND, t) = (err, t') ∧ table_wf t' ∧
      ((err = CHIP_NO_ERROR ∧ is_Some (peers t f c !! n)) ∨ (err = CHIP_ERROR_NOT_FOUND ∧ peers t f c !! n = None ∧ t' = t)) ∧
      ∀ f' c', peers t' f' c' = if decide (f' = f ∧ c' = c) then delete n (peers t f c) else peers t f' c').
  { intros t Ht Hnone. eexists _, t. split; [done|]. split; [done|]. split; [by right|]. intros f' c'. case_decide as E; [|done].
    destruct E as [-> ->]. by rewrite delete_id. }
  destruct (find_fabric_spec f k u Hf) as [(u1&g&u2&->&<-&->)|[Hni ->]].
  2:{ apply Habs; [by exists u, k|]. rewrite peers_used by (by apply used_fabrics). unfold peers_in. by rewrite (fmap_absent u f Hni). }
  rewrite <- app_assoc. cbn [app]. rewrite list_lookup_middle by done.
  assert (Hwf0 : table_wf (u1 ++ g :: u2 ++ replicate k (GroupFabric_new max_data max_control))) by (exists (u1 ++ g :: u2), k; by rewrite <- app_assoc).
  pose proof (λ f c, peers_table u1 g u2 k f c Hu Hnd) as Hpe. pose proof Hu as Hu'. apply Forall_app in Hu' as [Hu1 Hu2]. inversion_clear Hu2 as [|?? Hg Hu2'].
  destruct (RemoveSpecificPeer n (senders c g)) as [l|] eqn:Er.
  2:{ apply Habs; [done|]. rewrite Hpe, decide_True by done. pose proof (RemoveSpecificPeer_ok n (senders c g) (proj1 (proj1 (proj2 Hg) c)) Hn) as Ho. by rewrite Er in Ho. }
  destruct (remove_sender_fabric n c g l Hg Hn Er) as (Hsome&Hi&Hmap&Hg'). set (g' := set_senders c l (u8 (peer_count c g - 1)) g) in *. rewrite insert_mid.
  assert (Hu12 : Forall fabric_wf (u1 ++ u2)) by (by apply Forall_app). assert (Hnd' : NoDup (gf_mFabricIndex <$> u1 ++ g' :: u2)) by (by rewrite (same_index u1 g g' u2 Hi)).
  assert (Hdata0 : (gf_mDataPeerCount g' =? 0) && (gf_mControlPeerCount g' =? 0) = bool_decide (in_use (senders true g') + in_use (senders false g') = 0)%nat).
  { destruct (Hg' true) as (_&_&E1), (Hg' false) as (_&_&E2). cbn [peer_count] in E1, E2. rewrite E1, E2. apply eq_bool_prop_intro.
    rewrite bool_decide_spec, andb_True, !Is_true_true, !Z.eqb_eq. lia. }
  rewrite Hdata0. eexists _, _. split; [done|]. case_bool_decide as E0.
  - destruct (RemoveAndCompactFabric_ok u1 g' u2 k Hu12 Hnd') as (t&->&Hwf&Hpt). split; [done|].
    split; [left; split; [done|]; by rewrite Hpe, decide_True|]. intros f' c'. rewrite Hpt, !Hpe, (decide_True (P := gf_mFabricIndex g = gf_mFabricIndex g)) by done.
    assert (Hem : ∀ c', sender_map (senders c' g') = ∅) by (intros c2; apply empty_sender_map; [apply Hg'|destruct c2; lia]).
    destruct (fmap_mid u1 g u2 Hnd) as (_&Hno&_). destruct (decide (f' = gf_mFabricIndex g)) as [->|]; [|by rewrite decide_False by naive_solver].
    unfold peers_in. rewrite Hno. specialize (Hmap c'). rewrite Hem in Hmap. case_bool_decide; [subst; by rewrite decide_True|by rewrite decide_False by naive_solver].
  - assert (Hwg : fabric_wf g') by (split; [by rewrite Hi|split; [done|lia]]). split; [by apply table_wf_mid|].
    split; [left; split; [done|]; by rewrite Hpe, decide_True|]. intros f' c'. rewrite !Hpe, (decide_True (P := gf_mFabricIndex g = gf_mFabricIndex g)) by done.
    rewrite (peers_table u1 g' u2 k f' c') by (done || (apply Forall_app; split; [done|by constructor])). rewrite Hi, Hmap.
    destruct (decide (f' = gf_mFabricIndex g)) as [->|]; [|by rewrite decide_False by naive_solver].
    case_bool_decide; [subst; by rewrite decide_True|by rewrite decide_False by naive_solver].
Qed.

(** Removing a fabric removes its senders of both kinds and no others. *)
Theorem fabric_removed_refines f t :
  table_wf t → f ≠ kUndefinedFabricIndex →
  ∃ err t', FabricRemoved max_data max_control f t = (err, t') ∧ table_wf t' ∧
    ∀ f' c', peers t' f' c' = if decide (f' = f) then ∅ else peers t f' c'.
Proof.
  intros (u&k&->&Hu&Hnd) Hf. unfold FabricRemoved. rewrite (proj2 (Z.eqb_neq _ _) Hf).
  destruct (find_fabric_spec f k u Hf) as [(u1&g&u2&->&<-&->)|[Hni ->]].
  - rewrite <- app_assoc. cbn [app]. assert (Hu12 : Forall fabric_wf (u1 ++ u2)).
    { apply Forall_app in Hu as [Hu1 Hu2]. inversion Hu2; subst. by apply Forall_app. }
    destruct (RemoveAndCompactFabric_ok u1 g u2 k Hu12 Hnd) as (t&->&Hwf&Hpt). eexists _, t. split; [done|]. split; [done|].
    intros f' c'. rewrite Hpt, peers_table by done. case_decide as E; [|done]. rewrite E. unfold peers_in. destruct (fmap_mid u1 g u2 Hnd) as (_&Hno&_). by rewrite Hno.
  - eexists _, _. split; [done|]. split; [by exists u, k|]. intros f' c'. case_decide as E; [|done]. rewrite E, peers_used by (by apply used_fabrics).
    unfold peers_in. by rewrite (fmap_absent u f Hni).
Qed.

End Table.

(** ** Examples *)

(** Two fabrics with room for two senders of each kind, one of them in use. *)
Definition example_table : list GroupFabric :=
  [mkGF 1 0 1 [mkGS 0x11 NotSynced; GroupSender_new] [GroupSender_new; GroupSender_new]; GroupFabric_new 2 2].

Lemma example_table_wf : table_wf 2 2 example_table.
Proof.
  exists [mkGF 1 0 1 [mkGS 0x11 NotSynced; GroupSender_new] [GroupSender_new; GroupSender_new]], 1%nat. split; [done|]. split; [|apply NoDup_singleton].
  constructor; [|constructor]. split; [done|]. split; [|vm_compute; lia]. intros [].
  - split_and!; [|done|done]. exists [], 2%nat. split_and!; [done|constructor|constructor].
  - split_and!; [|done|done]. exists [mkGS 0x11 NotSynced], 1%nat. split_and!; [done|by repeat constructor|apply NoDup_singleton].
Qed.

Lemma find_or_add_refines_witness :
  ∃ r, FindOrAddPeer 1 0x22 true example_table = Returns r ∧ found 2 2 1 0x22 true example_table r.
Proof. apply (find_or_add_refines 2 2 ltac:(lia) ltac:(lia) 1 0x22 true example_table example_table_wf); done. Defined.

Lemma remove_peer_refines_witness :
  ∃ err t', RemovePeer 2 2 1 0x11 false example_table = (err, t') ∧ peers t' 1 false = ∅.
Proof.
  destruct (remove_peer_refines 2 2 ltac:(lia) ltac:(lia) 1 0x11 false example_table example_table_wf) as (err&t'&E&_&_&Hp); [done|done|].
  exists err, t'. split; [exact E|]. rewrite Hp. by vm_compute.
Defined.
