(* ===== verification/Mrp.v ===== *)
(** * Intervals of the reliable message protocol

    [ReliableMessageProtocolConfig] (src/src/messaging/ReliableMessageProtocolConfig.cpp and
    .h) and [ReliableMessageMgr::GetBackoff] (src/src/messaging/ReliableMessageMgr.cpp): how
    long a sender waits for an acknowledgement before it sends a message again, and how long
    until it gives up. All times are milliseconds: [Timeout] has 32 bits, [Timestamp] 64.

    The proofs compare the fixed-point arithmetic of [GetBackoff] with the formula of the
    specification over the rationals, and show that [GetRetransmissionTimeout] covers all
    retransmissions of a peer whose active interval is not above its idle interval. *)

From Stdlib Require Import QArith.
From S2P Require Import Prelude.
#[local] Open Scope Z_scope.

Record MrpConfig := mkMrp {
  mIdleRetransTimeout : Z;
  mActiveRetransTimeout : Z;
  mActiveThresholdTime : Z
}.

#[export] Instance MrpConfig_eq_dec : EqDecision MrpConfig.
Proof. solve_decision. Defined.

Definition kDefaultActiveTime : Z := 4000.
Definition CHIP_CONFIG_RMP_DEFAULT_MAX_RETRANS : Z := 4.
Definition CHIP_CONFIG_RMP_DEFAULT_ACK_TIMEOUT : Z := 200.

Definition GetDefaultMRPConfig : MrpConfig := mkMrp 500 300 kDefaultActiveTime.

(** What [ICDConfigurationData] says of a device that sleeps. *)
Record Icd := mkIcd { GetSlowPollingInterval : Z; GetFastPollingInterval : Z; GetActiveModeThreshold : Z }.

(** The options of the build and the settings that these functions read: the intervals the
    platform chose, the ICD server when it is compiled in, the configuration set at run time,
    and what the unit tests override. *)
Record MrpSettings := mkSettings {
  CHIP_CONFIG_MRP_LOCAL_IDLE_RETRY_INTERVAL : Z;
  CHIP_CONFIG_MRP_LOCAL_ACTIVE_RETRY_INTERVAL : Z;
  CHIP_CONFIG_MRP_RETRY_INTERVAL_SENDER_BOOST : Z;
  icd : option Icd;
  sAdditionalMRPBackoffTime : Z;
  sDynamicLocalMPRConfig : option MrpConfig;
  idleRetransTimeoutOverride : option Z;
  activeRetransTimeoutOverride : option Z;
  activeThresholdTimeOverride : option Z
}.

Definition set_additional (t : Z) (c : MrpSettings) : MrpSettings :=
  mkSettings (CHIP_CONFIG_MRP_LOCAL_IDLE_RETRY_INTERVAL c) (CHIP_CONFIG_MRP_LOCAL_ACTIVE_RETRY_INTERVAL c)
    (CHIP_CONFIG_MRP_RETRY_INTERVAL_SENDER_BOOST c) (icd c) t (sDynamicLocalMPRConfig c)
    (idleRetransTimeoutOverride c) (activeRetransTimeoutOverride c) (activeThresholdTimeOverride c).

Definition set_dynamic (d : option MrpConfig) (c : MrpSettings) : MrpSettings :=
  mkSettings (CHIP_CONFIG_MRP_LOCAL_IDLE_RETRY_INTERVAL c) (CHIP_CONFIG_MRP_LOCAL_ACTIVE_RETRY_INTERVAL c)
    (CHIP_CONFIG_MRP_RETRY_INTERVAL_SENDER_BOOST c) (icd c) (sAdditionalMRPBackoffTime c) d
    (idleRetransTimeoutOverride c) (activeRetransTimeoutOverride c) (activeThresholdTimeOverride c).

Definition OverrideLocalMRPConfig (idle active threshold : Z) (c : MrpSettings) : MrpSettings :=
  mkSettings (CHIP_CONFIG_MRP_LOCAL_IDLE_RETRY_INTERVAL c) (CHIP_CONFIG_MRP_LOCAL_ACTIVE_RETRY_INTERVAL c)
    (CHIP_CONFIG_MRP_RETRY_INTERVAL_SENDER_BOOST c) (icd c) (sAdditionalMRPBackoffTime c)
    (sDynamicLocalMPRConfig c) (Some idle) (Some active) (Some threshold).

Definition ClearLocalMRPConfigOverride (c : MrpSettings) : MrpSettings :=
  mkSettings (CHIP_CONFIG_MRP_LOCAL_IDLE_RETRY_INTERVAL c) (CHIP_CONFIG_MRP_LOCAL_ACTIVE_RETRY_INTERVAL c)
    (CHIP_CONFIG_MRP_RETRY_INTERVAL_SENDER_BOOST c) (icd c) (sAdditionalMRPBackoffTime c)
    (sDynamicLocalMPRConfig c) None None None.

(** [ReliableMessageMgr::SetAdditionalMRPBackoffTime]. *)
Definition SetAdditionalMRPBackoffTime (additionalTime : option Z) (c : MrpSettings) : MrpSettings :=
  set_additional (default (CHIP_CONFIG_MRP_RETRY_INTERVAL_SENDER_BOOST c) additionalTime) c.

(** ** The local configuration *)

Definition GetLocalMRPConfig (c : MrpSettings) : option MrpConfig :=
  let config := mkMrp (CHIP_CONFIG_MRP_LOCAL_IDLE_RETRY_INTERVAL c) (CHIP_CONFIG_MRP_LOCAL_ACTIVE_RETRY_INTERVAL c) kDefaultActiveTime in
  let config := default config (sDynamicLocalMPRConfig c) in
  let config :=
    match icd c with
    | Some i =>
        mkMrp (u32 (mIdleRetransTimeout config + GetSlowPollingInterval i))
          (u32 (mActiveRetransTimeout config + GetFastPollingInterval i)) (GetActiveModeThreshold i)
    | None => config
    end in
  let config :=
    match idleRetransTimeoutOverride c with
    | Some t => mkMrp t (mActiveRetransTimeout config) (mActiveThresholdTime config)
    | None => config
    end in
  let config :=
    match activeRetransTimeoutOverride c with
    | Some t => mkMrp (mIdleRetransTimeout config) t (mActiveThresholdTime config)
    | None => config
    end in
  let config :=
    match activeThresholdTimeOverride c with
    | Some _ => mkMrp (mIdleRetransTimeout config) (mActiveRetransTimeout config) (u16 (default 0 (activeRetransTimeoutOverride c)))
    | None => config
    end in
  if decide (config = GetDefaultMRPConfig) then None else Some config.

(** The result says whether the local configuration changed. *)
Definition SetLocalMRPConfig (localMRPConfig : option MrpConfig) (c : MrpSettings) : bool * MrpSettings :=
  let oldConfig := GetLocalMRPConfig c in
  let c := set_dynamic localMRPConfig c in
  (bool_decide (oldConfig ≠ GetLocalMRPConfig c), c).

(** ** Backoff *)

Definition MRP_BACKOFF_JITTER_BASE : Z := 1024.
Definition MRP_BACKOFF_MARGIN_NUMERATOR : Z := 1127.
Definition MRP_BACKOFF_MARGIN_DENOMINATOR : Z := 1024.
Definition MRP_BACKOFF_BASE_NUMERATOR : Z := 16.
Definition MRP_BACKOFF_BASE_DENOMINATOR : Z := 10.
Definition MRP_BACKOFF_THRESHOLD : Z := 1.

(** [for (int i = 0; i < exponent; i++)] over the two factors. *)
Fixpoint backoff_loop (n : nat) (num denom : Z) : Z * Z :=
  match n with
  | O => (num, denom)
  | S n => backoff_loop n (u32 (num * MRP_BACKOFF_BASE_NUMERATOR)) (u32 (denom * MRP_BACKOFF_BASE_DENOMINATOR))
  end.

Definition backoff_exponent (sendCount : Z) : Z :=
  let exponent := sendCount - MRP_BACKOFF_THRESHOLD in
  let exponent := if exponent <? 0 then 0 else exponent in
  if exponent >? 4 then 4 else exponent.

(** [rand] is the random byte, [UINT8_MAX] when [computeMaxPossible]. *)
Definition GetBackoff (c : MrpSettings) (baseInterval sendCount rand : Z) : Z :=
  let interval := u64 (baseInterval * MRP_BACKOFF_MARGIN_NUMERATOR) in
  let interval := interval / MRP_BACKOFF_MARGIN_DENOMINATOR in
  let exponent := backoff_exponent sendCount in
  let '(backoffNum, backoffDenom) := backoff_loop (Z.to_nat exponent) 1 1 in
  let mrpBackoffTime := u64 (interval * backoffNum) / backoffDenom in
  let jitter := u32 (MRP_BACKOFF_JITTER_BASE + rand) in
  let mrpBackoffTime := u64 (mrpBackoffTime * jitter) / MRP_BACKOFF_JITTER_BASE in
  let mrpBackoffTime :=
    match icd c with Some i => u64 (mrpBackoffTime + GetFastPollingInterval i) | None => mrpBackoffTime end in
  let mrpBackoffTime := u64 (mrpBackoffTime + sAdditionalMRPBackoffTime c) in
  u32 mrpBackoffTime.

Definition UINT8_MAX : Z := 255.

(** The loop of [GetRetransmissionTimeout], [n] rounds from [i] on. *)
Fixpoint retransmission_loop (c : MrpSettings) (activeInterval idleInterval timeSinceLastActivity activityThreshold : Z)
    (n : nat) (i timeout : Z) : Z :=
  match n with
  | O => timeout
  | S n =>
      let baseInterval := if u64 (timeSinceLastActivity + timeout) <? activityThreshold then activeInterval else idleInterval in
      let timeout := u64 (timeout + GetBackoff c baseInterval i UINT8_MAX) in
      retransmission_loop c activeInterval idleInterval timeSinceLastActivity activityThreshold n (u8 (i + 1)) timeout
  end.

(** [lastActivityTime] has the type [Timeout]: the caller's time stamp is cut to 32 bits. *)
Definition GetRetransmissionTimeout (c : MrpSettings) (now activeInterval idleInterval lastActivityTime activityThreshold : Z) : Z :=
  let lastActivityTime := u32 lastActivityTime in
  let timeSinceLastActivity := u64 (now - lastActivityTime) in
  u32 (retransmission_loop c activeInterval idleInterval timeSinceLastActivity activityThreshold
         (Z.to_nat (CHIP_CONFIG_RMP_DEFAULT_MAX_RETRANS + 1)) 0 0).

(** ** The formula *)

Definition icd_fast (c : MrpSettings) : Z := match icd c with Some i => GetFastPollingInterval i | None => 0 end.

(** The backoff without wrap-around. *)
Definition mrp_backoff (c : MrpSettings) (base n r : Z) : Z :=
  let k := backoff_exponent n in
  base * 1127 / 1024 * 16 ^ k / 10 ^ k * (1024 + r) / 1024 + icd_fast c + sAdditionalMRPBackoffTime c.

(** Settings whose times fit their types. *)
Definition settings_ok (m : Z) (c : MrpSettings) : Prop :=
  0 <= sAdditionalMRPBackoffTime c <= m ∧ 0 <= icd_fast c <= m.

(** One hour: the specification allows no longer interval. *)
Definition hour : Z := 3600000.

Lemma exponent_cases n : backoff_exponent n ∈ [0; 1; 2; 3; 4].
Proof.
  rewrite !elem_of_cons, elem_of_nil. unfold backoff_exponent, MRP_BACKOFF_THRESHOLD.
  rewrite Z.gtb_ltb. repeat zcase; lia.
Qed.

Lemma exponent_mono n n' : n <= n' → backoff_exponent n <= backoff_exponent n'.
Proof.
  intros. unfold backoff_exponent, MRP_BACKOFF_THRESHOLD. rewrite !Z.gtb_ltb.
  destruct (Z.ltb_spec (n - 1) 0), (Z.ltb_spec (n' - 1) 0); repeat zcase; lia.
Qed.

(** Turns a goal about an exponent into the goals of its five values. *)
Ltac exponent_cases n :=
  let H := fresh "Hk" in
  pose proof (exponent_cases n) as H; rewrite ?elem_of_cons, elem_of_nil in H;
  destruct H as [H|[H|[H|[H|[H|H]]]]]; [rewrite H in *..|done].

Lemma backoff_loop_pow k : k ∈ [0; 1; 2; 3; 4] → backoff_loop (Z.to_nat k) 1 1 = (16 ^ k, 10 ^ k).
Proof. rewrite ?elem_of_cons, elem_of_nil. by intros [->|[->|[->|[->|[->|[]]]]]]. Qed.

Lemma scaled_bounds a k J :
  k ∈ [0; 1; 2; 3; 4] → 0 <= a < 2 ^ 33 → 0 <= J < 2 ^ 11 →
  0 <= a * 16 ^ k / 10 ^ k < 2 ^ 36 ∧ 0 <= a * 16 ^ k / 10 ^ k * J / 1024 < 2 ^ 37.
Proof.
  intros Hk Ha HJ. set (b := a * 16 ^ k / 10 ^ k).
  assert (0 <= b < 2 ^ 36) as Hb.
  { subst b. rewrite ?elem_of_cons, elem_of_nil in Hk.
    destruct Hk as [->|[->|[->|[->|[->|[]]]]]]; simpl Z.pow in *; Z.div_mod_to_equations; lia. }
  split; [done|]. split; [apply Z.div_pos; nia|]. apply Z.div_lt_upper_bound; [lia|].
  change (2 ^ 36) with 68719476736 in Hb. change (2 ^ 11) with 2048 in HJ.
  change (2 ^ 37) with 137438953472. nia.
Qed.

Lemma backoff_exact c base n r :
  in_u32 base → in_u8 r → settings_ok (2 ^ 32) c → GetBackoff c base n r = u32 (mrp_backoff c base n r).
Proof.
  intros Hb Hr [Hadd Hicd]. unfold GetBackoff, mrp_backoff.
  unfold MRP_BACKOFF_MARGIN_NUMERATOR, MRP_BACKOFF_MARGIN_DENOMINATOR, MRP_BACKOFF_JITTER_BASE.
  pose proof (exponent_cases n) as Hk. revert Hk. generalize (backoff_exponent n). intros k Hk.
  rewrite backoff_loop_pow by done. rewrite (u64_id (base * 1127)) by solve_width.
  assert (0 <= base * 1127 / 1024 < 2 ^ 33) as Ha by (unfold in_u32 in *; Z.div_mod_to_equations; lia).
  rewrite (u32_id (1024 + r)) by solve_width.
  destruct (scaled_bounds (base * 1127 / 1024) k (1024 + r)) as [H1 H2]; [done..|solve_width|].
  set (a := base * 1127 / 1024) in *.
  assert (in_u64 (a * 16 ^ k)) as Hw.
  { assert (0 <= 16 ^ k <= 65536) by (rewrite ?elem_of_cons, elem_of_nil in Hk;
      destruct Hk as [->|[->|[->|[->|[->|[]]]]]]; simpl; lia).
    change (2 ^ 33) with 8589934592 in Ha. unfold in_u64. change (2 ^ 64) with 18446744073709551616. nia. }
  rewrite (u64_id _ Hw). set (b := a * 16 ^ k / 10 ^ k) in *.
  assert (in_u64 (b * (1024 + r))) as Hw2.
  { unfold in_u64, in_u8 in *. change (2 ^ 36) with 68719476736 in H1. change (2 ^ 64) with 18446744073709551616.
    change (2 ^ 8) with 256 in Hr. nia. }
  rewrite (u64_id _ Hw2). set (t := b * (1024 + r) / 1024) in *.
  f_equal. unfold icd_fast in *. destruct (icd c) as [i|].
  - rewrite (u64_id (t + _)) by (unfold in_u64; lia). rewrite u64_id by (unfold in_u64; lia). done.
  - rewrite u64_id by (unfold in_u64; lia). lia.
Qed.

Lemma mrp_backoff_bounds c base n r :
  0 <= base <= hour → in_u8 r → settings_ok hour c → 0 <= mrp_backoff c base n r < 2 ^ 26.
Proof.
  intros Hb Hr [Hadd Hicd]. unfold mrp_backoff. unfold hour, in_u8 in *. change (2 ^ 8) with 256 in Hr.
  assert (0 <= base * 1127 / 1024 <= 3962110) as Ha by (Z.div_mod_to_equations; lia).
  set (a := base * 1127 / 1024) in *.
  assert (0 <= a * 16 ^ backoff_exponent n / 10 ^ backoff_exponent n <= 25966085) as Hs
    by (exponent_cases n; simpl Z.pow; Z.div_mod_to_equations; lia).
  set (b := a * 16 ^ backoff_exponent n / 10 ^ backoff_exponent n) in *.
  assert (0 <= b * (1024 + r) / 1024 <= 32433000); [|lia].
  split; [apply Z.div_pos; nia|apply Z.div_le_upper_bound; nia].
Qed.

(** [GetBackoff] on the intervals that the specification allows. *)
Lemma backoff_value c base n r :
  0 <= base <= hour → in_u8 r → settings_ok hour c → GetBackoff c base n r = mrp_backoff c base n r.
Proof.
  intros Hb Hr Hc. rewrite backoff_exact; [|unfold hour in *; solve_width|done|unfold settings_ok, hour in *; lia].
  apply u32_id. pose proof (mrp_backoff_bounds c base n r Hb Hr Hc). unfold in_u32. lia.
Qed.

Lemma mrp_backoff_mono c base base' n n' r r' :
  0 <= base <= base' → n <= n' → 0 <= r <= r' → mrp_backoff c base n r <= mrp_backoff c base' n' r'.
Proof.
  intros Hb Hn Hr. unfold mrp_backoff. apply Z.add_le_mono_r, Z.add_le_mono_r.
  assert (base * 1127 / 1024 <= base' * 1127 / 1024) as Ha by (apply Z.div_le_mono; lia).
  assert (0 <= base * 1127 / 1024) as Ha0 by (apply Z.div_pos; lia).
  set (a := base * 1127 / 1024) in *. set (a' := base' * 1127 / 1024) in *.
  assert (a * 16 ^ backoff_exponent n / 10 ^ backoff_exponent n <= a' * 16 ^ backoff_exponent n' / 10 ^ backoff_exponent n') as Hab.
  { pose proof (exponent_mono n n' Hn) as Hm. revert Hm. exponent_cases n; exponent_cases n'; intros Hm; try lia;
      simpl Z.pow; Z.div_mod_to_equations; lia. }
  assert (0 <= a * 16 ^ backoff_exponent n / 10 ^ backoff_exponent n) by (apply Z.div_pos; [|exponent_cases n; done];
    apply Z.mul_nonneg_nonneg; [done|exponent_cases n; done]).
  apply Z.div_le_mono; [lia|]. nia.
Qed.

(** [GetBackoff] loses less than 12 ms to its divisions, against the factors it has itself. *)
Lemma backoff_rounding c base n r :
  0 <= base <= hour → in_u8 r → settings_ok hour c →
  let k := backoff_exponent n in
  let t := GetBackoff c base n r - icd_fast c - sAdditionalMRPBackoffTime c in
  let exact := base * 1127 * 16 ^ k * (1024 + r) in
  1024 * 10 ^ k * 1024 * t <= exact < 1024 * 10 ^ k * 1024 * (t + 12).
Proof.
  intros Hb Hr Hc. cbv zeta. rewrite backoff_value by done. unfold mrp_backoff.
  set (J := 1024 + r). assert (1024 <= J <= 1279) as HJ by (subst J; unfold in_u8 in Hr; change (2 ^ 8) with 256 in Hr; lia).
  replace (_ + icd_fast c + _ - icd_fast c - _) with (base * 1127 / 1024 * 16 ^ backoff_exponent n / 10 ^ backoff_exponent n * J / 1024) by lia.
  clearbody J. clear Hr Hc r.
  pose proof (Z.div_mod (base * 1127) 1024 ltac:(lia)) as E1. pose proof (Z.mod_pos_bound (base * 1127) 1024 ltac:(lia)) as B1.
  set (a := base * 1127 / 1024) in *.
  pose proof (Z.div_mod (a * 16 ^ backoff_exponent n) (10 ^ backoff_exponent n) ltac:(exponent_cases n; done)) as E2.
  pose proof (Z.mod_pos_bound (a * 16 ^ backoff_exponent n) (10 ^ backoff_exponent n) ltac:(exponent_cases n; done)) as B2.
  set (b := a * 16 ^ backoff_exponent n / 10 ^ backoff_exponent n) in *.
  pose proof (Z.div_mod (b * J) 1024 ltac:(lia)) as E3. pose proof (Z.mod_pos_bound (b * J) 1024 ltac:(lia)) as B3.
  set (t := b * J / 1024) in *.
  exponent_cases n; simpl Z.pow in *; nia.
Qed.

(** The formula of the specification, [i * MRP_BACKOFF_BASE^(max(0,n-MRP_BACKOFF_THRESHOLD)) *
    (1.0 + random(0,1) * MRP_BACKOFF_JITTER)] with [i = MRP_BACKOFF_MARGIN * base], in exact
    rational arithmetic; [MRP_BACKOFF_MARGIN] is 1.1, [MRP_BACKOFF_BASE] 1.6 and
    [MRP_BACKOFF_JITTER] 0.25. *)
Definition specified_backoff (base n : Z) (random : Q) : Q :=
  (inject_Z base * 1.1 * 1.6 ^ Z.max 0 (n - MRP_BACKOFF_THRESHOLD) * (1.0 + random * 0.25))%Q.

(** C37: For intervals of at most an hour, send counts up to 5 and settings that add at most an
    hour, [GetBackoff] without what the settings add is the back-off of the specification in
    whole milliseconds: it is less than 12 ms below the formula and at most 0.06 percent above
    it, since the code writes 1.1 as 1127/1024. The random number of the formula is the random
    byte over 256. From count 6 on the code caps the exponent and the formula does not. *)
Theorem backoff_near c base n r :
  0 <= base <= hour → 0 <= n <= 5 → in_u8 r → settings_ok hour c →
  let t := inject_Z (GetBackoff c base n r - icd_fast c - sAdditionalMRPBackoffTime c) in
  let spec := specified_backoff base n (inject_Z r / 256) in
  (spec - 12 < t)%Q ∧ (t <= spec * 1.0006)%Q.
Proof.
  intros Hb Hn Hr Hc. cbv zeta. pose proof (backoff_rounding c base n r Hb Hr Hc) as H. cbv zeta in H.
  set (t := GetBackoff c base n r - icd_fast c - sAdditionalMRPBackoffTime c) in *. clearbody t.
  assert (backoff_exponent n = Z.max 0 (n - MRP_BACKOFF_THRESHOLD)) as Hk.
  { unfold backoff_exponent, MRP_BACKOFF_THRESHOLD. rewrite Z.gtb_ltb.
    destruct (Z.ltb_spec (n - 1) 0); zcase; lia. }
  unfold specified_backoff. rewrite <- Hk in *. clear Hk Hn. unfold in_u8 in Hr. clear Hc.
  exponent_cases n; unfold Qlt, Qle; cbn [Z.pow Z.pow_pos Pos.iter] in *; cbn; lia.
Qed.

(** ** The time until a sender gives up *)

(** A message is sent at [now] and never acknowledged, and every timer is on time: when round
    [i] of [n] ends. [base_at t] is the interval that the sender uses at [t]. *)
Fixpoint give_up_time (c : MrpSettings) (base_at rand : Z → Z) (n : nat) (i now : Z) : Z :=
  match n with
  | O => now
  | S n => give_up_time c base_at rand n (i + 1) (now + GetBackoff c (base_at now) i (rand i))
  end.

Section GiveUp.
Context (c : MrpSettings) (active idle threshold last start : Z) (base_at rand : Z → Z).
Context (Hsettings : settings_ok hour c) (Hactive : 0 <= active <= idle) (Hidle : idle <= hour).
Context (Hlast : 0 <= last <= start).
Context (Hbase : ∀ t, 0 <= base_at t <= if t - last <? threshold then active else idle).
Context (Hrand : ∀ i, in_u8 (rand i)).

Lemma give_up_loop n i now timeout :
  0 <= i → i + Z.of_nat n < 2 ^ 8 → start <= now <= start + timeout →
  0 <= timeout <= i * 2 ^ 26 → start - last + 2 ^ 34 < 2 ^ 64 →
  let T := retransmission_loop c active idle (start - last) threshold n i timeout in
  give_up_time c base_at rand n i now <= start + T ∧ 0 <= T <= (i + Z.of_nat n) * 2 ^ 26.
Proof using All.
  revert i now timeout. induction n as [|n IH]; intros i now timeout Hi Hn Hnow Ht Hw; simpl.
  { lia. }
  rewrite (u64_id (start - last + timeout)) by (unfold in_u64; lia).
  set (b := if start - last + timeout <? threshold then active else idle).
  assert (base_at now <= b) as Hb.
  { specialize (Hbase now). subst b. destruct (Z.ltb_spec (start - last + timeout) threshold).
    - destruct (Z.ltb_spec (now - last) threshold); lia.
    - destruct (now - last <? threshold); lia. }
  assert (0 <= base_at now) as Hb0 by (specialize (Hbase now); lia).
  assert (b <= hour) as Hbh by (subst b; destruct (_ <? _); lia).
  specialize (Hrand i) as Hr.
  rewrite (backoff_value c b i UINT8_MAX), (backoff_value c (base_at now)) by (done || lia || (unfold UINT8_MAX; solve_width)).
  assert (mrp_backoff c (base_at now) i (rand i) <= mrp_backoff c b i UINT8_MAX) as Hm.
  { apply mrp_backoff_mono; [lia..|]. unfold in_u8, UINT8_MAX in *. lia. }
  pose proof (mrp_backoff_bounds c b i UINT8_MAX ltac:(lia) ltac:(unfold UINT8_MAX; solve_width) Hsettings) as B.
  pose proof (mrp_backoff_bounds c (base_at now) i (rand i) ltac:(lia) Hr Hsettings) as B'.
  rewrite (u64_id (timeout + _)) by (unfold in_u64; nia). rewrite (u8_id (i + 1)) by (unfold in_u8; lia).
  specialize (IH (i + 1) (now + mrp_backoff c (base_at now) i (rand i)) (timeout + mrp_backoff c b i UINT8_MAX)).
  cbv zeta in IH. rewrite Nat2Z.inj_succ. replace (i + Z.succ (Z.of_nat n)) with (i + 1 + Z.of_nat n) by lia.
  apply IH; rewrite ?Nat2Z.inj_succ in *; lia.
Qed.
End GiveUp.

(** C28: For a peer whose active interval is not longer than its idle interval, intervals of at
    most an hour, and a last activity before [2^32] ms: the timeout that a session computes for
    an acknowledgement is not shorter than the time in which the sender tries all its
    retransmissions, whatever the random bytes are. At each time [t] the sender may use an
    interval up to the one that the silence of the peer at [t] gives. Without the first
    condition the timeout may be too short ([ack_timeout_active_above_idle]), without the last
    far too long ([ack_timeout_truncates]). *)
Theorem ack_timeout_covers_retries c active idle threshold last start base_at rand :
  settings_ok hour c → 0 <= active <= idle → idle <= hour → 0 <= last <= start → last < 2 ^ 32 → start < 2 ^ 63 →
  (∀ t, 0 <= base_at t <= if t - last <? threshold then active else idle) → (∀ i, in_u8 (rand i)) →
  give_up_time c base_at rand (Z.to_nat (CHIP_CONFIG_RMP_DEFAULT_MAX_RETRANS + 1)) 0 start <=
    start + GetRetransmissionTimeout c start active idle last threshold.
Proof.
  intros Hc Ha Hi Hl Hl32 Hs Hb Hr. unfold GetRetransmissionTimeout.
  rewrite (u32_id last) by solve_width. rewrite (u64_id (start - last)) by (unfold in_u64; lia).
  destruct (give_up_loop c active idle threshold last start base_at rand Hc Ha Hi Hl Hb Hr
    (Z.to_nat (CHIP_CONFIG_RMP_DEFAULT_MAX_RETRANS + 1)) 0 start 0) as [H1 H2].
  1-5: change (Z.of_nat (Z.to_nat (CHIP_CONFIG_RMP_DEFAULT_MAX_RETRANS + 1))) with 5; lia.
  rewrite u32_id; [done|].
  change (Z.of_nat (Z.to_nat (CHIP_CONFIG_RMP_DEFAULT_MAX_RETRANS + 1))) with 5 in H2. unfold in_u32. lia.
Qed.

Definition plain_settings : MrpSettings := mkSettings 500 300 0 None 0 None None None None.

(** The settings without a sleepy device. *)
Lemma plain_settings_ok : settings_ok hour plain_settings.
Proof. done. Qed.

Lemma backoff_near_witness :
  GetBackoff plain_settings 300 4 255 = 1687 ∧
  (specified_backoff 300 4 (inject_Z 255 / 256) - 12 < inject_Z (1687 - 0 - 0))%Q ∧
  (inject_Z (1687 - 0 - 0) <= specified_backoff 300 4 (inject_Z 255 / 256) * 1.0006)%Q.
Proof.
  split; [reflexivity|].
  exact (backoff_near plain_settings 300 4 255 ltac:(unfold hour; lia) ltac:(lia) ltac:(solve_width) plain_settings_ok).
Defined.

Lemma ack_timeout_covers_retries_witness :
  give_up_time plain_settings (λ _, 300) (λ _, 17) 5 0 1000 <= 1000 + GetRetransmissionTimeout plain_settings 1000 300 500 900 4000.
Proof.
  apply (ack_timeout_covers_retries plain_settings 300 500 4000 900 1000 (λ _, 300) (λ _, 17));
    [exact plain_settings_ok|unfold hour; lia..| |intros; solve_width].
  intros t. destruct (_ <? _); lia.
Defined.

(** An active interval above the idle interval: the computed timeout supposes that the peer goes
    idle early and ends while a sender that sees it active is still trying. *)
Lemma ack_timeout_active_above_idle :
  GetRetransmissionTimeout plain_settings 0 4000 300 0 4500 = 9310 ∧
  give_up_time plain_settings (λ t, if t <? 4500 then 4000 else 300) (λ _, 0) 5 0 0 = 11527.
Proof. split; reflexivity. Qed.

(** A peer that was active half a second ago counts as idle in the computed timeout once the
    clock is past [2^32] milliseconds (49.7 days), since the time of its activity is cut to 32
    bits: with an idle interval of 5 s the result is 70 s, and 4 s just after boot. *)
Theorem ack_timeout_truncates :
  GetRetransmissionTimeout plain_settings 1000 300 5000 500 4000 = 4224 ∧
  GetRetransmissionTimeout plain_settings (2 ^ 32 + 1000) 300 5000 (2 ^ 32 + 500) 4000 = 70478.
Proof. split; reflexivity. Qed.

(** ** The local configuration *)

(** A configuration set at run time is the one that is advertised, unless the device sleeps or
    a test overrides it; nothing is advertised for the default. *)
Lemma set_local_config c d b c' :
  icd c = None → idleRetransTimeoutOverride c = None → activeRetransTimeoutOverride c = None →
  activeThresholdTimeOverride c = None → SetLocalMRPConfig (Some d) c = (b, c') →
  default GetDefaultMRPConfig (GetLocalMRPConfig c') = d ∧
  (b = false ↔ GetLocalMRPConfig c' = GetLocalMRPConfig c).
Proof.
  intros Hi H1 H2 H3 [= <- <-]. split.
  - unfold GetLocalMRPConfig, set_dynamic; simpl; rewrite Hi, H1, H2, H3. simpl. by case_decide.
  - rewrite bool_decide_eq_false. destruct (decide (GetLocalMRPConfig c = GetLocalMRPConfig (set_dynamic (Some d) c))) as [E|E];
      naive_solver.
Qed.

(** The override of the active threshold takes the value of the override of the active
    interval. *)
Lemma threshold_override_ignored c idle active threshold :
  in_u16 active → active ≠ 300 →
  GetLocalMRPConfig (OverrideLocalMRPConfig idle active threshold c) = Some (mkMrp idle active active).
Proof.
  intros Ha Hne. unfold GetLocalMRPConfig, OverrideLocalMRPConfig; cbn. rewrite (u16_id active) by done.
  case_decide as E; [|done]. unfold GetDefaultMRPConfig in E. simplify_eq.
Qed.
