(* ===== verification/ExchTypes.v ===== *)
(** * The exchange layer: state

    The state of [ExchangeManager], [ExchangeContext], [ReliableMessageContext] and
    [ReliableMessageMgr] (src/src/messaging): the pool of exchanges, the table of messages
    that wait for an acknowledgement, the timers, and the sessions they use. The operations
    are in a monad over this state, in which a call can die. *)

From S2P Require Import Prelude.
From S2P Require Import ChipError.
From S2P Require Import MessageHeader.
From S2P Require Import Mrp.

(** ** Flags of an exchange *)

Inductive Flag :=
| kFlagInitiator
| kFlagResponseExpected
| kFlagAutoRequestAck
| kFlagWaitingForAck
| kFlagAckPending
| kFlagAckMessageCounterIsValid
| kFlagWillSendMessage
| kFlagClosed
| kFlagEphemeralExchange
| kFlagIgnoreSessionRelease
| kFlagReceivedAtLeastOneMessage
| kFlagWaitingForResponseOrAck.

#[export] Instance Flag_eq_dec : EqDecision Flag.
Proof. solve_decision. Defined.

(** The bit of a flag in the [uint16_t]. *)
Definition flag_bit (f : Flag) : Z :=
  match f with
  | kFlagInitiator => 0
  | kFlagResponseExpected => 1
  | kFlagAutoRequestAck => 2
  | kFlagWaitingForAck => 3
  | kFlagAckPending => 4
  | kFlagAckMessageCounterIsValid => 5
  | kFlagWillSendMessage => 6
  | kFlagClosed => 7
  | kFlagEphemeralExchange => 8
  | kFlagIgnoreSessionRelease => 9
  | kFlagReceivedAtLeastOneMessage => 10
  | kFlagWaitingForResponseOrAck => 11
  end.

(** [BitFlags::Has] and [BitFlags::Set(flag, isSet)]. *)
Definition Flags_Has (f : Flag) (v : Z) : bool := Z.testbit v (flag_bit f).
Definition Flags_Set (f : Flag) (isSet : bool) (v : Z) : Z :=
  if isSet then Z.setbit v (flag_bit f) else Z.clearbit v (flag_bit f).

Lemma flag_bit_inj f g : flag_bit f = flag_bit g → f = g.
Proof. by destruct f, g. Qed.

Lemma flag_bit_nonneg f : 0 <= flag_bit f.
Proof. by destruct f. Qed.

Lemma Flags_Has_Set f g b v : Flags_Has g (Flags_Set f b v) = if decide (f = g) then b else Flags_Has g v.
Proof.
  unfold Flags_Has, Flags_Set. pose proof (flag_bit_nonneg f). pose proof (flag_bit_nonneg g).
  case_decide as E.
  - subst g. destruct b; [by rewrite Z.setbit_eq|by rewrite Z.clearbit_eq].
  - assert (flag_bit f ≠ flag_bit g) as Hne by (intros Hb; by apply E, flag_bit_inj).
    destruct b; [by rewrite Z.setbit_neq|by rewrite Z.clearbit_neq].
Qed.

Lemma Flags_Has_0 f : Flags_Has f 0 = false.
Proof. apply Z.testbit_0_l. Qed.

(** ** Sessions *)

Inductive SessionType := kUnauthenticated | kSecure | kGroupIncoming | kGroupOutgoing.

#[export] Instance SessionType_eq_dec : EqDecision SessionType.
Proof. solve_decision. Defined.

(** [SecureSession::State]; the other sessions have no state. *)
Inductive SecureState := kEstablishing | kActive | kDefunct | kPendingEviction.

#[export] Instance SecureState_eq_dec : EqDecision SecureState.
Proof. solve_decision. Defined.

(** What the exchange layer uses of a session: its type, whether it is a CASE session, its
    state, whether its transport is UDP, the intervals of the peer, and when the peer was last
    heard. *)
Record Session := mkSession {
  s_type : SessionType;
  s_case : bool;
  s_state : SecureState;
  s_udp : bool;
  s_remote : MrpConfig;
  s_lastPeerActivity : Z
}.

Definition set_s_state (st : SecureState) (sess : Session) : Session :=
  mkSession (s_type sess) (s_case sess) st (s_udp sess) (s_remote sess) (s_lastPeerActivity sess).

Definition Session_IsGroupSession (sess : Session) : bool :=
  bool_decide (s_type sess = kGroupIncoming) || bool_decide (s_type sess = kGroupOutgoing).
Definition IsSecureSession (sess : Session) : bool := bool_decide (s_type sess = kSecure).
Definition IsCASESession (sess : Session) : bool := s_case sess.

Definition AllowsMRP (sess : Session) : bool :=
  match s_type sess with kGroupIncoming | kGroupOutgoing => false | _ => s_udp sess end.

Definition IsActiveSession (sess : Session) : bool :=
  match s_type sess with kSecure => bool_decide (s_state sess = kActive) | _ => true end.

Definition IsPeerActive (now : Z) (sess : Session) : bool :=
  u64 (now - s_lastPeerActivity sess) <? mActiveThresholdTime (s_remote sess).

Definition GetMRPBaseTimeout (now : Z) (sess : Session) : Z :=
  match s_type sess with
  | kGroupIncoming | kGroupOutgoing => 0
  | _ => if IsPeerActive now sess then mActiveRetransTimeout (s_remote sess) else mIdleRetransTimeout (s_remote sess)
  end.

(** ** Which messages an exchange may carry *)

Definition SecureChannel_Id : ProtocolId := mkProtocolId VendorId_Common 0.
Definition StandaloneAck : Z := 0x10.

(** [PBKDFParamRequest] to [PASE_Pake3], and [CASE_Sigma1] to [CASE_Sigma2Resume]. *)
Definition establishes_session (type : Z) : bool :=
  ((0x20 <=? type) && (type <=? 0x24)) || ((0x30 <=? type) && (type <=? 0x33)).

Definition StatusReport : Z := 0x40.

(** [ApplicationExchangeDispatch], [EphemeralExchangeDispatch] and
    [SessionEstablishmentExchangeDispatch]. *)
Inductive Dispatch := ApplicationDispatch | EphemeralDispatch | SessionEstablishmentDispatch.

#[export] Instance Dispatch_eq_dec : EqDecision Dispatch.
Proof. solve_decision. Defined.

Definition MessagePermitted (d : Dispatch) (protocol : ProtocolId) (type : Z) : bool :=
  match d with
  | ApplicationDispatch => negb (bool_decide (protocol = SecureChannel_Id) && establishes_session type)
  | EphemeralDispatch => bool_decide (protocol = SecureChannel_Id) && (type =? StandaloneAck)
  | SessionEstablishmentDispatch =>
      bool_decide (protocol = SecureChannel_Id) && ((type =? StandaloneAck) || establishes_session type || (type =? StatusReport))
  end.

(** ** Exchanges *)

(** [ec_owner] and [ec_uid] are not in the source: whether the reference of the exchange's
    creator is still there, and a number that no other exchange ever has. *)
Record ExchangeContext := mkEC {
  ec_mFlags : Z;
  ec_mNextAckTime : Z;
  ec_mPendingPeerAckMessageCounter : Z;
  ec_mResponseTimeout : Z;
  ec_mDelegate : option nat;
  ec_mSession : option nat;
  ec_mExchangeId : Z;
  ec_mDispatch : Dispatch;
  ec_mRefCount : Z;
  ec_owner : bool;
  ec_uid : nat
}.

Definition ecset_flags v c := mkEC v (ec_mNextAckTime c) (ec_mPendingPeerAckMessageCounter c) (ec_mResponseTimeout c) (ec_mDelegate c) (ec_mSession c) (ec_mExchangeId c) (ec_mDispatch c) (ec_mRefCount c) (ec_owner c) (ec_uid c).
Definition ecset_nextAck v c := mkEC (ec_mFlags c) v (ec_mPendingPeerAckMessageCounter c) (ec_mResponseTimeout c) (ec_mDelegate c) (ec_mSession c) (ec_mExchangeId c) (ec_mDispatch c) (ec_mRefCount c) (ec_owner c) (ec_uid c).
Definition ecset_pending v c := mkEC (ec_mFlags c) (ec_mNextAckTime c) v (ec_mResponseTimeout c) (ec_mDelegate c) (ec_mSession c) (ec_mExchangeId c) (ec_mDispatch c) (ec_mRefCount c) (ec_owner c) (ec_uid c).
Definition ecset_timeout v c := mkEC (ec_mFlags c) (ec_mNextAckTime c) (ec_mPendingPeerAckMessageCounter c) v (ec_mDelegate c) (ec_mSession c) (ec_mExchangeId c) (ec_mDispatch c) (ec_mRefCount c) (ec_owner c) (ec_uid c).
Definition ecset_delegate v c := mkEC (ec_mFlags c) (ec_mNextAckTime c) (ec_mPendingPeerAckMessageCounter c) (ec_mResponseTimeout c) v (ec_mSession c) (ec_mExchangeId c) (ec_mDispatch c) (ec_mRefCount c) (ec_owner c) (ec_uid c).
Definition ecset_session v c := mkEC (ec_mFlags c) (ec_mNextAckTime c) (ec_mPendingPeerAckMessageCounter c) (ec_mResponseTimeout c) (ec_mDelegate c) v (ec_mExchangeId c) (ec_mDispatch c) (ec_mRefCount c) (ec_owner c) (ec_uid c).
Definition ecset_ref v c := mkEC (ec_mFlags c) (ec_mNextAckTime c) (ec_mPendingPeerAckMessageCounter c) (ec_mResponseTimeout c) (ec_mDelegate c) (ec_mSession c) (ec_mExchangeId c) (ec_mDispatch c) v (ec_owner c) (ec_uid c).
Definition ecset_owner v c := mkEC (ec_mFlags c) (ec_mNextAckTime c) (ec_mPendingPeerAckMessageCounter c) (ec_mResponseTimeout c) (ec_mDelegate c) (ec_mSession c) (ec_mExchangeId c) (ec_mDispatch c) (ec_mRefCount c) v (ec_uid c).

(** Test and change of a flag of an exchange. *)
Definition ec_has (f : Flag) (c : ExchangeContext) : bool := Flags_Has f (ec_mFlags c).
Definition ec_set (f : Flag) (b : bool) (c : ExchangeContext) : ExchangeContext := ecset_flags (Flags_Set f b (ec_mFlags c)) c.

Lemma ec_has_set f g b c : ec_has g (ec_set f b c) = if decide (f = g) then b else ec_has g c.
Proof. apply Flags_Has_Set. Qed.

(** The other fields do not matter to the flags. *)
Lemma ec_has_nextAck f v c : ec_has f (ecset_nextAck v c) = ec_has f c.
Proof. done. Qed.
Lemma ec_has_pending f v c : ec_has f (ecset_pending v c) = ec_has f c.
Proof. done. Qed.
Lemma ec_has_timeout f v c : ec_has f (ecset_timeout v c) = ec_has f c.
Proof. done. Qed.
Lemma ec_has_delegate f v c : ec_has f (ecset_delegate v c) = ec_has f c.
Proof. done. Qed.
Lemma ec_has_session f v c : ec_has f (ecset_session v c) = ec_has f c.
Proof. done. Qed.
Lemma ec_has_ref f v c : ec_has f (ecset_ref v c) = ec_has f c.
Proof. done. Qed.
Lemma ec_has_owner f v c : ec_has f (ecset_owner v c) = ec_has f c.
Proof. done. Qed.

Create Rewrite HintDb ecflags.
#[export] Hint Rewrite ec_has_set ec_has_nextAck ec_has_pending ec_has_timeout ec_has_delegate ec_has_session ec_has_ref ec_has_owner : ecflags.

Definition IsAckPending : ExchangeContext → bool := ec_has kFlagAckPending.
Definition IsWaitingForAck : ExchangeContext → bool := ec_has kFlagWaitingForAck.
Definition HasPiggybackAckPending : ExchangeContext → bool := ec_has kFlagAckMessageCounterIsValid.
Definition IsResponseExpected : ExchangeContext → bool := ec_has kFlagResponseExpected.
Definition IsSendExpected : ExchangeContext → bool := ec_has kFlagWillSendMessage.

(** [retainedBuf] is known by its message counter; [None] is the null handle. *)
Record RetransTableEntry := mkEntry {
  re_ec : nat;
  re_retainedBuf : option Z;
  re_nextRetransTime : Z;
  re_sendCount : Z
}.

(** ** What the layer does to the outside *)

Inductive Event :=
| EvReceived (uid : nat) (counter : Z) (needsAck : bool)
| EvSent (uid : nat) (counter : Z) (header : PayloadHeader)
| EvResent (uid : nat) (counter : Z) (err : chip_error)
| EvDelivered (uid : nat) (counter : Z) (waiting : bool)
| EvResponseTimeout (uid : nat)
| EvClosing (uid : nat)
| EvSessionHang (session : nat).

Record World := mkWorld {
  w_now : Z;
  w_tick : nat;
  w_contexts : list (option ExchangeContext);
  w_table : list (option RetransTableEntry);
  w_sessions : list Session;
  w_timer : option Z;
  w_responseTimers : gmap nat Z;
  w_nextExchangeId : Z;
  w_nextUid : nat;
  w_trace : list Event
}.

Definition wset_now v w := mkWorld v (w_tick w) (w_contexts w) (w_table w) (w_sessions w) (w_timer w) (w_responseTimers w) (w_nextExchangeId w) (w_nextUid w) (w_trace w).
Definition wset_tick v w := mkWorld (w_now w) v (w_contexts w) (w_table w) (w_sessions w) (w_timer w) (w_responseTimers w) (w_nextExchangeId w) (w_nextUid w) (w_trace w).
Definition wset_contexts v w := mkWorld (w_now w) (w_tick w) v (w_table w) (w_sessions w) (w_timer w) (w_responseTimers w) (w_nextExchangeId w) (w_nextUid w) (w_trace w).
Definition wset_table v w := mkWorld (w_now w) (w_tick w) (w_contexts w) v (w_sessions w) (w_timer w) (w_responseTimers w) (w_nextExchangeId w) (w_nextUid w) (w_trace w).
Definition wset_sessions v w := mkWorld (w_now w) (w_tick w) (w_contexts w) (w_table w) v (w_timer w) (w_responseTimers w) (w_nextExchangeId w) (w_nextUid w) (w_trace w).
Definition wset_timer v w := mkWorld (w_now w) (w_tick w) (w_contexts w) (w_table w) (w_sessions w) v (w_responseTimers w) (w_nextExchangeId w) (w_nextUid w) (w_trace w).
Definition wset_responseTimers v w := mkWorld (w_now w) (w_tick w) (w_contexts w) (w_table w) (w_sessions w) (w_timer w) v (w_nextExchangeId w) (w_nextUid w) (w_trace w).
Definition wset_ids e u w := mkWorld (w_now w) (w_tick w) (w_contexts w) (w_table w) (w_sessions w) (w_timer w) (w_responseTimers w) e u (w_trace w).
Definition wset_trace v w := mkWorld (w_now w) (w_tick w) (w_contexts w) (w_table w) (w_sessions w) (w_timer w) (w_responseTimers w) (w_nextExchangeId w) (w_nextUid w) v.

(** ** The monad *)

(** How the program can end: [VerifyOrDie] fails, a freed object of a pool is used, or the
    system layer refuses the timer of the retransmissions. *)
Inductive death := VerifyFailed | FreedObject | TimerRefused.

Inductive result (A : Type) := Done (a : A) (w : World) | Died (d : death).
Arguments Done {A} a w.
Arguments Died {A} d.

Definition M (A : Type) : Type := World → result A.

#[export] Instance M_ret : MRet M := λ A a w, Done a w.
#[export] Instance M_bind : MBind M := λ A B k m w, match m w with Done a w' => k a w' | Died d => Died d end.

Definition die {A} (d : death) : M A := λ _, Died d.
Definition get : M World := λ w, Done w w.
Definition modify (f : World → World) : M () := λ w, Done () (f w).
Definition VerifyOrDie (b : bool) : M () := if b then mret () else die VerifyFailed.
Definition when (b : bool) (m : M ()) : M () := if b then m else mret ().
Definition emit (e : Event) : M () := modify (λ w, wset_trace (e :: w_trace w) w).

(** An answer of the environment: [f] at the number of answers given so far. *)
Definition ask {A} (f : nat → A) : M A := λ w, Done (f (w_tick w)) (wset_tick (S (w_tick w)) w).

(** The functor of [ForEachActiveObject] on the elements of a list; [true] stops. *)
Fixpoint for_each {A} (f : A → M bool) (l : list A) : M () :=
  match l with
  | [] => mret ()
  | x :: l => stop ← f x; if stop : bool then mret () else for_each f l
  end.

(** ** Pools *)

(** The indices of the objects of a pool that are in use. *)
Definition active_indices {A} (pool : list (option A)) : list nat :=
  filter (λ i, is_Some (mjoin (pool !! i))) (seq 0 (length pool)).

(** [StaticAllocatorBitmap::Allocate]: the first free index. *)
Fixpoint free_index {A} (i : nat) (pool : list (option A)) : option nat :=
  match pool with
  | [] => None
  | None :: _ => Some i
  | Some _ :: pool => free_index (S i) pool
  end.

Definition get_ec (k : nat) : M ExchangeContext := λ w,
  match w_contexts w !! k with Some (Some c) => Done c w | _ => Died FreedObject end.
Definition put_ec (k : nat) (c : ExchangeContext) : M () :=
  modify (λ w, wset_contexts (<[k := Some c]> (w_contexts w)) w).
Definition modify_ec (k : nat) (f : ExchangeContext → ExchangeContext) : M () :=
  c ← get_ec k; put_ec k (f c).

Definition get_entry (i : nat) : M RetransTableEntry := λ w,
  match w_table w !! i with Some (Some e) => Done e w | _ => Died FreedObject end.
Definition put_entry (i : nat) (e : option RetransTableEntry) : M () :=
  modify (λ w, wset_table (<[i := e]> (w_table w)) w).

Definition get_session (s : nat) : M Session := λ w,
  match w_sessions w !! s with Some sess => Done sess w | None => Died FreedObject end.
Definition put_session (s : nat) (sess : Session) : M () :=
  modify (λ w, wset_sessions (<[s := sess]> (w_sessions w)) w).
