(* ===== verification/ExchOps.v ===== *)
(** * The exchange layer: operations

    [ReliableMessageMgr], [ReliableMessageContext], [ExchangeMessageDispatch] and
    [ExchangeContext] (src/src/messaging), for sockets and without the ICD server, TCP
    end points and the address update after a first failure, which are options of the build.

    What the layer calls is [Env]: encryption and transport ([SessionManager]), buffers,
    timers, random bytes, and the application's delegates. An answer of the environment
    depends on how many it has given. The pools have at most as many objects as a word of the
    allocator has bits, so an iteration sees the objects in use when it starts. *)

From S2P Require Import Prelude.
From S2P Require Import ChipError.
From S2P Require Import MessageHeader.
From S2P Require Import Mrp.
From S2P Require Import ExchTypes.

(** [SendMessageFlags]. *)
Record SendFlags := mkSendFlags { kExpectResponse : bool; kNoAutoRequestAck : bool }.

(** What a delegate does with an exchange that it owns. *)
Inductive AppAction :=
| ActSend (protocol : ProtocolId) (type : Z) (flags : SendFlags)
| ActWillSend
| ActSetResponseTimeout (timeout : Z)
| ActClose
| ActAbort.

Record Env := mkEnv {
  env_settings : MrpSettings;
  env_rand : nat → Z;
  env_prepare : nat → chip_error * Z;
  env_send : nat → chip_error;
  env_buffer : nat → bool;
  env_timer : nat → chip_error;
  env_establishes : nat → bool;
  env_message : nat → list AppAction * chip_error;
  env_timeout : nat → list AppAction;
  env_unsolicited : nat → chip_error * option nat
}.

Section Ops.
Context (E : Env).

(** ** Errors *)

Definition MapSendError (error : chip_error) : chip_error :=
  if decide (error = CHIP_ERROR_POSIX_ENOBUFS) then CHIP_NO_ERROR else error.

Definition IsPlatformErrorNonCritical (err : chip_error) : bool :=
  bool_decide (err = CHIP_ERROR_POSIX_EHOSTUNREACH) || bool_decide (err = CHIP_ERROR_POSIX_ENETUNREACH) ||
  bool_decide (err = CHIP_ERROR_POSIX_EADDRNOTAVAIL) || bool_decide (err = CHIP_ERROR_POSIX_EPIPE).

Definition IsSendErrorNonCritical (err : chip_error) : bool :=
  bool_decide (err = CHIP_ERROR_NOT_IMPLEMENTED) || bool_decide (err = CHIP_ERROR_OUTBOUND_MESSAGE_TOO_BIG) ||
  bool_decide (err = CHIP_ERROR_MESSAGE_TOO_LONG) || bool_decide (err = CHIP_ERROR_NO_MEMORY) || IsPlatformErrorNonCritical err.

Definition ok (err : chip_error) : bool := bool_decide (err = CHIP_NO_ERROR).

(** ** References *)

Definition UINT32_MAX : Z := 2 ^ 32 - 1.
Definition UINT64_MAX : Z := 2 ^ 64 - 1.

Definition Retain (k : nat) : M () :=
  c ← get_ec k;
  _ ← VerifyOrDie (0 <? ec_mRefCount c);
  _ ← VerifyOrDie (ec_mRefCount c <? UINT32_MAX);
  put_ec k (ecset_ref (ec_mRefCount c + 1) c).

(** [~ExchangeContext] and the return of the object to its pool. The exchange must be closed,
    so that [DoClose] of the destructor does nothing. *)
Definition ReleaseContext (k : nat) : M () :=
  c ← get_ec k;
  _ ← VerifyOrDie (ec_mRefCount c =? 0);
  _ ← VerifyOrDie (ec_has kFlagClosed c);
  modify (λ w, wset_contexts (<[k := None]> (w_contexts w)) w).

Definition Release (k : nat) : M () :=
  c ← get_ec k;
  _ ← VerifyOrDie (negb (ec_mRefCount c =? 0));
  _ ← put_ec k (ecset_ref (ec_mRefCount c - 1) c);
  when (ec_mRefCount c - 1 =? 0) (ReleaseContext k).

(** ** Timers *)

Definition earlier (t : Z) (next : Z) : Z := if t <? next then t else next.

Definition ack_deadline (o : option ExchangeContext) (next : Z) : Z :=
  match o with
  | Some c => if IsAckPending c then earlier (ec_mNextAckTime c) next else next
  | None => next
  end.

Definition entry_deadline (o : option RetransTableEntry) (next : Z) : Z :=
  match o with Some e => earlier (re_nextRetransTime e) next | None => next end.

Definition StopTimer : M () := modify (wset_timer None).

Definition StartTimer : M () :=
  w ← get;
  let nextWakeTime := foldl (λ next o, ack_deadline o next) UINT64_MAX (w_contexts w) in
  let nextWakeTime := foldl (λ next o, entry_deadline o next) nextWakeTime (w_table w) in
  _ ← StopTimer;
  if negb (nextWakeTime =? UINT64_MAX) then
    let nextWakeDelay := if nextWakeTime >? w_now w then nextWakeTime - w_now w else 0 in
    err ← ask (env_timer E);
    if ok err then modify (wset_timer (Some (w_now w + nextWakeDelay))) else die TimerRefused
  else mret ().

(** ** The table of retransmissions *)

Definition SetWaitingForAck (waitingForAck : bool) (k : nat) : M () := modify_ec k (ec_set kFlagWaitingForAck waitingForAck).

(** [mRetransTable.ReleaseObject]: the destructor of the entry, which drops its reference. *)
Definition ReleaseEntry (i : nat) : M () :=
  e ← get_entry i;
  _ ← SetWaitingForAck false (re_ec e);
  _ ← Release (re_ec e);
  put_entry i None.

Definition ClearRetransTable (i : nat) : M () :=
  _ ← ReleaseEntry i;
  StartTimer.

Definition AddToRetransTable (k : nat) : M (chip_error + nat) :=
  c ← get_ec k;
  if IsWaitingForAck c then mret (inl CHIP_ERROR_INCORRECT_STATE) else
  w ← get;
  match free_index 0 (w_table w) with
  | None => mret (inl CHIP_ERROR_RETRANS_TABLE_FULL)
  | Some i =>
      _ ← Retain k;
      _ ← put_entry i (Some (mkEntry k None 0 0));
      _ ← SetWaitingForAck true k;
      mret (inr i)
  end.

(** [GetSessionHandle]: the exchange must have a session. *)
Definition GetSessionHandle (c : ExchangeContext) : M nat :=
  match ec_mSession c with Some s => mret s | None => die VerifyFailed end.

Definition GetRemoteMRPConfig (sess : Session) : M MrpConfig :=
  _ ← VerifyOrDie (negb (Session_IsGroupSession sess));
  mret (s_remote sess).

Definition CalculateNextRetransTime (i : nat) : M () :=
  e ← get_entry i;
  c ← get_ec (re_ec e);
  s ← GetSessionHandle c;
  sess ← get_session s;
  w ← get;
  baseTimeout ← (if ec_has kFlagReceivedAtLeastOneMessage c
                 then config ← GetRemoteMRPConfig sess; mret (mActiveRetransTimeout config)
                 else mret (GetMRPBaseTimeout (w_now w) sess));
  rand ← ask (env_rand E);
  let backoff := GetBackoff (env_settings E) (u32 baseTimeout) (re_sendCount e) rand in
  put_entry i (Some (mkEntry (re_ec e) (re_retainedBuf e) (u64 (w_now w + backoff)) (re_sendCount e))).

Definition StartRetransmision (i : nat) : M () :=
  _ ← CalculateNextRetransTime i;
  StartTimer.

(** The first entry of the table that [f] accepts. *)
Fixpoint find_entry (f : RetransTableEntry → bool) (i : nat) (t : list (option RetransTableEntry)) : option nat :=
  match t with
  | [] => None
  | Some e :: t => if f e then Some i else find_entry f (S i) t
  | None :: t => find_entry f (S i) t
  end.

Definition CheckAndRemRetransTable (k : nat) (ackMessageCounter : Z) : M bool :=
  w ← get;
  match find_entry (λ e, bool_decide (re_ec e = k) && bool_decide (re_retainedBuf e = Some ackMessageCounter)) 0 (w_table w) with
  | Some i => _ ← ClearRetransTable i; mret true
  | None => mret false
  end.

(** [ClearRetransTable] of the message of an exchange. *)
Definition ClearRetransTable_of (k : nat) : M () :=
  w ← get;
  match find_entry (λ e, bool_decide (re_ec e = k)) 0 (w_table w) with
  | Some i => ClearRetransTable i
  | None => mret ()
  end.

Definition SendFromRetransTable (i : nat) : M chip_error :=
  e ← get_entry i;
  c ← get_ec (re_ec e);
  match ec_mSession c with
  | None => _ ← ClearRetransTable i; mret CHIP_ERROR_INCORRECT_STATE
  | Some _ =>
      err ← ask (env_send E);
      let err := MapSendError err in
      _ ← emit (EvResent (ec_uid c) (default 0 (re_retainedBuf e)) err);
      _ ← when (negb (ok err)) (ClearRetransTable i);
      mret err
  end.

(** ** Sessions *)

Definition MarkAsDefunct (s : nat) : M () :=
  sess ← get_session s;
  match s_state sess with
  | kEstablishing => die VerifyFailed
  | kActive => put_session s (set_s_state kDefunct sess)
  | kDefunct | kPendingEviction => mret ()
  end.

Definition MarkAsDefunctIfCASE (s : nat) : M () :=
  sess ← get_session s;
  when (IsSecureSession sess && IsCASESession sess) (MarkAsDefunct s).

Definition NotifySessionHang (s : nat) : M () := emit (EvSessionHang s).

(** ** Sending *)

Definition SetAckPending (b : bool) : ExchangeContext → ExchangeContext := ec_set kFlagAckPending b.

(** The header built so far goes with the message; [PrepareMessage] gives it a counter. *)
Definition PrepareAndSendNonMRPMessage (k : nat) (payloadHeader : PayloadHeader) : M chip_error :=
  let payloadHeader := SetNeedsAck false payloadHeader in
  prepared ← ask (env_prepare E);
  if negb (ok prepared.1) then mret prepared.1 else
  c ← get_ec k;
  err ← ask (env_send E);
  if negb (ok err) then mret err else
  _ ← emit (EvSent (ec_uid c) prepared.2 payloadHeader);
  mret CHIP_NO_ERROR.

(** The message is entered in the table, sent, and its timer started; the entry is removed when
    it cannot be sent. *)
Definition SendReliably (k : nat) (payloadHeader : PayloadHeader) : M chip_error :=
  let payloadHeader := SetNeedsAck true payloadHeader in
  entry ← AddToRetransTable k;
  match entry with
  | inl err => mret err
  | inr i =>
      prepared ← ask (env_prepare E);
      if negb (ok prepared.1) then _ ← ClearRetransTable i; mret prepared.1 else
      e ← get_entry i;
      _ ← put_entry i (Some (mkEntry (re_ec e) (Some prepared.2) (re_nextRetransTime e) (re_sendCount e)));
      err ← ask (env_send E);
      let err := MapSendError err in
      if negb (ok err) then _ ← ClearRetransTable i; mret err else
      c ← get_ec k;
      _ ← emit (EvSent (ec_uid c) prepared.2 payloadHeader);
      _ ← StartRetransmision i;
      mret CHIP_NO_ERROR
  end.

(** [ExchangeMessageDispatch::SendMessage]. *)
Definition Dispatch_SendMessage (s k : nat) (isReliableTransmission : bool) (protocol : ProtocolId) (type : Z) : M chip_error :=
  c ← get_ec k;
  if negb (MessagePermitted (ec_mDispatch c) protocol type) then mret CHIP_ERROR_INVALID_ARGUMENT else
  let payloadHeader := SetInitiator (ec_has kFlagInitiator c) (SetMessageType protocol type (SetExchangeID (ec_mExchangeId c) PayloadHeader_new)) in
  sess ← get_session s;
  if AllowsMRP sess then
    payloadHeader ← (if HasPiggybackAckPending c
                     then _ ← put_ec k (SetAckPending false c);
                          mret (SetAckMessageCounter (Some (ec_mPendingPeerAckMessageCounter c)) payloadHeader)
                     else mret payloadHeader);
    if ec_has kFlagAutoRequestAck c && isReliableTransmission
    then SendReliably k payloadHeader
    else PrepareAndSendNonMRPMessage k payloadHeader
  else PrepareAndSendNonMRPMessage k payloadHeader.

Definition StartResponseTimer (k : nat) : M chip_error :=
  c ← get_ec k;
  err ← ask (env_timer E);
  _ ← when (ok err) (modify (λ w, wset_responseTimers (<[k := u64 (w_now w + ec_mResponseTimeout c)]> (w_responseTimers w)) w));
  mret err.

Definition CancelResponseTimer (k : nat) : M () :=
  modify (λ w, wset_responseTimers (delete k (w_responseTimers w)) w).

Definition SetResponseExpected (b : bool) (k : nat) : M () :=
  modify_ec k (λ c, ec_set kFlagWaitingForResponseOrAck b (ec_set kFlagResponseExpected b c)).

(** The start of [SendMessage] for a message with a response: the error that ends the call, or
    whether the timer of the response was started. *)
Definition ExpectResponse (k : nat) : M (chip_error + bool) :=
  c ← get_ec k;
  if IsResponseExpected c then mret (inl CHIP_ERROR_INCORRECT_STATE) else
  _ ← SetResponseExpected true k;
  if 0 <? ec_mResponseTimeout c then
    err ← StartResponseTimer k;
    if ok err then mret (inr true) else _ ← SetResponseExpected false k; mret (inl err)
  else mret (inr false).

(** [ExchangeContext::SendMessage] between taking and dropping the reference; [handled] is
    [MessageHandled], which a standalone acknowledgement does not call. *)
Definition SendMessage_body (handled : nat → M ()) (k s : nat) (protocolId : ProtocolId) (msgType : Z) (sendFlags : SendFlags) : M chip_error :=
  let isStandaloneAck := bool_decide (protocolId = SecureChannel_Id) && (msgType =? StandaloneAck) in
  sess ← get_session s;
  let isGroup := Session_IsGroupSession sess in
  let reliableTransmissionRequested := AllowsMRP sess && negb (kNoAutoRequestAck sendFlags) && negb isGroup in
  expect ← (if kExpectResponse sendFlags && negb isGroup then ExpectResponse k else mret (inr false));
  match expect with
  | inl err => mret err
  | inr currentMessageExpectResponse =>
      c ← get_ec k;
      if isGroup && negb (ec_has kFlagInitiator c) then mret CHIP_ERROR_INTERNAL else
      err ← Dispatch_SendMessage s k reliableTransmissionRequested protocolId msgType;
      _ ← (if negb (ok err) then
             _ ← when currentMessageExpectResponse (_ ← CancelResponseTimer k; SetResponseExpected false k);
             MarkAsDefunctIfCASE s
           else when (negb isStandaloneAck) (_ ← modify_ec k (ec_set kFlagWillSendMessage false); handled k));
      mret err
  end.

Definition SendMessage_with (handled : nat → M ()) (k : nat) (protocolId : ProtocolId) (msgType : Z) (sendFlags : SendFlags) : M chip_error :=
  c ← get_ec k;
  match ec_mSession c with
  | None => mret CHIP_ERROR_CONNECTION_ABORTED
  | Some s =>
      _ ← VerifyOrDie (0 <? ec_mRefCount c);
      _ ← Retain k;
      err ← SendMessage_body handled k s protocolId msgType sendFlags;
      _ ← Release k;
      mret err
  end.

Definition SendStandaloneAckMessage (k : nat) : M chip_error :=
  buffer ← ask (env_buffer E);
  if negb buffer then mret CHIP_ERROR_NO_MEMORY else
  err ← SendMessage_with (λ _, mret ()) k SecureChannel_Id StandaloneAck (mkSendFlags false true);
  mret (if IsSendErrorNonCritical err then CHIP_NO_ERROR else err).

Definition FlushAcks (k : nat) : M chip_error :=
  c ← get_ec k;
  if IsAckPending c then SendStandaloneAckMessage k else mret CHIP_NO_ERROR.

(** ** Closing *)

Definition DoClose (clearRetransTable : bool) (k : nat) : M () :=
  c ← get_ec k;
  if ec_has kFlagClosed c then mret () else
  _ ← put_ec k (ec_set kFlagClosed true c);
  _ ← when (bool_decide (is_Some (ec_mDelegate c))) (emit (EvClosing (ec_uid c)));
  _ ← modify_ec k (ecset_delegate None);
  _ ← FlushAcks k;
  _ ← when clearRetransTable (ClearRetransTable_of k);
  c ← get_ec k;
  when (IsResponseExpected c) (CancelResponseTimer k).

(** The [Release] of [Close] and [Abort] drops the reference of the creator. *)
Definition ReleaseOwner (k : nat) : M () :=
  _ ← modify_ec k (ecset_owner false);
  Release k.

Definition Close (k : nat) : M () :=
  c ← get_ec k;
  _ ← VerifyOrDie (0 <? ec_mRefCount c);
  _ ← DoClose false k;
  ReleaseOwner k.

Definition Abort (k : nat) : M () :=
  c ← get_ec k;
  _ ← VerifyOrDie (0 <? ec_mRefCount c);
  _ ← DoClose true k;
  ReleaseOwner k.

Definition MessageHandled (k : nat) : M () :=
  c ← get_ec k;
  if ec_has kFlagClosed c || IsResponseExpected c || IsSendExpected c then mret () else Close k.

Definition SendMessage : nat → ProtocolId → Z → SendFlags → M chip_error := SendMessage_with MessageHandled.

Definition WillSendMessage (k : nat) : M () := modify_ec k (ec_set kFlagWillSendMessage true).
Definition SetResponseTimeout (timeout : Z) (k : nat) : M () := modify_ec k (ecset_timeout timeout).

(** ** The application *)

Definition perform (k : nat) (a : AppAction) : M () :=
  match a with
  | ActSend protocol type flags => _ ← SendMessage k protocol type flags; mret ()
  | ActWillSend => WillSendMessage k
  | ActSetResponseTimeout timeout => SetResponseTimeout timeout k
  | ActClose => Close k
  | ActAbort => Abort k
  end.

(** A delegate uses an exchange only while it owns it (the rules of ExchangeDelegate.h). *)
Definition run_action (k : nat) (a : AppAction) : M () :=
  c ← get_ec k;
  when (ec_owner c) (perform k a).

Fixpoint run_actions (k : nat) (l : list AppAction) : M () :=
  match l with
  | [] => mret ()
  | a :: l => _ ← run_action k a; run_actions k l
  end.

(** In [OnResponseTimeout] the exchange belongs to the exchange layer, which closes it. *)
Definition keeps_open (a : AppAction) : Prop := match a with ActClose | ActAbort => False | _ => True end.
#[export] Instance keeps_open_dec a : Decision (keeps_open a).
Proof. destruct a; simpl; apply _. Defined.

(** ** Acknowledgements *)

Definition SetPendingPeerAckMessageCounter (aPeerAckMessageCounter : Z) (c : ExchangeContext) : ExchangeContext :=
  ec_set kFlagAckMessageCounterIsValid true (SetAckPending true (ecset_pending aPeerAckMessageCounter c)).

Definition HandleRcvdAck (k : nat) (ackMessageCounter : Z) : M () :=
  removed ← CheckAndRemRetransTable k ackMessageCounter;
  when removed (modify_ec k (ec_set kFlagWaitingForResponseOrAck false)).

Definition HandleNeedsAckInner (k : nat) (messageCounter : Z) (duplicate : bool) : M chip_error :=
  c ← get_ec k;
  if duplicate then
    let wasAckPending := IsAckPending c && negb (ec_mPendingPeerAckMessageCounter c =? messageCounter) in
    let messageCounterWasValid := HasPiggybackAckPending c in
    let tempAckMessageCounter := ec_mPendingPeerAckMessageCounter c in
    _ ← modify_ec k (SetPendingPeerAckMessageCounter messageCounter);
    err ← SendStandaloneAckMessage k;
    _ ← (if wasAckPending then modify_ec k (SetPendingPeerAckMessageCounter tempAckMessageCounter)
         else when messageCounterWasValid (modify_ec k (ecset_pending tempAckMessageCounter)));
    mret err
  else
    err ← (if IsAckPending c then SendStandaloneAckMessage k else mret CHIP_NO_ERROR);
    if negb (ok err) then mret err else
    _ ← modify_ec k (SetPendingPeerAckMessageCounter messageCounter);
    w ← get;
    _ ← modify_ec k (ecset_nextAck (u64 (w_now w + CHIP_CONFIG_RMP_DEFAULT_ACK_TIMEOUT)));
    mret CHIP_NO_ERROR.

Definition HandleNeedsAck (k : nat) (messageCounter : Z) (duplicate : bool) : M chip_error :=
  err ← HandleNeedsAckInner k messageCounter duplicate;
  _ ← StartTimer;
  mret err.

(** ** Receiving *)

Definition HasMessageType (protocol : ProtocolId) (type : Z) (h : PayloadHeader) : bool :=
  bool_decide (mProtocolID h = protocol) && (mMessageType h =? type).

(** The first part of [HandleMessage], on a session with reliable messages: the result that
    ends the call, if any. *)
Definition HandleMRP (k : nat) (messageCounter : Z) (payloadHeader : PayloadHeader) (isDuplicate isStandaloneAck : bool) : M (option chip_error) :=
  _ ← when (negb isDuplicate && IsAckMsg payloadHeader)
        (match mAckMessageCounter payloadHeader with Some a => HandleRcvdAck k a | None => mret () end);
  _ ← when (NeedsAck payloadHeader) (_ ← HandleNeedsAck k messageCounter isDuplicate; mret ());
  c ← get_ec k;
  err ← (if IsAckPending c && negb (bool_decide (is_Some (ec_mDelegate c))) then FlushAcks k else mret CHIP_NO_ERROR);
  mret (if negb (ok err) then Some err else if isStandaloneAck then Some CHIP_NO_ERROR else None).

(** The delegate's [OnMessageReceived]. *)
Definition Deliver (k : nat) (messageCounter : Z) : M chip_error :=
  c ← get_ec k;
  _ ← emit (EvDelivered (ec_uid c) messageCounter (IsWaitingForAck c));
  answer ← ask (env_message E);
  _ ← run_actions k answer.1;
  mret answer.2.

(** The last part of [HandleMessage], for a message that is new. *)
Definition HandleNew (k : nat) (messageCounter : Z) (payloadHeader : PayloadHeader) : M chip_error :=
  c ← get_ec k;
  s ← GetSessionHandle c;
  sess ← get_session s;
  if AllowsMRP sess && ec_has kFlagEphemeralExchange c then mret CHIP_NO_ERROR else
  if AllowsMRP sess && IsWaitingForAck c then mret CHIP_ERROR_INCORRECT_STATE else
  _ ← modify_ec k (ec_set kFlagReceivedAtLeastOneMessage true);
  if MessagePermitted (ec_mDispatch c) (mProtocolID payloadHeader) (mMessageType payloadHeader) then
    _ ← when (IsResponseExpected c) (_ ← CancelResponseTimer k; SetResponseExpected false k);
    if bool_decide (is_Some (ec_mDelegate c)) then Deliver k messageCounter else mret CHIP_NO_ERROR
  else mret CHIP_NO_ERROR.

Definition HandleMessage (k : nat) (messageCounter : Z) (payloadHeader : PayloadHeader) (isDuplicate : bool) : M chip_error :=
  c ← get_ec k;
  _ ← emit (EvReceived (ec_uid c) messageCounter (NeedsAck payloadHeader));
  _ ← Retain k;
  let isStandaloneAck := HasMessageType SecureChannel_Id StandaloneAck payloadHeader in
  s ← GetSessionHandle c;
  sess ← get_session s;
  first ← (if AllowsMRP sess then HandleMRP k messageCounter payloadHeader isDuplicate isStandaloneAck else mret None);
  err ← (match first with
         | Some err => mret err
         | None => if isDuplicate then mret CHIP_NO_ERROR else HandleNew k messageCounter payloadHeader
         end);
  c ← get_ec k;
  _ ← when (negb ((isStandaloneAck || isDuplicate) && bool_decide (is_Some (ec_mDelegate c)))) (MessageHandled k);
  _ ← Release k;
  mret err.

(** ** Timeouts *)

(** The delegate's [OnResponseTimeout]. *)
Definition OnResponseTimeout (k : nat) : M () :=
  c ← get_ec k;
  _ ← emit (EvResponseTimeout (ec_uid c));
  actions ← ask (env_timeout E);
  run_actions k (filter keeps_open actions).

Definition NotifyResponseTimeout (aCloseIfNeeded : bool) (k : nat) : M () :=
  c ← get_ec k;
  let gotMRPAck := negb (ec_has kFlagWaitingForResponseOrAck c) in
  _ ← SetResponseExpected false k;
  _ ← Retain k;
  _ ← (match ec_mSession c with
       | Some s => when (negb gotMRPAck) (_ ← MarkAsDefunctIfCASE s; NotifySessionHang s)
       | None => mret ()
       end);
  _ ← when (bool_decide (is_Some (ec_mDelegate c))) (OnResponseTimeout k);
  _ ← when aCloseIfNeeded (MessageHandled k);
  Release k.

(** The timer of the response fires. *)
Definition HandleResponseTimeout (k : nat) : M () :=
  _ ← CancelResponseTimer k;
  NotifyResponseTimeout true k.

(** [SessionHolderWithDelegate::SessionReleased] and [ExchangeContext::OnSessionReleased]. *)
Definition OnSessionReleased (k : nat) : M () :=
  c ← get_ec k;
  if ec_has kFlagIgnoreSessionRelease c then mret () else
  if ec_has kFlagClosed c then ClearRetransTable_of k else
  _ ← Retain k;
  _ ← (if negb (IsSendExpected c) then
         _ ← when (IsResponseExpected c) (_ ← CancelResponseTimer k; NotifyResponseTimeout false k);
         Abort k
       else DoClose true k);
  Release k.

Definition SessionReleased (k : nat) : M () :=
  _ ← modify_ec k (ecset_session None);
  OnSessionReleased k.

(** One exchange in the first loop of [ExecuteActions]. *)
Definition ack_due (now : Z) (k : nat) : M bool :=
  c ← get_ec k;
  _ ← when (IsAckPending c && (ec_mNextAckTime c <=? now)) (_ ← SendStandaloneAckMessage k; mret ());
  mret false.

(** A message that was sent as often as allowed. *)
Definition retransmission_failed (i : nat) : M () :=
  e ← get_entry i;
  let k := re_ec e in
  c ← get_ec k;
  s ← GetSessionHandle c;
  _ ← Retain k;
  _ ← when (negb (IsResponseExpected c)) (_ ← MarkAsDefunctIfCASE s; NotifySessionHang s);
  _ ← ReleaseEntry i;
  Release k.

(** One entry in the second loop. *)
Definition retransmit_due (now : Z) (i : nat) : M bool :=
  e ← get_entry i;
  if re_nextRetransTime e >? now then mret false else
  _ ← VerifyOrDie (bool_decide (is_Some (re_retainedBuf e)));
  c ← get_ec (re_ec e);
  _ ← GetSessionHandle c;
  if re_sendCount e =? CHIP_CONFIG_RMP_DEFAULT_MAX_RETRANS then _ ← retransmission_failed i; mret false else
  _ ← put_entry i (Some (mkEntry (re_ec e) (re_retainedBuf e) (re_nextRetransTime e) (u8 (re_sendCount e + 1))));
  _ ← CalculateNextRetransTime i;
  _ ← SendFromRetransTable i;
  mret false.

Definition ExecuteActions : M () :=
  w ← get;
  let now := w_now w in
  _ ← for_each (ack_due now) (active_indices (w_contexts w));
  w ← get;
  for_each (retransmit_due now) (active_indices (w_table w)).

(** The timer of the retransmissions fires. *)
Definition Timeout : M () :=
  _ ← StopTimer;
  _ ← ExecuteActions;
  StartTimer.

Definition Shutdown : M () :=
  _ ← StopTimer;
  w ← get;
  for_each (λ i, _ ← ReleaseEntry i; mret false) (active_indices (w_table w)).
End Ops.

(** * The manager *)

(** ** Handlers of unsolicited messages *)

Definition kAnyMessageType : Z := -1.

(** [UnsolicitedMessageHandlerSlot]; [None] is the null handler of a free slot. *)
Record UMHSlot := mkUMH { umh_ProtocolId : ProtocolId; umh_MessageType : Z; umh_Handler : option nat }.

Definition UMH_IsInUse (u : UMHSlot) : bool := bool_decide (is_Some (umh_Handler u)).
Definition UMH_Matches (p : ProtocolId) (t : Z) (u : UMHSlot) : bool :=
  bool_decide (umh_ProtocolId u = p) && (umh_MessageType u =? t).
Definition UMH_Reset (u : UMHSlot) : UMHSlot := mkUMH (umh_ProtocolId u) (umh_MessageType u) None.

(** The loop of [RegisterUMH]: the slot that has the key already, or the first free one. *)
Fixpoint find_umh_slot (p : ProtocolId) (t : Z) (i : nat) (selected : option nat) (l : list UMHSlot) : option nat :=
  match l with
  | [] => selected
  | u :: l =>
      if negb (UMH_IsInUse u) then find_umh_slot p t (S i) (match selected with None => Some i | Some _ => selected end) l
      else if UMH_Matches p t u then Some i
      else find_umh_slot p t (S i) selected l
  end.

Definition RegisterUMH (p : ProtocolId) (t : Z) (handler : nat) (pool : list UMHSlot) : chip_error * list UMHSlot :=
  match find_umh_slot p t 0 None pool with
  | None => (CHIP_ERROR_TOO_MANY_UNSOLICITED_MESSAGE_HANDLERS, pool)
  | Some i => (CHIP_NO_ERROR, <[i := mkUMH p t (Some handler)]> pool)
  end.

Fixpoint UnregisterUMH (p : ProtocolId) (t : Z) (pool : list UMHSlot) : chip_error * list UMHSlot :=
  match pool with
  | [] => (CHIP_ERROR_NO_UNSOLICITED_MESSAGE_HANDLER, [])
  | u :: pool =>
      if UMH_IsInUse u && UMH_Matches p t u then (CHIP_NO_ERROR, UMH_Reset u :: pool)
      else let '(err, pool') := UnregisterUMH p t pool in (err, u :: pool')
  end.

Definition RegisterUnsolicitedMessageHandlerForProtocol p handler := RegisterUMH p kAnyMessageType handler.
Definition RegisterUnsolicitedMessageHandlerForType p (msgType : Z) handler := RegisterUMH p msgType handler.
Definition UnregisterUnsolicitedMessageHandlerForProtocol p := UnregisterUMH p kAnyMessageType.
Definition UnregisterUnsolicitedMessageHandlerForType p (msgType : Z) := UnregisterUMH p msgType.

(** The loop of [OnMessageReceived] over the handlers. *)
Fixpoint match_umh (h : PayloadHeader) (matching : option nat) (l : list UMHSlot) : option nat :=
  match l with
  | [] => matching
  | u :: l =>
      if UMH_IsInUse u && bool_decide (mProtocolID h = umh_ProtocolId u) then
        if umh_MessageType u =? mMessageType h then umh_Handler u
        else match_umh h (if umh_MessageType u =? kAnyMessageType then umh_Handler u else matching) l
      else match_umh h matching l
  end.

Section Mgr.
Context (E : Env).

(** ** Creation *)

(** A delegate gives the dispatch of session establishment or that of applications. *)
Definition GetMessageDispatch (isEphemeralExchange : bool) (delegate : option nat) : Dispatch :=
  if isEphemeralExchange then EphemeralDispatch
  else match delegate with
       | Some d => if env_establishes E d then SessionEstablishmentDispatch else ApplicationDispatch
       | None => ApplicationDispatch
       end.

(** The constructor of [ExchangeContext]. *)
Definition ExchangeContext_new (ExchangeId : Z) (s : nat) (sess : Session) (Initiator : bool) (delegate : option nat)
    (isEphemeralExchange : bool) (uid : nat) : ExchangeContext :=
  let flags := Flags_Set kFlagInitiator Initiator 0 in
  let flags := Flags_Set kFlagEphemeralExchange isEphemeralExchange flags in
  let flags := if Initiator && negb isEphemeralExchange then Flags_Set kFlagWillSendMessage true flags else flags in
  let flags := Flags_Set kFlagAckPending false flags in
  let flags := Flags_Set kFlagAutoRequestAck (AllowsMRP sess) flags in
  mkEC flags 0 0 0 delegate (if IsActiveSession sess then Some s else None) ExchangeId
    (GetMessageDispatch isEphemeralExchange delegate) 1 true uid.

(** [mContextPool.CreateObject]. *)
Definition CreateContext (ExchangeId : Z) (s : nat) (Initiator : bool) (delegate : option nat) (isEphemeralExchange : bool) : M (option nat) :=
  w ← get;
  match free_index 0 (w_contexts w) with
  | None => mret None
  | Some k =>
      sess ← get_session s;
      _ ← put_ec k (ExchangeContext_new ExchangeId s sess Initiator delegate isEphemeralExchange (w_nextUid w));
      _ ← modify (λ w, wset_ids (w_nextExchangeId w) (S (w_nextUid w)) w);
      mret (Some k)
  end.

Definition NewContext (s : nat) (delegate : option nat) (isInitiator : bool) : M (option nat) :=
  sess ← get_session s;
  if negb (IsActiveSession sess) then mret None else
  w ← get;
  let id := w_nextExchangeId w in
  _ ← modify (λ w, wset_ids (u16 (id + 1)) (w_nextUid w) w);
  CreateContext id s isInitiator delegate false.

(** ** Receiving *)

Definition IsEncryptionRequired (d : Dispatch) : M bool :=
  match d with
  | ApplicationDispatch => mret true
  | SessionEstablishmentDispatch => mret false
  | EphemeralDispatch => die VerifyFailed
  end.

Definition MatchExchange (s : nat) (packetHeader : PacketHeader) (payloadHeader : PayloadHeader) (k : nat) : M bool :=
  c ← get_ec k;
  if negb (ec_mExchangeId c =? mExchangeID payloadHeader) then mret false else
  if negb (bool_decide (ec_mSession c = Some s)) then mret false else
  required ← IsEncryptionRequired (ec_mDispatch c);
  if negb (eqb required (IsEncrypted packetHeader)) then mret false else
  mret (negb (eqb (IsInitiator payloadHeader) (ec_has kFlagInitiator c))).

(** The first exchange of the pool that matches. *)
Fixpoint find_exchange (s : nat) (packetHeader : PacketHeader) (payloadHeader : PayloadHeader) (l : list nat) : M (option nat) :=
  match l with
  | [] => mret None
  | k :: l =>
      matches ← MatchExchange s packetHeader payloadHeader k;
      if matches : bool then mret (Some k) else find_exchange s packetHeader payloadHeader l
  end.

Definition SendStandaloneAckIfNeeded (packetHeader : PacketHeader) (payloadHeader : PayloadHeader) (s : nat) (isDuplicate : bool) : M () :=
  sess ← get_session s;
  if negb (AllowsMRP sess) || negb (NeedsAck payloadHeader) then mret () else
  created ← CreateContext (mExchangeID payloadHeader) s (negb (IsInitiator payloadHeader)) None true;
  match created with
  | None => mret ()
  | Some k => _ ← HandleMessage E k (mMessageCounter packetHeader) payloadHeader isDuplicate; mret ()
  end.

(** A message that no exchange waits for, with the handler that was found. *)
Definition HandleUnsolicited (packetHeader : PacketHeader) (payloadHeader : PayloadHeader) (s : nat) (isDuplicate : bool) : M () :=
  answer ← ask (env_unsolicited E);
  if negb (ok answer.1) then SendStandaloneAckIfNeeded packetHeader payloadHeader s isDuplicate else
  created ← CreateContext (mExchangeID payloadHeader) s false answer.2 false;
  match created with
  | None => mret ()
  | Some k =>
      c ← get_ec k;
      required ← IsEncryptionRequired (ec_mDispatch c);
      if negb (eqb required (IsEncrypted packetHeader)) then
        _ ← Close E k;
        SendStandaloneAckIfNeeded packetHeader payloadHeader s isDuplicate
      else _ ← HandleMessage E k (mMessageCounter packetHeader) payloadHeader isDuplicate; mret ()
  end.

Definition OnMessageReceived (handlers : list UMHSlot) (packetHeader : PacketHeader) (payloadHeader : PayloadHeader) (s : nat) (isDuplicate : bool) : M () :=
  w ← get;
  found ← (if negb (IsGroupSession packetHeader) then find_exchange s packetHeader payloadHeader (active_indices (w_contexts w)) else mret None);
  match found with
  | Some k => _ ← HandleMessage E k (mMessageCounter packetHeader) payloadHeader isDuplicate; mret ()
  | None =>
      sess ← get_session s;
      if negb (IsActiveSession sess) then mret () else
      if negb isDuplicate && IsInitiator payloadHeader then
        match match_umh payloadHeader None handlers with
        | Some _ => HandleUnsolicited packetHeader payloadHeader s isDuplicate
        | None => SendStandaloneAckIfNeeded packetHeader payloadHeader s isDuplicate
        end
      else if negb (NeedsAck payloadHeader) then mret ()
      else SendStandaloneAckIfNeeded packetHeader payloadHeader s isDuplicate
  end.

(** One exchange in the loop of [CloseAllContextsForDelegate]. *)
Definition close_for_delegate (delegate k : nat) : M bool :=
  c ← get_ec k;
  _ ← when (bool_decide (ec_mDelegate c = Some delegate)) (_ ← modify_ec k (ecset_delegate None); Close E k);
  mret false.

Definition CloseAllContextsForDelegate (delegate : nat) : M () :=
  w ← get;
  for_each (close_for_delegate delegate) (active_indices (w_contexts w)).
End Mgr.
