(* ===== verification/ExchInv.v ===== *)
(** * The exchange layer: the invariant

    A calculus of preconditions for the monad, the invariant of the state, and what the
    primitive operations do to it. The invariant is relative to a [Ghost]: an operation that is
    under way may hold references, have changed deadlines without starting the timer, have an
    entry without a message, have lost the session of an exchange, or be closing one. *)

From S2P Require Import Prelude.
From S2P Require Import ChipError.
From S2P Require Import MessageHeader.
From S2P Require Import Mrp.
From S2P Require Import ExchTypes.
From S2P Require Import ExchOps.

(** ** Preconditions *)

(** [m] returns from [w] in a state with [Q], or dies because a timer was refused. *)
Definition wp {A} (m : M A) (Q : A → World → Prop) (w : World) : Prop :=
  match m w with Done a w' => Q a w' | Died d => d = TimerRefused end.

Lemma wp_ret {A} (a : A) Q w : Q a w → wp (mret a) Q w.
Proof. done. Qed.

Lemma wp_bind {A B} (m : M A) (k : A → M B) Q w : wp m (λ a w', wp (k a) Q w') w → wp (m ≫= k) Q w.
Proof. unfold wp, mbind, M_bind. by destruct (m w). Qed.

Lemma wp_mono {A} (m : M A) (Q Q' : A → World → Prop) w :
  wp m Q w → (∀ a w', Q a w' → Q' a w') → wp m Q' w.
Proof. unfold wp. destruct (m w); eauto. Qed.

Lemma wp_get Q w : Q w w → wp get Q w.
Proof. done. Qed.

Lemma wp_modify f Q w : Q () (f w) → wp (modify f) Q w.
Proof. done. Qed.

Lemma wp_ask {A} (f : nat → A) Q w : (∀ a, Q a (wset_tick (S (w_tick w)) w)) → wp (ask f) Q w.
Proof. intros H. apply H. Qed.

Lemma wp_verify b Q w : b = true → Q () w → wp (VerifyOrDie b) Q w.
Proof. by intros ->. Qed.

Lemma wp_when (b : bool) (m : M ()) Q w : (b = true → wp m Q w) → (b = false → Q () w) → wp (when b m) Q w.
Proof. intros H1 H2. destruct b; [by apply H1|by apply H2]. Qed.

Definition live (w : World) (k : nat) (c : ExchangeContext) : Prop := w_contexts w !! k = Some (Some c).
Definition entry (w : World) (i : nat) (e : RetransTableEntry) : Prop := w_table w !! i = Some (Some e).

Lemma wp_get_ec k c Q w : live w k c → Q c w → wp (get_ec k) Q w.
Proof. unfold wp, get_ec, live. by intros ->. Qed.

Lemma wp_get_entry i e Q w : entry w i e → Q e w → wp (get_entry i) Q w.
Proof. unfold wp, get_entry, entry. by intros ->. Qed.

Lemma wp_get_session s sess Q w : w_sessions w !! s = Some sess → Q sess w → wp (get_session s) Q w.
Proof. unfold wp, get_session. by intros ->. Qed.

Definition with_ec (k : nat) (c : ExchangeContext) (w : World) : World := wset_contexts (<[k := Some c]> (w_contexts w)) w.
Definition with_entry (i : nat) (e : option RetransTableEntry) (w : World) : World := wset_table (<[i := e]> (w_table w)) w.

Lemma wp_modify_ec k c f Q w : live w k c → Q () (with_ec k (f c) w) → wp (modify_ec k f) Q w.
Proof. intros Hc HQ. unfold modify_ec. apply wp_bind. by apply (wp_get_ec k c). Qed.

Lemma live_with_ec w k c c0 : live w k c0 → live (with_ec k c w) k c.
Proof. intros Hc. unfold live, with_ec; simpl. apply list_lookup_insert_eq. by apply lookup_lt_Some in Hc. Qed.

Lemma live_with_ec_ne w k k' c c' : k ≠ k' → live (with_ec k c w) k' c' ↔ live w k' c'.
Proof. intros Hne. unfold live, with_ec; simpl. by rewrite list_lookup_insert_ne. Qed.

Lemma entry_with_entry w i e e0 : entry w i e0 → entry (with_entry i (Some e) w) i e.
Proof. intros He. unfold entry, with_entry; simpl. apply list_lookup_insert_eq. by apply lookup_lt_Some in He. Qed.

(** One step of a proof about [wp]. *)
Ltac wstep :=
  lazymatch goal with
  | |- wp (mbind _ _) _ _ => apply wp_bind
  | |- wp (mret _) _ _ => apply wp_ret
  | |- wp get _ _ => apply wp_get
  | |- wp (modify _) _ _ => apply wp_modify
  | |- wp (emit _) _ _ => apply wp_modify
  | |- wp (put_ec _ _) _ _ => apply wp_modify
  | |- wp (put_entry _ _) _ _ => apply wp_modify
  | |- wp (put_session _ _) _ _ => apply wp_modify
  | |- wp (ask _) _ _ => apply wp_ask; intros ?
  | |- wp (get_ec _) _ _ => eapply wp_get_ec; [eassumption|]
  | |- wp (get_entry _) _ _ => eapply wp_get_entry; [eassumption|]
  | |- wp (get_session _) _ _ => eapply wp_get_session; [eassumption|]
  | |- wp (modify_ec _ _) _ _ => eapply wp_modify_ec; [eassumption|]
  end.

(** A step by a lemma about an operation. *)
Ltac wuse H := eapply wp_mono; [apply H|].

(** ** Counting *)

Definition of_ec (k : nat) (o : option RetransTableEntry) : bool :=
  match o with Some e => bool_decide (re_ec e = k) | None => false end.

(** The number of entries of an exchange. *)
Fixpoint entries (t : list (option RetransTableEntry)) (k : nat) : Z :=
  match t with [] => 0 | o :: t => Z.b2z (of_ec k o) + entries t k end.

Lemma entries_insert t i o o' k :
  t !! i = Some o → entries (<[i := o']> t) k = entries t k - Z.b2z (of_ec k o) + Z.b2z (of_ec k o').
Proof.
  revert i. induction t as [|x t IH]; intros [|i] Hi; simplify_eq/=; [lia|]. rewrite (IH i) by done. lia.
Qed.

Lemma entries_nonneg t k : 0 <= entries t k.
Proof. induction t as [|o t IH]; simpl; [lia|]. destruct (of_ec k o); simpl; lia. Qed.

Lemma entries_pos t i e : t !! i = Some (Some e) → 0 < entries t (re_ec e).
Proof.
  revert i. induction t as [|x t IH]; intros [|i] Hi; simplify_eq/=.
  - rewrite bool_decide_true by done. pose proof (entries_nonneg t (re_ec e)). simpl. lia.
  - specialize (IH i Hi). destruct (of_ec _ x); simpl; lia.
Qed.

Lemma entries_zero t k i e : entries t k = 0 → t !! i = Some (Some e) → re_ec e ≠ k.
Proof. intros Hz Hi <-. pose proof (entries_pos t i e Hi). lia. Qed.

Lemma entries_one t k i j e e' :
  entries t k <= 1 → t !! i = Some (Some e) → t !! j = Some (Some e') → re_ec e = k → re_ec e' = k → i = j.
Proof.
  intros Hone Hi Hj He He'. destruct (decide (i = j)) as [|Hne]; [done|].
  pose proof (entries_insert t i (Some e) None k Hi) as H1.
  assert (<[i := None]> t !! j = Some (Some e')) as Hj' by (by rewrite list_lookup_insert_ne).
  pose proof (entries_pos _ j e' Hj') as H2. rewrite He' in H2. simpl in H1. rewrite He, bool_decide_true in H1 by done.
  simpl in H1. lia.
Qed.

(** How often [k] is held. *)
Fixpoint holds (h : list nat) (k : nat) : Z :=
  match h with [] => 0 | x :: h => Z.b2z (bool_decide (x = k)) + holds h k end.

Lemma holds_nonneg h k : 0 <= holds h k.
Proof. induction h as [|x h IH]; simpl; [lia|]. destruct (bool_decide _); simpl; lia. Qed.

Lemma holds_length h k : holds h k <= Z.of_nat (length h).
Proof. induction h as [|x h IH]; simpl; [lia|]. destruct (bool_decide _); simpl; lia. Qed.

Lemma holds_same h k : holds (k :: h) k = 1 + holds h k.
Proof. simpl. by rewrite bool_decide_true. Qed.

Lemma holds_other h k k' : k ≠ k' → holds (k :: h) k' = holds h k'.
Proof. intros. simpl. rewrite bool_decide_false by done. simpl. lia. Qed.

(** ** The invariant *)

Record Ghost := mkGhost {
  g_holds : list nat;
  g_armed : bool;
  g_fresh : option nat;
  g_nosess : option nat;
  g_eph : option nat;
  g_closing : option nat
}.

(** Between the calls from outside. *)
Definition rest : Ghost := mkGhost [] true None None None None.

Definition hold (k : nat) (g : Ghost) : Ghost := mkGhost (k :: g_holds g) (g_armed g) (g_fresh g) (g_nosess g) (g_eph g) (g_closing g).
Definition arm (b : bool) (g : Ghost) : Ghost := mkGhost (g_holds g) b (g_fresh g) (g_nosess g) (g_eph g) (g_closing g).
Definition fresh (i : option nat) (g : Ghost) : Ghost := mkGhost (g_holds g) (g_armed g) i (g_nosess g) (g_eph g) (g_closing g).
Definition nosess (k : option nat) (g : Ghost) : Ghost := mkGhost (g_holds g) (g_armed g) (g_fresh g) k (g_eph g) (g_closing g).
Definition eph (k : option nat) (g : Ghost) : Ghost := mkGhost (g_holds g) (g_armed g) (g_fresh g) (g_nosess g) k (g_closing g).
Definition closing (k : option nat) (g : Ghost) : Ghost := mkGhost (g_holds g) (g_armed g) (g_fresh g) (g_nosess g) (g_eph g) k.

(** The timer fires no later than [d], or at once. *)
Definition covered (now : Z) (timer : option Z) (d : Z) : Prop :=
  ∃ t, timer = Some t ∧ (t <= d ∨ t <= now).

Record ctx_ok (g : Ghost) (now : Z) (table : list (option RetransTableEntry)) (sessions : list Session) (timer : option Z)
    (responses : gmap nat Z) (trace : list Event) (k : nat) (c : ExchangeContext) : Prop := {
  ok_wait : entries table k = Z.b2z (IsWaitingForAck c);
  ok_ref : ec_mRefCount c = Z.b2z (ec_owner c) + entries table k + holds (g_holds g) k;
  ok_pos : 0 < ec_mRefCount c;
  ok_open : ec_has kFlagClosed c = false → ec_owner c = true;
  ok_delegate : ec_has kFlagClosed c = true → ec_mDelegate c = None;
  ok_lost : ec_has kFlagClosed c = true → ec_owner c = true → g_closing g ≠ Some k → ec_mSession c = None;
  ok_session s : ec_mSession c = Some s → ∃ sess, sessions !! s = Some sess ∧ (s_type sess = kSecure → s_state sess ≠ kEstablishing);
  ok_mrp : IsWaitingForAck c = true → g_nosess g ≠ Some k →
    ∃ s sess, ec_mSession c = Some s ∧ sessions !! s = Some sess ∧ AllowsMRP sess = true;
  ok_ignore : ec_has kFlagIgnoreSessionRelease c = false;
  ok_eph : ec_mDispatch c = EphemeralDispatch → g_eph g = Some k;
  ok_valid : IsAckPending c = true → HasPiggybackAckPending c = true;
  ok_ack : HasPiggybackAckPending c = true → EvReceived (ec_uid c) (ec_mPendingPeerAckMessageCounter c) true ∈ trace;
  ok_time : 0 <= ec_mNextAckTime c < UINT64_MAX;
  ok_timer : g_armed g = true → IsAckPending c = true → covered now timer (ec_mNextAckTime c);
  ok_response : is_Some (responses !! k) →
    IsResponseExpected c = true ∧ (ec_has kFlagClosed c = false ∨ g_closing g = Some k ∧ ec_owner c = true)
}.

Record entry_ok (g : Ghost) (now : Z) (timer : option Z) (i : nat) (e : RetransTableEntry) : Prop := {
  ok_count : 0 <= re_sendCount e <= CHIP_CONFIG_RMP_DEFAULT_MAX_RETRANS;
  ok_next : 0 <= re_nextRetransTime e < UINT64_MAX;
  ok_buf : g_fresh g ≠ Some i → is_Some (re_retainedBuf e);
  ok_due : g_armed g = true → covered now timer (re_nextRetransTime e)
}.

(** What the trace says: an acknowledgement is for a message that the exchange received and
    that asked for one, and a delegate gets no message while the exchange waits for an
    acknowledgement. *)
Definition event_ok (trace : list Event) (ev : Event) : Prop :=
  match ev with
  | EvSent uid _ h => ∀ a, mAckMessageCounter h = Some a → EvReceived uid a true ∈ trace
  | EvDelivered _ _ waiting => waiting = false
  | _ => True
  end.

Record Inv (g : Ghost) (w : World) : Prop := {
  inv_ctx k c : live w k c →
    ctx_ok g (w_now w) (w_table w) (w_sessions w) (w_timer w) (w_responseTimers w) (w_trace w) k c;
  inv_free k : (∀ c, ¬ live w k c) → entries (w_table w) k = 0 ∧ holds (g_holds g) k = 0 ∧ w_responseTimers w !! k = None;
  inv_entry i e : entry w i e → entry_ok g (w_now w) (w_timer w) i e;
  inv_now : 0 <= w_now w < 2 ^ 63;
  inv_trace : Forall (event_ok (w_trace w)) (w_trace w)
}.

Lemma held_live g w k : Inv g w → 0 < holds (g_holds g) k → ∃ c, live w k c.
Proof.
  intros HI Hh. destruct (w_contexts w !! k) as [[c|]|] eqn:Hk; [by exists c|..].
  all: destruct (inv_free _ _ HI k) as (_ & H0 & _); [unfold live; rewrite Hk; naive_solver|lia].
Qed.

Lemma entry_live g w i e : Inv g w → entry w i e → ∃ c, live w (re_ec e) c ∧ IsWaitingForAck c = true.
Proof.
  intros HI He. pose proof (entries_pos _ _ _ He) as Hp.
  destruct (w_contexts w !! re_ec e) as [[c|]|] eqn:Hk.
  - exists c. split; [done|]. destruct (inv_ctx _ _ HI _ _ Hk) as [Hw _ _ _ _ _ _ _ _ _ _ _ _ _ _].
    destruct (IsWaitingForAck c); [done|]. simpl in Hw. lia.
  - destruct (inv_free _ _ HI (re_ec e)) as (H0 & _); [unfold live; rewrite Hk; naive_solver|lia].
  - destruct (inv_free _ _ HI (re_ec e)) as (H0 & _); [unfold live; rewrite Hk; naive_solver|lia].
Qed.

(** ** Changes that keep the invariant *)

Lemma Inv_tick g n w : Inv g w → Inv g (wset_tick n w).
Proof. intros []. by constructor. Qed.

Lemma Inv_ids g a b w : Inv g w → Inv g (wset_ids a b w).
Proof. intros []. by constructor. Qed.

Lemma event_ok_cons trace ev e : event_ok trace ev → event_ok (e :: trace) ev.
Proof. destruct ev; simpl; set_solver. Qed.

Lemma Inv_emit g e w : Inv g w → event_ok (w_trace w) e → Inv g (wset_trace (e :: w_trace w) w).
Proof.
  intros [Hc Hf He Hn Ht] Hev. constructor; [|done..|].
  - intros k c Hk. destruct (Hc k c Hk). constructor; try done. intros Hv. apply list_elem_of_further. auto.
  - constructor; [by apply event_ok_cons|]. eapply Forall_impl; [done|]. intros ev. apply event_ok_cons.
Qed.

(** Not to know that the timer is started. *)
Lemma Inv_unarm g w : Inv g w → Inv (arm false g) w.
Proof.
  intros [Hc Hf He Hn Ht]. constructor; [|done| |done..].
  - intros k c Hk. by destruct (Hc k c Hk).
  - intros i e Hi. by destruct (He i e Hi).
Qed.

Lemma Inv_fresh g i w : g_fresh g = None → Inv g w → Inv (fresh i g) w.
Proof.
  intros Hg [Hc Hf He Hn Ht]. constructor; [|done| |done..].
  - intros k c Hk. by destruct (Hc k c Hk).
  - intros j e Hj. destruct (He j e Hj). constructor; try done. intros _. naive_solver.
Qed.

Lemma Inv_nosess g k w : g_nosess g = None → Inv g w → Inv (nosess k g) w.
Proof.
  intros Hg [Hc Hf He Hn Ht]. constructor; [|done| |done..].
  - intros k' c Hk. destruct (Hc k' c Hk). constructor; try done. intros Hw _. naive_solver.
  - intros j e Hj. by destruct (He j e Hj).
Qed.

(** Another value for a live exchange. *)
Lemma Inv_with_ec g k c c' w :
  Inv g w → live w k c →
  ctx_ok g (w_now w) (w_table w) (w_sessions w) (w_timer w) (w_responseTimers w) (w_trace w) k c' →
  Inv g (with_ec k c' w).
Proof.
  intros [Hc Hf He Hn Ht] Hk Hok. constructor; try done.
  - intros k' d Hd. destruct (decide (k = k')) as [<-|Hne].
    + assert (d = c') as -> by (pose proof (live_with_ec w k c' c Hk); unfold live in *; congruence). done.
    + apply live_with_ec_ne in Hd; [|done]. by apply Hc.
  - intros k' Hnl. apply Hf. intros d Hd. destruct (decide (k = k')) as [<-|Hne].
    + apply (Hnl c'). by apply (live_with_ec w k c' c).
    + apply (Hnl d). by apply live_with_ec_ne.
Qed.

(** What must not change in an exchange for the invariant to stay; [ack] may be dropped. *)
Record core_same (c c' : ExchangeContext) : Prop := {
  cs_wait : IsWaitingForAck c' = IsWaitingForAck c;
  cs_ref : ec_mRefCount c' = ec_mRefCount c;
  cs_owner : ec_owner c' = ec_owner c;
  cs_closed : ec_has kFlagClosed c' = ec_has kFlagClosed c;
  cs_delegate : ec_mDelegate c = None → ec_mDelegate c' = None;
  cs_session : ec_mSession c' = ec_mSession c;
  cs_ignore : ec_has kFlagIgnoreSessionRelease c' = ec_has kFlagIgnoreSessionRelease c;
  cs_dispatch : ec_mDispatch c' = ec_mDispatch c;
  cs_uid : ec_uid c' = ec_uid c;
  cs_pending : ec_mPendingPeerAckMessageCounter c' = ec_mPendingPeerAckMessageCounter c;
  cs_valid : HasPiggybackAckPending c' = HasPiggybackAckPending c;
  cs_ack : IsAckPending c' = true → IsAckPending c = true;
  cs_time : ec_mNextAckTime c' = ec_mNextAckTime c
}.

Lemma core_same_ok g now table sessions timer responses trace k c c' :
  core_same c c' → (is_Some (responses !! k) → IsResponseExpected c = true → IsResponseExpected c' = true) →
  ctx_ok g now table sessions timer responses trace k c → ctx_ok g now table sessions timer responses trace k c'.
Proof.
  intros [] Hr []. constructor; rewrite ?cs_wait0, ?cs_ref0, ?cs_owner0, ?cs_closed0, ?cs_session0, ?cs_ignore0, ?cs_dispatch0,
    ?cs_uid0, ?cs_pending0, ?cs_valid0, ?cs_time0; auto. intros H. destruct (ok_response0 H). auto.
Qed.

Lemma Inv_core g k c c' w :
  Inv g w → live w k c → core_same c c' →
  (is_Some (w_responseTimers w !! k) → IsResponseExpected c = true → IsResponseExpected c' = true) →
  Inv g (with_ec k c' w).
Proof.
  intros HI Hk Hcs Hr. eapply Inv_with_ec; [done..|]. eapply core_same_ok; [done..|]. by apply (inv_ctx _ _ HI).
Qed.

(** Evaluates tests of flags after changes of flags. *)
Ltac flags :=
  unfold IsAckPending, IsWaitingForAck, HasPiggybackAckPending, IsResponseExpected, IsSendExpected, SetAckPending in *;
  autorewrite with ecflags in *; repeat (case_decide; [discriminate|]);
  repeat (case_decide; [|congruence]).

Lemma core_same_set f b c :
  f ∈ [kFlagInitiator; kFlagResponseExpected; kFlagAutoRequestAck; kFlagWillSendMessage;
       kFlagReceivedAtLeastOneMessage; kFlagWaitingForResponseOrAck] → core_same c (ec_set f b c).
Proof.
  intros Hf. assert (∀ g, f ≠ g → ec_has g (ec_set f b c) = ec_has g c) as E.
  { intros g Hg. rewrite ec_has_set. by case_decide. }
  constructor; unfold IsAckPending, IsWaitingForAck, HasPiggybackAckPending; rewrite ?E; try done; intros ->; set_solver.
Qed.

Lemma core_same_refl c : core_same c c.
Proof. by constructor. Qed.

Lemma core_same_trans c1 c2 c3 : core_same c1 c2 → core_same c2 c3 → core_same c1 c3.
Proof. intros [] []. constructor; solve [congruence|auto]. Qed.

Lemma core_same_noack c : core_same c (SetAckPending false c).
Proof.
  constructor; unfold IsAckPending, IsWaitingForAck, HasPiggybackAckPending, SetAckPending; rewrite ?ec_has_set;
    solve [done|case_decide; done].
Qed.

(** ** References *)

Definition UINT32_room (h : list nat) : Prop := Z.of_nat (length h) < 2 ^ 31.

Lemma Inv_retain g k c w :
  Inv g w → live w k c → Inv (hold k g) (with_ec k (ecset_ref (ec_mRefCount c + 1) c) w).
Proof.
  intros [Hc Hf He Hn Ht] Hk.
  assert (Inv g w) as HI by (by constructor). constructor; try done.
  - intros k' d Hd. destruct (decide (k = k')) as [<-|Hne].
    + assert (d = ecset_ref (ec_mRefCount c + 1) c) as -> by (pose proof (live_with_ec w k (ecset_ref (ec_mRefCount c + 1) c) c Hk); unfold live in *; congruence).
      destruct (Hc k c Hk). constructor; try done; simpl; rewrite ?bool_decide_true by done; simpl; lia.
    + apply live_with_ec_ne in Hd; [|done]. destruct (Hc k' d Hd). constructor; try done.
      simpl g_holds. by rewrite holds_other.
  - intros k' Hnl. destruct (decide (k = k')) as [<-|Hne].
    + exfalso. eapply Hnl, live_with_ec, Hk.
    + simpl g_holds. rewrite holds_other by done. apply Hf. intros d Hd. eapply Hnl. by apply live_with_ec_ne.
  - intros i e Hi. by destruct (He i e Hi).
Qed.

Lemma ref_bound g k c w :
  Inv g w → live w k c → UINT32_room (g_holds g) → 0 < ec_mRefCount c < UINT32_MAX.
Proof.
  intros HI Hk Hr. destruct (inv_ctx _ _ HI k c Hk). split; [done|]. rewrite ok_ref0, ok_wait0.
  pose proof (holds_length (g_holds g) k). unfold UINT32_room, UINT32_MAX in *.
  destruct (ec_owner c), (IsWaitingForAck c); simpl; lia.
Qed.

Lemma wp_Retain g k c w (Q : () → World → Prop) :
  Inv g w → live w k c → UINT32_room (g_holds g) →
  (let c' := ecset_ref (ec_mRefCount c + 1) c in
   Inv (hold k g) (with_ec k c' w) → live (with_ec k c' w) k c' → Q () (with_ec k c' w)) →
  wp (Retain k) Q w.
Proof.
  intros HI Hk Hr HQ. unfold Retain. wstep. wstep. pose proof (ref_bound _ _ _ _ HI Hk Hr) as Hb.
  wstep. apply wp_verify; [lia|]. wstep. apply wp_verify; [lia|]. wstep.
  apply HQ; [by apply Inv_retain|by eapply live_with_ec].
Qed.

(** What is left of an exchange whose reference is dropped. *)
Definition dropped (c : ExchangeContext) : option ExchangeContext :=
  if ec_mRefCount c - 1 =? 0 then None else Some (ecset_ref (ec_mRefCount c - 1) c).

Definition with_slot (k : nat) (o : option ExchangeContext) (w : World) : World := wset_contexts (<[k := o]> (w_contexts w)) w.

Lemma Inv_release g k c w : Inv (hold k g) w → live w k c → Inv g (with_slot k (dropped c) w).
Proof.
  intros [Hc Hf He Hn Ht] Hk. destruct (Hc k c Hk) as [Hw Href Hp Ho Hd Hlo Hs Hm Hig Hep Hv Ha Hti Htm Hre].
  simpl g_holds in Href. rewrite holds_same in Href.
  pose proof (entries_nonneg (w_table w) k) as He0. pose proof (holds_nonneg (g_holds g) k) as Hh0.
  pose proof (lookup_lt_Some _ _ _ Hk) as Hlt.
  constructor; try done.
  - intros k' d Hl. unfold live, with_slot in Hl; simpl in Hl. destruct (decide (k = k')) as [<-|Hne].
    + rewrite list_lookup_insert_eq in Hl by done. unfold dropped in Hl.
      destruct (Z.eqb_spec (ec_mRefCount c - 1) 0); simplify_eq. constructor; try done; simpl; [lia|].
      destruct (ec_owner c); simpl in *; lia.
    + rewrite list_lookup_insert_ne in Hl by done. destruct (Hc k' d Hl). constructor; try done.
      simpl g_holds in *. by rewrite holds_other in ok_ref0.
  - intros k' Hnl. destruct (decide (k = k')) as [<-|Hne].
    + unfold live, with_slot in Hnl; simpl in Hnl. rewrite list_lookup_insert_eq in Hnl by done. unfold dropped in Hnl.
      destruct (Z.eqb_spec (ec_mRefCount c - 1) 0); [|by destruct (Hnl (ecset_ref (ec_mRefCount c - 1) c))].
      simpl w_table. simpl w_responseTimers.
      assert (ec_owner c = false ∧ entries (w_table w) k = 0 ∧ holds (g_holds g) k = 0) as (H1 & H2 & H3)
        by (destruct (ec_owner c); simpl in *; lia || (split; [done|lia])).
      split; [done|]. split; [done|]. destruct (w_responseTimers w !! k) eqn:E; [|done].
      destruct Hre as [_ [Hcl|[_ Hcl]]]; [done|specialize (Ho Hcl)|]; congruence.
    + destruct (Hf k') as (H1 & H2 & H3).
      { intros d Hd'. apply (Hnl d). unfold live, with_slot; simpl. by rewrite list_lookup_insert_ne. }
      simpl g_holds in H2. by rewrite holds_other in H2.
  - intros i e Hi. by destruct (He i e Hi).
Qed.

(** An exchange whose last reference is dropped is closed. *)
Lemma last_ref_closed g k c w :
  Inv (hold k g) w → live w k c → ec_mRefCount c - 1 = 0 → ec_has kFlagClosed c = true.
Proof.
  intros HI Hk Hz. destruct (inv_ctx _ _ HI k c Hk). simpl g_holds in *. rewrite holds_same in ok_ref0.
  pose proof (entries_nonneg (w_table w) k). pose proof (holds_nonneg (g_holds g) k).
  destruct (ec_has kFlagClosed c); [done|]. rewrite ok_open0 in ok_ref0 by done. simpl in *. lia.
Qed.

Lemma wp_Release_exec k c w (Q : () → World → Prop) :
  live w k c → ec_mRefCount c ≠ 0 → (ec_mRefCount c - 1 = 0 → ec_has kFlagClosed c = true) →
  Q () (with_slot k (dropped c) w) → wp (Release k) Q w.
Proof.
  intros Hk Hp Hcl HQ. unfold Release. wstep. wstep. wstep.
  apply wp_verify; [destruct (Z.eqb_spec (ec_mRefCount c) 0); [lia|done]|].
  wstep. wstep. unfold when, dropped in *. destruct (Z.eqb_spec (ec_mRefCount c - 1) 0) as [Hz|Hz]; [|exact HQ].
  unfold ReleaseContext. wstep. eapply wp_get_ec; [by eapply live_with_ec|]. wstep.
  apply wp_verify; [simpl; lia|]. wstep. apply wp_verify; [exact (Hcl Hz)|]. wstep.
  unfold with_slot in HQ. simpl. rewrite list_insert_insert_eq. exact HQ.
Qed.

Lemma wp_Release g k c w (Q : () → World → Prop) :
  Inv (hold k g) w → live w k c →
  (Inv g (with_slot k (dropped c) w) → Q () (with_slot k (dropped c) w)) → wp (Release k) Q w.
Proof.
  intros HI Hk HQ. pose proof (ok_pos _ _ _ _ _ _ _ _ _ (inv_ctx _ _ HI k c Hk)) as Hp.
  apply (wp_Release_exec k c); [done|lia|by eapply last_ref_closed|]. by apply HQ, Inv_release.
Qed.

(** * The table of retransmissions *)

(** ** The timer *)

Section Fold.
Context {A : Type} (f : Z → A → Z) (Hf : ∀ n o, f n o <= n).

Lemma foldl_le init l : foldl f init l <= init.
Proof using Hf. revert init. induction l as [|o l IH]; intros init; simpl; [lia|]. specialize (IH (f init o)). specialize (Hf init o). lia. Qed.

Lemma foldl_le_elem init l o d : o ∈ l → (∀ n, f n o <= d) → foldl f init l <= d.
Proof using Hf.
  intros Ho Hd. revert init. induction l as [|x l IH]; intros init; [by apply elem_of_nil in Ho|].
  apply elem_of_cons in Ho as [<-|Ho]; simpl; [|by apply IH].
  pose proof (foldl_le (f init o) l). specialize (Hd init). lia.
Qed.
End Fold.

Lemma earlier_le t n : earlier t n <= n ∧ earlier t n <= t.
Proof. unfold earlier. destruct (Z.ltb_spec t n); lia. Qed.

Lemma ack_deadline_le n o : ack_deadline o n <= n.
Proof. unfold ack_deadline. destruct o as [c|]; [|lia]. destruct (IsAckPending c); [apply earlier_le|lia]. Qed.

Lemma entry_deadline_le n o : entry_deadline o n <= n.
Proof. unfold entry_deadline. destruct o as [e|]; [apply earlier_le|lia]. Qed.

(** The time that [StartTimer] computes. *)
Definition next_wake (w : World) : Z :=
  foldl (λ next o, entry_deadline o next) (foldl (λ next o, ack_deadline o next) UINT64_MAX (w_contexts w)) (w_table w).

Lemma next_wake_ack w k c : live w k c → IsAckPending c = true → next_wake w <= ec_mNextAckTime c.
Proof.
  intros Hk Hp. unfold next_wake. etransitivity; [apply foldl_le, entry_deadline_le|].
  eapply (foldl_le_elem (λ next o, ack_deadline o next)); [exact ack_deadline_le|by eapply list_elem_of_lookup_2|].
  intros n. simpl. rewrite Hp. apply earlier_le.
Qed.

Lemma next_wake_entry w i e : entry w i e → next_wake w <= re_nextRetransTime e.
Proof.
  intros Hi. eapply (foldl_le_elem (λ next o, entry_deadline o next)); [exact entry_deadline_le|by eapply list_elem_of_lookup_2|].
  intros n. apply earlier_le.
Qed.

(** Only the timer and the number of answers of the environment differ. *)
Definition timer_only (w w' : World) : Prop := ∃ t n, w' = wset_timer t (wset_tick n w).

(** The state when every deadline is covered. *)
Lemma Inv_armed g t n w :
  Inv g w → (∀ d, next_wake w <= d → d < UINT64_MAX → covered (w_now w) t d) → Inv (arm true g) (wset_timer t (wset_tick n w)).
Proof.
  intros [Hc Hf He Hn Ht] Hcov. constructor; try done.
  - intros k c Hk. destruct (Hc k c Hk). constructor; try done. intros _ Hp. apply Hcov; [|lia]. by eapply next_wake_ack.
  - intros i e Hi. destruct (He i e Hi). constructor; try done. intros _. apply Hcov; [|lia]. by eapply next_wake_entry.
Qed.

Lemma wp_StartTimer E g w (Q : () → World → Prop) :
  Inv g w → (∀ w', Inv (arm true g) w' → timer_only w w' → Q () w') → wp (StartTimer E) Q w.
Proof.
  intros HI HQ. unfold StartTimer. wstep. wstep. change (foldl _ (foldl _ _ _) (w_table w)) with (next_wake w).
  wstep. apply wp_modify. destruct (Z.eqb_spec (next_wake w) UINT64_MAX) as [Hm|Hm]; simpl.
  { wstep. apply HQ; [|by exists None, (w_tick w)]. apply (Inv_armed g None (w_tick w) w HI). intros d. lia. }
  wstep. wstep. destruct (ok a); [|done]. wstep.
  apply HQ; [|by eexists _, _]. apply (Inv_armed g _ _ w HI). intros d Hd _. eexists. split; [done|].
  rewrite Z.gtb_ltb. destruct (Z.ltb_spec (w_now w) (next_wake w)); lia.
Qed.

(** ** Entries *)

(** The reference of an entry becomes a reference of the caller. *)
Lemma Inv_entry_hold g i e c w :
  Inv g w → entry w i e → live w (re_ec e) c → g_fresh g = None ∨ g_fresh g = Some i →
  Inv (hold (re_ec e) (fresh None g)) (with_ec (re_ec e) (ec_set kFlagWaitingForAck false c) (with_entry i None w)).
Proof.
  intros [Hc Hf He Hn Ht] Hi Hk Hfr. set (k := re_ec e) in *.
  assert (∀ k', entries (<[i := None]> (w_table w)) k' = entries (w_table w) k' - Z.b2z (bool_decide (k = k'))) as Hent.
  { intros k'. rewrite (entries_insert _ _ (Some e)) by done. simpl. fold k. lia. }
  constructor; try done.
  - intros k' d Hl. simpl w_table. destruct (decide (k = k')) as [<-|Hne].
    + assert (d = ec_set kFlagWaitingForAck false c) as ->.
      { pose proof (live_with_ec (with_entry i None w) k (ec_set kFlagWaitingForAck false c) c Hk). unfold live in *. congruence. }
      destruct (Hc k c Hk). pose proof (entries_pos _ _ _ Hi) as Hp. fold k in Hp.
      specialize (Hent k). rewrite bool_decide_true in Hent by done. simpl in Hent.
      assert (IsWaitingForAck c = true) as Hw by (destruct (IsWaitingForAck c); [done|simpl in *; lia]).
      rewrite Hw in ok_wait0. simpl in ok_wait0.
      constructor; try done; rewrite ?Hent; flags; simpl; rewrite ?bool_decide_true by done; simpl; try lia; done.
    + apply live_with_ec_ne in Hl; [|done]. destruct (Hc k' d Hl). specialize (Hent k').
      rewrite bool_decide_false in Hent by done. simpl in Hent. rewrite Z.sub_0_r in Hent.
      constructor; try done; rewrite ?Hent; try done. simpl g_holds. by rewrite holds_other.
  - intros k' Hnl. destruct (decide (k = k')) as [<-|Hne].
    { exfalso. eapply Hnl. eapply live_with_ec. exact Hk. }
    simpl. rewrite Hent, !bool_decide_false by done. destruct (Hf k') as (H1 & H2 & H3); [|split; [simpl; lia|done]].
    intros d Hd. eapply Hnl. by apply live_with_ec_ne.
  - intros j x Hj. unfold entry in Hj; simpl in Hj. destruct (decide (i = j)) as [<-|Hne].
    + rewrite list_lookup_insert_eq in Hj; [done|]. by apply lookup_lt_Some in Hi.
    + rewrite list_lookup_insert_ne in Hj by done. destruct (He j x Hj). constructor; try done. intros _. apply ok_buf0.
      destruct Hfr as [->| ->]; congruence.
Qed.

(** What [ReleaseEntry] makes of an exchange. *)
Definition unwaiting (c : ExchangeContext) : ExchangeContext := ec_set kFlagWaitingForAck false c.

Lemma wp_ReleaseEntry g i e c w (Q : () → World → Prop) :
  Inv g w → entry w i e → live w (re_ec e) c → g_fresh g = None ∨ g_fresh g = Some i →
  (let w' := with_entry i None (with_slot (re_ec e) (dropped (unwaiting c)) w) in Inv (fresh None g) w' → Q () w') →
  wp (ReleaseEntry i) Q w.
Proof.
  intros HI Hi Hk Hfr HQ. pose proof (Inv_entry_hold g i e c w HI Hi Hk Hfr) as HI2.
  assert (live (with_ec (re_ec e) (unwaiting c) (with_entry i None w)) (re_ec e) (unwaiting c)) as Hk2 by (eapply live_with_ec, Hk).
  pose proof (ok_pos _ _ _ _ _ _ _ _ _ (inv_ctx _ _ HI2 _ _ Hk2)) as Hp.
  unfold ReleaseEntry. wstep. wstep. wstep. unfold SetWaitingForAck. wstep. wstep.
  apply (wp_Release_exec _ (unwaiting c)); [by eapply live_with_ec|lia|by eapply last_ref_closed|].
  wstep. pose proof (Inv_release _ _ _ _ HI2 Hk2) as HI3.
  unfold with_slot, with_ec, with_entry in *. simpl in *. rewrite list_insert_insert_eq in *. by apply HQ.
Qed.

(** What an operation that only drops references and acknowledgements leaves of the exchange
    [k]. *)
Record same_id (c c' : ExchangeContext) : Prop := {
  si_owner : ec_owner c' = ec_owner c;
  si_session : ec_mSession c' = ec_mSession c;
  si_dispatch : ec_mDispatch c' = ec_mDispatch c;
  si_uid : ec_uid c' = ec_uid c;
  si_closed : ec_has kFlagClosed c = true → ec_has kFlagClosed c' = true
}.

#[export] Instance same_id_refl : Reflexive same_id.
Proof. by constructor. Qed.
#[export] Instance same_id_trans : Transitive same_id.
Proof. intros c1 c2 c3 [] []. constructor; solve [congruence|auto]. Qed.

Definition kept (k : nat) (w w' : World) : Prop := ∀ c, live w k c → ∃ c', live w' k c' ∧ same_id c c'.

#[export] Instance kept_refl k : Reflexive (kept k).
Proof. intros w c Hk. by exists c. Qed.
#[export] Instance kept_trans k : Transitive (kept k).
Proof. intros w1 w2 w3 H1 H2 c Hc. destruct (H1 c Hc) as (c2 & Hc2 & S2). destruct (H2 c2 Hc2) as (c3 & Hc3 & S3). exists c3. split; [done|by transitivity c2]. Qed.

Lemma kept_contexts k w w' : w_contexts w' = w_contexts w → kept k w w'.
Proof. intros E c Hc. exists c. split; [|done]. unfold live. by rewrite E. Qed.

Lemma kept_timer k w w' : timer_only w w' → kept k w w'.
Proof. intros (t & n & ->). by apply kept_contexts. Qed.

Lemma kept_with_ec k k' c c' w : live w k' c → same_id c c' → kept k w (with_ec k' c' w).
Proof.
  intros Hc Hs d Hd. destruct (decide (k' = k)) as [->|Hne].
  - exists c'. assert (d = c) as -> by (unfold live in *; congruence). split; [by eapply live_with_ec|done].
  - exists d. split; [by apply live_with_ec_ne|done].
Qed.

(** An exchange with another reference survives a drop. *)
Lemma kept_dropped k k' c c' w :
  live w k' c → same_id c c' → (k = k' → ec_mRefCount c' ≠ 1) → kept k w (with_slot k' (dropped c') w).
Proof.
  intros Hc Hs Hr d Hd. unfold live, with_slot; simpl. destruct (decide (k' = k)) as [->|Hne].
  - assert (d = c) as -> by (unfold live in *; congruence). unfold dropped. rewrite list_lookup_insert_eq by (by apply lookup_lt_Some in Hc).
    specialize (Hr eq_refl). destruct (Z.eqb_spec (ec_mRefCount c' - 1) 0); [lia|]. eexists. split; [done|].
    destruct Hs. by constructor.
  - exists d. by rewrite list_lookup_insert_ne.
Qed.

(** The reference count of an exchange that an entry and another reference keep. *)
Lemma shared_ref g w i e c :
  Inv g w → entry w i e → live w (re_ec e) c → ec_owner c = true ∨ 0 < holds (g_holds g) (re_ec e) → ec_mRefCount c ≠ 1.
Proof.
  intros HI Hi Hk Ho. destruct (inv_ctx _ _ HI _ _ Hk). pose proof (entries_pos _ _ _ Hi).
  pose proof (holds_nonneg (g_holds g) (re_ec e)). destruct Ho as [Ho|Ho]; [rewrite Ho in *|destruct (ec_owner c)]; simpl in *; lia.
Qed.

Lemma same_id_unwaiting c : same_id c (unwaiting c).
Proof. unfold unwaiting. constructor; try done. flags. done. Qed.

(** [ClearRetransTable] of the entry [i] of [k]. *)
Lemma wp_ClearRetransTable E g i e w (Q : () → World → Prop) :
  Inv g w → entry w i e → g_fresh g = None ∨ g_fresh g = Some i →
  (∀ w', Inv (arm true (fresh None g)) w' →
    w_table w' = <[i := None]> (w_table w) →
    (∀ k c, live w k c → (k = re_ec e → ec_owner c = true ∨ 0 < holds (g_holds g) k) → kept k w w') →
    w_trace w' = w_trace w ∧ w_now w' = w_now w → Q () w') →
  wp (ClearRetransTable E i) Q w.
Proof.
  intros HI Hi Hfr HQ. destruct (entry_live _ _ _ _ HI Hi) as (c & Hk & _).
  unfold ClearRetransTable. wstep. eapply wp_ReleaseEntry; [done..|]. cbv zeta. intros HI2.
  eapply wp_StartTimer; [done|]. intros w' HI3 (t & n & ->). apply HQ; [done..| |done].
  intros k d Hd Hor. transitivity (with_slot (re_ec e) (dropped (unwaiting c)) w); [|by apply kept_contexts].
  eapply kept_dropped; [done|apply same_id_unwaiting|]. intros ->.
  assert (d = c) as -> by (unfold live in *; congruence). exact (shared_ref g w i e c HI Hi Hk (Hor eq_refl)).
Qed.

(** ** Adding and sending *)

Lemma Inv_arm_any g w : Inv (arm true g) w → Inv g w.
Proof. destruct g as [h [] f n e cl]; [done|]. apply (Inv_unarm (mkGhost h true f n e cl)). Qed.

Lemma Inv_with_entry g i e e' w :
  Inv g w → entry w i e → re_ec e' = re_ec e → entry_ok g (w_now w) (w_timer w) i e' → Inv g (with_entry i (Some e') w).
Proof.
  intros [Hc Hf He Hn Ht] Hi Hec Hok.
  assert (∀ k, entries (<[i := Some e']> (w_table w)) k = entries (w_table w) k) as Hent.
  { intros k. rewrite (entries_insert _ _ (Some e)) by done. simpl. rewrite Hec. lia. }
  constructor; try done.
  - intros k c Hk. destruct (Hc k c Hk). constructor; try done; simpl; by rewrite Hent.
  - intros k Hk. simpl. rewrite Hent. by apply Hf.
  - intros j x Hj. unfold entry in Hj; simpl in Hj. destruct (decide (i = j)) as [<-|Hne].
    + rewrite list_lookup_insert_eq in Hj by (by apply lookup_lt_Some in Hi). by simplify_eq.
    + rewrite list_lookup_insert_ne in Hj by done. by apply He.
Qed.

(** The caller's reference becomes that of a new entry. *)
Lemma Inv_hold_entry g i k c s sess w :
  Inv (hold k g) w → g_fresh g = None → w_table w !! i = Some None → live w k c → IsWaitingForAck c = false →
  ec_mSession c = Some s → w_sessions w !! s = Some sess → AllowsMRP sess = true →
  Inv (arm false (fresh (Some i) g)) (with_ec k (ec_set kFlagWaitingForAck true c) (with_entry i (Some (mkEntry k None 0 0)) w)).
Proof.
  intros [Hc Hf He Hn Ht] Hfr Hi Hk Hw Hs Hsess Hmrp.
  assert (∀ k', entries (<[i := Some (mkEntry k None 0 0)]> (w_table w)) k' = entries (w_table w) k' + Z.b2z (bool_decide (k = k'))) as Hent.
  { intros k'. rewrite (entries_insert _ _ None) by done. simpl. lia. }
  constructor; try done.
  - intros k' d Hl. simpl w_table. destruct (decide (k = k')) as [<-|Hne].
    + assert (d = ec_set kFlagWaitingForAck true c) as ->.
      { pose proof (live_with_ec (with_entry i (Some (mkEntry k None 0 0)) w) k (ec_set kFlagWaitingForAck true c) c Hk). unfold live in *. congruence. }
      destruct (Hc k c Hk). simpl g_holds in *. rewrite holds_same in ok_ref0. rewrite Hw in ok_wait0. simpl in ok_wait0.
      specialize (Hent k). rewrite bool_decide_true in Hent by done. simpl in Hent.
      constructor; try done; rewrite ?Hent; flags; simpl; try lia; try done. intros _ _. by exists s, sess.
    + apply live_with_ec_ne in Hl; [|done]. destruct (Hc k' d Hl). specialize (Hent k').
      rewrite bool_decide_false in Hent by done. simpl in Hent. rewrite Z.add_0_r in Hent.
      simpl g_holds in *. rewrite holds_other in ok_ref0 by done. constructor; try done; by rewrite ?Hent.
  - intros k' Hnl. destruct (decide (k = k')) as [<-|Hne].
    { exfalso. eapply Hnl. eapply live_with_ec. exact Hk. }
    simpl. rewrite Hent, !bool_decide_false by done. destruct (Hf k') as (H1 & H2 & H3).
    { intros d Hd. eapply Hnl. by apply live_with_ec_ne. }
    simpl g_holds in H2. rewrite holds_other in H2 by done. split; [simpl; lia|done].
  - intros j x Hj. unfold entry in Hj; simpl in Hj. destruct (decide (i = j)) as [<-|Hne].
    + rewrite list_lookup_insert_eq in Hj by (by apply lookup_lt_Some in Hi). simplify_eq. constructor; try done.
    + rewrite list_lookup_insert_ne in Hj by done. destruct (He j x Hj). constructor; try done. intros _. apply ok_buf0.
      simpl. by rewrite Hfr.
Qed.

Lemma free_index_spec {A} (l : list (option A)) n i : free_index n l = Some i → ∃ j, i = (n + j)%nat ∧ l !! j = Some None.
Proof.
  revert n. induction l as [|[x|] l IH]; intros n Hf; simpl in Hf; [done|..].
  - destruct (IH _ Hf) as (j & -> & Hj). exists (S j). split; [lia|done].
  - simplify_eq. exists 0%nat. split; [lia|done].
Qed.

(** A session for reliable messages. *)
Definition mrp_session (w : World) (c : ExchangeContext) : Prop :=
  ∃ s sess, ec_mSession c = Some s ∧ w_sessions w !! s = Some sess ∧ AllowsMRP sess = true.

Lemma wp_AddToRetransTable g k c w (Q : chip_error + nat → World → Prop) :
  Inv g w → live w k c → mrp_session w c → UINT32_room (g_holds g) → g_fresh g = None →
  (∀ err, Q (inl err) w) →
  (∀ i w' c', Inv (arm false (fresh (Some i) g)) w' → entry w' i (mkEntry k None 0 0) → live w' k c' → same_id c c' →
    ec_mRefCount c' = ec_mRefCount c + 1 → (∀ k', kept k' w w') → w_trace w' = w_trace w → w_sessions w' = w_sessions w → Q (inr i) w') →
  wp (AddToRetransTable k) Q w.
Proof.
  intros HI Hk (s & sess & Hs & Hsess & Hmrp) Hroom Hfr Herr HQ. unfold AddToRetransTable. wstep. wstep.
  destruct (IsWaitingForAck c) eqn:Hw; [wstep; apply Herr|]. wstep. wstep.
  destruct (free_index 0 (w_table w)) as [i|] eqn:Hi; [|wstep; apply Herr].
  apply free_index_spec in Hi as (j & -> & Hj). simpl Nat.add.
  wstep. eapply wp_Retain; [done..|]. cbv zeta. set (c1 := ecset_ref (ec_mRefCount c + 1) c). intros HI2 Hk2.
  pose proof (Inv_hold_entry g j k c1 s sess _ HI2 Hfr Hj Hk2 Hw Hs Hsess Hmrp) as HI3.
  wstep. wstep. wstep. unfold SetWaitingForAck. eapply wp_modify_ec; [exact Hk2|]. wstep.
  eapply HQ; [exact HI3|..].
  - unfold entry; simpl. apply list_lookup_insert_eq. by apply lookup_lt_Some in Hj.
  - eapply (live_with_ec _ k _ c1). exact Hk2.
  - constructor; try done. flags. done.
  - done.
  - intros k'. transitivity (with_ec k c1 w); [by eapply kept_with_ec|].
    transitivity (with_entry j (Some (mkEntry k None 0 0)) (with_ec k c1 w)); [by apply kept_contexts|].
    eapply kept_with_ec; [exact Hk2|]. constructor; try done. flags. done.
  - done.
  - done.
Qed.

Lemma AllowsMRP_not_group sess : AllowsMRP sess = true → Session_IsGroupSession sess = false.
Proof. unfold AllowsMRP, Session_IsGroupSession. by destruct (s_type sess). Qed.

Lemma GetBackoff_range c base n r : in_u32 (GetBackoff c base n r).
Proof. unfold GetBackoff. destruct (backoff_loop _ _ _). apply u32_range. Qed.

Lemma wp_CalculateNextRetransTime E g i e w (Q : () → World → Prop) :
  Inv g w → g_armed g = false → g_nosess g ≠ Some (re_ec e) → entry w i e →
  (∀ t, let w' := with_entry i (Some (mkEntry (re_ec e) (re_retainedBuf e) t (re_sendCount e))) (wset_tick (S (w_tick w)) w) in
     w_now w <= t → Inv g w' → Q () w') →
  wp (CalculateNextRetransTime E i) Q w.
Proof.
  intros HI Ha Hns Hi HQ. destruct (entry_live _ _ _ _ HI Hi) as (c & Hk & Hw).
  destruct (ok_mrp _ _ _ _ _ _ _ _ _ (inv_ctx _ _ HI _ _ Hk) Hw Hns) as (s & sess & Hs & Hsess & Hmrp).
  unfold CalculateNextRetransTime. wstep. wstep. wstep. wstep. wstep. unfold GetSessionHandle. rewrite Hs. wstep.
  wstep. wstep. wstep. wstep. wstep.
  assert (∀ base, wp (rand ← ask (env_rand E);
      let backoff := GetBackoff (env_settings E) (u32 base) (re_sendCount e) rand in
      put_entry i (Some (mkEntry (re_ec e) (re_retainedBuf e) (u64 (w_now w + backoff)) (re_sendCount e)))) Q w) as Hfin.
  { intros base. wstep. wstep. cbv zeta. wstep.
    set (b := GetBackoff _ _ _ _). pose proof (GetBackoff_range (env_settings E) (u32 base) (re_sendCount e) a) as Hb. fold b in Hb.
    pose proof (inv_now _ _ HI) as Hn.
    apply (HQ (u64 (w_now w + b))); [rewrite u64_id by solve_width; unfold in_u32 in *; lia|].
    eapply Inv_with_entry; [by apply Inv_tick|exact Hi|done|].
    destruct (inv_entry _ _ HI _ _ Hi). constructor; try done; simpl.
    - rewrite u64_id by solve_width. unfold UINT64_MAX, in_u32 in *. lia.
    - congruence. }
  destruct (ec_has kFlagReceivedAtLeastOneMessage c); [|apply Hfin].
  wstep. unfold GetRemoteMRPConfig. wstep. apply wp_verify; [by rewrite AllowsMRP_not_group|]. wstep. wstep. apply Hfin.
Qed.

Lemma wp_StartRetransmision E g i e w (Q : () → World → Prop) :
  Inv (arm false g) w → g_nosess g ≠ Some (re_ec e) → entry w i e →
  (∀ w', Inv (arm true g) w' → (∀ k, kept k w w') → Q () w') → wp (StartRetransmision E i) Q w.
Proof.
  intros HI Hns Hi HQ. unfold StartRetransmision. wstep. eapply wp_CalculateNextRetransTime; [done..|].
  cbv zeta. intros t _ HI2. eapply wp_StartTimer; [done|]. intros w' HI3 (t' & n & ->). apply HQ; [exact HI3|].
  intros k. by apply kept_contexts.
Qed.

(** ** Removing *)

Lemma find_entry_spec f t n i : find_entry f n t = Some i → ∃ j e, i = (n + j)%nat ∧ t !! j = Some (Some e) ∧ f e = true.
Proof.
  revert n. induction t as [|[e|] t IH]; intros n Hf; simpl in Hf; [done|destruct (f e) eqn:Hfe|].
  - simplify_eq. exists 0%nat, e. split; [lia|done].
  - destruct (IH _ Hf) as (j & e' & -> & Hj). exists (S j), e'. split; [lia|done].
  - destruct (IH _ Hf) as (j & e' & -> & Hj). exists (S j), e'. split; [lia|done].
Qed.

Lemma find_entry_none f t n i e : find_entry f n t = None → t !! i = Some (Some e) → f e = false.
Proof.
  revert n i. induction t as [|[x|] t IH]; intros n [|i] Hf Hi; simplify_eq/=.
  - by destruct (f e).
  - destruct (f x); [done|]. by eapply IH.
  - by eapply IH.
Qed.

(** The entry of [k] is removed, if it has one. An exchange without a session may be the
    reason. *)
Lemma wp_ClearRetransTable_of E g k w (Q : () → World → Prop) :
  Inv g w → g_fresh g = None →
  (∀ w', Inv g w' → entries (w_table w') k = 0 →
    (∀ k' c, live w k' c → (k' = k → ec_owner c = true ∨ 0 < holds (g_holds g) k') → kept k' w w') → Q () w') →
  wp (ClearRetransTable_of E k) Q w.
Proof.
  intros HI Hfr HQ. unfold ClearRetransTable_of. wstep. wstep.
  assert (∀ t n, find_entry (λ e, bool_decide (re_ec e = k)) n t = None → entries t k = 0) as Hz.
  { induction t as [|[e|] t IH]; intros n Hf; simpl in *; [done|..].
    - destruct (bool_decide (re_ec e = k)); [done|]. simpl. by eapply IH.
    - by eapply IH. }
  destruct (find_entry _ 0 (w_table w)) as [i|] eqn:Hi; [|wstep; apply HQ; [done|by eapply Hz|by intros]].
  apply find_entry_spec in Hi as (j & e & -> & Hj & He%bool_decide_eq_true). simpl Nat.add.
  eapply wp_ClearRetransTable; [done|exact Hj|by left|]. intros w' HI' Ht Hkept Htr. apply HQ.
  - destruct g as [h a f n' e' cl]; simpl in *; subst f. by apply Inv_arm_any.
  - rewrite Ht. rewrite (entries_insert _ _ (Some e)) by done. simpl. rewrite bool_decide_true by done. simpl.
    destruct (entry_live _ _ _ _ HI Hj) as (c & Hk & Hw). rewrite He in Hk.
    pose proof (ok_wait _ _ _ _ _ _ _ _ _ (inv_ctx _ _ HI _ _ Hk)) as Hc. rewrite Hw in Hc. simpl in Hc. lia.
  - rewrite He in Hkept. done.
Qed.

Lemma wp_CheckAndRemRetransTable E g k a w (Q : bool → World → Prop) :
  Inv g w → g_fresh g = None → 0 < holds (g_holds g) k →
  (∀ b w', Inv g w' → (∀ k', kept k' w w') → w_trace w' = w_trace w → (entries (w_table w) k = 0 → b = false ∧ w' = w) → Q b w') →
  wp (CheckAndRemRetransTable E k a) Q w.
Proof.
  intros HI Hfr Hh HQ. unfold CheckAndRemRetransTable. wstep. wstep.
  destruct (find_entry _ 0 (w_table w)) as [i|] eqn:Hi; [|wstep; by apply HQ].
  apply find_entry_spec in Hi as (j & e & -> & Hj & He). simpl Nat.add. zbool. apply bool_decide_eq_true in H.
  wstep. eapply wp_ClearRetransTable; [done|exact Hj|by left|]. intros w' HI' Ht Hkept [Htr _]. wstep. apply HQ; [| |done|].
  - destruct g as [h b f n' e' cl]; simpl in *; subst f. by apply Inv_arm_any.
  - intros k' c Hc. eapply Hkept; [exact Hc| |done]. intros ->. right. by rewrite H.
  - intros Hz. by destruct (entries_zero _ _ _ _ Hz Hj).
Qed.
