(* ===== verification/ExchSend.v ===== *)
(** * The exchange layer: sending

    [SendMessage], the acknowledgements and the end of an exchange keep the invariant. *)

From S2P Require Import Prelude.
From S2P Require Import ChipError.
From S2P Require Import MessageHeader.
From S2P Require Import Mrp.
From S2P Require Import ExchTypes.
From S2P Require Import ExchOps.
From S2P Require Import ExchInv.

(** The retransmissions in the trace, the latest first. *)
Definition is_resend (ev : Event) : bool := match ev with EvResent _ _ _ => true | _ => false end.
Definition resends (w : World) : list Event := filter (λ ev, is_resend ev) (w_trace w).

(** Exchanges, table and timers stay; sessions and the trace may
    change, but nothing is retransmitted. *)
Record quiet (w w' : World) : Prop := {
  q_contexts : w_contexts w' = w_contexts w;
  q_table : w_table w' = w_table w;
  q_timer : w_timer w' = w_timer w;
  q_responses : w_responseTimers w' = w_responseTimers w;
  q_now : w_now w' = w_now w;
  q_trace ev : ev ∈ w_trace w → ev ∈ w_trace w';
  q_resends : resends w' = resends w
}.

#[export] Instance quiet_refl : Reflexive quiet.
Proof. by constructor. Qed.
#[export] Instance quiet_trans : Transitive quiet.
Proof. intros w1 w2 w3 [] []. constructor; solve [congruence|auto]. Qed.

Lemma quiet_live w w' k c : quiet w w' → live w k c → live w' k c.
Proof. intros Hq. unfold live. by rewrite (q_contexts _ _ Hq). Qed.

Lemma quiet_kept w w' k : quiet w w' → kept k w w'.
Proof. intros Hq. by apply kept_contexts, Hq. Qed.

(** ** Sessions *)

Lemma Inv_session g s sess sess' w :
  Inv g w → w_sessions w !! s = Some sess → (s_type sess' = kSecure → s_state sess' ≠ kEstablishing) → AllowsMRP sess' = AllowsMRP sess →
  Inv g (wset_sessions (<[s := sess']> (w_sessions w)) w).
Proof.
  intros [Hc Hf He Hn Ht] Hs Hne Hmrp. constructor; try done. intros k c Hk. destruct (Hc k c Hk).
  assert (s < length (w_sessions w))%nat as Hlt by (by eapply lookup_lt_Some).
  constructor; try done.
  - intros s' Hs'. destruct (ok_session s' Hs') as (x & Hx & Hxe). simpl. destruct (decide (s = s')) as [<-|Hd].
    + exists sess'. by rewrite list_lookup_insert_eq.
    + exists x. by rewrite list_lookup_insert_ne.
  - intros Hw Hg. destruct (ok_mrp Hw Hg) as (s' & x & Hs' & Hx & Ha). exists s'. simpl. destruct (decide (s = s')) as [<-|Hd].
    + exists sess'. rewrite list_lookup_insert_eq by done. repeat split; [done|]. rewrite Hmrp. congruence.
    + exists x. by rewrite list_lookup_insert_ne.
Qed.

Definition usable_session (w : World) (s : nat) : Prop :=
  ∃ sess, w_sessions w !! s = Some sess ∧ (s_type sess = kSecure → s_state sess ≠ kEstablishing).

Lemma wp_MarkAsDefunctIfCASE g s w (Q : () → World → Prop) :
  Inv g w → usable_session w s → (∀ w', Inv g w' → quiet w w' → Q () w') → wp (MarkAsDefunctIfCASE s) Q w.
Proof.
  intros HI (sess & Hs & Hne) HQ. unfold MarkAsDefunctIfCASE. wstep. wstep.
  apply wp_when; intros Hc; [|by apply HQ]. unfold MarkAsDefunct. wstep. wstep.
  apply andb_true_iff in Hc as [Hc%bool_decide_eq_true _].
  destruct (s_state sess) eqn:Hst; [by destruct Hne| |wstep; by apply HQ..].
  wstep. apply HQ; [|by constructor]. by eapply Inv_session.
Qed.

Lemma wp_NotifySessionHang g s w (Q : () → World → Prop) :
  Inv g w → (∀ w', Inv g w' → quiet w w' → Q () w') → wp (NotifySessionHang s) Q w.
Proof. intros HI HQ. unfold NotifySessionHang. wstep. apply HQ; [by apply Inv_emit|]. constructor; try done. simpl. set_solver. Qed.

(** ** The dispatch *)

(** A header acknowledges only what the exchange received. *)
Definition header_ok (w : World) (uid : nat) (h : PayloadHeader) : Prop :=
  ∀ a, mAckMessageCounter h = Some a → EvReceived uid a true ∈ w_trace w.

Lemma wp_PrepareAndSendNonMRPMessage E g k c h w (Q : chip_error → World → Prop) :
  Inv g w → live w k c → header_ok w (ec_uid c) h → (∀ err w', Inv g w' → quiet w w' → Q err w') →
  wp (PrepareAndSendNonMRPMessage E k h) Q w.
Proof.
  intros HI Hk Hh HQ. unfold PrepareAndSendNonMRPMessage. wstep. wstep.
  destruct (ok a.1); simpl; [|wstep; apply HQ; [by apply Inv_tick|by constructor]].
  wstep. eapply wp_get_ec; [exact Hk|]. wstep. wstep.
  destruct (ok a0); simpl; [|wstep; apply HQ; [by do 2 apply Inv_tick|by constructor]].
  wstep. wstep. wstep. apply HQ; [|constructor; try done; simpl; set_solver]. apply Inv_emit; [by do 2 apply Inv_tick|exact Hh].
Qed.

Lemma Inv_fresh_none g w : g_fresh g = None → Inv (arm true (fresh None g)) w → Inv g w.
Proof. destruct g as [h a f n e cl]; simpl; intros ->. apply Inv_arm_any. Qed.

Lemma wp_SendReliably E g k c h w (Q : chip_error → World → Prop) :
  Inv g w → live w k c → mrp_session w c → UINT32_room (g_holds g) → g_fresh g = None → g_nosess g ≠ Some k →
  0 < holds (g_holds g) k → header_ok w (ec_uid c) h →
  (∀ err w', Inv g w' → (∀ k', kept k' w w') → Q err w') → wp (SendReliably E k h) Q w.
Proof.
  intros HI Hk Hmrp Hroom Hfr Hns Hh Hho HQ. unfold SendReliably. wstep.
  eapply wp_AddToRetransTable; [done..| |]; [intros err; wstep; by apply HQ|].
  intros i w1 c1 HI1 Hi1 Hk1 Hs1 Hr1 Hkept1 Htr1 Hse1. wstep. wstep.
  assert (∀ (wx : World) (e : RetransTableEntry) (gx : Ghost) (err : chip_error), Inv gx wx → entry wx i e → re_ec e = k →
    (gx = arm false (fresh (Some i) g) ∨ gx = arm false g) → (∀ k', kept k' w1 wx) →
    wp (_ ← ClearRetransTable E i; mret err) Q wx) as Hfail.
  { intros wx e gx err HIx Hix Hex Hgx Hkx. wstep. eapply wp_ClearRetransTable; [exact HIx|exact Hix| |].
    - destruct Hgx as [->| ->]; simpl; [by right|by left].
    - intros w2 HI2 _ Hkept2 _. wstep. apply HQ.
      + apply Inv_fresh_none; [done|]. destruct Hgx as [->| ->]; exact HI2.
      + intros k'. transitivity w1; [done|]. transitivity wx; [done|]. intros d Hd. eapply Hkept2; [exact Hd| |exact Hd].
        intros ->. right. rewrite Hex. destruct Hgx as [->| ->]; exact Hh. }
  destruct (ok a.1); simpl; [|eapply Hfail; [by apply Inv_tick|exact Hi1|done|by left|intros; by apply kept_contexts]].
  wstep. eapply wp_get_entry; [exact Hi1|]. wstep. wstep. simpl re_ec; simpl re_nextRetransTime; simpl re_sendCount.
  set (w2 := wset_table _ _). set (e2 := mkEntry k (Some a.2) 0 0) in *.
  assert (Inv (arm false g) w2) as HI2.
  { destruct (Inv_with_entry _ i _ e2 _ (Inv_tick _ (S (w_tick w1)) _ HI1) Hi1) as [Hc Hf He Hn Ht]; [done|by constructor|].
    constructor; try done.
    - intros k' d Hd. by destruct (Hc k' d Hd).
    - intros j x Hj. destruct (He j x Hj). constructor; try done. intros _. destruct (decide (i = j)) as [<-|Hne].
      + unfold entry in Hj; simpl in Hj. rewrite list_lookup_insert_eq in Hj by (by eapply lookup_lt_Some, Hi1). by simplify_eq.
      + apply ok_buf. simpl. congruence. }
  assert (entry w2 i e2) as Hi2 by (apply (entry_with_entry (wset_tick (S (w_tick w1)) w1) i _ _ Hi1)).
  assert (∀ k', kept k' w1 w2) as Hkept2 by (intros; by apply kept_contexts).
  wstep. wstep. destruct (ok (MapSendError a0)); simpl; [|eapply Hfail; [by apply Inv_tick|exact Hi2|done|by right|intros; by apply kept_contexts]].
  wstep. eapply wp_get_ec; [exact Hk1|]. wstep. wstep. wstep.
  eapply (wp_StartRetransmision E g i e2); [|done|exact Hi2|].
  - apply Inv_emit; [by apply Inv_tick|]. simpl. rewrite (si_uid _ _ Hs1), Htr1. exact Hho.
  - intros w3 HI3 Hkept3. wstep. apply HQ; [by apply Inv_arm_any|]. intros k'. transitivity w1; [done|].
    etransitivity; [|apply Hkept3]. by apply kept_contexts.
Qed.

(** What the sending of an acknowledgement leaves: the exchange [k] may have none pending. *)
Record calm (k : nat) (c : ExchangeContext) (w w' : World) : Prop := {
  calm_table : w_table w' = w_table w;
  calm_timer : w_timer w' = w_timer w;
  calm_responses : w_responseTimers w' = w_responseTimers w;
  calm_now : w_now w' = w_now w;
  calm_trace ev : ev ∈ w_trace w → ev ∈ w_trace w';
  calm_resends : resends w' = resends w;
  calm_contexts : w_contexts w' = <[k := Some c]> (w_contexts w) ∨ w_contexts w' = <[k := Some (SetAckPending false c)]> (w_contexts w)
}.

Lemma calm_live k c w w' : live w k c → calm k c w w' → live w' k c ∨ live w' k (SetAckPending false c).
Proof.
  intros Hk [_ _ _ _ _ _ Hc]. unfold live. pose proof (lookup_lt_Some _ _ _ Hk).
  destruct Hc as [-> | ->]; rewrite list_lookup_insert_eq by done; auto.
Qed.

Lemma same_id_noack c : same_id c (SetAckPending false c).
Proof. constructor; try done. flags. done. Qed.

Lemma calm_kept k c w w' k' : live w k c → calm k c w w' → kept k' w w'.
Proof.
  intros Hk [_ _ _ _ _ _ [E|E]].
  - transitivity (with_ec k c w); [by eapply kept_with_ec|by apply kept_contexts].
  - transitivity (with_ec k (SetAckPending false c) w); [|by apply kept_contexts].
    eapply kept_with_ec; [done|apply same_id_noack].
Qed.

Lemma quiet_calm k c w w' : live w k c → quiet w w' → calm k c w w'.
Proof. intros Hk [E1 E2 E3 E4 E5 E6 E7]. constructor; try done. left. rewrite E1. by rewrite list_insert_id. Qed.

Lemma calm_quiet k c w w1 w2 : calm k c w w1 → quiet w1 w2 → calm k c w w2.
Proof. intros [] []. constructor; solve [congruence|auto|destruct calm_contexts; [left|right]; congruence]. Qed.

(** The header of a message before the reliable part, and the exchange after it. *)
Lemma wp_piggyback g k c h w (Q : PayloadHeader → World → Prop) :
  Inv g w → live w k c → mAckMessageCounter h = None →
  (∀ h' w', Inv g w' → header_ok w' (ec_uid c) h' → live w' k c ∧ w' = w ∨ live w' k (SetAckPending false c) ∧ w' = with_ec k (SetAckPending false c) w → Q h' w') →
  wp (if HasPiggybackAckPending c
      then _ ← put_ec k (SetAckPending false c);
           mret (SetAckMessageCounter (Some (ec_mPendingPeerAckMessageCounter c)) h)
      else mret h) Q w.
Proof.
  intros HI Hk Hh HQ. destruct (HasPiggybackAckPending c) eqn:Hv.
  - wstep. wstep. wstep. apply HQ.
    + apply (Inv_core g k c); [done..|apply core_same_noack|]. intros _. flags. done.
    + intros a [= <-]. simpl. by apply (ok_ack _ _ _ _ _ _ _ _ _ (inv_ctx _ _ HI k c Hk)).
    + right. split; [|done]. by eapply live_with_ec.
  - wstep. apply HQ; [done| |by left]. intros a Ha. congruence.
Qed.

Lemma usable_of g w k c s : Inv g w → live w k c → ec_mSession c = Some s → usable_session w s.
Proof. intros HI Hk Hs. exact (ok_session _ _ _ _ _ _ _ _ _ (inv_ctx _ _ HI k c Hk) s Hs). Qed.

(** [ExchangeMessageDispatch::SendMessage]. *)
Lemma wp_Dispatch_SendMessage E g s k c b p t w (Q : chip_error → World → Prop) :
  Inv g w → live w k c → ec_mSession c = Some s → UINT32_room (g_holds g) → g_fresh g = None → g_nosess g ≠ Some k →
  0 < holds (g_holds g) k → (∀ err w', Inv g w' → (∀ k', kept k' w w') → Q err w') →
  wp (Dispatch_SendMessage E s k b p t) Q w.
Proof.
  intros HI Hk Hs Hroom Hfr Hns Hh HQ. destruct (usable_of _ _ _ _ _ HI Hk Hs) as (sess & Hsess & _).
  unfold Dispatch_SendMessage. wstep. wstep. destruct (MessagePermitted _ _ _); simpl; [|wstep; by apply HQ].
  wstep. wstep. assert (∀ h, mAckMessageCounter h = None →
    wp (PrepareAndSendNonMRPMessage E k h) Q w) as Hplain.
  { intros h Hn. eapply wp_PrepareAndSendNonMRPMessage; [done..| |].
    - intros a Ha. congruence.
    - intros err w' HI' Hq. apply HQ; [done|]. intros k'. by apply quiet_kept. }
  destruct (AllowsMRP sess) eqn:Hmrp; [|by apply Hplain].
  wstep. eapply wp_piggyback; [done..|]. intros h w1 HI1 Hh1 Hcase.
  assert (∃ c1, live w1 k c1 ∧ same_id c c1 ∧ w_sessions w1 !! s = Some sess ∧ ∀ k', kept k' w w1) as (c1 & Hk1 & Hsi & Hse1 & Hkept).
  { destruct Hcase as [[Hl ->]|[Hl ->]].
    - by exists c.
    - exists (SetAckPending false c). split_and!; [done|apply same_id_noack|done|]. intros k'. eapply kept_with_ec; [done|apply same_id_noack]. }
  rewrite <- (si_uid _ _ Hsi) in Hh1. destruct (_ && _).
  - eapply wp_SendReliably; [done..| |done|done|done|done|done|].
    + exists s, sess. by rewrite (si_session _ _ Hsi).
    + intros err w' HI' Hk'. apply HQ; [done|]. intros k'. by transitivity w1.
  - eapply wp_PrepareAndSendNonMRPMessage; [done..|]. intros err w' HI' Hq. apply HQ; [done|].
    intros k'. transitivity w1; [done|by apply quiet_kept].
Qed.

(** A message without reliable transmission changes only the acknowledgement. *)
Lemma wp_Dispatch_unreliable E g s k c p t w (Q : chip_error → World → Prop) :
  Inv g w → live w k c → ec_mSession c = Some s → (∀ err w', Inv g w' → calm k c w w' → usable_session w' s → Q err w') →
  wp (Dispatch_SendMessage E s k false p t) Q w.
Proof.
  intros HI Hk Hs HQ. destruct (usable_of _ _ _ _ _ HI Hk Hs) as (sess & Hsess & Hne).
  assert (∀ err w', Inv g w' → calm k c w w' → Q err w') as HQ'.
  { intros err w' HI' Hc. apply HQ; [done..|]. destruct (calm_live _ _ _ _ Hk Hc) as [Hl|Hl]; by eapply usable_of. }
  unfold Dispatch_SendMessage. wstep. wstep. destruct (MessagePermitted _ _ _); simpl; [|wstep; apply HQ'; [done|by apply quiet_calm]].
  wstep. wstep. assert (∀ h, mAckMessageCounter h = None →
    wp (PrepareAndSendNonMRPMessage E k h) Q w) as Hplain.
  { intros h Hn. eapply wp_PrepareAndSendNonMRPMessage; [done..| |].
    - intros a Ha. congruence.
    - intros err w' HI' Hq. apply HQ'; [done|by apply quiet_calm]. }
  destruct (AllowsMRP sess) eqn:Hmrp; [|by apply Hplain].
  wstep. eapply wp_piggyback; [done..|]. intros h w1 HI1 Hh1 Hcase. rewrite andb_false_r.
  destruct Hcase as [[Hl ->]|[Hl ->]].
  - eapply wp_PrepareAndSendNonMRPMessage; [done..|]. intros err w' HI' Hq. apply HQ'; [done|by apply quiet_calm].
  - eapply (wp_PrepareAndSendNonMRPMessage E g k (SetAckPending false c)); [done..|]. intros err w' HI' Hq. apply HQ'; [done|].
    eapply calm_quiet; [|done]. constructor; try done. by right.
Qed.

(** ** Standalone acknowledgements *)

Lemma calm_ref k c c1 w w1 w' :
  c1 = ecset_ref (ec_mRefCount c + 1) c → live w k c → ec_mRefCount c ≠ 0 → w1 = with_ec k c1 w → calm k c1 w1 w' →
  ∃ c2, live w' k c2 ∧ (c2 = c1 ∨ c2 = SetAckPending false c1) ∧ calm k c w (with_slot k (dropped c2) w').
Proof.
  intros -> Hk Hr -> [Ht Hti Hre Hno Htr Hrs Hc]. pose proof (lookup_lt_Some _ _ _ Hk) as Hlt.
  assert (∀ c0, w_contexts w' = <[k := Some c0]> (<[k := Some (ecset_ref (ec_mRefCount c + 1) c)]> (w_contexts w)) →
    live w' k c0 ∧ w_contexts (with_slot k (dropped c0) w') = <[k := dropped c0]> (w_contexts w)) as Haux.
  { intros c0 E0. split.
    - unfold live. rewrite E0. apply list_lookup_insert_eq. by rewrite length_insert.
    - simpl. by rewrite E0, !list_insert_insert_eq. }
  assert (∀ d, ec_mRefCount d = ec_mRefCount c + 1 → dropped d = Some (ecset_ref (ec_mRefCount d - 1) d)) as Hd.
  { intros d Hd. unfold dropped. destruct (Z.eqb_spec (ec_mRefCount d - 1) 0); [lia|done]. }
  destruct Hc as [E0|E0]; destruct (Haux _ E0) as [Hl Hs]; eexists; (split; [exact Hl|]); (split; [tauto|]).
  - constructor; try done. left. rewrite Hs, Hd by done. do 2 f_equal. destruct c; unfold ecset_ref; simpl. f_equal. lia.
  - constructor; try done. right. rewrite Hs, Hd by done. do 2 f_equal. destruct c; simpl. unfold SetAckPending, ec_set, ecset_flags, ecset_ref; simpl. f_equal. lia.
Qed.

Lemma wp_ack_body E g s k c w handled (Q : chip_error → World → Prop) :
  Inv g w → live w k c → ec_mSession c = Some s → (∀ err w', Inv g w' → calm k c w w' → Q err w') →
  wp (SendMessage_body E handled k s SecureChannel_Id StandaloneAck (mkSendFlags false true)) Q w.
Proof.
  intros HI Hk Hs HQ. destruct (usable_of _ _ _ _ _ HI Hk Hs) as (sess & Hsess & _).
  unfold SendMessage_body. cbn [kExpectResponse kNoAutoRequestAck andb negb]. wstep. wstep. wstep. wstep. wstep. wstep.
  destruct (Session_IsGroupSession sess && _); [wstep; apply HQ; [done|by apply quiet_calm]|].
  rewrite andb_false_r. simpl andb. wstep. eapply wp_Dispatch_unreliable; [done..|]. intros err w1 HI1 Hc1 Hu1.
  wstep. destruct (ok err); simpl.
  - wstep. wstep. by apply HQ.
  - wstep. wstep. eapply wp_MarkAsDefunctIfCASE; [done..|]. intros w2 HI2 Hq2. wstep. apply HQ; [done|]. by eapply calm_quiet.
Qed.

Lemma wp_SendStandaloneAckMessage E g k c w (Q : chip_error → World → Prop) :
  Inv g w → live w k c → UINT32_room (g_holds g) → (∀ err w', Inv g w' → calm k c w w' → Q err w') →
  wp (SendStandaloneAckMessage E k) Q w.
Proof.
  intros HI Hk Hroom HQ. unfold SendStandaloneAckMessage. wstep. wstep.
  assert (∀ n err, Q err (wset_tick n w)) as Hsame.
  { intros n err. apply HQ; [by apply Inv_tick|]. by apply quiet_calm. }
  destruct a; simpl; [|wstep; apply Hsame]. wstep. unfold SendMessage_with. wstep. eapply wp_get_ec; [exact Hk|].
  destruct (ec_mSession c) as [s|] eqn:Hs; [|wstep; wstep; apply Hsame].
  set (w1 := wset_tick _ w). assert (Inv g w1) as HI1 by (by apply Inv_tick). assert (live w1 k c) as Hk1 by done.
  pose proof (ref_bound _ _ _ _ HI Hk Hroom) as Hb.
  wstep. apply wp_verify; [lia|]. wstep. eapply wp_Retain; [done..|]. cbv zeta. intros HI2 Hk2. wstep.
  eapply (wp_ack_body E _ s); [done..|]. intros err w3 HI3 Hc3. wstep.
  destruct (calm_ref k c _ w1 _ w3 eq_refl Hk1 ltac:(lia) eq_refl Hc3) as (c3 & Hk3 & _ & Hcalm).
  eapply wp_Release; [done..|]. intros HI4. wstep. wstep. apply HQ; [done|]. by destruct Hcalm; constructor.
Qed.

Lemma wp_FlushAcks E g k c w (Q : chip_error → World → Prop) :
  Inv g w → live w k c → UINT32_room (g_holds g) → (∀ err w', Inv g w' → calm k c w w' → (IsAckPending c = false → w' = w) → Q err w') →
  wp (FlushAcks E k) Q w.
Proof.
  intros HI Hk Hroom HQ. unfold FlushAcks. wstep. wstep.
  destruct (IsAckPending c); [eapply wp_SendStandaloneAckMessage; [done..|]; intros err w' HI' Hc; by apply HQ|]. wstep. apply HQ; [done|by apply quiet_calm|done].
Qed.

(** ** Closing *)

Lemma Inv_closing g k w : g_closing g = None → Inv g w → Inv (closing k g) w.
Proof.
  intros Hg [Hc Hf He Hn Ht]. constructor; [|done| |done..].
  - intros k' c Hk. destruct (Hc k' c Hk). constructor; try done.
    + intros H1 H2 _. apply ok_lost; [done..|]. by rewrite Hg.
    + intros H. destruct (ok_response H) as [H1 [H2|[H2 _]]]; [auto|congruence].
  - intros i e Hi. by destruct (He i e Hi).
Qed.

(** The exchange with the flag set and its delegate dropped. *)
Definition closed_ec (c : ExchangeContext) : ExchangeContext := ecset_delegate None (ec_set kFlagClosed true c).

Lemma Inv_closed g k c w :
  Inv g w → g_closing g = None → live w k c → ec_has kFlagClosed c = false → Inv (closing (Some k) g) (with_ec k (closed_ec c) w).
Proof.
  intros HI Hg Hk Hcl. pose proof (Inv_closing g (Some k) w Hg HI) as HI2.
  eapply Inv_with_ec; [done..|]. destruct (inv_ctx _ _ HI2 k c Hk). specialize (ok_open Hcl).
  constructor; try done; unfold closed_ec; flags; try done.
  intros Hx. destruct (ok_response Hx) as [Hy _]. auto.
Qed.

Lemma Inv_cancel g k w : Inv g w → Inv g (wset_responseTimers (delete k (w_responseTimers w)) w).
Proof.
  intros [Hc Hf He Hn Ht]. constructor; try done.
  - intros k' c Hk. destruct (Hc k' c Hk). constructor; try done. simpl. intros H. apply ok_response.
    destruct (decide (k = k')) as [->|Hne]; [rewrite lookup_delete_eq in H; by destruct H|by rewrite lookup_delete_ne in H].
  - intros k' Hk. destruct (Hf k' Hk) as (H1 & H2 & H3). split_and!; [done..|]. simpl.
    destruct (decide (k = k')) as [->|Hne]; [apply lookup_delete_eq|by rewrite lookup_delete_ne].
Qed.

Lemma holds_closing k g : g_holds (closing k g) = g_holds g.
Proof. done. Qed.

Lemma wp_DoClose E g b k c w (Q : () → World → Prop) :
  Inv g w → g_closing g = None → g_fresh g = None → live w k c → UINT32_room (g_holds g) →
  (∀ w' c', Inv (closing (Some k) g) w' → live w' k c' → ec_has kFlagClosed c' = true → ec_owner c' = ec_owner c →
    ec_mSession c' = ec_mSession c → w_responseTimers w' !! k = None →
    (b = true → ec_has kFlagClosed c = false → entries (w_table w') k = 0) → (b = false → w_table w' = w_table w) →
    (∀ k', k' ≠ k → kept k' w w') → (b = false → IsAckPending c = false → w_sessions w' = w_sessions w) → Q () w') →
  wp (DoClose E b k) Q w.
Proof.
  intros HI Hg Hfr Hk Hroom HQ. unfold DoClose. wstep. wstep. destruct (ec_has kFlagClosed c) eqn:Hcl.
  { wstep. apply (HQ w c); [by apply Inv_closing|done..| |done|done|done|done].
    destruct (w_responseTimers w !! k) eqn:Er; [|done].
    destruct (ok_response _ _ _ _ _ _ _ _ _ (inv_ctx _ _ HI k c Hk)) as [_ [H|[H _]]]; [by rewrite Er|congruence..]. }
  wstep. wstep. wstep.
  assert (∀ tr, Inv g (wset_trace tr w) → wp (_ ← modify_ec k (ecset_delegate None); _ ← FlushAcks E k;
    _ ← when b (ClearRetransTable_of E k); c ← get_ec k; when (IsResponseExpected c) (CancelResponseTimer k)) Q
    (wset_trace tr (with_ec k (ec_set kFlagClosed true c) w))) as Hrest.
  { intros tr HI1. wstep. eapply wp_modify_ec; [eapply live_with_ec, Hk|].
    assert (live (wset_trace tr w) k c) as Hk1 by exact Hk.
    pose proof (Inv_closed g k c _ HI1 Hg Hk1 Hcl) as HI2. pose proof (live_with_ec _ k (closed_ec c) c Hk1) as Hk2.
    set (w2 := with_ec k (closed_ec c) (wset_trace tr w)) in *.
    replace (with_ec k (ecset_delegate None (ec_set kFlagClosed true c)) (wset_trace tr (with_ec k (ec_set kFlagClosed true c) w))) with w2
      by (unfold w2, with_ec; simpl; by rewrite list_insert_insert_eq).
    wstep. eapply wp_FlushAcks; [done..|]. intros err w3 HI3 Hc3 Hsame3.
    assert (ec_has kFlagClosed (closed_ec c) = true) as Hcl2 by (unfold closed_ec; flags; done).
    destruct (calm_kept _ _ _ _ k Hk2 Hc3 _ Hk2) as (c3 & Hk3 & [So3 Ss3 _ _ Sc3]).
    pose proof (ok_open _ _ _ _ _ _ _ _ _ (inv_ctx _ _ HI k c Hk) Hcl) as Hown.
    assert (∀ k', k' ≠ k → kept k' w w3) as Hkept3.
    { intros k' Hne d Hd. apply (calm_kept _ _ _ _ k' Hk2 Hc3). by apply live_with_ec_ne. }
    assert (∀ w4 c4, Inv (closing (Some k) g) w4 → live w4 k c4 → same_id c3 c4 → (b = true → entries (w_table w4) k = 0) →
      (b = false → w_table w4 = w_table w) → (∀ k', k' ≠ k → kept k' w3 w4) → (b = false → w4 = w3) →
      wp (c ← get_ec k; when (IsResponseExpected c) (CancelResponseTimer k)) Q w4) as Hlast.
    { intros w4 c4 HI4 Hk4 [So4 Ss4 _ _ Sc4] He4 Ht4 Hkept4 Hw4. wstep. wstep.
      assert (b = false → IsAckPending c = false → w_sessions w4 = w_sessions w) as Hse.
      { intros Hb Hn. rewrite (Hw4 Hb), Hsame3; [done|]. unfold closed_ec. by flags. }
      assert (∀ k', k' ≠ k → kept k' w w4) as Hkept by (intros k' Hne; transitivity w3; auto).
      assert (ec_has kFlagClosed c4 = true ∧ ec_owner c4 = ec_owner c ∧ ec_mSession c4 = ec_mSession c) as (H1 & H2 & H3).
      { rewrite So4, So3, Ss4, Ss3. split_and!; [auto|done..]. }
      apply wp_when; intros Hr.
      - unfold CancelResponseTimer. wstep. apply (HQ _ c4); [by apply Inv_cancel|done..|apply lookup_delete_eq|auto|done|done|done].
      - apply (HQ _ c4); [done..| |auto|done|done|done]. destruct (w_responseTimers w4 !! k) eqn:Er; [|done].
        destruct (ok_response _ _ _ _ _ _ _ _ _ (inv_ctx _ _ HI4 k c4 Hk4)) as [H _]; [by rewrite Er|congruence]. }
    wstep. apply wp_when; intros Hb.
    - eapply wp_ClearRetransTable_of; [done..|]. intros w4 HI4 He4 Hkept.
      destruct (Hkept k c3 Hk3 ltac:(left; by rewrite So3) c3 Hk3) as (c4 & Hk4 & S4).
      eapply Hlast; [done..|by rewrite Hb| |by rewrite Hb]. intros k' Hne d Hd. eapply Hkept; done.
    - eapply Hlast; [done..|congruence| |done|done]. intros _. by rewrite (calm_table _ _ _ _ Hc3). }
  apply wp_when; intros Hd; [wstep|].
  - apply (Hrest (EvClosing (ec_uid c) :: w_trace w)). by apply Inv_emit.
  - apply (Hrest (w_trace w)). by destruct HI; constructor.
Qed.

(** The reference of the creator becomes one of the caller. *)
Lemma Inv_owner_hold g k c w :
  Inv (closing (Some k) g) w → g_closing g = None → live w k c → ec_owner c = true → ec_has kFlagClosed c = true →
  w_responseTimers w !! k = None → Inv (hold k g) (with_ec k (ecset_owner false c) w).
Proof.
  intros [Hc Hf He Hn Ht] Hg Hk Ho Hcl Hr. constructor; try done.
  - intros k' d Hl. destruct (decide (k = k')) as [<-|Hne].
    + assert (d = ecset_owner false c) as -> by (pose proof (live_with_ec w k (ecset_owner false c) c Hk); unfold live in *; congruence).
      destruct (Hc k c Hk). simpl g_holds in *. rewrite Ho in ok_ref. simpl in ok_ref.
      constructor; try done; simpl g_holds; rewrite ?holds_same; simpl ec_mRefCount; simpl ec_owner; simpl; flags; try done; try lia.
      * intros Hx. by rewrite Hcl in Hx.
      * rewrite Hr. intros Hx. by destruct Hx.
    + apply live_with_ec_ne in Hl; [|done]. destruct (Hc k' d Hl). constructor; try done.
      * simpl g_holds. by rewrite holds_other.
      * intros H1 H2 _. apply ok_lost; [done..|]. simpl. congruence.
      * intros H. destruct (ok_response H) as [H1 [H2|[H2 _]]]; [auto|]. simpl in H2. congruence.
  - intros k' Hnl. destruct (decide (k = k')) as [<-|Hne].
    + exfalso. eapply Hnl, live_with_ec, Hk.
    + simpl g_holds. rewrite holds_other by done. apply Hf. intros d Hd. eapply Hnl. by apply live_with_ec_ne.
  - intros i e Hi. by destruct (He i e Hi).
Qed.

Lemma wp_ReleaseOwner g k c w (Q : () → World → Prop) :
  Inv (closing (Some k) g) w → g_closing g = None → live w k c → ec_owner c = true → ec_has kFlagClosed c = true →
  w_responseTimers w !! k = None →
  (∀ w', Inv g w' → w_table w' = w_table w → (∀ c', live w' k c' → ec_owner c' = false) → (∀ k', k' ≠ k → kept k' w w') →
    w_sessions w' = w_sessions w → Q () w') →
  wp (ReleaseOwner k) Q w.
Proof.
  intros HI Hg Hk Ho Hcl Hr HQ. unfold ReleaseOwner. wstep. eapply wp_modify_ec; [done|].
  pose proof (Inv_owner_hold _ _ _ _ HI Hg Hk Ho Hcl Hr) as HI2.
  eapply wp_Release; [done|by eapply live_with_ec|]. intros HI3. apply HQ; [done..| | |done].
  - intros c'. unfold live; simpl. rewrite list_lookup_insert_eq by (rewrite length_insert; by eapply lookup_lt_Some).
    unfold dropped. destruct (_ =? _); [done|]. by intros [= <-].
  - intros k' Hne d Hd. exists d. split; [|done]. unfold live; simpl. by rewrite !list_lookup_insert_ne.
Qed.

(** [Close] is [b = false], [Abort] is [b = true]. *)
Lemma wp_DoClose_release E g (b : bool) k c w (Q : () → World → Prop) :
  Inv g w → g_closing g = None → g_fresh g = None → live w k c → ec_owner c = true → UINT32_room (g_holds g) →
  (∀ w', Inv g w' → (b = true → ec_has kFlagClosed c = false → entries (w_table w') k = 0) →
    (b = false → w_table w' = w_table w) → (∀ c', live w' k c' → ec_owner c' = false) → (∀ k', k' ≠ k → kept k' w w') →
    (b = false → IsAckPending c = false → w_sessions w' = w_sessions w) → Q () w') →
  wp (_ ← VerifyOrDie (0 <? ec_mRefCount c); _ ← DoClose E b k; ReleaseOwner k) Q w.
Proof.
  intros HI Hg Hfr Hk Ho Hroom HQ. pose proof (ref_bound _ _ _ _ HI Hk Hroom) as Hb.
  wstep. apply wp_verify; [lia|]. wstep. eapply wp_DoClose; [done..|]. intros w1 c1 HI1 Hk1 Hcl1 Ho1 _ Hr1 He1 Ht1 Hkept1 Hse1.
  eapply wp_ReleaseOwner; [done..| |done|done|]; [by rewrite Ho1|]. intros w2 HI2 Ht2 Hno2 Hkept2 Hse2.
  apply HQ; [done|by rewrite Ht2|by rewrite Ht2|done| |by rewrite Hse2]. intros k' Hne. transitivity w1; auto.
Qed.

Lemma wp_Close E g k c w (Q : () → World → Prop) :
  Inv g w → g_closing g = None → g_fresh g = None → live w k c → ec_owner c = true → UINT32_room (g_holds g) →
  (∀ w', Inv g w' → w_table w' = w_table w → (∀ c', live w' k c' → ec_owner c' = false) → (∀ k', k' ≠ k → kept k' w w') →
    (IsAckPending c = false → w_sessions w' = w_sessions w) → Q () w') →
  wp (Close E k) Q w.
Proof. intros HI Hg Hfr Hk Ho Hroom HQ. unfold Close. wstep. wstep. eapply wp_DoClose_release; [done..|]. auto. Qed.

Lemma wp_Abort E g k c w (Q : () → World → Prop) :
  Inv g w → g_closing g = None → g_fresh g = None → live w k c → ec_owner c = true → UINT32_room (g_holds g) →
  (∀ w', Inv g w' → (ec_has kFlagClosed c = false → entries (w_table w') k = 0) → Q () w') → wp (Abort E k) Q w.
Proof. intros HI Hg Hfr Hk Ho Hroom HQ. unfold Abort. wstep. wstep. eapply wp_DoClose_release; [done..|]. auto. Qed.

Lemma wp_MessageHandled E g k c w (Q : () → World → Prop) :
  Inv g w → g_closing g = None → g_fresh g = None → live w k c → UINT32_room (g_holds g) →
  (∀ w', Inv g w' →
    (ec_has kFlagClosed c || IsResponseExpected c || IsSendExpected c = false →
     w_table w' = w_table w ∧ ∀ c', live w' k c' → ec_owner c' = false) → Q () w') →
  wp (MessageHandled E k) Q w.
Proof.
  intros HI Hg Hfr Hk Hroom HQ. unfold MessageHandled. wstep. wstep.
  destruct (_ || _) eqn:Hor; [wstep; by apply HQ|]. eapply wp_Close; [done..| |done|auto].
  apply (ok_open _ _ _ _ _ _ _ _ _ (inv_ctx _ _ HI k c Hk)). by repeat (apply orb_false_iff in Hor as [Hor _]).
Qed.

(** ** Messages of the application *)

(** Only flags of the exchange [k] that the invariant does not use differ. *)
Lemma wp_set_flag g k c f b w (Q : () → World → Prop) :
  Inv g w → live w k c → f ∈ [kFlagAutoRequestAck; kFlagWillSendMessage; kFlagReceivedAtLeastOneMessage; kFlagWaitingForResponseOrAck] →
  (let c' := ec_set f b c in Inv g (with_ec k c' w) → live (with_ec k c' w) k c' → same_id c c' → Q () (with_ec k c' w)) →
  wp (modify_ec k (ec_set f b)) Q w.
Proof.
  intros HI Hk Hf HQ. eapply wp_modify_ec; [done|]. apply HQ.
  - eapply Inv_core; [done..|apply core_same_set; set_solver|]. intros _. unfold IsResponseExpected. rewrite ec_has_set.
    case_decide; [subst f; set_solver|done].
  - by eapply live_with_ec.
  - constructor; try done. rewrite ec_has_set. case_decide; [subst f; set_solver|done].
Qed.

(** The flags of an expected response. *)
Definition response_ec (b : bool) (c : ExchangeContext) : ExchangeContext :=
  ec_set kFlagWaitingForResponseOrAck b (ec_set kFlagResponseExpected b c).

Lemma wp_SetResponseExpected g (b : bool) k c w (Q : () → World → Prop) :
  Inv g w → live w k c → (b = false → w_responseTimers w !! k = None) →
  (let c' := response_ec b c in Inv g (with_ec k c' w) → live (with_ec k c' w) k c' → same_id c c' → Q () (with_ec k c' w)) →
  wp (SetResponseExpected b k) Q w.
Proof.
  intros HI Hk Hr HQ. unfold SetResponseExpected. eapply wp_modify_ec; [done|]. apply HQ.
  - eapply Inv_core; [done..| |].
    + eapply core_same_trans; [apply (core_same_set kFlagResponseExpected b); set_solver|apply core_same_set; set_solver].
    + intros Hs _. unfold response_ec. flags. destruct b; [done|]. rewrite Hr in Hs by done. by destruct Hs.
  - by eapply live_with_ec.
  - unfold response_ec. constructor; try done. flags. done.
Qed.

Lemma Inv_start_response g k c t w :
  Inv g w → live w k c → IsResponseExpected c = true → ec_has kFlagClosed c = false →
  Inv g (wset_responseTimers (<[k := t]> (w_responseTimers w)) w).
Proof.
  intros [Hc Hf He Hn Ht] Hk Hr Hcl. constructor; try done.
  - intros k' d Hd. destruct (Hc k' d Hd). constructor; try done. simpl. intros H. destruct (decide (k = k')) as [<-|Hne].
    + assert (d = c) as -> by (unfold live in Hd, Hk; simpl in Hd; congruence). auto.
    + rewrite lookup_insert_ne in H by done. auto.
  - intros k' Hnl. destruct (Hf k' Hnl) as (H1 & H2 & H3). split_and!; [done..|]. simpl. rewrite lookup_insert_ne; [done|].
    intros ->. by eapply Hnl.
Qed.

(** The error that ends the call leaves no timer; otherwise the response is expected. *)
Lemma wp_ExpectResponse E g k c w (Q : chip_error + bool → World → Prop) :
  Inv g w → live w k c → ec_has kFlagClosed c = false →
  (∀ r w' c', Inv g w' → live w' k c' → same_id c c' → w_sessions w' = w_sessions w → Q r w') → wp (ExpectResponse E k) Q w.
Proof.
  intros HI Hk Hcl HQ. unfold ExpectResponse. wstep. wstep. destruct (IsResponseExpected c) eqn:Hr; [wstep; by eapply HQ|].
  wstep. eapply wp_SetResponseExpected; [done..|]. cbv zeta. intros HI1 Hk1 S1.
  destruct (0 <? ec_mResponseTimeout c); [|wstep; by eapply HQ].
  wstep. unfold StartResponseTimer. wstep. wstep. wstep. wstep. wstep.
  assert (ec_has kFlagClosed (response_ec true c) = false) as Hcl1 by (unfold response_ec; by flags).
  apply wp_when; intros Ha.
  - wstep. wstep. rewrite Ha. wstep. eapply HQ; [|exact Hk1|done|done].
    eapply Inv_start_response; [by apply Inv_tick|exact Hk1|unfold response_ec; by flags|done].
  - wstep. rewrite Ha. wstep. set (w2 := wset_tick _ _).
    assert (w_responseTimers w2 !! k = None) as Hn.
    { change (w_responseTimers w !! k = None). destruct (w_responseTimers w !! k) eqn:Er; [|done].
      destruct (ok_response _ _ _ _ _ _ _ _ _ (inv_ctx _ _ HI k c Hk)) as [H _]; [by rewrite Er|congruence]. }
    eapply wp_SetResponseExpected; [by apply Inv_tick|exact Hk1|done|]. cbv zeta. intros HI3 Hk3 S3. wstep.
    eapply HQ; [exact HI3|exact Hk3|by transitivity (response_ec true c)|done].
Qed.

Lemma kept_live k w w' c : kept k w w' → live w k c → ∃ c', live w' k c' ∧ same_id c c'.
Proof. intros H Hc. exact (H c Hc). Qed.

(** The end of [SendMessage]: the response is not expected after a failure, and an exchange
    whose message was sent may be done. *)
Lemma wp_SendMessage_end E g k c s (err : chip_error) (expect standalone : bool) w (Q : () → World → Prop) :
  Inv g w → g_closing g = None → g_fresh g = None → UINT32_room (g_holds g) → live w k c → ec_mSession c = Some s →
  (∀ w', Inv g w' → Q () w') →
  wp (if negb (ok err) then
        _ ← when expect (_ ← CancelResponseTimer k; SetResponseExpected false k);
        MarkAsDefunctIfCASE s
      else when (negb standalone) (_ ← modify_ec k (ec_set kFlagWillSendMessage false); MessageHandled E k)) Q w.
Proof.
  intros HI Hg Hfr Hroom Hk Hs HQ. destruct (ok err); simpl.
  - apply wp_when; intros _; [|by apply HQ]. wstep. eapply wp_set_flag; [done..|set_solver|]. cbv zeta. intros HI1 Hk1 _.
    eapply wp_MessageHandled; [done..|]. auto.
  - wstep. apply wp_when; intros _.
    + wstep. unfold CancelResponseTimer. wstep.
      eapply wp_SetResponseExpected; [by apply Inv_cancel|exact Hk|intros _; apply lookup_delete_eq|].
      cbv zeta. intros HI1 Hk1 S1. eapply wp_MarkAsDefunctIfCASE; [done| |auto].
      eapply usable_of; [done..|]. by rewrite (si_session _ _ S1).
    + eapply wp_MarkAsDefunctIfCASE; [done|by eapply usable_of|auto].
Qed.

Lemma wp_SendMessage E g k c p t fl w (Q : chip_error → World → Prop) :
  Inv g w → g_closing g = None → g_fresh g = None → g_nosess g ≠ Some k ∨ ec_mSession c = None → UINT32_room (k :: g_holds g) →
  live w k c → ec_owner c = true → (∀ err w', Inv g w' → (ec_mSession c = None → w' = w) → Q err w') →
  wp (SendMessage E k p t fl) Q w.
Proof.
  intros HI Hg Hfr Hns Hroom Hk Ho HQ. unfold SendMessage, SendMessage_with. wstep. wstep.
  destruct (ec_mSession c) as [s|] eqn:Hs; [|wstep; by apply HQ]. destruct Hns as [Hns|]; [|done].
  assert (UINT32_room (g_holds g)) as Hroom1 by (unfold UINT32_room in *; simpl in *; lia).
  assert (ec_has kFlagClosed c = false) as Hcl.
  { destruct (ec_has kFlagClosed c) eqn:Hcl; [|done].
    pose proof (ok_lost _ _ _ _ _ _ _ _ _ (inv_ctx _ _ HI k c Hk) Hcl Ho) as H. rewrite Hg in H. rewrite H in Hs; done. }
  pose proof (ref_bound _ _ _ _ HI Hk Hroom1) as Hb.
  wstep. apply wp_verify; [lia|]. wstep. eapply wp_Retain; [done..|]. cbv zeta. set (c1 := ecset_ref _ c). intros HI1 Hk1.
  set (w1 := with_ec k c1 w) in *. assert (0 < holds (g_holds (hold k g)) k) as Hh.
  { simpl g_holds. rewrite holds_same. pose proof (holds_nonneg (g_holds g) k). lia. }
  wstep. eapply (wp_mono _ (λ _ w', Inv (hold k g) w')).
  2: { intros err w' HI'. wstep. destruct (held_live _ _ k HI' Hh) as (c' & Hk').
       eapply wp_Release; [done..|]. intros HI2. wstep. by apply HQ. }
  unfold SendMessage_body. destruct (usable_of _ _ _ _ _ HI1 Hk1 Hs) as (sess & Hsess & Hne). wstep. wstep.
  wstep. eapply (wp_mono _ (λ _ w', Inv (hold k g) w' ∧ ∃ c', live w' k c' ∧ same_id c1 c')).
  { destruct (_ && _); [|wstep; split; [done|by exists c1]]. eapply wp_ExpectResponse; [done..|]. intros r w' c' HI' Hk' S' _. eauto. }
  intros [err|expect] w2 (HI2 & c2 & Hk2 & S2); [by wstep|]. wstep. wstep.
  destruct (_ && _); [by wstep|]. assert (ec_mSession c2 = Some s) as Hs2 by (by rewrite (si_session _ _ S2)).
  wstep. eapply wp_Dispatch_SendMessage; [done..|]. intros err w3 HI3 Hkept3.
  destruct (kept_live _ _ _ _ (Hkept3 k) Hk2) as (c3 & Hk3 & S3). wstep.
  eapply wp_SendMessage_end; [done..| |]; [by rewrite (si_session _ _ S3)|]. intros w4 HI4. by wstep.
Qed.

(** ** Exchanges that do not change but for acknowledgements *)

Record steady (c c' : ExchangeContext) : Prop := {
  st_owner : ec_owner c' = ec_owner c;
  st_session : ec_mSession c' = ec_mSession c;
  st_dispatch : ec_mDispatch c' = ec_mDispatch c;
  st_uid : ec_uid c' = ec_uid c;
  st_delegate : ec_mDelegate c' = ec_mDelegate c;
  st_flags f : f ∉ [kFlagAckPending; kFlagAckMessageCounterIsValid; kFlagWaitingForResponseOrAck] → ec_has f c' = ec_has f c
}.

#[export] Instance steady_refl : Reflexive steady.
Proof. by constructor. Qed.
#[export] Instance steady_trans : Transitive steady.
Proof.
  intros c1 c2 c3 [] []. constructor; try congruence. intros f Hf. rewrite st_flags1 by done. auto.
Qed.

Lemma steady_same_id c c' : steady c c' → same_id c c'.
Proof. intros []. constructor; try done. rewrite st_flags0; [done|set_solver]. Qed.

Lemma steady_set f b c : f ∈ [kFlagAckPending; kFlagAckMessageCounterIsValid; kFlagWaitingForResponseOrAck] → steady c (ec_set f b c).
Proof. intros Hf. constructor; try done. intros h Hh. rewrite ec_has_set. case_decide; [by subst h|done]. Qed.

Lemma calm_steady k c w w' : live w k c → calm k c w w' → ∃ c', live w' k c' ∧ steady c c' ∧ (c' = c ∨ c' = SetAckPending false c).
Proof.
  intros Hk Hc. destruct (calm_live _ _ _ _ Hk Hc) as [H|H]; eexists; (split; [exact H|]); (split; [|tauto]); [done|].
  apply steady_set. set_solver.
Qed.
