(* ===== verification/ExchThm.v ===== *)
(** * The exchange layer: receiving, timeouts and the theorems

    The operations that start outside of the layer keep the invariant of ExchInv, so it holds
    in every state that the layer reaches, and what follows from it. *)

From S2P Require Import Prelude.
From S2P Require Import ChipError.
From S2P Require Import MessageHeader.
From S2P Require Import Mrp.
From S2P Require Import ExchTypes.
From S2P Require Import ExchOps.
From S2P Require Import ExchInv.
From S2P Require Import ExchSend.

(** No operation on an exchange or the table is under way, but references may be held. *)
Record plain (g : Ghost) : Prop := {
  pl_closing : g_closing g = None;
  pl_fresh : g_fresh g = None;
  pl_room : (length (g_holds g) < 100)%nat
}.

Lemma plain_room g : plain g → UINT32_room (g_holds g).
Proof. intros []. unfold UINT32_room. lia. Qed.
Lemma plain_room_cons g k : plain g → UINT32_room (k :: g_holds g).
Proof. intros []. unfold UINT32_room. simpl. lia. Qed.
Create HintDb exch.
#[export] Hint Resolve pl_closing pl_fresh plain_room plain_room_cons : exch.

(** ** The actions of a delegate *)

Lemma core_same_timeout t c : core_same c (ecset_timeout t c).
Proof. by constructor. Qed.

Lemma wp_SetResponseTimeout g t k c w (Q : () → World → Prop) :
  Inv g w → live w k c → (let c' := ecset_timeout t c in Inv g (with_ec k c' w) → live (with_ec k c' w) k c' → Q () (with_ec k c' w)) →
  wp (SetResponseTimeout t k) Q w.
Proof.
  intros HI Hk HQ. unfold SetResponseTimeout. eapply wp_modify_ec; [done|]. apply HQ; [|by eapply live_with_ec].
  by eapply Inv_core; [done..|apply core_same_timeout|].
Qed.

Lemma wp_run_action E g k c a w (Q : () → World → Prop) :
  Inv g w → plain g → g_nosess g ≠ Some k → live w k c → (∀ w', Inv g w' → Q () w') → wp (run_action E k a) Q w.
Proof.
  intros HI Hp Hns Hk HQ. unfold run_action. wstep. wstep. apply wp_when; intros Ho; [|by apply HQ]. destruct a; simpl.
  - wstep. eapply wp_SendMessage; [eauto with exch..|]. intros err w' HI' _. wstep. by apply HQ.
  - unfold WillSendMessage. eapply wp_set_flag; [done..|set_solver|]. cbv zeta. auto.
  - eapply wp_SetResponseTimeout; [done..|]. cbv zeta. auto.
  - eapply wp_Close; eauto with exch.
  - eapply wp_Abort; eauto with exch.
Qed.

Lemma wp_run_actions E g k l w (Q : () → World → Prop) :
  Inv g w → plain g → g_nosess g ≠ Some k → 0 < holds (g_holds g) k → (∀ w', Inv g w' → Q () w') → wp (run_actions E k l) Q w.
Proof.
  intros HI Hp Hns Hh HQ. revert w HI. induction l as [|a l IH]; intros w HI; simpl; [wstep; auto|].
  destruct (held_live _ _ _ HI Hh) as (c & Hk). wstep. eapply wp_run_action; [done..|]. auto.
Qed.

(** An exchange that lost its session and belongs to the layer. *)
Definition lost (w : World) (k : nat) : Prop :=
  ∃ c, live w k c ∧ ec_owner c = true ∧ ec_mSession c = None ∧ ec_has kFlagClosed c = false.

Lemma lost_with_ec w k c c' :
  live w k c → ec_owner c' = true → ec_mSession c' = None → ec_has kFlagClosed c' = false → lost (with_ec k c' w) k.
Proof. intros Hk H1 H2 H3. exists c'. split; [by eapply live_with_ec|done]. Qed.

Lemma wp_run_lost E g k l w (Q : () → World → Prop) :
  Inv g w → plain g → lost w k → Forall keeps_open l → (∀ w', Inv g w' → lost w' k → Q () w') → wp (run_actions E k l) Q w.
Proof.
  intros HI Hp Hl Hopen HQ. revert w HI Hl. induction Hopen as [|a l Ha Hopen IH]; intros w HI Hl; simpl; [wstep; auto|].
  destruct Hl as (c & Hk & Ho & Hs & Hcl). wstep. unfold run_action. wstep. wstep. rewrite Ho. unfold when.
  destruct a; simpl; try done.
  - wstep. eapply wp_SendMessage; [eauto with exch..|]. intros err w' HI' Hw'. wstep. rewrite Hw' by done. apply IH; [done|]. by exists c.
  - unfold WillSendMessage. eapply wp_set_flag; [done..|set_solver|]. cbv zeta. intros HI' _ _. apply IH; [done|].
    eapply lost_with_ec; [done..|]. by flags.
  - eapply wp_SetResponseTimeout; [done..|]. cbv zeta. intros HI' _. apply IH; [done|]. by eapply lost_with_ec.
Qed.

(** ** Acknowledgements *)

Lemma Inv_pending g k c ctr w :
  Inv g w → g_armed g = false → live w k c → EvReceived (ec_uid c) ctr true ∈ w_trace w →
  Inv g (with_ec k (SetPendingPeerAckMessageCounter ctr c) w).
Proof.
  intros HI Ha Hk Hr. eapply Inv_with_ec; [done..|]. destruct (inv_ctx _ _ HI k c Hk).
  unfold SetPendingPeerAckMessageCounter. constructor; try done; flags; try done. rewrite Ha. done.
Qed.

Lemma steady_pending ctr c : steady c (SetPendingPeerAckMessageCounter ctr c).
Proof.
  transitivity (ecset_pending ctr c); [by constructor|]. unfold SetPendingPeerAckMessageCounter, SetAckPending.
  etransitivity; [apply (steady_set kFlagAckPending true); set_solver|apply steady_set; set_solver].
Qed.

(** The counter of an exchange whose counter is valid is replaced. *)
Lemma Inv_counter g k c ctr w :
  Inv g w → live w k c → EvReceived (ec_uid c) ctr true ∈ w_trace w → Inv g (with_ec k (ecset_pending ctr c) w).
Proof. intros HI Hk Hr. eapply Inv_with_ec; [done..|]. destruct (inv_ctx _ _ HI k c Hk). by constructor. Qed.

Lemma steady_live k c c' w : live w k c → steady c c' → ∃ c2, live (with_ec k c' w) k c2 ∧ steady c c2.
Proof. intros Hk Hs. exists c'. split; [by eapply live_with_ec|done]. Qed.

Lemma wp_HandleNeedsAckInner E g k c ctr dup w (Q : chip_error → World → Prop) :
  Inv g w → plain g → g_armed g = false → live w k c → EvReceived (ec_uid c) ctr true ∈ w_trace w →
  (∀ err w' c', Inv g w' → live w' k c' → steady c c' → Q err w') → wp (HandleNeedsAckInner E k ctr dup) Q w.
Proof.
  intros HI Hp Ha Hk Hr HQ. unfold HandleNeedsAckInner. wstep. wstep. destruct dup.
  - wstep. eapply wp_modify_ec; [done|]. set (c1 := SetPendingPeerAckMessageCounter ctr c).
    pose proof (Inv_pending g k c ctr w HI Ha Hk Hr) as HI1. pose proof (live_with_ec w k c1 c Hk) as Hk1. fold c1 in HI1.
    wstep. eapply wp_SendStandaloneAckMessage; [eauto with exch..|]. intros err w2 HI2 Hc2.
    destruct (calm_steady _ _ _ _ Hk1 Hc2) as (c2 & Hk2 & S2 & _).
    assert (steady c c2) as S02 by (transitivity c1; [apply steady_pending|done]).
    assert (HasPiggybackAckPending c = true → EvReceived (ec_uid c2) (ec_mPendingPeerAckMessageCounter c) true ∈ w_trace w2) as Hold.
    { intros Hv. rewrite (st_uid _ _ S02). apply (calm_trace _ _ _ _ Hc2).
      exact (ok_ack _ _ _ _ _ _ _ _ _ (inv_ctx _ _ HI k c Hk) Hv). }
    wstep. destruct (IsAckPending c && _) eqn:Hwas.
    + apply andb_true_iff in Hwas as [Hwas _]. eapply wp_modify_ec; [done|]. wstep.
      eapply HQ; [apply Inv_pending; [done..|] |by eapply live_with_ec|transitivity c2; [done|apply steady_pending]].
      apply Hold. exact (ok_valid _ _ _ _ _ _ _ _ _ (inv_ctx _ _ HI k c Hk) Hwas).
    + apply wp_when; intros Hv.
      * eapply wp_modify_ec; [done|]. wstep. eapply HQ; [by apply Inv_counter; auto|by eapply live_with_ec|].
        transitivity c2; [done|by constructor].
      * wstep. by eapply HQ.
  - wstep. eapply (wp_mono _ (λ _ w1, Inv g w1 ∧ (∀ ev, ev ∈ w_trace w → ev ∈ w_trace w1) ∧ ∃ c1, live w1 k c1 ∧ steady c c1)).
    { destruct (IsAckPending c); [|wstep; split_and!; [done..|by exists c]].
      eapply wp_SendStandaloneAckMessage; [eauto with exch..|]. intros err w1 HI1 Hc1.
      destruct (calm_steady _ _ _ _ Hk Hc1) as (c1 & Hk1 & S1 & _). split_and!; [done|apply Hc1|by exists c1]. }
    intros err w1 (HI1 & Htr & c1 & Hk1 & S1). destruct (ok err); simpl; [|wstep; by eapply HQ].
    wstep. eapply wp_modify_ec; [done|]. wstep. wstep. wstep. eapply wp_modify_ec; [by eapply live_with_ec|]. wstep.
    set (c2 := SetPendingPeerAckMessageCounter ctr c1). assert (steady c c2) as S2 by (transitivity c1; [done|apply steady_pending]).
    eapply HQ; [|by eapply live_with_ec, live_with_ec|transitivity c2; [done|by constructor]].
    assert (Inv g (with_ec k c2 w1)) as HI2.
    { apply Inv_pending; [done..|]. rewrite (st_uid _ _ S1). auto. }
    eapply Inv_with_ec; [done|by eapply live_with_ec|].
    destruct (inv_ctx _ _ HI2 k c2 (live_with_ec _ _ _ _ Hk1)). constructor; try done.
    + pose proof (inv_now _ _ HI1). simpl. unfold CHIP_CONFIG_RMP_DEFAULT_ACK_TIMEOUT. rewrite u64_id by (unfold in_u64; lia).
      unfold UINT64_MAX. lia.
    + congruence.
Qed.

Lemma timer_only_live w w' k c : timer_only w w' → live w k c → live w' k c.
Proof. by intros (t & n & ->). Qed.

Lemma arm_arm a b g : arm a (arm b g) = arm a g.
Proof. done. Qed.

Lemma plain_arm b g : plain g → plain (arm b g).
Proof. intros []. by constructor. Qed.
#[export] Hint Resolve plain_arm : exch.

Lemma wp_HandleNeedsAck E g k c ctr dup w (Q : chip_error → World → Prop) :
  Inv g w → plain g → live w k c → EvReceived (ec_uid c) ctr true ∈ w_trace w →
  (∀ err w' c', Inv g w' → live w' k c' → steady c c' → Q err w') → wp (HandleNeedsAck E k ctr dup) Q w.
Proof.
  intros HI Hp Hk Hr HQ. unfold HandleNeedsAck. wstep.
  eapply (wp_HandleNeedsAckInner E (arm false g)); [by apply Inv_unarm|eauto with exch..|]. intros err w1 c1 HI1 Hk1 S1.
  wstep. eapply wp_StartTimer; [done|]. intros w2 HI2 Ht2. wstep.
  eapply HQ; [apply Inv_arm_any; exact HI2|by eapply timer_only_live|done].
Qed.

(** ** A received message *)

(** What a received message leaves of its exchange before it is handed on. *)
Definition handled_so_far (k : nat) (c : ExchangeContext) (w' : World) : Prop :=
  ∃ c', live w' k c' ∧ same_id c c' ∧ (IsWaitingForAck c = false → steady c c').

Lemma not_waiting_entries g w k c : Inv g w → live w k c → IsWaitingForAck c = false → entries (w_table w) k = 0.
Proof. intros HI Hk Hw. pose proof (ok_wait _ _ _ _ _ _ _ _ _ (inv_ctx _ _ HI k c Hk)) as H. by rewrite Hw in H. Qed.

Lemma wp_HandleRcvdAck E g k c a w (Q : () → World → Prop) :
  Inv g w → plain g → 0 < holds (g_holds g) k → live w k c →
  (∀ w', Inv g w' → w_trace w' = w_trace w → handled_so_far k c w' → Q () w') → wp (HandleRcvdAck E k a) Q w.
Proof.
  intros HI Hp Hh Hk HQ. unfold HandleRcvdAck. wstep. eapply wp_CheckAndRemRetransTable; [eauto with exch..|].
  intros b w1 HI1 Hkept Htr Hz. destruct (kept_live _ _ _ _ (Hkept k) Hk) as (c1 & Hk1 & S1).
  apply wp_when; intros Hb.
  - eapply wp_set_flag; [done..|set_solver|]. cbv zeta. intros HI2 Hk2 S2. apply HQ; [done..|].
    eexists. split; [done|]. split; [by transitivity c1|]. intros Hw.
    destruct Hz as [Hb' _]; [by eapply not_waiting_entries|congruence].
  - apply HQ; [done..|]. exists c1. split; [done|]. split; [done|]. intros Hw.
    destruct Hz as [_ ->]; [by eapply not_waiting_entries|].
    assert (c1 = c) as -> by (unfold live in *; congruence). done.
Qed.

Lemma handled_trans k c c1 w' : same_id c c1 → (IsWaitingForAck c = false → steady c c1) →
  (∃ c2, live w' k c2 ∧ steady c1 c2) → handled_so_far k c w'.
Proof.
  intros S1 St1 (c2 & Hk2 & S2). exists c2. split; [done|]. split; [transitivity c1; [done|by apply steady_same_id]|].
  intros Hw. transitivity c1; auto.
Qed.

Lemma wp_HandleMRP E g k c ctr h dup standalone w (Q : option chip_error → World → Prop) :
  Inv g w → plain g → 0 < holds (g_holds g) k → live w k c →
  (NeedsAck h = true → EvReceived (ec_uid c) ctr true ∈ w_trace w) →
  (∀ r w', Inv g w' → handled_so_far k c w' → Q r w') → wp (HandleMRP E k ctr h dup standalone) Q w.
Proof.
  intros HI Hp Hh Hk Hr HQ. unfold HandleMRP. wstep.
  eapply (wp_mono _ (λ _ w1, Inv g w1 ∧ w_trace w1 = w_trace w ∧ handled_so_far k c w1)).
  { assert (handled_so_far k c w) as Hself by (by exists c).
    apply wp_when; intros _; [|done]. destruct (mAckMessageCounter h); [|by wstep].
    eapply wp_HandleRcvdAck; [done..|]. auto. }
  intros _ w1 (HI1 & Htr1 & c1 & Hk1 & S1 & St1). wstep.
  eapply (wp_mono _ (λ _ w2, Inv g w2 ∧ handled_so_far k c w2)).
  { apply wp_when; intros Hn; [|split; [done|by exists c1]]. wstep.
    eapply wp_HandleNeedsAck; [done..| |].
    - rewrite (si_uid _ _ S1), Htr1. auto.
    - intros err w2 c2 HI2 Hk2 S2. wstep. split; [done|]. eapply handled_trans; eauto. }
  intros _ w2 (HI2 & c2 & Hk2 & S2 & St2). wstep. wstep. wstep.
  eapply (wp_mono _ (λ _ w3, Inv g w3 ∧ handled_so_far k c w3)).
  { destruct (_ && _); [|wstep; split; [done|by exists c2]]. eapply wp_FlushAcks; [eauto with exch..|].
    intros err w3 HI3 Hc3 _. split; [done|]. destruct (calm_steady _ _ _ _ Hk2 Hc3) as (c3 & Hk3 & S3 & _).
    eapply handled_trans; eauto. }
  intros err w3 (HI3 & H3). wstep. by apply HQ.
Qed.

Lemma wp_Deliver E g k c ctr w (Q : chip_error → World → Prop) :
  Inv g w → plain g → g_nosess g ≠ Some k → 0 < holds (g_holds g) k → live w k c → IsWaitingForAck c = false →
  (∀ err w', Inv g w' → Q err w') → wp (Deliver E k ctr) Q w.
Proof.
  intros HI Hp Hns Hh Hk Hw HQ. unfold Deliver. wstep. wstep. wstep. wstep. wstep. wstep. wstep.
  eapply wp_run_actions; [|done..|]; [apply Inv_tick, Inv_emit; [done|exact Hw]|]. intros w1 HI1. wstep. by apply HQ.
Qed.

(** An exchange without a delegate that expects nothing. *)
Record idle (c : ExchangeContext) : Prop := {
  id_delegate : ec_mDelegate c = None;
  id_flags f : f ∈ [kFlagWaitingForAck; kFlagClosed; kFlagResponseExpected; kFlagWillSendMessage] → ec_has f c = false
}.

Lemma idle_steady c c' : steady c c' → idle c → idle c'.
Proof.
  intros [] [Hd Hf]. constructor; [congruence|]. intros f Hin. rewrite st_flags; [by apply Hf|].
  intros Hin'. destruct f; set_solver.
Qed.

Lemma wp_HandleNew E g k c s ctr h w (Q : chip_error → World → Prop) :
  Inv g w → plain g → g_nosess g ≠ Some k → 0 < holds (g_holds g) k → live w k c → ec_mSession c = Some s →
  (∀ err w', Inv g w' → (idle c → ∃ c', live w' k c' ∧ idle c') → Q err w') → wp (HandleNew E k ctr h) Q w.
Proof.
  intros HI Hp Hns Hh Hk Hs HQ. destruct (usable_of _ _ _ _ _ HI Hk Hs) as (sess & Hsess & _).
  unfold HandleNew. wstep. wstep. wstep. unfold GetSessionHandle. rewrite Hs. wstep. wstep. wstep.
  destruct (AllowsMRP sess && ec_has kFlagEphemeralExchange c) eqn:Heph; [wstep; apply HQ; eauto|].
  destruct (AllowsMRP sess && IsWaitingForAck c) eqn:Hwait; [wstep; apply HQ; eauto|].
  assert (IsWaitingForAck c = false) as Hw.
  { destruct (IsWaitingForAck c) eqn:Hw; [|done]. rewrite andb_true_r in Hwait.
    destruct (ok_mrp _ _ _ _ _ _ _ _ _ (inv_ctx _ _ HI k c Hk) Hw Hns) as (s' & x & Hs' & Hx & Ha).
    assert (x = sess) as -> by congruence. congruence. }
  wstep. eapply wp_set_flag; [done..|set_solver|]. cbv zeta. intros HI1 Hk1 S1. set (c1 := ec_set _ true c) in *.
  assert (idle c → idle c1) as Hidle.
  { intros [Hd Hf]. constructor; [done|]. intros f Hin. unfold c1. rewrite ec_has_set. case_decide; [|by apply Hf].
    subst f. exfalso. set_solver. }
  destruct (MessagePermitted _ _ _); [|wstep; apply HQ; eauto]. wstep.
  eapply (wp_mono _ (λ _ w2, Inv g w2 ∧ ∃ c2, live w2 k c2 ∧ IsWaitingForAck c2 = false ∧ (IsResponseExpected c = false → c2 = c1))).
  { assert (IsWaitingForAck c1 = false) as Hw1 by (unfold c1; by flags).
    apply wp_when; intros Hr; [|split; [done|by exists c1]]. rewrite Hr. wstep. unfold CancelResponseTimer. wstep.
    eapply wp_SetResponseExpected; [by apply Inv_cancel|exact Hk1|intros _; apply lookup_delete_eq|].
    cbv zeta. intros HI2 Hk2 S2. split; [done|]. eexists. split; [done|]. unfold response_ec. by flags. }
  intros _ w2 (HI2 & c2 & Hk2 & Hw2 & Hsame). destruct (bool_decide _) eqn:Hd.
  - eapply wp_Deliver; [done..|]. intros err w3 HI3. apply HQ; [done|]. intros [Hd' _]. apply bool_decide_eq_true in Hd.
    rewrite Hd' in Hd. by destruct Hd.
  - wstep. apply HQ; [done|]. intros Hi. exists c2. split; [done|]. rewrite Hsame; [auto|]. apply (id_flags _ Hi). set_solver.
Qed.

(** [HandleMessage] up to the end of its references. *)
Lemma wp_HandleMessage E g k c s ctr h dup w (Q : chip_error → World → Prop) :
  Inv g w → plain (hold k g) → g_nosess g ≠ Some k → live w k c → ec_mSession c = Some s →
  (∀ err w', Inv g w' → (idle c → holds (g_holds g) k = 0 → ∀ c', ¬ live w' k c') → Q err w') → wp (HandleMessage E k ctr h dup) Q w.
Proof.
  intros HI Hp Hns Hk Hs HQ. assert (UINT32_room (g_holds g)) as Hroom.
  { destruct Hp as [_ _ Hr]. unfold UINT32_room. simpl in Hr. lia. }
  unfold HandleMessage. wstep. wstep. wstep. wstep. set (w0 := wset_trace _ w).
  assert (Inv g w0) as HI0 by (by apply Inv_emit). assert (live w0 k c) as Hk0 by done.
  wstep. eapply wp_Retain; [done..|]. cbv zeta. set (c1 := ecset_ref _ c). intros HI1 Hk1. set (w1 := with_ec k c1 w0) in *.
  assert (0 < holds (g_holds (hold k g)) k) as Hh.
  { simpl g_holds. rewrite holds_same. pose proof (holds_nonneg (g_holds g) k). lia. }
  wstep. unfold GetSessionHandle. rewrite Hs. wstep. destruct (usable_of _ _ _ _ _ HI1 Hk1 Hs) as (sess & Hsess & _).
  wstep. wstep. wstep.
  eapply (wp_mono _ (λ _ w2, Inv (hold k g) w2 ∧ handled_so_far k c1 w2)).
  { destruct (AllowsMRP sess); [|wstep; split; [done|by exists c1]]. eapply wp_HandleMRP; [done..| |eauto].
    intros Hn. unfold w1, w0. simpl. rewrite Hn. apply elem_of_cons. by left. }
  intros first w2 (HI2 & c2 & Hk2 & S2 & St2). wstep.
  assert (idle c → idle c2) as Hi2.
  { intros Hi. eapply idle_steady; [apply St2; apply (id_flags _ Hi); set_solver|]. by destruct Hi; constructor. }
  eapply (wp_mono _ (λ _ w3, Inv (hold k g) w3 ∧ (idle c → ∃ c3, live w3 k c3 ∧ idle c3))).
  { destruct first; [wstep; eauto|]. destruct dup; [wstep; eauto|]. eapply wp_HandleNew; [done..| |eauto].
    by rewrite (si_session _ _ S2). }
  intros err w3 (HI3 & Hi3). destruct (held_live _ _ _ HI3 Hh) as (c3 & Hk3). wstep. wstep. wstep.
  eapply (wp_mono _ (λ _ w4, Inv (hold k g) w4 ∧ (idle c → entries (w_table w4) k = 0 ∧ ∀ c', live w4 k c' → ec_owner c' = false))).
  { assert (idle c → idle c3) as Hi3'.
    { intros Hi. destruct (Hi3 Hi) as (x & Hx & Hix). assert (x = c3) as -> by (unfold live in *; congruence). done. }
    apply wp_when; intros Hb.
    - eapply wp_MessageHandled; [eauto with exch..|]. intros w4 HI4 Hdone. split; [done|]. intros Hi. specialize (Hi3' Hi).
      destruct Hdone as [Ht Ho]; [|split; [|done]].
      + unfold IsResponseExpected, IsSendExpected. by rewrite !(id_flags _ Hi3') by set_solver.
      + rewrite Ht. eapply not_waiting_entries; [done..|]. apply (id_flags _ Hi3'). set_solver.
    - split; [done|]. intros Hi. rewrite (id_delegate _ (Hi3' Hi)), andb_false_r in Hb. done. }
  intros _ w4 (HI4 & Hi4). destruct (held_live _ _ _ HI4 Hh) as (c4 & Hk4). wstep. eapply wp_Release; [done..|]. intros HI5. wstep.
  apply HQ; [done|]. intros Hi Hz c'. destruct (Hi4 Hi) as [He Ho]. specialize (Ho c4 Hk4).
  pose proof (ok_ref _ _ _ _ _ _ _ _ _ (inv_ctx _ _ HI4 k c4 Hk4)) as Hr. simpl g_holds in Hr. rewrite holds_same, He, Ho, Hz in Hr.
  simpl in Hr. unfold live; simpl. rewrite list_lookup_insert_eq by (by eapply lookup_lt_Some). unfold dropped. by rewrite Hr.
Qed.

(** ** The timeout of a response *)

Lemma plain_hold g k : plain g → (length (g_holds g) < 90)%nat → plain (hold k g).
Proof. intros []. constructor; simpl; try done. lia. Qed.

Lemma no_response_timer g w k c :
  Inv g w → live w k c → IsResponseExpected c = false → w_responseTimers w !! k = None.
Proof.
  intros HI Hk Hr. destruct (w_responseTimers w !! k) eqn:Er; [|done].
  destruct (ok_response _ _ _ _ _ _ _ _ _ (inv_ctx _ _ HI k c Hk)) as [H _]; [by rewrite Er|congruence].
Qed.

Lemma holds_hold g k : 0 < holds (g_holds (hold k g)) k.
Proof. simpl g_holds. rewrite holds_same. pose proof (holds_nonneg (g_holds g) k). lia. Qed.

(** The sessions of an exchange that waited in vain. *)
Lemma wp_hang g (b : bool) o w (Q : () → World → Prop) :
  Inv g w → (∀ s, o = Some s → usable_session w s) → (∀ w', Inv g w' → quiet w w' → Q () w') →
  wp (match o with Some s => when b (_ ← MarkAsDefunctIfCASE s; NotifySessionHang s) | None => mret () end) Q w.
Proof.
  intros HI Hu HQ. destruct o as [s|]; [|wstep; by apply HQ]. apply wp_when; intros _; [|by apply HQ].
  wstep. eapply wp_MarkAsDefunctIfCASE; [done|by apply Hu|]. intros w1 HI1 Hq1. eapply wp_NotifySessionHang; [done|].
  intros w2 HI2 Hq2. apply HQ; [done|by transitivity w1].
Qed.

Lemma wp_NotifyResponseTimeout E g k c w (Q : () → World → Prop) :
  Inv g w → plain (hold k g) → g_nosess g ≠ Some k → live w k c → w_responseTimers w !! k = None →
  (∀ w', Inv g w' → Q () w') → wp (NotifyResponseTimeout E true k) Q w.
Proof.
  intros HI Hp Hns Hk Hr HQ. assert (UINT32_room (g_holds g)) as Hroom.
  { destruct Hp as [_ _ Hl]. unfold UINT32_room. simpl in Hl. lia. }
  unfold NotifyResponseTimeout. wstep. wstep. wstep. eapply wp_SetResponseExpected; [done..|]. cbv zeta. intros HI1 Hk1 S1.
  wstep. eapply wp_Retain; [done..|]. cbv zeta. intros HI2 Hk2. pose proof (holds_hold g k) as Hh.
  wstep. eapply wp_hang; [done| |].
  { intros s Hs. eapply usable_of; [exact HI2|exact Hk2|]. by rewrite <- Hs. }
  intros w3 HI3 _. wstep. eapply (wp_mono _ (λ _ w4, Inv (hold k g) w4)).
  { apply wp_when; intros _; [|done]. unfold OnResponseTimeout. destruct (held_live _ _ _ HI3 Hh) as (c3 & Hk3). wstep. wstep. wstep. wstep. wstep. wstep.
    eapply wp_run_actions; [by apply Inv_tick, Inv_emit|done..|auto]. }
  intros _ w4 HI4. wstep. eapply (wp_mono _ (λ _ w5, Inv (hold k g) w5)).
  { destruct (held_live _ _ _ HI4 Hh) as (c4 & Hk4). unfold when. eapply wp_MessageHandled; eauto with exch. }
  intros _ w5 HI5. destruct (held_live _ _ _ HI5 Hh) as (c5 & Hk5). eapply wp_Release; eauto.
Qed.

(** ** The loss of a session *)

Lemma Inv_lose g k c w :
  Inv g w → g_nosess g = None → live w k c → Inv (nosess (Some k) g) (with_ec k (ecset_session None c) w).
Proof.
  intros HI Hg Hk. eapply Inv_with_ec; [by apply Inv_nosess|done|].
  destruct (inv_ctx _ _ (Inv_nosess g (Some k) w Hg HI) k c Hk). constructor; try done; flags; try done.
Qed.

Lemma Inv_found g k w : Inv (nosess (Some k) g) w → g_nosess g = None → entries (w_table w) k = 0 → Inv g w.
Proof.
  intros [Hc Hf He Hn Ht] Hg Hz. constructor; [|done| |done..].
  - intros k' c Hk. destruct (Hc k' c Hk). constructor; try done. intros Hw _. apply ok_mrp; [done|]. simpl. intros [= ->].
    rewrite Hz, Hw in ok_wait. done.
  - intros i e Hi. by destruct (He i e Hi).
Qed.

Lemma Inv_unclosing g k c w :
  Inv (closing (Some k) g) w → g_closing g = None → live w k c → ec_mSession c = None → w_responseTimers w !! k = None → Inv g w.
Proof.
  intros [Hc Hf He Hn Ht] Hg Hk Hs Hr. constructor; [|done| |done..].
  - intros k' d Hd. destruct (Hc k' d Hd). constructor; try done.
    + intros H1 H2 _. destruct (decide (k = k')) as [<-|Hne]; [unfold live in *; congruence|]. apply ok_lost; [done..|]. simpl. congruence.
    + intros H. destruct (ok_response H) as [H1 [H2|[H2 _]]]; [auto|]. simpl in H2. simplify_eq. rewrite Hr in H. by destruct H.
  - intros i e Hi. by destruct (He i e Hi).
Qed.

Lemma lost_quiet w w' k : quiet w w' → lost w k → lost w' k.
Proof. intros Hq (c & Hk & H). exists c. split; [by eapply quiet_live|done]. Qed.

(** An exchange that is lost and held elsewhere survives the drop of a reference. *)
Lemma lost_dropped g w k c :
  Inv (hold k g) w → 0 < holds (g_holds g) k → live w k c → lost w k → lost (with_slot k (dropped c) w) k.
Proof.
  intros HI Hh Hk (c' & Hk' & Ho & Hs & Hcl). assert (c' = c) as -> by (unfold live in *; congruence).
  pose proof (ok_ref _ _ _ _ _ _ _ _ _ (inv_ctx _ _ HI k c Hk)) as Hr. simpl g_holds in Hr. rewrite holds_same, Ho in Hr.
  pose proof (entries_nonneg (w_table w) k). exists (ecset_ref (ec_mRefCount c - 1) c). split; [|done].
  unfold live; simpl. rewrite list_lookup_insert_eq by (by eapply lookup_lt_Some). unfold dropped.
  destruct (Z.eqb_spec (ec_mRefCount c - 1) 0); [simpl in Hr; lia|done].
Qed.

Lemma wp_Notify_lost E g k w (Q : () → World → Prop) :
  Inv g w → plain (hold k g) → 0 < holds (g_holds g) k → lost w k → w_responseTimers w !! k = None →
  (∀ w', Inv g w' → lost w' k → Q () w') → wp (NotifyResponseTimeout E false k) Q w.
Proof.
  intros HI Hp Hh0 Hl Hr HQ. destruct Hl as (c & Hk & Ho & Hs & Hcl). assert (UINT32_room (g_holds g)) as Hroom.
  { destruct Hp as [_ _ Hln]. unfold UINT32_room. simpl in Hln. lia. }
  unfold NotifyResponseTimeout. wstep. wstep. wstep. eapply wp_SetResponseExpected; [done..|]. cbv zeta. intros HI1 Hk1 S1.
  wstep. eapply wp_Retain; [done..|]. cbv zeta. intros HI2 Hk2. rewrite Hs. wstep. wstep.
  match type of HI2 with Inv _ ?x => set (w2 := x) in * end.
  assert (lost w2 k) as Hl2 by (eexists; split; [exact Hk2|]; unfold response_ec; by flags).
  wstep. eapply (wp_mono _ (λ _ w4, Inv (hold k g) w4 ∧ lost w4 k)).
  { apply wp_when; intros _; [|done]. unfold OnResponseTimeout. wstep. wstep. wstep. wstep. wstep. wstep.
    eapply wp_run_lost; [by apply Inv_tick, Inv_emit|done|exact Hl2| |auto]. apply Forall_forall. intros x Hx.
    by apply list_elem_of_filter in Hx as [Hx _]. }
  intros _ w4 (HI4 & Hl4). wstep. unfold when. wstep. destruct Hl4 as (c4 & Hk4 & H4).
  eapply wp_Release; [done..|]. intros HI5. apply HQ; [done|]. eapply lost_dropped; [done..|]. by exists c4.
Qed.

Lemma wp_SessionReleased E g k c w (Q : () → World → Prop) :
  Inv g w → plain (hold k (hold k g)) → g_nosess g = None → live w k c → (∀ w', Inv g w' → Q () w') → wp (SessionReleased E k) Q w.
Proof.
  intros HI Hp Hns Hk HQ. unfold SessionReleased. wstep. eapply wp_modify_ec; [done|].
  pose proof (Inv_lose g k c w HI Hns Hk) as HI1. set (c1 := ecset_session None c) in *.
  pose proof (live_with_ec w k c1 c Hk) as Hk1. set (w1 := with_ec k c1 w) in *.
  assert (g_closing g = None ∧ g_fresh g = None) as (Hg & Hfr) by (by destruct Hp).
  assert (UINT32_room (g_holds g) ∧ UINT32_room (k :: g_holds g)) as (Hroom & Hroom1)
    by (destruct Hp as [_ _ Hl]; unfold UINT32_room; simpl in *; lia).
  unfold OnSessionReleased. wstep. wstep.
  rewrite (ok_ignore _ _ _ _ _ _ _ _ _ (inv_ctx _ _ HI1 k c1 Hk1)). destruct (ec_has kFlagClosed c1) eqn:Hcl.
  { eapply wp_ClearRetransTable_of; [done..|]. intros w2 HI2 He2 _. apply HQ. by eapply Inv_found. }
  pose proof (ok_open _ _ _ _ _ _ _ _ _ (inv_ctx _ _ HI1 k c1 Hk1) Hcl) as Ho.
  wstep. eapply wp_Retain; [done..|]. cbv zeta. set (c2 := ecset_ref _ c1). intros HI2 Hk2. set (w2 := with_ec k c2 w1) in *.
  pose proof (holds_hold (nosess (Some k) g) k) as Hh.
  wstep. eapply (wp_mono _ (λ _ w4, Inv (hold k g) w4)).
  2: { intros _ w4 HI4. destruct (held_live _ _ k HI4 Hh) as (c4 & Hk4). eapply wp_Release; eauto. }
  destruct (IsSendExpected c1); simpl negb; cbv iota.
  - eapply wp_DoClose; [done..|]. intros w3 c3 HI3 Hk3 _ _ Hs3 Hr3 He3 _ _ _. apply (Inv_found _ k); [|done|by apply He3].
    by eapply Inv_unclosing.
  - wstep. eapply (wp_mono _ (λ _ w3, Inv (hold k (nosess (Some k) g)) w3 ∧ lost w3 k)).
    { apply wp_when; intros _; [|split; [done|by exists c2]]. wstep. unfold CancelResponseTimer. wstep.
      eapply wp_Notify_lost; [by apply Inv_cancel|by destruct Hp; constructor|done|by exists c2|apply lookup_delete_eq|auto]. }
    intros _ w3 (HI3 & c3 & Hk3 & Ho3 & Hs3 & Hcl3). eapply wp_Abort; [done..|]. intros w4 HI4 He4.
    apply (Inv_found _ k); [exact HI4|done|by apply He4].
Qed.

(** ** The timer of the retransmissions *)

(** A loop whose body keeps [I] and what the later elements need. *)
Lemma wp_for_each {A} (f : A → M bool) (l : list A) (I : World → Prop) (P : A → World → Prop) w :
  NoDup l → I w → (∀ x, x ∈ l → P x w) →
  (∀ x w, I w → P x w → wp (f x) (λ _ w', I w' ∧ ∀ y, y ≠ x → P y w → P y w') w) → wp (for_each f l) (λ _ w', I w') w.
Proof.
  intros Hnd HI HP Hf. revert w HI HP. induction Hnd as [|x l Hx Hnd IH]; intros w HI HP; simpl; [by wstep|].
  wstep. eapply wp_mono; [apply Hf; [done|apply HP; set_solver]|]. intros b w' (HI' & HP'). destruct b; [by wstep|].
  apply IH; [done|]. intros y Hy. apply HP'; [set_solver|apply HP; set_solver].
Qed.

(** The same, with what the body does for its own element. *)
Lemma wp_for_each_all {A} (f : A → M bool) (l : list A) (I : World → Prop) (P R : A → World → Prop) w :
  NoDup l → I w → (∀ x, x ∈ l → P x w) →
  (∀ x w, I w → P x w → wp (f x) (λ b w', b = false ∧ I w' ∧ R x w' ∧ ∀ y, y ≠ x → (P y w → P y w') ∧ (R y w → R y w')) w) →
  wp (for_each f l) (λ _ w', I w' ∧ (∀ x, x ∈ l → R x w') ∧ ∀ x, x ∉ l → (R x w → R x w')) w.
Proof.
  intros Hnd HI HP Hf. revert w HI HP. induction Hnd as [|x l Hx Hnd IH]; intros w HI HP; simpl.
  { wstep. split; [done|]. split; [|by intros]. intros x Hx. by apply not_elem_of_nil in Hx. }
  wstep. eapply wp_mono; [apply Hf; [done|apply HP, list_elem_of_here]|]. intros b w' (-> & HI' & HR & Hy).
  eapply wp_mono; [apply IH; [done|]|].
  - intros y Hin. apply Hy; [by intros ->|by apply HP, list_elem_of_further].
  - intros [] w2 (HI2 & Hl & Ho). split; [done|]. split.
    + intros y Hin. apply elem_of_cons in Hin as [->|Hin]; [by apply Ho|by apply Hl].
    + intros y [Hne Hnin]%not_elem_of_cons HRy. apply Ho; [done|]. by apply Hy.
Qed.

Lemma active_indices_nodup {A} (l : list (option A)) : NoDup (active_indices l).
Proof. apply NoDup_filter, NoDup_seq. Qed.

Lemma active_indices_spec {A} (l : list (option A)) i : i ∈ active_indices l ↔ ∃ x, l !! i = Some (Some x).
Proof.
  unfold active_indices. rewrite list_elem_of_filter, elem_of_seq. split.
  - intros [(x & Hx) _]. exists x. destruct (l !! i) as [[y|]|] eqn:E; simpl in Hx; naive_solver.
  - intros (x & Hx). rewrite Hx. split; [by exists x|]. apply lookup_lt_Some in Hx. lia.
Qed.

Lemma wp_ack_due E g now k c w (Q : bool → World → Prop) :
  Inv g w → plain g → live w k c →
  (∀ w', Inv g w' → (∀ k', kept k' w w') → w_table w' = w_table w → w_now w' = w_now w → resends w' = resends w → Q false w') →
  wp (ack_due E now k) Q w.
Proof.
  intros HI Hp Hk HQ. unfold ack_due. wstep. wstep. wstep. apply wp_when; intros _; [|wstep; by apply HQ].
  wstep. eapply wp_SendStandaloneAckMessage; [eauto with exch..|]. intros err w' HI' Hc. wstep. wstep. apply HQ; [done| |by apply Hc..].
  intros k'. by eapply calm_kept.
Qed.

(** Only the entry [i] and its exchange [k] may change. *)
Record others_stay (i k : nat) (w w' : World) : Prop := {
  os_table j : j ≠ i → w_table w' !! j = w_table w !! j;
  os_kept k' : k' ≠ k → kept k' w w';
  os_now : w_now w' = w_now w
}.

#[export] Instance others_refl i k : Reflexive (others_stay i k).
Proof. by constructor. Qed.
#[export] Instance others_trans i k : Transitive (others_stay i k).
Proof.
  intros w1 w2 w3 [T1 K1 N1] [T2 K2 N2]. constructor; [intros j Hne; by rewrite T2, T1|intros k' Hne; transitivity w2; auto|congruence].
Qed.

Lemma others_entry i k o w : others_stay i k w (with_entry i o w).
Proof. constructor; [|intros; by apply kept_contexts|done]. intros j Hne. simpl. by rewrite list_lookup_insert_ne. Qed.

Lemma others_slot i k o w : others_stay i k w (with_slot k o w).
Proof.
  constructor; [done| |done]. intros k' Hne c Hc. exists c. split; [|done]. unfold live, with_slot in *; simpl. by rewrite list_lookup_insert_ne.
Qed.

Lemma others_quiet i k w w' : quiet w w' → others_stay i k w w'.
Proof. intros Hq. constructor; [intros j _; by rewrite (q_table _ _ Hq)|intros; by apply quiet_kept|apply Hq]. Qed.

Lemma wp_give_up g i e w (Q : () → World → Prop) :
  Inv g w → plain g → g_nosess g = None → entry w i e →
  (∀ w', Inv g w' → others_stay i (re_ec e) w w' → w_table w' !! i = Some None → resends w' = resends w → Q () w') →
  wp (retransmission_failed i) Q w.
Proof.
  intros HI Hp Hns Hi HQ. destruct (entry_live _ _ _ _ HI Hi) as (c & Hk & Hw).
  destruct (ok_mrp _ _ _ _ _ _ _ _ _ (inv_ctx _ _ HI _ _ Hk) Hw ltac:(by rewrite Hns)) as (s & sess & Hs & Hsess & _).
  unfold retransmission_failed. wstep. wstep. wstep. wstep. wstep. unfold GetSessionHandle. rewrite Hs. wstep.
  wstep. eapply wp_Retain; [eauto with exch..|]. cbv zeta. set (k := re_ec e) in *. set (c1 := ecset_ref _ c). intros HI1 Hk1.
  wstep. eapply (wp_mono _ (λ _ w2, Inv (hold k g) w2 ∧ quiet (with_ec k c1 w) w2)).
  { apply wp_when; intros _; [|done]. wstep. eapply wp_MarkAsDefunctIfCASE; [done|by eapply usable_of|].
    intros w2 HI2 Hq2. eapply wp_NotifySessionHang; [done|]. intros w3 HI3 Hq3. split; [done|by transitivity w2]. }
  intros _ w2 (HI2 & Hq2). assert (entry w2 i e) as Hi2 by (unfold entry; by rewrite (q_table _ _ Hq2)).
  pose proof (quiet_live _ _ _ _ Hq2 Hk1) as Hk2. wstep.
  eapply (wp_ReleaseEntry _ i e c1); [done..|left; by destruct Hp|]. cbv zeta. intros HI3.
  destruct (held_live _ _ k HI3) as (c3 & Hk3); [apply holds_hold|].
  eapply (wp_Release (fresh None g)); [done..|]. intros HI4. apply HQ.
  - destruct g; simpl in *. destruct Hp as [_ Hf _]. simpl in Hf. subst. exact HI4.
  - transitivity (with_ec k c1 w); [apply (others_slot i k (Some c1))|]. transitivity w2; [by apply others_quiet|].
    etransitivity; [apply (others_slot i k)|]. etransitivity; [apply others_entry|]. apply (others_slot i k).
  - simpl. rewrite (q_table _ _ Hq2). simpl. apply list_lookup_insert_eq. by eapply lookup_lt_Some.
  - exact (q_resends _ _ Hq2).
Qed.

(** The message of the entry is sent; the entry goes when it could not be sent. *)
Lemma wp_SendFromRetransTable E g i e c w (Q : chip_error → World → Prop) :
  Inv g w → plain g → g_nosess g = None → entry w i e → live w (re_ec e) c →
  (∀ err w', Inv g w' → others_stay i (re_ec e) w w' → w_table w' !! i = Some (if ok err then Some e else None) →
    resends w' = EvResent (ec_uid c) (default 0 (re_retainedBuf e)) err :: resends w → Q err w') →
  wp (SendFromRetransTable E i) Q w.
Proof.
  intros HI Hp Hns Hi Hk HQ. destruct (entry_live _ _ _ _ HI Hi) as (c' & Hk' & Hw). assert (c' = c) as -> by (unfold live in *; congruence).
  destruct (ok_mrp _ _ _ _ _ _ _ _ _ (inv_ctx _ _ HI _ _ Hk) Hw ltac:(by rewrite Hns)) as (s & sess & Hs & _).
  unfold SendFromRetransTable. wstep. wstep. wstep. wstep. rewrite Hs. wstep. wstep. set (err := MapSendError a). wstep. wstep. wstep.
  set (w1 := wset_trace _ _). assert (Inv g w1) as HI1 by (apply Inv_emit; [by apply Inv_tick|done]).
  assert (others_stay i (re_ec e) w w1) as Ho by (constructor; [done|intros; by apply kept_contexts|done]).
  apply wp_when; intros Ha.
  - eapply wp_ClearRetransTable; [exact HI1|exact Hi|left; by destruct Hp|]. intros w' HI' Ht Hkept [Htr Hnow]. wstep. apply HQ.
    + apply Inv_fresh_none; [by destruct Hp|done].
    + transitivity w1; [done|]. constructor; [intros j Hne; by rewrite Ht, list_lookup_insert_ne| |done].
      intros k' Hne d Hd. by eapply (Hkept k' d).
    + apply negb_true_iff in Ha. rewrite Ha, Ht. apply list_lookup_insert_eq. by eapply lookup_lt_Some.
    + unfold resends. by rewrite Htr.
  - wstep. apply negb_false_iff in Ha. apply HQ; [done|done|by rewrite Ha|done].
Qed.

(** What the timer does to the entry [e] in place [i] at the time [now], where the answer [err] of
    the transport counts if it is sent: the entry stays until it is due, goes after the allowed
    number of retransmissions or when it cannot be sent, and gets a new deadline and a higher
    count otherwise. *)
Definition retried (now : Z) (err : chip_error) (e : RetransTableEntry) (o : option RetransTableEntry) : Prop :=
  if re_nextRetransTime e >? now then o = Some e
  else if re_sendCount e =? CHIP_CONFIG_RMP_DEFAULT_MAX_RETRANS then o = None
  else if ok err then ∃ t, now <= t ∧ o = Some (mkEntry (re_ec e) (re_retainedBuf e) t (re_sendCount e + 1))
  else o = None.

(** The retransmission of the entry of the exchange [c], if it is due and has one left. *)
Definition resend_of (now : Z) (err : chip_error) (e : RetransTableEntry) (c : ExchangeContext) : list Event :=
  if (re_nextRetransTime e >? now) || (re_sendCount e =? CHIP_CONFIG_RMP_DEFAULT_MAX_RETRANS) then []
  else [EvResent (ec_uid c) (default 0 (re_retainedBuf e)) err].

Lemma wp_retransmit_due E g i e c w (Q : bool → World → Prop) :
  Inv g w → plain g → g_armed g = false → g_nosess g = None → entry w i e → live w (re_ec e) c →
  (∀ err w' o, Inv g w' → others_stay i (re_ec e) w w' → w_table w' !! i = Some o → retried (w_now w) err e o →
    resends w' = resend_of (w_now w) err e c ++ resends w → Q false w') →
  wp (retransmit_due E (w_now w) i) Q w.
Proof.
  intros HI Hp Ha Hns Hi Hk HQ. destruct (inv_entry _ _ HI i e Hi) as [Hcount Hnext Hbuf _]. pose proof (lookup_lt_Some _ _ _ Hi) as Hlt.
  destruct (entry_live _ _ _ _ HI Hi) as (c' & Hk' & Hw). assert (c' = c) as -> by (unfold live in *; congruence). unfold retried, resend_of in HQ.
  destruct (ok_mrp _ _ _ _ _ _ _ _ _ (inv_ctx _ _ HI _ _ Hk) Hw ltac:(by rewrite Hns)) as (s & sess & Hs & Hsess & _).
  unfold retransmit_due. wstep. wstep. destruct (_ >? _); [wstep; by apply (HQ CHIP_NO_ERROR w (Some e))|].
  wstep. apply wp_verify; [apply bool_decide_eq_true, Hbuf; by rewrite (pl_fresh _ Hp)|]. wstep. wstep. wstep.
  unfold GetSessionHandle. rewrite Hs. wstep. destruct (Z.eqb_spec (re_sendCount e) CHIP_CONFIG_RMP_DEFAULT_MAX_RETRANS).
  { wstep. eapply wp_give_up; [done..|]. intros w' HI' Ho Ht Hr. wstep. by apply (HQ CHIP_NO_ERROR w' None). }
  assert (u8 (re_sendCount e + 1) = re_sendCount e + 1) as Hu8.
  { apply u8_id. unfold in_u8, CHIP_CONFIG_RMP_DEFAULT_MAX_RETRANS in *. lia. }
  wstep. wstep. rewrite Hu8. set (e1 := mkEntry _ _ _ (re_sendCount e + 1)). change (wset_table _ w) with (with_entry i (Some e1) w).
  set (w1 := with_entry i (Some e1) w).
  assert (Inv g w1) as HI1.
  { eapply (Inv_with_entry g i e e1); [done..|]. constructor; simpl; [lia|done|done|congruence]. }
  assert (entry w1 i e1) as Hi1 by (by eapply (entry_with_entry w)).
  wstep. eapply wp_CalculateNextRetransTime; [done|done|by rewrite Hns|exact Hi1|]. cbv zeta. intros t Hnow HI2.
  set (w1' := wset_tick _ w1) in *. set (e2 := mkEntry (re_ec e1) (re_retainedBuf e1) t (re_sendCount e1)) in *. set (w2 := with_entry i (Some e2) w1') in *.
  assert (entry w2 i e2) as Hi2 by (by eapply (entry_with_entry w1')).
  wstep. eapply (wp_SendFromRetransTable E g i e2 c); [done..|]. intros err w3 HI3 Ho3 Ht3 Hr3. wstep.
  eapply (HQ err w3 _); [done| |exact Ht3| |exact Hr3].
  - transitivity w1; [apply others_entry|]. transitivity w2; [|exact Ho3]. transitivity w1'; [|apply others_entry].
    constructor; [done|intros; by apply kept_contexts|done].
  - destruct (ok err); [|done]. by exists t.
Qed.

(** The retransmissions of the entries in the places [l], the first one first. *)
Definition resends_due (w : World) (answers : nat → chip_error) (l : list nat) : list Event :=
  l ≫= λ i, match mjoin (w_table w !! i) with
            | Some e => match mjoin (w_contexts w !! re_ec e) with Some c => resend_of (w_now w) (answers i) e c | None => [] end
            | None => []
            end.

(** The entries in the places [l] and their exchanges are still those of [w]. *)
Definition unchanged (w : World) (l : list nat) (w1 : World) : Prop :=
  w_now w1 = w_now w ∧
  ∀ i, i ∈ l → ∃ e c c1, entry w i e ∧ entry w1 i e ∧ live w (re_ec e) c ∧ live w1 (re_ec e) c1 ∧ ec_uid c1 = ec_uid c.

Lemma unchanged_step g w l i e w1 w2 :
  Inv g w1 → entry w1 i e → unchanged w (i :: l) w1 → i ∉ l → others_stay i (re_ec e) w1 w2 → unchanged w l w2.
Proof.
  intros HI Hi [Hn Hu] Hnot [Ht Hk Hn2]. split; [congruence|]. intros j Hj. assert (j ≠ i) as Hne by (by intros ->).
  destruct (Hu j) as (e' & c & c1 & He & He1 & Hc & Hc1 & Huid); [by right|].
  assert (re_ec e' ≠ re_ec e) as Hnk.
  { intros Heq. apply Hne. eapply (entries_one (w_table w1) (re_ec e)); [|exact He1|exact Hi|done|done].
    destruct (entry_live _ _ _ _ HI Hi) as (d & Hd & _). rewrite (ok_wait _ _ _ _ _ _ _ _ _ (inv_ctx _ _ HI _ _ Hd)).
    by destruct (IsWaitingForAck d). }
  destruct (Hk _ Hnk c1 Hc1) as (c2 & Hc2 & Hs). exists e', c, c2. split_and!; [done| |done|done|].
  - unfold entry. by rewrite Ht.
  - by rewrite (si_uid _ _ Hs).
Qed.

Lemma resends_due_ext w a a' l : (∀ i, i ∈ l → a i = a' i) → resends_due w a l = resends_due w a' l.
Proof.
  induction l as [|i l IH]; intros Ha; [done|]. unfold resends_due in *. rewrite !bind_cons, (Ha i), IH by set_solver. done.
Qed.

(** The second loop: each entry of the rest of the table is [retried] with an answer of its own,
    and nothing else is retransmitted. *)
Lemma wp_retransmit_loop E g w l w1 :
  NoDup l → Inv g w1 → plain g → g_armed g = false → g_nosess g = None → unchanged w l w1 →
  wp (for_each (retransmit_due E (w_now w)) l) (λ _ w', Inv g w' ∧ ∃ answers,
    resends w' = reverse (resends_due w answers l) ++ resends w1 ∧
    (∀ i e, i ∈ l → entry w i e → ∃ o, w_table w' !! i = Some o ∧ retried (w_now w) (answers i) e o) ∧
    ∀ i, i ∉ l → w_table w' !! i = w_table w1 !! i) w1.
Proof.
  intros Hnd. revert w1. induction Hnd as [|i l Hnot Hnd IH]; intros w1 HI Hp Ha Hns Hu; cbn [for_each].
  { wstep. split; [done|]. exists (λ _, CHIP_NO_ERROR). split_and!; [done| |done]. intros i e Hin. by apply not_elem_of_nil in Hin. }
  destruct (proj2 Hu i) as (e & c & c1 & He & He1 & Hc & Hc1 & Huid); [by left|].
  wstep. rewrite <- (proj1 Hu). eapply (wp_retransmit_due E g i e c1); [done..|]. rewrite (proj1 Hu). intros err w2 o HI2 Ho Ht Hr Hs. cbv iota.
  eapply wp_mono; [apply (IH w2); [done..|exact (unchanged_step g w l i e w1 w2 HI He1 Hu Hnot Ho)]|]. intros [] w' (HI' & answers & Hs' & Hl & Hrest). split; [done|].
  exists (λ j, if decide (j = i) then err else answers j). split_and!.
  - assert (resends_due w (λ j, if decide (j = i) then err else answers j) (i :: l) = resend_of (w_now w) err e c1 ++ resends_due w answers l) as ->.
    { unfold resends_due at 1. rewrite bind_cons. unfold entry, live in He, Hc. rewrite He. simpl. rewrite Hc. simpl. rewrite decide_True by done.
      unfold resend_of. rewrite Huid. f_equal. apply resends_due_ext. intros j Hj. rewrite decide_False; [done|by intros ->]. }
    rewrite reverse_app, <- app_assoc, Hs', Hs. f_equal. unfold resend_of. by destruct (_ || _).
  - intros j e' Hj Hej. apply elem_of_cons in Hj as [->|Hj].
    + rewrite decide_True by done. exists o. rewrite (Hrest i Hnot), Ht. assert (e' = e) as -> by (unfold entry in *; congruence). done.
    + rewrite decide_False by (by intros ->). by apply Hl.
  - intros j [Hne Hj]%not_elem_of_cons. rewrite Hrest by done. by apply (os_table _ _ _ _ Ho).
Qed.

(** What the timer did to the table and what it retransmitted. *)
Definition retransmitted (w w' : World) : Prop := ∃ answers,
  resends w' = reverse (resends_due w answers (active_indices (w_table w))) ++ resends w ∧
  ∀ i e, entry w i e → ∃ o, w_table w' !! i = Some o ∧ retried (w_now w) (answers i) e o.

Lemma wp_ExecuteActions E g w (Q : () → World → Prop) :
  Inv g w → plain g → g_armed g = false → g_nosess g = None →
  (∀ w', Inv g w' → retransmitted w w' → Q () w') → wp (ExecuteActions E) Q w.
Proof.
  intros HI Hp Ha Hns HQ. unfold ExecuteActions. wstep. wstep. wstep.
  eapply wp_mono; [eapply (wp_for_each _ _ (λ w1, Inv g w1 ∧ w_table w1 = w_table w ∧ w_now w1 = w_now w ∧ resends w1 = resends w ∧ ∀ k, kept k w w1)
    (λ k w, ∃ c, live w k c)); [apply active_indices_nodup|done|..]|].
  - intros k Hk. by apply active_indices_spec in Hk.
  - intros k w1 (HI1 & Ht1 & Hn1 & Hr1 & Hk1) (c & Hk). eapply wp_ack_due; [done..|]. intros w2 HI2 Hkept Ht2 Hn2 Hr2. split; [split_and!; [done|congruence..|]|].
    + intros k'. by transitivity w1.
    + intros k' _ (c' & Hk'). destruct (Hkept k' c' Hk') as (c2 & Hk2 & _). eauto.
  - intros [] w1 (HI1 & Ht1 & Hn1 & Hr1 & Hk1). wstep. wstep. rewrite Ht1.
    eapply wp_mono; [apply (wp_retransmit_loop E g w); [apply active_indices_nodup|done..|]|].
    + split; [done|]. intros i (e & He)%active_indices_spec. destruct (entry_live _ _ _ _ HI He) as (c & Hc & _).
      destruct (Hk1 _ c Hc) as (c1 & Hc1 & Hs). exists e, c, c1. split_and!; [done|unfold entry; by rewrite Ht1|done|done|apply Hs].
    + intros [] w2 (HI2 & answers & Hs & Hl & _). apply HQ; [done|]. exists answers. rewrite <- Hr1. split; [done|].
      intros i e He. apply Hl; [|done]. apply active_indices_spec. eauto.
Qed.

Lemma Inv_stop g w : Inv g w → Inv (arm false g) (wset_timer None w).
Proof.
  intros HI. destruct (Inv_unarm _ _ HI) as [Hc Hf He Hn Ht]. constructor; try done.
  - intros k c Hk. by destruct (Hc k c Hk).
  - intros i e Hi. by destruct (He i e Hi).
Qed.

Lemma wp_Timeout E g w (Q : () → World → Prop) :
  Inv g w → plain g → g_nosess g = None →
  (∀ w', Inv (arm true g) w' → retransmitted w w' → Q () w') → wp (Timeout E) Q w.
Proof.
  intros HI Hp Hns HQ. unfold Timeout. wstep. unfold StopTimer. wstep. wstep.
  eapply (wp_ExecuteActions E (arm false g)); [by apply Inv_stop|by apply plain_arm|done..|]. intros w1 HI1 Hr.
  eapply wp_StartTimer; [done|]. intros w2 HI2 (t & n & ->). by apply HQ.
Qed.

(** ** The manager *)

Lemma Inv_eph g k w : g_eph g = None → Inv g w → Inv (eph k g) w.
Proof.
  intros Hg [Hc Hf He Hn Ht]. constructor; [|done| |done..].
  - intros k' c Hk. destruct (Hc k' c Hk). constructor; try done. intros Hd. specialize (ok_eph Hd). congruence.
  - intros i e Hi. by destruct (He i e Hi).
Qed.

(** The exchange for an acknowledgement is gone. *)
Lemma Inv_eph_gone g k w : Inv (eph (Some k) g) w → g_eph g = None → (∀ c, ¬ live w k c) → Inv g w.
Proof.
  intros [Hc Hf He Hn Ht] Hg Hgone. constructor; [|done| |done..].
  - intros k' c Hk. destruct (Hc k' c Hk). constructor; try done. intros Hd. specialize (ok_eph Hd). simpl in ok_eph. simplify_eq.
    by destruct (Hgone c).
  - intros i e Hi. by destruct (He i e Hi).
Qed.

Lemma new_flags f E id s sess ini d e uid :
  ec_has f (ExchangeContext_new E id s sess ini d e uid) =
  match f with
  | kFlagInitiator => ini
  | kFlagEphemeralExchange => e
  | kFlagWillSendMessage => ini && negb e
  | kFlagAutoRequestAck => AllowsMRP sess
  | _ => false
  end.
Proof.
  unfold ec_has, ExchangeContext_new; simpl. rewrite !Flags_Has_Set.
  destruct ini, e; simpl; rewrite ?Flags_Has_Set, ?Flags_Has_0; destruct f; repeat case_decide; done.
Qed.

(** An exchange that has just been made. *)
Record newborn (c : ExchangeContext) : Prop := {
  nb_ref : ec_mRefCount c = 1;
  nb_owner : ec_owner c = true;
  nb_nextAck : ec_mNextAckTime c = 0;
  nb_closed : ec_has kFlagClosed c = false;
  nb_wait : IsWaitingForAck c = false;
  nb_ack : IsAckPending c = false;
  nb_valid : HasPiggybackAckPending c = false;
  nb_ignore : ec_has kFlagIgnoreSessionRelease c = false
}.

Lemma new_newborn E id s sess ini d e uid : newborn (ExchangeContext_new E id s sess ini d e uid).
Proof. constructor; try done; apply new_flags. Qed.

Lemma Inv_create g k c w :
  Inv g w → w_contexts w !! k = Some None → newborn c →
  (∀ s, ec_mSession c = Some s → usable_session w s) → (ec_mDispatch c = EphemeralDispatch → g_eph g = Some k) →
  Inv g (with_ec k c w).
Proof.
  intros [Hc Hf He Hn Ht] Hk [Href Ho Hna Hcl Hw Ha Hv Hig] Hs Hep. pose proof (lookup_lt_Some _ _ _ Hk) as Hlt.
  destruct (Hf k) as (He0 & Hh0 & Hr0); [unfold live; rewrite Hk; naive_solver|].
  assert (live (with_ec k c w) k c) as Hl by (unfold live; simpl; by rewrite list_lookup_insert_eq).
  constructor; try done.
  - intros k' d Hd. destruct (decide (k = k')) as [<-|Hne].
    + assert (d = c) as -> by (unfold live in *; congruence).
      constructor; rewrite ?Href, ?Ho, ?Hcl, ?Hw, ?Ha, ?Hv, ?Hig, ?Hna, ?Hh0; simpl w_table; rewrite ?He0; try done.
      simpl w_responseTimers. rewrite Hr0. by intros [].
    + apply live_with_ec_ne in Hd; [|done]. by apply Hc.
  - intros k' Hnl. apply Hf. intros d Hd. destruct (decide (k = k')) as [<-|Hne]; [by apply (Hnl c)|].
    apply (Hnl d). by apply live_with_ec_ne.
Qed.

Lemma active_usable w s sess : w_sessions w !! s = Some sess → IsActiveSession sess = true → usable_session w s.
Proof.
  intros Hs Ha. exists sess. split; [done|]. intros Ht. unfold IsActiveSession in Ha. rewrite Ht in Ha.
  apply bool_decide_eq_true in Ha. congruence.
Qed.

Lemma wp_CreateContext E g id s sess ini d (e : bool) w (Q : option nat → World → Prop) :
  Inv g w → g_eph g = None → w_sessions w !! s = Some sess → Q None w →
  (∀ k w' uid, let c := ExchangeContext_new E id s sess ini d e uid in
     Inv (if e then eph (Some k) g else g) w' → live w' k c → w_sessions w' = w_sessions w → Q (Some k) w') →
  wp (CreateContext E id s ini d e) Q w.
Proof.
  intros HI Hg Hs Hnone HQ. unfold CreateContext. wstep. wstep. destruct (free_index 0 (w_contexts w)) as [k|] eqn:Hk; [|by wstep].
  apply free_index_spec in Hk as (j & -> & Hj). simpl Nat.add. wstep. wstep. wstep. wstep. wstep. wstep. wstep.
  set (c := ExchangeContext_new _ _ _ _ _ _ _ _).
  assert (Inv (if e then eph (Some j) g else g) (with_ec j c w)) as HI1.
  { eapply Inv_create; [destruct e; [by apply Inv_eph|done]|done|apply new_newborn|..].
    - intros s' Hs'. unfold c in Hs'; simpl in Hs'. destruct (IsActiveSession sess) eqn:Ha; simplify_eq. by eapply active_usable.
    - unfold c; simpl. unfold GetMessageDispatch. destruct e; [done|]. destruct d as [d|]; [destruct (env_establishes E d)|]; done. }
  eapply (HQ j _ (w_nextUid w)); [by apply Inv_ids| |done].
  unfold live; simpl. by rewrite list_lookup_insert_eq by (by eapply lookup_lt_Some).
Qed.

Lemma in_flags {A} (x a b c d : A) : x ∈ [a; b; c; d] → x = a ∨ x = b ∨ x = c ∨ x = d.
Proof. rewrite !elem_of_cons, elem_of_nil. tauto. Qed.

Lemma wp_SendStandaloneAckIfNeeded E g ph h s sess dup w (Q : () → World → Prop) :
  Inv g w → plain g → (length (g_holds g) < 50)%nat → g_holds g = [] → g_eph g = None → g_nosess g = None →
  w_sessions w !! s = Some sess → IsActiveSession sess = true → (∀ w', Inv g w' → Q () w') →
  wp (SendStandaloneAckIfNeeded E ph h s dup) Q w.
Proof.
  intros HI Hp Hlen Hh Hg Hns Hs Ha HQ. unfold SendStandaloneAckIfNeeded. wstep. wstep. destruct (_ || _); [wstep; by apply HQ|].
  wstep. eapply wp_CreateContext; [done..|wstep; by apply HQ|]. cbv zeta. intros k w1 uid HI1 Hk1 Hse1. set (c := ExchangeContext_new _ _ _ _ _ _ _ _) in *.
  wstep. eapply (wp_HandleMessage E (eph (Some k) g) k c s); [done|by apply plain_hold; [destruct Hp; constructor|simpl; lia]|simpl; by rewrite Hns|done|unfold c; simpl; by rewrite Ha|].
  intros err w2 HI2 Hgone. wstep. apply HQ. eapply Inv_eph_gone; [done..|]. apply Hgone; [|simpl; by rewrite Hh].
  constructor; [done|]. intros f Hf. unfold c. rewrite new_flags. destruct (in_flags _ _ _ _ _ Hf) as [-> |[-> |[-> | ->]]]; try done. by rewrite andb_false_r.
Qed.

Lemma wp_HandleUnsolicited E g ph h s sess dup w (Q : () → World → Prop) :
  Inv g w → plain g → g_holds g = [] → g_eph g = None → g_nosess g = None →
  w_sessions w !! s = Some sess → IsActiveSession sess = true → (∀ w', Inv g w' → Q () w') → wp (HandleUnsolicited E ph h s dup) Q w.
Proof.
  intros HI Hp Hh Hg Hns Hs Ha HQ. unfold HandleUnsolicited. wstep. wstep.
  assert (length (g_holds g) < 50)%nat as Hlen by (rewrite Hh; simpl; lia).
  destruct (ok a.1); simpl; [|eapply wp_SendStandaloneAckIfNeeded; [by apply Inv_tick|done..]].
  wstep. eapply wp_CreateContext; [by apply Inv_tick|done..|wstep; apply HQ; by apply Inv_tick|]. cbv zeta.
  intros k w1 uid HI1 Hk1 Hse1. set (c := ExchangeContext_new _ _ _ _ _ _ _ _) in *. wstep. wstep. wstep.
  assert (∃ b, IsEncryptionRequired (ec_mDispatch c) = mret b) as (b & Hb).
  { unfold c; simpl. unfold GetMessageDispatch. destruct a.2 as [d|]; [destruct (env_establishes E d)|]; simpl; eauto. }
  rewrite Hb. wstep. destruct (negb (eqb b (IsEncrypted ph))).
  - wstep. eapply wp_Close; [eauto with exch..|]. intros w2 HI2 _ _ _ Hse2.
    assert (w_sessions w2 !! s = Some sess).
    { rewrite Hse2, Hse1; [done|]. unfold c, IsAckPending. by rewrite new_flags. }
    eapply wp_SendStandaloneAckIfNeeded; eauto.
  - wstep. eapply (wp_HandleMessage E g k c s); [done|apply plain_hold; [done|lia]|by rewrite Hns|done|unfold c; simpl; by rewrite Ha|].
    intros err w2 HI2 _. wstep. by apply HQ.
Qed.

Lemma wp_find_exchange g s ph h l w (Q : option nat → World → Prop) :
  Inv g w → g_eph g = None → (∀ k, k ∈ l → ∃ c, live w k c) → Q None w →
  (∀ k c, live w k c → ec_mSession c = Some s → Q (Some k) w) → wp (find_exchange s ph h l) Q w.
Proof.
  intros HI Hg Hl Hnone Hsome. induction l as [|k l IH]; simpl; [by wstep|].
  destruct (Hl k) as (c & Hk); [set_solver|]. assert (wp (find_exchange s ph h l) Q w) as Hrec by (apply IH; set_solver).
  wstep. unfold MatchExchange. wstep. wstep. destruct (negb _); [by wstep|]. destruct (negb (bool_decide _)) eqn:Hs; [by wstep|].
  apply negb_false_iff, bool_decide_eq_true in Hs.
  assert (∃ b, IsEncryptionRequired (ec_mDispatch c) = mret b) as (b & Hb).
  { pose proof (ok_eph _ _ _ _ _ _ _ _ _ (inv_ctx _ _ HI k c Hk)) as He. rewrite Hg in He. destruct (ec_mDispatch c); simpl; eauto.
    by specialize (He eq_refl). }
  wstep. rewrite Hb. wstep. destruct (negb (eqb b _)); [by wstep|]. wstep. destruct (negb _); [wstep; eauto|done].
Qed.

Lemma wp_OnMessageReceived E g handlers ph h s sess dup w (Q : () → World → Prop) :
  Inv g w → plain g → g_holds g = [] → g_eph g = None → g_nosess g = None →
  w_sessions w !! s = Some sess → (∀ w', Inv g w' → Q () w') → wp (OnMessageReceived E handlers ph h s dup) Q w.
Proof.
  intros HI Hp Hh Hg Hns Hs HQ. assert (length (g_holds g) < 50)%nat as Hlen by (rewrite Hh; simpl; lia).
  unfold OnMessageReceived. wstep. wstep. wstep.
  assert (wp (sess0 ← get_session s;
      if negb (IsActiveSession sess0) then mret () else
      if negb dup && IsInitiator h then
        match match_umh h None handlers with
        | Some _ => HandleUnsolicited E ph h s dup
        | None => SendStandaloneAckIfNeeded E ph h s dup
        end
      else if negb (NeedsAck h) then mret () else SendStandaloneAckIfNeeded E ph h s dup) Q w) as Hnone.
  { wstep. wstep. destruct (IsActiveSession sess) eqn:Ha; simpl; [|wstep; by apply HQ].
    destruct (_ && _); [destruct (match_umh _ _ _)|destruct (negb _)].
    - by eapply wp_HandleUnsolicited.
    - by eapply wp_SendStandaloneAckIfNeeded.
    - wstep. by apply HQ.
    - by eapply wp_SendStandaloneAckIfNeeded. }
  destruct (negb (IsGroupSession ph)); [|by wstep]. eapply wp_find_exchange; [done..| |exact Hnone|].
  { intros k Hk. by apply active_indices_spec in Hk. }
  intros k c Hk Hsc. wstep. eapply (wp_HandleMessage E g k c s); [done|apply plain_hold; [done|lia]|by rewrite Hns|done..|].
  intros err w2 HI2 _. wstep. by apply HQ.
Qed.

Lemma core_same_undelegate c : core_same c (ecset_delegate None c).
Proof. by constructor. Qed.

Lemma wp_CloseAllContextsForDelegate E g d w (Q : () → World → Prop) :
  Inv g w → plain g → (∀ w', Inv g w' → Q () w') → wp (CloseAllContextsForDelegate E d) Q w.
Proof.
  intros HI Hp HQ. unfold CloseAllContextsForDelegate. wstep. wstep.
  eapply wp_mono; [eapply (wp_for_each _ _ (Inv g) (λ k w, ∃ c, live w k c)); [apply active_indices_nodup|done|..]|].
  - intros k Hk. by apply active_indices_spec in Hk.
  - intros k w1 HI1 (c & Hk). unfold close_for_delegate. wstep. wstep. wstep. apply wp_when; intros Hd.
    + apply bool_decide_eq_true in Hd. assert (ec_has kFlagClosed c = false) as Hcl.
      { destruct (ec_has kFlagClosed c) eqn:Hcl; [|done]. pose proof (ok_delegate _ _ _ _ _ _ _ _ _ (inv_ctx _ _ HI1 k c Hk) Hcl). congruence. }
      wstep. eapply wp_modify_ec; [done|]. assert (Inv g (with_ec k (ecset_delegate None c) w1)) as HI2
        by (by eapply Inv_core; [done..|apply core_same_undelegate|]).
      eapply wp_Close; [eauto with exch..|by eapply live_with_ec| |eauto with exch|].
      { exact (ok_open _ _ _ _ _ _ _ _ _ (inv_ctx _ _ HI1 k c Hk) Hcl). }
      intros w3 HI3 _ _ Hkept _. wstep. split; [done|]. intros k' Hne (c' & Hk').
      destruct (Hkept k' Hne c') as (c3 & Hk3 & _); [by apply live_with_ec_ne|]. eauto.
    + wstep. split; [done|]. eauto.
  - intros [] w2 HI2. by apply HQ.
Qed.

Lemma wp_NewContext E g s sess d ini w (Q : option nat → World → Prop) :
  Inv g w → g_eph g = None → w_sessions w !! s = Some sess → (∀ o w', Inv g w' → Q o w') → wp (NewContext E s d ini) Q w.
Proof.
  intros HI Hg Hs HQ. unfold NewContext. wstep. wstep. destruct (negb _); [wstep; by apply HQ|]. wstep. wstep. wstep. wstep.
  eapply wp_CreateContext; [by apply Inv_ids|done..|apply HQ; by apply Inv_ids|]. cbv zeta. intros k w' uid HI' _ _. by apply HQ.
Qed.

(** * The layer as a state machine *)

(** What calls the layer: the application, the session manager with a message or with the end
    of a session, and the timers. *)
Inductive call :=
| CallNewContext (s : nat) (delegate : option nat) (isInitiator : bool)
| CallPerform (k : nat) (a : AppAction)
| CallCloseAllContextsForDelegate (delegate : nat)
| CallOnMessageReceived (handlers : list UMHSlot) (packetHeader : PacketHeader) (payloadHeader : PayloadHeader) (s : nat) (isDuplicate : bool)
| CallSessionReleased (k : nat)
| CallTimeout
| CallHandleResponseTimeout (k : nat).

Definition has_session (s : nat) (w : World) : bool := bool_decide (is_Some (w_sessions w !! s)).
Definition the_ec (k : nat) (w : World) : option ExchangeContext := mjoin (w_contexts w !! k).

(** When the call can come: a session exists, the application owns the exchange, the timer is
    due. *)
Definition allowed (c : call) (w : World) : bool :=
  match c with
  | CallNewContext s _ _ | CallOnMessageReceived _ _ _ s _ => has_session s w
  | CallPerform k _ => match the_ec k w with Some c => ec_owner c | None => false end
  | CallSessionReleased k => match the_ec k w with Some c => bool_decide (is_Some (ec_mSession c)) | None => false end
  | CallCloseAllContextsForDelegate _ => true
  | CallTimeout => match w_timer w with Some t => t <=? w_now w | None => false end
  | CallHandleResponseTimeout k => match w_responseTimers w !! k with Some t => t <=? w_now w | None => false end
  end.

Definition api (E : Env) (c : call) : M () :=
  match c with
  | CallNewContext s d i => _ ← NewContext E s d i; mret ()
  | CallPerform k a => perform E k a
  | CallCloseAllContextsForDelegate d => CloseAllContextsForDelegate E d
  | CallOnMessageReceived hs ph h s dup => OnMessageReceived E hs ph h s dup
  | CallSessionReleased k => SessionReleased E k
  | CallTimeout => Timeout E
  | CallHandleResponseTimeout k => HandleResponseTimeout E k
  end.

(** The calls, and what happens outside: time passes, a session is made, or it changes its
    state or what it knows of its peer. *)
Inductive label :=
| Call (c : call)
| Clock (now : Z)
| NewSession (sess : Session)
| ChangeSession (s : nat) (state : SecureState) (remote : MrpConfig) (lastPeerActivity : Z).

Definition change_session (state : SecureState) (remote : MrpConfig) (last : Z) (sess : Session) : Session :=
  mkSession (s_type sess) (s_case sess) state (s_udp sess) remote last.

Definition exec (E : Env) (l : label) (w : World) : option World :=
  match l with
  | Call c => if allowed c w then match api E c w with Done _ w' => Some w' | Died _ => None end else None
  | Clock t => if (w_now w <=? t) && (t <? 2 ^ 63) then Some (wset_now t w) else None
  | NewSession sess => Some (wset_sessions (w_sessions w ++ [sess]) w)
  | ChangeSession s st r last =>
      match w_sessions w !! s with
      | Some sess =>
          if bool_decide (st = kEstablishing) && negb (bool_decide (s_state sess = kEstablishing)) then None
          else Some (wset_sessions (<[s := change_session st r last sess]> (w_sessions w)) w)
      | None => None
      end
  end.

(** Empty pools of [n] exchanges and [m] messages. *)
Definition initial (n m : nat) (now id : Z) : World :=
  mkWorld now 0 (replicate n None) (replicate m None) [] None ∅ id 0 [].

Inductive reachable (E : Env) : World → Prop :=
| reach_initial n m now id : 0 <= now < 2 ^ 63 → reachable E (initial n m now id)
| reach_step l w w' : reachable E w → exec E l w = Some w' → reachable E w'.

Fixpoint run (E : Env) (ls : list label) (w : World) : option World :=
  match ls with [] => Some w | l :: ls => w' ← exec E l w; run E ls w' end.

Lemma run_reachable E ls w w' : reachable E w → run E ls w = Some w' → reachable E w'.
Proof.
  revert w. induction ls as [|l ls IH]; intros w Hr Hrun; simplify_eq/=; [done|].
  destruct (exec E l w) as [w1|] eqn:Hx; simpl in Hrun; [|done]. eapply IH; [by eapply reach_step|done].
Qed.

(** ** Every step keeps the invariant *)

Lemma Inv_initial n m now id : 0 <= now < 2 ^ 63 → Inv rest (initial n m now id).
Proof.
  intros Hn. assert (∀ k, entries (replicate m None) k = 0) as He by (intros k; induction m; simpl; lia).
  constructor; try done; simpl.
  - intros k c Hk. unfold live in Hk; simpl in Hk. by apply lookup_replicate in Hk as [? _].
  - intros i e Hi. unfold entry in Hi; simpl in Hi. by apply lookup_replicate in Hi as [? _].
Qed.

Lemma covered_later now now' timer d : now <= now' → covered now timer d → covered now' timer d.
Proof. intros Hn (t & Ht & Hd). exists t. split; [done|lia]. Qed.

Lemma Inv_clock g t w : Inv g w → w_now w <= t < 2 ^ 63 → Inv g (wset_now t w).
Proof.
  intros [Hc Hf He Hn Ht] Hle. constructor; [|done| |simpl; lia|done].
  - intros k c Hk. destruct (Hc k c Hk). constructor; try done. intros Ha Hp. eapply covered_later; [|by apply ok_timer]. simpl. lia.
  - intros i e Hi. destruct (He i e Hi). constructor; try done. intros Ha. eapply covered_later; [|by apply ok_due]. simpl. lia.
Qed.

(** The sessions that exchanges use stay good. *)
Lemma Inv_sessions g ss w :
  Inv g w →
  (∀ s sess, w_sessions w !! s = Some sess → ∃ sess', ss !! s = Some sess' ∧ s_type sess' = s_type sess ∧ AllowsMRP sess' = AllowsMRP sess ∧
     (s_state sess' = kEstablishing → s_state sess = kEstablishing)) →
  Inv g (wset_sessions ss w).
Proof.
  intros [Hc Hf He Hn Ht] Hss. constructor; try done. intros k c Hk. destruct (Hc k c Hk). constructor; try done.
  - intros s Hs. destruct (ok_session s Hs) as (sess & Hx & Hne). destruct (Hss s sess Hx) as (sess' & Hx' & Hty & _ & Hst).
    exists sess'. split; [done|]. rewrite Hty. naive_solver.
  - intros Hw Hg. destruct (ok_mrp Hw Hg) as (s & sess & Hs & Hx & Ha). destruct (Hss s sess Hx) as (sess' & Hx' & _ & Hmrp & _).
    exists s, sess'. by rewrite Hmrp.
Qed.

Lemma plain_rest : plain rest.
Proof. constructor; simpl; [done..|lia]. Qed.
#[export] Hint Resolve plain_rest : exch.

Lemma the_ec_live k w c : the_ec k w = Some c → live w k c.
Proof. unfold the_ec, live. by destruct (w_contexts w !! k) as [[]|]; intros; simplify_eq/=. Qed.

Lemma wp_api E c w : Inv rest w → allowed c w = true → wp (api E c) (λ _ w', Inv rest w') w.
Proof.
  intros HI Ha. destruct c as [s d i|k a|d|hs ph h s dup|k| |k]; simpl in Ha; simpl api.
  - apply bool_decide_eq_true in Ha as (sess & Hs). wstep. eapply wp_NewContext; [done..|]. by intros.
  - destruct (the_ec k w) as [c|] eqn:Hk; [|done]. apply the_ec_live in Hk.
    assert (wp (run_action E k a) (λ _ w', Inv rest w') w) as Hrun by (eapply wp_run_action; eauto with exch).
    unfold run_action, wp, mbind, M_bind, get_ec in Hrun. rewrite Hk, Ha in Hrun. exact Hrun.
  - eapply wp_CloseAllContextsForDelegate; eauto with exch.
  - apply bool_decide_eq_true in Ha as (sess & Hs). eapply wp_OnMessageReceived; eauto with exch.
  - destruct (the_ec k w) as [c|] eqn:Hk; [|done]. apply the_ec_live in Hk. eapply wp_SessionReleased; [done| |done..|by intros].
    constructor; simpl; [done..|lia].
  - eapply wp_Timeout; [eauto with exch..|]. by intros.
  - destruct (w_responseTimers w !! k) as [t|] eqn:Ht; [|done].
    assert (∃ c, live w k c) as (c & Hk).
    { destruct (w_contexts w !! k) as [[c|]|] eqn:Hk; [by exists c|..].
      all: destruct (inv_free _ _ HI k) as (_ & _ & H0); [unfold live; rewrite Hk; naive_solver|congruence]. }
    unfold HandleResponseTimeout, CancelResponseTimer. wstep. wstep.
    eapply (wp_NotifyResponseTimeout E rest k c); [by apply Inv_cancel|by apply plain_hold; [apply plain_rest|simpl; lia]|done|exact Hk|apply lookup_delete_eq|by intros].
Qed.

Lemma exec_Inv E l w w' : Inv rest w → exec E l w = Some w' → Inv rest w'.
Proof.
  intros HI. destruct l as [c|t|sess|s st r last]; simpl; intros Hx.
  - destruct (allowed c w) eqn:Ha; [|done]. pose proof (wp_api E c w HI Ha) as Hwp. unfold wp in Hwp.
    destruct (api E c w); by simplify_eq/=.
  - destruct (_ && _) eqn:Hb; [|done]. simplify_eq. zbool. apply Inv_clock; [done|lia].
  - simplify_eq. apply Inv_sessions; [done|]. intros s x Hs. exists x. by rewrite lookup_app_l by (by eapply lookup_lt_Some).
  - destruct (w_sessions w !! s) as [sess|] eqn:Hs; [|done]. destruct (_ && _) eqn:Hb; [done|]. simplify_eq.
    apply Inv_sessions; [done|]. intros s' x Hs'. destruct (decide (s = s')) as [<-|Hne].
    + simplify_eq. eexists. rewrite list_lookup_insert_eq by (by eapply lookup_lt_Some). split_and!; [done..|]. simpl.
      intros ->. apply andb_false_iff in Hb as [Hb|Hb]; [by rewrite bool_decide_true in Hb|]. apply negb_false_iff in Hb. by apply bool_decide_eq_true in Hb.
    + exists x. by rewrite list_lookup_insert_ne.
Qed.

Lemma reachable_Inv E w : reachable E w → Inv rest w.
Proof. induction 1 as [n m now id Hn|l w w' _ IH Hx]; [by apply Inv_initial|by eapply exec_Inv]. Qed.

(** ** With a timer that can always be set, nothing ends the program *)

Section Timers.
Context (E : Env) (timers : ∀ n, env_timer E n = CHIP_NO_ERROR).

Definition accepts {A} (m : M A) : Prop := ∀ w, m w ≠ Died TimerRefused.

Lemma accepts_bind {A B} (m : M A) (f : A → M B) : accepts m → (∀ a, accepts (f a)) → accepts (m ≫= f).
Proof. intros Hm Hf w. unfold mbind, M_bind. specialize (Hm w). destruct (m w); [apply Hf|naive_solver]. Qed.
Lemma accepts_ret {A} (a : A) : accepts (mret a).
Proof. done. Qed.
Lemma accepts_modify f : accepts (modify f).
Proof. done. Qed.
Lemma accepts_get : accepts get.
Proof. done. Qed.
Lemma accepts_ask {A} (f : nat → A) : accepts (ask f).
Proof. done. Qed.
Lemma accepts_get_ec k : accepts (get_ec k).
Proof. intros w. unfold get_ec. by destruct (w_contexts w !! k) as [[]|]. Qed.
Lemma accepts_get_entry i : accepts (get_entry i).
Proof. intros w. unfold get_entry. by destruct (w_table w !! i) as [[]|]. Qed.
Lemma accepts_get_session s : accepts (get_session s).
Proof. intros w. unfold get_session. by destruct (w_sessions w !! s). Qed.
Lemma accepts_verify b : accepts (VerifyOrDie b).
Proof. by destruct b. Qed.
Lemma accepts_failed {A} : accepts (@die A VerifyFailed).
Proof. done. Qed.
Lemma accepts_for_each {A} (f : A → M bool) l : (∀ x, accepts (f x)) → accepts (for_each f l).
Proof. intros Hf. induction l; simpl; [done|]. apply accepts_bind; [done|]. by intros []. Qed.

Create HintDb accepts.
#[local] Hint Resolve accepts_ret accepts_modify accepts_get accepts_ask accepts_get_ec accepts_get_entry accepts_get_session accepts_verify accepts_failed accepts_for_each : accepts.

Ltac accepts_tac :=
  repeat first
    [ progress intros
    | solve [eauto with accepts nocore]
    | apply accepts_bind
    | apply accepts_for_each
    | match goal with
      | |- accepts (match ?x with _ => _ end) => destruct x
      | |- accepts (when ?b _) => unfold when
      | |- accepts (modify_ec _ _) => unfold modify_ec, put_ec
      | |- accepts (put_ec _ _) => unfold put_ec
      | |- accepts (put_entry _ _) => unfold put_entry
      | |- accepts (put_session _ _) => unfold put_session
      | |- accepts (emit _) => unfold emit
      end ].

Lemma accepts_StartTimer : accepts (StartTimer E).
Proof.
  intros w. unfold StartTimer, StopTimer, mbind, M_bind, get, modify, ask. destruct (negb _); [|done]. by rewrite timers.
Qed.
#[local] Hint Resolve accepts_StartTimer : accepts.

Lemma accepts_Release k : accepts (Release k).
Proof. unfold Release, ReleaseContext. accepts_tac. Qed.
Lemma accepts_Retain k : accepts (Retain k).
Proof. unfold Retain. accepts_tac. Qed.
#[local] Hint Resolve accepts_Release accepts_Retain : accepts.
Lemma accepts_ReleaseEntry i : accepts (ReleaseEntry i).
Proof. unfold ReleaseEntry, SetWaitingForAck. accepts_tac. Qed.
#[local] Hint Resolve accepts_ReleaseEntry : accepts.
Lemma accepts_ClearRetransTable i : accepts (ClearRetransTable E i).
Proof. unfold ClearRetransTable. accepts_tac. Qed.
#[local] Hint Resolve accepts_ClearRetransTable : accepts.
Lemma accepts_ClearRetransTable_of k : accepts (ClearRetransTable_of E k).
Proof. unfold ClearRetransTable_of. accepts_tac. Qed.
Lemma accepts_CalculateNextRetransTime i : accepts (CalculateNextRetransTime E i).
Proof. unfold CalculateNextRetransTime, GetSessionHandle, GetRemoteMRPConfig. accepts_tac. Qed.
Lemma accepts_SendFromRetransTable i : accepts (SendFromRetransTable E i).
Proof. unfold SendFromRetransTable. accepts_tac. Qed.
Lemma accepts_MarkAsDefunctIfCASE s : accepts (MarkAsDefunctIfCASE s).
Proof. unfold MarkAsDefunctIfCASE, MarkAsDefunct. accepts_tac. Qed.
#[local] Hint Resolve accepts_ClearRetransTable_of accepts_CalculateNextRetransTime accepts_SendFromRetransTable accepts_MarkAsDefunctIfCASE : accepts.
Lemma accepts_NonMRP k h : accepts (PrepareAndSendNonMRPMessage E k h).
Proof. unfold PrepareAndSendNonMRPMessage. accepts_tac. Qed.
Lemma accepts_SendReliably k h : accepts (SendReliably E k h).
Proof. unfold SendReliably, AddToRetransTable, SetWaitingForAck, StartRetransmision. accepts_tac. Qed.
#[local] Hint Resolve accepts_NonMRP accepts_SendReliably : accepts.
Lemma accepts_Dispatch s k b p t : accepts (Dispatch_SendMessage E s k b p t).
Proof. unfold Dispatch_SendMessage. accepts_tac. Qed.
Lemma accepts_ExpectResponse k : accepts (ExpectResponse E k).
Proof. unfold ExpectResponse, StartResponseTimer, SetResponseExpected. accepts_tac. Qed.
#[local] Hint Resolve accepts_Dispatch accepts_ExpectResponse : accepts.
Lemma accepts_SendMessage_with handled k p t fl : (∀ k, accepts (handled k)) → accepts (SendMessage_with E handled k p t fl).
Proof. intros Hh. unfold SendMessage_with, SendMessage_body, CancelResponseTimer, SetResponseExpected. accepts_tac. Qed.
#[local] Hint Resolve accepts_SendMessage_with : accepts.
Lemma accepts_Ack k : accepts (SendStandaloneAckMessage E k).
Proof. unfold SendStandaloneAckMessage. accepts_tac. Qed.
#[local] Hint Resolve accepts_Ack : accepts.
Lemma accepts_DoClose b k : accepts (DoClose E b k).
Proof. unfold DoClose, FlushAcks, CancelResponseTimer. accepts_tac. Qed.
#[local] Hint Resolve accepts_DoClose : accepts.
Lemma accepts_Close k : accepts (Close E k).
Proof. unfold Close, ReleaseOwner. accepts_tac. Qed.
Lemma accepts_Abort k : accepts (Abort E k).
Proof. unfold Abort, ReleaseOwner. accepts_tac. Qed.
#[local] Hint Resolve accepts_Close accepts_Abort : accepts.
Lemma accepts_MessageHandled k : accepts (MessageHandled E k).
Proof. unfold MessageHandled. accepts_tac. Qed.
#[local] Hint Resolve accepts_MessageHandled : accepts.
Lemma accepts_perform k a : accepts (perform E k a).
Proof.
  unfold perform, WillSendMessage, SetResponseTimeout, SendMessage. accepts_tac.
Qed.
#[local] Hint Resolve accepts_perform : accepts.
Lemma accepts_run_actions k l : accepts (run_actions E k l).
Proof. induction l; simpl; unfold run_action; accepts_tac. Qed.
#[local] Hint Resolve accepts_run_actions : accepts.
Lemma accepts_HandleMRP k ctr h dup ack : accepts (HandleMRP E k ctr h dup ack).
Proof. unfold HandleMRP, HandleRcvdAck, CheckAndRemRetransTable, HandleNeedsAck, HandleNeedsAckInner, FlushAcks. accepts_tac. Qed.
Lemma accepts_HandleNew k ctr h : accepts (HandleNew E k ctr h).
Proof. unfold HandleNew, GetSessionHandle, CancelResponseTimer, SetResponseExpected, Deliver. accepts_tac. Qed.
#[local] Hint Resolve accepts_HandleMRP accepts_HandleNew : accepts.
Lemma accepts_HandleMessage k ctr h dup : accepts (HandleMessage E k ctr h dup).
Proof. unfold HandleMessage, GetSessionHandle. accepts_tac. Qed.
Lemma accepts_Notify b k : accepts (NotifyResponseTimeout E b k).
Proof. unfold NotifyResponseTimeout, SetResponseExpected, NotifySessionHang, OnResponseTimeout. accepts_tac. Qed.
Lemma accepts_CreateContext id s i d e : accepts (CreateContext E id s i d e).
Proof. unfold CreateContext. accepts_tac. Qed.
#[local] Hint Resolve accepts_HandleMessage accepts_Notify accepts_CreateContext : accepts.
Lemma accepts_IfNeeded ph h s dup : accepts (SendStandaloneAckIfNeeded E ph h s dup).
Proof. unfold SendStandaloneAckIfNeeded. accepts_tac. Qed.
Lemma accepts_find ph h s l : accepts (find_exchange s ph h l).
Proof. induction l; simpl; unfold MatchExchange, IsEncryptionRequired; accepts_tac. Qed.
#[local] Hint Resolve accepts_IfNeeded accepts_find : accepts.

Lemma accepts_api c : accepts (api E c).
Proof.
  destruct c; simpl; unfold NewContext, CloseAllContextsForDelegate, close_for_delegate, OnMessageReceived, HandleUnsolicited, IsEncryptionRequired,
    SessionReleased, OnSessionReleased, Timeout, StopTimer, ExecuteActions, ack_due, retransmit_due, retransmission_failed, GetSessionHandle, NotifySessionHang,
    HandleResponseTimeout, CancelResponseTimer; accepts_tac.
Qed.
End Timers.

(** * The registry of handlers *)

(** The handler of a key. *)
Fixpoint umh_lookup (p : ProtocolId) (t : Z) (l : list UMHSlot) : option nat :=
  match l with
  | [] => None
  | u :: l => if UMH_IsInUse u && UMH_Matches p t u then umh_Handler u else umh_lookup p t l
  end.

(** No key is there twice. *)
Fixpoint umh_ok (l : list UMHSlot) : bool :=
  match l with
  | [] => true
  | u :: l => (negb (UMH_IsInUse u) || bool_decide (umh_lookup (umh_ProtocolId u) (umh_MessageType u) l = None)) && umh_ok l
  end.

Lemma UMH_Matches_spec p t u : UMH_Matches p t u = true ↔ umh_ProtocolId u = p ∧ umh_MessageType u = t.
Proof. unfold UMH_Matches. rewrite andb_true_iff, bool_decide_eq_true, Z.eqb_eq. done. Qed.

Lemma umh_lookup_None p t l : umh_lookup p t l = None ↔ ∀ u, u ∈ l → UMH_IsInUse u && UMH_Matches p t u = false.
Proof.
  induction l as [|u l IH]; simpl; [split; [intros _ u Hu; by apply not_elem_of_nil in Hu|done]|].
  destruct (UMH_IsInUse u && UMH_Matches p t u) eqn:Hu.
  - split; [|intros H; rewrite (H u) in Hu by apply list_elem_of_here; done]. apply andb_true_iff in Hu as [[x Hx]%bool_decide_eq_true _]. congruence.
  - rewrite IH. split; [|intros H x Hx; by apply H, list_elem_of_further]. intros H x [->|Hx]%elem_of_cons; auto.
Qed.

Lemma umh_ok_cons u l : umh_ok (u :: l) = true ↔
  (UMH_IsInUse u = true → umh_lookup (umh_ProtocolId u) (umh_MessageType u) l = None) ∧ umh_ok l = true.
Proof. simpl. rewrite andb_true_iff, orb_true_iff, negb_true_iff, bool_decide_eq_true. destruct (UMH_IsInUse u); naive_solver. Qed.

Lemma find_umh_slot_spec p t i sel l :
  match find_umh_slot p t i sel l with
  | Some j => (∃ n u, j = (i + n)%nat ∧ l !! n = Some u ∧ UMH_IsInUse u = true ∧ UMH_Matches p t u = true) ∨
              umh_lookup p t l = None ∧ (sel = Some j ∨ sel = None ∧ ∃ n u, j = (i + n)%nat ∧ l !! n = Some u ∧ UMH_IsInUse u = false)
  | None => sel = None ∧ umh_lookup p t l = None ∧ Forall (λ u, UMH_IsInUse u = true) l
  end.
Proof.
  revert i sel. induction l as [|u l IH]; intros i sel; simpl; [destruct sel; auto|]. destruct (UMH_IsInUse u) eqn:Hu; simpl.
  - destruct (UMH_Matches p t u) eqn:Hm; [left; exists 0%nat, u; split; [lia|done]|]. specialize (IH (S i) sel).
    destruct (find_umh_slot p t (S i) sel l) as [j|]; [|naive_solver]. destruct IH as [(n & x & -> & Hx)|(Hn & IH)].
    + left. exists (S n), x. split; [lia|done].
    + right. split; [done|]. destruct IH as [IH|(Hsel & n & x & -> & Hx)]; [by left|]. right. split; [done|]. exists (S n), x. split; [lia|done].
  - specialize (IH (S i) (match sel with None => Some i | Some _ => sel end)).
    destruct (find_umh_slot _ _ _ _ l) as [j|]; [|destruct sel; naive_solver]. destruct IH as [(n & x & -> & Hx)|(Hn & IH)].
    + left. exists (S n), x. split; [lia|done].
    + right. split; [done|]. destruct sel as [s|].
      * destruct IH as [IH|[? _]]; [by left|done].
      * destruct IH as [IH|[? _]]; [|done]. simplify_eq. right. split; [done|]. exists 0%nat, u. split; [lia|done].
Qed.

(** A slot that has the key, or a free one when no slot has it, is filled. *)
Lemma umh_fill p t h l n u :
  umh_ok l = true → l !! n = Some u →
  UMH_IsInUse u = true ∧ UMH_Matches p t u = true ∨ UMH_IsInUse u = false ∧ umh_lookup p t l = None →
  let l' := <[n := mkUMH p t (Some h)]> l in
  umh_ok l' = true ∧ ∀ p' t', umh_lookup p' t' l' = if decide (p' = p ∧ t' = t) then Some h else umh_lookup p' t' l.
Proof.
  cbv zeta. revert n. induction l as [|v l IH]; intros [|n] Hok Hn Hcase; simplify_eq/=; apply umh_ok_cons in Hok as [Hv Hok].
  - assert (umh_lookup p t l = None) as Hnone.
    { destruct Hcase as [[Hu Hm]|[Hu Hl]]; [apply UMH_Matches_spec in Hm as [<- <-]; auto|]. by rewrite Hu in Hl. }
    split; [by rewrite bool_decide_true|]. intros p' t'. unfold UMH_Matches; simpl. case_decide as Hd.
    + destruct Hd as [-> ->]. by rewrite bool_decide_true, Z.eqb_refl.
    + destruct (bool_decide (p = p') && (t =? t')) eqn:Hb; [exfalso; apply Hd; apply andb_true_iff in Hb as [Hp%bool_decide_eq_true Ht%Z.eqb_eq]; done|].
      destruct (UMH_IsInUse u) eqn:Hu; [|done]. simpl. destruct Hcase as [[_ Hm]|[? _]]; [|done].
      unfold UMH_Matches in *. apply andb_true_iff in Hm as [Hp%bool_decide_eq_true Ht%Z.eqb_eq]. rewrite Hp, Ht. by rewrite Hb.
  - destruct (UMH_IsInUse v && UMH_Matches p t v) eqn:Hvm.
    { exfalso. apply andb_true_iff in Hvm as [Hvu Hvm]. apply UMH_Matches_spec in Hvm as [Hp Ht]. specialize (Hv Hvu). rewrite Hp, Ht in Hv.
      destruct Hcase as [[Hu Hm]|[_ Hl]].
      - apply umh_lookup_None with (u := u) in Hv; [|by eapply list_elem_of_lookup_2]. by rewrite Hu, Hm in Hv.
      - apply bool_decide_eq_true in Hvu as (x & Hx). congruence. }
    destruct (IH n Hok Hn Hcase) as [Hok' Hl']. split.
    + rewrite andb_true_iff. split; [|done]. rewrite orb_true_iff, negb_true_iff, bool_decide_eq_true, Hl'.
      destruct (UMH_IsInUse v) eqn:Hvu; [right|by left]. rewrite decide_False; [auto|]. intros [Hp Ht]. simpl in Hvm.
      assert (UMH_Matches p t v = true) by (by apply UMH_Matches_spec). congruence.
    + intros p' t'. rewrite Hl'. case_decide as Hd; [|done]. destruct Hd as [-> ->]. by rewrite Hvm.
Qed.

Lemma register_spec p t h l :
  umh_ok l = true →
  let r := RegisterUMH p t h l in
  if ok r.1 then umh_ok r.2 = true ∧ ∀ p' t', umh_lookup p' t' r.2 = if decide (p' = p ∧ t' = t) then Some h else umh_lookup p' t' l
  else r = (CHIP_ERROR_TOO_MANY_UNSOLICITED_MESSAGE_HANDLERS, l) ∧ umh_lookup p t l = None ∧ Forall (λ u, UMH_IsInUse u = true) l.
Proof.
  intros Hok. unfold RegisterUMH. pose proof (find_umh_slot_spec p t 0 None l) as Hf.
  destruct (find_umh_slot p t 0 None l) as [j|]; cbv zeta; simpl; [|naive_solver].
  destruct Hf as [(n & u & -> & Hn & Hu)|(Hnone & [?|(_ & n & u & -> & Hn & Hu)])]; [|done|]; eapply umh_fill; eauto.
Qed.

Lemma unregister_spec p t l :
  umh_ok l = true →
  let r := UnregisterUMH p t l in
  if ok r.1 then is_Some (umh_lookup p t l) ∧ umh_ok r.2 = true ∧
      ∀ p' t', umh_lookup p' t' r.2 = if decide (p' = p ∧ t' = t) then None else umh_lookup p' t' l
  else r = (CHIP_ERROR_NO_UNSOLICITED_MESSAGE_HANDLER, l) ∧ umh_lookup p t l = None.
Proof.
  cbv zeta. induction l as [|u l IH]; intros Hok; [done|]. apply umh_ok_cons in Hok as [Hu Hok]. specialize (IH Hok).
  simpl UnregisterUMH. simpl umh_lookup. destruct (UMH_IsInUse u && UMH_Matches p t u) eqn:Hm.
  - apply andb_true_iff in Hm as [Huse Hm]. apply UMH_Matches_spec in Hm as [<- <-]. specialize (Hu Huse).
    apply bool_decide_eq_true in Huse as Hs. split; [done|]. split; [done|]. intros p' t'. simpl. case_decide as Hd.
    + destruct Hd as [-> ->]. done.
    + rewrite Huse. simpl. destruct (UMH_Matches p' t' u) eqn:Hm'; [|done]. apply UMH_Matches_spec in Hm' as [<- <-]. by destruct Hd.
  - destruct (UnregisterUMH p t l) as [err l'] eqn:Hun. simpl in *. destruct (ok err); [|naive_solver].
    destruct IH as (Hs & Hok' & Hl'). split; [done|]. split.
    + apply umh_ok_cons. split; [|done]. intros Huse. rewrite Hl'. case_decide; [done|auto].
    + intros p' t'. simpl. rewrite Hl'. case_decide as Hd; [|done]. destruct Hd as [-> ->]. by rewrite Hm.
Qed.

Lemma match_umh_spec h m l :
  umh_ok l = true → mMessageType h ≠ kAnyMessageType →
  match_umh h m l =
    match umh_lookup (mProtocolID h) (mMessageType h) l with
    | Some x => Some x
    | None => match umh_lookup (mProtocolID h) kAnyMessageType l with Some x => Some x | None => m end
    end.
Proof.
  intros Hok Hty. revert m. induction l as [|u l IH]; intros m; [done|]. apply umh_ok_cons in Hok as [Hu Hok]. specialize (IH Hok).
  simpl. unfold UMH_Matches. destruct (UMH_IsInUse u) eqn:Huse; [|apply IH]. specialize (Hu eq_refl). simpl.
  destruct (decide (umh_ProtocolId u = mProtocolID h)) as [Hp|Hp].
  - rewrite !(bool_decide_true) by congruence. simpl. apply bool_decide_eq_true in Huse as (x & Hx).
    destruct (Z.eqb_spec (umh_MessageType u) (mMessageType h)) as [Ht|Ht]; [by rewrite Hx|]. rewrite IH.
    destruct (Z.eqb_spec (umh_MessageType u) kAnyMessageType) as [Ha|Ha]; [|done]. rewrite Hp, Ha in Hu. rewrite Hu, Hx. done.
  - rewrite !bool_decide_false by congruence. apply IH.
Qed.

(** * Theorems *)

(** C2: In every state that the layer reaches from empty pools, by calls of the application on
    exchanges it owns, messages, ended sessions and timers in any order and with any answers of
    transport, buffers and delegates, each further call returns: no [VerifyOrDie] fails, no
    reference is taken or dropped of an exchange that was released, and no retransmission finds
    an exchange without a session, when the system layer accepts timers. *)
Theorem exchange_calls_return E w c :
  reachable E w → allowed c w = true → (∀ n, env_timer E n = CHIP_NO_ERROR) → ∃ w', api E c w = Done () w'.
Proof.
  intros Hr Ha Ht. pose proof (wp_api E c w (reachable_Inv _ _ Hr) Ha) as Hwp. pose proof (accepts_api E Ht c w) as Hacc.
  unfold wp in Hwp. destruct (api E c w) as [[] w'|d]; [eauto|]. by subst.
Qed.

(** C10: In every reachable state the reference count of an exchange is the creator's reference,
    until [Close] or [Abort], and one for the message in the table of retransmissions, of which
    there is one exactly if the exchange waits for an acknowledgement; so an exchange that was
    closed stays in its pool as long as its last message waits, and no longer. A free place of
    the pool has neither a message nor a timer. *)
Theorem exchange_references_exact E w k :
  reachable E w →
  match the_ec k w with
  | Some c => entries (w_table w) k = Z.b2z (IsWaitingForAck c) ∧
      ec_mRefCount c = Z.b2z (ec_owner c) + Z.b2z (IsWaitingForAck c) ∧ 0 < ec_mRefCount c ∧
      (ec_owner c = false → ec_has kFlagClosed c = true ∧ IsWaitingForAck c = true)
  | None => entries (w_table w) k = 0 ∧ w_responseTimers w !! k = None
  end.
Proof.
  intros Hr%reachable_Inv. destruct (the_ec k w) as [c|] eqn:Hk.
  - apply the_ec_live in Hk. destruct (inv_ctx _ _ Hr k c Hk). simpl holds in *. split_and!; try done; [lia|].
    intros Ho. rewrite Ho in *. simpl in *. split.
    + destruct (ec_has kFlagClosed c); [done|]. by specialize (ok_open eq_refl).
    + destruct (IsWaitingForAck c); [done|]. simpl in *. lia.
  - destruct (inv_free _ _ Hr k) as (H1 & _ & H2); [|done]. intros c Hc. unfold the_ec in Hk. unfold live in Hc. by rewrite Hc in Hk.
Qed.

(** C23: In every reachable state with an acknowledgement to send or a message to repeat the timer
    is set, and fires no later than the time of that action, or at once. *)
Theorem timer_covers_deadlines E w :
  reachable E w →
  (∀ k c, the_ec k w = Some c → IsAckPending c = true → covered (w_now w) (w_timer w) (ec_mNextAckTime c)) ∧
  (∀ i e, w_table w !! i = Some (Some e) → covered (w_now w) (w_timer w) (re_nextRetransTime e)).
Proof.
  intros Hr%reachable_Inv. split.
  - intros k c Hk%the_ec_live. by apply (inv_ctx _ _ Hr k c Hk).
  - intros i e Hi. by apply (inv_entry _ _ Hr i e Hi).
Qed.

(** C26: What the layer has done in any reachable state: a message that acknowledges another one,
    by itself or as the answer, acknowledges one that the same exchange received and that asked
    for it, and no delegate got a message while its exchange waited for an acknowledgement. *)
Theorem acknowledges_only_received E w ev :
  reachable E w → ev ∈ w_trace w →
  match ev with
  | EvSent uid _ h => ∀ a, mAckMessageCounter h = Some a → EvReceived uid a true ∈ w_trace w
  | EvDelivered _ _ waiting => waiting = false
  | _ => True
  end.
Proof. intros Hr%reachable_Inv Hev. exact (proj1 (Forall_forall _ _) (inv_trace _ _ Hr) ev Hev). Qed.


(** C35: The handlers of unsolicited messages are a map from protocol and message type: registering
    sets the handler of a key, and fails only if the key is new and every slot is taken;
    unregistering removes a key, and fails only if it has no handler; neither touches another
    key. A message goes to the handler of its type, and else to that of its protocol. *)
Theorem handlers_are_map p t h l :
  umh_ok l = true →
  (let r := RegisterUMH p t h l in
   if ok r.1 then umh_ok r.2 = true ∧ ∀ p' t', umh_lookup p' t' r.2 = if decide (p' = p ∧ t' = t) then Some h else umh_lookup p' t' l
   else r = (CHIP_ERROR_TOO_MANY_UNSOLICITED_MESSAGE_HANDLERS, l) ∧ umh_lookup p t l = None ∧ Forall (λ u, UMH_IsInUse u = true) l) ∧
  (let r := UnregisterUMH p t l in
   if ok r.1 then is_Some (umh_lookup p t l) ∧ umh_ok r.2 = true ∧
     ∀ p' t', umh_lookup p' t' r.2 = if decide (p' = p ∧ t' = t) then None else umh_lookup p' t' l
   else r = (CHIP_ERROR_NO_UNSOLICITED_MESSAGE_HANDLER, l) ∧ umh_lookup p t l = None) ∧
  ∀ header, mMessageType header ≠ kAnyMessageType →
    match_umh header None l =
      match umh_lookup (mProtocolID header) (mMessageType header) l with
      | Some x => Some x
      | None => umh_lookup (mProtocolID header) kAnyMessageType l
      end.
Proof.
  intros Hok. split; [by apply register_spec|]. split; [by apply unregister_spec|]. intros header Hty. rewrite match_umh_spec by done.
  destruct (umh_lookup _ _ l); [done|]. by destruct (umh_lookup _ _ l).
Qed.

(** * Runs *)

(** A device that answers a request over a UDP session: handler 5 is for the interaction model,
    its delegate 6 says that it will answer. *)
Definition example_env : Env :=
  mkEnv plain_settings (λ _, 0) (λ n, (CHIP_NO_ERROR, Z.of_nat n)) (λ _, CHIP_NO_ERROR) (λ _, true) (λ _, CHIP_NO_ERROR) (λ _, false)
    (λ _, ([ActWillSend], CHIP_NO_ERROR)) (λ _, []) (λ _, (CHIP_NO_ERROR, Some 6%nat)).

Definition example_protocol : ProtocolId := mkProtocolId 0 1.
Definition example_handlers : list UMHSlot :=
  [mkUMH example_protocol kAnyMessageType (Some 5%nat); mkUMH example_protocol 0 None].
Definition example_session : Session := mkSession kSecure true kActive true GetDefaultMRPConfig 0.
Definition example_packet : PacketHeader := SetMessageCounter 1000 (SetSessionId 5 PacketHeader_new).
Definition example_request : PayloadHeader :=
  SetExchangeID 7 (SetNeedsAck true (SetInitiator true (SetMessageType example_protocol 2 PayloadHeader_new))).

(** The request arrives. *)
Definition example_received : list label :=
  [NewSession example_session; Call (CallOnMessageReceived example_handlers example_packet example_request 0 false)].

(** The answer goes out, is repeated when 600 ms have passed, and is acknowledged. *)
Definition example_answer : label := Call (CallPerform 0 (ActSend example_protocol 5 (mkSendFlags false false))).
Definition example_answered : list label := example_received ++ [example_answer; Clock 1600].
Definition example_ack (counter : Z) : PayloadHeader :=
  SetAckMessageCounter (Some counter) (SetExchangeID 7 (SetInitiator true (SetMessageType SecureChannel_Id StandaloneAck PayloadHeader_new))).

Definition world_of (ls : list label) : World := default (initial 0 0 0 0) (run example_env ls (initial 2 2 1000 1)).

Definition answered : World := Eval vm_compute in world_of example_answered.

Lemma answered_reachable : reachable example_env answered.
Proof.
  apply (run_reachable example_env example_answered (initial 2 2 1000 1)); [apply reach_initial; lia|].
  vm_compute. reflexivity.
Qed.

(** The acknowledgement of the answer arrives, and the exchange, closed since the answer was
    sent, is released. *)
Lemma exchange_calls_return_witness :
  let c := CallOnMessageReceived example_handlers (SetMessageCounter 1001 example_packet) (example_ack 3) 0 false in
  ∃ w', api example_env c answered = Done () w'.
Proof.
  intros c. apply (exchange_calls_return example_env answered c); [exact answered_reachable|reflexivity|done].
Defined.

Lemma exchange_references_exact_witness :
  (∃ c, the_ec 0 answered = Some c ∧ ec_owner c = false ∧ ec_mRefCount c = 1) ∧
  entries (w_table answered) 0 = 1 ∧ entries (w_table answered) 1 = 0.
Proof.
  pose proof (exchange_references_exact example_env answered 0 answered_reachable) as H0.
  pose proof (exchange_references_exact example_env answered 1 answered_reachable) as H1.
  split; [eexists; split; [reflexivity|split; reflexivity]|]. split; [exact (proj1 H0)|exact (proj1 H1)].
Defined.

Lemma timer_covers_deadlines_witness :
  ∃ e, w_table answered !! 0%nat = Some (Some e) ∧ covered (w_now answered) (w_timer answered) (re_nextRetransTime e).
Proof.
  eexists. split; [reflexivity|].
  refine (proj2 (timer_covers_deadlines example_env answered answered_reachable) 0%nat _ _). reflexivity.
Defined.

(** The answer acknowledges the request. *)
Lemma acknowledges_only_received_witness :
  ∃ h, EvSent 0 3 h ∈ w_trace answered ∧ mAckMessageCounter h = Some 1000 ∧ EvReceived 0 1000 true ∈ w_trace answered.
Proof.
  eexists. split; [apply list_elem_of_further, list_elem_of_here|]. split; [reflexivity|].
  refine (acknowledges_only_received example_env answered (EvSent 0 3 _) answered_reachable _ 1000 _); [apply list_elem_of_further, list_elem_of_here|reflexivity].
Defined.


Lemma handlers_are_map_witness :
  match_umh example_request None (RegisterUMH example_protocol 2 9 example_handlers).2 = Some 9%nat.
Proof.
  destruct (handlers_are_map example_protocol 2 9 example_handlers eq_refl) as [H1 _]. destruct H1 as [Hok Hl].
  destruct (handlers_are_map example_protocol 2 9 _ Hok) as (_ & _ & Hm). rewrite Hm by done.
  rewrite (Hl (mProtocolID example_request) (mMessageType example_request)). reflexivity.
Defined.

(** An application has said that it will answer, and the session ends before the
    acknowledgement of the request was sent: the exchange cannot send it any more, but keeps it
    pending, so that as soon as it is due the timer is set to fire at once, each time it has
    fired, until the application sends its answer or closes the exchange. *)
Definition example_lost : World :=
  Eval vm_compute in world_of (example_received ++ [Call (CallSessionReleased 0); Clock 1200; Call CallTimeout]).

Theorem lost_session_spins :
  reachable example_env example_lost ∧
  (∃ c, the_ec 0 example_lost = Some c ∧ IsAckPending c = true ∧ ec_mSession c = None) ∧
  ∀ n, exec example_env (Call CallTimeout) (wset_tick n example_lost) = Some (wset_tick (S (S n)) example_lost).
Proof.
  split; [|split].
  - apply (run_reachable example_env (example_received ++ [Call (CallSessionReleased 0); Clock 1200; Call CallTimeout]) (initial 2 2 1000 1));
      [apply reach_initial; lia|vm_compute; reflexivity].
  - eexists. split_and!; reflexivity.
  - intros n. vm_compute. reflexivity.
Qed.

(** A message that expects a response makes the exchange expect it when the response timeout is 0
    too, and when the session ends the delegate is told of the timeout of the response. *)
Theorem zero_timeout_expects_response :
  ∃ w c, run example_env
      [NewSession example_session; Call (CallNewContext 0 (Some 6%nat) true);
       Call (CallPerform 0 (ActSetResponseTimeout 0)); Call (CallPerform 0 (ActSend example_protocol 2 (mkSendFlags true false)))]
      (initial 2 2 1000 1) = Some w ∧
    the_ec 0 w = Some c ∧ IsResponseExpected c = true ∧ w_responseTimers w !! 0%nat = None ∧
    ∃ w', exec example_env (Call (CallSessionReleased 0)) w = Some w' ∧ EvResponseTimeout 0 ∈ w_trace w'.
Proof.
  eexists _, _. split; [vm_compute; reflexivity|]. split_and!; [reflexivity..|]. eexists. split; [vm_compute; reflexivity|].
  apply list_elem_of_further, list_elem_of_here.
Qed.

(** The same device, with a network that is down. *)
Definition broken_env : Env :=
  mkEnv plain_settings (λ _, 0) (λ n, (CHIP_NO_ERROR, Z.of_nat n)) (λ _, CHIP_ERROR_POSIX_ENETUNREACH) (λ _, true) (λ _, CHIP_NO_ERROR) (λ _, false)
    (λ _, ([ActWillSend], CHIP_NO_ERROR)) (λ _, []) (λ _, (CHIP_NO_ERROR, Some 6%nat)).

(** A request without a response timeout that could not be sent leaves the exchange expecting the
    response, so that the request cannot be sent again on it. *)
Theorem failed_request_blocks_retry :
  ∃ w w1 w2, run broken_env [NewSession example_session; Call (CallNewContext 0 (Some 6%nat) true)] (initial 2 2 1000 1) = Some w ∧
    SendMessage broken_env 0 example_protocol 2 (mkSendFlags true false) w = Done CHIP_ERROR_POSIX_ENETUNREACH w1 ∧
    SendMessage example_env 0 example_protocol 2 (mkSendFlags true false) w1 = Done CHIP_ERROR_INCORRECT_STATE w2.
Proof. eexists _, _, _. do 2 (split; [vm_compute; reflexivity|]). vm_compute; reflexivity. Qed.

(** An answer that finds no place in the table of retransmissions takes the acknowledgement of the
    request with it, although nothing was sent, and ends a CASE session. *)
Theorem full_table_drops_ack :
  ∃ w w1 c sess, run example_env example_received (initial 2 0 1000 1) = Some w ∧
    SendMessage example_env 0 example_protocol 5 (mkSendFlags false false) w = Done CHIP_ERROR_RETRANS_TABLE_FULL w1 ∧
    the_ec 0 w1 = Some c ∧ IsAckPending c = false ∧ w_sessions w1 !! 0%nat = Some sess ∧ s_state sess = kDefunct ∧ w_trace w1 = w_trace w.
Proof. eexists _, _, _, _. split; [vm_compute; reflexivity|]. split; [vm_compute; reflexivity|]. split_and!; reflexivity. Qed.
